(* ===== verification/_CoqProject ===== *)
-Q . S2P
Prelude.v
Values.v
Except.v
Arena.v
HashTable.v
Collections.v
Messages.v
StoreHolder.v
BdbKeys.v
Bdb.v
BdbSpec.v
BdbTxn.v
MemDb.v
Kernel.v
KernelStore.v
Dispatcher.v
DispatcherSpec.v
Waiting.v
Security.v
Server.v
ServerSpec.v
Base64.v
CJson.v
JsonMsg.v
JsonKernel.v
Threads.v
Script.v
ScriptSpec.v
Pool.v
JclText.v
JclParser.v
Jcl.v
JclSpec.v
Net.v
NetSpec.v
Client.v
ClientSpec.v
