(* ===== verification/Prelude.v ===== *)
(** * OeScript core library: a verification development

    OeScript is a tuple space server.  Clients connect to a named extent, put
    tuples or maps with a lease, get (read or take) them by template, wait for
    them, and group puts and takes in transactions.  The development models
    the C code of [src/corelib], where all of this is implemented; the rest of
    the repository is scripting bindings, examples, tests and vendored or
    generated code.

    ** The parts and how they interact

    A connection's bytes are decoded to a message ([json_msg_factory.c] over
    [cJSON.c] and [modp_b64.c]); the session ([OeSession.c], [OepServer.c])
    checks it, asks the security context ([SecurityContext.c] and the login
    modules) and hands it to the kernel of the extent ([OEK*.c]).  The kernel
    executes it against the store's table of operations ([OeStore.c]), which
    [OeBdb.c] implements on Berkeley DB; items are kept there in the byte form
    of [OeStoreHolder.c].  A get that finds nothing and may wait is registered
    with the template matcher ([Oed_Dispatcher.c]); an item that becomes
    visible is an event, which wakes the gets it matches, and those are
    executed again.  The answer goes through the session's callback back to
    the client, which also keeps the set of the session's open transactions.
    On the wire between C clients and the server a message is a statement of
    the JCL language, ended by an empty line ([OeJclNet.c] over
    [OeJclEncoder.c] and [OeJclDecoder.c]); the client ([OepClient.c]) keeps
    the contexts that wait for an answer in a table under the id of their
    command.

    ** Files

    - [Prelude]: machine integers ([wrapu], [wraps]), bytes and strings,
      assertions, the scope [oes_scope], the hint databases [oes] and [oes_rw].
    - [Values]: [arith.c], [oec_values.c], [oec_values.h].
    - [Except]: the macros of [except.h] and the stack of [except.c], with
      [mem.c] and the thread functions that catch; [Arena]: [arena.c] over
      the class [Malloc] of the allocator it calls.
    - [HashTable]: [arenatable.c] (Module ArenaTable), [set.c] (HSet),
      [Oec_IdSet.c] (IdSet), [SKeyTable.c] (SKeyTable); the comparison and
      hash callbacks are the class [KeyOps].
    - [Collections]: [Oec_AList.c], [list.c], [ArrayIterator.c],
      [Iterator.c], [DataObject.c], [DataObjectList.c].
    - [Messages]: [OekMsg.c], the message bodies, [OekMsgTemplateMatcher.c].
    - [StoreHolder]: [OeStoreHolder.c], [OeStoreQuery.c].
    - [BdbKeys], [Bdb]: [OeBdb.c], against the class [BerkeleyDB] of the
      library calls it makes; [BdbSpec] and [BdbTxn] state and prove what it
      promises over the abstract store [astore]; [MemDb] is an instance of
      [BerkeleyDB] and its laws, on which the theorems are run.
    - [Kernel]: [OEK.c], [OEK_impl.c], [OEK_get.c], [OEK_put.c], [OEK_sta.c],
      [OEK_upl.c], [OEK_upt.c] and the table of [OeStore.c] as the class
      [OeStoreOps]; [KernelStore] states the laws of a store as the class
      [OeStoreSpec], discharges them for the Berkeley DB store, and shows that
      over such a store the kernel implements a tuple space ([served]).
    - [Dispatcher], [DispatcherSpec]: [Oed_Dispatcher.c] on an explicit heap,
      and what it guarantees in every reachable state; [Waiting] composes it
      with [Kernel]: the database threads, the registrations of gets and the
      write events as the steps of one system.
    - [Security]: [Subject.c], [Privilege.c], [SecurityContext.c],
      [LoginModule.c], [BaseLoginModule.c], [BuiltInLoginModule.c].
    - [Server], [ServerSpec]: [OeSession.c], [OepServer.c] and the life of a
      connection in [OeLibevent2Factory.c], and what they guarantee in every
      run of a session.
    - [Base64]: [modp_b64.c]; [CJson]: [cJSON.c]; [JsonMsg]:
      [json_msg_factory.c]; [JsonKernel]: [JsonKernel.c], which joins them to
      the kernel.
    - [Threads]: [Oec_Future.c] (Module Future), [Oec_CountdownLatch.c]
      (Module Latch); [Pool]: [Oe_Thread_Dispatcher.c].
    - [Script]: [OesKernel_impl.c] and the destructors of [OeScript.i], the
      calls of the scripting modules as steps that interleave with those of
      the kernel's threads; [ScriptSpec]: what they guarantee.
    - [JclText]: the lexer and the grammar of [oejcl_parser.l] and
      [oejcl_parser.y] with the trees of [oejcl_parser.c], and [oejcl_parse]
      over the class [BisonParser] of the generated parser; [JclParser] is an
      instance of it, and models nothing; [Jcl]: [OeJclEncoder.c],
      [OeJclDecoder.c]; [JclSpec]: what they promise together.
    - [Net]: [OeNetConn.c] and the buffers of [OeLibeventConnFactory.c] over
      the class [Bufferevent] of the library's calls, [OeJclNet.c] and
      [JsonNet.c]; [NetSpec]: what a stream of messages delivers.
    - [Client]: [OepClient.c] with the addresses of [oep_utils.c];
      [ClientSpec]: what it guarantees to its callers, against the class
      [ClientWire] of the functions that read and write a message.

    Definitions keep the names of the C functions and constants; a loop of a
    function is a Fixpoint with a name of its own, structural on the list the
    loop walks over, or with fuel.

    ** Conventions

    An outer [option] is memory safety: [None] is a failed assertion, a read
    through a null pointer or outside a block, or the use of freed memory.
    Error codes are values.  Machine integers are [Z] with their wrap-around
    written at each operation that can overflow; sizes and pointers have 64
    bits (LP64), bytes are little endian.  Objects that are reached through
    more than one pointer live in an explicit store of addresses ([sec] in
    Security, the heap of Dispatcher, [cell] in Server); others are values.
    The clock is an argument.  Memory allocation succeeds, except in
    [Except] and [Arena], which are about what happens when it does not.

    Threads are interleaved between the calls that lock.  Where a function
    gives up the lock in between, or reads before it takes it, an argument
    says what the other threads have done meanwhile: [between] of
    [Oed_Dispatcher_reg_group], and [seen] of [_api_put_seen] and
    [_api_get_seen], which is the database that [_txn_is_active] looks at;
    [_api_put] and [_api_get] are the calls that nothing comes between.  A
    signal of the pool's condition variable says which waiting worker it wakes.
    The keys of the matcher's table carry whose strings they lie in
    ([key_ref]), and a lookup that reads a released one fails.

    Fuel: [Base64.encode_loop] and [decode_loop] get one more than the number
    of bytes, [CJson.parse_value] one more than the length of the text, and
    every string scan the length of what it scans; each round trip theorem
    shows that the result does not run out of it.  The retry loop of a command
    has the code's own bound.

    ** What the theorems show

    - Store: a put adds exactly one item or nothing ([api_put_spec]); a read
      changes nothing and returns visible matches ([api_get_read]); a take is
      all or nothing ([api_take_spec]); ending a transaction is atomic
      ([update_txn_spec], [txn_final], [take_then_end]); every reachable state
      keeps locks, owners and transactions consistent ([store_invariant]);
      leases ([update_lease_spec], [lease_reaper_safe]); the index keys find
      what the template describes ([tuple_match_spec], [map_match_spec]); the
      byte form of an item is read back ([holder_roundtrip]).
    - Kernel: every command is answered once with its ids
      ([kernel_answers]), also through retries; over a store that meets the
      interface the kernel implements a tuple space ([kernel_refines]), and
      so does the path from a command's text to its answer's
      ([json_serves]).
    - Matcher: no freed memory is read ([matcher_safe]) and a registration is
      woken at most once ([wait_woken_once]), as long as reads have one
      template, registrations are not interrupted and strings stay
      ([read_group_uses_freed], [group_freed_while_read] and [stale_key_read]
      show what happens otherwise); an event wakes what it covers
      ([event_wakes]); together with the kernel, however the threads
      interleave, every command is in exactly one place until it is finished
      ([contexts_accounted]).
    - Server and security: only authenticated and authorised commands reach a
      kernel ([commands_guarded], [access_control], [admin_spec]); a session
      is safe but for the responses it reads ([session_safe]), is released
      ([session_released]) and rolls its transactions back
      ([rollback_on_disconnect]).
    - Protocol: trees and messages survive their text ([json_roundtrip],
      [message_roundtrip]), the decoder returns well-formed messages only
      ([json_create_wf]), base64 ([b64_roundtrip], [b64_decode_errors]); the
      grammar of the statement language can be parsed and is unambiguous
      ([parser_is_grammar], [grammar_unambiguous]), a message survives being
      written as a statement ([jcl_roundtrip]), the result of a read fills the variables of a later
      write ([read_fills_write]), and the fixed blocks that responses are
      printed to overflow exactly from a given size of ids
      ([response_block_bounds]).
    - Threads: a future hands over what it was set to and is not used after
      it is released ([future_safe]); stopping the pool returns, no waiting
      worker misses its signal ([stop_terminates]), after every job handed in before has run
      ([pool_stop_drains]).
    - Scripting interface: a program that keeps to its role never fails an
      assertion and waits for something that happens ([script_safe]); the
      end of a transaction comes after all its operations and counts their
      items ([commit_counts]), but for those a callback has still to count
      ([commit_undercounts]); the kernel answers as the callbacks expect
      ([kernel_answered]); the text of an exception ([exception_text]).
    - Data structures: tables are maps, sets have their algebra, iterators
      stop ([table_is_map], [set_algebra], [object_iteration]).
    - Network and client: however the bytes are divided, the receiver reads
      the messages in order, each once, in statements ([stream_delivers]) and
      in JSON ([json_stream_delivers]); the client gives
      each context back once, with its answer and no other
      ([client_answers]), and connects with what its address says
      ([connect_succeeds]).
    - Allocation and exceptions: an arena never hands out overlapping blocks
      or reads outside its chunks ([arena_safe]) and loses none
      ([arena_no_leak]); the macros of [except.h] mean what their names say
      as long as a block is left in the ways they allow ([expand_correct]),
      and a job that runs out of memory leaves its thread alive
      ([process_fun_contains]).
    - Where the code falls short of its intention, a theorem states the
      behaviour it has ([wide_ids_collapse], [get_response_encoded],
      [json_unclosed_overruns], [rollback_uses_freed],
      [response_aborts_server], [take_starves_read], [read_group_uses_freed],
      [compare_oe_time_spec], [latch_spec], [jcl_peek_early],
      [disconnect_tells_nobody], [clean_up_half], [return_leaves_frame],
      [results_freed_twice], [json_foreign_aborts], [json_forever_expires],
      [lost_wakeup_runs], [put_joins_ended], [stale_key_read],
      [group_freed_while_read], [empty_line_cuts]).

    ** What is assumed

    [BerkeleyDBSpec] states the documented behaviour of the database calls
    the store makes and leaves every result code open; [memdb_spec] shows that
    it can hold.  It promises nothing for a handle that has been committed or
    aborted, and the model fails where the code uses one.  [OeStoreSpec] is what the kernel relies on, shown for the
    Berkeley DB store.  [pow] of the C library is the parameter [pow10] of the
    JSON parser, with [pow10 0 = 1] as the only hypothesis.  The jobs of the
    pool return.  [Malloc] and [Bufferevent] state what the allocator and the
    buffers of libevent do; both have instances on which the theorems are run.

    ** Not modelled, and why

    The set-up of sockets and of TLS, PAM, the handlers of signals and the
    reading of the configuration only call other libraries around the
    functions modelled here; statistics, logging and the printing of trees
    are output.  The JCL lexer and grammar are modelled from their flex and
    bison sources, not from the tables generated from them; that bison
    generates a parser of the grammar is the law of [BisonParser].
    The C code of the scripting modules is generated by SWIG. *)

From Stdlib Require Export ZArith Lia Ascii.
From stdpp Require Export base list strings gmap numbers option.

#[global] Open Scope Z_scope.

(** ** Machine integers *)

Definition wrapu (w x : Z) : Z := x mod 2 ^ w.

Definition wraps (w x : Z) : Z :=
  let m := x mod 2 ^ w in if m <? 2 ^ (w - 1) then m else m - 2 ^ w.

Declare Scope oes_scope.
Delimit Scope oes_scope with oes.
Notation "'u32'" := (wrapu 32) (only parsing) : oes_scope.
Notation "'u64'" := (wrapu 64) (only parsing) : oes_scope.
Notation "'i32'" := (wraps 32) (only parsing) : oes_scope.
Notation "'i64'" := (wraps 64) (only parsing) : oes_scope.
#[global] Open Scope oes_scope.

Definition in_u (w x : Z) : Prop := 0 ≤ x < 2 ^ w.
Definition in_s (w x : Z) : Prop := - 2 ^ (w - 1) ≤ x < 2 ^ (w - 1).

Create HintDb oes.
Create Rewrite HintDb oes_rw.

Lemma wrapu_id w x : in_u w x → wrapu w x = x.
Proof. intros H. unfold wrapu. apply Z.mod_small. exact H. Qed.

Lemma wrapu_range w x : 0 ≤ w → in_u w (wrapu w x).
Proof. intros Hw. unfold in_u, wrapu. apply Z.mod_pos_bound. lia. Qed.

Lemma pow2_half w : 0 < w → 2 ^ w = 2 * 2 ^ (w - 1).
Proof.
  intros Hw. replace w with (Z.succ (w - 1)) at 1 by lia.
  apply Z.pow_succ_r. lia.
Qed.

Lemma wraps_range w x : 0 < w → in_s w (wraps w x).
Proof.
  intros Hw. unfold in_s, wraps. pose proof (pow2_half w Hw) as Hp.
  pose proof (Z.mod_pos_bound x (2 ^ w) ltac:(lia)).
  case_match eqn:E; lia.
Qed.

Lemma wraps_id w x : 0 < w → in_s w x → wraps w x = x.
Proof.
  unfold in_s, wraps. intros Hw Hx. pose proof (pow2_half w Hw) as Hp.
  destruct (decide (0 ≤ x)).
  - rewrite Z.mod_small by lia. case_match eqn:E; lia.
  - assert (x mod 2 ^ w = x + 2 ^ w) as ->.
    { symmetry. apply Z.mod_unique with (-1); lia. }
    case_match eqn:E; lia.
Qed.

Lemma wraps_mod w x : 0 ≤ w → wraps w (x mod 2 ^ w) = wraps w x.
Proof. intros Hw. unfold wraps. rewrite Z.mod_mod by lia. done. Qed.

(** The wrapped value and the exact one agree modulo [2 ^ w]. *)
Lemma wraps_add w x y : 0 < w → wraps w (wraps w x + y) = wraps w (x + y).
Proof.
  intros Hw. rewrite <-(wraps_mod w (wraps w x + y)), <-(wraps_mod w (x + y)) by lia. f_equal.
  assert (wraps w x mod 2 ^ w = x mod 2 ^ w) as E.
  { unfold wraps. case_match; [by rewrite Z.mod_mod by lia|].
    replace (x mod 2 ^ w - 2 ^ w) with (x mod 2 ^ w + (-1) * 2 ^ w) by lia.
    by rewrite Z.mod_add, Z.mod_mod by lia. }
  by rewrite <-Z.add_mod_idemp_l, E, Z.add_mod_idemp_l by lia.
Qed.

Lemma wrapu_mod w x y : wrapu w x = wrapu w y ↔ x mod 2 ^ w = y mod 2 ^ w.
Proof. done. Qed.

#[export] Hint Resolve wrapu_range wraps_range : oes.

(** ** Assertions

    [assert(e)] aborts the process when [e] is zero.  Code that contains
    assertions is modelled in the option monad, [None] being the abort. *)

Definition c_assert (b : bool) : option unit := if b then Some () else None.

Lemma c_assert_Some b u : c_assert b = Some u ↔ b = true.
Proof. destruct b, u; naive_solver. Qed.

(** ** Characters and bytes *)

(** [char] is signed on the supported targets. *)
Definition uchar_z (c : ascii) : Z := Z.of_N (N_of_ascii c).
Definition char_z (c : ascii) : Z := wraps 8 (uchar_z c).

Lemma uchar_z_range c : 0 ≤ uchar_z c < 256.
Proof.
  unfold uchar_z. pose proof (N_ascii_bounded c). lia.
Qed.

Lemma char_z_range c : -128 ≤ char_z c < 128.
Proof. apply (wraps_range 8). lia. Qed.

Definition ascii_of_z (z : Z) : ascii := ascii_of_N (Z.to_N (z mod 256)).

Lemma ascii_of_z_uchar c : ascii_of_z (uchar_z c) = c.
Proof.
  unfold ascii_of_z, uchar_z. pose proof (N_ascii_bounded c).
  rewrite Z.mod_small by lia. rewrite N2Z.id. apply ascii_N_embedding.
Qed.

Lemma uchar_z_inj c d : uchar_z c = uchar_z d → c = d.
Proof. intros H. by rewrite <-(ascii_of_z_uchar c), H, ascii_of_z_uchar. Qed.

Fixpoint bytes_of (s : string) : list Z :=
  match s with
  | EmptyString => []
  | String c s => uchar_z c :: bytes_of s
  end.

Fixpoint string_of_bytes (l : list Z) : string :=
  match l with
  | [] => EmptyString
  | b :: l => String (ascii_of_z b) (string_of_bytes l)
  end.

Lemma string_of_bytes_of s : string_of_bytes (bytes_of s) = s.
Proof. induction s; cbn; [done|]. by rewrite ascii_of_z_uchar, IHs. Qed.

Lemma bytes_of_inj s t : bytes_of s = bytes_of t → s = t.
Proof. intros H. by rewrite <-(string_of_bytes_of s), H, string_of_bytes_of. Qed.

Definition is_byte (b : Z) : Prop := 0 ≤ b < 256.

Lemma bytes_of_bytes s : Forall is_byte (bytes_of s).
Proof. induction s; cbn; constructor; [apply uchar_z_range|done]. Qed.

Lemma bytes_of_string l : Forall is_byte l → bytes_of (string_of_bytes l) = l.
Proof.
  induction 1 as [|b l Hb _ IH]; cbn; [done|]. unfold is_byte in Hb. f_equal; [|done].
  unfold uchar_z, ascii_of_z. rewrite N_ascii_embedding; [|rewrite Z.mod_small; lia].
  rewrite Z.mod_small, Z2N.id; lia.
Qed.

(** A C string has no embedded NUL. *)
Definition no_nul (s : string) : Prop := 0 ∉ bytes_of s.

Lemma bytes_of_length s : length (bytes_of s) = String.length s.
Proof. induction s; cbn; congruence. Qed.

Lemma bytes_of_app s t : bytes_of (s +:+ t) = bytes_of s ++ bytes_of t.
Proof.
  induction s as [|c s IH]; [done|].
  change (uchar_z c :: bytes_of (s +:+ t) = uchar_z c :: (bytes_of s ++ bytes_of t)).
  by rewrite IH.
Qed.

(** Little-endian images of integers, as [memcpy] of an object copies them. *)
Fixpoint le_bytes (n : nat) (x : Z) : list Z :=
  match n with
  | O => []
  | S n => x mod 256 :: le_bytes n (x / 256)
  end.

Fixpoint le_val (l : list Z) : Z :=
  match l with
  | [] => 0
  | b :: l => b + 256 * le_val l
  end.

Lemma le_bytes_length n x : length (le_bytes n x) = n.
Proof. revert x; induction n; cbn; congruence. Qed.

Lemma le_bytes_bytes n x : Forall is_byte (le_bytes n x).
Proof.
  revert x; induction n; cbn; constructor; [|done].
  apply Z.mod_pos_bound. lia.
Qed.

Lemma le_val_bytes n x : le_val (le_bytes n x) = x mod 2 ^ (8 * Z.of_nat n).
Proof.
  revert x; induction n as [|n IH]; intros x; cbn [le_bytes le_val].
  - by rewrite Z.mod_1_r.
  - rewrite IH. replace (8 * Z.of_nat (S n)) with (8 + 8 * Z.of_nat n) by lia.
    rewrite Z.pow_add_r by lia. change (2 ^ 8) with 256.
    rewrite Z.rem_mul_r by lia. done.
Qed.

Lemma le_val_bytes_u n x w :
  w = 8 * Z.of_nat n → in_u w x → le_val (le_bytes n x) = x.
Proof. intros -> Hx. rewrite le_val_bytes. by apply Z.mod_small. Qed.

Lemma le_bytes_val l : Forall is_byte l → le_bytes (length l) (le_val l) = l.
Proof.
  induction 1 as [|b l Hb Hl IH]; [done|]. cbn [length le_val le_bytes]. unfold is_byte in Hb.
  rewrite (Z.mul_comm 256), Z.mod_add, Z.div_add, Z.mod_small, Z.div_small by lia.
  rewrite Z.add_0_l. by rewrite IH.
Qed.
Lemma le_val_range l : Forall is_byte l → 0 ≤ le_val l < 2 ^ (8 * Z.of_nat (length l)).
Proof. intros Hl. rewrite <-(le_bytes_val l Hl) at 1 2. rewrite le_val_bytes. apply Z.mod_pos_bound. lia. Qed.
Lemma le_val_pos l b : Forall is_byte l → b ∈ l → 0 < b → 0 < le_val l.
Proof.
  induction 1 as [|c l Hc Hl IH]; [by intros ?%elem_of_nil|]. cbn [le_val]. pose proof (le_val_range l Hl).
  unfold is_byte in Hc. intros [->|Hb]%list.elem_of_cons Hpos; [lia|]. specialize (IH Hb Hpos). lia.
Qed.

#[export] Hint Resolve bytes_of_bytes le_bytes_bytes uchar_z_range char_z_range : oes.

(** ** Lists *)

Lemma take_app_length_eq {A} (l k : list A) n :
  n = length l → take n (l ++ k) = l.
Proof. intros ->. apply take_app_length. Qed.

Lemma drop_app_length_eq {A} (l k : list A) n :
  n = length l → drop n (l ++ k) = k.
Proof. intros ->. apply drop_app_length. Qed.

(** Close the arithmetic side conditions that machine widths leave. *)
Ltac width := unfold in_u, in_s in *; cbn in *; lia.

(** ** Functions that return a pointer

    A result, a null pointer ([Some None]), or undefined behaviour. *)

Abbreviation parse A := (option (option A)).
Definition pbind {A B} (e : parse A) (k : A → parse B) : parse B :=
  match e with
  | None => None
  | Some None => Some None
  | Some (Some a) => k a
  end.
Notation "x <~ e ; k" := (pbind e (λ x, k))
  (at level 20, e at level 100, k at level 200, right associativity) : oes_scope.
Notation "' p <~ e ; k" := (pbind e (λ p, k))
  (at level 20, p pattern, e at level 100, k at level 200, right associativity) : oes_scope.

Lemma pbind_Some {A B} (e : parse A) (k : A → parse B) b :
  pbind e k = Some (Some b) ↔ ∃ a, e = Some (Some a) ∧ k a = Some (Some b).
Proof. destruct e as [[a|]|]; cbn; naive_solver. Qed.

(** Take a chain of steps that returned a result apart. *)
Ltac pbind_inv :=
  repeat match goal with
  | H : pbind _ _ = Some (Some _) |- _ =>
    let a := fresh "a" in let E := fresh "E" in
    apply pbind_Some in H as (a & E & H); try (destruct a as [? ?])
  end.

(** Induction over a list of keys and values in turn *)
Lemma pairs_ind {A} (P : list A → Prop) :
  P [] → (∀ a, P [a]) → (∀ a b l, P l → P (a :: b :: l)) → ∀ l, P l.
Proof. intros H0 H1 H2. fix IH 1. intros [|a [|b l]]; [done|done|]. apply H2, IH. Qed.

(** ** Texts that are ended by an empty line *)

(** No two newlines in a row *)
Fixpoint calm (l : list Z) : bool :=
  match l with
  | [] => true
  | a :: r => negb ((a =? 10) && bool_decide (head r = Some 10)) && calm r
  end.
(** Nor one at the start; nor one at the end *)
Definition opens (l : list Z) : Prop := calm l = true ∧ head l ≠ Some 10.
Definition framed (l : list Z) : Prop := opens l ∧ list.last l ≠ Some 10.

Lemma calm_cons a l : calm (a :: l) = negb ((a =? 10) && bool_decide (head l = Some 10)) && calm l.
Proof. done. Qed.
Lemma opens_app l k : opens l → opens k → opens (l ++ k).
Proof.
  intros [Hl Hh] [Hk Hkh]. split; [|by destruct l]. clear Hh. induction l as [|a l IH]; [done|].
  rewrite calm_cons in Hl. apply andb_true_iff in Hl as [Ha Hl]. cbn [app]. rewrite calm_cons.
  rewrite (IH Hl), andb_true_r. destruct l as [|b l]; [|done]. cbn [app].
  rewrite bool_decide_false by done. by rewrite andb_false_r.
Qed.
Lemma opens_quiet l : Forall (λ c, c ≠ 10) l → opens l.
Proof.
  induction 1 as [|c l Hc _ [IH _]]; [done|]. split; [|by intros [= ->]]. rewrite calm_cons, IH.
  by rewrite (proj2 (Z.eqb_neq c 10)).
Qed.
Lemma opens_cons c l : c ≠ 10 → calm l = true → opens (c :: l).
Proof. intros Hc Hl. split; [|by intros [= ->]]. rewrite calm_cons, Hl. by rewrite (proj2 (Z.eqb_neq c 10)). Qed.
Lemma calm_snoc l c : calm l = true → c ≠ 10 → calm (l ++ [c]) = true.
Proof.
  intros Hl Hc. induction l as [|a l IH]; [cbn; by rewrite andb_false_r|]. rewrite calm_cons in Hl. apply andb_true_iff in Hl as [Ha Hl].
  cbn [app]. rewrite calm_cons, (IH Hl), andb_true_r. destruct l as [|b l]; [|exact Ha]. cbn [app head].
  rewrite bool_decide_false by congruence. by rewrite andb_false_r.
Qed.
Lemma framed_snoc l c : opens l → c ≠ 10 → framed (l ++ [c]).
Proof.
  intros Hl Hc. split; [|rewrite last_snoc; congruence]. apply opens_app; [done|]. by apply opens_quiet; repeat constructor.
Qed.
Lemma framed_quiet l : Forall (λ c, c ≠ 10) l → framed l.
Proof.
  intros Hl. split; [by apply opens_quiet|]. intros Hlast. apply last_Some in Hlast as [k ->].
  apply list.Forall_app in Hl as [_ Hl]. by inversion Hl.
Qed.
