(* ===== verification/Values.v ===== *)
(** * Values: integers, strings, flags and time of the core library

    Models [src/corelib/arith.c], [src/corelib/oec_values.c] and the flag
    macros of [src/corelib/oec_values.h].  C [int] arithmetic is written with
    its wrap-around; memory the code allocates is a list of bytes of the
    allocated size, and a store outside it is [None]. *)

From stdpp Require Import pretty.
From S2P Require Import Prelude.

(** ** arith.c *)
Module Arith.

Definition Arith_max (x y : Z) : Z := if y <? x then x else y.
Definition Arith_min (x y : Z) : Z := if y <? x then y else x.

(** [-13/5 == -2] is the source's test for truncating division. *)
Definition rounds_down (x y : Z) : bool :=
  (Z.quot (-13) 5 =? -2) && negb (Bool.eqb (x <? 0) (y <? 0)) && negb (Z.rem x y =? 0).

Definition Arith_div (x y : Z) : Z :=
  if rounds_down x y then i32 (i32 (Z.quot x y) - 1) else i32 (Z.quot x y).

Definition Arith_mod (x y : Z) : Z :=
  if rounds_down x y then i32 (Z.rem x y + y) else Z.rem x y.

Definition Arith_floor (x y : Z) : Z := Arith_div x y.

Definition Arith_ceiling (x y : Z) : Z :=
  i32 (Arith_div x y + (if Z.rem x y =? 0 then 0 else 1)).

(** The inputs on which C's [x / y] is defined. *)
Definition div_defined (x y : Z) : Prop :=
  in_s 32 x ∧ in_s 32 y ∧ y ≠ 0 ∧ ¬ (x = - 2 ^ 31 ∧ y = -1).

Lemma rem_bounds x y :
  y ≠ 0 → (0 ≤ x → 0 ≤ Z.rem x y < Z.abs y) ∧ (x < 0 → - Z.abs y < Z.rem x y ≤ 0).
Proof.
  intros Hy. pose proof (Z.rem_bound_abs x y Hy). pose proof (Z.rem_sign_mul x y Hy).
  destruct (decide (x = 0)) as [->|]; [rewrite Z.rem_0_l by done; lia|].
  split; intros; nia.
Qed.

(** Truncating division against floor division, by the guard of the code. *)
Lemma quot_cases x y :
  y ≠ 0 →
  Z.quot x y = (if rounds_down x y then x / y + 1 else x / y) ∧
  Z.rem x y = (if rounds_down x y then x mod y - y else x mod y).
Proof.
  intros Hy. pose proof (Z.quot_rem' x y) as Hx. pose proof (rem_bounds x y Hy) as [Hp Hn].
  assert (∀ q r, (0 ≤ r < y ∨ y < r ≤ 0) → x = y * q + r → q = x / y ∧ r = x mod y) as Hu.
  { intros q r Hr E. split; [by eapply Z.div_unique|by eapply Z.mod_unique]. }
  unfold rounds_down. change (Z.quot (-13) 5 =? -2) with true.
  destruct (Z.ltb_spec x 0), (Z.ltb_spec y 0), (Z.eqb_spec (Z.rem x y) 0);
    cbn [andb negb Bool.eqb];
    first [ destruct (Hu (Z.quot x y) (Z.rem x y)); [lia..|split; lia]
          | destruct (Hu (Z.quot x y - 1) (Z.rem x y + y)); [lia..|split; lia] ].
Qed.

Lemma quot_range x y : div_defined x y → in_s 32 (Z.quot x y).
Proof.
  intros (Hx & Hy & H0 & Hov). pose proof (Z.quot_rem' x y) as E.
  pose proof (rem_bounds x y H0) as [Hp Hn]. unfold in_s in *. cbn in *.
  assert (Z.abs (Z.quot x y) ≤ Z.abs x) by (rewrite <-Z.quot_abs by done; apply Z.quot_le_upper_bound; nia).
  destruct (decide (x = - 2 ^ 31)) as [->|]; [|lia].
  destruct (decide (y = -1)) as [->|]; [lia|]. nia.
Qed.

Lemma rem_zero_iff x y : y ≠ 0 → Z.rem x y = 0 ↔ x mod y = 0.
Proof. intros Hy. by rewrite Z.rem_divide, Z.mod_divide. Qed.

Lemma rounds_down_spec x y :
  y ≠ 0 → rounds_down x y = true → x mod y ≠ 0 ∧ (x < 0 ∧ 0 < y ∨ 0 ≤ x ∧ y < 0).
Proof.
  intros Hy. rewrite <-rem_zero_iff by done. unfold rounds_down.
  change (Z.quot (-13) 5 =? -2) with true.
  destruct (Z.ltb_spec x 0), (Z.ltb_spec y 0), (Z.eqb_spec (Z.rem x y) 0); cbn; intros; lia.
Qed.

Lemma Arith_div_eq x y : div_defined x y → Arith_div x y = x / y.
Proof.
  intros Hd. pose proof (quot_range x y Hd) as Hq. destruct Hd as (Hx & Hy & H0 & Hov).
  pose proof (quot_cases x y H0) as [Eq _]. pose proof (Z.div_mod x y H0) as Hdm.
  unfold Arith_div. rewrite !(wraps_id 32 (Z.quot x y)) by (done || lia).
  destruct (rounds_down x y) eqn:E; [|done].
  destruct (rounds_down_spec x y H0 E) as [Hm Hs].
  rewrite Eq. rewrite wraps_id; [lia|lia|]. rewrite Eq in Hq. unfold in_s in *; cbn in *.
  pose proof (Z.mod_pos_bound x y). pose proof (Z.mod_neg_bound x y). nia.
Qed.

Lemma Arith_mod_eq x y : div_defined x y → Arith_mod x y = x mod y.
Proof.
  intros (Hx & Hy & H0 & Hov). pose proof (quot_cases x y H0) as [_ Er]. unfold Arith_mod.
  destruct (rounds_down x y); rewrite Er; [|done].
  replace (x mod y - y + y) with (x mod y) by lia. apply wraps_id; [lia|].
  pose proof (Z.mod_pos_bound x y). pose proof (Z.mod_neg_bound x y).
  unfold in_s in *; cbn in *; lia.
Qed.

Lemma Arith_ceiling_eq x y : div_defined x y → Arith_ceiling x y = - ((- x) / y).
Proof.
  intros Hd. pose proof (Arith_div_eq x y Hd) as E. pose proof (quot_range x y Hd) as Hq.
  destruct Hd as (Hx & Hy & H0 & Hov). pose proof (quot_cases x y H0) as [Eq _].
  unfold Arith_ceiling. rewrite E.
  destruct (Z.eqb_spec (Z.rem x y) 0) as [Hr|Hr]; rewrite rem_zero_iff in Hr by done.
  - rewrite Z.div_opp_l_z by done. rewrite Z.add_0_r, wraps_id; [lia|lia|].
    destruct (rounds_down x y) eqn:R; [by destruct (rounds_down_spec x y H0 R)|congruence].
  - rewrite Z.div_opp_l_nz by done. rewrite wraps_id; [lia|lia|].
    destruct (rounds_down x y) eqn:R; [congruence|]. rewrite Eq in Hq.
    pose proof (Z.div_mod x y H0). pose proof (Z.mod_pos_bound x y).
    pose proof (Z.mod_neg_bound x y). unfold in_s in *; cbn in *.
    assert (y ≠ 1 ∧ y ≠ -1) by (split; intros ->; lia). nia.
Qed.

(** On every pair of [int]s for which C defines [x / y], [Arith_div] is
    floor division, [Arith_mod] its remainder (of the divisor's sign) and
    [Arith_ceiling] division rounded up: none of them overflows. *)
Theorem Arith_floor_division x y :
  div_defined x y →
  Arith_div x y = x / y ∧ Arith_mod x y = x mod y ∧ Arith_ceiling x y = - ((- x) / y).
Proof. intros H. split_and!; auto using Arith_div_eq, Arith_mod_eq, Arith_ceiling_eq. Qed.

Lemma Arith_floor_division_witness :
  Arith_div (-13) 5 = -3 ∧ Arith_mod (-13) 5 = 2 ∧ Arith_ceiling (-13) 5 = -2.
Proof. apply (Arith_floor_division (-13) 5). unfold div_defined, in_s. cbn. lia. Defined.

End Arith.

(** ** Flags: the macros of oec_values.h *)
Module Flags.

Definition OEC_FLAG_CLEAR (flags f : Z) : Z := Z.land flags (Z.lnot f).
Definition OEC_FLAG_ISSET (flags f : Z) : bool := negb (Z.land flags f =? 0).
Definition OEC_FLAG_SET (flags f : Z) : Z := Z.lor flags f.

(** A mask with one bit, which is what every flag constant is. *)
Definition bit (i : Z) : Z := 2 ^ i.

Lemma isset_bit flags i : 0 ≤ i → OEC_FLAG_ISSET flags (bit i) = Z.testbit flags i.
Proof.
  intros Hi. unfold OEC_FLAG_ISSET, bit. destruct (Z.testbit flags i) eqn:E.
  - destruct (Z.eqb_spec (Z.land flags (2 ^ i)) 0) as [H|]; [|done]. exfalso.
    apply (f_equal (λ z, Z.testbit z i)) in H.
    rewrite Z.land_spec, E, Z.pow2_bits_true, Z.bits_0 in H by lia. done.
  - destruct (Z.eqb_spec (Z.land flags (2 ^ i)) 0) as [|H]; [done|]. destruct H.
    apply Z.bits_inj'. intros j Hj. rewrite Z.land_spec, Z.bits_0, Z.pow2_bits_eqb by lia.
    destruct (Z.eqb_spec i j) as [->|]; [by rewrite E|by rewrite andb_false_r].
Qed.

Lemma isset_set flags i j :
  0 ≤ i → 0 ≤ j →
  OEC_FLAG_ISSET (OEC_FLAG_SET flags (bit i)) (bit j) = (i =? j) || OEC_FLAG_ISSET flags (bit j).
Proof.
  intros. rewrite !isset_bit by done. unfold OEC_FLAG_SET, bit.
  rewrite Z.lor_spec, Z.pow2_bits_eqb by lia. apply orb_comm.
Qed.

Lemma isset_clear flags i j :
  0 ≤ i → 0 ≤ j →
  OEC_FLAG_ISSET (OEC_FLAG_CLEAR flags (bit i)) (bit j) =
  negb (i =? j) && OEC_FLAG_ISSET flags (bit j).
Proof.
  intros. rewrite !isset_bit by done. unfold OEC_FLAG_CLEAR, bit.
  rewrite Z.land_spec, Z.lnot_spec, Z.pow2_bits_eqb by lia. apply andb_comm.
Qed.

End Flags.

(** ** Strings and memory of oec_values.c *)
Module Str.

Definition OEC_FOREVER : Z := -1.

(** [gettimeofday] gives seconds and microseconds. *)
Definition oec_get_time_milliseconds (tv_sec tv_usec : Z) : Z :=
  Z.quot tv_usec 1000 + tv_sec * 1000.

Fixpoint memchr (c : Z) (l : list Z) : option nat :=
  match l with
  | [] => None
  | x :: l => if x =? c then Some O else S <$> memchr c l
  end.

(** [oe_memmem] with the recursion bounded by [fuel]; the offset of the
    match from the start of the first haystack is what the returned pointer
    denotes. *)
Fixpoint memmem_go (fuel : nat) (haystack needle : list Z) (off : nat) : option nat :=
  match fuel with
  | O => None
  | S fuel =>
    match haystack, needle with
    | [], _ | _, [] => None
    | _, nchar :: _ =>
      match memchr nchar haystack with
      | None => None
      | Some i =>
        let substr := drop i haystack in
        if (length substr <? length needle)%nat then None
        else if decide (take (length needle) substr = needle) then Some (off + i)%nat
        else memmem_go fuel (drop (length needle) substr) needle (off + i + length needle)
      end
    end
  end.

Definition oe_memmem (haystack needle : list Z) : option nat :=
  memmem_go (S (length haystack)) haystack needle 0.

(** [hash]: the polynomial hash of a NUL-terminated string, in [int]. *)
Fixpoint hash_go (h M : Z) (v : string) : Z :=
  match v with
  | EmptyString => h
  | String c v => hash_go (Z.rem (i32 (i32 (127 * h) + char_z c)) M) M v
  end.

Definition hash (v : string) (M : Z) : Z := hash_go 0 M v.
Definition oec_hash_string_key (key : string) : Z := hash key 99000.

(** [oec_str_concat]: between one and five strings, not all empty. *)
Definition oec_str_concat (args : list string) : option string :=
  let sz := Z.of_nat (length (bytes_of (String.concat "" args))) in
  c_assert (negb (sz =? 0));;
  c_assert ((1 <=? length args)%nat && (length args <=? 5)%nat);;
  Some (String.concat "" args).

Definition oec_itoa (n : Z) : string := pretty n.

(** [strncpy(dst, src, n)]: the [n] bytes it stores. *)
Definition strncpy (src : string) (n : nat) : list Z :=
  take n (bytes_of src ++ replicate n 0).

(** What a reader of a buffer sees: the bytes before the first NUL, or
    nothing definite when there is none inside the buffer. *)
Fixpoint c_string (buf : list Z) : option string :=
  match buf with
  | [] => None
  | b :: buf => if b =? 0 then Some EmptyString else String (ascii_of_z b) <$> c_string buf
  end.

Definition oec_ncpy_str (str : string) (len : nat) : list Z := strncpy str (len + 1).

Definition oec_cpy_str (str : option string) : option (list Z) :=
  str ← str; Some (oec_ncpy_str str (String.length str)).

(** A store into an allocated buffer. *)
Definition buf_write (buf : list Z) (i : nat) (v : Z) : option (list Z) :=
  if (i <? length buf)%nat then Some (<[i := v]> buf) else None.

(** [oec_unquote]: [None] inside the outer [Some] is the NULL it returns for
    a text too short to be quoted; the outer [None] is a store outside the
    block, of which [malloc(n)] makes [usable n] bytes available. *)
Definition oec_unquote (usable : nat → nat) (s : string) (len : Z) : option (option (list Z)) :=
  if len <? 2 then Some None
  else
    let cpylen := Z.to_nat (len - 2) in
    let d := strncpy (String.substring 1 (String.length s - 1) s) cpylen in
    Some <$> buf_write (d ++ replicate (usable cpylen - cpylen) 0) cpylen 0.

(** [atoi]: [strtol], which stops at the range of [long], and a conversion
    to [int]. *)
Definition c_space (c : Z) : bool := (c =? 32) || (9 <=? c) && (c <=? 13).
Definition c_digit (c : Z) : bool := (48 <=? c) && (c <=? 57).
Fixpoint skip_spaces (l : list Z) : list Z :=
  match l with c :: l' => if c_space c then skip_spaces l' else l | [] => [] end.
Fixpoint digits_value (n : Z) (l : list Z) : Z :=
  match l with
  | c :: l => if c_digit c then digits_value (n * 10 + (c - 48)) l else n
  | [] => n
  end.
Definition atoi (s : list Z) : Z :=
  let v := match skip_spaces s with
           | c :: l => if c =? 45 then - digits_value 0 l
                       else if c =? 43 then digits_value 0 l else digits_value 0 (c :: l)
           | [] => 0
           end in
  i32 (Z.max (- 2 ^ 63) (Z.min (2 ^ 63 - 1) v)).

Fixpoint count_go (fuel : nat) (number : Z) : Z :=
  match fuel with
  | O => 0
  | S fuel => if number =? 0 then 0 else 1 + count_go fuel (Z.quot number 10)
  end.

(** Twenty rounds are enough for a [long long]. *)
Definition oec_count_long_digits (number : Z) : Z := count_go 20 number.

(** *** memmem *)

Lemma memchr_Some c l i :
  memchr c l = Some i → ∃ k, l = take i l ++ (c :: k) ∧ (c ∉ take i l) ∧ (i < length l)%nat.
Proof.
  revert i; induction l as [|x l IH]; intros i; cbn; [done|].
  destruct (Z.eqb_spec x c) as [->|Hne]; intros H.
  - simplify_eq. exists l. cbn. split_and!; [done|set_solver|lia].
  - destruct (memchr c l) as [j|]; simplify_eq/=. destruct (IH j eq_refl) as (k & E & Hn & Hl).
    exists k. cbn. split_and!; [by f_equal|set_solver|lia].
Qed.

Lemma memchr_None c l : memchr c l = None → c ∉ l.
Proof.
  induction l as [|x l IH]; cbn; [set_solver|].
  destruct (Z.eqb_spec x c); [done|]. destruct (memchr c l); [done|set_solver].
Qed.

Lemma memmem_go_sound fuel hay needle off r :
  memmem_go fuel hay needle off = Some r →
  ∃ j, r = (off + j)%nat ∧ take (length needle) (drop j hay) = needle ∧
       (j + length needle ≤ length hay)%nat.
Proof.
  revert hay off; induction fuel as [|fuel IH]; intros hay off; cbn [memmem_go]; [done|].
  destruct hay as [|h hay']; [by destruct needle|]. set (hay := h :: hay').
  destruct needle as [|n needle']; [done|]. set (needle := n :: needle').
  destruct (memchr n hay) as [i|] eqn:Ei; [|done].
  destruct (memchr_Some _ _ _ Ei) as (k & _ & _ & Hi).
  destruct (Nat.ltb_spec (length (drop i hay)) (length needle)) as [|Hl]; [done|].
  rewrite length_drop in Hl.
  case_decide as E; intros H.
  - simplify_eq. exists i. split_and!; [done|exact E|lia].
  - apply IH in H as (j & -> & Ht & Hb). rewrite !drop_drop in Ht.
    rewrite !length_drop in Hb. exists (i + length needle + j)%nat.
    change (n :: needle') with needle in Ht, Hb. clearbody needle.
    split_and!; [lia| |lia]. by replace (i + length needle + j)%nat with (i + (length needle + j))%nat by lia.
Qed.

(** The first two newlines in a row, which [oe_memmem] does find *)
Fixpoint line_break (l : list Z) : option nat :=
  match l with
  | [] => None
  | a :: r => if (a =? 10) && bool_decide (head r = Some 10) then Some O else S <$> line_break r
  end.

Lemma line_break_calm l : line_break l = None ↔ calm l = true.
Proof.
  induction l as [|a l IH]; [done|]. cbn [line_break calm]. destruct ((a =? 10) && _); [done|].
  cbn [negb andb]. rewrite <-IH. by destruct (line_break l).
Qed.
Lemma line_break_quiet pre l : 10 ∉ pre → line_break (pre ++ l) = Nat.add (length pre) <$> line_break l.
Proof.
  induction pre as [|a pre IH]; intros Hn; [cbn; by destruct (line_break l)|]. rewrite not_elem_of_cons in Hn.
  cbn [app line_break length]. rewrite (proj2 (Z.eqb_neq a 10)) by naive_solver. cbn [andb].
  rewrite IH by naive_solver. by destruct (line_break l).
Qed.
Lemma line_break_framed l r : framed l → line_break (l ++ 10 :: 10 :: r) = Some (length l).
Proof.
  intros [[Hc _] Hlast]. induction l as [|a l IH]; [done|]. cbn [calm] in Hc. apply andb_true_iff in Hc as [Ha Hc].
  cbn [app line_break length]. destruct l as [|b l].
  - cbn in Hlast. rewrite (proj2 (Z.eqb_neq a 10)) by congruence. done.
  - cbn [app head] in *. destruct ((a =? 10) && _); [done|]. by rewrite IH.
Qed.
(** As long as one of the two is missing, none is found. *)
Lemma line_break_part l p : framed l → p `prefix_of` l ++ [10] → line_break p = None.
Proof.
  intros [[Hc _] Hlast] [k Hk]. apply line_break_calm. revert l Hc Hlast Hk. induction p as [|a p IH]; intros l Hc Hlast Hk; [done|].
  destruct l as [|b l]; cbn in Hk; injection Hk as <- Hk; [by destruct p|].
  cbn [calm] in *. apply andb_true_iff in Hc as [Hb Hc]. apply andb_true_iff. split.
  - destruct p as [|d p]; [by rewrite bool_decide_false, andb_false_r|].
    destruct l as [|e l]; cbn in Hk; injection Hk as <- Hk; [|done].
    cbn in Hlast. by rewrite (proj2 (Z.eqb_neq b 10)) by congruence.
  - apply (IH l); [done| |done]. destruct l; [done|exact Hlast].
Qed.

Lemma memmem_break fuel : ∀ l off, (length l < fuel)%nat →
  memmem_go fuel l [10; 10] off = Nat.add off <$> line_break l.
Proof.
  induction fuel as [|fuel IH]; intros l off Hf; [lia|]. cbn [memmem_go].
  destruct l as [|x l0] eqn:El; [done|]. rewrite <-El in *. clear El x l0.
  destruct (memchr 10 l) as [i|] eqn:Ei.
  - destruct (memchr_Some _ _ _ Ei) as (k & Hl & Hn & Hi).
    assert (drop i l = 10 :: k) as Hd.
    { rewrite Hl at 1. apply drop_app_length'. rewrite length_take. lia. }
    rewrite Hd. rewrite Hl, line_break_quiet by done.
    assert (length (take i l) = i) as Et by (rewrite length_take; lia). rewrite Et.
    assert (length l = i + S (length k))%nat as Hlen by (rewrite Hl at 1; rewrite length_app; cbn; lia).
    destruct k as [|c k]; [done|]. cbn [length Nat.ltb Nat.leb take drop].
    cbn [line_break head]. rewrite take_0. change (10 =? 10) with true. cbn [andb].
    destruct (decide (c = 10)) as [->|Hc].
    + rewrite decide_True by done. rewrite bool_decide_true by done. cbn. f_equal. lia.
    + rewrite decide_False by congruence. rewrite bool_decide_false by congruence.
      rewrite (proj2 (Z.eqb_neq c 10)) by done. cbn [andb drop]. rewrite (IH k) by (cbn [length] in Hlen; lia).
      destruct (line_break k); cbn; [|done]. f_equal. lia.
  - apply memchr_None in Ei. rewrite <-(app_nil_r l), line_break_quiet by done. done.
Qed.

(** What a reader of lines gets from it *)
Lemma oe_memmem_break l : oe_memmem l [10; 10] = line_break l.
Proof. unfold oe_memmem. rewrite memmem_break by lia. by destruct (line_break l). Qed.

(** A position that [oe_memmem] returns is an occurrence of the needle
    inside the haystack. *)
Theorem oe_memmem_sound hay needle r :
  oe_memmem hay needle = Some r →
  take (length needle) (drop r hay) = needle ∧ (r + length needle ≤ length hay)%nat.
Proof. intros H. apply memmem_go_sound in H as (j & -> & ? & ?). done. Qed.

Lemma oe_memmem_sound_witness :
  take 2 (drop 2 (bytes_of "xyab")) = bytes_of "ab" ∧ (2 + 2 ≤ 4)%nat.
Proof. apply (oe_memmem_sound (bytes_of "xyab") (bytes_of "ab") 2). reflexivity. Defined.

(** [oe_memmem] can miss a needle: after a first byte that starts no
    match it skips a whole needle length, so in "aab" it does not see the
    "ab" at offset 1. *)
Theorem oe_memmem_misses :
  oe_memmem (bytes_of "aab") (bytes_of "ab") = None ∧
  take 2 (drop 1 (bytes_of "aab")) = bytes_of "ab".
Proof. split; reflexivity. Qed.

(** *** hash *)

Lemma hash_step h c :
  Z.abs h < 99000 →
  Z.rem (i32 (i32 (127 * h) + char_z c)) 99000 = Z.rem (127 * h + char_z c) 99000 ∧
  Z.abs (Z.rem (127 * h + char_z c) 99000) < 99000.
Proof.
  intros Hh. pose proof (char_z_range c).
  rewrite (wraps_id 32 (127 * h)) by width. rewrite wraps_id by width.
  split; [done|]. pose proof (Z.rem_bound_abs (127 * h + char_z c) 99000). lia.
Qed.

(** The mathematical value of the hash, without machine arithmetic. *)
Fixpoint hash_spec (h : Z) (v : string) : Z :=
  match v with
  | EmptyString => h
  | String c v => hash_spec (Z.rem (127 * h + char_z c) 99000) v
  end.

(** The string hash never overflows [int]: it is the plain polynomial
    remainder, and lies strictly between -99000 and 99000. *)
Theorem oec_hash_string_key_exact key :
  oec_hash_string_key key = hash_spec 0 key ∧ Z.abs (oec_hash_string_key key) < 99000.
Proof.
  unfold oec_hash_string_key, hash.
  assert (∀ h, Z.abs h < 99000 →
    hash_go h 99000 key = hash_spec h key ∧ Z.abs (hash_go h 99000 key) < 99000) as Hgo.
  { induction key as [|c key IH]; intros h Hh; cbn [hash_go hash_spec]; [done|].
    destruct (hash_step h c Hh) as [-> Hb]. by apply IH. }
  apply Hgo. lia.
Qed.

(** *** Copies *)

Lemma c_string_bytes s k : no_nul s → c_string (bytes_of s ++ 0 :: k) = Some s.
Proof.
  unfold no_nul. induction s as [|c s IH]; cbn [bytes_of app c_string]; [done|].
  intros Hn. rewrite not_elem_of_cons in Hn. destruct Hn as [Hc Hs].
  destruct (Z.eqb_spec (uchar_z c) 0); [done|]. rewrite IH by done. cbn.
  by rewrite ascii_of_z_uchar.
Qed.

Lemma c_string_None l : 0 ∉ l → c_string l = None.
Proof.
  induction l as [|b l IH]; cbn; [done|]. intros H. rewrite not_elem_of_cons in H.
  destruct (Z.eqb_spec b 0); [naive_solver|]. by rewrite IH by naive_solver.
Qed.

(** [oec_cpy_str] copies: reading its buffer back gives the string; while
    [oec_ncpy_str] with a length below the string's leaves the copy without a
    terminator. *)
Theorem oec_cpy_str_ncpy_str s :
  no_nul s →
  (oec_cpy_str (Some s) ≫= c_string) = Some s ∧
  ∀ len, (len < String.length s)%nat → c_string (oec_ncpy_str s len) = None.
Proof.
  intros Hs. split.
  - cbn. unfold oec_ncpy_str, strncpy. rewrite <-bytes_of_length.
    rewrite take_app_ge by lia. replace (_ + 1 - _)%nat with 1%nat by lia.
    rewrite Nat.add_1_r. cbn [replicate take]. by apply c_string_bytes.
  - intros len Hl. apply c_string_None. unfold oec_ncpy_str, strncpy.
    rewrite <-bytes_of_length in Hl. rewrite take_app_le by lia.
    intros Hin. apply Hs. rewrite <-(take_drop (len + 1) (bytes_of s)). set_solver.
Qed.

Lemma oec_cpy_str_ncpy_str_witness :
  (oec_cpy_str (Some "extent") ≫= c_string) = Some "extent" ∧
  ∀ len, (len < 6)%nat → c_string (oec_ncpy_str "extent" len) = None.
Proof. apply (oec_cpy_str_ncpy_str "extent"). vm_compute. set_solver. Defined.

Lemma strncpy_length src n : length (strncpy src n) = n.
Proof. unfold strncpy. rewrite length_take, length_app, length_replicate. lia. Qed.

(** [oec_unquote] asks for two bytes less than the quoted text has and then
    stores its terminator one byte past what it asked for: that is outside
    the block unless [malloc] gave it more. *)
Theorem oec_unquote_overruns (usable : nat → nat) s :
  (2 ≤ String.length s)%nat →
  oec_unquote usable s (Z.of_nat (String.length s)) = None ↔
  (usable (String.length s - 2) ≤ String.length s - 2)%nat.
Proof.
  intros Hs. unfold oec_unquote, buf_write. destruct (Z.ltb_spec (Z.of_nat (String.length s)) 2); [lia|].
  replace (Z.to_nat (Z.of_nat (String.length s) - 2)) with (String.length s - 2)%nat by lia.
  rewrite length_app, strncpy_length, length_replicate.
  destruct (Nat.ltb_spec (String.length s - 2)
    (String.length s - 2 + (usable (String.length s - 2) - (String.length s - 2))))%nat; cbn; split; (done || lia).
Qed.

Lemma oec_unquote_overruns_witness : oec_unquote id "'hi'" 4 = None.
Proof. apply (oec_unquote_overruns id "'hi'"); cbn; lia. Defined.

(** *** Digits *)

Lemma count_go_spec fuel n :
  n ≠ 0 → Z.abs n < 10 ^ Z.of_nat fuel →
  1 ≤ count_go fuel n ∧ 10 ^ (count_go fuel n - 1) ≤ Z.abs n < 10 ^ count_go fuel n.
Proof.
  revert n; induction fuel as [|fuel IH]; intros n Hn Hb; [cbn in Hb; lia|].
  cbn [count_go]. destruct (Z.eqb_spec n 0); [done|].
  assert (Z.abs (Z.quot n 10) = Z.abs n / 10) as Hq.
  { rewrite <-Z.quot_abs by done. apply Z.quot_div_nonneg; lia. }
  rewrite Nat2Z.inj_succ, Z.pow_succ_r in Hb by lia.
  pose proof (Z.div_mod (Z.abs n) 10 ltac:(lia)). pose proof (Z.mod_pos_bound (Z.abs n) 10).
  destruct (decide (Z.quot n 10 = 0)) as [E|E].
  - rewrite E. assert (count_go fuel 0 = 0) as -> by (by destruct fuel). cbn. rewrite E in Hq. lia.
  - destruct (IH _ E) as (H1 & H2 & H3); [lia|]. rewrite Hq in H2, H3.
    replace (1 + count_go fuel (Z.quot n 10) - 1) with (Z.succ (count_go fuel (Z.quot n 10) - 1)) by lia.
    replace (1 + count_go fuel (Z.quot n 10)) with (Z.succ (count_go fuel (Z.quot n 10))) by lia.
    rewrite !Z.pow_succ_r by lia. split_and!; lia.
Qed.

(** For a non-zero [long long] the digit count is the number of decimal
    digits; for zero, which prints as one digit, it is 0. *)
Theorem oec_count_long_digits_spec n :
  in_s 64 n →
  (n ≠ 0 → 10 ^ (oec_count_long_digits n - 1) ≤ Z.abs n < 10 ^ oec_count_long_digits n) ∧
  oec_count_long_digits 0 = 0.
Proof.
  intros Hn. split; [|done]. intros H0. apply count_go_spec; [done|]. width.
Qed.

Lemma oec_count_long_digits_spec_witness :
  (-1042 ≠ 0 → 10 ^ (oec_count_long_digits (-1042) - 1) ≤ 1042 < 10 ^ oec_count_long_digits (-1042)) ∧
  oec_count_long_digits 0 = 0.
Proof. apply (oec_count_long_digits_spec (-1042)). unfold in_s; cbn; lia. Defined.

End Str.
