(* ===== verification/Except.v ===== *)
(** * Except: exceptions by setjmp and longjmp

    Models [src/corelib/except.c] with the macros of [except.h] as they are
    compiled with threads, the functions of [mem.c] that raise, and
    [_process_fun] of [oed_dispatcher_common.c], which every job of the
    dispatcher and of the worker threads is run by.

    A program that uses the macros is a [stmt].  [expand] writes out the
    macros; what results is run by [eval] on the frames of the [TRY] blocks
    that are active, which lie on the C stack and end with their block.
    [longjmp] ends the execution of everything up to the block whose
    [setjmp] it returns to.  The use of a frame that has ended, of a null
    pointer or of an exception that was never stored is [None], as is a failed
    assertion.

    [run] is the meaning one expects of the macros; [expand_correct] proves
    that the expansion has it, for programs that return from [TRY] blocks the
    way the macros ask for, and [return_leaves_frame] what becomes of others. *)

From S2P Require Import Prelude.

Open Scope oes_scope.

(** ** Exceptions and frames *)

(** Exceptions are compared by address. *)
Record Except_T := mkExcept { address : Z; reason : option string }.
Definition same_exception (x y : Except_T) : bool := address x =? address y.

Inductive Except_state := Except_entered | Except_raised | Except_handled | Except_finalized.
#[global] Instance except_state_eq : EqDecision Except_state.
Proof. solve_decision. Defined.

(** A frame and the flag that is declared with it; [line] stands for the file
    and the line of the raise. *)
Record Except_Frame := mkFrame {
  prev : option nat;
  exception : option Except_T;
  line : Z;
  Except_flag : Except_state
}.
Definition set_flag (v : Except_state) (f : Except_Frame) : Except_Frame := mkFrame (prev f) (exception f) (line f) v.
Definition set_exception (e : Except_T) (l : Z) (f : Except_Frame) : Except_Frame :=
  mkFrame (prev f) (Some e) l (Except_flag f).

(** How the execution of a piece of code ends *)
Inductive outcome := O_normal | O_return | O_jump (f : nat) | O_abort.
#[global] Instance outcome_eq : EqDecision outcome.
Proof. solve_decision. Defined.

Section machine.
Context {U : Type}.       (* what the program works on *)

(** What a program does in between: it may raise an exception at a line, or
    fail. *)
Definition action := U → option (U * option (Except_T * Z)).

(** A thread: the frames of its active blocks, the pointer under the key
    [Except_stack], and the next address of a frame *)
Record thread := mkThread {
  frames : gmap nat Except_Frame;
  Except_stack : option nat;
  next : nat;
  user : U
}.

(** ** except.c *)

Definition Except_raise (e : Except_T) (l : Z) (t : thread) : option (outcome * thread) :=
  match Except_stack t with
  | None => Some (O_abort, t)
  | Some p =>
    f ← frames t !! p;
    Some (O_jump p, mkThread (<[p := set_exception e l f]> (frames t)) (prev f) (next t) (user t))
  end.

(** ** except.h *)

Definition pop_except_stack (t : thread) : option thread :=
  p ← Except_stack t;
  f ← frames t !! p;
  Some (mkThread (frames t) (prev f) (next t) (user t)).

(** C with the parts of the macros: conditions and assignments concern the
    variables of the innermost block. *)
Inductive condition := Is_entered | Is_raised | Is_exception (e : Except_T).
Inductive code :=
  | C_skip
  | C_action (a : action)
  | C_seq (c d : code)
  | C_if (b : condition) (c d : code)
  | C_set_flag (v : Except_state)
  | C_pop
  | C_raise (e : Except_T) (l : Z)
  | C_reraise
  | C_call (c : code)                  (* a function *)
  | C_return
  | C_block (c : code).                (* from [do {] to [setjmp], and the rest *)

Definition holds (b : condition) (f : Except_Frame) : option bool :=
  match b with
  | Is_entered => Some (bool_decide (Except_flag f = Except_entered))
  | Is_raised => Some (bool_decide (Except_flag f = Except_raised))
  | Is_exception e => x ← exception f; Some (same_exception x e)
  end.

Definition upd_frame (i : nat) (g : Except_Frame → Except_Frame) (t : thread) : thread :=
  mkThread (alter g i (frames t)) (Except_stack t) (next t) (user t).
Definition enter (t : thread) : thread :=
  mkThread (<[next t := mkFrame (Except_stack t) None 0 Except_entered]> (frames t)) (Some (next t)) (S (next t)) (user t).
Definition leave (i : nat) (r : outcome * thread) : option (outcome * thread) :=
  Some (r.1, mkThread (delete i (frames r.2)) (Except_stack r.2) (next r.2) (user r.2)).

(** A frame is taken off the stack before the jump to it, so that a second
    jump to the same one would go wrong. *)
Fixpoint eval (c : code) (block : option nat) (t : thread) : option (outcome * thread) :=
  match c with
  | C_skip => Some (O_normal, t)
  | C_action a =>
    '(u, r) ← a (user t);
    let t := mkThread (frames t) (Except_stack t) (next t) u in
    match r with None => Some (O_normal, t) | Some (e, l) => Except_raise e l t end
  | C_seq c d =>
    '(o, t) ← eval c block t;
    match o with O_normal => eval d block t | _ => Some (o, t) end
  | C_if b c d =>
    i ← block; f ← frames t !! i; v ← holds b f;
    if v : bool then eval c block t else eval d block t
  | C_set_flag v =>
    i ← block; _ ← frames t !! i;
    Some (O_normal, upd_frame i (set_flag v) t)
  | C_pop => t ← pop_except_stack t; Some (O_normal, t)
  | C_raise e l => Except_raise e l t
  | C_reraise =>
    i ← block; f ← frames t !! i; e ← exception f;
    Except_raise e (line f) t
  | C_call c =>
    '(o, t) ← eval c None t;
    Some (match o with O_return => O_normal | _ => o end, t)
  | C_return => Some (O_return, t)
  | C_block c =>
    let i := next t in
    '(o, t) ← eval c (Some i) (enter t);
    match o with
    | O_jump j =>
      if decide (j = i) then
        '(o, t) ← eval c (Some i) (upd_frame i (set_flag Except_raised) t);
        if decide (o = O_jump i) then None else leave i (o, t)
      else leave i (o, t)
    | _ => leave i (o, t)
    end
  end.

(** Programs with the macros *)
Inductive stmt :=
  | Do (a : action)
  | Seq (s r : stmt)
  | RAISE (e : Except_T) (l : Z)
  | Call (s : stmt)
  | Return
  | OE_RETURN
  | TRY (s : stmt) (c : clauses)
with clauses :=
  | END_TRY
  | EXCEPT (e : Except_T) (s : stmt) (c : clauses)
  | ELSE (s : stmt) (c : clauses)
  | FINALLY (s : stmt).

(** [if (Except_flag == Except_entered) pop_except_stack;], with which each of
    the macros that follow [TRY] begins *)
Definition pop_entered : code := C_if Is_entered C_pop C_skip.

Fixpoint expand (s : stmt) : code :=
  match s with
  | Do a => C_action a
  | Seq s r => C_seq (expand s) (expand r)
  | RAISE e l => C_raise e l
  | Call s => C_call (expand s)
  | Return => C_return
  | OE_RETURN => C_seq C_pop C_return
  | TRY s c =>
    C_block (C_seq (C_if Is_entered (C_seq (expand s) pop_entered) (expand_handlers c)) (expand_end c))
  end
with expand_handlers (c : clauses) : code :=      (* the chain of [else] *)
  match c with
  | EXCEPT e s c =>
    C_if (Is_exception e) (C_seq (C_set_flag Except_handled) (C_seq (expand s) pop_entered)) (expand_handlers c)
  | ELSE s _ => C_seq (C_set_flag Except_handled) (C_seq (expand s) pop_entered)
  | END_TRY | FINALLY _ => C_skip
  end
with expand_end (c : clauses) : code :=           (* what follows it *)
  match c with
  | END_TRY => C_if Is_raised C_reraise C_skip
  | FINALLY s =>
    C_seq (C_seq (C_if Is_entered (C_set_flag Except_finalized) C_skip) (C_seq (expand s) pop_entered))
      (C_if Is_raised C_reraise C_skip)
  | EXCEPT _ _ c | ELSE _ c => expand_end c
  end.

(** ** The meaning of the macros *)

Inductive result := Normal | Returned | Raised (e : Except_T) (l : Z).

Fixpoint run (s : stmt) (u : U) : option (result * U) :=
  match s with
  | Do a => '(u, r) ← a u; Some (match r with None => Normal | Some (e, l) => Raised e l end, u)
  | Seq s r =>
    '(o, u) ← run s u;
    match o with Normal => run r u | _ => Some (o, u) end
  | RAISE e l => Some (Raised e l, u)
  | Call s => '(o, u) ← run s u; Some (match o with Returned => Normal | _ => o end, u)
  | Return | OE_RETURN => Some (Returned, u)
  | TRY s c =>
    '(o, u) ← run s u;
    match o with
    | Normal => run_end c None u
    | Returned => Some (Returned, u)
    | Raised e l => run_handlers c e l u
    end
  end
(** The first handler that fits *)
with run_handlers (c : clauses) (e : Except_T) (l : Z) (u : U) : option (result * U) :=
  match c with
  | EXCEPT e' s c =>
    if same_exception e e' then
      '(o, u) ← run s u; match o with Normal => run_end c None u | _ => Some (o, u) end
    else run_handlers c e l u
  | ELSE s c => '(o, u) ← run s u; match o with Normal => run_end c None u | _ => Some (o, u) end
  | END_TRY => Some (Raised e l, u)
  | FINALLY s => '(o, u) ← run s u; match o with Normal => Some (Raised e l, u) | _ => Some (o, u) end
  end
(** The end of the block, with the exception that no handler took *)
with run_end (c : clauses) (pending : option (Except_T * Z)) (u : U) : option (result * U) :=
  match c with
  | END_TRY => Some (match pending with None => Normal | Some (e, l) => Raised e l end, u)
  | FINALLY s =>
    '(o, u) ← run s u;
    match o with Normal => Some (match pending with None => Normal | Some (e, l) => Raised e l end, u) | _ => Some (o, u) end
  | EXCEPT _ _ c | ELSE _ c => run_end c pending u
  end.

(** ** Programs that keep to the rules *)

(** [n] frames of the current function lie on the stack: a plain [return] is
    for none of them, and [OE_RETURN], which takes one away, for one. *)
Fixpoint disciplined (n : nat) (s : stmt) : Prop :=
  match s with
  | Do _ | RAISE _ _ => True
  | Seq s r => disciplined n s ∧ disciplined n r
  | Call s => disciplined 0 s
  | Return => n = 0%nat
  | OE_RETURN => n = 1%nat
  | TRY s c => disciplined (S n) s ∧ disciplined_clauses n c
  end
with disciplined_clauses (n : nat) (c : clauses) : Prop :=
  match c with
  | END_TRY => True
  | EXCEPT _ s c => disciplined n s ∧ disciplined_clauses n c
  | ELSE s c => disciplined n s ∧ disciplined_clauses n c
  | FINALLY s => disciplined n s
  end.

(** What remains of a thread when a statement ends *)
Definition ended (n : nat) (t : thread) (r : result) : option (outcome * thread) :=
  match r with
  | Normal => Some (O_normal, t)
  | Returned => match n with O => Some (O_return, t) | _ => t ← pop_except_stack t; Some (O_return, t) end
  | Raised e l => Except_raise e l t
  end.

(** The stack holds frames of blocks that have not ended. *)
Record good (n : nat) (t : thread) : Prop := {
  good_next : ∀ i, is_Some (frames t !! i) → (i < next t)%nat;
  good_stack : ∀ p, Except_stack t = Some p → is_Some (frames t !! p);
  good_prev : ∀ i f p, frames t !! i = Some f → prev f = Some p → is_Some (frames t !! p);
  good_depth : n ≠ 0%nat → Except_stack t ≠ None
}.

Scheme stmt_mut := Induction for stmt Sort Prop with clauses_mut := Induction for clauses Sort Prop.
Combined Scheme stmt_clauses_ind from stmt_mut, clauses_mut.

(** Returning is from at most one block. *)
Lemma returns_shallow :
  (∀ s n u u', disciplined n s → run s u = Some (Returned, u') → (n ≤ 1)%nat) ∧
  (∀ c n u u', disciplined_clauses n c →
     (∀ pend, run_end c pend u = Some (Returned, u') → (n ≤ 1)%nat) ∧
     (∀ e l, run_handlers c e l u = Some (Returned, u') → (n ≤ 1)%nat)).
Proof.
  apply stmt_clauses_ind; cbn [disciplined disciplined_clauses run run_end run_handlers].
  - intros a n u u' _. destruct (a u) as [[? [[? ?]|]]|]; done.
  - intros s IHs r IHr n u u' [Hs Hr]. destruct (run s u) as [[o v]|] eqn:E; [|done]. cbn.
    destruct o; [by apply IHr|intros [= ->]; by eapply IHs|done].
  - done.
  - intros s IHs n u u' _. destruct (run s u) as [[o v]|]; [|done]. by destruct o.
  - intros n u u' ->. lia.
  - intros n u u' ->. lia.
  - intros s IHs c IHc n u u' [Hs Hc]. destruct (run s u) as [[o v]|] eqn:E; [|done]. cbn. destruct o.
    + by apply IHc.
    + intros [= ->]. apply (IHs _ _ _ Hs) in E. lia.
    + by apply IHc.
  - intros n u u' _. split; [intros [[? ?]|]; done|done].
  - intros e s IHs c IHc n u u' [Hs Hc]. split; [by apply IHc|]. intros e' l. destruct (same_exception e' e); [|by apply IHc].
    destruct (run s u) as [[o v]|] eqn:E; [|done]. cbn. destruct o; [by apply IHc|intros [= ->]; by eapply IHs|done].
  - intros s IHs c IHc n u u' [Hs Hc]. split; [by apply IHc|]. intros e' l.
    destruct (run s u) as [[o v]|] eqn:E; [|done]. cbn. destruct o; [by apply IHc|intros [= ->]; by eapply IHs|done].
  - intros s IHs n u u' Hs. split; [intros pend|intros e' l]; (destruct (run s u) as [[o v]|] eqn:E; [|done]); cbn;
      (destruct o; [try (destruct pend as [[? ?]|]); done|intros [= ->]; by eapply IHs|done]).
Qed.

(** ** The expansion has this meaning *)

(** Inside the block of frame [i], which may change *)
Definition within (n i : nat) (t : thread) (r : option (result * U)) (res : option (outcome * thread)) : Prop :=
  match r with
  | None => res = None
  | Some (r, u) => ∃ k m, (next t ≤ k)%nat ∧ is_Some (m !! i) ∧ delete i m = delete i (frames t) ∧
      res = ended n (mkThread m (Except_stack t) k u) r
  end.
Definition after (n : nat) (t : thread) (r : option (result * U)) (res : option (outcome * thread)) : Prop :=
  match r with
  | None => res = None
  | Some (r, u) => ∃ k, (next t ≤ k)%nat ∧ res = ended n (mkThread (frames t) (Except_stack t) k u) r
  end.

Lemma good_later n t k u : good n t → (next t ≤ k)%nat → good n (mkThread (frames t) (Except_stack t) k u).
Proof. intros [H1 H2 H3 H4] Hk. split; [|done..]. intros i Hi. specialize (H1 i Hi). cbn. lia. Qed.
Lemma good_frame n i g t : (∀ f, prev (g f) = prev f) → good n t → good n (upd_frame i g t).
Proof.
  intros Hg [H1 H2 H3 H4]. unfold upd_frame. split; cbn.
  - intros j Hj. apply H1. by rewrite lookup_alter_is_Some in Hj.
  - intros p Hp. rewrite lookup_alter_is_Some. by apply H2.
  - intros j f p Hf Hp. rewrite lookup_alter_is_Some. destruct (decide (i = j)) as [->|Hne].
    + rewrite lookup_alter_eq in Hf. destruct (frames t !! j) as [f'|] eqn:E; [|done]. injection Hf as <-.
      rewrite Hg in Hp. by eapply H3.
    + rewrite lookup_alter_ne in Hf by done. by eapply H3.
  - done.
Qed.
Lemma good_enter n t : good n t → good (S n) (enter t).
Proof.
  intros [H1 H2 H3 H4]. unfold enter. split; cbn.
  - intros i [<-|[Hne Hi]]%lookup_insert_is_Some; [lia|]. specialize (H1 i Hi). lia.
  - intros p [= <-]. rewrite lookup_insert_eq. eauto.
  - intros i f p [[<- <-]|[Hne Hf]]%lookup_insert_Some Hp; apply lookup_insert_is_Some'; right; [by apply H2|by eapply H3].
  - done.
Qed.
Lemma good_leave n t k u :
  good n t → (next (enter t) ≤ k)%nat → good n (mkThread (frames (enter t)) (Except_stack t) k u).
Proof.
  intros Hg Hk. destruct (good_enter n t Hg) as [H1 H2 H3 H4]. split; cbn.
  - intros i Hi. specialize (H1 i Hi). lia.
  - intros p Hp. apply lookup_insert_is_Some'. right. by apply Hg.
  - exact H3.
  - apply Hg.
Qed.

Definition pending_flag (pend : option (Except_T * Z)) (f : Except_Frame) : Prop :=
  match pend with
  | None => Except_flag f = Except_entered ∨ Except_flag f = Except_handled
  | Some (e, l) => Except_flag f = Except_raised ∧ exception f = Some e ∧ line f = l
  end.

Lemma delete_alter_eq (m : gmap nat Except_Frame) i g : delete i (alter g i m) = delete i m.
Proof.
  apply map_eq. intros j. rewrite !lookup_delete. case_decide as E; [done|]. by rewrite lookup_alter_ne by congruence.
Qed.

(** Running a statement in the block, and then taking nothing off the stack *)
Definition meant (s : stmt) : Prop := ∀ n block t,
  good n t → disciplined n s → after n t (run s (user t)) (eval (expand s) block t).

Lemma not_entered i f t :
  frames t !! i = Some f → Except_flag f ≠ Except_entered → eval pop_entered (Some i) t = Some (O_normal, t).
Proof. intros Hf Hn. cbn. rewrite Hf. cbn. by rewrite bool_decide_eq_false_2. Qed.

(** A handler or the final part, and what follows it *)
Lemma run_part s n i t f (c : code) r :
  meant s → good n t → disciplined n s → frames t !! i = Some f → Except_flag f ≠ Except_entered →
  (∀ k u, run s (user t) = Some (Normal, u) → (next t ≤ k)%nat →
     within n i (mkThread (frames t) (Except_stack t) k u) (r u) (eval c (Some i) (mkThread (frames t) (Except_stack t) k u))) →
  within n i t ('(o, u) ← run s (user t); match o with Normal => r u | _ => Some (o, u) end)
    (eval (C_seq (C_seq (expand s) pop_entered) c) (Some i) t).
Proof.
  intros IH Hg Hd Hf Hflag Hc. pose proof (IH n (Some i) t Hg Hd) as Hs. unfold after in Hs.
  destruct (run s (user t)) as [[o u]|] eqn:E; cbn [mbind option_bind eval]; [|by rewrite Hs].
  destruct Hs as (k & Hk & ->). destruct o.
  - cbn [ended mbind option_bind]. pose proof (not_entered i f (mkThread (frames t) (Except_stack t) k u) Hf Hflag) as ->.
    cbn [mbind option_bind]. specialize (Hc k u eq_refl Hk). unfold within in *. destruct (r u) as [[r' u']|]; [|done].
    destruct Hc as (k' & m & Hk' & Hc). exists k', m. cbn in Hk', Hc. split; [lia|done].
  - exists k, (frames t). split; [done|]. split; [by rewrite Hf|]. split; [done|]. cbn [ended].
    destruct n; cbn [mbind option_bind]; [done|]. by destruct (pop_except_stack _).
  - exists k, (frames t). split; [done|]. split; [by rewrite Hf|]. split; [done|]. cbn [ended].
    unfold Except_raise. cbn. destruct (Except_stack t) as [p|]; [|done]. by destruct (frames t !! p).
Qed.

(** The final test for an exception that nobody took *)
Lemma run_last pend n i f t u k :
  frames t !! i = Some f → (pending_flag pend f ∨ (pend = None ∧ Except_flag f = Except_finalized)) → (next t ≤ k)%nat →
  within n i t (Some (match pend with None => Normal | Some (e, l) => Raised e l end, u))
    (eval (C_if Is_raised C_reraise C_skip) (Some i) (mkThread (frames t) (Except_stack t) k u)).
Proof.
  intros Hf Hp Hk. exists k, (frames t). split; [done|]. split; [by rewrite Hf|]. split; [done|].
  cbn. rewrite Hf. cbn. destruct pend as [[e l]|].
  - destruct Hp as [(Hfl & He & Hl)|[? _]]; [|done]. rewrite bool_decide_eq_true_2 by done. by rewrite He, Hl.
  - rewrite bool_decide_eq_false_2; [done|]. destruct Hp as [[->| ->]|[_ ->]]; done.
Qed.

Definition meant_clauses (c : clauses) : Prop := ∀ n i t f, good n t → disciplined_clauses n c → frames t !! i = Some f →
  (∀ pend, pending_flag pend f → within n i t (run_end c pend (user t)) (eval (expand_end c) (Some i) t)) ∧
  (∀ e l, pending_flag (Some (e, l)) f →
     within n i t (run_handlers c e l (user t)) (eval (C_seq (expand_handlers c) (expand_end c)) (Some i) t)).

Lemma within_frame n i g t r res : is_Some (frames t !! i) →
  within n i (upd_frame i g t) r res → within n i t r res.
Proof.
  intros Hi. destruct r as [[r u]|]; [|done]. intros (k & m & Hk & Hm & Hd & E). exists k, m. cbn in *.
  rewrite delete_alter_eq in Hd. done.
Qed.

Lemma meant_final s : meant s → meant_clauses (FINALLY s).
Proof.
  intros IH. assert (∀ n i t f pend, good n t → disciplined n s → frames t !! i = Some f → pending_flag pend f →
    within n i t (run_end (FINALLY s) pend (user t)) (eval (expand_end (FINALLY s)) (Some i) t)) as Hend.
  { intros n i t f pend Hg Hd Hf Hp. cbn [run_end expand_end].
    set (c := C_if Is_raised C_reraise C_skip).
    assert (∃ t' f', eval (C_if Is_entered (C_set_flag Except_finalized) C_skip) (Some i) t = Some (O_normal, t') ∧
      (t' = t ∨ t' = upd_frame i (set_flag Except_finalized) t) ∧ frames t' !! i = Some f' ∧
      Except_flag f' ≠ Except_entered ∧ (pending_flag pend f' ∨ (pend = None ∧ Except_flag f' = Except_finalized)))
      as (t' & f' & E1 & Ht' & Hf' & Hne & Hp').
    { cbn. rewrite Hf. cbn. case_bool_decide as Hfl.
      - eexists _, _. split; [done|]. split; [by right|]. cbn. rewrite lookup_alter_eq, Hf. split; [done|].
        split; [done|]. right. destruct pend as [[e l]|]; [|done]. destruct Hp as (Hx & _). congruence.
      - exists t, f. split_and!; [done|by left|done|done|by left]. }
    assert (eval (C_seq (C_seq (C_if Is_entered (C_set_flag Except_finalized) C_skip) (C_seq (expand s) pop_entered)) c) (Some i) t
      = eval (C_seq (C_seq (expand s) pop_entered) c) (Some i) t') as ->.
    { cbn [eval] in E1 |- *. rewrite E1. done. }
    assert (within n i t' ('(o, u) ← run s (user t'); match o with
       | Normal => Some (match pend with None => Normal | Some (e, l) => Raised e l end, u) | _ => Some (o, u) end)
       (eval (C_seq (C_seq (expand s) pop_entered) c) (Some i) t')) as Hw.
    { eapply run_part; [done| |done|exact Hf'|done|].
      - destruct Ht' as [->| ->]; [done|]. by apply good_frame.
      - intros k u _ Hk. by apply (run_last pend n i f' (mkThread (frames t') (Except_stack t') k u) u k). }
    destruct Ht' as [->| ->]; [done|]. cbn [user upd_frame] in Hw. eapply within_frame; [by rewrite Hf|exact Hw]. }
  intros n i t f Hg Hd Hf. split; [intros pend Hp; by eapply Hend|]. intros e l Hp.
  specialize (Hend n i t f (Some (e, l)) Hg Hd Hf Hp). exact Hend.
Qed.

(** A handler that is entered, and the end of the block *)
Lemma meant_handler s c n i t f :
  meant s → meant_clauses c → good n t → disciplined n s → disciplined_clauses n c → frames t !! i = Some f →
  within n i t ('(o, u) ← run s (user t); match o with Normal => run_end c None u | _ => Some (o, u) end)
    (eval (C_seq (C_seq (C_set_flag Except_handled) (C_seq (expand s) pop_entered)) (expand_end c)) (Some i) t).
Proof.
  intros IHs IHc Hg Hs Hc Hf. set (t' := upd_frame i (set_flag Except_handled) t).
  assert (eval (C_seq (C_seq (C_set_flag Except_handled) (C_seq (expand s) pop_entered)) (expand_end c)) (Some i) t
    = eval (C_seq (C_seq (expand s) pop_entered) (expand_end c)) (Some i) t') as -> by (cbn [eval mbind option_bind]; rewrite Hf; done).
  assert (frames t' !! i = Some (set_flag Except_handled f)) as Hf' by (cbn; by rewrite lookup_alter_eq, Hf).
  apply (within_frame n i (set_flag Except_handled)); [by rewrite Hf|]. fold t'.
  eapply (run_part s n i t' _ _ (run_end c None)); [done|by apply good_frame|done|exact Hf'|done|].
  intros k u _ Hk. refine (proj1 (IHc n i (mkThread (frames t') (Except_stack t') k u) _ _ Hc Hf') None _); [|by right].
  apply good_later; [by apply good_frame|done].
Qed.

Lemma meant_end : meant_clauses END_TRY.
Proof.
  intros n i t f Hg _ Hf. assert (∀ pend, pending_flag pend f →
    within n i t (run_end END_TRY pend (user t)) (eval (expand_end END_TRY) (Some i) t)) as H.
  { intros pend Hp. pose proof (run_last pend n i f t (user t) (next t) Hf (or_introl Hp) ltac:(lia)) as Hw. by destruct t. }
  split; [exact H|]. intros e l Hp. exact (H (Some (e, l)) Hp).
Qed.
Lemma meant_except e s c : meant s → meant_clauses c → meant_clauses (EXCEPT e s c).
Proof.
  intros IHs IHc n i t f Hg [Hs Hc] Hf. destruct (IHc n i t f Hg Hc Hf) as [He Hh]. split; [exact He|].
  intros e' l Hp. cbn [run_handlers]. pose proof Hp as (_ & Hx & _).
  assert (eval (C_seq (expand_handlers (EXCEPT e s c)) (expand_end (EXCEPT e s c))) (Some i) t =
    if same_exception e' e
    then eval (C_seq (C_seq (C_set_flag Except_handled) (C_seq (expand s) pop_entered)) (expand_end c)) (Some i) t
    else eval (C_seq (expand_handlers c) (expand_end c)) (Some i) t) as ->.
  { cbn [expand_handlers expand_end eval mbind option_bind]. rewrite Hf. cbn [holds mbind option_bind]. rewrite Hx. cbn [mbind option_bind].
    by destruct (same_exception e' e). }
  destruct (same_exception e' e); [|by apply Hh]. by eapply meant_handler.
Qed.
Lemma meant_else s c : meant s → meant_clauses c → meant_clauses (ELSE s c).
Proof.
  intros IHs IHc n i t f Hg [Hs Hc] Hf. destruct (IHc n i t f Hg Hc Hf) as [He Hh]. split; [exact He|].
  intros e' l Hp. exact (meant_handler s c n i t f IHs IHc Hg Hs Hc Hf).
Qed.

(** Leaving the block *)
Lemma leave_block n t r res m s u :
  good n t → s = mkThread m (Except_stack t) (next (enter t)) u → delete (next t) m = frames t →
  within n (next t) s r res →
  after n t r ('(o, t') ← res; if decide (o = O_jump (next t)) then None else leave (next t) (o, t')).
Proof.
  intros Hg -> Hm Hw. unfold within, after in *. destruct r as [[r v]|]; [|by rewrite Hw].
  destruct Hw as (k & m' & Hk & Hi & Hd & ->). cbn [frames Except_stack next] in *. rewrite Hm in Hd.
  exists k. split; [cbn in Hk; lia|]. destruct Hg as [H1 H2 H3 H4].
  assert (∀ p, Except_stack t = Some p → p ≠ next t) as Hne.
  { intros p Hp ->. specialize (H1 _ (H2 _ Hp)). lia. }
  assert (∀ j, j ≠ next t → m' !! j = frames t !! j) as Hj.
  { intros j Hj. rewrite <-Hd. by rewrite lookup_delete_ne. }
  unfold leave. destruct r as [| |e l].
  - cbn. by rewrite Hd.
  - destruct n; cbn; [by rewrite Hd|]. unfold pop_except_stack. cbn. destruct (Except_stack t) as [p|] eqn:Ep; [|done].
    cbn. rewrite Hj by (by apply Hne). destruct (frames t !! p); [|done]. cbn. by rewrite Hd.
  - cbn. unfold Except_raise. cbn. destruct (Except_stack t) as [p|] eqn:Ep; [|cbn; by rewrite Hd].
    rewrite Hj by (by apply Hne). destruct (frames t !! p) as [f|]; [|done]. cbn.
    rewrite decide_False by (intros [= E]; by apply (Hne p)). cbn. rewrite delete_insert_ne by (by apply not_eq_sym, Hne).
    by rewrite Hd.
Qed.

Lemma ended_some n t r k u : good n t → ∃ y, ended n (mkThread (frames t) (Except_stack t) k u) r = Some y.
Proof.
  intros [H1 H2 H3 H4]. destruct r as [| |e l]; cbn [ended].
  - by eexists.
  - destruct n; [by eexists|]. unfold pop_except_stack. cbn. destruct (Except_stack t) as [p|] eqn:Ep; [|by destruct H4].
    cbn. destruct (H2 p eq_refl) as [f ->]. by eexists.
  - unfold Except_raise. cbn. destruct (Except_stack t) as [p|] eqn:Ep; [|by eexists].
    destruct (H2 p eq_refl) as [f ->]. by eexists.
Qed.

(** What [C_block] does with the end of the first run, when it is not a jump
    to the block itself *)
Lemma not_again n t r (res : option (outcome * thread)) (again : thread → option (outcome * thread)) :
  good n t →
  after n t r ('(o, t') ← res; if decide (o = O_jump (next t)) then None else leave (next t) (o, t')) →
  (r = None → res = None) →
  after n t r ('(o, t') ← res;
    match o with O_jump j => if decide (j = next t) then again t' else leave (next t) (o, t') | _ => leave (next t) (o, t') end).
Proof.
  intros Hg Ha Hnone. destruct r as [[r u]|]; [|by rewrite (Hnone eq_refl)].
  destruct Ha as (k & Hk & E). exists k. split; [done|]. destruct (ended_some n t r k u Hg) as [y Ey]. rewrite Ey in E |- *.
  rewrite <-E. destruct res as [[o t']|]; [|done]. cbn in *. destruct o as [| |j|]; try done.
  destruct (decide (j = next t)) as [->|Hj]; [by rewrite decide_True in E|]. by rewrite decide_False by (by intros [=]).
Qed.

Lemma meant_try s c : meant s → meant_clauses c → meant (TRY s c).
Proof.
  intros IHs IHc n block t Hg [Hs Hc]. set (i := next t). set (X := C_seq (C_if Is_entered (C_seq (expand s) pop_entered) (expand_handlers c)) (expand_end c)).
  assert (frames t !! i = None) as Hfresh.
  { destruct (frames t !! i) eqn:E; [|done]. pose proof (good_next n t Hg i ltac:(by rewrite E)). unfold i in *. lia. }
  assert (frames (enter t) !! i = Some (mkFrame (Except_stack t) None 0 Except_entered)) as Hi by (cbn; apply lookup_insert_eq).
  assert (delete i (frames (enter t)) = frames t) as Hdel by (cbn; by rewrite delete_insert_id).
  pose proof (IHs (S n) (Some i) (enter t) (good_enter n t Hg) Hs) as Hbody. change (user (enter t)) with (user t) in Hbody.
  cbn [run expand]. change (eval (C_block ?x) block t) with
    ('(o, t') ← eval x (Some i) (enter t);
     match o with
     | O_jump j => if decide (j = i) then
         '(o, t') ← eval x (Some i) (upd_frame i (set_flag Except_raised) t');
         if decide (o = O_jump i) then None else leave i (o, t') else leave i (o, t')
     | _ => leave i (o, t') end).
  fold X. assert (eval X (Some i) (enter t) = '(o, t') ← eval (C_seq (expand s) pop_entered) (Some i) (enter t);
    match o with O_normal => eval (expand_end c) (Some i) t' | _ => Some (o, t') end) as Efirst.
  { unfold X. cbn [eval mbind option_bind]. rewrite Hi. done. }
  unfold after in Hbody. destruct (run s (user t)) as [[o u]|] eqn:Erun; cbn [mbind option_bind].
  2:{ rewrite Efirst. cbn [eval]. by rewrite Hbody. }
  destruct Hbody as (k & Hk & Eb). destruct o as [| |e l].
  - set (t2 := mkThread (frames (enter t)) (Except_stack t) k u).
    assert (eval X (Some i) (enter t) = eval (expand_end c) (Some i) t2) as ->.
    { rewrite Efirst. cbn [eval]. rewrite Eb. cbn [ended mbind option_bind]. unfold pop_entered. cbn [eval mbind option_bind frames].
      rewrite Hi. cbn. unfold pop_except_stack. cbn. by rewrite lookup_insert_eq. }
    assert (good n t2) as Hg2 by (by apply good_leave).
    pose proof (proj1 (IHc n i t2 _ Hg2 Hc Hi) None (or_introl eq_refl)) as Hend. cbn [user t2] in Hend.
    apply not_again; [done| |intros E; unfold within in Hend; by rewrite E in Hend].
    eapply (leave_block n t _ _ _ (mkThread (frames (enter t)) (Except_stack t) (next (enter t)) u)); [done|done|exact Hdel|].
    destruct (run_end c None u) as [[r' u']|]; [|exact Hend]. destruct Hend as (k' & m & Hk' & Hend). exists k', m.
    split; [cbn in Hk, Hk' |- *; lia|exact Hend].
  - pose proof (proj1 returns_shallow s _ _ _ Hs Erun) as Hn. assert (n = 0%nat) as -> by lia.
    rewrite Efirst. cbn [eval]. rewrite Eb. cbn [ended]. unfold pop_except_stack. cbn. rewrite lookup_insert_eq. cbn.
    exists k. split; [cbn in Hk; lia|]. unfold leave. cbn. by rewrite delete_insert_id.
  - rewrite Efirst. cbn [eval]. rewrite Eb. cbn [ended]. unfold Except_raise at 1. cbn [Except_stack enter frames]. fold i.
    rewrite lookup_insert_eq. cbn [mbind option_bind prev]. rewrite decide_True by done.
    set (t3 := upd_frame i (set_flag Except_raised) _).
    assert (frames t3 !! i = Some (mkFrame (Except_stack t) (Some e) l Except_raised)) as Hi3.
    { cbn. by rewrite lookup_alter_eq, lookup_insert_eq. }
    assert (eval X (Some i) t3 = eval (C_seq (expand_handlers c) (expand_end c)) (Some i) t3) as ->.
    { unfold X. cbn [eval mbind option_bind]. rewrite Hi3. done. }
    assert (t3 = upd_frame i (λ f, set_flag Except_raised (set_exception e l f)) (mkThread (frames (enter t)) (Except_stack t) k u)) as Et3.
    { unfold t3, upd_frame. cbn. f_equal. fold i. apply map_eq. intros j. destruct (decide (j = i)) as [->|Hj].
      - by rewrite !lookup_alter_eq, !lookup_insert_eq.
      - by rewrite !lookup_alter_ne, !lookup_insert_ne by done. }
    assert (good n t3) as Hg3 by (rewrite Et3; apply good_frame; [done|by apply good_leave]).
    pose proof (proj2 (IHc n i t3 _ Hg3 Hc Hi3) e l (conj eq_refl (conj eq_refl eq_refl))) as Hend. cbn [user t3 upd_frame] in Hend.
    eapply (leave_block n t _ _ (frames t3) (mkThread (frames t3) (Except_stack t) (next (enter t)) u)); [done|done| |].
    { rewrite Et3. cbn [frames upd_frame]. rewrite delete_alter_eq. exact Hdel. }
    change (user t3) with u in Hend. destruct (run_handlers c e l u) as [[r' u']|]; [|exact Hend].
    destruct Hend as (k' & m & Hk' & Hend). exists k', m. split; [cbn in Hk, Hk' |- *; lia|exact Hend].
Qed.

Lemma all_meant : (∀ s, meant s) ∧ (∀ c, meant_clauses c).
Proof.
  apply stmt_clauses_ind.
  - intros a n block t Hg _. cbn. destruct (a (user t)) as [[u [[e l]|]]|]; cbn; [| |done].
    + by exists (next t).
    + by exists (next t).
  - intros s IHs r IHr n block t Hg [Hs Hr]. pose proof (IHs n block t Hg Hs) as H1. cbn [run expand eval].
    unfold after in H1. destruct (run s (user t)) as [[o u]|]; cbn [mbind option_bind]; [|by rewrite H1].
    destruct H1 as (k & Hk & ->). destruct o as [| |e l].
    + cbn [ended mbind option_bind]. pose proof (IHr n block _ (good_later n t k u Hg Hk) Hr) as H2. cbn [user] in H2.
      unfold after in *. destruct (run r u) as [[o' u']|]; [|done]. destruct H2 as (k' & Hk' & E). exists k'.
      cbn in Hk', E. split; [lia|done].
    + exists k. split; [done|]. cbn [ended]. destruct n; [done|]. by destruct (pop_except_stack _).
    + exists k. split; [done|]. cbn [ended]. unfold Except_raise. cbn. destruct (Except_stack t) as [p|]; [|done]. by destruct (frames t !! p).
  - intros e l n block t Hg _. exists (next t). split; [done|]. cbn. by destruct t.
  - intros s IHs n block t Hg Hs. assert (good 0 t) as Hg0 by (destruct Hg; by split).
    pose proof (IHs 0%nat None t Hg0 Hs) as H1. cbn [run expand eval]. unfold after in *.
    destruct (run s (user t)) as [[o u]|]; cbn [mbind option_bind]; [|by rewrite H1].
    destruct H1 as (k & Hk & ->). exists k. split; [done|]. destruct o as [| |e l]; [done|done|].
    cbn [ended]. unfold Except_raise. cbn. destruct (Except_stack t) as [p|]; [|done]. by destruct (frames t !! p).
  - intros n block t Hg ->. exists (next t). split; [done|]. by destruct t.
  - intros n block t Hg ->. exists (next t). split; [done|]. cbn. unfold pop_except_stack.
    destruct t as [m st nx u]. cbn. destruct st as [p|]; [|done]. cbn. by destruct (m !! p).
  - intros s IHs c IHc. by apply meant_try.
  - apply meant_end.
  - intros e s IHs c IHc. by apply meant_except.
  - intros s IHs c IHc. by apply meant_else.
  - intros s IHs. by apply meant_final.
Qed.

Definition start (u : U) : thread := mkThread ∅ None 0 u.
Lemma good_start u : good 0 (start u).
Proof. split; cbn; [intros i [f Hf]|done|intros i f p Hf|done]; by rewrite lookup_empty in Hf. Qed.

(** C12  The macros mean what they look like: a program that keeps to the rules
    for returning, started in any state of the frames, ends the way its
    structured reading ends, with the same effects; the blocks it entered are
    gone and the stack is as before. An exception that leaves it carries the
    place where it was raised first, to the innermost block that is still
    active, or aborts the process when there is none; a failed assertion is
    one in both. *)
Theorem expand_correct (n : nat) (s : stmt) (block : option nat) (t : thread)
    (Hg : good n t) (Hs : disciplined n s) :
  match run s (user t) with
  | None => eval (expand s) block t = None
  | Some (r, u) => ∃ k, eval (expand s) block t = ended n (mkThread (frames t) (Except_stack t) k u) r
  end.
Proof.
  pose proof (proj1 all_meant s n block t Hg Hs) as H. unfold after in H. destruct (run s (user t)) as [[r u]|]; [|done].
  destruct H as (k & _ & E). by exists k.
Qed.

(** A plain [return] from a block leaves its frame on the stack, although it
    is gone: the next exception is stored into it. *)
Theorem return_leaves_frame (e : Except_T) (l : Z) (c : clauses) (u : U) :
  eval (expand (Seq (Call (TRY Return c)) (RAISE e l))) None (start u) = None.
Proof.
  reflexivity.
Qed.

(** An exception in a handler, like a return, skips the final part. *)
Theorem handler_skips_final (e e' : Except_T) (l l' : Z) (s : stmt) (u : U) (He : address e = address e') :
  run (TRY (RAISE e l) (EXCEPT e' (RAISE e l') (FINALLY s))) u = Some (Raised e l', u).
Proof. cbn. unfold same_exception. by rewrite He, Z.eqb_refl. Qed.

(** ** mem.c *)

Section mem.
Context (malloc : Z → U → option Z * U) (calloc : Z → Z → U → option Z * U) (realloc : Z → Z → U → option Z * U)
  (free : Z → U → U).

Definition Mem_Failed : Except_T := mkExcept 1 (Some "Allocation Failed").
(** The caller's file and line, or else those of the raise in mem.c *)
Definition allocated (r : option Z * U) (at_ : option Z) (own : Z) : U * (Z + Except_T * Z) :=
  (r.2, match r.1 with Some p => inl p | None => inr (Mem_Failed, default own at_) end).
Definition Mem_alloc (nbytes : Z) (at_ : option Z) (u : U) : option (U * (Z + Except_T * Z)) :=
  _ ← c_assert (0 <? nbytes);
  Some (allocated (malloc nbytes u) at_ 16).
Definition Mem_calloc (count nbytes : Z) (at_ : option Z) (u : U) : option (U * (Z + Except_T * Z)) :=
  _ ← c_assert (0 <? count);
  _ ← c_assert (0 <? nbytes);
  Some (allocated (calloc count nbytes u) at_ 31).
Definition Mem_free (ptr : Z) (u : U) : U := if ptr =? 0 then u else free ptr u.
Definition Mem_resize (ptr nbytes : Z) (at_ : option Z) (u : U) : option (U * (Z + Except_T * Z)) :=
  _ ← c_assert (negb (ptr =? 0));
  _ ← c_assert (0 <? nbytes);
  Some (allocated (realloc ptr nbytes u) at_ 50).

(** A call whose result is kept *)
Definition calling (m : U → option (U * (Z + Except_T * Z))) (keep : Z → U → U) : action := λ u,
  '(u, r) ← m u;
  Some (match r with inl p => (keep p u, None) | inr e => (u, Some e) end).
End mem.

(** ** oed_dispatcher_common.c *)

Section process.
Context (arena_free handle_mem_error : U → option U).
Definition Arena_Failed : Except_T := mkExcept 2 (Some "Arena Allocation Failed").
Definition doing (f : U → option U) : action := λ u, u ← f u; Some (u, None).

(** [fun] is any function the dispatcher is given. *)
Definition _process_fun (fun_ : stmt) : stmt :=
  TRY (Seq (Call fun_) (Do (doing arena_free)))
    (EXCEPT Arena_Failed (Do (doing handle_mem_error)) (EXCEPT Mem_Failed (Do (doing handle_mem_error)) END_TRY)).

(** A job that runs out of memory does not take its thread with it: the
    error is logged, no frame stays on the stack and the thread takes the next
    job; its arena is then not reset, as it is after a job that ends. Every
    other exception of a job aborts the process. *)
Theorem process_fun_contains (job : stmt) (u : U) (Hjob : disciplined 0 job) :
  match run job u with
  | None => eval (expand (_process_fun job)) None (start u) = None
  | Some (Raised e _, v) =>
    if same_exception e Arena_Failed || same_exception e Mem_Failed then
      match handle_mem_error v with
      | None => eval (expand (_process_fun job)) None (start u) = None
      | Some v => ∃ k, eval (expand (_process_fun job)) None (start u) = Some (O_normal, mkThread ∅ None k v)
      end
    else ∃ k, eval (expand (_process_fun job)) None (start u) = Some (O_abort, mkThread ∅ None k v)
  | Some (_, v) =>
    match arena_free v with
    | None => eval (expand (_process_fun job)) None (start u) = None
    | Some v => ∃ k, eval (expand (_process_fun job)) None (start u) = Some (O_normal, mkThread ∅ None k v)
    end
  end.
Proof.
  assert (disciplined 0 (_process_fun job)) as Hd by (by split_and!).
  pose proof (proj1 all_meant (_process_fun job) 0%nat None (start u) (good_start u) Hd) as H. unfold after in H.
  change (user (start u)) with u in H. cbn [run _process_fun run_handlers run_end] in H.
  destruct (run job u) as [[[| |e l] v]|]; cbn [mbind option_bind] in H; [| | |exact H].
  - unfold doing in H. destruct (arena_free v) as [v'|]; cbn [mbind option_bind] in H; [|exact H].
    destruct H as (k & _ & E). by exists k.
  - unfold doing in H. destruct (arena_free v) as [v'|]; cbn [mbind option_bind] in H; [|exact H].
    destruct H as (k & _ & E). by exists k.
  - destruct (same_exception e Arena_Failed); [|destruct (same_exception e Mem_Failed)]; cbn [orb].
    + unfold doing in H. destruct (handle_mem_error v) as [v'|]; cbn [mbind option_bind] in H; [|exact H].
      destruct H as (k & _ & E). by exists k.
    + unfold doing in H. destruct (handle_mem_error v) as [v'|]; cbn [mbind option_bind] in H; [|exact H].
      destruct H as (k & _ & E). by exists k.
    + destruct H as (k & _ & E). by exists k.
Qed.
End process.
End machine.

(** ** Applied *)

Section demos.
#[local] Definition log := list Z.
#[local] Definition out (z : Z) : action (U := log) := λ u, Some (u ++ [z], None).
#[local] Definition no_memory : log → option Z * log := λ u, (None, u ++ [9]).
(** A block in a block: the inner one does not take the exception, but runs
    its final part. *)
#[local] Definition nested : stmt (U := log) :=
  TRY (TRY (Seq (Do (out 1)) (RAISE (Mem_Failed) 7)) (EXCEPT Arena_Failed (Do (out 2)) (FINALLY (Do (out 3)))))
    (EXCEPT Mem_Failed (Do (out 4)) (FINALLY (Do (out 5)))).
Lemma expand_correct_witness :
  match run nested [] with
  | None => eval (expand nested) None (start []) = None
  | Some (r, u) => ∃ k, eval (expand nested) None (start []) = ended 0 (mkThread ∅ None k u) r
  end ∧ run nested [] = Some (Normal, [1; 3; 4; 5]).
Proof.
  split; [|reflexivity]. apply (expand_correct 0 nested None (start [])); [apply good_start|by repeat split].
Defined.

#[local] Definition hungry_job : stmt (U := log) :=
  Seq (Do (out 1)) (Do (calling (Mem_alloc (λ _, no_memory) 8 (Some 77)) (λ _ u, u))).
Lemma process_fun_contains_witness :
  ∃ k, eval (expand (_process_fun (λ u, Some (u ++ [5])) (λ u, Some (u ++ [6])) hungry_job)) None (start []) =
    Some (O_normal, mkThread ∅ None k [1; 9; 6]).
Proof. apply (process_fun_contains (λ u, Some (u ++ [5])) (λ u, Some (u ++ [6])) hungry_job []). by split. Defined.
Lemma handler_skips_final_witness :
  run (TRY (RAISE Mem_Failed 1) (EXCEPT Mem_Failed (RAISE Mem_Failed 2) (FINALLY (Do (out 3))))) [] = Some (Raised Mem_Failed 2, []).
Proof. apply (handler_skips_final Mem_Failed Mem_Failed 1 2 (Do (out 3)) []). reflexivity. Defined.
End demos.
