(* ===== verification/Arena.v ===== *)
(** * Arena: the arenas that messages and contexts live in

    Models [src/corelib/arena.c] on a memory of bytes.  An arena is a block
    with three pointers and a chain of chunks; a chunk starts with a header in
    which the pointers the arena had before are saved.  Freed chunks go to a
    list of the thread, of at most [THRESHOLD] chunks.

    [malloc] is a parameter; it returns the address of the new block or the
    null pointer, in which case the exception [Arena_Failed] or
    [Arena_NewFailed] is raised ([Raised]).  A new block holds no values, and
    the values of a freed block are forgotten, so that reading what was never
    written, or what was freed, is [None], as is an access outside a block.
    The sizes of [union align] and [union header] depend on the constant
    [MAXALIGN] that configure may set. *)

From S2P Require Import Prelude.

Open Scope oes_scope.

(** ** Memory *)

(** Where [malloc] puts a block, given the live blocks with their sizes *)
Class Malloc := malloc_at : gmap Z Z → Z → option Z.
Class MallocSpec `{Malloc} := malloc_fresh blocks n p :
  0 < n → malloc_at blocks n = Some p →
  0 < p ∧ (16 | p) ∧ p + n < 2 ^ 63 ∧
  ∀ b k, blocks !! b = Some k → p + n ≤ b ∨ b + k ≤ p.

(** The values of [freechunks_td] and [nfree_td] of each thread are [tls]. *)
Record memory := mkMem {
  bytes : gmap Z Z;
  blocks : gmap Z Z;
  tls : gmap Z (Z * Z)
}.
Definition no_memory : memory := mkMem ∅ ∅ ∅.

Definition upd_bytes (f : gmap Z Z → gmap Z Z) (m : memory) : memory := mkMem (f (bytes m)) (blocks m) (tls m).
Definition upd_tls (f : gmap Z (Z * Z) → gmap Z (Z * Z)) (m : memory) : memory :=
  mkMem (bytes m) (blocks m) (f (tls m)).

Definition inside (m : memory) (a k : Z) : bool :=
  existsb (λ '(b, n), (b <=? a) && (a + k <=? b + n)) (map_to_list (blocks m)).
Fixpoint write_bytes (a : Z) (l : list Z) (bs : gmap Z Z) : gmap Z Z :=
  match l with
  | [] => bs
  | x :: l => <[a := x]> (write_bytes (a + 1) l bs)
  end.
Definition read_bytes (bs : gmap Z Z) (a : Z) (k : nat) : option (list Z) :=
  mapM (λ i, bs !! (a + Z.of_nat i)) (seq 0 k).
Definition store (a : Z) (l : list Z) (m : memory) : option memory :=
  _ ← c_assert (inside m a (Z.of_nat (length l)));
  Some (upd_bytes (write_bytes a l) m).
Definition store64 (a v : Z) (m : memory) : option memory := store a (le_bytes 8 v) m.
Definition load64 (m : memory) (a : Z) : option Z :=
  _ ← c_assert (inside m a 8);
  le_val <$> read_bytes (bytes m) a 8.

(** What a call gives back: a pointer, or an exception *)
Inductive outcome := Returned (p : Z) | Raised.

Definition forget (b n : Z) (bs : gmap Z Z) : gmap Z Z := filter (λ e, ¬ (b ≤ e.1 < b + n)) bs.
Definition mem_free (p : Z) (m : memory) : option memory :=
  n ← blocks m !! p;
  Some (mkMem (forget p n (bytes m)) (delete p (blocks m)) (tls m)).

(** ** arena.c *)

Definition THRESHOLD : Z := 10.
(** [struct arena_T]: the offsets of [prev], [avail] and [limit] are 0, 8 and 16. *)
Definition sizeof_arena : Z := 24.

Section arena.
Context `{Malloc}.
Context (MAXALIGN : option Z).

(** [union align] holds a [long double], or [MAXALIGN] characters;
    [union header] a pointer and a [union align]. *)
Definition sizeof_align : Z := default 16 MAXALIGN.
Definition sizeof_header : Z :=
  match MAXALIGN with
  | None => 16
  | Some n => (Z.max 8 n + 7) / 8 * 8
  end.

Definition mem_malloc (n : Z) (m : memory) : memory * option Z :=
  match malloc_at (blocks m) n with
  | None => (m, None)
  | Some p => (mkMem (bytes m) (<[p := n]> (blocks m)) (tls m), Some p)
  end.

Definition load_arena (m : memory) (a : Z) : option (Z * Z * Z) :=
  prev ← load64 m a; avail ← load64 m (a + 8); limit ← load64 m (a + 16);
  Some (prev, avail, limit).
Definition store_arena (a : Z) (s : Z * Z * Z) (m : memory) : option memory :=
  m ← store64 a s.1.1 m; m ← store64 (a + 8) s.1.2 m; store64 (a + 16) s.2 m.

Definition get_freechunks (t : Z) (m : memory) : Z := (default (0, 0) (tls m !! t)).1.
Definition get_nfree (t : Z) (m : memory) : Z := (default (0, 0) (tls m !! t)).2.
Definition set_freechunks (t freechunks : Z) (m : memory) : memory :=
  upd_tls <[t := (freechunks, get_nfree t m)]> m.
Definition set_nfree (t nfree : Z) (m : memory) : memory :=
  upd_tls <[t := (get_freechunks t m, nfree)]> m.

Definition Arena_new (m : memory) : option (memory * outcome) :=
  match mem_malloc sizeof_arena m with
  | (m, None) => Some (m, Raised)
  | (m, Some arena) =>
    m ← store64 arena 0 m;
    m ← store64 (arena + 8) 0 m;
    m ← store64 (arena + 16) 0 m;
    Some (m, Returned arena)
  end.

(** A chunk and its limit, from the list of the thread or from [malloc] *)
Definition take_chunk (t nbytes : Z) (m : memory) : option (memory * option (Z * Z)) :=
  let ptr := get_freechunks t m in
  if negb (ptr =? 0) then
    prev ← load64 m ptr;
    let m := set_freechunks t prev m in
    let m := set_nfree t (i32 (get_nfree t m - 1)) m in
    limit ← load64 m (ptr + 16);
    Some (m, Some (ptr, limit))
  else
    let n := u64 (sizeof_header + nbytes + 10 * 1024) in
    match mem_malloc n m with
    | (m, None) => Some (m, None)
    | (m, Some ptr) => Some (m, Some (ptr, ptr + i64 n))
    end.

Fixpoint alloc_loop (fuel : nat) (t arena nbytes : Z) (m : memory) : option (memory * outcome) :=
  match fuel with
  | O => None
  | S fuel =>
    avail ← load64 m (arena + 8); limit ← load64 m (arena + 16);
    if limit - avail <? nbytes then
      '(m, chunk) ← take_chunk t nbytes m;
      match chunk with
      | None => Some (m, Raised)
      | Some (ptr, limit) =>
        saved ← load_arena m arena;
        m ← store_arena ptr saved m;
        m ← store64 (arena + 8) (ptr + sizeof_header) m;
        m ← store64 (arena + 16) limit m;
        m ← store64 arena ptr m;
        alloc_loop fuel t arena nbytes m
      end
    else
      m ← store64 (arena + 8) (avail + nbytes) m;
      Some (m, Returned avail)
  end.

Definition round_up (nbytes : Z) : Z := i64 (u64 (u64 (nbytes + sizeof_align - 1) / sizeof_align * sizeof_align)).
(** Every turn of the loop but the last takes a chunk from the list. *)
Definition Arena_alloc (t arena nbytes : Z) (m : memory) : option (memory * outcome) :=
  _ ← c_assert (negb (arena =? 0));
  _ ← c_assert (0 <? nbytes);
  alloc_loop (Z.to_nat (get_nfree t m) + 2) t arena (round_up nbytes) m.

(** The product is a [long]: it must not overflow. *)
Definition Arena_calloc (t arena count nbytes : Z) (m : memory) : option (memory * outcome) :=
  _ ← c_assert (0 <? count);
  _ ← c_assert ((- 2 ^ 63 <=? count * nbytes) && (count * nbytes <? 2 ^ 63));
  '(m, r) ← Arena_alloc t arena (count * nbytes) m;
  match r with
  | Raised => Some (m, Raised)
  | Returned ptr =>
    m ← store ptr (replicate (Z.to_nat (count * nbytes)) 0) m;
    Some (m, Returned ptr)
  end.

Fixpoint free_loop (fuel : nat) (t arena : Z) (m : memory) : option memory :=
  match fuel with
  | O => None
  | S fuel =>
    prev ← load64 m arena;
    if prev =? 0 then Some m
    else
      tmp ← load_arena m prev;
      m ← (if get_nfree t m <? THRESHOLD then
             m ← store64 prev (get_freechunks t m) m;
             let m := set_freechunks t prev m in
             let m := set_nfree t (i32 (get_nfree t m + 1)) m in
             limit ← load64 m (arena + 16);
             store64 (prev + 16) limit m
           else mem_free prev m);
      m ← store_arena arena tmp m;
      free_loop fuel t arena m
  end.

(** Every turn takes a block out of the chain. *)
Definition Arena_free (t arena : Z) (m : memory) : option memory :=
  _ ← c_assert (negb (arena =? 0));
  m ← free_loop (S (size (blocks m))) t arena m;
  limit ← load64 m (arena + 16); avail ← load64 m (arena + 8);
  _ ← c_assert (limit =? 0);
  _ ← c_assert (avail =? 0);
  Some m.

Definition Arena_dispose (t arena : Z) (m : memory) : option memory :=
  _ ← c_assert (negb (arena =? 0));
  m ← Arena_free t arena m;
  mem_free arena m.
End arena.

(** Sizes next to the largest [long] become negative. *)
Example round_up_wraps : round_up None (2 ^ 63 - 1) = - 2 ^ 63.
Proof. reflexivity. Qed.

(** ** Bytes *)

Lemma write_bytes_lookup l : ∀ a bs x,
  write_bytes a l bs !! x = if decide (a ≤ x < a + Z.of_nat (length l)) then l !! Z.to_nat (x - a) else bs !! x.
Proof.
  induction l as [|y l IH]; intros a bs x; cbn [write_bytes length].
  - case_decide; [lia|done].
  - destruct (decide (a = x)) as [->|Hne].
    + rewrite lookup_insert_eq. rewrite decide_True by lia. by replace (x - x) with 0 by lia.
    + rewrite lookup_insert_ne, IH by done. repeat case_decide; try lia; [|done].
      replace (Z.to_nat (x - a)) with (S (Z.to_nat (x - (a + 1)))) by lia. done.
Qed.

Lemma read_bytes_Some bs a k l :
  read_bytes bs a k = Some l ↔ length l = k ∧ ∀ i, (i < k)%nat → bs !! (a + Z.of_nat i) = l !! i.
Proof.
  unfold read_bytes. rewrite mapM_Some, Forall2_lookup. split.
  - intros HF. assert (length l = k) as Hl.
    { apply Forall2_lookup, Forall2_length in HF. by rewrite length_seq in HF. }
    split; [done|]. intros i Hi. specialize (HF i). rewrite lookup_seq_lt in HF by done.
    inversion HF as [? y Hy E1 E2|]. by rewrite Hy.
  - intros [Hl HF] i. destruct (decide (i < k)%nat) as [Hi|Hi].
    + rewrite lookup_seq_lt by done. destruct (lookup_lt_is_Some_2 l i) as [y Hy]; [lia|].
      rewrite Hy. constructor. by rewrite HF.
    + rewrite lookup_seq_ge, lookup_ge_None_2 by lia. constructor.
Qed.

Lemma read_write bs a l : read_bytes (write_bytes a l bs) a (length l) = Some l.
Proof.
  apply read_bytes_Some. split; [done|]. intros i Hi. rewrite write_bytes_lookup, decide_True by lia.
  f_equal. lia.
Qed.

Lemma read_bytes_ext bs bs' a k :
  (∀ x, a ≤ x < a + Z.of_nat k → bs' !! x = bs !! x) → read_bytes bs' a k = read_bytes bs a k.
Proof.
  intros Hext. apply option_eq. intros l. rewrite !read_bytes_Some.
  split; intros [Hl HF]; (split; [done|]); intros i Hi.
  - rewrite <-Hext by lia. auto.
  - rewrite Hext by lia. auto.
Qed.

(** ** Blocks by what they hold *)

(** A block, with the values of its first three words as far as they are
    known *)
Record obj := mkObj { ob : Z; on : Z; o_prev : option Z; o_avail : option Z; o_limit : option Z }.

Definition in_word (v : Z) : Prop := 0 ≤ v < 2 ^ 64.
Definition word_ok (bs : gmap Z Z) (a : Z) (o : option Z) : Prop :=
  ∀ v, o = Some v → in_word v ∧ read_bytes bs a 8 = Some (le_bytes 8 v).
Definition obj_ok (bs : gmap Z Z) (o : obj) : Prop :=
  word_ok bs (ob o) (o_prev o) ∧ word_ok bs (ob o + 8) (o_avail o) ∧ word_ok bs (ob o + 16) (o_limit o).
Definition placed (o : obj) : Prop := 0 < ob o ∧ (16 | ob o) ∧ sizeof_arena ≤ on o ∧ ob o + on o < 2 ^ 63.
Definition apart (o o' : obj) : Prop := ob o + on o ≤ ob o' ∨ ob o' + on o' ≤ ob o.

(** The live blocks are exactly these objects. *)
Record holds (m : memory) (os : list obj) : Prop := mkHolds {
  h_dup : NoDup (ob <$> os);
  h_blocks : ∀ b n, blocks m !! b = Some n ↔ ∃ o, o ∈ os ∧ ob o = b ∧ on o = n;
  h_placed : ∀ o, o ∈ os → placed o;
  h_apart : ∀ o o', o ∈ os → o' ∈ os → ob o ≠ ob o' → apart o o';
  h_ok : ∀ o, o ∈ os → obj_ok (bytes m) o
}.

#[global] Instance holds_perm m : Proper ((≡ₚ) ==> iff) (holds m).
Proof.
  assert (∀ os os', os ≡ₚ os' → holds m os → holds m os') as Hdir.
  { intros os os' Hp [Hd Hb Hl Ha Ho]. split.
    - by rewrite <-Hp.
    - intros b n. rewrite Hb. by setoid_rewrite Hp.
    - intros o. rewrite <-Hp. apply Hl.
    - intros o o'. rewrite <-Hp. apply Ha.
    - intros o. rewrite <-Hp. apply Ho. }
  intros os os' Hp. split; apply Hdir; [done|by symmetry].
Qed.

Lemma inside_spec m os a k :
  holds m os → inside m a k = true ↔ ∃ o, o ∈ os ∧ ob o ≤ a ∧ a + k ≤ ob o + on o.
Proof.
  intros Hh. unfold inside. rewrite existsb_exists. split.
  - intros ([b n] & Hin%list_elem_of_In%elem_of_map_to_list & [? ?]%andb_true_iff).
    apply (h_blocks _ _ Hh) in Hin as (o & Ho & <- & <-). exists o. split_and!; [done|lia..].
  - intros (o & Ho & ? & ?). exists (ob o, on o). split; [|lia].
    apply list_elem_of_In, elem_of_map_to_list, (h_blocks _ _ Hh). eauto.
Qed.

Lemma inside_own m o os a k : holds m (o :: os) → ob o ≤ a → a + k ≤ ob o + on o → inside m a k = true.
Proof. intros Hh ? ?. apply (inside_spec _ _ _ _ Hh). exists o. split_and!; [by left|done..]. Qed.

Lemma holds_disjoint m o os o' : holds m (o :: os) → o' ∈ os → apart o o'.
Proof.
  intros Hh Ho. apply (h_apart _ _ Hh); [by left|by right|].
  intros Heq. pose proof (h_dup _ _ Hh) as [Hn _]%list.NoDup_cons. apply Hn. rewrite Heq.
  by apply list_elem_of_fmap_2.
Qed.

Lemma obj_ok_ext bs bs' o :
  sizeof_arena ≤ on o → (∀ x, ob o ≤ x < ob o + on o → bs' !! x = bs !! x) → obj_ok bs o → obj_ok bs' o.
Proof.
  unfold sizeof_arena. intros Hn Hext (H1 & H2 & H3). split_and!; intros v Hv.
  - rewrite (read_bytes_ext bs) by (intros; apply Hext; lia). by apply H1.
  - rewrite (read_bytes_ext bs) by (intros; apply Hext; lia). by apply H2.
  - rewrite (read_bytes_ext bs) by (intros; apply Hext; lia). by apply H3.
Qed.

(** Writing into one block leaves what the others hold. *)
Lemma holds_write m o o' os a l :
  holds m (o :: os) → ob o' = ob o → on o' = on o → ob o ≤ a → a + Z.of_nat (length l) ≤ ob o + on o →
  obj_ok (write_bytes a l (bytes m)) o' →
  store a l m = Some (upd_bytes (write_bytes a l) m) ∧ holds (upd_bytes (write_bytes a l) m) (o' :: os).
Proof.
  intros Hh Eb En Ha Hl Hok. unfold store. rewrite (inside_own _ _ _ _ _ Hh) by done. split; [done|].
  pose proof Hh as [Hd Hb Hp Hap Ho]. split; cbn [upd_bytes bytes blocks].
  - cbn [fmap list_fmap] in *. by rewrite Eb.
  - intros b n. rewrite Hb. split; intros (x & [->|Hx]%list.elem_of_cons & <- & <-);
      [exists o'|exists x|exists o|exists x]; rewrite ?Eb, ?En; (split_and!; [first [by left|by right]|done..]).
  - intros x [->|Hx]%list.elem_of_cons; [|apply Hp; by right].
    unfold placed. rewrite Eb, En. apply Hp. by left.
  - intros x y [->|Hx]%list.elem_of_cons [->|Hy]%list.elem_of_cons Hne; unfold apart in *; rewrite ?Eb, ?En in *.
    + done.
    + apply (Hap o y); [by left|by right|done].
    + apply (Hap x o); [by right|by left|done].
    + apply Hap; [by right..|done].
  - intros x [->|Hx]%list.elem_of_cons; [done|].
    assert (placed x) as (_ & _ & Hsz & _) by (apply Hp; by right).
    apply (obj_ok_ext (bytes m)); [done| |apply Ho; by right].
    intros z Hz. pose proof (holds_disjoint _ _ _ _ Hh Hx) as [?|?];
      rewrite write_bytes_lookup, decide_False by lia; done.
Qed.

(** The bytes of the blocks behind their first three words *)
Definition payload (os : list obj) (x : Z) : Prop :=
  ∃ o, o ∈ os ∧ ob o + sizeof_arena ≤ x < ob o + on o.
Definition only (os : list obj) (m m' : memory) : Prop :=
  tls m' = tls m ∧ ∀ x, payload os x → bytes m' !! x = bytes m !! x.

#[global] Instance payload_perm : Proper ((≡ₚ) ==> (=) ==> iff) payload.
Proof. intros os os' Hp x ? <-. unfold payload. by setoid_rewrite Hp. Qed.
#[global] Instance only_perm : Proper ((≡ₚ) ==> (=) ==> (=) ==> iff) only.
Proof. intros os os' Hp m ? <- m' ? <-. unfold only. by setoid_rewrite Hp. Qed.

Lemma payload_same o o' os x : ob o' = ob o → on o' = on o → payload (o :: os) x → payload (o' :: os) x.
Proof.
  intros Eb En (y & [->|Hy]%list.elem_of_cons & Hx); [exists o'|exists y];
    rewrite ?Eb, ?En; (split; [first [by left|by right]|done]).
Qed.
Lemma only_trans o o' os m m' m'' :
  ob o' = ob o → on o' = on o → only (o :: os) m m' → only (o' :: os) m' m'' → only (o :: os) m m''.
Proof.
  intros Eb En [Ht Hx] [Ht' Hx']. split; [congruence|]. intros x Hp.
  rewrite Hx' by (by apply (payload_same o)). by apply Hx.
Qed.

Definition spans (os : list obj) : list (Z * Z) := (λ o, (ob o, on o)) <$> os.
Lemma payload_spans os os' x : spans os ⊆ spans os' → payload os x → payload os' x.
Proof.
  intros Hs (o & Ho & Hx). assert ((ob o, on o) ∈ spans os') as (o' & [= E1 E2] & Ho')%list_elem_of_fmap.
  { apply Hs. by apply (list_elem_of_fmap_2 (λ o, (ob o, on o))). }
  exists o'. rewrite <-E1, <-E2. done.
Qed.

(** Writing one of the three words of a block *)
Lemma payload_away m o os a x :
  holds m (o :: os) → ob o ≤ a → a + 8 ≤ ob o + sizeof_arena → payload (o :: os) x → ¬ (a ≤ x < a + 8).
Proof.
  intros Hh Ha Ha8 (y & [->|Hy]%list.elem_of_cons & Hx); [lia|].
  pose proof (holds_disjoint _ _ _ _ Hh Hy) as Hap. pose proof (h_placed _ _ Hh o) as Hpl.
  destruct Hpl as (_ & _ & Hsz & _); [by left|]. unfold apart in Hap. lia.
Qed.

Lemma word_other bs a v a' o : word_ok bs a' o → a' + 8 ≤ a ∨ a + 8 ≤ a' → word_ok (write_bytes a (le_bytes 8 v) bs) a' o.
Proof.
  intros Hw Hd v' Hv'. destruct (Hw v' Hv') as [Hin Hr]. split; [done|].
  rewrite (read_bytes_ext bs); [done|]. intros x Hx.
  rewrite write_bytes_lookup, le_bytes_length, decide_False by lia. done.
Qed.
Lemma word_own bs a v : in_word v → word_ok (write_bytes a (le_bytes 8 v) bs) a (Some v).
Proof. intros Hv v' [= <-]. split; [done|]. apply (read_write bs a (le_bytes 8 v)). Qed.

Lemma store64_ok m o o' os a v :
  holds m (o :: os) → ob o' = ob o → on o' = on o → ob o ≤ a → a + 8 ≤ ob o + sizeof_arena →
  obj_ok (write_bytes a (le_bytes 8 v) (bytes m)) o' →
  ∃ m', store64 a v m = Some m' ∧ holds m' (o' :: os) ∧ only (o :: os) m m'.
Proof.
  intros Hh Eb En Ha Ha8 Hok. destruct (h_placed _ _ Hh o) as (_ & _ & Hsz & _); [by left|].
  destruct (holds_write m o o' os a (le_bytes 8 v)) as [Hs Hh']; [done..|rewrite le_bytes_length; lia|done|].
  eexists. split_and!; [exact Hs|exact Hh'|]. split; [done|]. intros x Hx.
  cbn [upd_bytes bytes]. rewrite write_bytes_lookup, le_bytes_length, decide_False; [done|].
  by apply (payload_away m o os).
Qed.

Lemma store_prev m o os v : holds m (o :: os) → in_word v →
  ∃ m', store64 (ob o) v m = Some m' ∧
    holds m' (mkObj (ob o) (on o) (Some v) (o_avail o) (o_limit o) :: os) ∧ only (o :: os) m m'.
Proof.
  intros Hh Hv. destruct (h_ok _ _ Hh o) as (_ & H2 & H3); [by left|].
  eapply store64_ok; [done..|lia|unfold sizeof_arena; lia|].
  split_and!; cbn; [by apply word_own|apply word_other; [done|lia]..].
Qed.
Lemma store_avail m o os v : holds m (o :: os) → in_word v →
  ∃ m', store64 (ob o + 8) v m = Some m' ∧
    holds m' (mkObj (ob o) (on o) (o_prev o) (Some v) (o_limit o) :: os) ∧ only (o :: os) m m'.
Proof.
  intros Hh Hv. destruct (h_ok _ _ Hh o) as (H1 & _ & H3); [by left|].
  eapply store64_ok; [done..|lia|unfold sizeof_arena; lia|].
  split_and!; cbn; [apply word_other; [done|lia]|by apply word_own|apply word_other; [done|lia]].
Qed.
Lemma store_limit m o os v : holds m (o :: os) → in_word v →
  ∃ m', store64 (ob o + 16) v m = Some m' ∧
    holds m' (mkObj (ob o) (on o) (o_prev o) (o_avail o) (Some v) :: os) ∧ only (o :: os) m m'.
Proof.
  intros Hh Hv. destruct (h_ok _ _ Hh o) as (H1 & H2 & _); [by left|].
  eapply store64_ok; [done..|lia|unfold sizeof_arena; lia|].
  split_and!; cbn; [apply word_other; [done|lia]..|by apply word_own].
Qed.

Lemma load64_word m os a v : holds m os → inside m a 8 = true → word_ok (bytes m) a (Some v) → load64 m a = Some v.
Proof.
  intros Hh Hi Hw. unfold load64. rewrite Hi. destruct (Hw v eq_refl) as [Hin Hr]. cbn [c_assert mbind option_bind].
  rewrite Hr. cbn [fmap option_fmap option_map]. f_equal. by apply (le_val_bytes_u 8 v 64).
Qed.
Lemma load_words m o os : holds m (o :: os) →
  (∀ v, o_prev o = Some v → load64 m (ob o) = Some v) ∧
  (∀ v, o_avail o = Some v → load64 m (ob o + 8) = Some v) ∧
  (∀ v, o_limit o = Some v → load64 m (ob o + 16) = Some v).
Proof.
  intros Hh. destruct (h_ok _ _ Hh o) as (H1 & H2 & H3); [by left|].
  destruct (h_placed _ _ Hh o) as (_ & _ & Hsz & _); [by left|]. unfold sizeof_arena in Hsz.
  split_and!; intros v Hv; (eapply load64_word; [done| |by rewrite <-Hv]);
    (eapply inside_own; [done|lia..]).
Qed.

Lemma load_arena_ok m o os p av l : holds m (o :: os) →
  o_prev o = Some p → o_avail o = Some av → o_limit o = Some l → load_arena m (ob o) = Some (p, av, l).
Proof.
  intros Hh H1 H2 H3. destruct (load_words _ _ _ Hh) as (L1 & L2 & L3). unfold load_arena.
  by rewrite (L1 _ H1), (L2 _ H2), (L3 _ H3).
Qed.
Lemma store_arena_ok m o os p av l : holds m (o :: os) → in_word p → in_word av → in_word l →
  ∃ m', store_arena (ob o) (p, av, l) m = Some m' ∧
    holds m' (mkObj (ob o) (on o) (Some p) (Some av) (Some l) :: os) ∧ only (o :: os) m m'.
Proof.
  intros Hh Hp Hav Hl. destruct (store_prev m o os p Hh Hp) as (m1 & E1 & Hh1 & O1).
  destruct (store_avail m1 _ os av Hh1 Hav) as (m2 & E2 & Hh2 & O2).
  destruct (store_limit m2 _ os l Hh2 Hl) as (m3 & E3 & Hh3 & O3). cbn [ob on o_prev o_avail o_limit] in *.
  exists m3. split_and!; [|done|].
  - unfold store_arena. cbn [fst snd]. rewrite E1. cbn [mbind option_bind]. rewrite E2. exact E3.
  - by refine (only_trans _ _ _ _ _ _ _ _ O1 (only_trans _ _ _ _ _ _ _ _ O2 O3)).
Qed.

(** Allocation and release of blocks *)
Lemma holds_malloc `{MallocSpec} m os n p :
  holds m os → sizeof_arena ≤ n → malloc_at (blocks m) n = Some p →
  holds (mkMem (bytes m) (<[p := n]> (blocks m)) (tls m)) (mkObj p n None None None :: os) ∧
  0 < p ∧ p + n < 2 ^ 63.
Proof.
  unfold sizeof_arena. intros [Hd Hb Hp Ha Ho] Hn Hm.
  destruct (malloc_fresh _ n p ltac:(lia) Hm) as (Hp0 & H16 & Hlim & Hfree).
  assert (∀ o, o ∈ os → p + n ≤ ob o ∨ ob o + on o ≤ p) as Hfr.
  { intros o Ho'. apply (Hfree (ob o) (on o)), Hb. eauto. }
  assert (∀ o, o ∈ os → ob o ≠ p) as Hne.
  { intros o Ho' E. pose proof (Hfr o Ho'). destruct (Hp o Ho') as (_ & _ & Hs & _). unfold sizeof_arena in Hs. lia. }
  split; [|done]. split; cbn [bytes blocks].
  - cbn. apply list.NoDup_cons. split; [|done]. intros (o & Heq & Ho')%list_elem_of_fmap. by apply (Hne o).
  - intros b k. destruct (decide (b = p)) as [->|Hbp].
    + rewrite lookup_insert_eq. split.
      * intros [= <-]. exists (mkObj p n None None None). split_and!; [by left|done..].
      * intros (o & [->|Ho']%list.elem_of_cons & E1 & <-); [done|]. by destruct (Hne o Ho').
    + rewrite lookup_insert_ne, Hb by done. split.
      * intros (o & Ho' & E). exists o. split; [by right|done].
      * intros (o & [->|Ho']%list.elem_of_cons & E1 & E2); [by cbn in E1|]. eauto.
  - intros o [->|Ho']%list.elem_of_cons; [done|auto].
  - intros o o' [->|Ho']%list.elem_of_cons [->|Ho'']%list.elem_of_cons Hneq; unfold apart; cbn in *.
    + done.
    + auto.
    + pose proof (Hfr o Ho'). lia.
    + by apply Ha.
  - intros o [->|Ho']%list.elem_of_cons; [|auto]. by split_and!.
Qed.

Lemma holds_free m o os : holds m (o :: os) →
  ∃ m', mem_free (ob o) m = Some m' ∧ holds m' os ∧ only os m m'.
Proof.
  intros Hh. pose proof Hh as [Hd Hb Hp Ha Ho]. unfold mem_free.
  rewrite (proj2 (Hb (ob o) (on o))) by (exists o; split_and!; [by left|done..]). cbn [mbind option_bind].
  assert (∀ o' x, o' ∈ os → ob o' ≤ x < ob o' + on o' → forget (ob o) (on o) (bytes m) !! x = bytes m !! x) as Hkeep.
  { intros o' x Ho' Hx. pose proof (holds_disjoint _ _ _ _ Hh Ho') as Hap. unfold forget, apart in *.
    destruct (bytes m !! x) as [v|] eqn:E.
    - apply map_lookup_filter_Some. split; [done|cbn; lia].
    - apply map_lookup_filter_None. by left. }
  apply list.NoDup_cons in Hd as [Hn Hd].
  eexists. split_and!; [reflexivity| |].
  - split; cbn [bytes blocks]; [done| | | |].
    + intros b k. destruct (decide (b = ob o)) as [->|Hne].
      * rewrite lookup_delete_eq. split; [done|]. intros (o' & Ho' & E & _). destruct Hn. rewrite <-E.
        by apply list_elem_of_fmap_2.
      * rewrite lookup_delete_ne, Hb by done. split.
        -- intros (o' & [->|Ho']%list.elem_of_cons & E1 & E2); [done|eauto].
        -- intros (o' & Ho' & E). exists o'. split; [by right|done].
    + intros o' Ho'. apply Hp. by right.
    + intros o' o'' Ho' Ho''. apply Ha; by right.
    + intros o' Ho'. apply (obj_ok_ext (bytes m)); [apply Hp; by right| |apply Ho; by right].
      intros x Hx. by apply (Hkeep o').
  - split; [done|]. intros x (o' & Ho' & Hx). cbn [bytes]. apply (Hkeep o'); [done|]. unfold sizeof_arena in Hx. lia.
Qed.

Lemma holds_size m os : holds m os → size (blocks m) = length os.
Proof.
  intros [Hd Hb _ _ _]. replace (blocks m) with (list_to_map ((λ o, (ob o, on o)) <$> os) : gmap Z Z).
  - rewrite <-length_fmap with (f := λ o, (ob o, on o)). rewrite <-(length_map_to_list (list_to_map _)).
    apply Permutation_length, map_to_list_to_map. rewrite <-list_fmap_compose. done.
  - apply map_eq. intros b. apply option_eq. intros n. rewrite Hb.
    rewrite <-elem_of_list_to_map by (rewrite <-list_fmap_compose; done).
    rewrite list_elem_of_fmap. naive_solver.
Qed.

(** ** Arenas and free lists *)

(** A chunk: its address, its size, and the end of what is handed out of it *)
Definition chunk : Type := Z * Z * Z.

Definition head_of (cs : list chunk) : Z * Z * Z :=
  match cs with [] => (0, 0, 0) | (p, n, av) :: _ => (p, av, p + n) end.
Definition obj_of (b n : Z) (s : Z * Z * Z) : obj := mkObj b n (Some s.1.1) (Some s.1.2) (Some s.2).
Fixpoint chunk_objs (cs : list chunk) : list obj :=
  match cs with [] => [] | (p, n, _) :: cs => obj_of p n (head_of cs) :: chunk_objs cs end.
Definition arena_objs (e : Z * list chunk) : list obj := obj_of e.1 sizeof_arena (head_of e.2) :: chunk_objs e.2.
Definition free_head (l : list (Z * Z)) : Z := match l with [] => 0 | (p, _) :: _ => p end.
Fixpoint free_objs (l : list (Z * Z)) : list obj :=
  match l with [] => [] | (p, n) :: l => mkObj p n (Some (free_head l)) None (Some (p + n)) :: free_objs l end.

Lemma elem_of_chunk_objs cs o : o ∈ chunk_objs cs → ∃ av, (ob o, on o, av) ∈ cs.
Proof.
  induction cs as [|[[p n] av] cs IH]; cbn [chunk_objs]; [by intros ?%elem_of_nil|].
  intros [->|Ho]%list.elem_of_cons; [exists av; by left|]. destruct (IH Ho) as [av' ?]. exists av'. by right.
Qed.
Lemma chunk_objs_elem cs p n av : (p, n, av) ∈ cs → ∃ o, o ∈ chunk_objs cs ∧ ob o = p ∧ on o = n.
Proof.
  induction cs as [|[[q k] av'] cs IH]; cbn [chunk_objs]; [by intros ?%elem_of_nil|].
  intros [[= -> -> ->]|Hin]%list.elem_of_cons; [eexists; split; [by left|done]|].
  destruct (IH Hin) as (o & Ho & E). exists o. split; [by right|done].
Qed.

Section spec.
Context {M : Malloc} {MS : MallocSpec}.
Context (MAXALIGN : option Z).
Notation al := (sizeof_align MAXALIGN).
Notation hdr := (sizeof_header MAXALIGN).

Definition config_ok : Prop := 0 < al < 2 ^ 32.

Definition chunk_ok (c : chunk) : Prop :=
  let '(p, n, av) := c in p + hdr ≤ av ≤ p + n ∧ (al | av - (p + hdr)).
Definition free_ok (c : Z * Z) : Prop := hdr ≤ c.2.

Lemma header_range : config_ok → 8 ≤ hdr < 2 ^ 33.
Proof.
  unfold config_ok, sizeof_align, sizeof_header. destruct MAXALIGN as [n|]; cbn; [|lia]. intros Hn.
  pose proof (Z.div_mod (Z.max 8 n + 7) 8 ltac:(lia)). pose proof (Z.mod_pos_bound (Z.max 8 n + 7) 8 ltac:(lia)). lia.
Qed.

(** What thread [t] has in its variables *)
Definition tls_at (m : memory) (t : Z) (l : list (Z * Z)) : Prop :=
  default (0, 0) (tls m !! t) = (free_head l, Z.of_nat (length l)).
(** [m'] differs from [m] in the variables of no other thread, and not in the
    bytes behind the first words of the blocks [os]. *)
Definition touches (t : Z) (os : list obj) (m m' : memory) : Prop :=
  (∀ t', t' ≠ t → tls m' !! t' = tls m !! t') ∧ ∀ x, payload os x → bytes m' !! x = bytes m !! x.

Lemma head_words m a cs rest :
  config_ok → holds m (arena_objs (a, cs) ++ rest) → Forall chunk_ok cs →
  in_word (head_of cs).1.1 ∧ in_word (head_of cs).1.2 ∧ in_word (head_of cs).2.
Proof.
  intros Hc Hh Hcs. pose proof (header_range Hc). destruct cs as [|[[p n] av] cs]; cbn; [done|].
  apply Forall_cons_1 in Hcs as [[? _] _].
  assert (placed (obj_of p n (head_of cs))) as (? & _ & ? & ?).
  { apply (h_placed _ _ Hh). cbn [arena_objs chunk_objs fst snd]. set_solver. }
  cbn in *. unfold in_word, sizeof_arena in *. lia.
Qed.

(** Putting a block in front of the chain of an arena *)
Lemma push_chunk m a cs o rest :
  config_ok → holds m (o :: arena_objs (a, cs) ++ rest) → Forall chunk_ok cs → hdr ≤ on o →
  let c := (ob o, on o, ob o + hdr) in
  ∃ m1 m2 m3 m4,
    load_arena m a = Some (head_of cs) ∧ store_arena (ob o) (head_of cs) m = Some m1 ∧
    store64 (a + 8) (ob o + hdr) m1 = Some m2 ∧ store64 (a + 16) (ob o + on o) m2 = Some m3 ∧
    store64 a (ob o) m3 = Some m4 ∧
    holds m4 (arena_objs (a, c :: cs) ++ rest) ∧ only (o :: arena_objs (a, cs) ++ rest) m m4.
Proof.
  intros Hc Hh Hcs Hn c. pose proof (header_range Hc).
  assert (placed o) as (Hp0 & _ & Hsz & Hlim) by (apply (h_placed _ _ Hh); by left).
  assert (o :: arena_objs (a, cs) ++ rest ≡ₚ
          obj_of a sizeof_arena (head_of cs) :: o :: chunk_objs cs ++ rest) as Hperm by (apply perm_swap).
  pose proof Hh as Hh'. rewrite Hperm in Hh'.
  assert (load_arena m a = Some (head_of cs)) as El.
  { rewrite (surjective_pairing (head_of cs)), (surjective_pairing (head_of cs).1).
    by apply (load_arena_ok _ _ _ _ _ _ Hh'). }
  assert (in_word (head_of cs).1.1 ∧ in_word (head_of cs).1.2 ∧ in_word (head_of cs).2) as (W1 & W2 & W3).
  { apply (head_words m a cs (o :: rest)); [done| |done]. by rewrite <-Permutation_middle. }
  destruct (store_arena_ok m o _ _ _ _ Hh W1 W2 W3) as (m1 & E1 & H1 & O1).
  rewrite <-!surjective_pairing in E1. change (mkObj _ _ _ _ _) with (obj_of (ob o) (on o) (head_of cs)) in H1.
  set (o1 := obj_of (ob o) (on o) (head_of cs)) in *.
  assert (∀ s, o1 :: obj_of a sizeof_arena s :: chunk_objs cs ++ rest ≡ₚ
               obj_of a sizeof_arena s :: o1 :: chunk_objs cs ++ rest) as Hsw by (intros; apply perm_swap).
  change (arena_objs (a, cs) ++ rest) with (obj_of a sizeof_arena (head_of cs) :: chunk_objs cs ++ rest) in *.
  rewrite Hsw in H1.
  destruct (store_avail m1 _ _ (ob o + hdr) H1) as (m2 & E2 & H2 & O2); [unfold in_word; lia|].
  destruct (store_limit m2 _ _ (ob o + on o) H2) as (m3 & E3 & H3 & O3); [unfold in_word, sizeof_arena in *; lia|].
  destruct (store_prev m3 _ _ (ob o) H3) as (m4 & E4 & H4 & O4); [unfold in_word, sizeof_arena in *; lia|].
  cbn [obj_of ob on o_prev o_avail o_limit fst snd] in *.
  exists m1, m2, m3, m4. split_and!; [done..| |].
  - exact H4.
  - refine (only_trans o o1 _ _ m1 _ _ _ O1 _); [done..|]. rewrite Hsw.
    by refine (only_trans _ _ _ _ _ _ _ _ O2 (only_trans _ _ _ _ _ _ _ _ O3 O4)).
Qed.

Lemma touches_refl t os m : touches t os m m.
Proof. done. Qed.

Lemma take_chunk_ok m t l os nb :
  config_ok → holds m (free_objs l ++ os) → tls_at m t l → (length l ≤ 10)%nat → Forall free_ok l →
  0 < nb < 2 ^ 63 →
  ∃ m' r, take_chunk MAXALIGN t nb m = Some (m', r) ∧ bytes m' = bytes m ∧
    (∀ t', t' ≠ t → tls m' !! t' = tls m !! t') ∧
    match r with
    | None => l = [] ∧ m' = m
    | Some (p, limit) => ∃ o l', ob o = p ∧ limit = p + on o ∧ hdr ≤ on o ∧
        holds m' (o :: free_objs l' ++ os) ∧ tls_at m' t l' ∧
        (l = (p, on o) :: l' ∨ l = [] ∧ l' = [] ∧ hdr + nb ≤ on o)
    end.
Proof.
  intros Hc Hh Ht Hlen Hl Hnb. pose proof (header_range Hc). unfold take_chunk.
  unfold tls_at in Ht. assert (get_freechunks t m = free_head l) as -> by (unfold get_freechunks; by rewrite Ht).
  destruct l as [|[p n] l]; cbn [free_head free_objs app] in *.
  - change (0 =? 0) with true. cbn [negb]. unfold wrapu, mem_malloc.
    rewrite (Z.mod_small (hdr + nb + 10 * 1024)) by lia.
    destruct (malloc_at (blocks m) _) as [p|] eqn:Em.
    + eexists _, _. split_and!; [reflexivity|done..|].
      destruct (holds_malloc m os (hdr + nb + 10 * 1024) p Hh ltac:(unfold sizeof_arena; lia) Em) as (Hh' & Hp & Hlim).
      assert (i64 (hdr + nb + 10 * 1024) = hdr + nb + 10 * 1024) as -> by (apply wraps_id; [done|unfold in_s; lia]).
      eexists _, []. split_and!; [..|exact Hh'|exact Ht|right; split_and!; [done..|cbn; lia]]; cbn; lia.
    + eexists _, None. split_and!; done.
  - assert (placed (mkObj p n (Some (free_head l)) None (Some (p + n)))) as (Hp & _ & Hs & Hlim).
    { apply (h_placed _ _ Hh). by left. }
    destruct (load_words _ _ _ Hh) as (L1 & _ & L3). cbn [ob on o_prev o_avail o_limit] in *.
    specialize (L1 _ eq_refl). specialize (L3 _ eq_refl).
    replace (p =? 0) with false by lia. cbn [negb]. rewrite L1. cbn [mbind option_bind].
    apply Forall_cons_1 in Hl as [Hn Hl]. unfold free_ok in Hn. cbn in Hn, Hlen.
    assert (load64 (set_nfree t (i32 (get_nfree t (set_freechunks t (free_head l) m) - 1))
              (set_freechunks t (free_head l) m)) (p + 16) = Some (p + n)) as -> by exact L3.
    cbn [mbind option_bind]. eexists _, (Some _). split_and!; [reflexivity|done| |].
    + intros t' Ht'. cbn. by rewrite !lookup_insert_ne by done.
    + eexists (mkObj p n (Some (free_head l)) None (Some (p + n))), l.
      split_and!; [done..|exact Hn| | |by left].
      * destruct Hh as [K1 K2 K3 K4 K5]. by split.
      * unfold tls_at, set_nfree, set_freechunks, get_freechunks, get_nfree. cbn [tls upd_tls].
        rewrite !lookup_insert_eq. cbn [default fst snd]. unfold get_nfree. rewrite Ht. cbn [snd length id fst].
        f_equal. rewrite wraps_id by (unfold in_s; lia). lia.
Qed.

(** What an arena has handed out stays where it is. *)
Definition grows (cs cs' : list chunk) : Prop :=
  ∀ p n av, (p, n, av) ∈ cs → ∃ av', av ≤ av' ∧ (p, n, av') ∈ cs'.

Lemma payload_app os os' x : payload (os ++ os') x ↔ payload os x ∨ payload os' x.
Proof. unfold payload. setoid_rewrite elem_of_app. naive_solver. Qed.
#[global] Instance touches_perm t : Proper ((≡ₚ) ==> (=) ==> (=) ==> iff) (touches t).
Proof. intros os os' Hp m ? <- m' ? <-. unfold touches. by setoid_rewrite Hp. Qed.
Lemma touches_trans t os os' m m' m'' :
  (∀ x, payload os x → payload os' x) → touches t os m m' → touches t os' m' m'' → touches t os m m''.
Proof.
  intros Hp [Ht Hx] [Ht' Hx']. split; [intros t' Hne; rewrite Ht', Ht; done|].
  intros x Hpx. rewrite Hx', Hx; auto.
Qed.

(** Where the new block lies *)
Definition alloc_result (nb : Z) (cs cs' : list chunk) (r : outcome) : Prop :=
  match r with
  | Raised => True
  | Returned x => ∃ p n, (p, n, x + nb) ∈ cs' ∧ p + hdr ≤ x ∧ (al | x - (p + hdr)) ∧
      ∀ av, (p, n, av) ∈ cs → av ≤ x
  end.

Lemma chunks_nodup m a cs rest : holds m (arena_objs (a, cs) ++ rest) → NoDup ((λ c, c.1.1) <$> cs).
Proof.
  intros Hh. pose proof (h_dup _ _ Hh) as Hd. rewrite fmap_app in Hd. apply list.NoDup_app in Hd as (Hd & _ & _).
  cbn [arena_objs fmap list_fmap] in Hd. apply list.NoDup_cons in Hd as [_ Hd]. cbn [snd] in Hd.
  clear Hh. induction cs as [|[[p n] av] cs IH]; [constructor|]. cbn in *.
  apply list.NoDup_cons in Hd as [Hn Hd]. apply list.NoDup_cons. split; [|by apply IH].
  intros ([[q k] av'] & -> & Hin)%list_elem_of_fmap. apply Hn. cbn.
  destruct (chunk_objs_elem _ _ _ _ Hin) as (o & Ho & <- & _). by apply list_elem_of_fmap_2.
Qed.

Lemma grows_cons c cs : grows cs (c :: cs).
Proof. intros p n av Hin. exists av. split; [done|by right]. Qed.
Lemma grows_trans cs cs' cs'' : grows cs cs' → grows cs' cs'' → grows cs cs''.
Proof.
  intros H1 H2 p n av Hin. destruct (H1 _ _ _ Hin) as (av' & ? & Hin').
  destruct (H2 _ _ _ Hin') as (av'' & ? & ?). exists av''. split; [lia|done].
Qed.
Lemma grows_head p n av av' cs : av ≤ av' → grows ((p, n, av) :: cs) ((p, n, av') :: cs).
Proof.
  intros Hle q k b [[= -> -> ->]|Hin]%list.elem_of_cons; [exists av'|exists b];
    (split; [lia|first [by left|by right]]).
Qed.

(** The last turn of the loop *)
Lemma alloc_room fuel m t a p n av cs rest nb :
  config_ok → holds m (arena_objs (a, (p, n, av) :: cs) ++ rest) → Forall chunk_ok ((p, n, av) :: cs) →
  0 < nb → (al | nb) → nb ≤ p + n - av →
  ∃ m', alloc_loop MAXALIGN (S fuel) t a nb m = Some (m', Returned av) ∧
    holds m' (arena_objs (a, (p, n, av + nb) :: cs) ++ rest) ∧
    only (arena_objs (a, (p, n, av) :: cs) ++ rest) m m' ∧ Forall chunk_ok ((p, n, av + nb) :: cs) ∧
    alloc_result nb ((p, n, av) :: cs) ((p, n, av + nb) :: cs) (Returned av).
Proof.
  intros Hc Hh Hcs Hnb Hdiv Hroom. cbn [alloc_loop].
  pose proof (chunks_nodup _ _ _ _ Hh) as Hnd.
  destruct (load_words _ _ _ Hh) as (_ & L2 & L3). cbn [obj_of ob head_of fst snd o_avail o_limit] in L2, L3.
  rewrite (L2 _ eq_refl), (L3 _ eq_refl). cbn [mbind option_bind].
  replace (p + n - av <? nb) with false by lia.
  pose proof (header_range Hc). apply Forall_cons_1 in Hcs as [[Hb Hd] Hcs].
  assert (placed (obj_of p n (head_of cs))) as (? & _ & ? & ?).
  { apply (h_placed _ _ Hh). right. by left. }
  cbn [obj_of ob on] in *.
  destruct (store_avail m _ _ (av + nb) Hh) as (m' & E & Hh' & O); [unfold in_word; lia|].
  cbn [obj_of ob fst] in E. rewrite E. cbn [mbind option_bind]. exists m'. split_and!; [done|exact Hh'|exact O| |].
  - constructor; [|done]. split; [lia|]. replace (av + nb - (p + hdr)) with (av - (p + hdr) + nb) by lia.
    by apply Z.divide_add_r.
  - exists p, n. split_and!; [by left|lia|done|].
    intros av' [[= ->]|Hin]%list.elem_of_cons; [lia|].
    cbn in Hnd. apply list.NoDup_cons in Hnd as [Hn _]. destruct Hn.
    by apply (list_elem_of_fmap_2 (λ c : chunk, c.1.1)) in Hin.
Qed.

Lemma only_touches t os m m' : only os m m' → touches t os m m'.
Proof. intros [Ht Hx]. split; [intros; by rewrite Ht|done]. Qed.

(** A turn that takes a chunk *)
Lemma alloc_turn fuel m a cs l rest t nb :
  config_ok → holds m (free_objs l ++ arena_objs (a, cs) ++ rest) → tls_at m t l → (length l ≤ 10)%nat →
  Forall free_ok l → Forall chunk_ok cs → 0 < nb < 2 ^ 63 → (head_of cs).2 - (head_of cs).1.2 < nb →
  l = [] ∧ alloc_loop MAXALIGN (S fuel) t a nb m = Some (m, Raised) ∨
  ∃ m' p n l', alloc_loop MAXALIGN (S fuel) t a nb m = alloc_loop MAXALIGN fuel t a nb m' ∧
    holds m' (free_objs l' ++ arena_objs (a, (p, n, p + hdr) :: cs) ++ rest) ∧ tls_at m' t l' ∧
    touches t (free_objs l ++ arena_objs (a, cs) ++ rest) m m' ∧ Forall chunk_ok ((p, n, p + hdr) :: cs) ∧
    (l = (p, n) :: l' ∨ l = [] ∧ l' = [] ∧ hdr + nb ≤ n).
Proof.
  intros Hc Hh Ht Hlen Hl Hcs Hnb Hroom.
  assert (load64 m (a + 8) = Some (head_of cs).1.2 ∧ load64 m (a + 16) = Some (head_of cs).2) as [L2 L3].
  { change (arena_objs (a, cs) ++ rest) with (obj_of a sizeof_arena (head_of cs) :: chunk_objs cs ++ rest) in Hh.
    rewrite <-(Permutation_middle (free_objs l)) in Hh.
    destruct (load_words _ _ _ Hh) as (_ & L2 & L3). cbn in L2, L3. eauto. }
  cbn [alloc_loop]. rewrite L2, L3. cbn [mbind option_bind].
  replace (_ <? nb) with true by lia.
  destruct (take_chunk_ok m t l _ nb Hc Hh Ht Hlen Hl Hnb) as (m1 & r & -> & Hb & Htl & Hr).
  cbn [mbind option_bind]. destruct r as [[p limit]|]; [|destruct Hr as [-> ->]; by left]. right.
  destruct Hr as (o & l' & <- & -> & Hon & Hh1 & Ht1 & Hl').
  assert (o :: free_objs l' ++ arena_objs (a, cs) ++ rest ≡ₚ
          o :: arena_objs (a, cs) ++ free_objs l' ++ rest) as Hp1.
  { f_equiv. rewrite !app_assoc. f_equiv. apply Permutation_app_comm. }
  rewrite Hp1 in Hh1.
  destruct (push_chunk m1 a cs o _ Hc Hh1 Hcs Hon) as (m2 & m3 & m4 & m5 & El & E2 & E3 & E4 & E5 & Hh5 & [O1 O2]).
  exists m5, (ob o), (on o), l'. split_and!.
  - rewrite El. cbn [mbind option_bind]. rewrite E2. cbn [mbind option_bind]. rewrite E3. cbn [mbind option_bind].
    rewrite E4. cbn [mbind option_bind]. by rewrite E5.
  - by rewrite Permutation_app_swap_app.
  - unfold tls_at. by rewrite O1.
  - split; [intros t' Hne; rewrite O1; auto|]. intros x Hx. rewrite <-Hb. apply O2. rewrite <-Hp1.
    destruct Hl' as [->|(-> & -> & _)].
    + cbn [free_objs app] in Hx. by apply (payload_same _ o) in Hx.
    + cbn [free_objs app] in *. destruct Hx as (y & Hy & Hx). exists y. split; [by right|done].
  - constructor; [|done]. cbn. split; [lia|]. replace (_ - _) with 0 by lia. apply Z.divide_0_r.
  - destruct Hl' as [->|(-> & -> & ?)]; [by left|by right].
Qed.

Lemma alloc_loop_ok a rest nb t : config_ok → 0 < nb < 2 ^ 63 → (al | nb) → ∀ fuel l m cs,
  holds m (free_objs l ++ arena_objs (a, cs) ++ rest) → tls_at m t l → (length l ≤ 10)%nat →
  Forall free_ok l → Forall chunk_ok cs →
  (length l + 2 ≤ fuel)%nat ∨ (1 ≤ fuel)%nat ∧ nb ≤ (head_of cs).2 - (head_of cs).1.2 →
  ∃ m' r cs' l', alloc_loop MAXALIGN fuel t a nb m = Some (m', r) ∧
    holds m' (free_objs l' ++ arena_objs (a, cs') ++ rest) ∧ tls_at m' t l' ∧ l' `suffix_of` l ∧
    Forall chunk_ok cs' ∧ touches t (free_objs l ++ arena_objs (a, cs) ++ rest) m m' ∧
    grows cs cs' ∧ alloc_result nb cs cs' r ∧
    (∀ p n av cs0, cs = (p, n, av) :: cs0 → nb ≤ p + n - av → r = Returned av ∧ cs' = (p, n, av + nb) :: cs0) ∧
    (cs = [] → l = [] → ∀ x, r = Returned x → ∃ p n, cs' = [(p, n, x + nb)] ∧ x = p + hdr).
Proof.
  intros Hc Hnb Hdiv. induction fuel as [|fuel IH]; intros l m cs Hh Ht Hlen Hl Hcs Hfuel; [lia|].
  destruct (decide (nb ≤ (head_of cs).2 - (head_of cs).1.2)) as [Hroom|Hroom].
  - destruct cs as [|[[p n] av] cs]; [cbn in Hroom; lia|]. cbn in Hroom.
    pose proof Hh as Hh'. rewrite Permutation_app_swap_app in Hh'.
    destruct (alloc_room fuel m t a p n av cs _ nb Hc Hh' Hcs) as (m' & E & Hm' & O & Hcs' & Hr); [lia|done|lia|].
    eexists m', _, _, l. split_and!; [exact E| | |done|exact Hcs'| | |exact Hr|naive_solver|done].
    + by rewrite Permutation_app_swap_app.
    + destruct O as [Ot _]. unfold tls_at. by rewrite Ot.
    + apply only_touches. by rewrite Permutation_app_swap_app.
    + apply grows_head. lia.
  - destruct Hfuel as [Hfuel|[_ ?]]; [|lia].
    destruct (alloc_turn fuel m a cs l rest t nb Hc Hh Ht Hlen Hl Hcs Hnb) as
      [[-> E]|(m1 & p & n & l1 & E & Hh1 & Ht1 & HO & Hcs1 & Hl1)]; [lia| |].
    { exists m, Raised, cs, []. split_and!; [done..| |done| |done].
      - intros p n av Hin. by exists av.
      - intros p n av cs0 ->. cbn in Hroom. lia. }
    destruct (IH l1 m1 ((p, n, p + hdr) :: cs)) as
      (m' & r & cs' & l' & E' & Hm' & Ht' & Hs' & Hcs' & HO' & Hg & Hr & Hfit & _); [done..| | |done| |].
    { destruct Hl1 as [->|(-> & -> & _)]; [cbn in Hlen|]; lia. }
    { destruct Hl1 as [->|(-> & -> & _)]; [by apply Forall_cons_1 in Hl as [_ Hl]|done]. }
    { destruct Hl1 as [->|(-> & -> & ?)]; [cbn in Hfuel|cbn]; lia. }
    exists m', r, cs', l'. split_and!; [by rewrite E|done..| |done| | | | |].
    + destruct Hl1 as [->|(-> & -> & _)]; [by apply suffix_cons_r|done].
    + refine (touches_trans _ _ _ _ _ _ _ HO HO'). intros x. apply payload_spans. unfold spans.
      rewrite !fmap_app. intros [b k]. rewrite !elem_of_app.
      destruct Hl1 as [->|(-> & -> & _)]; cbn [free_objs arena_objs chunk_objs fst snd fmap list_fmap obj_of ob on];
        rewrite !elem_of_cons; naive_solver.
    + refine (grows_trans _ _ _ (grows_cons _ _) Hg).
    + destruct r as [x|]; [|done]. destruct Hr as (q & k & ? & ? & ? & Hle). exists q, k. split_and!; [done..|].
      intros av Hav. apply Hle. by right.
    + intros p' n' av' cs0 ->. cbn in Hroom. lia.
    + intros -> -> x ->. destruct Hl1 as [?|(_ & -> & Hn)]; [done|].
      destruct (Hfit _ _ _ _ eq_refl) as [[= ->] ->]; [lia|]. eauto.
Qed.

Lemma holds_weaken m b n p av l os :
  holds m (mkObj b n p av l :: os) → holds m (mkObj b n p None l :: os).
Proof.
  intros [K1 K2 K3 K4 K5]. split.
  - done.
  - intros b' n'. rewrite K2. split; intros (o & [->|Ho]%list.elem_of_cons & E);
      [eexists; split; [by left|exact E]|exists o; split; [by right|done]
      |eexists; split; [by left|exact E]|exists o; split; [by right|done]].
  - intros o [->|Ho]%list.elem_of_cons; [|apply K3; by right].
    refine (K3 (mkObj b n p av l) _). by left.
  - intros o o' [->|Ho]%list.elem_of_cons [->|Ho']%list.elem_of_cons Hne; [done|..].
    + refine (K4 (mkObj b n p av l) _ _ _ Hne); [by left|by right].
    + refine (K4 _ (mkObj b n p av l) _ _ Hne); [by right|by left].
    + apply K4; [by right..|done].
  - intros o [->|Ho]%list.elem_of_cons; [|apply K5; by right].
    destruct (K5 (mkObj b n p av l)) as (J1 & J2 & J3); [by left|]. by split_and!.
Qed.

(** The first chunk of a chain goes to the list of the thread, or is freed. *)
Lemma release_chunk m t a p n av saved ch l rest :
  config_ok → holds m (obj_of p n saved :: obj_of a sizeof_arena (p, av, p + n) :: ch ++ free_objs l ++ rest) →
  tls_at m t l → (length l ≤ 10)%nat → Forall free_ok l → hdr ≤ n →
  ∃ m' l', (if get_nfree t m <? THRESHOLD then
              m ← store64 p (get_freechunks t m) m;
              let m := set_freechunks t p m in
              let m := set_nfree t (i32 (get_nfree t m + 1)) m in
              limit ← load64 m (a + 16);
              store64 (p + 16) limit m
            else mem_free p m) = Some m' ∧
    holds m' (obj_of a sizeof_arena (p, av, p + n) :: ch ++ free_objs l' ++ rest) ∧
    tls_at m' t l' ∧ (length l' ≤ 10)%nat ∧ Forall free_ok l' ∧ touches t rest m m'.
Proof.
  intros Hc Hh Ht Hlen Hl Hn. pose proof (header_range Hc).
  set (A := obj_of a sizeof_arena (p, av, p + n)) in *.
  set (C := obj_of p n saved) in *. unfold tls_at in Ht.
  assert (get_nfree t m = Z.of_nat (length l)) as En by (unfold get_nfree; by rewrite Ht).
  assert (get_freechunks t m = free_head l) as Ef by (unfold get_freechunks; by rewrite Ht).
  rewrite En, Ef. destruct (Z.ltb_spec (Z.of_nat (length l)) THRESHOLD) as [Hlt|Hge].
  - assert (in_word (free_head l)) as Hw.
    { destruct l as [|[q k] l]; [done|]. cbn [free_head].
      assert (placed (mkObj q k (Some (free_head l)) None (Some (q + k)))) as (? & _ & ? & ?).
      { apply (h_placed _ _ Hh). right. right. apply elem_of_app. right. left. }
      unfold in_word, sizeof_arena in *. cbn in *. lia. }
    destruct (store_prev m C _ (free_head l) Hh Hw) as (m1 & E1 & Hh1 & [O1 O1']).
    change (ob C) with p in *. rewrite E1. cbn [mbind option_bind].
    set (m2 := set_nfree t _ _).
    assert (holds m2 (mkObj p (on C) (Some (free_head l)) (o_avail C) (o_limit C) :: A :: ch ++ free_objs l ++ rest)) as Hh2.
    { destruct Hh1 as [K1 K2 K3 K4 K5]. by split. }
    assert (load64 m2 (a + 16) = Some (p + n)) as ->.
    { rewrite perm_swap in Hh2. destruct (load_words _ _ _ Hh2) as (_ & _ & L3). by apply L3. }
    cbn [mbind option_bind].
    assert (placed C) as (? & _ & Hs & ?) by (apply (h_placed _ _ Hh); by left).
    change (on C) with n in *. change (ob C) with p in *. unfold sizeof_arena in Hs.
    destruct (store_limit m2 _ _ (p + n) Hh2) as (m3 & E3 & Hh3 & [O3 O3']); [unfold in_word; lia|].
    cbn [ob on] in E3, Hh3. cbn [o_prev o_avail] in Hh3. apply holds_weaken in Hh3.
    exists m3, ((p, n) :: l). split_and!; [exact E3| | | | |].
    + cbn [free_objs app]. rewrite <-Permutation_middle, perm_swap. exact Hh3.
    + unfold tls_at. rewrite O3. unfold m2, set_nfree, set_freechunks, get_freechunks, get_nfree. cbn [tls upd_tls].
      rewrite !lookup_insert_eq. unfold get_nfree. rewrite O1, Ht. cbn [snd fst id default length].
      f_equal. unfold THRESHOLD in Hlt. rewrite wraps_id by (unfold in_s; lia). lia.
    + unfold THRESHOLD in Hlt. cbn. lia.
    + by constructor.
    + split.
      * intros t' Hne. rewrite O3. unfold m2. cbn. rewrite !lookup_insert_ne by done. by rewrite O1.
      * intros x (o & Ho & Hx). rewrite O3', <-(O1' x); [done|..]; exists o; (split; [|done]);
          rewrite !elem_of_cons, !elem_of_app; auto.
  - destruct (holds_free m C _ Hh) as (m' & E & Hh' & [O O']). exists m', l. split_and!; [exact E|exact Hh'| |done|done|].
    + unfold tls_at. by rewrite O.
    + split; [intros; by rewrite O|]. intros x (o & Ho & Hx). apply O'. exists o. split; [|done].
      rewrite !elem_of_cons, !elem_of_app; auto.
Qed.

Lemma free_loop_ok a rest t : config_ok → ∀ cs fuel l m,
  holds m (free_objs l ++ arena_objs (a, cs) ++ rest) → tls_at m t l → (length l ≤ 10)%nat →
  Forall free_ok l → Forall chunk_ok cs → (length cs < fuel)%nat →
  ∃ m' l', free_loop fuel t a m = Some m' ∧
    holds m' (free_objs l' ++ arena_objs (a, []) ++ rest) ∧ tls_at m' t l' ∧ (length l' ≤ 10)%nat ∧
    Forall free_ok l' ∧ touches t rest m m'.
Proof.
  intros Hc. induction cs as [|[[p n] av] cs IH]; intros [|fuel] l m Hh Ht Hlen Hl Hcs Hf; [cbn in Hf; lia| |cbn in Hf; lia|].
  all: pose proof Hh as Hh'; rewrite Permutation_app_swap_app in Hh';
    destruct (load_words _ _ _ Hh') as (L1 & _ & _); cbn [obj_of ob o_prev head_of fst snd] in L1;
    cbn [free_loop]; rewrite (L1 _ eq_refl); cbn [mbind option_bind].
  { exists m, l. by split_and!. }
  assert (placed (obj_of p n (head_of cs))) as (Hp & _ & _ & _) by (apply (h_placed _ _ Hh'); right; by left).
  cbn [obj_of ob] in Hp. replace (p =? 0) with false by lia.
  assert (load_arena m p = Some (head_of cs)) as ->.
  { cbn [arena_objs chunk_objs fst snd app] in Hh'. rewrite perm_swap in Hh'.
    rewrite (surjective_pairing (head_of cs)), (surjective_pairing (head_of cs).1).
    by apply (load_arena_ok _ _ _ _ _ _ Hh'). }
  cbn [mbind option_bind].
  assert (hdr ≤ n) as Hn by (apply Forall_cons_1 in Hcs as [[? _] _]; lia).
  cbn [arena_objs chunk_objs fst snd app] in Hh'. rewrite perm_swap in Hh'.
  destruct (release_chunk m t a p n av (head_of cs) (chunk_objs cs) l rest Hc) as
    (m1 & l1 & Er & Hh1 & Ht1 & Hlen1 & Hl1 & HO1); [done..|].
  cbn [mbind option_bind] in Er. rewrite Er. cbn [mbind option_bind].
  apply Forall_cons_1 in Hcs as [_ Hcs].
  assert (in_word (head_of cs).1.1 ∧ in_word (head_of cs).1.2 ∧ in_word (head_of cs).2) as (W1 & W2 & W3).
  { destruct cs as [|[[q k] av'] cs]; [done|]. apply Forall_cons_1 in Hcs as [[? _] _].
    assert (placed (obj_of q k (head_of cs))) as (? & _ & ? & ?).
    { apply (h_placed _ _ Hh1). right. by left. }
    pose proof (header_range Hc). unfold in_word, sizeof_arena in *. cbn in *. lia. }
  destruct (store_arena_ok m1 _ _ _ _ _ Hh1 W1 W2 W3) as (m2 & E2 & Hh2 & [O2 O2']).
  rewrite <-!surjective_pairing in E2. cbn [obj_of ob] in E2. rewrite E2. cbn [mbind option_bind].
  destruct (IH fuel l1 m2) as (m' & l' & E & Hm' & Ht' & Hlen' & Hl' & HO'); [|by unfold tls_at; rewrite O2|done..|cbn in Hf; lia|].
  { rewrite Permutation_app_swap_app. cbn [arena_objs fst snd app].
    change (mkObj _ _ _ _ _) with (obj_of a sizeof_arena (head_of cs)) in Hh2. exact Hh2. }
  exists m', l'. split_and!; [done..|].
  refine (touches_trans _ _ _ _ _ _ (λ x H, H) HO1 _). destruct HO' as [T1 T2]. split.
  - intros t' Hne. by rewrite T1, O2.
  - intros x Hx. rewrite T2 by done. apply O2'. destruct Hx as (o & Ho & Hx). exists o. split; [|done].
    rewrite elem_of_cons, !elem_of_app; auto.
Qed.

Lemma chunk_count cs : length (chunk_objs cs) = length cs.
Proof. induction cs as [|[[p n] av] cs IH]; cbn; congruence. Qed.

Lemma arena_free_ok m t a cs l rest :
  config_ok → holds m (free_objs l ++ arena_objs (a, cs) ++ rest) → tls_at m t l → (length l ≤ 10)%nat →
  Forall free_ok l → Forall chunk_ok cs →
  ∃ m' l', Arena_free t a m = Some m' ∧
    holds m' (free_objs l' ++ arena_objs (a, []) ++ rest) ∧ tls_at m' t l' ∧ (length l' ≤ 10)%nat ∧
    Forall free_ok l' ∧ touches t rest m m'.
Proof.
  intros Hc Hh Ht Hlen Hl Hcs.
  destruct (free_loop_ok a rest t Hc cs (S (size (blocks m))) l m Hh Ht Hlen Hl Hcs) as
    (m' & l' & E & Hm' & Ht' & Hlen' & Hl' & HO').
  { rewrite (holds_size _ _ Hh), !length_app. cbn [arena_objs length fst snd]. rewrite chunk_count. lia. }
  exists m', l'. split_and!; [|done..]. pose proof Hm' as Hh'. rewrite Permutation_app_swap_app in Hh'.
  assert (placed (obj_of a sizeof_arena (0, 0, 0))) as (Ha & _ & _ & _) by (apply (h_placed _ _ Hh'); by left).
  cbn [obj_of ob] in Ha. destruct (load_words _ _ _ Hh') as (_ & L2 & L3). cbn in L2, L3.
  unfold Arena_free. replace (a =? 0) with false by lia. cbn [negb c_assert mbind option_bind].
  rewrite E. cbn [mbind option_bind]. by rewrite (L3 _ eq_refl), (L2 _ eq_refl).
Qed.

Lemma arena_dispose_ok m t a cs l rest :
  config_ok → holds m (free_objs l ++ arena_objs (a, cs) ++ rest) → tls_at m t l → (length l ≤ 10)%nat →
  Forall free_ok l → Forall chunk_ok cs →
  ∃ m' l', Arena_dispose t a m = Some m' ∧
    holds m' (free_objs l' ++ rest) ∧ tls_at m' t l' ∧ (length l' ≤ 10)%nat ∧ Forall free_ok l' ∧ touches t rest m m'.
Proof.
  intros Hc Hh Ht Hlen Hl Hcs.
  destruct (arena_free_ok m t a cs l rest Hc Hh Ht Hlen Hl Hcs) as (m1 & l' & E & Hh1 & Ht1 & Hlen' & Hl' & HO).
  rewrite Permutation_app_swap_app in Hh1. destruct (holds_free _ _ _ Hh1) as (m' & E' & Hh' & [O O']).
  exists m', l'. unfold Arena_dispose.
  assert (placed (obj_of a sizeof_arena (0, 0, 0))) as (Ha & _ & _ & _) by (apply (h_placed _ _ Hh1); by left).
  cbn [obj_of ob] in Ha, E'. replace (a =? 0) with false by lia. cbn [negb c_assert mbind option_bind].
  rewrite E. cbn [mbind option_bind]. split_and!; [exact E'|exact Hh'| |done|done|].
  - unfold tls_at. by rewrite O.
  - destruct HO as [T1 T2]. split; [intros t' Hne; by rewrite O, T1|]. intros x Hx. rewrite <-T2 by done.
    apply O'. destruct Hx as (o & Ho & Hx). exists o. split; [|done]. cbn [arena_objs chunk_objs fst snd app].
    rewrite !elem_of_app; auto.
Qed.

Lemma arena_new_ok m os : holds m os →
  ∃ m' r, Arena_new m = Some (m', r) ∧ tls m' = tls m ∧ (∀ x, payload os x → bytes m' !! x = bytes m !! x) ∧
    match r with
    | Raised => m' = m
    | Returned a => holds m' (arena_objs (a, []) ++ os)
    end.
Proof.
  intros Hh. unfold Arena_new, mem_malloc. destruct (malloc_at _ _) as [a|] eqn:E.
  - destruct (holds_malloc m os sizeof_arena a Hh (Z.le_refl _) E) as (Hh1 & Ha & Hlim).
    set (m1 := mkMem _ _ _) in *.
    destruct (store_prev m1 _ _ 0 Hh1) as (m2 & E2 & Hh2 & [T2 O2]); [done|].
    destruct (store_avail m2 _ _ 0 Hh2) as (m3 & E3 & Hh3 & [T3 O3]); [done|].
    destruct (store_limit m3 _ _ 0 Hh3) as (m4 & E4 & Hh4 & [T4 O4]); [done|].
    cbn [ob on o_prev o_avail o_limit] in *. exists m4, (Returned a).
    rewrite E2. cbn [mbind option_bind]. rewrite E3. cbn [mbind option_bind]. rewrite E4. split_and!; [done| | |exact Hh4].
    + by rewrite T4, T3, T2.
    + intros x (o & Ho & Hx). rewrite O4, O3, O2; [done|..]; exists o; (split; [by right|done]).
  - exists m, Raised. done.
Qed.

(** ** All arenas and threads *)

Definition part_arenas (A : gmap Z (list chunk)) : list obj := map_to_list A ≫= arena_objs.
Definition part_frees (F : gmap Z (list (Z * Z))) : list obj := map_to_list F ≫= λ e, free_objs e.2.
Definition objs (A : gmap Z (list chunk)) (F : gmap Z (list (Z * Z))) : list obj := part_arenas A ++ part_frees F.
Definition frees_of (F : gmap Z (list (Z * Z))) (t : Z) : list (Z * Z) := default [] (F !! t).
(** What the step leaves alone *)
Definition others (A : gmap Z (list chunk)) (F : gmap Z (list (Z * Z))) (a t : Z) : list obj :=
  part_arenas (delete a A) ++ part_frees (delete t F).

Lemma part_arenas_insert A a cs : part_arenas (<[a := cs]> A) ≡ₚ arena_objs (a, cs) ++ part_arenas (delete a A).
Proof.
  unfold part_arenas. rewrite <-insert_delete_eq, map_to_list_insert by apply lookup_delete_eq. done.
Qed.
Lemma part_frees_insert F t l : part_frees (<[t := l]> F) ≡ₚ free_objs l ++ part_frees (delete t F).
Proof.
  unfold part_frees. rewrite <-insert_delete_eq, map_to_list_insert by apply lookup_delete_eq. done.
Qed.
Lemma part_frees_split F t : part_frees F ≡ₚ free_objs (frees_of F t) ++ part_frees (delete t F).
Proof.
  unfold frees_of. destruct (F !! t) as [l|] eqn:E; cbn [default].
  - by rewrite <-part_frees_insert, insert_id.
  - by rewrite delete_id.
Qed.
Lemma part_arenas_split A a cs : A !! a = Some cs → part_arenas A ≡ₚ arena_objs (a, cs) ++ part_arenas (delete a A).
Proof. intros E. by rewrite <-part_arenas_insert, insert_id. Qed.

Lemma objs_focus A F a cs t : A !! a = Some cs →
  objs A F ≡ₚ free_objs (frees_of F t) ++ arena_objs (a, cs) ++ others A F a t.
Proof.
  intros E. unfold objs, others. rewrite (part_arenas_split _ _ _ E), (part_frees_split F t).
  rewrite <-!app_assoc. rewrite (Permutation_app_swap_app (part_arenas (delete a A))).
  by rewrite Permutation_app_swap_app.
Qed.
Lemma objs_update A F a cs t l :
  objs (<[a := cs]> A) (<[t := l]> F) ≡ₚ free_objs l ++ arena_objs (a, cs) ++ others A F a t.
Proof.
  unfold objs, others. rewrite part_arenas_insert, part_frees_insert.
  rewrite <-!app_assoc. rewrite (Permutation_app_swap_app (part_arenas (delete a A))).
  by rewrite Permutation_app_swap_app.
Qed.
Lemma objs_remove A F a t l : objs (delete a A) (<[t := l]> F) ≡ₚ free_objs l ++ others A F a t.
Proof. unfold objs, others. by rewrite part_frees_insert, Permutation_app_swap_app. Qed.
Lemma objs_new A F a cs : A !! a = None → objs (<[a := cs]> A) F ≡ₚ arena_objs (a, cs) ++ objs A F.
Proof. intros E. unfold objs. by rewrite part_arenas_insert, delete_id, <-app_assoc. Qed.

(** The memory holds exactly these arenas and these lists of free chunks. *)
Record models (m : memory) (A : gmap Z (list chunk)) (F : gmap Z (list (Z * Z))) : Prop := mkModels {
  md_holds : holds m (objs A F);
  md_tls t : tls_at m t (frees_of F t) ∧ (length (frees_of F t) ≤ 10)%nat ∧ Forall free_ok (frees_of F t);
  md_chunks a cs : A !! a = Some cs → Forall chunk_ok cs
}.

Lemma frees_of_insert F t l t' : frees_of (<[t := l]> F) t' = if decide (t' = t) then l else frees_of F t'.
Proof. unfold frees_of. case_decide; [subst; by rewrite lookup_insert_eq|by rewrite lookup_insert_ne]. Qed.

Lemma tls_update m m' F t l os :
  (∀ t, tls_at m t (frees_of F t) ∧ (length (frees_of F t) ≤ 10)%nat ∧ Forall free_ok (frees_of F t)) →
  tls_at m' t l → (length l ≤ 10)%nat → Forall free_ok l → touches t os m m' →
  ∀ t', tls_at m' t' (frees_of (<[t := l]> F) t') ∧ (length (frees_of (<[t := l]> F) t') ≤ 10)%nat ∧
    Forall free_ok (frees_of (<[t := l]> F) t').
Proof.
  intros HF Hl Hlen Hok [Ht _] t'. rewrite frees_of_insert. case_decide as E; [by subst|].
  destruct (HF t') as (H1 & H2 & H3). split_and!; [|done..]. unfold tls_at. by rewrite Ht.
Qed.

Lemma chunks_update (A : gmap Z (list chunk)) a cs :
  (∀ b cs, A !! b = Some cs → Forall chunk_ok cs) → Forall chunk_ok cs →
  ∀ b cs', <[a := cs]> A !! b = Some cs' → Forall chunk_ok cs'.
Proof. intros HA Hcs b cs' [[<- <-]|[_ E]]%lookup_insert_Some; eauto. Qed.

Lemma round_up_spec k : config_ok → 0 < k → k + al - 1 < 2 ^ 63 →
  k ≤ round_up MAXALIGN k < 2 ^ 63 ∧ (al | round_up MAXALIGN k).
Proof.
  unfold config_ok, round_up. intros Hc Hk Hlim.
  pose proof (Z.div_mod (k + al - 1) al ltac:(lia)) as Hdm.
  pose proof (Z.mod_pos_bound (k + al - 1) al ltac:(lia)).
  set (q := (k + al - 1) / al) in *.
  assert (u64 (k + al - 1) = k + al - 1) as -> by (apply Z.mod_small; lia). fold q.
  assert (u64 (q * al) = q * al) as -> by (apply Z.mod_small; lia).
  rewrite wraps_id by (unfold in_s; lia). split; [lia|by exists q].
Qed.

Lemma alloc_models m A F t a cs k :
  config_ok → models m A F → A !! a = Some cs → 0 < k → k + al - 1 < 2 ^ 63 →
  ∃ m' r cs' l', Arena_alloc MAXALIGN t a k m = Some (m', r) ∧ models m' (<[a := cs']> A) (<[t := l']> F) ∧
    touches t (objs A F) m m' ∧ grows cs cs' ∧ alloc_result (round_up MAXALIGN k) cs cs' r ∧
    (cs = [] → frees_of F t = [] → ∀ x, r = Returned x → ∃ p n,
       cs' = [(p, n, x + round_up MAXALIGN k)] ∧ x = p + hdr).
Proof.
  intros Hc [Hh HF HA] Ea Hk Hlim. destruct (round_up_spec k Hc Hk Hlim) as [Hr Hdiv].
  pose proof Hh as Hh'. rewrite (objs_focus _ _ _ _ t Ea) in Hh'. destruct (HF t) as (Ht & Hlen & Hok).
  destruct (alloc_loop_ok a (others A F a t) (round_up MAXALIGN k) t Hc ltac:(lia) Hdiv
    (Z.to_nat (get_nfree t m) + 2) (frees_of F t) m cs Hh' Ht Hlen Hok (HA _ _ Ea)) as
    (m' & r & cs' & l' & E & Hm' & Ht' & Hsuf & Hcs' & HO & Hg & Hres & _ & Hfirst).
  { left. unfold get_nfree. rewrite Ht. cbn [snd]. lia. }
  pose proof (suffix_length _ _ Hsuf).
  exists m', r, cs', l'. split_and!; [| | |done..].
  - assert (placed (obj_of a sizeof_arena (head_of cs))) as (Ha & _ & _ & _).
    { apply (h_placed _ _ Hh'). apply elem_of_app. right. by left. }
    cbn in Ha. unfold Arena_alloc. replace (a =? 0) with false by lia. replace (0 <? k) with true by lia. exact E.
  - split; [by rewrite objs_update| |by apply chunks_update; [apply HA|]].
    refine (tls_update m m' F t l' _ HF Ht' _ _ HO); [lia|].
    destruct Hsuf as [l0 E0]. rewrite E0 in Hok. by apply Forall_app in Hok as [_ ?].
  - by rewrite (objs_focus _ _ _ _ t Ea).
Qed.

Lemma dispose_models m A F t a cs :
  config_ok → models m A F → A !! a = Some cs →
  ∃ m' l', Arena_dispose t a m = Some m' ∧ models m' (delete a A) (<[t := l']> F) ∧ touches t (others A F a t) m m'.
Proof.
  intros Hc [Hh HF HA] Ea. pose proof Hh as Hh'. rewrite (objs_focus _ _ _ _ t Ea) in Hh'.
  destruct (HF t) as (Ht & Hlen & Hok).
  destruct (arena_dispose_ok m t a cs _ _ Hc Hh' Ht Hlen Hok (HA _ _ Ea)) as (m' & l' & E & Hm' & Ht' & Hlen' & Hl' & HO).
  exists m', l'. split_and!; [done| |done]. split; [by rewrite objs_remove|exact (tls_update m m' F t l' _ HF Ht' Hlen' Hl' HO)|].
  intros b cs' [_ E']%lookup_delete_Some. eauto.
Qed.

Lemma free_models m A F t a cs :
  config_ok → models m A F → A !! a = Some cs →
  ∃ m' l', Arena_free t a m = Some m' ∧ models m' (<[a := []]> A) (<[t := l']> F) ∧ touches t (others A F a t) m m'.
Proof.
  intros Hc [Hh HF HA] Ea. pose proof Hh as Hh'. rewrite (objs_focus _ _ _ _ t Ea) in Hh'.
  destruct (HF t) as (Ht & Hlen & Hok).
  destruct (arena_free_ok m t a cs _ _ Hc Hh' Ht Hlen Hok (HA _ _ Ea)) as (m' & l' & E & Hm' & Ht' & Hlen' & Hl' & HO).
  exists m', l'. split_and!; [done| |done].
  split; [by rewrite objs_update|exact (tls_update m m' F t l' _ HF Ht' Hlen' Hl' HO)|by apply chunks_update].
Qed.

Lemma new_models m A F :
  models m A F →
  ∃ m' r, Arena_new m = Some (m', r) ∧ (∀ x, payload (objs A F) x → bytes m' !! x = bytes m !! x) ∧
    match r with Raised => m' = m | Returned a => A !! a = None ∧ models m' (<[a := []]> A) F end.
Proof.
  intros [Hh HF HA]. destruct (arena_new_ok m _ Hh) as (m' & r & E & Ht & Hb & Hr).
  exists m', r. split_and!; [done..|]. destruct r as [a|]; [|done].
  assert (A !! a = None) as Hn.
  { destruct (A !! a) as [cs|] eqn:Ea; [|done]. exfalso. pose proof (h_dup _ _ Hr) as Hd.
    rewrite (objs_focus _ _ _ _ 0 Ea) in Hd. cbn [arena_objs chunk_objs fst snd app fmap list_fmap] in Hd.
    apply list.NoDup_cons in Hd as [Hd _]. apply Hd. rewrite fmap_app. apply elem_of_app. right. by left. }
  split; [done|]. split; [by rewrite objs_new| |by apply chunks_update].
  intros t. destruct (HF t) as (H1 & H2). split; [|done]. unfold tls_at. by rewrite Ht.
Qed.

(** Storing into what an arena has handed out *)
Lemma store_models m A F a cs p n av x l :
  config_ok → 24 ≤ hdr → models m A F → A !! a = Some cs → (p, n, av) ∈ cs →
  p + hdr ≤ x → x + Z.of_nat (length l) ≤ av →
  ∃ m', store x l m = Some m' ∧ models m' A F ∧
    ∀ y, ¬ (x ≤ y < x + Z.of_nat (length l)) → bytes m' !! y = bytes m !! y.
Proof.
  intros Hc Hhdr [Hh HF HA] Ea Hin Hx Hl.
  assert (p + hdr ≤ av ≤ p + n) as Hav by (pose proof (HA _ _ Ea) as Hcs; rewrite list.Forall_forall in Hcs; by apply Hcs in Hin as [? _]).
  destruct (chunk_objs_elem _ _ _ _ Hin) as (o & Ho & <- & <-).
  assert (o ∈ objs A F) as Hobj.
  { rewrite (objs_focus _ _ _ _ 0 Ea). rewrite !elem_of_app. right. left. by right. }
  apply elem_of_Permutation in Hobj as [os Hos]. rewrite Hos in Hh.
  destruct (holds_write m o o os x l Hh) as [E Hh']; [done|done|lia|lia| |].
  { destruct (h_ok _ _ Hh o) as (K1 & K2 & K3); [by left|].
    split_and!; intros v Hv; [destruct (K1 v Hv) as [? Hb]|destruct (K2 v Hv) as [? Hb]|destruct (K3 v Hv) as [? Hb]];
      (split; [done|]); (rewrite (read_bytes_ext (bytes m)); [done|]); intros y Hy;
      rewrite write_bytes_lookup, decide_False by lia; done. }
  eexists. split_and!; [exact E|split; [by rewrite Hos|exact HF|exact HA]|].
  intros y Hy. cbn [upd_bytes bytes]. by rewrite write_bytes_lookup, decide_False.
Qed.

(** ** Programs that use arenas *)

Inductive op :=
  | O_new
  | O_alloc (a k : Z)
  | O_calloc (a count k : Z)
  | O_free (a : Z)
  | O_dispose (a : Z)
  | O_write (x : Z) (l : list Z).

(** The arenas that exist, and what they have handed out since they were last
    freed: arena, address and size *)
Record running := mkRun { rmem : memory; live : gset Z; given : list (Z * Z * Z) }.
Definition start : running := mkRun no_memory ∅ [].

(** What the callers keep to *)
Definition sensible (k : Z) : Prop := 0 < k ∧ k + al - 1 < 2 ^ 63.
Definition can (s : running) (o : op) : Prop :=
  match o with
  | O_new => True
  | O_alloc a k => a ∈ live s ∧ sensible k
  | O_calloc a count k => a ∈ live s ∧ 0 < count ∧ sensible (count * k)
  | O_free a | O_dispose a => a ∈ live s
  | O_write x l => Exists (λ e, e.1.2 ≤ x ∧ x + Z.of_nat (length l) ≤ e.1.2 + e.2) (given s)
  end.

Definition hand_out (s : running) (a k : Z) (r : memory * outcome) : running :=
  match r.2 with
  | Raised => mkRun r.1 (live s) (given s)
  | Returned x => mkRun r.1 (live s) (given s ++ [(a, x, k)])
  end.
Definition not_of (a : Z) (g : list (Z * Z * Z)) : list (Z * Z * Z) := filter (λ e, e.1.1 ≠ a) g.
(** One call by thread [t] *)
Definition step (s : running) (t : Z) (o : op) : option running :=
  match o with
  | O_new =>
    '(m, r) ← Arena_new (rmem s);
    Some (mkRun m (match r with Returned a => {[a]} ∪ live s | Raised => live s end) (given s))
  | O_alloc a k => hand_out s a k <$> Arena_alloc MAXALIGN t a k (rmem s)
  | O_calloc a count k => hand_out s a (count * k) <$> Arena_calloc MAXALIGN t a count k (rmem s)
  | O_free a => m ← Arena_free t a (rmem s); Some (mkRun m (live s) (not_of a (given s)))
  | O_dispose a => m ← Arena_dispose t a (rmem s); Some (mkRun m (live s ∖ {[a]}) (not_of a (given s)))
  | O_write x l => m ← store x l (rmem s); Some (mkRun m (live s) (given s))
  end.
Definition astep (s s' : running) : Prop := ∃ t o, can s o ∧ step s t o = Some s'.
Definition reachable (s : running) : Prop := rtc astep start s.

Definition separate (e e' : Z * Z * Z) : Prop := e.1.2 + e.2 ≤ e'.1.2 ∨ e'.1.2 + e'.2 ≤ e.1.2.
Definition writes (o : op) (y : Z) : Prop :=
  match o with O_write x l => x ≤ y < x + Z.of_nat (length l) | _ => False end.
(** A call changes no byte of what stays handed out, apart from stores. *)
Definition keeps (s : running) (o : op) (s' : running) : Prop :=
  ∀ a x k y, (a, x, k) ∈ given s → (a, x, k) ∈ given s' → x ≤ y < x + k → ¬ writes o y →
    bytes (rmem s') !! y = bytes (rmem s) !! y.

Definition lies_in (A : gmap Z (list chunk)) (e : Z * Z * Z) : Prop :=
  0 < e.2 ∧ ∃ cs p n av, A !! e.1.1 = Some cs ∧ (p, n, av) ∈ cs ∧ p + hdr ≤ e.1.2 ∧ e.1.2 + e.2 ≤ av ∧
    (al | e.1.2 - (p + hdr)).
Record good (s : running) (A : gmap Z (list chunk)) (F : gmap Z (list (Z * Z))) : Prop := mkGood {
  gd_models : models (rmem s) A F;
  gd_live : live s = dom A;
  gd_given : Forall (lies_in A) (given s);
  gd_apart : ForallOrdPairs separate (given s)
}.

Lemma ordpairs_snoc {B} (R : B → B → Prop) l x :
  ForallOrdPairs R l → Forall (λ y, R y x) l → ForallOrdPairs R (l ++ [x]).
Proof.
  induction 1 as [|y l Hy Hl IH]; intros Hx; cbn; [by repeat constructor|].
  apply list.Forall_cons in Hx as [Hyx Hx]. constructor; [|by apply IH].
  apply list.Forall_app. split; [done|by constructor].
Qed.
Lemma ordpairs_filter {B} (R : B → B → Prop) (P : B → Prop) `{∀ x, Decision (P x)} l :
  ForallOrdPairs R l → ForallOrdPairs R (filter P l).
Proof.
  induction 1 as [|y l Hy Hl IH]; [constructor|]. rewrite filter_cons. case_decide; [|done].
  constructor; [|done]. apply list.Forall_forall. intros x [_ Hx]%list_elem_of_filter.
  rewrite list.Forall_forall in Hy. auto.
Qed.

Lemma ordpairs_last {B} (R : B → B → Prop) l x y : ForallOrdPairs R (l ++ [x]) → y ∈ l → R y x.
Proof.
  induction l as [|z l IH]; cbn; intros Hl Hy; [by apply elem_of_nil in Hy|].
  inversion Hl as [|? ? Hz Hl']; subst. apply list.elem_of_cons in Hy as [->|Hy]; [|by apply IH].
  rewrite list.Forall_forall in Hz. apply Hz, elem_of_app. right. by left.
Qed.

Lemma lies_payload m A F e y a t :
  config_ok → 24 ≤ hdr → models m A F → lies_in A e → e.1.2 ≤ y < e.1.2 + e.2 →
  payload (objs A F) y ∧ (e.1.1 ≠ a → payload (others A F a t) y).
Proof.
  intros Hc Hhdr Hm (Hk & cs & p & n & av & Ea & Hin & Hx & Hav & _) Hy.
  pose proof (md_chunks _ _ _ Hm _ _ Ea) as Hcs. rewrite list.Forall_forall in Hcs.
  destruct (Hcs _ Hin) as [Hr _]. destruct (chunk_objs_elem _ _ _ _ Hin) as (o & Ho & <- & <-).
  split; [|intros Hne]; exists o; (split; [|unfold sizeof_arena; lia]).
  - rewrite (objs_focus _ _ _ _ 0 Ea), !elem_of_app. right. left. by right.
  - unfold others. rewrite (part_arenas_split (delete a A) e.1.1 cs) by (by rewrite lookup_delete_ne).
    rewrite !elem_of_app. left. left. by right.
Qed.

Lemma lies_mono A a cs cs' e :
  A !! a = Some cs → grows cs cs' → lies_in A e → lies_in (<[a := cs']> A) e.
Proof.
  intros Ea Hg (Hk & cs0 & p & n & av & E & Hin & Hx & Hav & Hd). split; [done|].
  destruct (decide (e.1.1 = a)) as [Heq|Hne].
  - rewrite Heq in *. rewrite Ea in E. injection E as <-. destruct (Hg _ _ _ Hin) as (av' & ? & Hin').
    exists cs', p, n, av'. rewrite lookup_insert_eq. split_and!; [done..|lia|done].
  - exists cs0, p, n, av. rewrite lookup_insert_ne by done. done.
Qed.

Lemma fresh_separate m A F a cs cs' nb k x e :
  config_ok → models m (<[a := cs']> A) F → A !! a = Some cs → grows cs cs' → 0 < k → k ≤ nb →
  alloc_result nb cs cs' (Returned x) → lies_in A e → separate e (a, x, k).
Proof.
  intros Hc Hm Ea Hg Hk Hkn (p & n & Hin & Hx & _ & Hold) He.
  pose proof (lies_mono A a cs cs' e Ea Hg He) as He'.
  pose proof (md_holds _ _ _ Hm) as Hh.
  pose proof (md_chunks _ _ _ Hm) as Hcs.
  rewrite (objs_focus _ _ a cs' 0) in Hh by apply lookup_insert_eq.
  pose proof (Hcs a cs' (lookup_insert_eq _ _ _)) as Hcs'. rewrite list.Forall_forall in Hcs'.
  destruct (Hcs' _ Hin) as [Hpn _]. destruct (chunk_objs_elem _ _ _ _ Hin) as (o & Ho & Eo & En).
  pose proof (header_range Hc). unfold separate. cbn [fst snd].
  assert (∀ q j av, (q, j, av) ∈ cs' → q ≠ p → q + j ≤ p ∨ p + n ≤ q) as Hap.
  { intros q j av Hq Hne. destruct (chunk_objs_elem _ _ _ _ Hq) as (o' & Ho' & <- & <-).
    destruct (h_apart _ _ Hh o o') as [?|?]; [rewrite !elem_of_app; right; left; by right..|congruence|lia|lia]. }
  destruct (decide (e.1.1 = a)) as [Heq|Hne].
  - destruct He as (_ & cs0 & q & j & av & E & Hq & Hqx & Hqav & _).
    rewrite Heq, Ea in E. injection E as <-. destruct (Hg _ _ _ Hq) as (av' & Hav' & Hq').
    destruct (Hcs' _ Hq') as [Hqj _].
    destruct (decide (q = p)) as [->|Hqp]; [|destruct (Hap _ _ _ Hq' Hqp); lia].
    assert ((p, j, av') = (p, n, x + nb)) as [= -> _]; [|specialize (Hold _ Hq); lia].
    rewrite Permutation_app_swap_app in Hh. pose proof (chunks_nodup _ _ _ _ Hh) as Hnd.
    apply list_elem_of_lookup in Hq' as [i1 Hi1], Hin as [i2 Hi2].
    assert (i1 = i2) as ->; [|congruence].
    eapply NoDup_lookup; [exact Hnd|rewrite list_lookup_fmap, Hi1; done|rewrite list_lookup_fmap, Hi2; done].
  - destruct He' as (_ & cs0 & q & j & av & E & Hq & Hqx & Hqav & _).
    pose proof (Hcs _ _ E) as Hcs0. rewrite list.Forall_forall in Hcs0. destruct (Hcs0 _ Hq) as [Hqj _].
    destruct (chunk_objs_elem _ _ _ _ Hq) as (o' & Ho' & Eo' & En').
    rewrite lookup_insert_ne in E by done.
    assert (o' ∈ others (<[a := cs']> A) F a 0) as Hoth.
    { unfold others. rewrite (part_arenas_split _ e.1.1 cs0) by (rewrite lookup_delete_ne, lookup_insert_ne; done).
      rewrite !elem_of_app. left. left. by right. }
    destruct (h_apart _ _ Hh o o') as [?|?].
    + rewrite !elem_of_app. right. left. by right.
    + rewrite !elem_of_app. by right; right.
    + intros Hoo. rewrite Permutation_app_swap_app in Hh. pose proof (h_dup _ _ Hh) as Hd.
      rewrite fmap_app in Hd. apply list.NoDup_app in Hd as (_ & Hd & _). apply (Hd (ob o)).
      * apply list_elem_of_fmap_2. by right.
      * rewrite Hoo. apply list_elem_of_fmap_2. apply elem_of_app. by right.
    + lia.
    + lia.
Qed.

Lemma lies_insert_new A a cs e : A !! a = None → lies_in A e → lies_in (<[a := cs]> A) e.
Proof.
  intros Ea (Hk & cs0 & p & n & av & E & H). split; [done|]. exists cs0, p, n, av.
  rewrite lookup_insert_ne by congruence. done.
Qed.
Lemma lies_other (A A' : gmap Z (list chunk)) a e :
  (∀ b, b ≠ a → A' !! b = A !! b) → e.1.1 ≠ a → lies_in A e → lies_in A' e.
Proof. intros HA Hne (Hk & cs0 & p & n & av & E & H). split; [done|]. exists cs0, p, n, av. by rewrite HA. Qed.

Lemma good_live s A F a : good s A F → a ∈ live s → ∃ cs, A !! a = Some cs.
Proof. intros Hg Ha. rewrite (gd_live _ _ _ Hg) in Ha. by apply elem_of_dom in Ha. Qed.

(** Handing out a block *)
Lemma alloc_good s A F t a k :
  config_ok → 24 ≤ hdr → good s A F → a ∈ live s → sensible k →
  ∃ m r A' F', Arena_alloc MAXALIGN t a k (rmem s) = Some (m, r) ∧ good (hand_out s a k (m, r)) A' F' ∧
    ∀ a x k y, (a, x, k) ∈ given s → x ≤ y < x + k → bytes m !! y = bytes (rmem s) !! y.
Proof.
  intros Hc Hhdr Hg Ha [Hk Hlim]. destruct (good_live _ _ _ _ Hg Ha) as [cs Ea]. pose proof Hg as [Hm Hl Hgv Hap].
  destruct (alloc_models _ _ _ t a cs k Hc Hm Ea Hk Hlim) as (m & r & cs' & l' & E & Hm' & HO & Hgr & Hres & _).
  destruct (round_up_spec k Hc Hk Hlim) as [Hr _].
  exists m, r, (<[a := cs']> A), (<[t := l']> F). split_and!; [done| |].
  - assert (live s = dom (<[a := cs']> A)) as Hl' by (rewrite dom_insert_lookup_L by done; done).
    assert (Forall (lies_in (<[a := cs']> A)) (given s)) as Hgv'.
    { apply (list.Forall_impl _ _ _ Hgv). intros e. by apply (lies_mono A a cs). }
    destruct r as [x|]; cbn [hand_out fst snd]; split; cbn [rmem live given]; [done..| | |done|done|done|done].
    + apply list.Forall_app. split; [done|]. apply list.Forall_singleton. split; [done|].
      destruct Hres as (p & n & Hin & Hx & Hd & _). exists cs', p, n, (x + round_up MAXALIGN k). cbn [fst snd].
      rewrite lookup_insert_eq. split_and!; [done..|lia|done].
    + apply ordpairs_snoc; [done|]. apply (list.Forall_impl _ _ _ Hgv). intros e He.
      apply (fresh_separate m A (<[t := l']> F) a cs cs' (round_up MAXALIGN k)); [done..|lia|done|done].
  - intros b x j y Hin Hy. apply HO. rewrite list.Forall_forall in Hgv.
    by apply (lies_payload (rmem s) A F (b, x, j) y 0 0 Hc Hhdr Hm (Hgv _ Hin)).
Qed.

(** Filling a block that has just been handed out *)
Lemma fill_good s A F a x k v :
  config_ok → 24 ≤ hdr → good s A F → (a, x, k) ∈ given s →
  ∃ m, store x (replicate (Z.to_nat k) v) (rmem s) = Some m ∧ good (mkRun m (live s) (given s)) A F ∧
    ∀ y, ¬ (x ≤ y < x + k) → bytes m !! y = bytes (rmem s) !! y.
Proof.
  intros Hc Hhdr [Hm Hl Hgv Hap] Hin. rewrite list.Forall_forall in Hgv.
  destruct (Hgv _ Hin) as (Hk & cs & p & n & av & Ea & Hch & Hx & Hav & _). cbn [fst snd] in *.
  destruct (store_models (rmem s) A F a cs p n av x (replicate (Z.to_nat k) v)) as (m & E & Hm' & Hb);
    [done..|rewrite length_replicate; lia|].
  rewrite length_replicate in Hb. exists m. split_and!; [done| |intros y Hy; apply Hb; lia].
  split; cbn [rmem live given]; [done..| |done]. by apply list.Forall_forall.
Qed.

Lemma drop_good s A A' F' a m :
  models m A' F' → (∀ b, b ≠ a → A' !! b = A !! b) → Forall (lies_in A) (given s) →
  ForallOrdPairs separate (given s) → good (mkRun m (dom A') (not_of a (given s))) A' F'.
Proof.
  intros Hm HA Hgv Hap. split; cbn [rmem live given]; [done..| |].
  - apply list.Forall_forall. intros e [Hne Hin]%list_elem_of_filter. rewrite list.Forall_forall in Hgv.
    by apply (lies_other A A' a); auto.
  - by apply ordpairs_filter.
Qed.

Lemma calloc_good s A F t a count k :
  config_ok → 24 ≤ hdr → good s A F → a ∈ live s → 0 < count → sensible (count * k) →
  ∃ m r A' F', Arena_calloc MAXALIGN t a count k (rmem s) = Some (m, r) ∧
    good (hand_out s a (count * k) (m, r)) A' F' ∧
    ∀ a x k y, (a, x, k) ∈ given s → x ≤ y < x + k → bytes m !! y = bytes (rmem s) !! y.
Proof.
  intros Hc Hhdr Hg Ha Hcount Hk.
  destruct (alloc_good s A F t a (count * k) Hc Hhdr Hg Ha Hk) as (m & r & A' & F' & E & Hg' & Hb).
  unfold Arena_calloc. replace (0 <? count) with true by lia. destruct Hk as [Hk Hlim]. unfold config_ok in Hc.
  replace ((- 2 ^ 63 <=? count * k) && (count * k <? 2 ^ 63)) with true by lia.
  cbn [c_assert mbind option_bind]. rewrite E. cbn [mbind option_bind].
  destruct r as [x|]; [|by exists m, Raised, A', F'].
  destruct (fill_good _ A' F' a x (count * k) 0 Hc Hhdr Hg') as (m' & E' & Hg'' & Hb').
  { cbn. apply elem_of_app. right. by left. }
  cbn [hand_out fst snd rmem live given] in *. rewrite E'. cbn [mbind option_bind].
  exists m', (Returned x), A', F'. split_and!; [done|exact Hg''|]. intros b z j y Hin Hy.
  rewrite Hb'; [by apply (Hb b z j)|]. intros Hy'.
  destruct (ordpairs_last _ _ _ _ (gd_apart _ _ _ Hg') Hin) as [Hs|Hs]; cbn in Hs; lia.
Qed.

Lemma write_good s A F x l :
  config_ok → 24 ≤ hdr → good s A F → can s (O_write x l) →
  ∃ m, store x l (rmem s) = Some m ∧ good (mkRun m (live s) (given s)) A F ∧
    ∀ y, ¬ (x ≤ y < x + Z.of_nat (length l)) → bytes m !! y = bytes (rmem s) !! y.
Proof.
  intros Hc Hhdr [Hm Hl Hgv Hap] ([[a z] k] & Hin & Hz & Hzk)%list.Exists_exists. rewrite list.Forall_forall in Hgv.
  destruct (Hgv _ Hin) as (Hk & cs & p & n & av & Ea & Hch & Hx & Hav & _). cbn [fst snd] in *.
  destruct (store_models (rmem s) A F a cs p n av x l) as (m & E & Hm' & Hb); [done..|lia|lia|].
  exists m. split_and!; [done| |done].
  split; cbn [rmem live given]; [done..| |done]. by apply list.Forall_forall.
Qed.

Lemma arena_step_good s A F t o :
  config_ok → 24 ≤ hdr → good s A F → can s o →
  ∃ s' A' F', step s t o = Some s' ∧ good s' A' F' ∧ keeps s o s'.
Proof.
  intros Hc Hhdr Hg Hcan. pose proof Hg as [Hm Hl Hgv Hap]. rewrite list.Forall_forall in Hgv.
  assert (∀ a x k y b t, (a, x, k) ∈ given s → x ≤ y < x + k →
    payload (objs A F) y ∧ (a ≠ b → payload (others A F b t) y)) as Hpay.
  { intros a x k y b t' Hin Hy. exact (lies_payload _ A F (a, x, k) y b t' Hc Hhdr Hm (Hgv _ Hin) Hy). }
  destruct o as [|a k|a count k|a|a|x l]; cbn [can step] in *.
  - destruct (new_models _ _ _ Hm) as (m & r & -> & Hb & Hr). cbn [mbind option_bind].
    assert (∀ L, keeps s O_new (mkRun m L (given s))) as Hk.
    { intros L a x k y Hin _ Hy _. apply Hb. by apply (Hpay a x k y 0 0). }
    destruct r as [a|].
    + destruct Hr as [Ea Hm']. eexists _, (<[a := []]> A), F. split_and!; [done| |apply Hk].
      split; cbn [rmem live given]; [done|by rewrite dom_insert_L, Hl| |done].
      apply list.Forall_forall. intros e He. apply lies_insert_new; auto.
    + subst m. eexists _, A, F. split_and!; [done| |apply Hk]. by destruct s.
  - destruct Hcan as [Ha Hk]. destruct (alloc_good s A F t a k Hc Hhdr Hg Ha Hk) as (m & r & A' & F' & -> & Hg' & Hb).
    eexists _, A', F'. split_and!; [done|exact Hg'|]. intros b x j y Hin _ Hy _.
    rewrite <-(Hb b x j y Hin Hy). by destruct r.
  - destruct Hcan as (Ha & Hcount & Hk).
    destruct (calloc_good s A F t a count k Hc Hhdr Hg Ha Hcount Hk) as (m & r & A' & F' & -> & Hg' & Hb).
    eexists _, A', F'. split_and!; [done|exact Hg'|]. intros b x j y Hin _ Hy _.
    rewrite <-(Hb b x j y Hin Hy). by destruct r.
  - destruct (good_live _ _ _ _ Hg Hcan) as [cs Ea].
    destruct (free_models _ _ _ t a cs Hc Hm Ea) as (m & l' & -> & Hm' & [_ HO]). cbn [mbind option_bind].
    eexists _, (<[a := []]> A), _. split_and!; [done| |].
    + rewrite Hl. replace (dom A) with (dom (<[a := []]> A)) by (by rewrite dom_insert_lookup_L).
      eapply drop_good; [done| |by apply list.Forall_forall|done]. intros b Hb. by rewrite lookup_insert_ne.
    + intros b x k y Hin [Hne _]%list_elem_of_filter Hy _. apply HO. by apply (Hpay b x k y).
  - destruct (good_live _ _ _ _ Hg Hcan) as [cs Ea].
    destruct (dispose_models _ _ _ t a cs Hc Hm Ea) as (m & l' & -> & Hm' & [_ HO]). cbn [mbind option_bind].
    eexists _, (delete a A), _. split_and!; [done| |].
    + rewrite Hl, <-dom_delete_L.
      eapply drop_good; [done| |by apply list.Forall_forall|done]. intros b Hb. by rewrite lookup_delete_ne.
    + intros b x k y Hin [Hne _]%list_elem_of_filter Hy _. apply HO. by apply (Hpay b x k y).
  - destruct (write_good s A F x l Hc Hhdr Hg Hcan) as (m & -> & Hg' & Hb). cbn [mbind option_bind].
    eexists _, A, F. split_and!; [done|exact Hg'|]. intros b z' j y _ _ _ Hw. by apply Hb.
Qed.

Lemma start_good : good start ∅ ∅.
Proof.
  split; [|by rewrite dom_empty_L|constructor..].
  split; [|intros t; unfold tls_at, frees_of; cbn [tls no_memory rmem start]; rewrite !lookup_empty; cbn; split_and!; [done|lia|constructor]|by intros a cs ?%lookup_empty_Some].
  split; cbn; [constructor|..].
  - intros b n. rewrite lookup_empty. split; [done|]. by intros (o & ?%elem_of_nil & _).
  - by intros o ?%elem_of_nil.
  - by intros o o' ?%elem_of_nil.
  - by intros o ?%elem_of_nil.
Qed.

Lemma arena_reachable s : config_ok → 24 ≤ hdr → reachable s → ∃ A F, good s A F.
Proof.
  intros Hc Hhdr. apply (rtc_ind_r (λ s, ∃ A F, good s A F)); [eexists _, _; exact start_good|].
  intros s1 s2 _ (t & o & Hcan & Hs) (A & F & Hg).
  destruct (arena_step_good s1 A F t o Hc Hhdr Hg Hcan) as (s' & A' & F' & E & Hg' & _).
  exists A', F'. congruence.
Qed.

(** C25  With a header that can hold the three pointers of an arena, no call
    of a program that keeps to the interface fails: no assertion fails, nothing
    is read or written outside a live block, every loop ends.  What arenas have
    handed out lies inside live blocks, is pairwise disjoint, and is aligned
    as far as blocks of [malloc], the header and the unit of allocation are. *)
Theorem arena_safe (s : running) (Hc : config_ok) (Hhdr : sizeof_arena ≤ hdr) (Hs : reachable s) :
  (∀ t o, can s o → is_Some (step s t o)) ∧ ForallOrdPairs separate (given s) ∧
  (∀ a x k, (a, x, k) ∈ given s → a ∈ live s ∧ 0 < x ∧ inside (rmem s) x k = true ∧
     ∀ d, (d | 16) → (d | al) → (d | hdr) → (d | x)).
Proof.
  destruct (arena_reachable s Hc Hhdr Hs) as (A & F & Hg). pose proof Hg as [Hm Hl Hgv Hap]. split_and!; [|done|].
  - intros t o Ho. destruct (arena_step_good s A F t o Hc Hhdr Hg Ho) as (s' & _ & _ & -> & _). done.
  - intros a x k Hin. rewrite list.Forall_forall in Hgv.
    destruct (Hgv _ Hin) as (Hk & cs & p & n & av & Ea & Hch & Hx & Hav & Hd). cbn [fst snd] in *.
    destruct (chunk_objs_elem _ _ _ _ Hch) as (o & Ho & <- & <-).
    assert (o ∈ objs A F) as Hobj by (rewrite (objs_focus _ _ _ _ 0 Ea), !elem_of_app; right; left; by right).
    pose proof (md_holds _ _ _ Hm) as Hh. destruct (h_placed _ _ Hh _ Hobj) as (Hpos & H16 & _ & _).
    pose proof (md_chunks _ _ _ Hm _ _ Ea) as Hcs. rewrite list.Forall_forall in Hcs. destruct (Hcs _ Hch) as [Hr _].
    pose proof (header_range Hc). split_and!.
    + rewrite Hl. by apply elem_of_dom.
    + lia.
    + apply (inside_spec _ _ _ _ Hh). exists o. split_and!; [done|lia..].
    + intros d Hd16 Hdal Hdh. replace x with (ob o + hdr + (x - (ob o + hdr))) by lia.
      apply Z.divide_add_r; [apply Z.divide_add_r; [by apply (Z.divide_trans _ 16)|done]|by apply (Z.divide_trans _ al)].
Qed.

(** A call of any thread on any arena changes no byte of what stays handed
    out; only the stores of the callers do. *)
Theorem arena_keeps_contents (s s' : running) (t : Z) (o : op) (Hc : config_ok) (Hhdr : sizeof_arena ≤ hdr)
    (Hs : reachable s) (Ho : can s o) (Hstep : step s t o = Some s') : keeps s o s'.
Proof.
  destruct (arena_reachable s Hc Hhdr Hs) as (A & F & Hg).
  destruct (arena_step_good s A F t o Hc Hhdr Hg Ho) as (s1 & _ & _ & E & _ & Hk).
  rewrite E in Hstep. by injection Hstep as <-.
Qed.

(** The blocks of a chain, from their first words *)
Fixpoint chain (m : memory) (fuel : nat) (p : Z) : list Z :=
  match fuel with
  | O => []
  | S fuel => if p =? 0 then [] else p :: match load64 m p with Some q => chain m fuel q | None => [] end
  end.

Lemma load_first m os o v : holds m os → o ∈ os → o_prev o = Some v → load64 m (ob o) = Some v.
Proof.
  intros Hh [os' Ho]%elem_of_Permutation Hv. rewrite Ho in Hh. by apply (load_words _ _ _ Hh).
Qed.

Lemma chain_chunks m os cs : ∀ fuel, holds m os → chunk_objs cs ⊆ os → (length cs ≤ fuel)%nat →
  chain m fuel (head_of cs).1.1 = (λ c, c.1.1) <$> cs.
Proof.
  induction cs as [|[[p n] av] cs IH]; intros [|fuel] Hh Hos Hf; try done; [cbn in Hf; lia|].
  cbn [chunk_objs] in Hos. assert (obj_of p n (head_of cs) ∈ os) as Ho by (apply Hos; by left).
  destruct (h_placed _ _ Hh _ Ho) as (Hp & _). cbn [obj_of ob] in Hp. cbn [head_of fst chain].
  replace (p =? 0) with false by lia. pose proof (load_first m os _ (head_of cs).1.1 Hh Ho eq_refl) as E. cbn [obj_of ob] in E. rewrite E.
  cbn. f_equal. apply IH; [done| |cbn in Hf; lia]. intros o Ho'. apply Hos. by right.
Qed.
Lemma chain_frees m os l : ∀ fuel, holds m os → free_objs l ⊆ os → (length l ≤ fuel)%nat →
  chain m fuel (free_head l) = fst <$> l.
Proof.
  induction l as [|[p n] l IH]; intros [|fuel] Hh Hos Hf; try done; [cbn in Hf; lia|].
  cbn [free_objs] in Hos.
  assert (mkObj p n (Some (free_head l)) None (Some (p + n)) ∈ os) as Ho by (apply Hos; by left).
  destruct (h_placed _ _ Hh _ Ho) as (Hp & _). cbn [ob] in Hp. cbn [free_head chain].
  replace (p =? 0) with false by lia. pose proof (load_first m os _ (free_head l) Hh Ho eq_refl) as E. cbn [ob] in E. rewrite E.
  cbn. f_equal. apply IH; [done| |cbn in Hf; lia]. intros o Ho'. apply Hos. by right.
Qed.
Lemma elem_of_free_objs l o : o ∈ free_objs l → ob o ∈ fst <$> l.
Proof.
  induction l as [|[p n] l IH]; cbn [free_objs]; [by intros ?%elem_of_nil|].
  intros [->|Ho]%list.elem_of_cons; [by left|right; by apply IH].
Qed.

(** C26  Nothing is lost, with a header that can hold the three pointers of
    an arena.  The default build has no such header: [union align] has 16
    bytes there, and a size of at least 24 has to be given with
    [--with-max-align].  Then every block that is not freed is an arena, a
    chunk of an arena, or on the list of free chunks of a thread, which has at
    most [THRESHOLD] chunks.  When every arena has been disposed of, only the
    lists of the threads are left. *)
Theorem arena_no_leak (s : running) (b n : Z) (Hc : config_ok) (Hhdr : sizeof_arena ≤ hdr) (Hs : reachable s)
    (Hb : blocks (rmem s) !! b = Some n) :
  b ∈ live s ∨
  (∃ a p, a ∈ live s ∧ load64 (rmem s) a = Some p ∧ b ∈ chain (rmem s) (size (blocks (rmem s))) p) ∨
  ∃ t, b ∈ chain (rmem s) (Z.to_nat THRESHOLD) (get_freechunks t (rmem s)) ∧
    get_nfree t (rmem s) = Z.of_nat (length (chain (rmem s) (Z.to_nat THRESHOLD) (get_freechunks t (rmem s)))).
Proof.
  destruct (arena_reachable s Hc Hhdr Hs) as (A & F & [Hm Hl _ _]). pose proof (md_holds _ _ _ Hm) as Hh.
  apply (h_blocks _ _ Hh) in Hb. destruct Hb as (o & Ho & Eb & _). subst b. unfold objs in Ho.
  apply elem_of_app in Ho as [Ho|Ho]; apply list_elem_of_bind in Ho as ([k l] & Ho & Hin%elem_of_map_to_list).
  - pose proof (objs_focus A F k l 0 Hin) as Hp. rewrite Hl.
    cbn [arena_objs fst snd] in Ho. apply list.elem_of_cons in Ho as [->|Ho]; [left; by apply elem_of_dom_2 in Hin|].
    right. left. exists k, (head_of l).1.1. split_and!; [by apply elem_of_dom_2 in Hin| |].
    + apply (load_first _ _ (obj_of k sizeof_arena (head_of l)) _ Hh); [|done].
      rewrite Hp, !elem_of_app. right. left. by left.
    + rewrite (chain_chunks _ _ _ _ Hh).
      * destruct (elem_of_chunk_objs _ _ Ho) as [av Hav].
        by apply (list_elem_of_fmap_2 (λ c : chunk, c.1.1)) in Hav.
      * intros o' Ho'. rewrite Hp, !elem_of_app. right. left. by right.
      * rewrite (holds_size _ _ Hh), Hp, !length_app. cbn [arena_objs fst snd length]. rewrite chunk_count. lia.
  - right. right. exists k. cbn [snd] in Ho. destruct (md_tls _ _ _ Hm k) as (Ht & Hlen & _).
    unfold frees_of in Ht, Hlen. rewrite Hin in Ht, Hlen. cbn [default] in Ht, Hlen.
    unfold get_freechunks, get_nfree. rewrite Ht. cbn [fst snd id].
    rewrite (chain_frees _ _ l _ Hh); [|intros o' Ho'|done].
    + split; [by apply elem_of_free_objs|by rewrite length_fmap].
    + unfold objs. rewrite elem_of_app. right. apply list_elem_of_bind. exists (k, l).
      split; [done|by apply elem_of_map_to_list].
Qed.

(** One turn of the loop of [Arena_free], whatever the header holds *)
Lemma free_turn fuel m t a p n av saved ch l rest :
  config_ok → holds m (obj_of p n saved :: obj_of a sizeof_arena (p, av, p + n) :: ch ++ free_objs l ++ rest) →
  in_word saved.1.1 → in_word saved.1.2 → in_word saved.2 →
  tls_at m t l → (length l ≤ 10)%nat → Forall free_ok l → hdr ≤ n →
  ∃ m' l', free_loop (S fuel) t a m = free_loop fuel t a m' ∧
    holds m' (obj_of a sizeof_arena saved :: ch ++ free_objs l' ++ rest).
Proof.
  intros Hc Hh W1 W2 W3 Ht Hlen Hl Hn.
  destruct (release_chunk m t a p n av saved ch l rest Hc Hh Ht Hlen Hl Hn) as (m1 & l1 & Er & Hh1 & _).
  destruct (store_arena_ok m1 _ _ _ _ _ Hh1 W1 W2 W3) as (m2 & E2 & Hh2 & _).
  rewrite <-!surjective_pairing in E2. cbn [obj_of ob] in E2.
  assert (placed (obj_of p n saved)) as (Hp & _) by (apply (h_placed _ _ Hh); by left). cbn [obj_of ob] in Hp.
  assert (load64 m a = Some p) as L1.
  { refine (load_first _ _ (obj_of a sizeof_arena (p, av, p + n)) p Hh _ eq_refl). right. by left. }
  assert (load_arena m p = Some saved) as La.
  { rewrite (surjective_pairing saved), (surjective_pairing saved.1). by apply (load_arena_ok _ _ _ _ _ _ Hh). }
  exists m2, l1. split; [|exact Hh2]. cbn [free_loop]. rewrite L1. cbn [mbind option_bind].
  replace (p =? 0) with false by lia. rewrite La. cbn [mbind option_bind] in Er |- *.
  rewrite Er. cbn [mbind option_bind]. rewrite E2. done.
Qed.

End spec.

(** ** The header configure gives by default *)

Section default_header.
Context {M : Malloc} {MS : MallocSpec}.

(** A byte stored into the last word of a header that was zero *)
Lemma spoil_limit m o os i b :
  holds m (o :: os) → o_limit o = Some 0 → 0 ≤ i < 8 → 0 < b < 256 →
  ∃ v, 0 < v ∧ in_word v ∧
    holds (upd_bytes (write_bytes (ob o + 16 + i) [b]) m) (mkObj (ob o) (on o) (o_prev o) (o_avail o) (Some v) :: os) ∧
    store (ob o + 16 + i) [b] m = Some (upd_bytes (write_bytes (ob o + 16 + i) [b]) m).
Proof.
  intros Hh H0 Hi Hb. destruct (h_ok _ _ Hh o) as (K1 & K2 & K3); [by left|].
  destruct (h_placed _ _ Hh o) as (_ & _ & Hs & _); [by left|]. unfold sizeof_arena in Hs.
  destruct (K3 0 H0) as [_ Hr]. apply read_bytes_Some in Hr as [_ Hr].
  set (l := <[Z.to_nat i := b]> (replicate 8 0) : list Z).
  assert (Forall is_byte l) as Hl.
  { apply list.Forall_insert; [|unfold is_byte; lia]. by repeat constructor. }
  assert (length l = 8%nat) as El by (by unfold l; rewrite length_insert, length_replicate).
  exists (le_val l). pose proof (le_val_range l Hl) as Hrange. rewrite El in Hrange.
  assert (b ∈ l) as Hbl.
  { apply list_elem_of_lookup. exists (Z.to_nat i). apply list_lookup_insert_eq. rewrite length_replicate. lia. }
  split_and!; [by apply (le_val_pos l b); [..|lia]|exact Hrange| |].
  all: destruct (holds_write m o (mkObj (ob o) (on o) (o_prev o) (o_avail o) (Some (le_val l))) os (ob o + 16 + i) [b])
    as [E Hh']; [done..|lia|cbn; lia| |try done].
  all: assert (∀ a w, word_ok (bytes m) a w → a + 8 ≤ ob o + 16 → word_ok (write_bytes (ob o + 16 + i) [b] (bytes m)) a w)
    as Hkeep by (intros a w Hw Ha v Hv; destruct (Hw v Hv) as [? Hrd]; split; [done|];
      rewrite (read_bytes_ext (bytes m)); [done|]; intros y Hy; rewrite write_bytes_lookup, decide_False; [done|cbn; lia]).
  all: split_and!; cbn [ob o_prev o_avail o_limit]; [apply Hkeep; [done|lia]..|].
  all: intros v [= <-]; split; [exact Hrange|]; rewrite <-El at 2; rewrite le_bytes_val by done;
    apply read_bytes_Some; split; [done|]; intros j Hj; rewrite write_bytes_lookup; cbn [length];
    unfold l; case_decide as Hd.
  all: first [replace j with (Z.to_nat i) by lia; rewrite list_lookup_insert_eq by (rewrite length_replicate; lia);
              by replace (Z.to_nat _) with 0%nat by lia
             |rewrite list_lookup_insert_ne by lia; rewrite Hr by done;
              do 8 (destruct j as [|j]; [done|]); lia].
Qed.
Lemma free_spoiled fuel m t a p n av v l rest :
  holds m (obj_of p n (0, 0, v) :: obj_of a sizeof_arena (p, av, p + n) :: free_objs l ++ rest) →
  in_word v → tls_at m t l → (length l ≤ 10)%nat → Forall (free_ok None) l → sizeof_header None ≤ n →
  ∃ m', free_loop (S (S fuel)) t a m = Some m' ∧ load64 m' (a + 16) = Some v ∧ 0 < a.
Proof.
  intros Hh Hv Ht Hlen Hl Hn.
  destruct (free_turn None (S fuel) m t a p n av (0, 0, v) [] l rest) as (m' & l' & E & Hh'); try done.
  destruct (load_words _ _ _ Hh') as (L1 & _ & L3). cbn [obj_of ob o_prev o_limit fst snd] in L1, L3.
  exists m'. rewrite E. cbn [free_loop]. rewrite (L1 _ eq_refl). split_and!; [done|by apply L3|].
  apply (h_placed _ _ Hh' (obj_of a sizeof_arena (0, 0, v))). by left.
Qed.

(** Without [--with-max-align] the header of a chunk has 16 bytes on a
    64-bit machine, but 24 are stored in it: the first block a new arena hands
    out begins where the third pointer is saved.  A program that stores
    anything but zero in the first eight bytes of it runs into the assertion
    when the arena is freed. *)
Theorem default_header_corrupts (t a k x i b : Z) (m1 m2 m3 : memory)
    (Hnew : Arena_new no_memory = Some (m1, Returned a)) (Hk : sensible None k)
    (Halloc : Arena_alloc None t a k m1 = Some (m2, Returned x))
    (Hi : 0 ≤ i < 8) (Hik : i < k) (Hb : 0 < b < 256) (Hstore : store (x + i) [b] m2 = Some m3) :
  Arena_free t a m3 = None.
Proof.
  assert (config_ok None) as Hc by done.
  destruct (new_models None _ ∅ ∅ (gd_models _ _ _ _ (start_good None))) as (m & r & E & _ & Hr).
  change (rmem start) with no_memory in E. rewrite Hnew in E. injection E as <- <-. destruct Hr as [_ Hm1].
  destruct Hk as [Hk Hlim].
  destruct (alloc_models None m1 _ ∅ t a [] k Hc Hm1 (lookup_insert_eq _ _ _) Hk Hlim) as
    (m & r & cs & l0 & E & Hm2 & _ & _ & _ & Hfirst).
  rewrite Halloc in E. injection E as <- <-.
  destruct (Hfirst eq_refl eq_refl x eq_refl) as (p & n & -> & Hx). rewrite insert_insert_eq in Hm2.
  pose proof (md_chunks _ _ _ _ Hm2 a _ (lookup_insert_eq _ _ _)) as [[Hav _] _]%list.Forall_cons.
  destruct (md_tls _ _ _ _ Hm2 t) as (Ht & Hlen & Hl).
  pose proof (md_holds _ _ _ _ Hm2) as Hh. rewrite (objs_focus _ _ a _ t (lookup_insert_eq _ _ _)) in Hh.
  set (l := frees_of (<[t := l0]> ∅) t) in *. set (rest := others _ _ _ _) in *.
  rewrite Permutation_app_swap_app in Hh. cbn [arena_objs chunk_objs head_of fst snd app] in Hh.
  rewrite perm_swap in Hh. set (av := x + round_up None k) in *.
  destruct (spoil_limit m2 _ _ i b Hh eq_refl Hi Hb) as (v & Hv & Hvw & Hh3 & E3).
  change (sizeof_header None) with 16 in Hx. cbn [obj_of ob on o_prev o_avail o_limit fst snd] in Hh3, E3.
  rewrite <-Hx in Hh3, E3. rewrite Hstore in E3.
  assert (m3 = upd_bytes (write_bytes (x + i) [b]) m2) as E4 by congruence. rewrite <-E4 in Hh3.
  assert (size (blocks m3) = S (S (length (free_objs l ++ rest)))) as Hsz by exact (holds_size _ _ Hh3).
  destruct (free_spoiled (S (length (free_objs l ++ rest))) m3 t a p n av v l rest) as (m' & E & El & Ha);
    [exact Hh3|done| |done|done|lia|].
  { unfold tls_at. by rewrite E4. }
  unfold Arena_free. replace (a =? 0) with false by lia. rewrite Hsz. cbn [negb c_assert mbind option_bind].
  rewrite E. cbn [mbind option_bind]. rewrite El. cbn [mbind option_bind].
  destruct (load64 m' (a + 8)); cbn [mbind option_bind]; [|done]. by replace (v =? 0) with false by lia.
Qed.
End default_header.

(** ** A malloc *)

(** Every block behind all others, as long as there is room *)
Module Bump.
Definition top (blocks : gmap Z Z) : Z := foldr Z.max 0 ((λ e, e.1 + e.2) <$> map_to_list blocks).
#[export] Instance bump_malloc : Malloc := λ blocks n,
  let p := 16 * ((top blocks + 15) / 16) + 16 in
  if p + n <? 2 ^ 40 then Some p else None.

Lemma top_ge blocks b k : blocks !! b = Some k → b + k ≤ top blocks.
Proof.
  intros Hb%elem_of_map_to_list. unfold top. induction (map_to_list blocks) as [|e l IH]; [by apply elem_of_nil in Hb|].
  apply list.elem_of_cons in Hb as [<-|Hb]; cbn; [lia|]. specialize (IH Hb). lia.
Qed.
Lemma top_nonneg blocks : 0 ≤ top blocks.
Proof. unfold top. induction (map_to_list blocks) as [|e l IH]; cbn; lia. Qed.
#[export] Instance bump_spec : MallocSpec.
Proof.
  intros blocks n p Hn. unfold malloc_at, bump_malloc. set (q := (top blocks + 15) / 16).
  destruct (Z.ltb_spec (16 * q + 16 + n) (2 ^ 40)); [|done]. intros [= <-].
  pose proof (top_nonneg blocks). pose proof (Z.div_mod (top blocks + 15) 16 ltac:(lia)) as Hdm. fold q in Hdm.
  pose proof (Z.mod_pos_bound (top blocks + 15) 16 ltac:(lia)). split_and!; [lia|exists (q + 1); lia|lia|].
  intros b k Hb. pose proof (top_ge blocks b k Hb). lia.
Qed.
End Bump.
Import Bump.

(** Calls that keep to the interface *)
#[export] Instance can_dec MAXALIGN s o : Decision (can MAXALIGN s o).
Proof. destruct o; cbn; unfold sensible; apply _. Defined.
Fixpoint calls (MAXALIGN : option Z) (l : list (Z * op)) (s : running) : option running :=
  match l with
  | [] => Some s
  | (t, o) :: l => if decide (can MAXALIGN s o) then s ← step MAXALIGN s t o; calls MAXALIGN l s else None
  end.
Lemma calls_reachable MAXALIGN l : ∀ s s',
  calls MAXALIGN l s = Some s' → reachable MAXALIGN s → reachable MAXALIGN s'.
Proof.
  induction l as [|[t o] l IH]; intros s s'; cbn [calls]; [by intros [= <-]|].
  destruct (decide (can MAXALIGN s o)) as [Hcan|]; [|done].
  destruct (step MAXALIGN s t o) as [s1|] eqn:E; [|done]. cbn [mbind option_bind]. intros H Hr.
  apply (IH s1 s' H). eapply rtc_r; [exact Hr|]. exists t, o. done.
Qed.

(** Two threads: thread 1 fills three chunks and disposes of its arena while
    thread 2 uses another, and thread 1 reuses what it freed. *)
Definition demo_begun : list (Z * op) :=
  [(1, O_new); (1, O_alloc 16 20000); (2, O_new); (1, O_calloc 16 4 9); (1, O_alloc 16 30000); (2, O_alloc 30352 5)].
Definition demo_calls : list (Z * op) :=
  demo_begun ++ [(2, O_write 70737 [1; 2; 3]); (1, O_dispose 16); (1, O_new); (1, O_alloc 81024 100); (2, O_free 30352)].
Definition demo_at (l : list (Z * op)) : running := default start (calls (Some 32) l start).
Definition demo_state : running := Eval vm_compute in demo_at demo_begun.
Definition demo_end : running := Eval vm_compute in demo_at demo_calls.

Lemma arena_demo_reachable : reachable (Some 32) demo_state ∧ reachable (Some 32) demo_end.
Proof.
  split.
  - refine (calls_reachable (Some 32) demo_begun start _ _ (rtc_refl _ _)). vm_compute. reflexivity.
  - refine (calls_reachable (Some 32) demo_calls start _ _ (rtc_refl _ _)). vm_compute. reflexivity.
Qed.

Lemma arena_safe_witness :
  length (given demo_state) = 4%nat ∧ ForallOrdPairs separate (given demo_state) ∧
  is_Some (step (Some 32) demo_state 1 (O_dispose 16)).
Proof.
  destruct arena_demo_reachable as [Hr _].
  destruct (arena_safe (Some 32) demo_state ltac:(done) ltac:(done) Hr) as (Hstep & Hap & _).
  split; [vm_compute; reflexivity|]. split; [exact Hap|]. apply Hstep. vm_compute. reflexivity.
Defined.

Lemma arena_keeps_contents_witness :
  keeps demo_state (O_dispose 16) (default start (step (Some 32) demo_state 1 (O_dispose 16))).
Proof.
  destruct arena_demo_reachable as [Hr _].
  eapply (arena_keeps_contents (Some 32) demo_state _ 1); [done|done|exact Hr| |vm_compute; reflexivity].
  vm_compute. reflexivity.
Defined.

Lemma arena_no_leak_witness :
  70704 ∈ live demo_end ∨
  (∃ a p, a ∈ live demo_end ∧ load64 (rmem demo_end) a = Some p ∧
     70704 ∈ chain (rmem demo_end) (size (blocks (rmem demo_end))) p) ∨
  ∃ t, 70704 ∈ chain (rmem demo_end) (Z.to_nat THRESHOLD) (get_freechunks t (rmem demo_end)) ∧
    get_nfree t (rmem demo_end) =
      Z.of_nat (length (chain (rmem demo_end) (Z.to_nat THRESHOLD) (get_freechunks t (rmem demo_end)))).
Proof.
  destruct arena_demo_reachable as [_ Hr].
  apply (arena_no_leak (Some 32) demo_end 70704 10304); [done|done|exact Hr|vm_compute; reflexivity].
Defined.
(** The block freed by thread 2 is on its list; thread 1 has reused one. *)
Example demo_lists :
  chain (rmem demo_end) 10 (get_freechunks 1 (rmem demo_end)) = [30400] ∧
  chain (rmem demo_end) 10 (get_freechunks 2 (rmem demo_end)) = [70704] ∧
  given demo_end = [(81024, 96, 100)].
Proof. split_and!; vm_compute; reflexivity. Qed.

Lemma default_header_corrupts_witness : ∃ m, Arena_free 1 16 m = None.
Proof.
  eexists. eapply (default_header_corrupts 1 16 8 80 0 65);
    [vm_compute; reflexivity|split; done|vm_compute; reflexivity|done|done|done|vm_compute; reflexivity].
Defined.
