(* ===== verification/HashTable.v ===== *)
(** * HashTable: the hash tables and hash sets of the core library

    Models [src/corelib/arenatable.c], [src/corelib/table.c] (which only
    forwards to it), [src/corelib/set.c], [src/corelib/SKeyTable.c] and
    [src/corelib/Oec_IdSet.c].  A table is an array of bucket chains; a chain
    is a list, newest node first.  The comparison and hash functions a table
    is created with are an instance of [KeyOps]: two keys are the same to the
    table when [cmp] gives 0, that is when they have the same class, and the
    tables are proved to implement finite maps from classes. *)

From S2P Require Import Prelude Values.

(** ** The key interface *)

Class KeyOps (K C : Type) `{Countable C} := {
  kcmp : K → K → Z;
  khash : K → Z;
  kcls : K → C;
  kcmp_zero : ∀ x y, kcmp x y = 0 ↔ kcls x = kcls y;
  khash_kcls : ∀ x y, kcls x = kcls y → khash x = khash y;
  khash_nonneg : ∀ x, 0 ≤ khash x
}.

(** ** Chains and bucket arrays, for entries of any shape *)
Section Chains.
Context {E : Type}.

Fixpoint chain_find (same : E → bool) (b : list E) : option E :=
  match b with
  | [] => None
  | p :: link => if same p then Some p else chain_find same link
  end.

Fixpoint chain_replace (same : E → bool) (upd : E → E) (b : list E) : list E :=
  match b with
  | [] => []
  | p :: link => if same p then upd p :: link else p :: chain_replace same upd link
  end.

Fixpoint chain_remove (same : E → bool) (b : list E) : list E :=
  match b with
  | [] => []
  | p :: link => if same p then link else p :: chain_remove same link
  end.

(** The entries a walk looks at, up to the one it finds, satisfy [live]. *)
Fixpoint chain_reads (same live : E → bool) (b : list E) : bool :=
  match b with
  | [] => true
  | p :: link => live p && (same p || chain_reads same live link)
  end.

Lemma chain_reads_all same live b : (∀ e, e ∈ b → live e = true) → chain_reads same live b = true.
Proof.
  induction b as [|p b IH]; cbn; [done|]. intros H. rewrite H by left. cbn. apply orb_true_iff. right.
  apply IH. intros e He. apply H. by right.
Qed.

Lemma chain_find_Some same b e : chain_find same b = Some e → e ∈ b ∧ same e = true.
Proof.
  induction b as [|p b IH]; cbn; [done|]. destruct (same p) eqn:Ep; intros Hf.
  - simplify_eq. set_solver.
  - destruct (IH Hf). set_solver.
Qed.

Lemma chain_find_None same b e : chain_find same b = None → e ∈ b → same e = false.
Proof.
  induction b as [|p b IH]; cbn; [set_solver|]. destruct (same p) eqn:Ep; [done|].
  intros Hf. rewrite elem_of_cons. naive_solver.
Qed.

Lemma chain_split same b e :
  chain_find same b = Some e →
  ∃ b1 b2, b = b1 ++ e :: b2 ∧
    (∀ upd, chain_replace same upd b = b1 ++ upd e :: b2) ∧ chain_remove same b = b1 ++ b2.
Proof.
  induction b as [|p b IH]; cbn; [done|]. destruct (same p); intros Hf.
  - simplify_eq. by exists [], b.
  - destruct (IH Hf) as (b1 & b2 & -> & Hr & ->). exists (p :: b1), b2.
    split_and!; [done| |done]. intros upd. by rewrite Hr.
Qed.

End Chains.

Section Buckets.
Context {E C : Type} `{Countable C} (cls : E → C) (slot : E → nat).

(** The entries hang in the bucket of their class, one per class. *)
Record buckets_wf (bs : list (list E)) : Prop := {
  bw_slot : ∀ i b e, bs !! i = Some b → e ∈ b → slot e = i;
  bw_nodup : NoDup (cls <$> concat bs)
}.

Definition bmap (bs : list (list E)) : gmap C E :=
  list_to_map ((λ e, (cls e, e)) <$> concat bs).

Lemma fst_entries (l : list E) : ((λ e, (cls e, e)) <$> l).*1 = cls <$> l.
Proof. rewrite <-list_fmap_compose. by apply list_fmap_ext. Qed.

Lemma bmap_lookup bs c e :
  buckets_wf bs → bmap bs !! c = Some e ↔ e ∈ concat bs ∧ cls e = c.
Proof.
  intros [_ Hn]. unfold bmap. rewrite <-elem_of_list_to_map by (by rewrite fst_entries).
  rewrite list_elem_of_fmap. naive_solver.
Qed.

Lemma elem_of_concat_lookup (bs : list (list E)) e :
  e ∈ concat bs ↔ ∃ i b, bs !! i = Some b ∧ e ∈ b.
Proof.
  rewrite list_elem_of_In, in_concat. split.
  - intros (b & Hb & He). apply list_elem_of_In, list_elem_of_lookup in Hb as [i Hi].
    exists i, b. by rewrite list_elem_of_In.
  - intros (i & b & Hi & He). exists b. rewrite <-!list_elem_of_In.
    split; [|done]. apply list_elem_of_lookup. eauto.
Qed.

(** Splitting the array at one bucket. *)
Lemma concat_split (bs : list (list E)) i b :
  bs !! i = Some b →
  ∃ l1 l2, concat bs = l1 ++ b ++ l2 ∧ ∀ b', concat (<[i := b']> bs) = l1 ++ b' ++ l2.
Proof.
  intros Hi. exists (concat (take i bs)), (concat (drop (S i) bs)). split.
  - rewrite <-(take_drop_middle bs i b Hi) at 1. by rewrite concat_app.
  - intros b'. pose proof (lookup_lt_Some _ _ _ Hi).
    rewrite insert_take_drop by done. by rewrite concat_app.
Qed.

(** One key: its class, the test the chain walk uses, and its bucket. *)
Context (c : C) (same : E → bool) (ci : nat).
Context (Hsame : ∀ e, same e = true ↔ cls e = c) (Hslot : ∀ e, cls e = c → slot e = ci).

Lemma find_bmap bs b :
  buckets_wf bs → bs !! ci = Some b → chain_find same b = bmap bs !! c.
Proof using Hsame Hslot.
  intros Hwf Hb. destruct (chain_find same b) as [e|] eqn:Hf; symmetry.
  - apply chain_find_Some in Hf as [He Hc]. apply bmap_lookup; [done|].
    rewrite <-Hsame. split; [|done]. apply elem_of_concat_lookup. eauto.
  - apply eq_None_not_Some. intros [e He]. apply bmap_lookup in He as [He Hc]; [|done].
    apply elem_of_concat_lookup in He as (i & b' & Hi & He).
    pose proof (bw_slot _ Hwf _ _ _ Hi He) as Hs. rewrite (Hslot _ Hc) in Hs. simplify_eq.
    pose proof (chain_find_None _ _ _ Hf He). by rewrite (proj2 (Hsame e) eq_refl) in *.
Qed.

Definition emap (l : list E) : gmap C E := list_to_map ((λ e, (cls e, e)) <$> l).

Lemma emap_perm l k : NoDup (cls <$> l) → l ≡ₚ k → emap l = emap k.
Proof.
  intros Hn Hp. apply list_to_map_proper; [by rewrite fst_entries|].
  by apply Permutation_map.
Qed.

Lemma wf_update bs i b b' :
  buckets_wf bs → bs !! i = Some b →
  (∀ e, e ∈ b' → slot e = i) → NoDup (cls <$> concat (<[i := b']> bs)) →
  buckets_wf (<[i := b']> bs).
Proof.
  intros [Hs _] Hi Hb Hnd. split; [|done].
  intros j bj e. rewrite list_lookup_insert_Some. naive_solver.
Qed.

Lemma emap_cons e l : emap (e :: l) = <[cls e := e]> (emap l).
Proof. done. Qed.

Lemma NoDup_cls_perm l k : l ≡ₚ k → NoDup (cls <$> l) → NoDup (cls <$> k).
Proof. by intros ->. Qed.

Lemma insert_fresh bs b e :
  buckets_wf bs → bs !! ci = Some b → cls e = c → bmap bs !! c = None →
  buckets_wf (<[ci := e :: b]> bs) ∧
  bmap (<[ci := e :: b]> bs) = <[c := e]> (bmap bs) ∧
  length (concat (<[ci := e :: b]> bs)) = S (length (concat bs)).
Proof using Hsame Hslot.
  intros Hwf Hb Hc Hnone.
  destruct (concat_split bs (ci) b Hb) as (l1 & l2 & E1 & E2).
  assert (concat (<[ci := e :: b]> bs) ≡ₚ e :: concat bs) as Hperm.
  { rewrite E2, E1. solve_Permutation. }
  assert (NoDup (cls <$> e :: concat bs)) as Hnd.
  { cbn. constructor; [|apply Hwf]. rewrite Hc. intros Hin.
    apply list_elem_of_fmap in Hin as (x & Hx & Hin).
    apply eq_None_not_Some in Hnone as []. exists x. by apply bmap_lookup. }
  assert (NoDup (cls <$> concat (<[ci := e :: b]> bs))) as Hnd'.
  { by eapply NoDup_cls_perm. }
  split_and!.
  - eapply wf_update; [done..| |done].
    intros x [->|Hx]%elem_of_cons; [by apply Hslot|by eapply bw_slot].
  - rewrite <-Hc. by apply (emap_perm _ (e :: concat bs)).
  - by rewrite Hperm.
Qed.

Lemma replace_found bs b p upd :
  buckets_wf bs → bs !! ci = Some b → chain_find same b = Some p → cls (upd p) = c →
  buckets_wf (<[ci := chain_replace same upd b]> bs) ∧
  bmap (<[ci := chain_replace same upd b]> bs) = <[c := upd p]> (bmap bs) ∧
  length (concat (<[ci := chain_replace same upd b]> bs)) = length (concat bs).
Proof using Hsame Hslot.
  intros Hwf Hb Hf Hu. pose proof (chain_find_Some _ _ _ Hf) as [_ Hc].
  rewrite Hsame in Hc. destruct (chain_split _ _ _ Hf) as (b1 & b2 & Eb & -> & _).
  destruct (concat_split bs (ci) b Hb) as (l1 & l2 & E1 & E2).
  set (rest := l1 ++ b1 ++ b2 ++ l2).
  assert (concat bs ≡ₚ p :: rest) as Hp0 by (rewrite E1, Eb; unfold rest; solve_Permutation).
  assert (concat (<[ci := b1 ++ upd p :: b2]> bs) ≡ₚ upd p :: rest) as Hp1.
  { rewrite E2. unfold rest. solve_Permutation. }
  assert (NoDup (cls <$> p :: rest)) as Hn by (eapply NoDup_cls_perm, Hwf; done).
  assert (NoDup (cls <$> concat (<[ci := b1 ++ upd p :: b2]> bs))) as Hn'.
  { eapply NoDup_cls_perm; [symmetry; done|]. cbn in *. by rewrite Hu, <-Hc. }
  split_and!.
  - eapply wf_update; [done..| |done]. intros e He.
    apply elem_of_app in He as [He|[->|He]%elem_of_cons]; [|by apply Hslot|];
      (eapply bw_slot; [done..|set_solver]).
  - trans (emap (upd p :: rest)); [by apply emap_perm|].
    trans (<[c := upd p]> (emap (p :: rest))).
    + rewrite !emap_cons, Hu, Hc. by rewrite insert_insert_eq.
    + f_equal. symmetry. apply emap_perm; [apply Hwf|done].
  - by rewrite Hp1, Hp0.
Qed.

Lemma remove_found bs b p :
  buckets_wf bs → bs !! ci = Some b → chain_find same b = Some p →
  buckets_wf (<[ci := chain_remove same b]> bs) ∧
  bmap (<[ci := chain_remove same b]> bs) = delete c (bmap bs) ∧
  S (length (concat (<[ci := chain_remove same b]> bs))) = length (concat bs).
Proof using Hsame Hslot.
  intros Hwf Hb Hf. pose proof (chain_find_Some _ _ _ Hf) as [_ Hc].
  rewrite Hsame in Hc. destruct (chain_split _ _ _ Hf) as (b1 & b2 & Eb & _ & ->).
  destruct (concat_split bs (ci) b Hb) as (l1 & l2 & E1 & E2).
  set (rest := l1 ++ b1 ++ b2 ++ l2).
  assert (concat bs ≡ₚ p :: rest) as Hp0 by (rewrite E1, Eb; unfold rest; solve_Permutation).
  assert (concat (<[ci := b1 ++ b2]> bs) = rest) as Hp1.
  { rewrite E2. unfold rest. by rewrite <-!app_assoc. }
  assert (NoDup (cls <$> p :: rest)) as Hn by (eapply NoDup_cls_perm, Hwf; done).
  cbn in Hn. pose proof (NoDup_cons_1_1 _ _ Hn) as Hni. apply NoDup_cons_1_2 in Hn.
  split_and!.
  - eapply wf_update; [done..| |by rewrite Hp1]. intros e He.
    eapply bw_slot; [done..|]. set_solver.
  - unfold bmap at 1. rewrite Hp1. fold (emap rest).
    trans (delete c (emap (p :: rest))).
    + rewrite emap_cons, Hc. rewrite delete_insert_id; [done|].
      apply not_elem_of_list_to_map_1. by rewrite fst_entries, <-Hc.
    + f_equal. symmetry. apply emap_perm; [apply Hwf|done].
  - by rewrite Hp0, Hp1.
Qed.
End Buckets.

(** ** arenatable.c *)
Module ArenaTable.

Section Table.
Context {K C V : Type} `{KeyOps K C}.

Record ArenaTable_T := mkTable {
  size : Z;
  length_ : Z;
  timestamp : Z;
  buckets : list (list (K * V))
}.

Definition primes : list Z :=
  [509; 509; 1021; 2053; 4093; 8191; 16381; 32771; 65521; 2147483647].

(** [for (i = 1; primes[i] < hint; i++)], then [primes[i - 1]]. *)
Fixpoint prime_below (prev : Z) (ps : list Z) (hint : Z) : Z :=
  match ps with
  | [] => prev
  | p :: ps => if p <? hint then prime_below p ps hint else prev
  end.

Definition table_size (hint : Z) : Z := prime_below 509 (tail primes) hint.

Definition ArenaTable_new (hint : Z) : option ArenaTable_T :=
  c_assert (0 <=? hint);;
  Some (mkTable (table_size hint) 0 0 (replicate (Z.to_nat (table_size hint)) [])).

Definition slot_of (t : ArenaTable_T) (key : K) : nat := Z.to_nat (khash key mod size t).
Definition chain_of (t : ArenaTable_T) (key : K) : list (K * V) :=
  default [] (buckets t !! slot_of t key).
Definition same (key : K) (p : K * V) : bool := kcmp key p.1 =? 0.

Definition ArenaTable_get (t : ArenaTable_T) (key : K) : option V :=
  snd <$> chain_find (same key) (chain_of t key).

(** [put] gives the previous value; a binding that exists keeps its key. *)
Definition ArenaTable_put (t : ArenaTable_T) (key : K) (value : V) : ArenaTable_T * option V :=
  let i := slot_of t key in
  match chain_find (same key) (chain_of t key) with
  | None =>
    (mkTable (size t) (length_ t + 1) (u32 (timestamp t + 1))
       (<[i := (key, value) :: chain_of t key]> (buckets t)), None)
  | Some p =>
    (mkTable (size t) (length_ t) (u32 (timestamp t + 1))
       (<[i := chain_replace (same key) (λ p, (p.1, value)) (chain_of t key)]> (buckets t)), Some p.2)
  end.

Definition ArenaTable_length (t : ArenaTable_T) : Z := length_ t.

Definition ArenaTable_remove (t : ArenaTable_T) (key : K) : ArenaTable_T * option V :=
  let i := slot_of t key in
  match chain_find (same key) (chain_of t key) with
  | None => (mkTable (size t) (length_ t) (u32 (timestamp t + 1)) (buckets t), None)
  | Some p =>
    (mkTable (size t) (length_ t - 1) (u32 (timestamp t + 1))
       (<[i := chain_remove (same key) (chain_of t key)]> (buckets t)), Some p.2)
  end.

(** [toArray]: key, value, key, value, ... bucket by bucket. *)
Definition ArenaTable_toArray (t : ArenaTable_T) : list (K * V) := concat (buckets t).

(** [map] applies a function to each value in place; the assertion that
    [apply] did not touch the table holds of a function of the value. *)
Definition ArenaTable_map (t : ArenaTable_T) (apply : K → V → V) : ArenaTable_T :=
  mkTable (size t) (length_ t) (timestamp t)
    (map (map (λ p : K * V, (p.1, apply p.1 p.2))) (buckets t)).

(** *** The table as a finite map *)

Definition ecls (p : K * V) : C := kcls p.1.

Definition eslot (t : ArenaTable_T) (p : K * V) : nat := slot_of t p.1.

Record table_wf (t : ArenaTable_T) : Prop := {
  tw_size : 0 < size t;
  tw_buckets : length (buckets t) = Z.to_nat (size t);
  tw_wf : buckets_wf ecls (eslot t) (buckets t);
  tw_length : length_ t = Z.of_nat (length (concat (buckets t)))
}.

Definition tmap (t : ArenaTable_T) : gmap C V := snd <$> bmap ecls (buckets t).

Lemma table_same_spec key p : same key p = true ↔ ecls p = kcls key.
Proof.
  unfold same, ecls. rewrite Z.eqb_eq, kcmp_zero. split; congruence.
Qed.

Lemma eslot_cls t key p : ecls p = kcls key → eslot t p = slot_of t key.
Proof. intros E. unfold eslot, slot_of. by rewrite (khash_kcls p.1 key E). Qed.

Lemma table_chain_lookup t key : table_wf t → buckets t !! slot_of t key = Some (chain_of t key).
Proof.
  intros [Hs Hb _ _]. unfold chain_of. destruct (lookup_lt_is_Some_2 (buckets t) (slot_of t key)) as [b Hl].
  { rewrite Hb. unfold slot_of. pose proof (Z.mod_pos_bound (khash key) (size t) Hs). lia. }
  by rewrite Hl.
Qed.

Lemma find_entry t key :
  table_wf t → chain_find (same key) (chain_of t key) = bmap ecls (buckets t) !! kcls key.
Proof.
  intros Hwf. eapply find_bmap; eauto using tw_wf, table_chain_lookup, table_same_spec, eslot_cls.
Qed.

Lemma table_size_pos hint : 0 < table_size hint.
Proof.
  unfold table_size. cbn [tail primes].
  assert (∀ ps prev, 0 < prev → Forall (Z.lt 0) ps → 0 < prime_below prev ps hint) as Hp.
  { induction ps as [|p ps IH]; intros prev Hpr Hall; cbn; [done|].
    inversion Hall; subst. case_match; auto. }
  apply Hp; [lia|]. repeat constructor; lia.
Qed.

Lemma concat_replicate_nil {A} n : concat (replicate n ([] : list A)) = [].
Proof. by induction n. Qed.

Lemma table_new_wf hint t : ArenaTable_new hint = Some t → table_wf t ∧ tmap t = ∅.
Proof.
  unfold ArenaTable_new. destruct (0 <=? hint); intros Hn; simplify_option_eq.
  unfold tmap, bmap. cbn. rewrite concat_replicate_nil. split; [|reflexivity].
  split; cbn.
  - apply table_size_pos.
  - by rewrite length_replicate.
  - split; [|rewrite concat_replicate_nil; constructor].
    intros i b e [-> _]%lookup_replicate. set_solver.
  - by rewrite concat_replicate_nil.
Qed.

Lemma table_get_spec t key : table_wf t → ArenaTable_get t key = tmap t !! kcls key.
Proof. intros Hwf. unfold ArenaTable_get, tmap. by rewrite find_entry, lookup_fmap. Qed.

Lemma put_spec t key v :
  table_wf t →
  table_wf (ArenaTable_put t key v).1 ∧
  tmap (ArenaTable_put t key v).1 = <[kcls key := v]> (tmap t) ∧
  (ArenaTable_put t key v).2 = tmap t !! kcls key.
Proof.
  intros Hwf. pose proof (table_chain_lookup t key Hwf) as Hb.
  pose proof (find_entry t key Hwf) as Hf. unfold ArenaTable_put, tmap at 3.
  rewrite lookup_fmap, <-Hf. destruct Hwf as [Hs Hlen Hbw Hl].
  destruct (chain_find (same key) (chain_of t key)) as [p|] eqn:Ef; cbn [fst snd].
  - edestruct (replace_found ecls (eslot t) (kcls key) (same key) (slot_of t key)) with
      (upd := λ p : K * V, (p.1, v)) as (Hw & Hm & Hn);
      eauto using table_same_spec, eslot_cls.
    { apply chain_find_Some in Ef as [_ ?]. by apply table_same_spec. }
    split_and!; [split; cbn; [done|by rewrite length_insert|done|congruence]| |done].
    unfold tmap; cbn [fst buckets]. by rewrite Hm, fmap_insert.
  - edestruct (insert_fresh ecls (eslot t) (kcls key) (same key) (slot_of t key)) with
      (e := (key, v)) as (Hw & Hm & Hn); eauto using table_same_spec, eslot_cls.
    split_and!; [split; cbn; [done|by rewrite length_insert|done|lia]| |done].
    unfold tmap; cbn [fst buckets]. by rewrite Hm, fmap_insert.
Qed.

Lemma remove_spec t key :
  table_wf t →
  table_wf (ArenaTable_remove t key).1 ∧
  tmap (ArenaTable_remove t key).1 = delete (kcls key) (tmap t) ∧
  (ArenaTable_remove t key).2 = tmap t !! kcls key.
Proof.
  intros Hwf. pose proof (table_chain_lookup t key Hwf) as Hb.
  pose proof (find_entry t key Hwf) as Hf. unfold ArenaTable_remove, tmap at 3.
  rewrite lookup_fmap, <-Hf. destruct Hwf as [Hs Hlen Hbw Hl].
  destruct (chain_find (same key) (chain_of t key)) as [p|] eqn:Ef; cbn [fst snd].
  - edestruct (remove_found ecls (eslot t) (kcls key) (same key) (slot_of t key))
      as (Hw & Hm & Hn); eauto using table_same_spec, eslot_cls.
    split_and!; [split; cbn; [done|by rewrite length_insert|done|lia]| |done].
    unfold tmap; cbn [fst buckets]. by rewrite Hm, fmap_delete.
  - split_and!; [by split| |done]. unfold tmap; cbn [fst buckets]. rewrite <-fmap_delete.
    by rewrite delete_id by (by rewrite <-Hf).
Qed.

(** The entries themselves, with the keys that are kept *)
Lemma put_entries t key v :
  table_wf t → bmap ecls (buckets t) !! kcls key = None →
  bmap ecls (buckets (ArenaTable_put t key v).1) = <[kcls key := (key, v)]> (bmap ecls (buckets t)).
Proof.
  intros Hwf Hn. pose proof (table_chain_lookup t key Hwf) as Hb. unfold ArenaTable_put.
  rewrite find_entry, Hn by done. cbn [fst buckets]. destruct Hwf as [_ _ Hbw _].
  edestruct (insert_fresh ecls (eslot t) (kcls key) (same key) (slot_of t key)) with
    (e := (key, v)) as (_ & Hm & _); eauto using table_same_spec, eslot_cls.
Qed.
Lemma remove_entries t key :
  table_wf t → bmap ecls (buckets (ArenaTable_remove t key).1) = delete (kcls key) (bmap ecls (buckets t)).
Proof.
  intros Hwf. pose proof (table_chain_lookup t key Hwf) as Hb. pose proof (find_entry t key Hwf) as Hf.
  unfold ArenaTable_remove. destruct Hwf as [_ _ Hbw _].
  destruct (chain_find (same key) (chain_of t key)) as [p|] eqn:Ef; cbn [fst buckets].
  - edestruct (remove_found ecls (eslot t) (kcls key) (same key) (slot_of t key))
      as (_ & Hm & _); eauto using table_same_spec, eslot_cls.
  - by rewrite delete_id.
Qed.
Lemma chain_entries t key p : table_wf t → p ∈ chain_of t key → bmap ecls (buckets t) !! ecls p = Some p.
Proof.
  intros Hwf Hp. apply (bmap_lookup ecls (eslot t)); [apply Hwf|]. split; [|done]. apply elem_of_concat_lookup.
  exists (slot_of t key), (chain_of t key). split; [by apply table_chain_lookup|done].
Qed.

(** The keys a lookup reads, and that a table has no others than were put. *)
Definition table_reads (live : K → bool) (t : ArenaTable_T) (key : K) : bool :=
  chain_reads (same key) (λ p, live p.1) (chain_of t key).
Definition table_keys (t : ArenaTable_T) : list K := (ArenaTable_toArray t).*1.

Lemma chain_key t key p : table_wf t → p ∈ chain_of t key → p.1 ∈ table_keys t.
Proof.
  intros Hwf Hp. apply list_elem_of_fmap_2, elem_of_concat_lookup.
  exists (slot_of t key), (chain_of t key). split; [by apply table_chain_lookup|done].
Qed.
Lemma table_reads_all live t key :
  table_wf t → (∀ k, k ∈ table_keys t → live k = true) → table_reads live t key = true.
Proof. intros Hwf Hl. apply chain_reads_all. intros e He. by eapply Hl, chain_key. Qed.

(** A walk for the class of a key of the table reads that key. *)
Lemma table_reads_meets live t key k :
  table_wf t → k ∈ table_keys t → kcls key = kcls k → live k = false → table_reads live t key = false.
Proof.
  intros Hwf Hk Hc Hl. apply list_elem_of_fmap in Hk as (e & -> & He).
  apply elem_of_concat_lookup in He as (i & b & Hi & He).
  assert (slot_of t key = i) as Es.
  { rewrite <-(bw_slot _ _ _ (tw_wf _ Hwf) _ _ _ Hi He). symmetry. apply eslot_cls. done. }
  unfold table_reads, chain_of. rewrite Es, Hi. cbn [default from_option id].
  pose proof (bw_nodup _ _ _ (tw_wf _ Hwf)) as Hnd. destruct (concat_split _ _ _ Hi) as (l1 & l2 & E & _).
  rewrite E, !fmap_app in Hnd. apply list.NoDup_app in Hnd as (_ & _ & Hnd). apply list.NoDup_app in Hnd as (Hnd & _ & _).
  clear Hi E. induction b as [|x b IH]; [by apply not_elem_of_nil in He|]. cbn.
  apply elem_of_cons in He as [->|He]; [by rewrite Hl|].
  destruct (same key x) eqn:Ex.
  - exfalso. apply table_same_spec in Ex. cbn in Hnd. apply NoDup_cons_1_1 in Hnd. apply Hnd.
    rewrite Ex, Hc. change (kcls e.1) with (ecls e). by apply list_elem_of_fmap_2.
  - cbn. rewrite IH; [apply andb_false_r|done|]. cbn in Hnd. by apply NoDup_cons_1_2 in Hnd.
Qed.

Lemma bucket_update_keys (t : ArenaTable_T) key b' k :
  table_wf t → k ∈ (concat (<[slot_of t key := b']> (buckets t))).*1 → k ∈ table_keys t ∨ k ∈ b'.*1.
Proof.
  intros Hwf. destruct (concat_split _ _ _ (table_chain_lookup t key Hwf)) as (l1 & l2 & E1 & E2).
  rewrite E2. unfold table_keys, ArenaTable_toArray. rewrite E1, !fmap_app, !elem_of_app. naive_solver.
Qed.
Lemma put_keys t key v k :
  table_wf t → k ∈ table_keys (ArenaTable_put t key v).1 → k = key ∨ k ∈ table_keys t.
Proof.
  intros Hwf. unfold ArenaTable_put. destruct (chain_find _ _) as [p|] eqn:Ef; unfold table_keys at 1, ArenaTable_toArray;
    cbn [fst buckets]; intros [Hk|Hk]%bucket_update_keys; auto.
  - destruct (chain_split _ _ _ Ef) as (b1 & b2 & Eb & Hr & _). rewrite Hr in Hk. right.
    apply list_elem_of_fmap in Hk as (x & -> & Hx).
    assert (x.1 ∈ (chain_of t key).*1) as (y & E & Hy)%list_elem_of_fmap.
    { rewrite Eb. set_solver. }
    rewrite E. by eapply chain_key.
  - apply elem_of_cons in Hk as [->|(x & -> & Hx)%list_elem_of_fmap]; [by left|right]. by eapply chain_key.
Qed.
Lemma remove_keys t key k : table_wf t → k ∈ table_keys (ArenaTable_remove t key).1 → k ∈ table_keys t.
Proof.
  intros Hwf. unfold ArenaTable_remove. destruct (chain_find _ _) as [p|] eqn:Ef; [|done].
  unfold table_keys at 1, ArenaTable_toArray. cbn [fst buckets]. intros [Hk|Hk]%bucket_update_keys; [done| |done].
  destruct (chain_split _ _ _ Ef) as (b1 & b2 & Eb & _ & Hr). rewrite Hr in Hk.
  apply list_elem_of_fmap in Hk as (x & -> & Hx). eapply chain_key; [done|]. rewrite Eb. set_solver.
Qed.

(** The values under their classes, and how many there are. *)
Lemma toArray_spec t :
  table_wf t →
  length_ t = Z.of_nat (base.size (tmap t)) ∧
  (λ p : K * V, (kcls p.1, p.2)) <$> ArenaTable_toArray t ≡ₚ map_to_list (tmap t).
Proof.
  intros [Hs Hlen [Hsl Hn] Hl]. unfold tmap, bmap.
  set (es := concat (buckets t)) in *. change (ecls <$> es) with (ecls <$> es) in Hn.
  assert (map_to_list (list_to_map ((λ e : K * V, (ecls e, e)) <$> es) : gmap C (K * V)) ≡ₚ
          (λ e : K * V, (ecls e, e)) <$> es) as Hm.
  { apply map_to_list_to_map. by rewrite (fst_entries ecls es). }
  split.
  - rewrite map_size_fmap, <-length_map_to_list, Hm, length_fmap. done.
  - rewrite map_to_list_fmap, Hm, <-list_fmap_compose. done.
Qed.

(** A table is a finite map from key classes: a new table is empty, [put]
    binds the key's class and returns the previous value, [get] reads it,
    [remove] unbinds it and returns what was there, and every operation keeps
    the table well formed and leaves the other classes alone. *)
Theorem table_is_map t key key' v :
  table_wf t →
  table_wf (ArenaTable_put t key v).1 ∧ table_wf (ArenaTable_remove t key).1 ∧
  (ArenaTable_put t key v).2 = ArenaTable_get t key ∧
  (ArenaTable_remove t key).2 = ArenaTable_get t key ∧
  ArenaTable_get (ArenaTable_put t key v).1 key' =
    (if decide (kcls key = kcls key') then Some v else ArenaTable_get t key') ∧
  ArenaTable_get (ArenaTable_remove t key).1 key' =
    (if decide (kcls key = kcls key') then None else ArenaTable_get t key') ∧
  ArenaTable_length t = Z.of_nat (base.size (tmap t)).
Proof.
  intros Hwf. destruct (put_spec t key v Hwf) as (W1 & M1 & R1).
  destruct (remove_spec t key Hwf) as (W2 & M2 & R2). destruct (toArray_spec t Hwf) as [L _].
  rewrite !table_get_spec by done. rewrite M1, M2, lookup_insert, lookup_delete. by split_and!.
Qed.

End Table.
End ArenaTable.

(** ** set.c *)
Module HSet.

Section HSet.
Context {A C : Type} `{KeyOps A C}.

Record Set_T := mkSet {
  size : Z;
  length_ : Z;
  timestamp : Z;
  buckets : list (list A)
}.

Definition Set_new (hint : Z) : option Set_T :=
  c_assert (0 <=? hint);;
  Some (mkSet (ArenaTable.table_size hint) 0 0
          (replicate (Z.to_nat (ArenaTable.table_size hint)) [])).

Definition slot_of (s : Set_T) (m : A) : nat := Z.to_nat (khash m mod size s).
Definition chain_of (s : Set_T) (m : A) : list A := default [] (buckets s !! slot_of s m).
Definition same (m p : A) : bool := kcmp m p =? 0.

Definition Set_member (s : Set_T) (m : A) : bool :=
  bool_decide (is_Some (chain_find (same m) (chain_of s m))).

(** A member that exists is overwritten by the new pointer. *)
Definition Set_put (s : Set_T) (m : A) : Set_T :=
  match chain_find (same m) (chain_of s m) with
  | None =>
    mkSet (size s) (length_ s + 1) (u32 (timestamp s + 1))
      (<[slot_of s m := m :: chain_of s m]> (buckets s))
  | Some _ =>
    mkSet (size s) (length_ s) (u32 (timestamp s + 1))
      (<[slot_of s m := chain_replace (same m) (λ _, m) (chain_of s m)]> (buckets s))
  end.

Definition Set_remove (s : Set_T) (m : A) : Set_T * option A :=
  match chain_find (same m) (chain_of s m) with
  | None => (mkSet (size s) (length_ s) (u32 (timestamp s + 1)) (buckets s), None)
  | Some p =>
    (mkSet (size s) (length_ s - 1) (u32 (timestamp s + 1))
       (<[slot_of s m := chain_remove (same m) (chain_of s m)]> (buckets s)), Some p)
  end.

Definition Set_length (s : Set_T) : Z := length_ s.
Definition Set_toArray (s : Set_T) : list A := concat (buckets s).

(** The node insertion the copying operations share: no search, no stamp. *)
Definition link_member (s : Set_T) (m : A) : Set_T :=
  mkSet (size s) (length_ s + 1) (timestamp s)
    (<[slot_of s m := m :: chain_of s m]> (buckets s)).

Definition copy (t : Set_T) (hint : Z) : option Set_T :=
  set ← Set_new hint; Some (foldl link_member set (Set_toArray t)).

(** [NULL] arguments are [None]; two [NULL]s fail the assertion. *)
Definition Set_union (s t : option Set_T) : option Set_T :=
  match s, t with
  | None, None => None
  | None, Some t => copy t (size t)
  | Some s, None => copy s (size s)
  | Some s, Some t =>
    set ← copy s (Arith.Arith_max (size s) (size t)); Some (foldl Set_put set (Set_toArray t))
  end.

(** The members of [t] that pass [keep], linked into a new set. *)
Definition collect (set : Set_T) (keep : A → bool) (t : Set_T) : Set_T :=
  foldl link_member set (filter (λ m, keep m = true) (Set_toArray t)).

Definition Set_inter (s t : option Set_T) : option Set_T :=
  match s, t with
  | None, None => None
  | None, Some t => Set_new (size t)
  | Some s, None => Set_new (size s)
  | Some s, Some t =>
    let '(s, t) := if length_ s <? length_ t then (t, s) else (s, t) in
    set ← Set_new (Arith.Arith_min (size s) (size t)); Some (collect set (Set_member s) t)
  end.

Definition Set_minus (t s : option Set_T) : option Set_T :=
  match t, s with
  | None, None => None
  | None, Some s => Set_new (size s)
  | Some t, None => copy t (size t)
  | Some t, Some s =>
    set ← Set_new (Arith.Arith_min (size s) (size t));
    Some (collect set (λ m, negb (Set_member s m)) t)
  end.

Definition Set_diff (s t : option Set_T) : option Set_T :=
  match s, t with
  | None, None => None
  | None, Some t => copy t (size t)
  | Some s, None => copy s (size s)
  | Some s, Some t =>
    set ← Set_new (Arith.Arith_min (size s) (size t));
    Some (collect (collect set (λ m, negb (Set_member s m)) t)
            (λ m, negb (Set_member t m)) s)
  end.

(** *** The set as a finite map from classes to members *)

Record set_wf (s : Set_T) : Prop := {
  sw_size : 0 < size s;
  sw_buckets : length (buckets s) = Z.to_nat (size s);
  sw_wf : buckets_wf kcls (slot_of s) (buckets s);
  sw_length : length_ s = Z.of_nat (length (concat (buckets s)))
}.

Definition smap (s : Set_T) : gmap C A := bmap kcls (buckets s).

Lemma set_same_spec m p : same m p = true ↔ kcls p = kcls m.
Proof. unfold same. rewrite Z.eqb_eq, kcmp_zero. split; congruence. Qed.

Lemma slot_cls s m p : kcls p = kcls m → slot_of s p = slot_of s m.
Proof. intros E. unfold slot_of. by rewrite (khash_kcls p m E). Qed.

Lemma set_chain_lookup s m : set_wf s → buckets s !! slot_of s m = Some (chain_of s m).
Proof.
  intros [Hs Hb _ _]. unfold chain_of. destruct (lookup_lt_is_Some_2 (buckets s) (slot_of s m)) as [b Hl].
  { rewrite Hb. unfold slot_of. pose proof (Z.mod_pos_bound (khash m) (size s) Hs). lia. }
  by rewrite Hl.
Qed.

Lemma find_member s m :
  set_wf s → chain_find (same m) (chain_of s m) = smap s !! kcls m.
Proof.
  intros Hwf. eapply find_bmap; eauto using sw_wf, set_chain_lookup, set_same_spec, slot_cls.
Qed.

Lemma member_spec s m : set_wf s → Set_member s m = bool_decide (is_Some (smap s !! kcls m)).
Proof. intros Hwf. unfold Set_member. by rewrite find_member. Qed.

Lemma set_new_wf hint s : Set_new hint = Some s → set_wf s ∧ smap s = ∅.
Proof.
  unfold Set_new. destruct (0 <=? hint); intros Hn; simplify_option_eq.
  unfold smap, bmap. cbn. rewrite ArenaTable.concat_replicate_nil. split; [|reflexivity].
  split; cbn.
  - apply ArenaTable.table_size_pos.
  - by rewrite length_replicate.
  - split; [|rewrite ArenaTable.concat_replicate_nil; constructor].
    intros i b e [-> _]%lookup_replicate. set_solver.
  - by rewrite ArenaTable.concat_replicate_nil.
Qed.

Lemma link_spec s m :
  set_wf s → smap s !! kcls m = None →
  set_wf (link_member s m) ∧ smap (link_member s m) = <[kcls m := m]> (smap s).
Proof.
  intros Hwf Hn. pose proof (set_chain_lookup s m Hwf) as Hb. destruct Hwf as [Hs Hlen Hbw Hl].
  edestruct (insert_fresh kcls (slot_of s) (kcls m) (same m) (slot_of s m)) with (e := m)
    as (Hw & Hm & Hc); eauto using set_same_spec, slot_cls.
  split; [|done]. split; cbn; [done|by rewrite length_insert|done|lia].
Qed.

Lemma set_put_spec s m :
  set_wf s → set_wf (Set_put s m) ∧ smap (Set_put s m) = <[kcls m := m]> (smap s).
Proof.
  intros Hwf. pose proof (set_chain_lookup s m Hwf) as Hb. pose proof (find_member s m Hwf) as Hf.
  unfold Set_put. destruct (chain_find (same m) (chain_of s m)) as [p|] eqn:Ef.
  - destruct Hwf as [Hs Hlen Hbw Hl].
    edestruct (replace_found kcls (slot_of s) (kcls m) (same m) (slot_of s m)) with
      (upd := λ _ : A, m) as (Hw & Hm & Hn); eauto using set_same_spec, slot_cls.
    split; [|done]. split; cbn; [done|by rewrite length_insert|done|congruence].
  - destruct (link_spec s m Hwf (eq_sym Hf)) as [[] Hm]. by split.
Qed.

Lemma set_remove_spec s m :
  set_wf s →
  set_wf (Set_remove s m).1 ∧ smap (Set_remove s m).1 = delete (kcls m) (smap s) ∧
  (Set_remove s m).2 = smap s !! kcls m.
Proof.
  intros Hwf. pose proof (set_chain_lookup s m Hwf) as Hb. pose proof (find_member s m Hwf) as Hf.
  unfold Set_remove. destruct (chain_find (same m) (chain_of s m)) as [p|] eqn:Ef;
    destruct Hwf as [Hs Hlen Hbw Hl]; cbn [fst snd].
  - edestruct (remove_found kcls (slot_of s) (kcls m) (same m) (slot_of s m))
      as (Hw & Hm & Hn); eauto using set_same_spec, slot_cls.
    split_and!; [split; cbn; [done|by rewrite length_insert|done|lia]|done|done].
  - split_and!; [by split| |done]. unfold smap in *; cbn. by rewrite delete_id.
Qed.

(** Linking distinct new members, one after the other. *)
Lemma foldl_link l s :
  set_wf s → NoDup (kcls <$> l) → (∀ m, m ∈ l → smap s !! kcls m = None) →
  set_wf (foldl link_member s l) ∧
  ∀ c, smap (foldl link_member s l) !! c = (emap kcls l ∪ smap s) !! c.
Proof.
  revert s. induction l as [|m l IH]; intros s Hwf Hn Hd; cbn [foldl].
  { split; [done|]. intros c. change (emap kcls []) with (∅ : gmap C A). by rewrite (left_id_L ∅ (∪)). }
  cbn in Hn. pose proof (NoDup_cons_1_1 _ _ Hn) as Hni. apply NoDup_cons_1_2 in Hn.
  destruct (link_spec s m Hwf) as [Hw Hm]; [set_solver|].
  destruct (IH _ Hw Hn) as [Hw' Hl].
  { intros m' Hin. rewrite Hm, lookup_insert_ne; [set_solver|].
    intros Hc. apply Hni. rewrite Hc. by apply list_elem_of_fmap_2. }
  split; [done|]. intros c. rewrite Hl, Hm, emap_cons, <-insert_union_l.
  rewrite <-insert_union_r; [done|]. apply not_elem_of_list_to_map_1.
  by rewrite (fst_entries kcls l).
Qed.

Lemma NoDup_fmap_filter (P : A → Prop) `{!∀ m, Decision (P m)} l :
  NoDup (kcls <$> l) → NoDup (kcls <$> filter P l).
Proof.
  induction l as [|m l IH]; [done|]. intros Hn. cbn in Hn.
  pose proof (NoDup_cons_1_1 _ _ Hn) as Hni. apply NoDup_cons_1_2 in Hn.
  rewrite filter_cons. case_decide; [|auto]. cbn. constructor; [|auto].
  intros (x & E & [_ Hx]%list_elem_of_filter)%list_elem_of_fmap. apply Hni. rewrite E.
  by apply list_elem_of_fmap_2.
Qed.

Lemma collect_spec set keep t :
  set_wf set → set_wf t →
  (∀ c m, smap t !! c = Some m → keep m = true → smap set !! c = None) →
  set_wf (collect set keep t) ∧
  ∀ c, is_Some (smap (collect set keep t) !! c) ↔
       is_Some (smap set !! c) ∨ ∃ m, smap t !! c = Some m ∧ keep m = true.
Proof.
  intros Hs Ht Hd. unfold collect.
  assert (∀ m, m ∈ Set_toArray t ↔ smap t !! kcls m = Some m) as Hin.
  { intros m. unfold smap, Set_toArray. rewrite (bmap_lookup kcls (slot_of t)); [|apply Ht]. naive_solver. }
  assert (NoDup (kcls <$> filter (λ m, keep m = true) (Set_toArray t))) as Hn.
  { apply NoDup_fmap_filter, Ht. }
  destruct (foldl_link (filter (λ m, keep m = true) (Set_toArray t)) set Hs Hn) as [Hw Hl].
  { intros m [Hk Hm]%list_elem_of_filter. apply (Hd _ m); [by apply Hin|done]. }
  split; [done|]. intros c. rewrite Hl, lookup_union_is_Some.
  assert (is_Some (emap kcls (filter (λ m, keep m = true) (Set_toArray t)) !! c) ↔
          ∃ m, smap t !! c = Some m ∧ keep m = true) as ->; [|naive_solver].
  split.
  - intros [m Hm]. exists m. unfold emap in Hm.
    apply elem_of_list_to_map_2, list_elem_of_fmap in Hm as (m' & ? & Hm). simplify_eq.
    apply list_elem_of_filter in Hm as [Hk Hm]. split; [by apply Hin|done].
  - intros (m & Hm & Hk). exists m. unfold emap. apply elem_of_list_to_map_1.
    { by rewrite (fst_entries kcls). }
    assert (kcls m = c) as <-.
    { apply (bmap_lookup kcls (slot_of t)) in Hm; [by destruct Hm|apply Ht]. }
    apply list_elem_of_fmap. exists m. split; [done|].
    apply list_elem_of_filter. split; [done|]. by apply Hin.
Qed.

Lemma foldl_put l s :
  set_wf s →
  set_wf (foldl Set_put s l) ∧
  ∀ c, is_Some (smap (foldl Set_put s l) !! c) ↔ is_Some (smap s !! c) ∨ c ∈ kcls <$> l.
Proof.
  revert s. induction l as [|m l IH]; intros s Hwf; cbn [foldl fmap list_fmap].
  { split; [done|]. set_solver. }
  destruct (set_put_spec s m Hwf) as [Hw Hm]. destruct (IH _ Hw) as [Hw' Hl].
  split; [done|]. intros c. rewrite Hl, Hm, lookup_insert_is_Some', elem_of_cons. naive_solver.
Qed.

Lemma toArray_dom s c : set_wf s → c ∈ kcls <$> Set_toArray s ↔ is_Some (smap s !! c).
Proof.
  intros Hwf. rewrite list_elem_of_fmap. split.
  - intros (m & -> & Hm). exists m. apply (bmap_lookup kcls (slot_of s)); [apply Hwf|done].
  - intros [m Hm]. apply (bmap_lookup kcls (slot_of s)) in Hm as [? ?]; [eauto|apply Hwf].
Qed.

Lemma toArray_elements s : set_wf s → kcls <$> Set_toArray s ≡ₚ elements (dom (smap s)).
Proof.
  intros Hwf. apply NoDup_Permutation.
  - apply (sw_wf s Hwf).
  - apply NoDup_elements.
  - intros c. by rewrite toArray_dom, elem_of_elements, elem_of_dom.
Qed.

Lemma new_size hint s : Set_new hint = Some s → 0 ≤ hint.
Proof. unfold Set_new. destruct (Z.leb_spec 0 hint); [done|]. cbn. done. Qed.

Lemma new_total hint : 0 ≤ hint → ∃ s, Set_new hint = Some s ∧ set_wf s ∧ smap s = ∅.
Proof.
  intros Hh. destruct (Set_new hint) as [s|] eqn:E.
  - eauto using set_new_wf.
  - unfold Set_new in E. destruct (Z.leb_spec 0 hint); [by simplify_option_eq|lia].
Qed.

Lemma copy_spec t hint :
  set_wf t → 0 ≤ hint →
  ∃ s, copy t hint = Some s ∧ set_wf s ∧
       ∀ c, is_Some (smap s !! c) ↔ is_Some (smap t !! c).
Proof.
  intros Ht Hh. destruct (new_total hint Hh) as (s & E & Hs & Hm). unfold copy. rewrite E. cbn.
  destruct (foldl_link (Set_toArray t) s Hs) as [Hw Hl]; [apply Ht|by rewrite Hm|].
  eexists. split_and!; [done..|]. intros c. rewrite Hl, Hm, (right_id_L ∅ (∪)). done.
Qed.

Lemma smap_cls s c m : set_wf s → smap s !! c = Some m → kcls m = c.
Proof. intros Hs E. apply (bmap_lookup kcls (slot_of s)) in E; [by destruct E|apply Hs]. Qed.

Lemma member_iff s m : set_wf s → Set_member s m = true ↔ is_Some (smap s !! kcls m).
Proof. intros Hs. rewrite member_spec by done. apply bool_decide_eq_true. Qed.

Lemma not_member_iff s m : set_wf s → negb (Set_member s m) = true ↔ smap s !! kcls m = None.
Proof.
  intros Hs. rewrite member_spec by done. case_bool_decide as E; cbn.
  - destruct E as [x ->]. done.
  - by rewrite eq_None_not_Some.
Qed.

Definition min_size (s t : Set_T) : Z := Arith.Arith_min (size s) (size t).

Lemma min_size_nonneg s t : set_wf s → set_wf t → 0 ≤ min_size s t.
Proof. intros [] []. unfold min_size, Arith.Arith_min. case_match; lia. Qed.

Lemma union_spec s t :
  set_wf s → set_wf t →
  ∃ r, Set_union (Some s) (Some t) = Some r ∧ set_wf r ∧
       ∀ c, is_Some (smap r !! c) ↔ is_Some (smap s !! c) ∨ is_Some (smap t !! c).
Proof.
  intros Hs Ht. pose proof (sw_size s Hs). pose proof (sw_size t Ht).
  destruct (copy_spec s (Arith.Arith_max (size s) (size t)) Hs) as (r & E & Hr & Hd).
  { unfold Arith.Arith_max. case_match; lia. }
  destruct (foldl_put (Set_toArray t) r Hr) as [Hw Hl].
  eexists. cbn [Set_union]. rewrite E. split_and!; [done..|].
  intros c. rewrite Hl, Hd, toArray_dom by done. done.
Qed.

(** The members of [t] that are in [s], respectively not in [s]. *)
Lemma collect_in s t :
  set_wf s → set_wf t →
  ∃ r0, Set_new (min_size s t) = Some r0 ∧ set_wf (collect r0 (Set_member s) t) ∧
        ∀ c, is_Some (smap (collect r0 (Set_member s) t) !! c) ↔
             is_Some (smap s !! c) ∧ is_Some (smap t !! c).
Proof.
  intros Hs Ht. destruct (new_total (min_size s t)) as (r0 & E & Hr & Hm).
  { by apply min_size_nonneg. }
  destruct (collect_spec r0 (Set_member s) t Hr Ht) as [Hw Hl]; [by rewrite Hm|].
  exists r0. split_and!; [done..|]. intros c. rewrite Hl, Hm, lookup_empty. split.
  - intros [[? ?]|(m & E1 & E2)]; [done|]. apply member_iff in E2; [|done].
    rewrite (smap_cls _ _ _ Ht E1) in E2. eauto.
  - intros [Hc [m E1]]. right. exists m. split; [done|]. apply member_iff; [done|].
    by rewrite (smap_cls _ _ _ Ht E1).
Qed.

Lemma collect_out r0 s t :
  set_wf r0 → set_wf s → set_wf t →
  (∀ c, is_Some (smap t !! c) → smap s !! c = None → smap r0 !! c = None) →
  set_wf (collect r0 (λ m, negb (Set_member s m)) t) ∧
  ∀ c, is_Some (smap (collect r0 (λ m, negb (Set_member s m)) t) !! c) ↔
       is_Some (smap r0 !! c) ∨ is_Some (smap t !! c) ∧ ¬ is_Some (smap s !! c).
Proof.
  intros Hr Hs Ht Hd.
  destruct (collect_spec r0 (λ m, negb (Set_member s m)) t Hr Ht) as [Hw Hl].
  { intros c m E Hk. apply not_member_iff in Hk; [|done].
    rewrite (smap_cls _ _ _ Ht E) in Hk. eauto. }
  split; [done|]. intros c. rewrite Hl, <-eq_None_not_Some. split.
  - intros [?|(m & E1 & E2)]; [by left|right]. apply not_member_iff in E2; [|done].
    rewrite (smap_cls _ _ _ Ht E1) in E2. eauto.
  - intros [?|[[m E1] Hc]]; [by left|right]. exists m. split; [done|].
    apply not_member_iff; [done|]. by rewrite (smap_cls _ _ _ Ht E1).
Qed.

Lemma inter_spec s t :
  set_wf s → set_wf t →
  ∃ r, Set_inter (Some s) (Some t) = Some r ∧ set_wf r ∧
       ∀ c, is_Some (smap r !! c) ↔ is_Some (smap s !! c) ∧ is_Some (smap t !! c).
Proof.
  intros Hs Ht. cbn [Set_inter]. destruct (length_ s <? length_ t).
  - destruct (collect_in t s Ht Hs) as (r0 & E & Hw & Hl). unfold min_size in E. rewrite E.
    eexists. split_and!; [done..|]. intros c. rewrite Hl. naive_solver.
  - destruct (collect_in s t Hs Ht) as (r0 & E & Hw & Hl). unfold min_size in E. rewrite E.
    eexists. by split_and!.
Qed.

Lemma minus_spec s t :
  set_wf s → set_wf t →
  ∃ r, Set_minus (Some t) (Some s) = Some r ∧ set_wf r ∧
       ∀ c, is_Some (smap r !! c) ↔ is_Some (smap t !! c) ∧ ¬ is_Some (smap s !! c).
Proof.
  intros Hs Ht. destruct (new_total (min_size s t)) as (r0 & E & Hr & Hm).
  { by apply min_size_nonneg. }
  destruct (collect_out r0 s t Hr Hs Ht) as [Hw Hl]; [by rewrite Hm|].
  cbn [Set_minus]. unfold min_size in E. rewrite E. eexists. split_and!; [done..|].
  intros c. rewrite Hl, Hm, lookup_empty. split; [intros [[? ?]|?]; done|by right].
Qed.

Lemma diff_spec s t :
  set_wf s → set_wf t →
  ∃ r, Set_diff (Some s) (Some t) = Some r ∧ set_wf r ∧
       ∀ c, is_Some (smap r !! c) ↔
            is_Some (smap t !! c) ∧ ¬ is_Some (smap s !! c) ∨
            is_Some (smap s !! c) ∧ ¬ is_Some (smap t !! c).
Proof.
  intros Hs Ht. destruct (new_total (min_size s t)) as (r0 & E & Hr & Hm).
  { by apply min_size_nonneg. }
  destruct (collect_out r0 s t Hr Hs Ht) as [Hw Hl]; [by rewrite Hm|].
  assert (∀ c, is_Some (smap (collect r0 (λ m, negb (Set_member s m)) t) !! c) ↔
               is_Some (smap t !! c) ∧ ¬ is_Some (smap s !! c)) as Hl'.
  { intros c. rewrite Hl, Hm, lookup_empty. split; [intros [[? ?]|?]; done|by right]. }
  destruct (collect_out _ t s Hw Ht Hs) as [Hw2 Hl2].
  { intros c H1 H2. apply eq_None_not_Some. rewrite Hl'. naive_solver. }
  cbn [Set_diff]. unfold min_size in E. rewrite E. eexists. split_and!; [done..|].
  intros c. rewrite Hl2, Hl'. done.
Qed.

(** On well-formed sets the four set operations return a well-formed set
    whose members are the union, the intersection, the difference and the
    symmetric difference; none of them aborts. *)
Theorem set_algebra s t m :
  set_wf s → set_wf t →
  (∃ r, Set_union (Some s) (Some t) = Some r ∧ set_wf r ∧
        Set_member r m = Set_member s m || Set_member t m) ∧
  (∃ r, Set_inter (Some s) (Some t) = Some r ∧ set_wf r ∧
        Set_member r m = Set_member s m && Set_member t m) ∧
  (∃ r, Set_minus (Some t) (Some s) = Some r ∧ set_wf r ∧
        Set_member r m = Set_member t m && negb (Set_member s m)) ∧
  (∃ r, Set_diff (Some s) (Some t) = Some r ∧ set_wf r ∧
        Set_member r m = xorb (Set_member s m) (Set_member t m)).
Proof.
  intros Hs Ht.
  assert (∀ r b, set_wf r → (is_Some (smap r !! kcls m) ↔ b = true) → Set_member r m = b) as Hmem.
  { intros r b Hr Hb. apply Bool.eq_iff_eq_true. by rewrite member_iff. }
  pose proof (member_iff s m Hs). pose proof (member_iff t m Ht).
  destruct (union_spec s t Hs Ht) as (r1 & E1 & W1 & L1).
  destruct (inter_spec s t Hs Ht) as (r2 & E2 & W2 & L2).
  destruct (minus_spec s t Hs Ht) as (r3 & E3 & W3 & L3).
  destruct (diff_spec s t Hs Ht) as (r4 & E4 & W4 & L4).
  split_and!; eexists; (split_and!; [done..|]); (apply Hmem; [done|]);
    rewrite ?L1, ?L2, ?L3, ?L4; destruct (Set_member s m), (Set_member t m); cbn; naive_solver.
Qed.

(** [Set_put] adds, [Set_remove] removes and returns the stored member,
    and both keep the set well formed and the other classes as they were. *)
Theorem set_put_remove s m m' :
  set_wf s →
  set_wf (Set_put s m) ∧
  Set_member (Set_put s m) m' = bool_decide (kcls m = kcls m') || Set_member s m' ∧
  set_wf (Set_remove s m).1 ∧
  Set_member (Set_remove s m).1 m' = negb (bool_decide (kcls m = kcls m')) && Set_member s m' ∧
  (is_Some (Set_remove s m).2 ↔ Set_member s m = true).
Proof.
  intros Hs. destruct (set_put_spec s m Hs) as [W1 M1].
  destruct (set_remove_spec s m Hs) as (W2 & M2 & R).
  rewrite R, <-member_iff by done. split_and!; [done| |done| |done].
  - rewrite !member_spec by done. rewrite M1. destruct (decide (kcls m = kcls m')) as [E|E].
    + rewrite (bool_decide_eq_true_2 (kcls m = kcls m')) by done. cbn.
      rewrite <-E, lookup_insert_eq. by apply bool_decide_eq_true_2.
    + rewrite (bool_decide_eq_false_2 (kcls m = kcls m')) by done. by rewrite lookup_insert_ne.
  - rewrite !member_spec by done. rewrite M2. destruct (decide (kcls m = kcls m')) as [E|E].
    + rewrite (bool_decide_eq_true_2 (kcls m = kcls m')) by done. cbn.
      rewrite <-E, lookup_delete_eq. apply bool_decide_eq_false_2. by intros [? ?].
    + rewrite (bool_decide_eq_false_2 (kcls m = kcls m')) by done. by rewrite lookup_delete_ne.
Qed.

End HSet.
End HSet.

(** ** The key kinds in use *)

(** Pointers compared by identity: [cmpatom], [hashatom]. *)
Record atom := Atom { ptr : Z }.

Definition cmpatom (x y : atom) : Z := if ptr x =? ptr y then 0 else 1.
Definition hashatom (x : atom) : Z := u32 (Z.shiftr (ptr x) 2).

#[export, refine] Instance atom_ops : KeyOps atom Z :=
  {| kcmp := cmpatom; khash := hashatom; kcls := ptr |}.
Proof.
  - intros x y. unfold cmpatom. destruct (Z.eqb_spec (ptr x) (ptr y)); naive_solver.
  - intros x y E. unfold hashatom. by rewrite E.
  - intros x. apply (wrapu_range 32). lia.
Defined.

(** *** Oec_IdSet.c *)

Record ID_ITEM := mkItem { mid : Z }.

Definition itemcmp (x y : ID_ITEM) : Z :=
  if mid x =? mid y then 0 else if mid x <? mid y then -1 else 1.
Definition itemhash (x : ID_ITEM) : Z := u32 (mid x).

#[export, refine] Instance item_ops : KeyOps ID_ITEM Z :=
  {| kcmp := itemcmp; khash := itemhash; kcls := mid |}.
Proof.
  - intros x y. unfold itemcmp.
    destruct (Z.eqb_spec (mid x) (mid y)); [naive_solver|]. case_match; naive_solver.
  - intros x y E. unfold itemhash. by rewrite E.
  - intros x. apply (wrapu_range 32). lia.
Defined.

Module IdSet.
Import HSet.

(** The size hint is ignored. *)
Definition Oec_IdSet_new (hint : Z) : option (Set_T (A := ID_ITEM)) := Set_new 100.
Definition Oec_IdSet_member (s : Set_T) (id : Z) : bool := Set_member s (mkItem id).
Definition Oec_IdSet_put (s : Set_T) (id : Z) : Set_T := Set_put s (mkItem id).
Definition Oec_IdSet_remove (s : Set_T) (id : Z) : Set_T * Z :=
  let '(s', r) := Set_remove s (mkItem id) in (s', match r with Some _ => id | None => 0 end).

(** The id set holds exactly the ids put and not removed since, and
    [Oec_IdSet_remove] returns the id when it was a member and 0 otherwise. *)
Theorem idset_spec s id id' :
  set_wf s →
  set_wf (Oec_IdSet_put s id) ∧ set_wf (Oec_IdSet_remove s id).1 ∧
  Oec_IdSet_member (Oec_IdSet_put s id) id' = (id =? id') || Oec_IdSet_member s id' ∧
  Oec_IdSet_member (Oec_IdSet_remove s id).1 id' = negb (id =? id') && Oec_IdSet_member s id' ∧
  (Oec_IdSet_remove s id).2 = (if Oec_IdSet_member s id then id else 0).
Proof.
  intros Hs. unfold Oec_IdSet_member, Oec_IdSet_put, Oec_IdSet_remove.
  destruct (set_put_spec s (mkItem id) Hs) as [W1 M1].
  destruct (set_remove_spec s (mkItem id) Hs) as (W2 & M2 & R).
  destruct (Set_remove s (mkItem id)) as [s' r]. cbn in *.
  rewrite !member_spec by done. rewrite M1, M2. cbn in *.
  destruct (Z.eqb_spec id id') as [<-|Hne].
  - rewrite lookup_insert_eq, lookup_delete_eq. cbn. subst r.
    split_and!; try done. by destruct (smap s !! id).
  - rewrite lookup_insert_ne, lookup_delete_ne by done. cbn. subst r.
    split_and!; try done. by destruct (smap s !! id).
Qed.

Definition demo_ids : Set_T (A := ID_ITEM) :=
  Set_put (mkSet 509 0 0 (replicate 509 [])) (mkItem 7).

Lemma demo_ids_wf : set_wf demo_ids.
Proof.
  unfold demo_ids. apply set_put_spec. apply (set_new_wf 100). vm_compute. reflexivity.
Qed.

Lemma idset_spec_witness : (Oec_IdSet_remove demo_ids 7).2 = 7 ∧ (Oec_IdSet_remove demo_ids 8).2 = 0.
Proof.
  split.
  - destruct (idset_spec demo_ids 7 7 demo_ids_wf) as (_ & _ & _ & _ & ->). vm_compute. reflexivity.
  - destruct (idset_spec demo_ids 8 7 demo_ids_wf) as (_ & _ & _ & _ & ->). vm_compute. reflexivity.
Defined.

Lemma set_algebra_witness :
  ∃ r, Set_union (Some demo_ids) (Some (Set_put demo_ids (mkItem 9))) = Some r ∧ set_wf r ∧
       Set_member r (mkItem 9) = true.
Proof.
  destruct (set_algebra demo_ids (Set_put demo_ids (mkItem 9)) (mkItem 9)) as [(r & E & W & M) _].
  - exact demo_ids_wf.
  - apply set_put_spec, demo_ids_wf.
  - exists r. split_and!; [exact E|exact W|]. rewrite M. vm_compute. reflexivity.
Defined.

Lemma set_put_remove_witness :
  Set_member (Set_put demo_ids (mkItem 3)) (mkItem 7) = true ∧
  is_Some (Set_remove demo_ids (mkItem 7)).2.
Proof.
  split.
  - destruct (set_put_remove demo_ids (mkItem 3) (mkItem 7) demo_ids_wf) as (_ & -> & _).
    vm_compute. reflexivity.
  - destruct (set_put_remove demo_ids (mkItem 7) (mkItem 7) demo_ids_wf) as (_ & _ & _ & _ & E).
    apply E. vm_compute. reflexivity.
Defined.

End IdSet.

(** *** SKeyTable.c: strings compared by their hash alone *)
Module SKeyTable.
Import ArenaTable.

Definition _stringcmp (x y : string) : Z :=
  let xint := Str.oec_hash_string_key x in
  let yint := Str.oec_hash_string_key y in
  if xint =? yint then 0 else if xint <? yint then -1 else 1.
Definition _stringhash (x : string) : Z := u32 (Str.oec_hash_string_key x).

#[export, refine] Instance skey_ops : KeyOps string Z :=
  {| kcmp := _stringcmp; khash := _stringhash; kcls := Str.oec_hash_string_key |}.
Proof.
  - intros x y. unfold _stringcmp.
    destruct (Z.eqb_spec (Str.oec_hash_string_key x) (Str.oec_hash_string_key y)); [naive_solver|].
    case_match; naive_solver.
  - intros x y E. unfold _stringhash. by rewrite E.
  - intros x. apply (wrapu_range 32). lia.
Defined.

Definition SKeyTable_new {V} (hint : Z) : option (ArenaTable_T (K := string) (V := V)) :=
  ArenaTable_new hint.
Definition SKeyTable_arena_new {V} (hint : Z) : option (ArenaTable_T (K := string) (V := V)) :=
  ArenaTable_new hint.

(** A string-keyed table does not compare its keys: a value stored under
    one string is returned for every string with the same 99000-valued hash,
    as "alice" and "echb" have. *)
Theorem skey_conflates {V} (t : ArenaTable_T (K := string) (V := V)) k k' v :
  table_wf t →
  Str.oec_hash_string_key k = Str.oec_hash_string_key k' →
  ArenaTable_get (ArenaTable_put t k v).1 k' = Some v.
Proof.
  intros Hwf Hh. destruct (put_spec t k v Hwf) as (Hw & Hm & _).
  rewrite table_get_spec, Hm by done. cbn. rewrite Hh. apply lookup_insert_eq.
Qed.

Definition demo_names : ArenaTable_T (K := string) (V := nat) := mkTable 509 0 0 (replicate 509 []).

Lemma demo_names_wf : table_wf demo_names.
Proof. apply (table_new_wf 100). vm_compute. reflexivity. Qed.

Lemma skey_conflates_witness :
  "alice" ≠ "echb" ∧ ArenaTable_get (ArenaTable_put demo_names "alice" 1%nat).1 "echb" = Some 1%nat.
Proof.
  split; [done|]. apply (skey_conflates demo_names "alice" "echb" 1%nat demo_names_wf). vm_compute. reflexivity.
Defined.

Lemma table_is_map_witness :
  ArenaTable_get (ArenaTable_put demo_names "alice" 1%nat).1 "bob" = None ∧
  ArenaTable_get (ArenaTable_put demo_names "alice" 1%nat).1 "alice" = Some 1%nat.
Proof.
  split.
  - destruct (table_is_map demo_names "alice" "bob" 1%nat demo_names_wf) as (_ & _ & _ & _ & -> & _).
    vm_compute. reflexivity.
  - destruct (table_is_map demo_names "alice" "alice" 1%nat demo_names_wf) as (_ & _ & _ & _ & -> & _).
    vm_compute. reflexivity.
Defined.

End SKeyTable.
