(* ===== verification/Collections.v ===== *)
(** * Collections: lists, iterators and data objects

    Models [src/corelib/Oec_AList.c], [src/corelib/list.c],
    [src/corelib/ArrayIterator.c], [src/corelib/Iterator.c],
    [src/corelib/DataObject.c] and [src/corelib/DataObjectList.c].  A C array
    of pointers that ends in NULL is a list of options that ends in [None];
    reading outside it is the outer [None]. *)

From S2P Require Import Prelude Values.

(** ** Linked lists *)
Module AList.
Section AList.
Context {A : Type}.

(** The variadic constructor stops at its first NULL argument. *)
Fixpoint Oec_AList_list (args : list (option A)) : list A :=
  match args with
  | Some x :: args => x :: Oec_AList_list args
  | _ => []
  end.

Fixpoint Oec_AList_append (l tail : list A) : list A :=
  match l with
  | [] => tail
  | x :: rest => x :: Oec_AList_append rest tail
  end.

Fixpoint Oec_AList_length (l : list A) : Z :=
  match l with
  | [] => 0
  | _ :: rest => 1 + Oec_AList_length rest
  end.

Definition Oec_AList_toArray (l : list A) (end_ : option A) : list (option A) :=
  (Some <$> l) ++ [end_].

(** The outer [None] is a read before the array. *)
Definition Oec_AList_get (l : list A) (pos : Z) : option (option A) :=
  if Oec_AList_length l <=? pos then Some None
  else if pos <? 0 then None
  else Oec_AList_toArray l None !! Z.to_nat pos.

Definition Oec_AList_pop (l : list A) : list A * option A :=
  match l with
  | x :: head => (head, Some x)
  | [] => ([], None)
  end.

Lemma append_app l k : Oec_AList_append l k = l ++ k.
Proof. induction l; cbn; congruence. Qed.

Lemma length_spec l : Oec_AList_length l = Z.of_nat (length l).
Proof. induction l; cbn [Oec_AList_length length]; lia. Qed.

Lemma list_all (l : list A) : Oec_AList_list (Some <$> l) = l.
Proof. induction l; cbn; congruence. Qed.

Lemma get_spec l pos :
  0 ≤ pos → Oec_AList_get l pos = Some (l !! Z.to_nat pos).
Proof.
  intros Hp. unfold Oec_AList_get. rewrite length_spec. destruct (Z.leb_spec (Z.of_nat (length l)) pos).
  - rewrite lookup_ge_None_2 by lia. done.
  - destruct (Z.ltb_spec pos 0); [lia|]. unfold Oec_AList_toArray.
    rewrite lookup_app_l by (rewrite length_fmap; lia). rewrite list_lookup_fmap.
    destruct (lookup_lt_is_Some_2 l (Z.to_nat pos)) as [x ->]; [lia|done].
Qed.

End AList.
End AList.

#[export] Hint Rewrite @AList.append_app @AList.length_spec @AList.list_all : oes_rw.

Module List_T.
Section List_T.
Context {A : Type}.

Definition List_push (l : list A) (x : A) : list A := x :: l.

Fixpoint List_copy (l : list A) : list A :=
  match l with
  | [] => []
  | x :: rest => x :: List_copy rest
  end.

(** The loop of [List_reverse]: [list] is consumed, [head] accumulates. *)
Fixpoint reverse_loop (head l : list A) : list A :=
  match l with
  | [] => head
  | x :: next => reverse_loop (x :: head) next
  end.
Definition List_reverse (l : list A) : list A := reverse_loop [] l.

Lemma reverse_spec l : List_reverse l = rev l.
Proof.
  assert (∀ h, reverse_loop h l = rev l ++ h) as Hr.
  { induction l as [|x l IH]; intros h; cbn; [done|]. by rewrite IH, <-app_assoc. }
  unfold List_reverse. rewrite Hr. apply app_nil_r.
Qed.

End List_T.
End List_T.

(** ** Iterators *)
Module Iter.
Section Iter.
Context {A : Type}.

Definition DONE : Z := -1.

Record ArrayIterator := mkArrayIterator { darray : list (option A); pos : Z }.

Definition ArrayIterator_new (a : list (option A)) : option ArrayIterator :=
  first ← a !! O;
  Some (mkArrayIterator a (match first with None => DONE | Some _ => 0 end)).

Definition ArrayIterator_next (it : ArrayIterator) : option (option A * ArrayIterator) :=
  if pos it =? DONE then Some (None, it)
  else
    data ← darray it !! Z.to_nat (pos it);
    next ← darray it !! Z.to_nat (pos it + 1);
    Some (data, mkArrayIterator (darray it)
                  (match next with None => DONE | Some _ => pos it + 1 end)).

Definition ArrayIterator_hasMore (it : ArrayIterator) : bool := negb (pos it =? DONE).

(** [Iterator]: the state is built by the first call that needs it. *)
Record Iterator := mkIterator {
  iter_state : option ArrayIterator;
  iter_state_new : option ArrayIterator
}.

Definition Iterator_new (state_new : option ArrayIterator) : Iterator := mkIterator None state_new.

Definition _state_init (it : Iterator) : option (ArrayIterator * Iterator) :=
  match iter_state it with
  | Some st => Some (st, it)
  | None => st ← iter_state_new it; Some (st, mkIterator (Some st) (iter_state_new it))
  end.

Definition Iterator_hasMore (it : Iterator) : option (bool * Iterator) :=
  '(st, it) ← _state_init it; Some (ArrayIterator_hasMore st, it).

Definition Iterator_next (it : Iterator) : option (option A * Iterator) :=
  '(st, it) ← _state_init it;
  '(x, st) ← ArrayIterator_next st;
  Some (x, mkIterator (Some st) (iter_state_new it)).

(** [for (iter; hasMore(iter); ) { x = next(iter); ... }]: the values of [x],
    for at most [fuel] rounds; [None] when a read is out of bounds or the
    rounds do not suffice. *)
Fixpoint drain (fuel : nat) (it : Iterator) : option (list A) :=
  '(more, it) ← Iterator_hasMore it;
  if more : bool then
    match fuel with
    | O => None
    | S fuel =>
      '(x, it) ← Iterator_next it;
      match x with
      | None => None
      | Some x => cons x <$> drain fuel it
      end
    end
  else Some [].

(** The iterator over an array from element [n] on. *)
Definition at_index (l : list A) (n : nat) : ArrayIterator :=
  mkArrayIterator (AList.Oec_AList_toArray l None)
    (if (n <? length l)%nat then Z.of_nat n else DONE).

Lemma array_lookup (l : list A) n :
  (n ≤ length l)%nat → AList.Oec_AList_toArray l None !! n = Some (l !! n).
Proof.
  intros Hn. unfold AList.Oec_AList_toArray. destruct (decide (n = length l)) as [->|].
  - rewrite lookup_app_r, length_fmap, Nat.sub_diag by (rewrite length_fmap; lia).
    by rewrite (lookup_ge_None_2 l).
  - rewrite lookup_app_l by (rewrite length_fmap; lia). rewrite list_lookup_fmap.
    destruct (lookup_lt_is_Some_2 l n) as [x ->]; [lia|done].
Qed.

Lemma new_at (l : list A) :
  ArrayIterator_new (AList.Oec_AList_toArray l None) = Some (at_index l 0).
Proof. by destruct l. Qed.

Lemma next_at (l : list A) n x :
  l !! n = Some x → ArrayIterator_next (at_index l n) = Some (Some x, at_index l (S n)).
Proof.
  intros Hx. pose proof (lookup_lt_Some _ _ _ Hx) as Hn.
  unfold ArrayIterator_next, at_index. cbn [pos darray].
  destruct (Nat.ltb_spec n (length l)); [|lia]. destruct (Z.eqb_spec (Z.of_nat n) DONE) as [E|_].
  { unfold DONE in E. lia. }
  rewrite Nat2Z.id. replace (Z.to_nat (Z.of_nat n + 1)) with (S n) by lia.
  rewrite !array_lookup by lia. rewrite Hx. cbn -[Nat.ltb Z.of_nat]. do 3 f_equal.
  destruct (Nat.ltb_spec (S n) (length l)).
  - destruct (lookup_lt_is_Some_2 l (S n)) as [y ->]; [lia|]. lia.
  - by rewrite lookup_ge_None_2 by lia.
Qed.

Lemma hasMore_at (l : list A) n :
  ArrayIterator_hasMore (at_index l n) = (n <? length l)%nat.
Proof.
  unfold ArrayIterator_hasMore, at_index. cbn [pos]. destruct (Nat.ltb_spec n (length l)); [|done].
  destruct (Z.eqb_spec (Z.of_nat n) DONE); [unfold DONE in *; lia|done].
Qed.

Lemma drain_at (l : list A) n sn fuel :
  (length l - n ≤ fuel)%nat →
  drain fuel (mkIterator (Some (at_index l n)) sn) = Some (drop n l).
Proof.
  revert n. induction fuel as [|fuel IH]; intros n Hf; cbn -[Nat.ltb];
    rewrite hasMore_at; destruct (Nat.ltb_spec n (length l)) as [Hn|Hn]; try lia.
  - by rewrite drop_ge by lia.
  - destruct (lookup_lt_is_Some_2 l n Hn) as [x Hx].
    rewrite (next_at l n x Hx). cbn. rewrite IH by lia. cbn. by rewrite (drop_S l x n Hx).
  - by rewrite drop_ge by lia.
Qed.

(** Iterating over the array of a list visits its elements in order. *)
Lemma drain_array (l : list A) fuel :
  (length l ≤ fuel)%nat →
  drain fuel (Iterator_new (ArrayIterator_new (AList.Oec_AList_toArray l None))) = Some l.
Proof.
  intros Hf. rewrite new_at.
  assert (drain fuel (Iterator_new (Some (at_index l 0))) =
          drain fuel (mkIterator (Some (at_index l 0)) (Some (at_index l 0)))) as ->.
  { by destruct fuel. }
  rewrite drain_at by lia. by rewrite drop_0.
Qed.

End Iter.
End Iter.

(** ** Data objects *)
Module DataObject.
Import AList Iter.

(** The arena is not modelled; [bytes] is the attachment the pointer denotes. *)
Record DataObject := mkDataObject {
  strings : list string;
  nbytes : Z;
  bytes : option (list Z);
  array_cache : option (list (option string));
  always_cpy : bool
}.

Definition DataObject_new : DataObject := mkDataObject [] 0 None None false.

Definition DataObject_set_always_copy (d : DataObject) (hint : bool) : DataObject :=
  mkDataObject (strings d) (nbytes d) (bytes d) (array_cache d) hint.

Definition DataObject_get_nattrs (d : DataObject) : Z := Oec_AList_length (strings d).

Definition DataObject_add_attr (d : DataObject) (value : string) : DataObject :=
  mkDataObject (Oec_AList_append (strings d) (Oec_AList_list [Some value; None]))
    (nbytes d) (bytes d) None (always_cpy d).

Definition DataObject_set_nbytes (d : DataObject) (len : Z) : option DataObject :=
  c_assert (nbytes d =? 0);;
  Some (mkDataObject (strings d) len (bytes d) (array_cache d) (always_cpy d)).

Definition DataObject_get_nbytes (d : DataObject) : Z := nbytes d.

Definition DataObject_set_bytes (d : DataObject) (b : list Z) : option DataObject :=
  c_assert (bool_decide (bytes d = None));;
  c_assert (negb (nbytes d =? 0));;
  Some (mkDataObject (strings d) (nbytes d) (Some b) (array_cache d) (always_cpy d)).

Definition DataObject_get_bytes (d : DataObject) : option (list Z) := bytes d.

Definition DataObject_toArray (d : DataObject) : list (option string) :=
  Oec_AList_toArray (strings d) None.

(** With an arena the array is built once and kept in the object. *)
Definition _dotoArrayIterator (d : DataObject) : option ArrayIterator * DataObject :=
  let a := match array_cache d with
           | Some a => a
           | None => Oec_AList_toArray (strings d) None
           end in
  (ArrayIterator_new a,
   mkDataObject (strings d) (nbytes d) (bytes d) (Some a) (always_cpy d)).

Definition DataObject_iterator (d : DataObject) (with_arena : bool) : Iterator * DataObject :=
  if with_arena then
    let '(st, d) := _dotoArrayIterator d in (Iterator_new st, d)
  else (Iterator_new (ArrayIterator_new (Oec_AList_toArray (strings d) None)), d).

(** The cache, when there is one, is the array of the current attributes; the
    attachment is there only when its length is set. *)
Record object_wf (d : DataObject) : Prop := {
  ow_cache : ∀ a, array_cache d = Some a → a = Oec_AList_toArray (strings d) None;
  ow_bytes : is_Some (bytes d) → nbytes d ≠ 0
}.

Lemma new_wf : object_wf DataObject_new.
Proof. split; cbn; [done|by intros [? ?]]. Qed.

Lemma add_attr_wf d v :
  object_wf d →
  object_wf (DataObject_add_attr d v) ∧
  strings (DataObject_add_attr d v) = strings d ++ [v] ∧
  nbytes (DataObject_add_attr d v) = nbytes d ∧ bytes (DataObject_add_attr d v) = bytes d.
Proof. intros [Hc Hb]. cbn. rewrite append_app. split_and!; try done; try (split; cbn; [done|exact Hb]). Qed.

Lemma iterator_wf d wa : object_wf d → object_wf (DataObject_iterator d wa).2.
Proof.
  intros [Hc Hb]. destruct wa; [|by split]. cbn. split; cbn; [|exact Hb].
  intros a. destruct (array_cache d) eqn:E; naive_solver.
Qed.

(** Draining the iterator of a well-formed object, cached or not *)
Lemma drain_object d wa fuel :
  object_wf d → (length (strings d) ≤ fuel)%nat →
  drain fuel (DataObject_iterator d wa).1 = Some (strings d).
Proof.
  intros [Hc _] Hl. destruct wa; cbn; [|by apply drain_array].
  destruct (array_cache d) as [a|] eqn:E; [rewrite (Hc a eq_refl)|]; by apply drain_array.
Qed.

(** Iterating over a well-formed data object, with or without the arena
    cache, yields its attributes in the order they were added, reads only
    inside the array and stops; adding an attribute keeps this true. *)
Theorem object_iteration d v wa fuel :
  object_wf d →
  (length (strings d) < fuel)%nat →
  drain fuel (DataObject_iterator d wa).1 = Some (strings d) ∧
  drain fuel (DataObject_iterator (DataObject_add_attr (DataObject_iterator d wa).2 v) wa).1 =
    Some (strings d ++ [v]).
Proof.
  intros Hd Hf.
  split; [apply drain_object; [done|lia]|].
  pose proof (iterator_wf d wa Hd) as Hd'.
  assert (strings (DataObject_iterator d wa).2 = strings d) as Es by (by destruct wa).
  destruct (add_attr_wf _ v Hd') as (Hw & Hs & _). rewrite Es in Hs. rewrite <-Hs.
  apply drain_object; [done|]. rewrite Hs, length_app. cbn. lia.
Qed.

Lemma object_iteration_witness :
  drain 3 (DataObject_iterator (DataObject_add_attr DataObject_new "k") true).1 = Some ["k"].
Proof.
  apply (object_iteration (DataObject_add_attr DataObject_new "k") "v" true 3).
  - apply add_attr_wf, new_wf.
  - cbn. lia.
Defined.

End DataObject.

(** ** Lists of data objects *)
Module DataObjectList.
Import AList Iter DataObject.

Definition DataObjectList := list DataObject.
Definition DataObjectList_new : DataObjectList := Oec_AList_list [None].
Definition DataObjectList_length (l : DataObjectList) : Z := Oec_AList_length l.
Definition DataObjectList_add (l : DataObjectList) (d : DataObject) : DataObjectList :=
  Oec_AList_append l (Oec_AList_list [Some d; None]).
Definition DataObjectList_new_data_object (l : DataObjectList) : DataObjectList * DataObject :=
  (DataObjectList_add l DataObject_new, DataObject_new).
Definition DataObjectList_iterator (l : DataObjectList) : Iterator :=
  Iterator_new (ArrayIterator_new (Oec_AList_toArray l None)).

Lemma list_add_spec l d :
  DataObjectList_add l d = l ++ [d] ∧
  DataObjectList_length (DataObjectList_add l d) = DataObjectList_length l + 1.
Proof.
  unfold DataObjectList_add, DataObjectList_length. rewrite append_app, !length_spec, length_app.
  cbn [Oec_AList_list length]. split; [done|lia].
Qed.

End DataObjectList.
