(* ===== verification/Messages.v ===== *)
(** * Messages: the command and response protocol

    Models [src/corelib/OekMsg.c] and the message bodies [ConCmd], [ConRes],
    [DisCmd], [GetCmd], [GetRes], [PutCmd], [PutRes], [StaCmd], [StaRes],
    [UplCmd], [UplRes], [UptCmd], [UptRes], [OekErr], with
    [src/corelib/OekMsgTemplateMatcher.c].  A body is a record with one
    function per setter; the message envelope has the type tag and the union
    of bodies, and a body accessor fails its assertion on another tag. *)

From S2P Require Import Prelude Values Collections.
Import Flags DataObject DataObjectList.

(** ** Message bodies *)

Record OekErr := mkOekErr { err_type : Z; emessage : option string }.
Definition OekErr_new : OekErr := mkOekErr 0 None.
Definition OekErr_set_type (e : OekErr) (t : Z) : OekErr := mkOekErr t (emessage e).
Definition OekErr_set_message (e : OekErr) (m : string) : OekErr := mkOekErr (err_type e) (Some m).

Record ConCmd := mkConCmd {
  con_version : Z * Z * Z;
  con_extentname : option string;
  con_username : option string;
  con_password : option string;
  con_flags : Z
}.
Definition ConCmd_new : ConCmd := mkConCmd (0, 0, 0) None None None 0.
Definition ConCmd_set_version_maj (c : ConCmd) (v : Z) : ConCmd :=
  let '(_, b, d) := con_version c in
  mkConCmd (v, b, d) (con_extentname c) (con_username c) (con_password c) (con_flags c).
Definition ConCmd_set_version_min (c : ConCmd) (v : Z) : ConCmd :=
  let '(a, _, d) := con_version c in
  mkConCmd (a, v, d) (con_extentname c) (con_username c) (con_password c) (con_flags c).
Definition ConCmd_set_version_upt (c : ConCmd) (v : Z) : ConCmd :=
  let '(a, b, _) := con_version c in
  mkConCmd (a, b, v) (con_extentname c) (con_username c) (con_password c) (con_flags c).
Definition OE_ROLLBACK_ON_DISCONNECT : Z := 1.
Definition ConCmd_set_rollback_on_disconnect (c : ConCmd) : ConCmd :=
  mkConCmd (con_version c) (con_extentname c) (con_username c) (con_password c)
    (OEC_FLAG_SET (con_flags c) OE_ROLLBACK_ON_DISCONNECT).
Definition ConCmd_rollback_on_disconnect (c : ConCmd) : bool :=
  OEC_FLAG_ISSET (con_flags c) OE_ROLLBACK_ON_DISCONNECT.
Definition ConCmd_set_extentname (c : ConCmd) (n : string) : ConCmd :=
  mkConCmd (con_version c) (Some n) (con_username c) (con_password c) (con_flags c).
Definition ConCmd_set_username (c : ConCmd) (n : string) : ConCmd :=
  mkConCmd (con_version c) (con_extentname c) (Some n) (con_password c) (con_flags c).
Definition ConCmd_set_pwd (c : ConCmd) (p : string) : ConCmd :=
  mkConCmd (con_version c) (con_extentname c) (con_username c) (Some p) (con_flags c).

Record ConRes := mkConRes {
  res_version : Z * Z * Z;
  res_extentname : option string;
  session_id : Z
}.
Definition ConRes_new : ConRes := mkConRes (0, 0, 0) None 0.
Definition ConRes_set_version_maj (r : ConRes) (v : Z) : ConRes :=
  let '(_, b, c) := res_version r in mkConRes (v, b, c) (res_extentname r) (session_id r).
Definition ConRes_set_version_min (r : ConRes) (v : Z) : ConRes :=
  let '(a, _, c) := res_version r in mkConRes (a, v, c) (res_extentname r) (session_id r).
Definition ConRes_set_version_upt (r : ConRes) (v : Z) : ConRes :=
  let '(a, b, _) := res_version r in mkConRes (a, b, v) (res_extentname r) (session_id r).
Definition ConRes_set_extentname (r : ConRes) (n : string) : ConRes :=
  mkConRes (res_version r) (Some n) (session_id r).
Definition ConRes_set_sid (r : ConRes) (sid : Z) : ConRes :=
  mkConRes (res_version r) (res_extentname r) sid.

Record DisCmd := mkDisCmd { dis_msg : option string }.
Definition DisCmd_new : DisCmd := mkDisCmd None.

(** *** GetCmd *)

Record GetCmd := mkGetCmd {
  get_timeout : Z;
  get_max_responses : Z;
  get_flags : Z;
  get_value_lists : option DataObjectList
}.
Definition OE_GET_CMD_TUPLE : Z := 1.
Definition OE_GET_CMD_IFEXISTS : Z := 2.
Definition OE_GET_CMD_DESTROY : Z := 4.
Definition OE_GET_CMD_JOIN : Z := 8.
Definition OE_GET_CMD_RET_ATTRS : Z := 16.
Definition OE_GET_CMD_RET_BYTES : Z := 32.

Definition GetCmd_new : GetCmd := mkGetCmd 0 0 0 None.
Definition get_with_flags (c : GetCmd) (f : Z) : GetCmd :=
  mkGetCmd (get_timeout c) (get_max_responses c) f (get_value_lists c).
Definition _get_value_lists (c : GetCmd) : DataObjectList :=
  match get_value_lists c with None => DataObjectList_new | Some l => l end.
Definition GetCmd_set_timeout (c : GetCmd) (t : Z) : GetCmd :=
  mkGetCmd t (get_max_responses c) (get_flags c) (get_value_lists c).
Definition GetCmd_set_join (c : GetCmd) : GetCmd :=
  mkGetCmd (get_timeout c) 0 (OEC_FLAG_SET (get_flags c) OE_GET_CMD_JOIN) (get_value_lists c).
Definition _join_is_set (c : GetCmd) : bool := OEC_FLAG_ISSET (get_flags c) OE_GET_CMD_JOIN.
Definition GetCmd_get_join (c : GetCmd) : bool :=
  _join_is_set c && (1 <? DataObjectList_length (_get_value_lists c)).
Definition GetCmd_set_max_responses (c : GetCmd) (maxr : Z) : option GetCmd :=
  c_assert (if maxr =? 0 then true else negb (_join_is_set c));;
  Some (mkGetCmd (get_timeout c) maxr (get_flags c) (get_value_lists c)).
Definition GetCmd_set_ifexists_option (c : GetCmd) : GetCmd :=
  get_with_flags c (OEC_FLAG_SET (get_flags c) OE_GET_CMD_IFEXISTS).
Definition GetCmd_ifexists (c : GetCmd) : bool := OEC_FLAG_ISSET (get_flags c) OE_GET_CMD_IFEXISTS.
Definition GetCmd_set_remove_option (c : GetCmd) : GetCmd :=
  get_with_flags c (OEC_FLAG_SET (get_flags c) OE_GET_CMD_DESTROY).
Definition GetCmd_remove (c : GetCmd) : bool := OEC_FLAG_ISSET (get_flags c) OE_GET_CMD_DESTROY.
Definition GetCmd_set_tuple (c : GetCmd) : GetCmd :=
  get_with_flags c (OEC_FLAG_SET (get_flags c) OE_GET_CMD_TUPLE).
Definition GetCmd_is_tuple (c : GetCmd) : bool := OEC_FLAG_ISSET (get_flags c) OE_GET_CMD_TUPLE.
Definition GetCmd_set_return_bytes (c : GetCmd) (option_ : bool) : GetCmd :=
  get_with_flags c (if option_ then OEC_FLAG_SET (get_flags c) OE_GET_CMD_RET_BYTES
                    else OEC_FLAG_CLEAR (get_flags c) OE_GET_CMD_RET_BYTES).
Definition GetCmd_return_bytes (c : GetCmd) : bool := OEC_FLAG_ISSET (get_flags c) OE_GET_CMD_RET_BYTES.
Definition GetCmd_set_return_attrs (c : GetCmd) (option_ : bool) : GetCmd :=
  get_with_flags c (if option_ then OEC_FLAG_SET (get_flags c) OE_GET_CMD_RET_ATTRS
                    else OEC_FLAG_CLEAR (get_flags c) OE_GET_CMD_RET_ATTRS).
Definition GetCmd_return_attrs (c : GetCmd) : bool := OEC_FLAG_ISSET (get_flags c) OE_GET_CMD_RET_ATTRS.
Definition GetCmd_get_data_objects (c : GetCmd) : DataObjectList := _get_value_lists c.
Definition GetCmd_new_data_object (c : GetCmd) : GetCmd * DataObject :=
  let '(l, d) := DataObjectList_new_data_object (_get_value_lists c) in
  (mkGetCmd (get_timeout c) (get_max_responses c) (get_flags c) (Some l), d).
Definition GetCmd_set_data_objects (c : GetCmd) (l : DataObjectList) : option GetCmd :=
  c_assert (match get_value_lists c with None => true | Some _ => false end);;
  Some (mkGetCmd (get_timeout c) (get_max_responses c) (get_flags c) (Some l)).

(** *** GetRes *)

Record GetRes := mkGetRes { nresults : Z; res_flags : Z; res_data : option DataObject }.
Definition TUPLE : Z := 1.
Definition DESTROYED : Z := 2.
Definition RET_ATTRS : Z := 4.
Definition RET_BYTES : Z := 8.
Definition GetRes_new : GetRes := mkGetRes 0 0 None.
Definition GetRes_set_nresults (r : GetRes) (n : Z) : GetRes := mkGetRes n (res_flags r) (res_data r).
Definition GetRes_get_data (r : GetRes) : DataObject :=
  match res_data r with None => DataObject_new | Some d => d end.
Definition GetRes_set_data (r : GetRes) (d : DataObject) : GetRes :=
  mkGetRes (nresults r) (res_flags r) (Some d).
Definition res_set (f : Z) (r : GetRes) : GetRes :=
  mkGetRes (nresults r) (OEC_FLAG_SET (res_flags r) f) (res_data r).
Definition GetRes_set_destroyed (r : GetRes) : GetRes := res_set DESTROYED r.
Definition GetRes_is_destroyed (r : GetRes) : bool := OEC_FLAG_ISSET (res_flags r) DESTROYED.
Definition GetRes_set_tuple (r : GetRes) : GetRes := res_set TUPLE r.
Definition GetRes_is_tuple (r : GetRes) : bool := OEC_FLAG_ISSET (res_flags r) TUPLE.
Definition GetRes_set_return_bytes (r : GetRes) : GetRes := res_set RET_BYTES r.
Definition GetRes_return_bytes (r : GetRes) : bool := OEC_FLAG_ISSET (res_flags r) RET_BYTES.
Definition GetRes_set_return_attrs (r : GetRes) : GetRes := res_set RET_ATTRS r.
Definition GetRes_return_attrs (r : GetRes) : bool := OEC_FLAG_ISSET (res_flags r) RET_ATTRS.

(** *** The other bodies *)

Record PutCmd := mkPutCmd { put_duration : Z; put_is_tuple : bool; put_data : option DataObject }.
Definition PutCmd_new : PutCmd := mkPutCmd 0 false None.
Definition PutCmd_set_tuple (c : PutCmd) : PutCmd := mkPutCmd (put_duration c) true (put_data c).
Definition PutCmd_set_dur (c : PutCmd) (d : Z) : PutCmd := mkPutCmd d (put_is_tuple c) (put_data c).
Definition PutCmd_get_data (c : PutCmd) : DataObject :=
  match put_data c with None => DataObject_new | Some d => d end.
Definition PutCmd_set_data (c : PutCmd) (d : DataObject) : PutCmd :=
  mkPutCmd (put_duration c) (put_is_tuple c) (Some d).

Record PutRes := mkPutRes { res_lease_id : Z }.
Definition PutRes_new : PutRes := mkPutRes 0.
Definition PutRes_set_lease_id (r : PutRes) (lid : Z) : PutRes := mkPutRes lid.

Record StaCmd := mkStaCmd { sta_duration : Z; sta_rollback_on_disconnect : bool }.
Definition StaCmd_new : StaCmd := mkStaCmd 0 false.
Definition StaCmd_set_dur (c : StaCmd) (d : Z) : StaCmd := mkStaCmd d (sta_rollback_on_disconnect c).

Record StaRes := mkStaRes { _dummy : Z }.
Definition StaRes_new : StaRes := mkStaRes 0.

Record UplCmd := mkUplCmd { upl_lease_id : Z; upl_duration : Z }.
Definition UplCmd_new : UplCmd := mkUplCmd 0 0.
Definition UplCmd_set_lid (c : UplCmd) (lid : Z) : UplCmd := mkUplCmd lid (upl_duration c).
Definition UplCmd_set_dur (c : UplCmd) (d : Z) : UplCmd := mkUplCmd (upl_lease_id c) d.

Record UplRes := mkUplRes { upl_expiretime : Z }.
Definition UplRes_new : UplRes := mkUplRes 0.
Definition UplRes_set_expiretime (r : UplRes) (t : Z) : UplRes := mkUplRes t.

(** A [char] status of zero is [None]. *)
Record UptCmd := mkUptCmd { upt_duration : Z; upt_enlisted : Z; upt_status : option ascii }.
Definition UptCmd_new : UptCmd := mkUptCmd 0 0 None.
Definition UptCmd_set_dur (c : UptCmd) (d : Z) : UptCmd := mkUptCmd d (upt_enlisted c) (upt_status c).
Definition UptCmd_set_status (c : UptCmd) (s : ascii) : UptCmd :=
  mkUptCmd (upt_duration c) (upt_enlisted c) (Some s).
Definition UptCmd_set_enlisted (c : UptCmd) (e : Z) : UptCmd := mkUptCmd (upt_duration c) e (upt_status c).

Definition OETXN_ACTIVE : ascii := "A".
Definition OETXN_ROLLEDBACK : ascii := "R".
Definition OETXN_COMMITTED : ascii := "C".
Record UptRes := mkUptRes { res_status : option ascii }.
Definition UptRes_new : UptRes := mkUptRes None.
Definition UptRes_set_status (r : UptRes) (s : ascii) : UptRes := mkUptRes (Some s).
Definition UptRes_get_status (r : UptRes) : ascii :=
  match res_status r with None => OETXN_ACTIVE | Some s => s end.

(** ** The envelope *)

Inductive OEK_MSG_TYPE :=
  | OEK_NON | OEK_ERR | CON_CMD | DIS_CMD | CON_RES | STA_CMD | STA_RES | UPT_CMD
  | UPT_RES | UPL_CMD | UPL_RES | PUT_CMD | PUT_RES | GET_CMD | GET_RES.

#[export] Instance msg_type_eq : EqDecision OEK_MSG_TYPE.
Proof. solve_decision. Defined.

Inductive msg_data :=
  | D_none
  | D_err (e : OekErr) | D_dis_cmd (c : DisCmd) | D_con_cmd (c : ConCmd) | D_con_res (r : ConRes)
  | D_sta_cmd (c : StaCmd) | D_sta_res (r : StaRes) | D_upt_cmd (c : UptCmd) | D_upt_res (r : UptRes)
  | D_upl_cmd (c : UplCmd) | D_upl_res (r : UplRes) | D_put_cmd (c : PutCmd) | D_put_res (r : PutRes)
  | D_get_cmd (c : GetCmd) | D_get_res (r : GetRes).

Record OekMsg := mkOekMsg { mtype : OEK_MSG_TYPE; cor_id : Z; txn_id : Z; valid : bool; data : msg_data }.

Definition OekMsg_settype (m : OekMsg) (t : OEK_MSG_TYPE) : option OekMsg :=
  d ← match t with
      | OEK_ERR => Some (D_err OekErr_new)
      | DIS_CMD => Some (D_dis_cmd DisCmd_new)
      | CON_CMD => Some (D_con_cmd ConCmd_new)
      | CON_RES => Some (D_con_res ConRes_new)
      | STA_CMD => Some (D_sta_cmd StaCmd_new)
      | STA_RES => Some (D_sta_res StaRes_new)
      | UPT_CMD => Some (D_upt_cmd UptCmd_new)
      | UPT_RES => Some (D_upt_res UptRes_new)
      | UPL_CMD => Some (D_upl_cmd UplCmd_new)
      | UPL_RES => Some (D_upl_res UplRes_new)
      | GET_CMD => Some (D_get_cmd GetCmd_new)
      | GET_RES => Some (D_get_res GetRes_new)
      | PUT_CMD => Some (D_put_cmd PutCmd_new)
      | PUT_RES => Some (D_put_res PutRes_new)
      | OEK_NON => None
      end;
  Some (mkOekMsg t (cor_id m) (txn_id m) (valid m) d).

Definition OekMsg_new (t : OEK_MSG_TYPE) : option OekMsg :=
  m ← match t with
      | OEK_NON => Some (mkOekMsg OEK_NON 0 0 false D_none)
      | _ => OekMsg_settype (mkOekMsg t 0 0 false D_none) t
      end;
  Some (mkOekMsg (mtype m) (cor_id m) (txn_id m) true (data m)).

Definition OekMsg_get_type (m : OekMsg) : OEK_MSG_TYPE := mtype m.
Definition OekMsg_set_cid (m : OekMsg) (cid : Z) : OekMsg :=
  mkOekMsg (mtype m) cid (txn_id m) (valid m) (data m).
Definition OekMsg_get_cid (m : OekMsg) : Z := cor_id m.
Definition OekMsg_set_tid (m : OekMsg) (tid : Z) : OekMsg :=
  mkOekMsg (mtype m) (cor_id m) tid (valid m) (data m).
Definition OekMsg_get_tid (m : OekMsg) : Z := txn_id m.

(** The body of a message is reached through a pointer: writing it back. *)
Definition set_data (m : OekMsg) (d : msg_data) : OekMsg :=
  mkOekMsg (mtype m) (cor_id m) (txn_id m) (valid m) d.

Definition OekMsg_get_err (m : OekMsg) : option OekErr :=
  c_assert (bool_decide (mtype m = OEK_ERR));; match data m with D_err e => Some e | _ => None end.
Definition OekMsg_get_con_cmd (m : OekMsg) : option ConCmd :=
  c_assert (bool_decide (mtype m = CON_CMD));; match data m with D_con_cmd c => Some c | _ => None end.
Definition OekMsg_get_dis_cmd (m : OekMsg) : option DisCmd :=
  c_assert (bool_decide (mtype m = DIS_CMD));; match data m with D_dis_cmd c => Some c | _ => None end.
Definition OekMsg_get_con_res (m : OekMsg) : option ConRes :=
  c_assert (bool_decide (mtype m = CON_RES));; match data m with D_con_res r => Some r | _ => None end.
Definition OekMsg_get_sta_cmd (m : OekMsg) : option StaCmd :=
  c_assert (bool_decide (mtype m = STA_CMD));; match data m with D_sta_cmd c => Some c | _ => None end.
Definition OekMsg_get_sta_res (m : OekMsg) : option StaRes :=
  c_assert (bool_decide (mtype m = STA_RES));; match data m with D_sta_res r => Some r | _ => None end.
Definition OekMsg_get_upt_cmd (m : OekMsg) : option UptCmd :=
  c_assert (bool_decide (mtype m = UPT_CMD));; match data m with D_upt_cmd c => Some c | _ => None end.
Definition OekMsg_get_upt_res (m : OekMsg) : option UptRes :=
  c_assert (bool_decide (mtype m = UPT_RES));; match data m with D_upt_res r => Some r | _ => None end.
Definition OekMsg_get_upl_cmd (m : OekMsg) : option UplCmd :=
  c_assert (bool_decide (mtype m = UPL_CMD));; match data m with D_upl_cmd c => Some c | _ => None end.
Definition OekMsg_get_upl_res (m : OekMsg) : option UplRes :=
  c_assert (bool_decide (mtype m = UPL_RES));; match data m with D_upl_res r => Some r | _ => None end.
Definition OekMsg_get_get_cmd (m : OekMsg) : option GetCmd :=
  c_assert (bool_decide (mtype m = GET_CMD));; match data m with D_get_cmd c => Some c | _ => None end.
Definition OekMsg_get_get_res (m : OekMsg) : option GetRes :=
  c_assert (bool_decide (mtype m = GET_RES));; match data m with D_get_res r => Some r | _ => None end.
Definition OekMsg_get_put_cmd (m : OekMsg) : option PutCmd :=
  c_assert (bool_decide (mtype m = PUT_CMD));; match data m with D_put_cmd c => Some c | _ => None end.
Definition OekMsg_get_put_res (m : OekMsg) : option PutRes :=
  c_assert (bool_decide (mtype m = PUT_RES));; match data m with D_put_res r => Some r | _ => None end.

(** [OekMsgTemplateMatcher_match]: a template matches a command of its type. *)
Definition OekMsgTemplateMatcher_match (msg mtemplate : OekMsg) : bool :=
  if bool_decide (OekMsg_get_type msg ≠ OekMsg_get_type mtemplate) then false
  else match OekMsg_get_type msg with
       | CON_CMD | GET_CMD | PUT_CMD | STA_CMD | UPT_CMD | UPL_CMD | DIS_CMD => true
       | _ => false
       end.

(** ** Properties *)

(** The tag and the union member agree. *)
Definition tag_of (d : msg_data) : OEK_MSG_TYPE :=
  match d with
  | D_none => OEK_NON
  | D_err _ => OEK_ERR | D_dis_cmd _ => DIS_CMD | D_con_cmd _ => CON_CMD | D_con_res _ => CON_RES
  | D_sta_cmd _ => STA_CMD | D_sta_res _ => STA_RES | D_upt_cmd _ => UPT_CMD | D_upt_res _ => UPT_RES
  | D_upl_cmd _ => UPL_CMD | D_upl_res _ => UPL_RES | D_put_cmd _ => PUT_CMD | D_put_res _ => PUT_RES
  | D_get_cmd _ => GET_CMD | D_get_res _ => GET_RES
  end.
Definition msg_wf (m : OekMsg) : Prop := mtype m = tag_of (data m).

Lemma msg_new_wf t : ∃ m, OekMsg_new t = Some m ∧ msg_wf m ∧ mtype m = t ∧ cor_id m = 0 ∧ txn_id m = 0 ∧ valid m = true.
Proof. by destruct t; eexists. Qed.

(** A message built by [OekMsg_new] or retyped by [OekMsg_settype] holds the
    union member of its type: the accessor of that type succeeds, and the
    accessors of the commands succeed on no other type. *)
Theorem msg_tag_safe m :
  msg_wf m →
  (is_Some (OekMsg_get_con_cmd m) ↔ mtype m = CON_CMD) ∧
  (is_Some (OekMsg_get_get_cmd m) ↔ mtype m = GET_CMD) ∧
  (is_Some (OekMsg_get_put_cmd m) ↔ mtype m = PUT_CMD) ∧
  (is_Some (OekMsg_get_sta_cmd m) ↔ mtype m = STA_CMD) ∧
  (is_Some (OekMsg_get_upt_cmd m) ↔ mtype m = UPT_CMD) ∧
  (is_Some (OekMsg_get_upl_cmd m) ↔ mtype m = UPL_CMD) ∧
  (is_Some (OekMsg_get_err m) ↔ mtype m = OEK_ERR) ∧
  (∀ t, t ≠ OEK_NON → ∃ m', OekMsg_settype m t = Some m' ∧ msg_wf m' ∧ mtype m' = t ∧
        cor_id m' = cor_id m ∧ txn_id m' = txn_id m).
Proof.
  intros Hwf. split_and!.
  1-7: destruct m as [t c x v d]; unfold msg_wf in Hwf; cbn in *; subst t;
       destruct d; cbn; (split; [by intros [? ?]|by eauto || done]).
  intros t Ht. destruct t; [done|by eexists..].
Qed.

Lemma msg_tag_safe_witness :
  is_Some (OekMsg_get_get_cmd (mkOekMsg GET_CMD 1 0 true (D_get_cmd GetCmd_new))).
Proof.
  apply (msg_tag_safe (mkOekMsg GET_CMD 1 0 true (D_get_cmd GetCmd_new))); reflexivity.
Defined.

(** The options of a get command do not disturb one another. *)
Lemma get_flag_set c i j :
  0 ≤ i → 0 ≤ j →
  OEC_FLAG_ISSET (get_flags (get_with_flags c (OEC_FLAG_SET (get_flags c) (bit i)))) (bit j) =
  (i =? j) || OEC_FLAG_ISSET (get_flags c) (bit j).
Proof. apply isset_set. Qed.

(** Each option setter of a get command turns on its own option and leaves
    every other option as it was; the return options can be turned off again. *)
Theorem get_options c b :
  GetCmd_remove (GetCmd_set_remove_option c) = true ∧
  GetCmd_is_tuple (GetCmd_set_remove_option c) = GetCmd_is_tuple c ∧
  GetCmd_is_tuple (GetCmd_set_tuple c) = true ∧
  GetCmd_remove (GetCmd_set_tuple c) = GetCmd_remove c ∧
  GetCmd_ifexists (GetCmd_set_ifexists_option c) = true ∧
  GetCmd_remove (GetCmd_set_ifexists_option c) = GetCmd_remove c ∧
  GetCmd_return_bytes (GetCmd_set_return_bytes c b) = b ∧
  GetCmd_return_attrs (GetCmd_set_return_bytes c b) = GetCmd_return_attrs c ∧
  GetCmd_return_attrs (GetCmd_set_return_attrs c b) = b ∧
  GetCmd_remove (GetCmd_set_return_attrs c b) = GetCmd_remove c ∧
  (get_max_responses (GetCmd_set_join c) = 0 ∧ _join_is_set (GetCmd_set_join c) = true).
Proof.
  unfold GetCmd_remove, GetCmd_is_tuple, GetCmd_ifexists, GetCmd_return_bytes, GetCmd_return_attrs,
    _join_is_set, GetCmd_set_remove_option, GetCmd_set_tuple, GetCmd_set_ifexists_option,
    GetCmd_set_return_bytes, GetCmd_set_return_attrs, GetCmd_set_join.
  change OE_GET_CMD_TUPLE with (bit 0). change OE_GET_CMD_IFEXISTS with (bit 1).
  change OE_GET_CMD_DESTROY with (bit 2). change OE_GET_CMD_JOIN with (bit 3).
  change OE_GET_CMD_RET_ATTRS with (bit 4). change OE_GET_CMD_RET_BYTES with (bit 5).
  cbn [get_with_flags get_flags get_max_responses].
  destruct b; rewrite ?isset_set, ?isset_clear by lia; by split_and!.
Qed.
