(* ===== verification/StoreHolder.v ===== *)
(** * StoreHolder: stored items, their byte format, and store queries

    Models [src/corelib/OeStoreHolder.c] and [src/corelib/OeStoreQuery.c].
    [OeStoreHolder_marshal] fills a zeroed block of a computed size through
    [memcpy], modelled with its bounds; the reader works on the bytes that
    were written.  Layout on LP64: [int] 4 bytes, [bool] 1, ids and times 8,
    little endian. *)

From S2P Require Import Prelude Values Collections.
Import AList DataObject DataObjectList Iter.

Inductive OESTORE_LOCK := OESTORE_UNLOCKED | OESTORE_WRITE_LOCK | OESTORE_TAKE_LOCK.
Inductive OESTORE_SKIP_STATUS := OESTORE_DO_NOT_SKIP | OESTORE_SKIP | OESTORE_SKIP_BUT_EXISTS.

#[export] Instance lock_eq : EqDecision OESTORE_LOCK.
Proof. solve_decision. Defined.
#[export] Instance skip_eq : EqDecision OESTORE_SKIP_STATUS.
Proof. solve_decision. Defined.

Record OeStoreHolder := mkHolder {
  lock : OESTORE_LOCK;
  is_tuple : bool;
  lease_id : Z;
  txn_id : Z;
  lease_expire_time : Z;
  data : option DataObject
}.

Definition _getdata (h : OeStoreHolder) : DataObject :=
  match data h with None => DataObject_new | Some d => d end.

Definition OeStoreHolder_new_with_data (d : option DataObject) : OeStoreHolder :=
  mkHolder OESTORE_UNLOCKED false 0 0 0 d.
Definition OeStoreHolder_new : OeStoreHolder := OeStoreHolder_new_with_data None.

Definition OeStoreHolder_set_tuple (h : OeStoreHolder) (b : bool) : OeStoreHolder :=
  mkHolder (lock h) b (lease_id h) (txn_id h) (lease_expire_time h) (data h).
Definition OeStoreHolder_set_lock (h : OeStoreHolder) (l : OESTORE_LOCK) : OeStoreHolder :=
  mkHolder l (is_tuple h) (lease_id h) (txn_id h) (lease_expire_time h) (data h).
Definition OeStoreHolder_set_txn_id (h : OeStoreHolder) (t : Z) : OeStoreHolder :=
  mkHolder (lock h) (is_tuple h) (lease_id h) t (lease_expire_time h) (data h).
Definition OeStoreHolder_set_lease_expire_time (h : OeStoreHolder) (t : Z) : OeStoreHolder :=
  mkHolder (lock h) (is_tuple h) (lease_id h) (txn_id h) t (data h).
Definition OeStoreHolder_set_data (h : OeStoreHolder) (d : DataObject) : OeStoreHolder :=
  mkHolder (lock h) (is_tuple h) (lease_id h) (txn_id h) (lease_expire_time h) (Some d).
Definition OeStoreHolder_set_lease_id (h : OeStoreHolder) (lid : Z) : OeStoreHolder :=
  mkHolder (lock h) (is_tuple h) lid (txn_id h) (lease_expire_time h) (data h).
Definition OeStoreHolder_get_data (h : OeStoreHolder) : DataObject := _getdata h.

(** ** Writing *)

Definition lock_int (l : OESTORE_LOCK) : Z :=
  match l with OESTORE_UNLOCKED => 0 | OESTORE_WRITE_LOCK => 1 | OESTORE_TAKE_LOCK => 2 end.
Definition bool_int (b : bool) : Z := if b then 1 else 0.

(** [memcpy(buf + off, src, length src)]; [None] is a write past the block. *)
Definition memcpy_at (buf : list Z) (off : Z) (src : list Z) : option (list Z) :=
  let o := Z.to_nat off in
  if (o + length src <=? length buf)%nat
  then Some (take o buf ++ src ++ drop (o + length src) buf) else None.

Definition sizeof_store_holder : Z := 48.

(** Copying a value of [mlen] bytes and advancing. *)
Definition put_bytes (src : list Z) (st : list Z * Z) : option (list Z * Z) :=
  buf ← memcpy_at st.1 st.2 src; Some (buf, st.2 + Z.of_nat (length src)).

(** The attribute loop; the iterator yields the attributes in order
    ([Collections.object_iteration]). *)
Fixpoint put_strings (l : list string) (st : list Z * Z) : option (list Z * Z) :=
  match l with
  | [] => Some st
  | p :: l => st ← put_bytes (bytes_of p ++ [0]) st; put_strings l st
  end.

Definition marshal_size (d : DataObject) : Z :=
  i32 (sizeof_store_holder
       + foldr (λ p acc, Z.of_nat (String.length p) + 1 + acc) 0 (strings d)
       + DataObject_get_nbytes d + 1).

(** The buffer and the number of bytes used in it. *)
Definition OeStoreHolder_marshal (h : OeStoreHolder) : option (list Z * Z) :=
  d ← data h;
  let buffsize := marshal_size d in
  let number_of_props := DataObject_get_nattrs d in
  let databuff := replicate (Z.to_nat buffsize) 0 in
  st ← put_bytes (le_bytes 4 (lock_int (lock h))) (databuff, 0);
  st ← put_bytes (le_bytes 1 (bool_int (is_tuple h))) st;
  st ← put_bytes (le_bytes 8 (lease_id h)) st;
  st ← put_bytes (le_bytes 8 (txn_id h)) st;
  st ← put_bytes (le_bytes 8 (lease_expire_time h)) st;
  let nbytes := DataObject_get_nbytes d in
  st ← put_bytes (le_bytes 4 nbytes) st;
  st ← put_bytes (le_bytes 4 number_of_props) st;
  st ← put_strings (strings d) st;
  if 0 <? nbytes
  then (b ← DataObject_get_bytes d; put_bytes (take (Z.to_nat nbytes) b) st)
  else Some st.

(** ** Reading *)

(** A load of an [n] byte object at [buffer + pos]; [None] outside the buffer. *)
Definition read_le (buffer : list Z) (pos n : nat) : option Z :=
  if (pos + n <=? length buffer)%nat then Some (le_val (take n (drop pos buffer))) else None.

(** An [int] outside the enumeration is not a lock the code knows. *)
Definition lock_of_int (z : Z) : option OESTORE_LOCK :=
  if z =? 0 then Some OESTORE_UNLOCKED
  else if z =? 1 then Some OESTORE_WRITE_LOCK
  else if z =? 2 then Some OESTORE_TAKE_LOCK else None.

(** [number_of_props] rounds; every round consumes a byte at least, so one
    more than the bytes of the buffer bounds them. *)
Fixpoint read_props (fuel : nat) (buffer : list Z) (n : Z) (props : DataObject) (pos : nat)
    : option (DataObject * nat) :=
  if n <=? 0 then Some (props, pos)
  else match fuel with
       | O => None
       | S fuel =>
         prop ← Str.c_string (drop pos buffer);
         read_props fuel buffer (n - 1) (DataObject_add_attr props prop)
           (pos + String.length prop + 1)
       end.

Definition _unmarshal (h : OeStoreHolder) (buffer : list Z) : option OeStoreHolder :=
  lk ← read_le buffer 0 4;
  lk ← lock_of_int (i32 lk);
  tup ← read_le buffer 4 1;
  lid ← read_le buffer 5 8;
  tid ← read_le buffer 13 8;
  exp ← read_le buffer 21 8;
  nb ← read_le buffer 29 4;
  np ← read_le buffer 33 4;
  let nbytes := i32 nb in
  let number_of_props := u64 (i32 np) in
  '(props, pos) ← read_props (S (length buffer)) buffer number_of_props (_getdata h) 37;
  props ← DataObject_set_nbytes props (u64 nbytes);
  props ← (if 0 <? nbytes then
             if (pos + Z.to_nat nbytes <=? length buffer)%nat
             then DataObject_set_bytes props (take (Z.to_nat nbytes) (drop pos buffer))
             else None
           else Some props);
  Some (mkHolder lk (negb (tup =? 0)) lid tid (i64 exp) (Some props)).

Definition OeStoreHolder_new_from_buffer (buf : list Z) : option OeStoreHolder :=
  _unmarshal OeStoreHolder_new buf.

Definition LID_POS : nat := 5.
Definition TID_POS : nat := LID_POS + 8.
Definition EXP_POS : nat := TID_POS + 8.

Definition OeStoreHolder_peek_lease_id (buffer : list Z) : option Z := read_le buffer LID_POS 8.
Definition OeStoreHolder_peek_txn_id (buffer : list Z) : option Z := read_le buffer TID_POS 8.
Definition OeStoreHolder_peek_lease_exp_time (buffer : list Z) : option Z :=
  t ← read_le buffer EXP_POS 8; Some (i64 t).

(** ** Skipping *)

(** [now] is the value of [oec_get_time_milliseconds()]. *)
Definition OeStoreHolder_skip (now : Z) (h : OeStoreHolder) : OESTORE_SKIP_STATUS :=
  let exptime := lease_expire_time h in
  if negb (exptime =? Str.OEC_FOREVER) && (exptime <=? now) then OESTORE_SKIP
  else if bool_decide (lock h = OESTORE_TAKE_LOCK) then OESTORE_SKIP
  else if bool_decide (lock h = OESTORE_WRITE_LOCK) then OESTORE_SKIP_BUT_EXISTS
  else OESTORE_DO_NOT_SKIP.

(** ** OeStoreQuery.c *)

Record OeStoreQuery := mkQuery {
  q_take : bool;
  q_is_tuple : bool;
  q_ifexists : bool;
  q_owner_id : Z;
  q_value_lists : option DataObjectList;
  q_max_items : Z;
  q_exists : bool;
  q_results : list OeStoreHolder
}.

Definition OeStoreQuery_new (nitems : Z) : OeStoreQuery :=
  mkQuery false false false 0 None nitems false (Oec_AList_list [None]).
Definition OeStoreQuery_set_results (q : OeStoreQuery) (r : list OeStoreHolder) : OeStoreQuery :=
  mkQuery (q_take q) (q_is_tuple q) (q_ifexists q) (q_owner_id q) (q_value_lists q) (q_max_items q)
    (q_exists q) r.
Definition OeStoreQuery_add_store_holder (q : OeStoreQuery) (h : OeStoreHolder) : OeStoreQuery :=
  OeStoreQuery_set_results q (Oec_AList_append (q_results q) (Oec_AList_list [Some h; None])).
Definition OeStoreQuery_get_store_holder (q : OeStoreQuery) (idx : Z) : option (option OeStoreHolder) :=
  Oec_AList_get (q_results q) idx.
Definition OeStoreQuery_reset_nitems_found (q : OeStoreQuery) : OeStoreQuery :=
  OeStoreQuery_set_results q (Oec_AList_list [None]).
Definition OeStoreQuery_get_nitems_found (q : OeStoreQuery) : Z := Oec_AList_length (q_results q).
Definition OeStoreQuery_set_exists (q : OeStoreQuery) (b : bool) : OeStoreQuery :=
  mkQuery (q_take q) (q_is_tuple q) (q_ifexists q) (q_owner_id q) (q_value_lists q) (q_max_items q)
    b (q_results q).
Definition OeStoreQuery_set_value_lists (q : OeStoreQuery) (l : DataObjectList) : OeStoreQuery :=
  mkQuery (q_take q) (q_is_tuple q) (q_ifexists q) (q_owner_id q) (Some l) (q_max_items q)
    (q_exists q) (q_results q).
Definition OeStoreQuery_get_value_lists (q : OeStoreQuery) : option DataObjectList := q_value_lists q.
Definition OeStoreQuery_set_owner (q : OeStoreQuery) (oid : Z) : OeStoreQuery :=
  mkQuery (q_take q) (q_is_tuple q) (q_ifexists q) oid (q_value_lists q) (q_max_items q)
    (q_exists q) (q_results q).
Definition OeStoreQuery_set_ifexists (q : OeStoreQuery) (b : bool) : OeStoreQuery :=
  mkQuery (q_take q) (q_is_tuple q) b (q_owner_id q) (q_value_lists q) (q_max_items q)
    (q_exists q) (q_results q).
Definition OeStoreQuery_set_take (q : OeStoreQuery) (b : bool) : OeStoreQuery :=
  mkQuery b (q_is_tuple q) (q_ifexists q) (q_owner_id q) (q_value_lists q) (q_max_items q)
    (q_exists q) (q_results q).
Definition OeStoreQuery_set_tuple (q : OeStoreQuery) (b : bool) : OeStoreQuery :=
  mkQuery (q_take q) b (q_ifexists q) (q_owner_id q) (q_value_lists q) (q_max_items q)
    (q_exists q) (q_results q).
Definition OeStoreQuery_get_max_results (q : OeStoreQuery) : Z := q_max_items q.

(** ** The format *)

Definition enc_header (h : OeStoreHolder) (d : DataObject) : list Z :=
  le_bytes 4 (lock_int (lock h)) ++ le_bytes 1 (bool_int (is_tuple h)) ++
  le_bytes 8 (lease_id h) ++ le_bytes 8 (txn_id h) ++ le_bytes 8 (lease_expire_time h) ++
  le_bytes 4 (nbytes d) ++ le_bytes 4 (Z.of_nat (length (strings d))).
Definition enc_strings (l : list string) : list Z := concat ((λ p, bytes_of p ++ [0]) <$> l).
Definition attachment (d : DataObject) : list Z := default [] (bytes d).
Definition enc (h : OeStoreHolder) (d : DataObject) : list Z :=
  enc_header h d ++ enc_strings (strings d) ++ attachment d.

(** What a holder that can be stored satisfies: ids and times in their
    widths, C strings, and a total below the range of [int]. *)
Record holder_wf (h : OeStoreHolder) (d : DataObject) : Prop := {
  hw_data : data h = Some d;
  hw_lid : in_u 64 (lease_id h);
  hw_tid : in_u 64 (txn_id h);
  hw_exp : in_s 64 (lease_expire_time h);
  hw_strings : Forall no_nul (strings d);
  hw_bytes : match bytes d with
             | None => nbytes d = 0
             | Some b => 0 < nbytes d ∧ Z.of_nat (length b) = nbytes d
             end;
  hw_size : Z.of_nat (length (enc h d)) < 2 ^ 31 - 16
}.

Lemma enc_header_length h d : length (enc_header h d) = 37%nat.
Proof. reflexivity. Qed.

(** The block as a written prefix followed by zeros. *)
Lemma put_bytes_prefix pre src k :
  (length src ≤ k)%nat →
  put_bytes src (pre ++ replicate k 0, Z.of_nat (length pre)) =
  Some ((pre ++ src) ++ replicate (k - length src) 0, Z.of_nat (length (pre ++ src))).
Proof.
  intros Hk. unfold put_bytes, memcpy_at. cbn [fst snd]. rewrite Nat2Z.id, length_app, length_replicate.
  destruct (Nat.leb_spec (length pre + length src) (length pre + k)); [|lia]. cbn.
  rewrite take_app_length, drop_app_ge by lia.
  replace (length pre + length src - length pre)%nat with (length src) by lia.
  rewrite drop_replicate, <-app_assoc, length_app. do 2 f_equal. lia.
Qed.

Lemma put_strings_prefix l pre k :
  (length (enc_strings l) ≤ k)%nat →
  put_strings l (pre ++ replicate k 0, Z.of_nat (length pre)) =
  Some ((pre ++ enc_strings l) ++ replicate (k - length (enc_strings l)) 0,
        Z.of_nat (length (pre ++ enc_strings l))).
Proof.
  revert pre k. induction l as [|p l IH]; intros pre k Hk; cbn [put_strings].
  { cbn. by rewrite app_nil_r, Nat.sub_0_r. }
  change (enc_strings (p :: l)) with ((bytes_of p ++ [0]) ++ enc_strings l) in *.
  rewrite length_app in Hk. rewrite put_bytes_prefix by lia. cbn [mbind option_bind].
  rewrite IH by lia. rewrite !(length_app (_ ++ [0])), Nat.sub_add_distr, <-!app_assoc. done.
Qed.

Lemma strings_size l :
  foldr (λ p acc, Z.of_nat (String.length p) + 1 + acc) 0 l = Z.of_nat (length (enc_strings l)).
Proof.
  induction l as [|p l IH]; [done|]. cbn [foldr]. rewrite IH.
  change (enc_strings (p :: l)) with ((bytes_of p ++ [0]) ++ enc_strings l).
  rewrite !length_app, bytes_of_length. cbn. lia.
Qed.

Lemma enc_strings_count l : (length l ≤ length (enc_strings l))%nat.
Proof.
  induction l as [|p l IH]; [done|].
  change (enc_strings (p :: l)) with ((bytes_of p ++ [0]) ++ enc_strings l).
  rewrite !length_app. cbn. lia.
Qed.

Lemma attachment_length h d : holder_wf h d → Z.of_nat (length (attachment d)) = nbytes d.
Proof.
  intros Hw. pose proof (hw_bytes _ _ Hw) as Hb. unfold attachment. destruct (bytes d); cbn [default length]; [cbn; lia|by rewrite Hb].
Qed.

Lemma enc_length h d :
  holder_wf h d →
  Z.of_nat (length (enc h d)) = 37 + Z.of_nat (length (enc_strings (strings d))) + nbytes d.
Proof.
  intros Hw. unfold enc. rewrite !length_app, enc_header_length.
  pose proof (attachment_length _ _ Hw). lia.
Qed.

Lemma marshal_size_spec h d :
  holder_wf h d → marshal_size d = Z.of_nat (length (enc h d)) + 12.
Proof.
  intros Hw. unfold marshal_size, sizeof_store_holder, DataObject_get_nbytes. rewrite strings_size.
  pose proof (enc_length _ _ Hw). pose proof (hw_size _ _ Hw).
  pose proof (attachment_length _ _ Hw). rewrite wraps_id by width. lia.
Qed.

(** Marshalling stays inside its block and writes the format. *)
Lemma marshal_enc h d :
  holder_wf h d →
  OeStoreHolder_marshal h = Some (enc h d ++ replicate 12 0, Z.of_nat (length (enc h d))).
Proof.
  intros Hw. unfold OeStoreHolder_marshal. rewrite (hw_data _ _ Hw). cbn [mbind option_bind].
  rewrite (marshal_size_spec h d Hw). unfold DataObject_get_nattrs, DataObject_get_nbytes. rewrite length_spec.
  pose proof (enc_length _ _ Hw) as HL. pose proof (attachment_length _ _ Hw) as HA.
  set (N := Z.to_nat (Z.of_nat (length (enc h d)) + 12)).
  assert (37 + length (enc_strings (strings d)) + length (attachment d) + 12 = N)%nat as HN by lia.
  change (replicate N 0, 0) with ([] ++ replicate N 0, Z.of_nat (length (@nil Z))).
  do 7 (rewrite put_bytes_prefix by (rewrite !le_bytes_length; lia); cbn [mbind option_bind]).
  rewrite put_strings_prefix by (rewrite !le_bytes_length; lia). cbn [mbind option_bind].
  rewrite !le_bytes_length.
  replace (N - 4 - 1 - 8 - 8 - 8 - 4 - 4 - length (enc_strings (strings d)))%nat
    with (length (attachment d) + 12)%nat by lia.
  match goal with |- context [(?p ++ enc_strings _)] =>
    replace p with (enc_header h d) by (unfold enc_header; by rewrite <-!app_assoc) end.
  pose proof (hw_bytes _ _ Hw) as Hb. unfold DataObject_get_bytes, enc, attachment in *.
  rewrite (app_assoc (enc_header h d)).
  destruct (bytes d) as [b|]; cbn [default] in *; unfold id in *.
  - destruct Hb as [Hpos Hb]. destruct (Z.ltb_spec 0 (nbytes d)); [|lia]. cbn [mbind option_bind].
    rewrite take_ge by lia. rewrite put_bytes_prefix by lia.
    by replace (length b + 12 - length b)%nat with 12%nat by lia.
  - rewrite Hb. cbn [Z.ltb Z.compare]. by rewrite app_nil_r.
Qed.

(** ** Reading the format back *)

Lemma read_le_at buf pos pre n x post :
  buf = pre ++ le_bytes n x ++ post → pos = length pre →
  read_le buf pos n = Some (x mod 2 ^ (8 * Z.of_nat n)).
Proof.
  intros -> ->. unfold read_le. rewrite !length_app, le_bytes_length.
  destruct (Nat.leb_spec (length pre + n) (length pre + (n + length post))); [|lia].
  rewrite drop_app_length, (take_app_length_eq (le_bytes n x)) by (by rewrite le_bytes_length).
  by rewrite le_val_bytes.
Qed.

Lemma read_props_enc l fuel buf pre post props :
  buf = pre ++ enc_strings l ++ post →
  Forall no_nul l → (length l < fuel)%nat →
  read_props fuel buf (Z.of_nat (length l)) props (length pre) =
  Some (match l with
        | [] => props
        | _ => mkDataObject (strings props ++ l) (nbytes props) (bytes props) None (always_cpy props)
        end, length (pre ++ enc_strings l)).
Proof.
  revert fuel pre props. induction l as [|p l IH]; intros fuel pre props Hbuf Hn Hf.
  { destruct fuel; cbn; by rewrite app_nil_r. }
  destruct fuel as [|fuel]; [cbn in Hf; lia|]. inversion Hn as [|? ? Hp Hn']; subst x l0.
  cbn [read_props]. destruct (Z.leb_spec (Z.of_nat (length (p :: l))) 0) as [Hz|_]; [cbn in Hz; lia|].
  change (enc_strings (p :: l)) with ((bytes_of p ++ [0]) ++ enc_strings l) in *.
  rewrite Hbuf, drop_app_length, <-Hbuf, <-!app_assoc. cbn [app].
  rewrite Str.c_string_bytes by done. cbn [mbind option_bind].
  replace (Z.of_nat (length (p :: l)) - 1) with (Z.of_nat (length l)) by (cbn [length]; lia).
  replace (length pre + String.length p + 1)%nat with (length (pre ++ bytes_of p ++ [0]))
    by (rewrite !length_app, bytes_of_length; cbn; lia).
  rewrite IH; [|by rewrite Hbuf, <-!app_assoc|done|cbn in Hf; lia].
  unfold DataObject_add_attr. rewrite AList.append_app, <-!app_assoc. destruct l; cbn; by rewrite <-?app_assoc.
Qed.

(** What reading gives back: the array cache and the copy hint are not stored. *)
Definition reread (h : OeStoreHolder) (d : DataObject) : OeStoreHolder :=
  mkHolder (lock h) (is_tuple h) (lease_id h) (txn_id h) (lease_expire_time h)
    (Some (mkDataObject (strings d) (nbytes d) (bytes d) None false)).

Lemma lock_round l : lock_of_int (i32 (lock_int l mod 2 ^ (8 * Z.of_nat 4))) = Some l.
Proof. by destruct l. Qed.

Lemma tup_round b : negb (bool_int b =? 0) = b.
Proof. by destruct b. Qed.

(** The fixed fields of the format, wherever it is followed by other bytes. *)
Lemma enc_fields h d post :
  holder_wf h d →
  let buf := enc h d ++ post in
  (lk ← read_le buf 0 4; lock_of_int (i32 lk)) = Some (lock h) ∧
  read_le buf 4 1 = Some (bool_int (is_tuple h)) ∧
  read_le buf 5 8 = Some (lease_id h) ∧
  read_le buf 13 8 = Some (txn_id h) ∧
  (i64 <$> read_le buf 21 8) = Some (lease_expire_time h) ∧
  (i32 <$> read_le buf 29 4) = Some (nbytes d) ∧
  (i32 <$> read_le buf 33 4) = Some (Z.of_nat (length (strings d))).
Proof.
  intros Hw buf. pose proof (enc_length _ _ Hw) as HL. pose proof (hw_size _ _ Hw) as HS.
  pose proof (attachment_length _ _ Hw) as HA. pose proof (enc_strings_count (strings d)) as HC.
  pose proof (hw_lid _ _ Hw). pose proof (hw_tid _ _ Hw). pose proof (hw_exp _ _ Hw) as Hexp.
  assert (buf = enc_header h d ++ enc_strings (strings d) ++ attachment d ++ post) as Hbuf
    by (subst buf; unfold enc; by rewrite <-!app_assoc).
  unfold enc_header in Hbuf. rewrite <-!app_assoc in Hbuf.
  set (a := le_bytes 4 (lock_int (lock h))) in *. set (b := le_bytes 1 _) in *.
  set (c := le_bytes 8 (lease_id h)) in *. set (e := le_bytes 8 (txn_id h)) in *.
  set (f := le_bytes 8 (lease_expire_time h)) in *. set (g := le_bytes 4 (nbytes d)) in *.
  split_and!.
  - rewrite (read_le_at buf 0 [] _ _ _ Hbuf eq_refl). cbn [mbind option_bind]. apply lock_round.
  - rewrite (read_le_at buf 4 a 1 (bool_int (is_tuple h)) _ Hbuf eq_refl). by destruct (is_tuple h).
  - erewrite (read_le_at buf 5 (a ++ b) 8 (lease_id h)); [f_equal; by apply Z.mod_small| |].
    by rewrite Hbuf, <-!app_assoc. done.
  - erewrite (read_le_at buf 13 (a ++ b ++ c) 8 (txn_id h)); [f_equal; by apply Z.mod_small| |].
    by rewrite Hbuf, <-!app_assoc. done.
  - erewrite (read_le_at buf 21 (a ++ b ++ c ++ e) 8 (lease_expire_time h)).
    { cbn [fmap option_fmap option_map]. rewrite (wraps_mod 64) by lia. by rewrite wraps_id. }
    by rewrite Hbuf, <-!app_assoc. done.
  - erewrite (read_le_at buf 29 (a ++ b ++ c ++ e ++ f) 4 (nbytes d)).
    { cbn [fmap option_fmap option_map]. rewrite (wraps_mod 32) by lia. rewrite wraps_id by width. done. }
    by rewrite Hbuf, <-!app_assoc. done.
  - erewrite (read_le_at buf 33 (a ++ b ++ c ++ e ++ f ++ g) 4 (Z.of_nat (length (strings d)))).
    { cbn [fmap option_fmap option_map]. rewrite (wraps_mod 32) by lia. rewrite wraps_id by width. done. }
    by rewrite Hbuf, <-!app_assoc. done.
Qed.

(** Marshalled bytes read back, also when more bytes follow them. *)
Lemma unmarshal_enc h d post :
  holder_wf h d → OeStoreHolder_new_from_buffer (enc h d ++ post) = Some (reread h d).
Proof.
  intros Hw. destruct (enc_fields h d post Hw) as (H1 & H2 & H3 & H4 & H5 & H6 & H7).
  unfold OeStoreHolder_new_from_buffer, _unmarshal.
  destruct (read_le (enc h d ++ post) 0 4) as [lk|]; [cbn [mbind option_bind] in *|done].
  rewrite H1, H2, H3, H4. cbn [mbind option_bind].
  destruct (read_le _ 21 8) as [ex|]; [cbn [mbind option_bind]|done]. injection H5 as H5.
  destruct (read_le _ 29 4) as [nb|]; [cbn [mbind option_bind]|done]. injection H6 as H6.
  destruct (read_le _ 33 4) as [np|]; [cbn [mbind option_bind]|done]. injection H7 as H7.
  rewrite H5, H6, H7.
  pose proof (enc_length _ _ Hw) as HL. pose proof (hw_size _ _ Hw) as HS.
  pose proof (attachment_length _ _ Hw) as HA. pose proof (enc_strings_count (strings d)) as HC.
  rewrite !(wrapu_id 64) by width.
  rewrite <-(enc_header_length h d).
  rewrite (read_props_enc (strings d) _ _ (enc_header h d) (attachment d ++ post));
    [|unfold enc; by rewrite <-!app_assoc|apply (hw_strings _ _ Hw)|rewrite length_app; lia].
  cbn [mbind option_bind].
  replace (match strings d with [] => _ | _ => _ end) with (mkDataObject (strings d) 0 None None false)
    by (by destruct (strings d)).
  pose proof (hw_bytes _ _ Hw) as Hb. unfold DataObject_set_nbytes, DataObject_set_bytes, reread.
  cbn [DataObject.strings DataObject.nbytes DataObject.bytes array_cache always_cpy c_assert Z.eqb mbind option_bind].
  rewrite tup_round. unfold enc, attachment in *. destruct (bytes d) as [b|]; cbn [default] in *; unfold id in *.
  - destruct Hb as [Hpos Hb]. destruct (Z.ltb_spec 0 (nbytes d)); [|lia].
    destruct (Z.eqb_spec (nbytes d) 0); [lia|].
    rewrite (app_assoc (enc_header h d)), <-app_assoc, drop_app_length, take_app_length_eq by lia.
    match goal with |- context [(?x <=? ?y)%nat] => destruct (Nat.leb_spec x y) as [_|Hc] end; [done|].
    rewrite !length_app in Hc. lia.
  - by rewrite Hb.
Qed.

(** C36  The stored form of a holder: marshalling stays inside the block it
    allocates, the bytes it reports as used read back to the same lock, tuple
    flag, ids, expiry time, attributes and attachment, and the three peeks
    return the ids and the time without reading the rest. *)
Theorem holder_roundtrip h d :
  holder_wf h d →
  ∃ buf n, OeStoreHolder_marshal h = Some (buf, Z.of_nat n) ∧ (n + 12 = length buf)%nat ∧
    let stored := take n buf in
    OeStoreHolder_new_from_buffer stored = Some (reread h d) ∧
    OeStoreHolder_peek_lease_id stored = Some (lease_id h) ∧
    OeStoreHolder_peek_txn_id stored = Some (txn_id h) ∧
    OeStoreHolder_peek_lease_exp_time stored = Some (lease_expire_time h).
Proof.
  intros Hw. exists (enc h d ++ replicate 12 0), (length (enc h d)).
  split; [by apply marshal_enc|]. split; [by rewrite length_app|].
  cbv zeta. rewrite take_app_length. rewrite <-(app_nil_r (enc h d)).
  split; [by apply unmarshal_enc|].
  destruct (enc_fields h d [] Hw) as (_ & _ & H3 & H4 & H5 & _ & _). split_and!; [done|done|].
  unfold OeStoreHolder_peek_lease_exp_time, EXP_POS, TID_POS, LID_POS. cbn [Nat.add].
  by destruct (read_le _ 21 8); cbn in *.
Qed.

Definition sample_object : DataObject := mkDataObject ["job"; ""; "7"] 2 (Some [0; 255]) None false.
Definition sample_holder : OeStoreHolder :=
  mkHolder OESTORE_TAKE_LOCK true 41 42 1300000000000 (Some sample_object).

Lemma sample_holder_wf : holder_wf sample_holder sample_object.
Proof.
  split; try (vm_compute; intuition congruence).
  repeat constructor; unfold no_nul; vm_compute; set_solver.
Qed.

Lemma holder_roundtrip_witness :
  ∃ buf n, OeStoreHolder_marshal sample_holder = Some (buf, Z.of_nat n) ∧ (n + 12 = length buf)%nat ∧
    let stored := take n buf in
    OeStoreHolder_new_from_buffer stored = Some sample_holder ∧
    OeStoreHolder_peek_lease_id stored = Some 41 ∧
    OeStoreHolder_peek_txn_id stored = Some 42 ∧
    OeStoreHolder_peek_lease_exp_time stored = Some 1300000000000.
Proof. exact (holder_roundtrip sample_holder sample_object sample_holder_wf). Defined.

(** An item is delivered exactly when its lease has not expired and it is
    unlocked; an expired item never counts as existing. *)
Lemma skip_deliver now h :
  OeStoreHolder_skip now h = OESTORE_DO_NOT_SKIP ↔
  (lease_expire_time h = Str.OEC_FOREVER ∨ now < lease_expire_time h) ∧ lock h = OESTORE_UNLOCKED.
Proof.
  unfold OeStoreHolder_skip. destruct (Z.eqb_spec (lease_expire_time h) Str.OEC_FOREVER) as [E|E], (lock h);
    destruct (Z.leb_spec (lease_expire_time h) now); cbn; naive_solver lia.
Qed.
