(* ===== verification/BdbKeys.v ===== *)
(** * BdbKeys: index keys of the Berkeley DB store

    Models the secondary-key callbacks of [src/corelib/OeBdb.c]
    ([_set_props], [_set_map_props], [_set_tuple_props], [_set_expire_time],
    [_set_owner]), the key strings that queries are positioned with, the
    comparison callbacks, and the byte format of transactions.  The theorems
    say when a template finds a stored object. *)

From stdpp Require Import pretty.
From S2P Require Import Prelude Values Collections StoreHolder.
Import AList DataObject DataObjectList.

Definition OES_KEY_SEP : string := "~+".
Definition OESTORE_NULL : string := "_".
Definition OESTORE_WILDCARD : string := "_".

Definition OE_STORE_PLEASE_RETRY : Z := -78000.
Definition OE_STORE_ITEM_NOTFOUND : Z := -78001.
Definition OE_STORE_MISSING_ATTRS : Z := -78002.
Definition OE_STORE_ATTRS_NOT_PAIRED : Z := -78003.
Definition OESTORE_INACTIVE_TXN : Z := -78006.
Definition OESTORE_UPDATING_EXPIRED_TXN_ERR : Z := -77000.
Definition OESTORE_IS_NULL_ERR : Z := -77001.
Definition OESTORE_ALREADY_COMPLETE_ERR : Z := -77002.
Definition OESTORE_UPDATING_ROLLEDBACK_TXN_ERR : Z := -77003.
Definition OESTORE_UPDATING_COMMITTED_TXN_ERR : Z := -77004.
Definition OESTORE_ENLISTED_COUNT_INCORRECT : Z := -77005.

(** ** Key strings *)

Definition tuple_key (skey : string) (pos sz : Z) : option string :=
  Str.oec_str_concat [skey; OES_KEY_SEP; Str.oec_itoa pos; OES_KEY_SEP; Str.oec_itoa sz].
Definition map_key (dkey dvalue : string) : option string :=
  Str.oec_str_concat [dkey; OES_KEY_SEP; dvalue].

(** ** Secondary-key callbacks *)

(** What a callback hands back: keys, [DB_DONOTINDEX], or an error. *)
Inductive cb_result :=
  | CbKeys (keys : list string)
  | CbDoNotIndex
  | CbError (rc : Z).

(** The attributes taken in pairs; with an odd number the last call of
    [Iterator_next] has no element, which callers exclude. *)
Fixpoint map_props_loop (l : list string) : option (list string) :=
  match l with
  | key :: val :: l =>
    if bool_decide (key = OESTORE_NULL) then map_props_loop l
    else if bool_decide (val = OESTORE_NULL) then map_props_loop l
    else p ← map_key key val; rest ← map_props_loop l; Some (p :: rest)
  | [_] => None
  | [] => Some []
  end.

Definition _set_map_props (holder : OeStoreHolder) : option cb_result :=
  let data := OeStoreHolder_get_data holder in
  let sz := DataObject_get_nattrs data in
  if sz <=? 0 then Some (CbError OE_STORE_MISSING_ATTRS)
  else if negb (Z.rem sz 2 =? 0) then Some (CbError OE_STORE_ATTRS_NOT_PAIRED)
  else CbKeys <$> map_props_loop (strings data).

Fixpoint tuple_props_loop (l : list string) (pos sz : Z) : option (list string) :=
  match l with
  | [] => Some []
  | key :: l =>
    if bool_decide (key = "_") then tuple_props_loop l (pos + 1) sz
    else p ← tuple_key key pos sz; rest ← tuple_props_loop l (pos + 1) sz; Some (p :: rest)
  end.

Definition _set_tuple_props (holder : OeStoreHolder) : option cb_result :=
  let data := OeStoreHolder_get_data holder in
  let number_of_attrs := DataObject_get_nattrs data in
  keys ← tuple_props_loop (strings data) 0 number_of_attrs;
  Some (if (length keys =? 0)%nat then CbError (-1) else CbKeys keys).

Definition _set_props (pdata : list Z) : option cb_result :=
  oid ← OeStoreHolder_peek_txn_id pdata;
  if negb (oid =? 0) then Some CbDoNotIndex
  else
    holder ← OeStoreHolder_new_from_buffer pdata;
    if is_tuple holder then _set_tuple_props holder else _set_map_props holder.

(** The key of the time index, or none. *)
Definition _set_expire_time (pdata : list Z) : option (option Z) :=
  oid ← OeStoreHolder_peek_txn_id pdata;
  if negb (oid =? 0) then Some None
  else
    exp_time ← OeStoreHolder_peek_lease_exp_time pdata;
    Some (if exp_time =? Str.OEC_FOREVER then None else Some exp_time).

Definition _set_owner (pdata : list Z) : option (option Z) :=
  oid ← OeStoreHolder_peek_txn_id pdata;
  Some (if oid =? 0 then None else Some oid).

(** ** Query keys *)

(** The keys a query template is positioned with, in order. *)
Fixpoint tuple_query_keys (l : list string) (pos sz : Z) : option (list string) :=
  match l with
  | [] => Some []
  | skey :: l =>
    if bool_decide (skey = OESTORE_WILDCARD) then tuple_query_keys l (pos + 1) sz
    else p ← tuple_key skey pos sz; rest ← tuple_query_keys l (pos + 1) sz; Some (p :: rest)
  end.
Fixpoint map_query_keys (l : list string) : option (list string) :=
  match l with
  | dkey :: dvalue :: l => p ← map_key dkey dvalue; rest ← map_query_keys l; Some (p :: rest)
  | [_] => None
  | [] => Some []
  end.

Definition _calc_nkeys (query : OeStoreQuery) (values : DataObject) : Z :=
  let nvals := i32 (DataObject_get_nattrs values) in
  if q_is_tuple query then
    foldl (λ nkeys skey, if bool_decide (skey = OESTORE_WILDCARD) then nkeys - 1 else nkeys)
      nvals (strings values)
  else Z.quot nvals 2.

(** ** Comparison callbacks *)

Definition _compare_oe_id (ai bi : Z) : Z := i32 (u64 (ai - bi)).
Definition _compare_oe_time (ai bi : Z) : Z := i32 (i64 (ai - bi)).

(** ** Transactions and their bytes *)

Inductive OESTORE_TXN_STATUS := OESTORE_TXN_COMMITTED | OESTORE_TXN_ROLLED_BACK | OESTORE_TXN_ACTIVE.
#[export] Instance status_eq : EqDecision OESTORE_TXN_STATUS.
Proof. solve_decision. Defined.

Record OESTORE_TXN := mkTxn {
  status : OESTORE_TXN_STATUS;
  expire_time : Z;
  begin_time : Z;
  end_time : Z;
  tid : Z
}.

Definition status_int (s : OESTORE_TXN_STATUS) : Z :=
  match s with OESTORE_TXN_COMMITTED => 0 | OESTORE_TXN_ROLLED_BACK => 1 | OESTORE_TXN_ACTIVE => 2 end.
Definition status_of_int (z : Z) : option OESTORE_TXN_STATUS :=
  if z =? 0 then Some OESTORE_TXN_COMMITTED
  else if z =? 1 then Some OESTORE_TXN_ROLLED_BACK
  else if z =? 2 then Some OESTORE_TXN_ACTIVE else None.

Definition _marshal_txn (oetxn : OESTORE_TXN) : option (list Z * Z) :=
  let buffsize := 4 + 8 + 8 + 8 in
  st ← put_bytes (le_bytes 4 (status_int (status oetxn))) (replicate (Z.to_nat buffsize) 0, 0);
  st ← put_bytes (le_bytes 8 (expire_time oetxn)) st;
  st ← put_bytes (le_bytes 8 (begin_time oetxn)) st;
  put_bytes (le_bytes 8 (end_time oetxn)) st.

(** The id is not stored: it is the key of the record. *)
Definition _unmarshal_txn (oetxn : OESTORE_TXN) (buffer : list Z) : option OESTORE_TXN :=
  st ← read_le buffer 0 4;
  st ← status_of_int (i32 st);
  ex ← read_le buffer 4 8;
  bg ← read_le buffer 12 8;
  en ← read_le buffer 20 8;
  Some (mkTxn st (i64 ex) (i64 bg) (i64 en) (tid oetxn)).

(** ** Keys are the concatenation, and tuple keys are unambiguous *)

Definition tkey (s : string) (pos sz : Z) : string :=
  s +:+ (OES_KEY_SEP +:+ (pretty pos +:+ (OES_KEY_SEP +:+ pretty sz))).
Definition mkey (k v : string) : string := k +:+ (OES_KEY_SEP +:+ v).

Lemma tuple_key_eq s pos sz : tuple_key s pos sz = Some (tkey s pos sz).
Proof.
  unfold tuple_key, Str.oec_str_concat, tkey, Str.oec_itoa. cbn [String.concat String.app].
  repeat change ("" +:+ ?x) with x. rewrite bytes_of_app, length_app. change (bytes_of (OES_KEY_SEP +:+ ?x)) with (126 :: 43 :: bytes_of x).
  cbn [length]. rewrite (proj2 (Z.eqb_neq _ _)) by lia. done.
Qed.

Lemma map_key_eq k v : map_key k v = Some (mkey k v).
Proof.
  unfold map_key, Str.oec_str_concat, mkey. cbn [String.concat String.app].
  repeat change ("" +:+ ?x) with x. rewrite bytes_of_app, length_app. change (bytes_of (OES_KEY_SEP +:+ ?x)) with (126 :: 43 :: bytes_of x).
  cbn [length]. rewrite (proj2 (Z.eqb_neq _ _)) by lia. done.
Qed.

Lemma pretty_N_go_no_tilde x s : 126 ∉ bytes_of s → 126 ∉ bytes_of (pretty_N_go x s).
Proof.
  revert s. induction (N.lt_wf_0 x) as [x _ IH]; intros s Hs.
  destruct (decide (x = 0)%N) as [->|Hx]; [by rewrite pretty_N_go_0|].
  rewrite pretty_N_go_step by lia. apply IH; [apply N.div_lt; lia|].
  change (126 ∉ uchar_z (pretty_N_char (x `mod` 10)) :: bytes_of s). apply not_elem_of_cons. split; [|done].
  unfold pretty_N_char. repeat case_match; vm_compute; congruence.
Qed.

Lemma pretty_no_tilde (n : Z) : 126 ∉ bytes_of (pretty n).
Proof.
  assert (∀ x : N, 126 ∉ bytes_of (pretty x)) as HN.
  { intros x. unfold pretty, pretty_N. destruct (decide (x = 0)%N); [vm_compute; set_solver|].
    apply pretty_N_go_no_tilde. set_solver. }
  destruct n as [|p|p]; [vm_compute; set_solver|apply (HN (Npos p))|].
  change (126 ∉ 45 :: bytes_of (pretty (Npos p))). apply not_elem_of_cons. split; [lia|apply HN].
Qed.

(** Splitting at the last separator is unique. *)
Lemma app_last_inj {A} (c : A) l1 l2 r1 r2 :
  c ∉ r1 → c ∉ r2 → l1 ++ c :: r1 = l2 ++ c :: r2 → l1 = l2 ∧ r1 = r2.
Proof.
  intros H1 H2. revert l2. induction l1 as [|a l1 IH]; intros [|b l2] E; cbn in E.
  - by injection E as ->.
  - injection E as -> ->. exfalso. apply H1. set_solver.
  - injection E as -> <-. exfalso. apply H2. set_solver.
  - injection E as -> E. by destruct (IH _ E) as [-> ->].
Qed.

Lemma mkey_inj k v k' v' :
  126 ∉ bytes_of v → 126 ∉ bytes_of v' → mkey k v = mkey k' v' → k = k' ∧ v = v'.
Proof.
  intros Hv Hv' E. apply (f_equal bytes_of) in E. unfold mkey in E. rewrite !(bytes_of_app k), !(bytes_of_app k') in E.
  change (bytes_of (OES_KEY_SEP +:+ ?x)) with (126 :: 43 :: bytes_of x) in E.
  apply app_last_inj in E as [Ek Ev]; [|set_solver..]. simplify_eq.
  split; by apply bytes_of_inj.
Qed.

Lemma tkey_mkey s pos sz : tkey s pos sz = mkey (mkey s (pretty pos)) (pretty sz).
Proof.
  unfold tkey, mkey. apply bytes_of_inj. rewrite !bytes_of_app. by rewrite <-!app_assoc.
Qed.

Lemma tkey_inj s pos sz s' pos' sz' :
  tkey s pos sz = tkey s' pos' sz' → s = s' ∧ pos = pos' ∧ sz = sz'.
Proof.
  rewrite !tkey_mkey. intros E. apply mkey_inj in E as [E1 E2]; [|apply pretty_no_tilde..].
  apply mkey_inj in E1 as [E1 E3]; [|apply pretty_no_tilde..].
  split_and!; [done|by apply (inj pretty)..].
Qed.

(** ** The keys of a list of attributes *)

Fixpoint tkeys (l : list string) (pos sz : Z) : list string :=
  match l with
  | [] => []
  | s :: l => if bool_decide (s = "_") then tkeys l (pos + 1) sz
              else tkey s pos sz :: tkeys l (pos + 1) sz
  end.

Lemma tuple_props_loop_eq l pos sz : tuple_props_loop l pos sz = Some (tkeys l pos sz).
Proof.
  revert pos. induction l as [|s l IH]; intros pos; [done|].
  cbn [tuple_props_loop tkeys]. case_bool_decide; [apply IH|]. by rewrite tuple_key_eq, IH.
Qed.

Lemma tuple_query_keys_eq l pos sz : tuple_query_keys l pos sz = Some (tkeys l pos sz).
Proof.
  revert pos. induction l as [|s l IH]; intros pos; [done|].
  cbn [tuple_query_keys tkeys]. unfold OESTORE_WILDCARD. case_bool_decide; [apply IH|].
  by rewrite tuple_key_eq, IH.
Qed.

Lemma elem_of_tkeys l pos sz k :
  k ∈ tkeys l pos sz ↔ ∃ i s, l !! i = Some s ∧ s ≠ "_" ∧ k = tkey s (pos + Z.of_nat i) sz.
Proof.
  revert pos. induction l as [|s l IH]; intros pos; cbn [tkeys].
  { split; [set_solver|]. by intros (i & s & ? & _). }
  assert ((∃ i s', (s :: l) !! i = Some s' ∧ s' ≠ "_" ∧ k = tkey s' (pos + Z.of_nat i) sz) ↔
          (s ≠ "_" ∧ k = tkey s pos sz) ∨ k ∈ tkeys l (pos + 1) sz) as ->.
  - rewrite IH. split.
    + intros (i & s' & Hi & Hs & ->). destruct i as [|i]; cbn in Hi; simplify_eq.
      * left. by rewrite Z.add_0_r.
      * right. exists i, s'. split_and!; [done..|]. f_equal. lia.
    + intros [[Hs ->]|(i & s' & Hi & Hs & ->)].
      * exists 0%nat, s. by rewrite Z.add_0_r.
      * exists (S i), s'. split_and!; [done..|]. f_equal. lia.
  - case_bool_decide; set_solver.
Qed.

Fixpoint attr_pairs (l : list string) : list (string * string) :=
  match l with k :: v :: l => (k, v) :: attr_pairs l | _ => [] end.

Lemma even_cons2 {A} (a b : A) l : Nat.Even (length (a :: b :: l)) → Nat.Even (length l).
Proof. intros [n Hn]. exists (n - 1)%nat. cbn in Hn. lia. Qed.

Lemma map_props_loop_eq l :
  Nat.Even (length l) →
  map_props_loop l =
  Some ((λ p, mkey p.1 p.2) <$> filter (λ p, p.1 ≠ "_" ∧ p.2 ≠ "_") (attr_pairs l)).
Proof.
  induction l as [|s|k v l IH] using pairs_ind; intros He; [done|destruct He as [n Hn]; cbn in Hn; lia|].
  cbn [map_props_loop attr_pairs]. rewrite filter_cons. unfold OESTORE_NULL. specialize (IH (even_cons2 _ _ _ He)).
  repeat case_bool_decide; rewrite ?map_key_eq, IH; cbn [mbind option_bind];
    case_decide; cbn [fst snd] in *; [naive_solver..|done|naive_solver].
Qed.

Lemma map_query_keys_eq l :
  Nat.Even (length l) → map_query_keys l = Some ((λ p, mkey p.1 p.2) <$> attr_pairs l).
Proof.
  induction l as [|s|k v l IH] using pairs_ind; intros He; [done|destruct He as [n Hn]; cbn in Hn; lia|].
  cbn [map_query_keys attr_pairs]. rewrite map_key_eq, (IH (even_cons2 _ _ _ He)). done.
Qed.

(** ** When a template finds an object *)

(** C37  Tuple matching: for a template with a field that is not the wildcard,
    every key the query is positioned on is a key of a stored tuple exactly
    when the two have the same number of fields and agree in every field of
    the template that is not the wildcard.  No two different (field, position,
    size) triples share a key string, whatever characters the fields hold. *)
Theorem tuple_match_spec h q qs ks :
  Exists (λ s, s ≠ "_") (strings q) →
  tuple_query_keys (strings q) 0 (DataObject_get_nattrs q) = Some qs →
  _set_tuple_props h = Some (CbKeys ks) →
  qs ⊆ ks ↔
  length (strings q) = length (strings (_getdata h)) ∧
  ∀ i s, strings q !! i = Some s → s ≠ "_" → strings (_getdata h) !! i = Some s.
Proof.
  intros Hne. rewrite tuple_query_keys_eq. intros [= <-]. unfold _set_tuple_props, OeStoreHolder_get_data.
  rewrite tuple_props_loop_eq. cbn [mbind option_bind]. case_match; [done|]. intros [= <-].
  unfold DataObject_get_nattrs. rewrite !length_spec. set (o := strings (_getdata h)). set (t := strings q) in *.
  split.
  - intros Hsub. assert (∀ i s, t !! i = Some s → s ≠ "_" →
      ∃ i', o !! i' = Some s ∧ i = i' ∧ length t = length o) as Hm.
    { intros i s Hi Hs. destruct (proj1 (elem_of_tkeys o 0 (Z.of_nat (length o)) (tkey s (0 + Z.of_nat i) (Z.of_nat (length t)))))
        as (i' & s' & Hi' & Hs' & E).
      { apply Hsub, elem_of_tkeys. eauto. }
      apply tkey_inj in E as (-> & Ei & En). exists i'. split_and!; [done|lia|lia]. }
    split; [|intros i s Hi Hs; by destruct (Hm i s Hi Hs) as (i' & ? & -> & ?)].
    apply list.Exists_exists in Hne as (s & Hin & Hs). apply list_elem_of_lookup in Hin as [i Hi].
    by destruct (Hm i s Hi Hs) as (? & ? & ? & ?).
  - intros [Hl Hm] k Hk. apply elem_of_tkeys in Hk as (i & s & Hi & Hs & ->).
    apply elem_of_tkeys. exists i, s. rewrite Hl. eauto.
Qed.

Definition tuple_holder (l : list string) : OeStoreHolder :=
  mkHolder OESTORE_UNLOCKED true 0 0 Str.OEC_FOREVER (Some (mkDataObject l 0 None None false)).

Lemma tuple_match_spec_witness :
  ["job~+0~+3"; "7~+2~+3"] ⊆ ["job~+0~+3"; "x~+1~+3"; "7~+2~+3"] ↔
  length ["job"; "_"; "7"] = length ["job"; "x"; "7"] ∧
  ∀ i s, ["job"; "_"; "7"] !! i = Some s → s ≠ "_" → ["job"; "x"; "7"] !! i = Some s.
Proof.
  apply (tuple_match_spec (tuple_holder ["job"; "x"; "7"]) (mkDataObject ["job"; "_"; "7"] 0 None None false));
    [by repeat constructor|vm_compute; reflexivity..].
Defined.

(** Map matching: for templates and maps with an even number of
    attributes and no tilde in their values, every key the query is
    positioned on is a key of the stored map exactly when every pair of the
    template is a pair of the map without an underscore in it. *)
Theorem map_match_spec h q qs ks :
  Nat.Even (length (strings q)) →
  Forall (λ p, 126 ∉ bytes_of p.2) (attr_pairs (strings q) ++ attr_pairs (strings (_getdata h))) →
  map_query_keys (strings q) = Some qs →
  _set_map_props h = Some (CbKeys ks) →
  qs ⊆ ks ↔
  ∀ p, p ∈ attr_pairs (strings q) → p.1 ≠ "_" ∧ p.2 ≠ "_" ∧ p ∈ attr_pairs (strings (_getdata h)).
Proof.
  intros He Ht. rewrite map_query_keys_eq by done. intros [= <-]. unfold _set_map_props, OeStoreHolder_get_data.
  unfold DataObject_get_nattrs. rewrite length_spec. set (o := strings (_getdata h)) in *.
  case_match eqn:E0; [done|]. case_match eqn:E2; [done|].
  rewrite map_props_loop_eq; cycle 1.
  { apply negb_false_iff, Z.eqb_eq in E2. exists (Z.to_nat (Z.of_nat (length o) / 2)).
    rewrite Z.rem_mod_nonneg in E2 by lia. pose proof (Z.div_mod (Z.of_nat (length o)) 2). lia. }
  cbn [fmap option_fmap option_map]. intros [= <-]. rewrite Forall_forall in Ht. split.
  - intros Hsub p Hp. specialize (Hsub (mkey p.1 p.2)).
    rewrite !list_elem_of_fmap in Hsub. destruct Hsub as (p' & E & Hp'); [eauto|].
    apply list_elem_of_filter in Hp' as [[H1 H2] Hp'].
    apply mkey_inj in E as [E1 E2']; [|apply Ht, list_elem_of_In, elem_of_app; by auto..].
    rewrite E1, E2'. split_and!; [done..|]. by replace p with p' by (destruct p, p'; cbn in *; congruence).
  - intros Hm k Hk. apply list_elem_of_fmap in Hk as (p & -> & Hp). apply list_elem_of_fmap.
    exists p. split; [done|]. apply list_elem_of_filter. naive_solver.
Qed.

Definition map_holder (l : list string) : OeStoreHolder :=
  mkHolder OESTORE_UNLOCKED false 0 0 Str.OEC_FOREVER (Some (mkDataObject l 0 None None false)).

Lemma map_match_spec_witness :
  ["job~+x"] ⊆ ["id~+7"; "job~+x"] ↔
  ∀ p, p ∈ [("job", "x")] → p.1 ≠ "_" ∧ p.2 ≠ "_" ∧ p ∈ [("id", "7"); ("job", "x")].
Proof.
  apply (map_match_spec (map_holder ["id"; "7"; "job"; "x"]) (mkDataObject ["job"; "x"] 0 None None false));
    [by exists 1%nat|repeat constructor; vm_compute; set_solver|vm_compute; reflexivity..].
Defined.

(** The separator is not escaped: two different map entries, and a map
    entry and a tuple field, can have the same index key, so that a query for
    the one finds the other. *)
Theorem index_key_collisions :
  map_key "a" "b~+c" = map_key "a~+b" "c" ∧
  tuple_key "a" 0 1 = map_key "a" "0~+1" ∧
  (∃ ks, _set_map_props (map_holder ["a"; "0~+1"]) = Some (CbKeys ks) ∧
         tuple_query_keys ["a"] 0 1 = Some ks).
Proof. vm_compute. split_and!; eauto. Qed.

(** The comparison callbacks order keys as their comments say when the
    keys are less than 2^31 apart; further apart they do not: two distinct
    times 2^32 apart compare as equal, and one 2^31 later compares as
    earlier. *)
Theorem compare_oe_time_spec :
  (∀ a b, in_s 64 a → in_s 64 b → Z.abs (a - b) < 2 ^ 31 →
     _compare_oe_time a b = a - b) ∧
  (∀ a b, in_u 64 a → in_u 64 b → Z.abs (a - b) < 2 ^ 31 →
     _compare_oe_id a b = a - b) ∧
  _compare_oe_time (2 ^ 32) 0 = 0 ∧ _compare_oe_id (2 ^ 32) 0 = 0 ∧
  _compare_oe_time (2 ^ 31) 0 < 0 ∧ _compare_oe_id (2 ^ 31) 0 < 0.
Proof.
  split_and!; [| |done..].
  - intros a b _ _ H. unfold _compare_oe_time. rewrite (wraps_id 64), wraps_id by width. done.
  - intros a b _ _ H. unfold _compare_oe_id, wrapu.
    rewrite <-(wraps_mod 32), Z.mod_mod_divide, wraps_mod, wraps_id; [done|lia|width|lia| |lia].
    by exists (2 ^ 32).
Qed.

(** ** Transactions round trip *)

Definition enc_txn (x : OESTORE_TXN) : list Z :=
  le_bytes 4 (status_int (status x)) ++ le_bytes 8 (expire_time x) ++
  le_bytes 8 (begin_time x) ++ le_bytes 8 (end_time x).

Record txn_wf (x : OESTORE_TXN) : Prop := {
  tw_exp : in_s 64 (expire_time x);
  tw_begin : in_s 64 (begin_time x);
  tw_end : in_s 64 (end_time x)
}.

Lemma marshal_txn_enc x : _marshal_txn x = Some (enc_txn x, 28).
Proof. reflexivity. Qed.

Lemma status_round s : status_of_int (i32 (status_int s mod 2 ^ (8 * Z.of_nat 4))) = Some s.
Proof. by destruct s. Qed.

Lemma unmarshal_txn_enc x y post :
  txn_wf x →
  _unmarshal_txn y (enc_txn x ++ post) =
  Some (mkTxn (status x) (expire_time x) (begin_time x) (end_time x) (tid y)).
Proof.
  intros [He Hb Hn]. unfold _unmarshal_txn, enc_txn. rewrite <-!app_assoc.
  set (a := le_bytes 4 _). set (b := le_bytes 8 (expire_time x)). set (c := le_bytes 8 (begin_time x)).
  set (buf := a ++ _).
  rewrite (read_le_at buf 0 [] 4 _ _ eq_refl eq_refl). cbn [mbind option_bind]. rewrite status_round. cbn [mbind option_bind].
  rewrite (read_le_at buf 4 a 8 (expire_time x) _ eq_refl eq_refl). cbn [mbind option_bind].
  rewrite (read_le_at buf 12 (a ++ b) 8 (begin_time x) (le_bytes 8 (end_time x) ++ post));
    [|by subst buf; rewrite <-!app_assoc|done]. cbn [mbind option_bind].
  rewrite (read_le_at buf 20 (a ++ b ++ c) 8 (end_time x) post);
    [|by subst buf; rewrite <-!app_assoc|done]. cbn [mbind option_bind].
  rewrite !(wraps_mod 64), !wraps_id by done. done.
Qed.
