(* ===== verification/Bdb.v ===== *)
(** * Bdb: the Berkeley DB implementation of the store

    Models the operations of [src/corelib/OeBdb.c].  Berkeley DB is not part
    of the repository: [BerkeleyDB] is the interface of it that the code
    calls (an operation per call, a result code per operation), and
    [BerkeleyDBSpec] the documented behaviour the theorems rely on.  Any
    operation may fail with any code.  A [DB_TXN] is a value with a [view].
    What a call does inside its database transaction is one step against the
    calls of other threads, which is what the database's transactions
    provide.  [_txn_is_active] reads outside of it: in [_api_put_seen] and
    [_api_get_seen] the records it reads are those of [seen], an environment
    other calls may have changed since; [_api_put] and [_api_get] are the
    calls no other call comes between.  A cursor loop is given by the records it would
    return and the code that ends it; changing the record under the cursor
    does not change the records after it.

    [None] is an assertion failure, a read outside a record, or an operation
    on a handle that is not one any more: a failed begin leaves none, and a
    commit ends the handle whether it succeeds or fails.  [now] is the
    clock reading of a phase of a call. *)

From S2P Require Import Prelude Values Collections StoreHolder BdbKeys.
Import AList DataObject DataObjectList.

(** ** The database as a parameter *)

(** The two primary databases. *)
Record content := mkContent {
  c_holders : gmap Z (list Z);
  c_txns : gmap Z (list Z)
}.
Definition set_holders (f : gmap Z (list Z) → gmap Z (list Z)) (c : content) : content :=
  mkContent (f (c_holders c)) (c_txns c).
Definition set_txns (f : gmap Z (list Z) → gmap Z (list Z)) (c : content) : content :=
  mkContent (c_holders c) (f (c_txns c)).

(** Records a cursor returns, with their primary keys, and the final code. *)
Definition scan : Type := list (Z * list Z) * Z.

Class BerkeleyDB := {
  DB_NOTFOUND : Z;
  DB_LOCK_DEADLOCK : Z;
  DB_BUFFER_SMALL : Z;
  denv : Type;
  dtxn : Type;
  store_of : denv → content;
  view : dtxn → content;
  seq_bound : denv → Z;
  txn_begin : denv → Z * dtxn;
  txn_commit : denv → dtxn → Z * denv;
  txn_abort : denv → dtxn → denv;
  is_deadlocked : dtxn → bool;
  usermem : list Z → Z → Z * Z * list Z;
  holder_get : dtxn → Z → Z * list Z;
  holder_put : dtxn → Z → list Z → Z * dtxn;
  holder_del : dtxn → Z → Z * dtxn;
  txndb_get : denv → option dtxn → Z → Z * list Z;
  txndb_put : dtxn → Z → list Z → Z * dtxn;
  prop_cursor : dtxn → Z;
  prop_set : dtxn → string → Z;
  prop_join : dtxn → list string → Z * scan;
  owner_scan : dtxn → Z → Z * scan;
  expire_scan : dtxn → Z → Z * scan;
  cursor_close : dtxn → Z;
  seq_get : denv → Z * Z * denv
}.

(** Index entries as the callbacks of [associate] define them. *)
Definition has_prop (b : list Z) (k : string) : Prop := ∃ ks, _set_props b = Some (CbKeys ks) ∧ k ∈ ks.
Definition indexable (b : list Z) : Prop :=
  _set_props b = Some CbDoNotIndex ∨ ∃ ks, _set_props b = Some (CbKeys ks).

(** The records of a scan are distinct records of the view that satisfy [P];
    when the scan ends by running out of records they are all of them. *)
Definition scan_ok {B : BerkeleyDB} (t : dtxn) (P : list Z → Prop) (s : scan) : Prop :=
  s.2 ≠ 0 ∧ NoDup s.1.*1 ∧
  (∀ k b, (k, b) ∈ s.1 → c_holders (view t) !! k = Some b ∧ P b) ∧
  (s.2 = DB_NOTFOUND → ∀ k b, c_holders (view t) !! k = Some b → P b → (k, b) ∈ s.1).

(** Codes of the library: 0, an [errno], or its own range. *)
Definition is_db_code (rc : Z) : Prop := 0 ≤ rc ∨ -30999 ≤ rc ≤ -30800.
Definition expires (b : list Z) (x : Z) : Prop := _set_expire_time b = Some (Some x).

Class BerkeleyDBSpec (B : BerkeleyDB) := {
  code_notfound : -30999 ≤ DB_NOTFOUND ≤ -30800;
  code_deadlock : -30999 ≤ DB_LOCK_DEADLOCK ≤ -30800;
  code_small : -30999 ≤ DB_BUFFER_SMALL ≤ -30800;
  code_distinct : DB_NOTFOUND ≠ DB_LOCK_DEADLOCK ∧ DB_NOTFOUND ≠ DB_BUFFER_SMALL;
  begin_view e t : txn_begin e = (0, t) → view t = store_of e;
  commit_ok e t e' :
    txn_commit e t = (0, e') → store_of e' = view t ∧ seq_bound e' = seq_bound e;
  commit_err e t rc e' :
    txn_commit e t = (rc, e') → rc ≠ 0 → store_of e' = store_of e ∧ seq_bound e' = seq_bound e;
  abort_ok e t : store_of (txn_abort e t) = store_of e ∧ seq_bound (txn_abort e t) = seq_bound e;
  usermem_ok r n :
    usermem r n = if n <? Z.of_nat (length r) then (DB_BUFFER_SMALL, Z.of_nat (length r), [])
                  else (0, Z.of_nat (length r), r);
  hget_ok t k b : holder_get t k = (0, b) → c_holders (view t) !! k = Some b;
  hget_notfound t k b : holder_get t k = (DB_NOTFOUND, b) → c_holders (view t) !! k = None;
  hput_ok t k b t' :
    holder_put t k b = (0, t') → view t' = set_holders <[k := b]> (view t) ∧ indexable b;
  hdel_ok t k t' : holder_del t k = (0, t') → view t' = set_holders (delete k) (view t);
  hdel_notfound t k t' : holder_del t k = (DB_NOTFOUND, t') → view t' = view t;
  tget_ok e ot k b :
    txndb_get e ot k = (0, b) →
    c_txns (match ot with Some t => view t | None => store_of e end) !! k = Some b;
  tput_ok t k b t' : txndb_put t k b = (0, t') → view t' = set_txns <[k := b]> (view t);
  begin_code e : is_db_code (txn_begin e).1 ∧ (txn_begin e).1 ≠ DB_NOTFOUND;
  prop_cursor_code t : is_db_code (prop_cursor t) ∧ prop_cursor t ≠ DB_NOTFOUND;
  prop_set_code t key : is_db_code (prop_set t key);
  prop_set_notfound t key k b :
    prop_set t key = DB_NOTFOUND → c_holders (view t) !! k = Some b → ¬ has_prop b key;
  join_ok t keys s :
    prop_join t keys = (0, s) → is_db_code s.2 ∧ scan_ok t (λ b, Forall (has_prop b) keys) s;
  owner_ok t o s :
    owner_scan t o = (0, s) →
    scan_ok t (λ b, ∃ o', _set_owner b = Some (Some o') ∧ _compare_oe_id o' o = 0) s;
  expire_ok t now s :
    expire_scan t now = (0, s) →
    s.2 ≠ 0 ∧ NoDup s.1.*1 ∧
    ∀ k b, (k, b) ∈ s.1 → c_holders (view t) !! k = Some b ∧ ∃ x, expires b x;
  expire_none t now s :
    expire_scan t now = (0, s) →
    (∀ k b x, c_holders (view t) !! k = Some b → expires b x → _compare_oe_time x now < 0) →
    s = ([], DB_NOTFOUND);
  seq_ok e i e' :
    seq_get e = (0, i, e') →
    seq_bound e ≤ i ∧ 0 < i < 2 ^ 63 ∧ seq_bound e' = i + 1 ∧ store_of e' = store_of e;
  seq_err e rc i e' :
    seq_get e = (rc, i, e') → rc ≠ 0 → seq_bound e' = seq_bound e ∧ store_of e' = store_of e
}.

Section OeBdb.
Context {B : BerkeleyDB}.

(** ** State of the store *)

Record OeBdb := mkOeBdb {
  env : denv;
  fire_write_event : bool;
  reaper_running_flag : bool
}.
Definition set_env (b : OeBdb) (e : denv) : OeBdb :=
  mkOeBdb e (fire_write_event b) (reaper_running_flag b).

(** ** Transactions and reads *)

Definition _handlerc (e : denv) (rc : Z) (txn : option dtxn) : Z * denv :=
  let e := match txn with
           | Some t => if negb (rc =? 0) then txn_abort e t else e
           | None => e
           end in
  (if rc =? DB_LOCK_DEADLOCK then OE_STORE_PLEASE_RETRY
   else if rc =? DB_NOTFOUND then OE_STORE_ITEM_NOTFOUND else rc, e).

Definition _finish_txn (e : denv) (txn : option dtxn) (commit : bool) : Z * denv :=
  match txn with
  | None => (0, e)
  | Some t =>
    if commit && is_deadlocked t then (DB_LOCK_DEADLOCK, txn_abort e t)
    else if commit then txn_commit e t
    else (0, txn_abort e t)
  end.

Definition OEBDB_DEFAULT_READ_BUFFER_SIZE : Z := 200.

(** The buffer-growing loop of [_get] and [_get_with_cursor] on a record: the
    buffer is zeroed, and its length is what the last call asked for. *)
Fixpoint read_loop (fuel : nat) (ulen : Z) (r : list Z) : option (Z * list Z) :=
  match fuel with
  | O => None
  | S fuel =>
    let '(ret, size, d) := usermem r ulen in
    if ret =? DB_BUFFER_SMALL then read_loop fuel size r
    else Some (ret, d ++ replicate (Z.to_nat ulen - length d) 0)
  end.

(** [res] is what the database answers: a code, and the record when it is 0. *)
Definition _get (res : Z * list Z) : option (Z * list Z) :=
  if res.1 =? 0 then read_loop 2 OEBDB_DEFAULT_READ_BUFFER_SIZE res.2 else Some (res.1, []).
Definition _get_with_cursor (r : list Z) : option (Z * list Z) :=
  read_loop 2 OEBDB_DEFAULT_READ_BUFFER_SIZE r.

(** ** Put *)

Definition _put_holder (t : dtxn) (holder : OeStoreHolder) : option (Z * dtxn) :=
  if is_deadlocked t then Some (DB_LOCK_DEADLOCK, t)
  else
    '(buffer, buffer_len) ← OeStoreHolder_marshal holder;
    Some (holder_put t (lease_id holder) (take (Z.to_nat buffer_len) buffer)).

Definition _put_oetxn (t : dtxn) (oetxn : OESTORE_TXN) : option (Z * dtxn) :=
  if is_deadlocked t then Some (DB_LOCK_DEADLOCK, t)
  else
    '(buffer, buffer_len) ← _marshal_txn oetxn;
    Some (txndb_put t (tid oetxn) (take (Z.to_nat buffer_len) buffer)).

Definition _get_txn (e : denv) (txn : option dtxn) (oetxn : OESTORE_TXN) : option (Z * OESTORE_TXN) :=
  if match txn with Some t => is_deadlocked t | None => false end
  then Some (DB_LOCK_DEADLOCK, oetxn)
  else
    '(ret, data) ← _get (txndb_get e txn (tid oetxn));
    if ret =? 0 then (x ← _unmarshal_txn oetxn data; Some (0, x)) else Some (ret, oetxn).

Definition zero_txn (t : Z) : OESTORE_TXN := mkTxn OESTORE_TXN_COMMITTED 0 0 0 t.

Definition _txn_is_active (e : denv) (tid : Z) : option bool :=
  c_assert (negb (tid =? 0));;
  '(ret, oetxn) ← _get_txn e None (zero_txn tid);
  Some (if negb (ret =? 0) then false else bool_decide (status oetxn = OESTORE_TXN_ACTIVE)).

(** The result code, the events fired, the caller's handle if it is still
    one, and the environment.  The commit is on the callee's copy of the
    handle: the caller keeps the pointer. *)
Definition _try_put (b : OeBdb) (seen e : denv) (holder : OeStoreHolder) (txn : dtxn)
    : option (Z * list DataObject * option dtxn * denv) :=
  let tid := txn_id holder in
  active ← (if tid =? 0 then Some true else _txn_is_active seen tid);
  if negb active then Some (OESTORE_INACTIVE_TXN, [], Some txn, e)
  else
    '(ret, t) ← _put_holder txn holder;
    if negb (ret =? 0) then Some (ret, [], Some t, e)
    else if is_deadlocked t then Some (DB_LOCK_DEADLOCK, [], Some t, e)
    else
      let '(ret, e) := txn_commit e t in
      Some (ret,
            if (ret =? 0) && (fire_write_event b && (txn_id holder =? 0))
            then [OeStoreHolder_get_data holder] else [], None, e).

(** [for (;;)] until the sequence answers. *)
Fixpoint _create_id (fuel : nat) (e : denv) : option (Z * denv) :=
  match fuel with
  | O => None
  | S fuel =>
    let '(ret, seqnum, e) := seq_get e in
    if negb (ret =? 0) then _create_id fuel e else Some (seqnum, e)
  end.

(** The holder is updated in place: the caller sees its lease id.  [seen] is
    what [_txn_is_active] reads, when another call has committed between that
    read and this transaction's first access. *)
Definition _api_put_seen (fuel : nat) (seen : option denv) (b : OeBdb) (holder : OeStoreHolder)
    : option (Z * list DataObject * OeStoreHolder * OeBdb) :=
  '(lid, e) ← _create_id fuel (env b);
  let holder := OeStoreHolder_set_lease_id holder lid in
  let '(ret, txn_holder) := txn_begin e in
  if ret =? 0 then
    '(ret, evs, txn_holder, e) ← _try_put b (default e seen) e holder txn_holder;
    (* [_handlerc] aborts a handle that a failed commit has ended *)
    match txn_holder with
    | None => if ret =? 0 then Some (ret, evs, holder, set_env b e) else None
    | Some t => let '(rc, e) := _handlerc e ret (Some t) in Some (rc, evs, holder, set_env b e)
    end
  else
    (* [txn_holder] is not set: the abort in [_handlerc] is on garbage *)
    None.
Definition _api_put (fuel : nat) (b : OeBdb) (holder : OeStoreHolder)
    : option (Z * list DataObject * OeStoreHolder * OeBdb) :=
  _api_put_seen fuel None b holder.

(** ** Get *)

Fixpoint _update_locks_for_take_loop (now : Z) (t : dtxn) (results : list OeStoreHolder)
    : option (Z * dtxn) :=
  match results with
  | [] => Some (0, t)
  | result :: results =>
    '(ret, data) ← _get (holder_get t (lease_id result));
    if ret =? DB_NOTFOUND then Some (OE_STORE_PLEASE_RETRY, t)
    else if negb (ret =? 0) then Some (ret, t)
    else
      rholder ← OeStoreHolder_new_from_buffer data;
      if negb (bool_decide (OeStoreHolder_skip now rholder = OESTORE_DO_NOT_SKIP))
      then Some (OE_STORE_PLEASE_RETRY, t)
      else
        '(ret, t) ← _put_holder t result;
        if negb (ret =? 0) then Some (ret, t)
        else _update_locks_for_take_loop now t results
  end.
Definition _update_locks_for_take (now : Z) (query : OeStoreQuery) (t : dtxn) : option (Z * dtxn) :=
  if is_deadlocked t then Some (OE_STORE_PLEASE_RETRY, t)
  else _update_locks_for_take_loop now t (q_results query).

Fixpoint _delete_items_for_take_loop (now : Z) (t : dtxn) (results : list OeStoreHolder)
    : option (Z * dtxn) :=
  match results with
  | [] => Some (0, t)
  | result :: results =>
    '(ret, data) ← _get (holder_get t (lease_id result));
    if ret =? DB_NOTFOUND then Some (OE_STORE_PLEASE_RETRY, t)
    else if negb (ret =? 0) then Some (ret, t)
    else
      rholder ← OeStoreHolder_new_from_buffer data;
      if negb (bool_decide (OeStoreHolder_skip now rholder = OESTORE_DO_NOT_SKIP))
      then Some (OE_STORE_PLEASE_RETRY, t)
      else
        let '(ret, t) := holder_del t (lease_id result) in
        if negb (ret =? 0) then Some (ret, t)
        else _delete_items_for_take_loop now t results
  end.
Definition _delete_items_for_take (now : Z) (query : OeStoreQuery) (t : dtxn) : option (Z * dtxn) :=
  if is_deadlocked t then Some (OE_STORE_PLEASE_RETRY, t)
  else _delete_items_for_take_loop now t (q_results query).

(** Positioning the cursors: the code, and the keys positioned on so far. *)
Fixpoint position_tuple (t : dtxn) (l : list string) (pos sz : Z) : option (Z * list string) :=
  match l with
  | [] => Some (0, [])
  | skey :: l =>
    if bool_decide (skey = OESTORE_WILDCARD) then position_tuple t l (pos + 1) sz
    else
      keystr ← tuple_key skey pos sz;
      let ret := prop_set t keystr in
      if negb (ret =? 0) then Some (ret, [])
      else '(ret, ks) ← position_tuple t l (pos + 1) sz; Some (ret, keystr :: ks)
  end.
Definition _position_tuple_cursors (t : dtxn) (values : DataObject) : option (Z * list string) :=
  position_tuple t (strings values) 0 (i32 (DataObject_get_nattrs values)).

Fixpoint position_map (t : dtxn) (l : list string) : option (Z * list string) :=
  match l with
  | [] => Some (0, [])
  | [_] => None
  | dkey :: dvalue :: l =>
    keystr ← map_key dkey dvalue;
    let ret := prop_set t keystr in
    if negb (ret =? 0) then Some (ret, [])
    else '(ret, ks) ← position_map t l; Some (ret, keystr :: ks)
  end.
Definition _position_map_cursors (t : dtxn) (values : DataObject) : option (Z * list string) :=
  let sz := i32 (DataObject_get_nattrs values) in
  if sz <=? 0 then Some (-1, [])
  else if negb (Z.rem sz 2 =? 0) then Some (-1, [])
  else position_map t (strings values).

(** The loop over the join cursor. *)
Fixpoint get_one_loop (now : Z) (items : list (Z * list Z)) (fin : Z) (query : OeStoreQuery)
    : option (Z * OeStoreQuery) :=
  match items with
  | [] => Some (fin, query)
  | (_, r) :: items =>
    '(ret, sdata) ← _get_with_cursor r;
    if negb (ret =? 0) then Some (ret, query)
    else
      rholder ← OeStoreHolder_new_from_buffer sdata;
      match OeStoreHolder_skip now rholder with
      | OESTORE_SKIP => get_one_loop now items fin query
      | OESTORE_SKIP_BUT_EXISTS => get_one_loop now items fin (OeStoreQuery_set_exists query true)
      | OESTORE_DO_NOT_SKIP =>
        let rholder :=
          if q_take query
          then OeStoreHolder_set_txn_id (OeStoreHolder_set_lock rholder OESTORE_TAKE_LOCK) (q_owner_id query)
          else rholder in
        let query := OeStoreQuery_set_exists (OeStoreQuery_add_store_holder query rholder) true in
        if OeStoreQuery_get_max_results query <=? OeStoreQuery_get_nitems_found query
        then Some (0, query)
        else get_one_loop now items fin query
      end
  end.

Definition _get_one (now : Z) (query : OeStoreQuery) (data : DataObject) (txn_holder : dtxn)
    : option (Z * OeStoreQuery) :=
  let nkeys := _calc_nkeys query data in
  if nkeys <=? 0 then Some (-1, query)
  else
    let ret := prop_cursor txn_holder in
    if negb (ret =? 0) then Some (ret, query)
    else
      '(ret, keys) ← (if q_is_tuple query then _position_tuple_cursors txn_holder data
                      else _position_map_cursors txn_holder data);
      if negb (ret =? 0) then Some (ret, query)
      else
        let '(ret, (items, fin)) := prop_join txn_holder keys in
        (* a failed join leaves no join cursor, and the code closes it *)
        if negb (ret =? 0) then None
        else get_one_loop now items fin query.

(** The loop over the templates of a query. *)
Fixpoint api_get_loop (now : Z) (_AND : bool) (l : list DataObject) (ret : Z) (query : OeStoreQuery)
    (txn_holder : dtxn) : option (Z * OeStoreQuery) :=
  match l with
  | [] => Some (ret, query)
  | data :: l =>
    let hits := OeStoreQuery_get_nitems_found query in
    '(ret, query) ← _get_one now query data txn_holder;
    if negb (ret =? 0) && negb (ret =? DB_NOTFOUND) then Some (ret, query)
    else if _AND && (hits =? OeStoreQuery_get_nitems_found query)
    then Some (DB_NOTFOUND, OeStoreQuery_reset_nitems_found query)
    else api_get_loop now _AND l ret query txn_holder
  end.

Definition _api_get_seen (now now' : Z) (seen : option denv) (b : OeBdb) (query : OeStoreQuery)
    : option (Z * OeStoreQuery * OeBdb) :=
  let take := q_take query in
  let tid := q_owner_id query in
  let e := env b in
  active ← (if take && negb (tid =? 0) then _txn_is_active (default e seen) tid else Some true);
  if negb active then Some ((_handlerc e OESTORE_INACTIVE_TXN None).1, query, b)
  else
    let _AND := OeStoreQuery_get_max_results query =? 0 in
    let '(ret, txn_holder) := txn_begin e in
    if negb (ret =? 0) then Some ((_handlerc e ret None).1, query, b)
    else
      value_lists ← OeStoreQuery_get_value_lists query;
      '(ret, query) ← api_get_loop now _AND value_lists ret query txn_holder;
      let items_found := OeStoreQuery_get_nitems_found query in
      let ret := if negb _AND && (ret =? DB_NOTFOUND) && negb (items_found =? 0) then 0 else ret in
      if negb (ret =? 0) then
        let '(_, e) := _finish_txn e (Some txn_holder) false in
        Some ((_handlerc e ret None).1, query, set_env b e)
      else if take && (0 <? items_found) then
        '(ret, txn_holder) ← (if q_owner_id query =? 0 then _delete_items_for_take now' query txn_holder
                              else _update_locks_for_take now' query txn_holder);
        if negb (ret =? 0) then
          let '(_, e) := _finish_txn e (Some txn_holder) false in
          Some ((_handlerc e ret None).1, query, set_env b e)
        else
          let '(lret, e) := _finish_txn e (Some txn_holder) true in
          Some ((_handlerc e lret None).1, query, set_env b e)
      else
        let '(_, e) := _finish_txn e (Some txn_holder) false in
        if items_found <=? 0 then Some (OE_STORE_ITEM_NOTFOUND, query, set_env b e)
        else Some ((_handlerc e ret None).1, query, set_env b e).
Definition _api_get (now now' : Z) (b : OeBdb) (query : OeStoreQuery)
    : option (Z * OeStoreQuery * OeBdb) :=
  _api_get_seen now now' None b query.

(** ** Transactions *)

(** Additions of times are on [long long]. *)
Definition _start_txn (fuel : nat) (now : Z) (b : OeBdb) (dur : Z)
    : option (Z * OESTORE_TXN * OeBdb) :=
  let '(ret, txn_holder) := txn_begin (env b) in
  if negb (ret =? 0) then Some ((_handlerc (env b) ret None).1, zero_txn 0, b)
  else
    let exptime := if dur =? Str.OEC_FOREVER then Str.OEC_FOREVER else i64 (now + dur) in
    '(tid, e) ← _create_id fuel (env b);
    let oetxn := mkTxn OESTORE_TXN_ACTIVE exptime now 0 tid in
    '(ret, txn_holder) ← _put_oetxn txn_holder oetxn;
    if ret =? 0 then
      let '(ret, e) := txn_commit e txn_holder in
      Some ((_handlerc e ret None).1, oetxn, set_env b e)
    else
      let '(rc, e) := _handlerc e ret (Some txn_holder) in Some (rc, oetxn, set_env b e).

Inductive CMD := DEL | CLEAR | NONE.
Definition choose_cmd (lk delete_lock_type clear_lock_type : OESTORE_LOCK) : CMD :=
  if bool_decide (lk = delete_lock_type) then DEL
  else if bool_decide (lk = clear_lock_type) then CLEAR else NONE.

(** The loop over the items of a transaction.  [inl] is a return from inside
    the loop; [inr] carries the code that ended it, the objects unlocked and
    the number of items seen. *)
Fixpoint finish_loop (del clr : OESTORE_LOCK) (items : list (Z * list Z)) (fin : Z) (t : dtxn)
    (unlocked : list DataObject) (updated_items : Z)
    : option (Z * dtxn + Z * dtxn * list DataObject * Z) :=
  match items with
  | [] => Some (inr (fin, t, unlocked, updated_items))
  | (k, r) :: items =>
    '(ret, data) ← _get_with_cursor r;
    if negb (ret =? 0) then Some (inr (ret, t, unlocked, updated_items))
    else
      rholder ← OeStoreHolder_new_from_buffer data;
      match choose_cmd (lock rholder) del clr with
      | DEL =>
        let '(lret, t) := holder_del t k in
        if negb (lret =? 0) then Some (inl (lret, t))
        else finish_loop del clr items fin t unlocked (updated_items + 1)
      | CLEAR =>
        let rholder := OeStoreHolder_set_lock (OeStoreHolder_set_txn_id rholder 0) OESTORE_UNLOCKED in
        let unlocked :=
          Oec_AList_append unlocked (Oec_AList_list [Some (OeStoreHolder_get_data rholder); None]) in
        '(buffer, buffer_len) ← OeStoreHolder_marshal rholder;
        let '(ret, t) := holder_put t (lease_id rholder) (take (Z.to_nat buffer_len) buffer) in
        if negb (ret =? 0) then Some (inl (ret, t))
        else finish_loop del clr items fin t unlocked (updated_items + 1)
      | NONE => Some (inl (-1, t))
      end
  end.

Definition _finish_oetxn (now : Z) (oetxn : OESTORE_TXN) (t : dtxn) (del clr : OESTORE_LOCK)
    (txn_status : OESTORE_TXN_STATUS) (expected_enlisted : Z)
    : option (Z * dtxn * OESTORE_TXN * list DataObject) :=
  if is_deadlocked t then Some (DB_LOCK_DEADLOCK, t, oetxn, [])
  else if negb (bool_decide (status oetxn = OESTORE_TXN_ACTIVE))
  then Some (OESTORE_ALREADY_COMPLETE_ERR, t, oetxn, [])
  else if tid oetxn =? 0 then Some (OESTORE_IS_NULL_ERR, t, oetxn, [])
  else
    let '(ret, (items, fin)) := owner_scan t (tid oetxn) in
    if negb (ret =? 0) then Some (ret, t, oetxn, [])
    else
      r ← finish_loop del clr items fin t [] 0;
      match r with
      | inl (ret, t) => Some (ret, t, oetxn, [])
      | inr (ret, t, unlocked, updated_items) =>
        let lret := cursor_close t in
        if lret =? DB_LOCK_DEADLOCK then Some (lret, t, oetxn, unlocked)
        else if negb (expected_enlisted =? -1) && negb (updated_items =? expected_enlisted)
        then Some (OESTORE_ENLISTED_COUNT_INCORRECT, t, oetxn, unlocked)
        else
          let oetxn := mkTxn txn_status now (begin_time oetxn) now (tid oetxn) in
          Some (if ret =? DB_NOTFOUND then 0 else ret, t, oetxn, unlocked)
      end.

(** The result code, the events fired and the store. *)
Definition _update_txn (now now' : Z) (b : OeBdb) (tid : Z) (dur : Z) (st : OESTORE_TXN_STATUS)
    (expected_enlisted : Z) : option (Z * list DataObject * OeBdb) :=
  let e := env b in
  let '(ret, txn_holder) := txn_begin e in
  if negb (ret =? 0) then Some ((_handlerc e ret None).1, [], b)
  else
    '(ret, oetxn) ← _get_txn e (Some txn_holder) (zero_txn tid);
    if negb (ret =? 0) then
      let '(rc, e) := _handlerc e ret (Some txn_holder) in Some (rc, [], set_env b e)
    else if bool_decide (status oetxn = OESTORE_TXN_ROLLED_BACK) then
      Some (if negb (bool_decide (st = OESTORE_TXN_ROLLED_BACK))
            then OESTORE_UPDATING_ROLLEDBACK_TXN_ERR else 0, [], set_env b (txn_abort e txn_holder))
    else if bool_decide (status oetxn = OESTORE_TXN_COMMITTED) then
      Some (if negb (bool_decide (st = OESTORE_TXN_COMMITTED))
            then OESTORE_UPDATING_COMMITTED_TXN_ERR else 0, [], set_env b (txn_abort e txn_holder))
    else if negb (expire_time oetxn =? Str.OEC_FOREVER) && (expire_time oetxn <? now) then
      Some (OESTORE_UPDATING_EXPIRED_TXN_ERR, [], set_env b (txn_abort e txn_holder))
    else
      let oetxn := if 0 <? dur
                   then mkTxn (status oetxn) (i64 (now + dur)) (begin_time oetxn) (end_time oetxn) tid
                   else oetxn in
      '(ret, txn_holder, oetxn, unlocked_items) ←
        match st with
        | OESTORE_TXN_COMMITTED =>
          _finish_oetxn now' oetxn txn_holder OESTORE_TAKE_LOCK OESTORE_WRITE_LOCK st expected_enlisted
        | OESTORE_TXN_ROLLED_BACK =>
          _finish_oetxn now' oetxn txn_holder OESTORE_WRITE_LOCK OESTORE_TAKE_LOCK st (-1)
        | OESTORE_TXN_ACTIVE => Some (ret, txn_holder, oetxn, [])
        end;
      if negb (ret =? 0) then
        let '(rc, e) := _handlerc e ret (Some txn_holder) in Some (rc, [], set_env b e)
      else
        '(ret, txn_holder) ← _put_oetxn txn_holder oetxn;
        if negb (ret =? 0) then
          let '(rc, e) := _handlerc e ret (Some txn_holder) in Some (rc, [], set_env b e)
        else if is_deadlocked txn_holder then
          let '(rc, e) := _handlerc e DB_LOCK_DEADLOCK (Some txn_holder) in Some (rc, [], set_env b e)
        else
          let '(ret, e) := txn_commit e txn_holder in
          if negb (ret =? 0) then Some ((_handlerc e ret None).1, [], set_env b e)
          else Some (0, if fire_write_event b && (0 <? Oec_AList_length unlocked_items)
                        then unlocked_items else [], set_env b e).

(** ** Leases *)

Definition _update_lease (now : Z) (b : OeBdb) (lid : Z) (exp : Z) : option (Z * OeBdb) :=
  let e := env b in
  let '(ret, txn) := txn_begin e in
  if negb (ret =? 0) then Some ((_handlerc e ret None).1, b)
  else
    '(ret, data) ← _get (holder_get txn lid);
    if negb (ret =? 0) then
      let '(rc, e) := _handlerc e ret (Some txn) in Some (rc, set_env b e)
    else
      rholder ← OeStoreHolder_new_from_buffer data;
      let holder_exptime := lease_expire_time rholder in
      if negb (holder_exptime =? Str.OEC_FOREVER) && (holder_exptime <? now) then
        Some (-1, set_env b (txn_abort e txn))
      else
        '(buffer, buffer_len) ← OeStoreHolder_marshal (OeStoreHolder_set_lease_expire_time rholder exp);
        let '(ret, txn) := holder_put txn lid (take (Z.to_nat buffer_len) buffer) in
        if negb (ret =? 0) then
          let '(rc, e) := _handlerc e ret (Some txn) in Some (rc, set_env b e)
        else if negb (is_deadlocked txn) then
          let '(ret, e) := txn_commit e txn in Some ((_handlerc e ret None).1, set_env b e)
        else
          let '(rc, e) := _handlerc e DB_LOCK_DEADLOCK (Some txn) in Some (rc, set_env b e).

(** ** The lease reaper *)

(** [ret == false] compares and does not assign: when the flag is set the
    result is the indeterminate value [junk]. *)
Definition _set_reaper_running (junk : bool) (b : OeBdb) (running : bool) : bool * OeBdb :=
  if reaper_running_flag b then (junk, b)
  else (true, mkOeBdb (env b) (fire_write_event b) running).

Definition OESTORE_MAX_LEASE_REAP : Z := 10000000.
Definition OESTORE_MAX_LEASE_REAP_COMMIT : Z := 100.

(** [inl]: a failed delete; [inr]: the code that ended the loop, the handle
    and the result. *)
Fixpoint reap_loop (now : Z) (items : list (Z * list Z)) (fin : Z) (t : dtxn) (cnt : Z)
    : option (Z * dtxn + Z * dtxn * Z) :=
  match items with
  | [] => Some (inr (fin, t, 0))
  | (k, data) :: items =>
    owner ← OeStoreHolder_peek_txn_id data;
    c_assert (owner =? 0);;
    exptime ← OeStoreHolder_peek_lease_exp_time data;
    if now <? exptime then reap_loop now items fin t (cnt + 1)
    else
      let '(llret, t) := holder_del t k in
      if negb (llret =? 0) && negb (llret =? DB_NOTFOUND) then Some (inl (llret, t))
      else if OESTORE_MAX_LEASE_REAP <=? cnt + 1 then Some (inr (0, t, 0))
      else if OESTORE_MAX_LEASE_REAP_COMMIT <=? cnt + 1 then Some (inr (0, t, 1))
      else reap_loop now items fin t (cnt + 1)
  end.

Definition _lease_reaper (junk : bool) (now : Z) (b : OeBdb) : option (Z * OeBdb) :=
  let '(go, b) := _set_reaper_running junk b true in
  let stop b := (_set_reaper_running junk b false).2 in
  if go then
    let '(lret, txn_holder) := txn_begin (env b) in
    (* the code does not look at [lret]: a failed begin leaves no handle *)
    if negb (lret =? 0) then None
    else
      let '(lret, (items, fin)) := expire_scan txn_holder now in
      if negb (lret =? 0) then Some (-1, stop (set_env b (txn_abort (env b) txn_holder)))
      else
        r ← reap_loop now items fin txn_holder 0;
        match r with
        | inl (_, t) => Some (-1, stop (set_env b (txn_abort (env b) t)))
        | inr (lret, t, ret) =>
          if negb (lret =? 0) && negb (lret =? DB_NOTFOUND)
          then Some (-1, stop (set_env b (txn_abort (env b) t)))
          else if negb (cursor_close t =? 0)
          then Some (-1, stop (set_env b (txn_abort (env b) t)))
          else
            let '(lret, e) := txn_commit (env b) t in
            (* the abort after a failed commit is on a null handle *)
            if negb (lret =? 0) then None
            else Some (ret, stop (set_env b e))
        end
  else Some (0, b).

End OeBdb.
