(* ===== verification/BdbSpec.v ===== *)
(** * BdbSpec: what the store promises, and that the Berkeley DB store keeps it

    The abstract store [astore] has items and transactions as values; [repr]
    relates it to the records of the two primary databases.  Each operation
    of [Bdb] is shown to carry out an operation on the abstract store when it
    succeeds and to leave it alone when it fails. *)

From S2P Require Import Prelude Values Collections StoreHolder BdbKeys Bdb.
Import AList DataObject DataObjectList.

(** ** The abstract store *)

Record astore := mkStore {
  a_items : gmap Z OeStoreHolder;
  a_txns : gmap Z OESTORE_TXN
}.

(** A holder as it reads back from its bytes. *)
Definition stored (k : Z) (h : OeStoreHolder) : Prop :=
  lease_id h = k ∧ ∃ d, holder_wf h d ∧ array_cache d = None ∧ always_cpy d = false.
Definition enc_h (h : OeStoreHolder) : list Z :=
  match data h with Some d => enc h d | None => [] end.
Definition norm (h : OeStoreHolder) : OeStoreHolder :=
  match data h with Some d => reread h d | None => h end.

Record repr (c : content) (a : astore) : Prop := {
  r_holders : c_holders c = enc_h <$> a_items a;
  r_txns : c_txns c = enc_txn <$> a_txns a;
  r_items : map_Forall stored (a_items a);
  r_txn_wf : map_Forall (λ k x, txn_wf x ∧ tid x = k) (a_txns a)
}.

Definition add_item (h : OeStoreHolder) (a : astore) : astore :=
  mkStore (<[lease_id h := norm h]> (a_items a)) (a_txns a).
Definition del_item (k : Z) (a : astore) : astore :=
  mkStore (delete k (a_items a)) (a_txns a).
Definition add_txn (x : OESTORE_TXN) (a : astore) : astore :=
  mkStore (a_items a) (<[tid x := x]> (a_txns a)).

(** ** Representation lemmas *)

Lemma holder_wf_meta h d l tup lid t ex :
  holder_wf h d → in_u 64 lid → in_u 64 t → in_s 64 ex →
  holder_wf (mkHolder l tup lid t ex (Some d)) d.
Proof.
  intros Hw Hl Ht He. split; cbn; [done..|apply (hw_strings _ _ Hw)|apply (hw_bytes _ _ Hw)|].
  pose proof (hw_size _ _ Hw) as Hs. unfold enc in *. rewrite !length_app, !enc_header_length in *. done.
Qed.

Lemma holder_wf_reread h d : holder_wf h d → holder_wf (reread h d) (mkDataObject (strings d) (nbytes d) (bytes d) None false).
Proof.
  intros Hw. split; cbn; [done|apply (hw_lid _ _ Hw)|apply (hw_tid _ _ Hw)|apply (hw_exp _ _ Hw)
    |apply (hw_strings _ _ Hw)|apply (hw_bytes _ _ Hw)|apply (hw_size _ _ Hw)].
Qed.

Lemma norm_stored h d : holder_wf h d → stored (lease_id h) (norm h) ∧ enc_h (norm h) = enc h d.
Proof.
  intros Hw. unfold norm, stored, enc_h. rewrite (hw_data _ _ Hw). cbn. split; [|done].
  split; [done|]. eexists. split; [by apply holder_wf_reread|done].
Qed.

Lemma stored_dec k h post :
  stored k h → OeStoreHolder_new_from_buffer (enc_h h ++ post) = Some h.
Proof.
  intros (_ & d & Hw & Hc & Ha). unfold enc_h. rewrite (hw_data _ _ Hw), (unmarshal_enc h d post Hw).
  unfold reread. pose proof (hw_data _ _ Hw) as Hd. destruct h, d; cbn in *. by subst.
Qed.

Lemma stored_peek k h post :
  stored k h →
  OeStoreHolder_peek_txn_id (enc_h h ++ post) = Some (txn_id h) ∧
  OeStoreHolder_peek_lease_exp_time (enc_h h ++ post) = Some (lease_expire_time h).
Proof.
  intros (_ & d & Hw & _). unfold enc_h. rewrite (hw_data _ _ Hw).
  destruct (enc_fields h d post Hw) as (_ & _ & _ & H4 & H5 & _). split; [done|].
  unfold OeStoreHolder_peek_lease_exp_time, EXP_POS, TID_POS, LID_POS. cbn [Nat.add].
  by destruct (read_le _ 21 8); cbn in *.
Qed.

Lemma stored_norm k h : stored k h → norm h = h.
Proof.
  intros (_ & d & Hw & Hc & Ha). unfold norm. pose proof (hw_data _ _ Hw) as Hd. rewrite Hd.
  unfold reread. destruct h, d; cbn in *. by subst.
Qed.

(** Changing the bookkeeping fields of a stored holder. *)
Lemma stored_meta k h l t ex :
  stored k h → in_u 64 t → in_s 64 ex →
  stored k (mkHolder l (is_tuple h) (lease_id h) t ex (data h)) ∧
  ∃ d, holder_wf (mkHolder l (is_tuple h) (lease_id h) t ex (data h)) d.
Proof.
  intros (Hk & d & Hw & Hc & Ha) Ht He. rewrite (hw_data _ _ Hw).
  pose proof (holder_wf_meta h d l (is_tuple h) (lease_id h) t ex Hw (hw_lid _ _ Hw) Ht He).
  split; [|by exists d]. split; [done|]. by exists d.
Qed.

Lemma set_props_stored k h :
  stored k h →
  _set_props (enc_h h) =
  if negb (txn_id h =? 0) then Some CbDoNotIndex
  else if is_tuple h then _set_tuple_props h else _set_map_props h.
Proof.
  intros Hs. unfold _set_props. rewrite <-(app_nil_r (enc_h h)).
  rewrite (proj1 (stored_peek k h [] Hs)). cbn [mbind option_bind].
  rewrite (stored_dec k h [] Hs). done.
Qed.

Lemma set_owner_stored k h :
  stored k h → _set_owner (enc_h h) = Some (if txn_id h =? 0 then None else Some (txn_id h)).
Proof.
  intros Hs. unfold _set_owner. rewrite <-(app_nil_r (enc_h h)).
  by rewrite (proj1 (stored_peek k h [] Hs)).
Qed.

(** A record owned by a transaction has no property keys. *)
Lemma has_prop_unowned k h key : stored k h → has_prop (enc_h h) key → txn_id h = 0.
Proof.
  intros Hs (ks & E & _). rewrite (set_props_stored k h Hs) in E.
  destruct (Z.eqb_spec (txn_id h) 0); [done|]. by cbn in E.
Qed.

Lemma repr_lookup c a k b :
  repr c a → c_holders c !! k = Some b → ∃ h, a_items a !! k = Some h ∧ b = enc_h h ∧ stored k h.
Proof.
  intros R. rewrite (r_holders _ _ R), lookup_fmap. intros Hb.
  destruct (a_items a !! k) as [h|] eqn:E; [|done]. injection Hb as <-. exists h.
  split_and!; [done..|]. by apply (r_items _ _ R).
Qed.

Lemma repr_lookup_2 c a k h : repr c a → a_items a !! k = Some h → c_holders c !! k = Some (enc_h h).
Proof. intros R E. by rewrite (r_holders _ _ R), lookup_fmap, E. Qed.

Lemma repr_add c a h d :
  repr c a → holder_wf h d → repr (set_holders <[lease_id h := enc h d]> c) (add_item h a).
Proof.
  intros R Hw. destruct (norm_stored h d Hw) as [Hs He]. split; cbn.
  - by rewrite (r_holders _ _ R), fmap_insert, He.
  - apply R.
  - apply map_Forall_insert_2; [done|apply R].
  - apply R.
Qed.

Lemma repr_del c a k : repr c a → repr (set_holders (delete k) c) (del_item k a).
Proof.
  intros R. split; cbn; [by rewrite (r_holders _ _ R), fmap_delete|apply R| |apply R].
  apply map_Forall_delete, R.
Qed.

Lemma repr_add_txn c a x :
  repr c a → txn_wf x → repr (set_txns <[tid x := enc_txn x]> c) (add_txn x a).
Proof.
  intros R Hw. split; cbn; [apply R|by rewrite (r_txns _ _ R), fmap_insert|apply R|].
  apply map_Forall_insert_2; [done|apply R].
Qed.

Section BdbSpec.
Context {B : BerkeleyDB} {BS : BerkeleyDBSpec B}.

Lemma codes :
  DB_NOTFOUND ≠ 0 ∧ DB_LOCK_DEADLOCK ≠ 0 ∧ DB_BUFFER_SMALL ≠ 0 ∧ DB_NOTFOUND ≠ DB_LOCK_DEADLOCK ∧
  DB_NOTFOUND ≠ -1 ∧ DB_NOTFOUND ≠ OE_STORE_PLEASE_RETRY.
Proof.
  pose proof code_notfound. pose proof code_deadlock. pose proof code_small.
  pose proof code_distinct. unfold OE_STORE_PLEASE_RETRY. lia.
Qed.

(** The buffer loop reads any record in two rounds. *)
Lemma read_loop_ok r : ∃ n, read_loop 2 OEBDB_DEFAULT_READ_BUFFER_SIZE r = Some (0, r ++ replicate n 0).
Proof.
  pose proof codes as (_ & _ & Hs & _). cbn [read_loop]. rewrite !usermem_ok.
  destruct (Z.ltb_spec OEBDB_DEFAULT_READ_BUFFER_SIZE (Z.of_nat (length r))).
  - rewrite Z.eqb_refl. rewrite !usermem_ok, Z.ltb_irrefl.
    destruct (Z.eqb_spec 0 DB_BUFFER_SMALL); [congruence|]. eauto.
  - destruct (Z.eqb_spec 0 DB_BUFFER_SMALL); [congruence|]. eauto.
Qed.

Lemma _get_ok r : ∃ n, _get (0, r) = Some (0, r ++ replicate n 0).
Proof. apply read_loop_ok. Qed.
Lemma _get_err rc r : rc ≠ 0 → _get (rc, r) = Some (rc, []).
Proof. intros H. unfold _get. cbn. by destruct (Z.eqb_spec rc 0). Qed.

(** [_handlerc] gives 0 for 0 only, and never touches the committed records. *)
Lemma handlerc_store e rc ot :
  store_of (_handlerc e rc ot).2 = store_of e ∧ seq_bound (_handlerc e rc ot).2 = seq_bound e.
Proof. unfold _handlerc. destruct ot as [t|]; cbn; [|done]. destruct (rc =? 0); cbn; [done|apply abort_ok]. Qed.
Lemma handlerc_zero e rc ot : (_handlerc e rc ot).1 = 0 ↔ rc = 0.
Proof.
  pose proof codes. unfold _handlerc; cbn.
  destruct (Z.eqb_spec rc DB_LOCK_DEADLOCK), (Z.eqb_spec rc DB_NOTFOUND);
    unfold OE_STORE_PLEASE_RETRY, OE_STORE_ITEM_NOTFOUND; lia.
Qed.
Lemma handlerc_notfound e rc ot :
  (_handlerc e rc ot).1 = OE_STORE_ITEM_NOTFOUND → rc = DB_NOTFOUND ∨ rc = OE_STORE_ITEM_NOTFOUND.
Proof.
  unfold _handlerc; cbn.
  destruct (Z.eqb_spec rc DB_LOCK_DEADLOCK), (Z.eqb_spec rc DB_NOTFOUND);
    unfold OE_STORE_PLEASE_RETRY, OE_STORE_ITEM_NOTFOUND; lia.
Qed.

Lemma finish_abort e t :
  (_finish_txn e (Some t) false).1 = 0 ∧ store_of (_finish_txn e (Some t) false).2 = store_of e ∧
  seq_bound (_finish_txn e (Some t) false).2 = seq_bound e.
Proof. unfold _finish_txn. rewrite andb_false_l. cbn. split; [done|apply abort_ok]. Qed.
Lemma finish_commit e t rc e' :
  _finish_txn e (Some t) true = (rc, e') →
  seq_bound e' = seq_bound e ∧ store_of e' = if rc =? 0 then view t else store_of e.
Proof.
  pose proof codes as (_ & Hd & _). unfold _finish_txn. cbn [andb]. destruct (is_deadlocked t).
  - intros [= <- <-]. destruct (abort_ok e t) as [-> ->]. by destruct (Z.eqb_spec DB_LOCK_DEADLOCK 0).
  - intros H. destruct (Z.eqb_spec rc 0) as [->|Hn]; [|destruct (commit_err _ _ _ _ H Hn); by split].
    by destruct (commit_ok _ _ _ H).
Qed.

(** Writing a holder and a transaction. *)
Lemma put_holder_spec t h d a :
  holder_wf h d → repr (view t) a →
  ∃ rc t', _put_holder t h = Some (rc, t') ∧
    (rc = 0 → repr (view t') (add_item h a) ∧ indexable (enc h d)).
Proof.
  pose proof codes. intros Hw R. unfold _put_holder. destruct (is_deadlocked t).
  { do 2 eexists. split; [done|]. intros E. naive_solver. }
  rewrite (marshal_enc h d Hw). cbn [mbind option_bind]. rewrite Nat2Z.id, take_app_length.
  destruct (holder_put t _ _) as [rc t'] eqn:E. do 2 eexists. split; [done|]. intros ->.
  destruct (hput_ok _ _ _ _ E) as [-> Hi]. split; [|done]. by apply repr_add.
Qed.

Lemma put_oetxn_spec t x a :
  txn_wf x → repr (view t) a →
  ∃ rc t', _put_oetxn t x = Some (rc, t') ∧ (rc = 0 → repr (view t') (add_txn x a)).
Proof.
  pose proof codes. intros Hw R. unfold _put_oetxn. destruct (is_deadlocked t).
  { do 2 eexists. split; [done|]. intros E. naive_solver. }
  rewrite marshal_txn_enc. cbn [mbind option_bind].
  change (take (Z.to_nat 28) (enc_txn x)) with (enc_txn x).
  destruct (txndb_put t _ _) as [rc t'] eqn:E. do 2 eexists. split; [done|]. intros ->.
  rewrite (tput_ok _ _ _ _ E). by apply repr_add_txn.
Qed.

Lemma get_txn_spec e ot k a :
  repr (match ot with Some t => view t | None => store_of e end) a →
  ∃ rc x, _get_txn e ot (zero_txn k) = Some (rc, x) ∧
    (rc = 0 → a_txns a !! k = Some x ∧ tid x = k ∧ txn_wf x).
Proof.
  pose proof codes. intros R. unfold _get_txn.
  destruct (match ot with Some t => is_deadlocked t | None => false end).
  { do 2 eexists. split; [done|]. intros E. naive_solver. }
  cbn [tid zero_txn]. destruct (txndb_get e ot k) as [rc r] eqn:E.
  destruct (decide (rc = 0)) as [->|Hn].
  - destruct (_get_ok r) as [n ->]. cbn [mbind option_bind Z.eqb].
    pose proof (tget_ok _ _ _ _ E) as Hr. rewrite (r_txns _ _ R), lookup_fmap in Hr.
    destruct (a_txns a !! k) as [x|] eqn:Ex; [|done]. injection Hr as <-.
    destruct (r_txn_wf _ _ R _ _ Ex) as [Hw Ht].
    rewrite (unmarshal_txn_enc x _ _ Hw). cbn [mbind option_bind]. do 2 eexists. split; [done|].
    intros _. destruct x; cbn in *. by subst.
  - rewrite _get_err by done. cbn [mbind option_bind]. destruct (Z.eqb_spec rc 0); [done|].
    do 2 eexists. by split.
Qed.

Definition active (a : astore) (k : Z) : Prop :=
  ∃ x, a_txns a !! k = Some x ∧ status x = OESTORE_TXN_ACTIVE.

Lemma txn_is_active_spec e k a :
  repr (store_of e) a → k ≠ 0 →
  ∃ r, _txn_is_active e k = Some r ∧ (r = true → active a k).
Proof.
  intros R Hk. unfold _txn_is_active. destruct (Z.eqb_spec k 0); [done|]. cbn [negb c_assert mbind option_bind].
  destruct (get_txn_spec e None k a R) as (rc & x & -> & Hx). cbn [mbind option_bind].
  eexists. split; [done|]. destruct (Z.eqb_spec rc 0) as [->|]; cbn; [|done].
  intros Hs. apply bool_decide_eq_true in Hs. exists x. split; [by apply Hx|done].
Qed.

(** The id loop ends when the sequence answers. *)
Inductive seq_ready : nat → denv → Prop :=
  | seq_ready_now e i e' : seq_get e = (0, i, e') → seq_ready 1 e
  | seq_ready_later n e rc i e' : seq_get e = (rc, i, e') → rc ≠ 0 → seq_ready n e' → seq_ready (S n) e.

Lemma create_id_ready n fuel e :
  seq_ready n e → (n ≤ fuel)%nat →
  ∃ i e', _create_id fuel e = Some (i, e').
Proof.
  intros H. revert fuel. induction H as [e i e' E|n e rc i e' E Hn _ IH]; intros fuel Hf.
  - destruct fuel; [lia|]. cbn. rewrite E. cbn. eauto.
  - destruct fuel; [lia|]. cbn. rewrite E. destruct (Z.eqb_spec rc 0); [done|]. apply IH. lia.
Qed.

Lemma create_id_ok fuel e i e' :
  _create_id fuel e = Some (i, e') →
  store_of e' = store_of e ∧ seq_bound e ≤ i ∧ 0 < i < 2 ^ 63 ∧ seq_bound e' = i + 1.
Proof.
  revert e. induction fuel as [|fuel IH]; intros e; cbn; [done|].
  destruct (seq_get e) as [[rc j] e1] eqn:E. destruct (Z.eqb_spec rc 0) as [->|Hn]; cbn.
  - intros [= -> ->]. destruct (seq_ok _ _ _ E) as (? & ? & ? & ?). auto.
  - intros H. destruct (seq_err _ _ _ _ E Hn) as [Hb Hs]. destruct (IH _ H) as (Hs' & Hi & Hb').
    rewrite Hb in Hi. rewrite Hs', Hs. auto.
Qed.

(** ** States of the store *)

Record state_ok (b : OeBdb) (a : astore) : Prop := {
  so_repr : repr (store_of (env b)) a;
  so_items : ∀ k h, a_items a !! k = Some h → 0 < k < seq_bound (env b);
  so_txns : ∀ k x, a_txns a !! k = Some x → 0 < k < seq_bound (env b)
}.

Lemma state_ok_env b a e :
  state_ok b a → store_of e = store_of (env b) → seq_bound (env b) ≤ seq_bound e →
  state_ok (set_env b e) a.
Proof.
  intros [R Hi Ht] Hs Hb. split; cbn; [by rewrite Hs|intros k h E; specialize (Hi k h E); lia
    |intros k x E; specialize (Ht k x E); lia].
Qed.

(** The same when only the committed records have changed. *)
Lemma state_ok_new b a e a' :
  state_ok b a → repr (store_of e) a' → seq_bound (env b) ≤ seq_bound e →
  (∀ k, is_Some (a_items a' !! k) → is_Some (a_items a !! k) ∨ 0 < k < seq_bound e) →
  (∀ k, is_Some (a_txns a' !! k) → is_Some (a_txns a !! k) ∨ 0 < k < seq_bound e) →
  state_ok (set_env b e) a'.
Proof.
  intros [R Hi Ht] Hs Hb Hi' Ht'. split; cbn; [done| |].
  - intros k h E. destruct (Hi' k (mk_is_Some _ _ E)) as [[h' E']|]; [|done]. specialize (Hi k h' E'). lia.
  - intros k x E. destruct (Ht' k (mk_is_Some _ _ E)) as [[x' E']|]; [|done]. specialize (Ht k x' E'). lia.
Qed.

Lemma is_Some_insert {A} (m : gmap Z A) k v j : is_Some (<[k := v]> m !! j) → j = k ∨ is_Some (m !! j).
Proof. rewrite lookup_insert_is_Some. naive_solver. Qed.
Lemma is_Some_delete {A} (m : gmap Z A) k j : is_Some (delete k m !! j) → is_Some (m !! j).
Proof. rewrite lookup_delete_is_Some. naive_solver. Qed.

(** The handle is ended by the commit only. *)
Lemma try_put_spec b seen e t h d a0 a :
  repr (store_of seen) a0 → repr (store_of e) a → view t = store_of e → holder_wf h d →
  ∃ rc evs t' e', _try_put b seen e h t = Some (rc, evs, t', e') ∧ seq_bound e' = seq_bound e ∧
    (t' = None → ∃ t1, (txn_commit e t1).1 = rc) ∧
    if rc =? 0
    then repr (store_of e') (add_item h a) ∧ indexable (enc h d) ∧ t' = None ∧
         (txn_id h ≠ 0 → active a0 (txn_id h)) ∧
         evs = (if fire_write_event b && (txn_id h =? 0) then [OeStoreHolder_get_data h] else [])
    else store_of e' = store_of e ∧ evs = [].
Proof.
  pose proof codes as (_ & Hd & _). intros R0 R Hv Hw. unfold _try_put.
  assert (∃ r, (if txn_id h =? 0 then Some true else _txn_is_active seen (txn_id h)) = Some r ∧
    (r = true → txn_id h ≠ 0 → active a0 (txn_id h))) as (r & -> & Hr).
  { destruct (Z.eqb_spec (txn_id h) 0) as [->|Hn]; [by exists true|].
    destruct (txn_is_active_spec seen _ a0 R0 Hn) as (r & -> & Hr). exists r. auto. }
  cbn [mbind option_bind]. destruct r; cbn [negb]; [|by do 4 eexists].
  destruct (put_holder_spec t h d a Hw ltac:(by rewrite Hv)) as (rc & t' & -> & Hp). cbn [mbind option_bind].
  destruct (Z.eqb_spec rc 0) as [->|Hn]; cbn [negb].
  2:{ do 4 eexists. split; [done|]. split; [done|]. split; [done|]. by destruct (Z.eqb_spec rc 0). }
  destruct (Hp eq_refl) as [R' Hi]. destruct (is_deadlocked t').
  { do 4 eexists. split; [done|]. split; [done|]. split; [done|]. by destruct (Z.eqb_spec DB_LOCK_DEADLOCK 0). }
  destruct (txn_commit e t') as [rc e'] eqn:Ec. do 4 eexists. split; [done|].
  assert (∃ t1, (txn_commit e t1).1 = rc) by (exists t'; by rewrite Ec).
  destruct (Z.eqb_spec rc 0) as [->|Hn]; cbn [andb].
  - destruct (commit_ok _ _ _ Ec) as [-> ->]. by split_and!; auto.
  - destruct (commit_err _ _ _ _ Ec Hn) as [-> ->]. auto.
Qed.

(** [_api_put] when it returns; [a0] is what [_txn_is_active] reads. *)
Lemma api_put_seen_sound fuel seen b a0 a h d rc evs h' b' :
  state_ok b a → match seen with Some s => repr (store_of s) a0 | None => a0 = a end → holder_wf h d →
  _api_put_seen fuel seen b h = Some (rc, evs, h', b') →
  h' = OeStoreHolder_set_lease_id h (lease_id h') ∧ 0 < lease_id h' < 2 ^ 63 ∧
  a_items a !! lease_id h' = None ∧
  if rc =? 0
  then state_ok b' (add_item h' a) ∧ (txn_id h ≠ 0 → active a0 (txn_id h)) ∧
       evs = (if fire_write_event b && (txn_id h =? 0) then [OeStoreHolder_get_data h] else [])
  else state_ok b' a ∧ evs = [].
Proof.
  intros S Hs0 Hw. unfold _api_put_seen.
  destruct (_create_id fuel (env b)) as [[i e]|] eqn:Ei; [|done]. cbn [mbind option_bind].
  destruct (create_id_ok _ _ _ _ Ei) as (Hs & Hle & Hi & Hsb).
  destruct (txn_begin e) as [rc0 t] eqn:Et. destruct (Z.eqb_spec rc0 0) as [->|]; [|done].
  set (g := OeStoreHolder_set_lease_id h i).
  assert (holder_wf g d) as Hw'.
  { unfold g, OeStoreHolder_set_lease_id. rewrite (hw_data _ _ Hw).
    apply (holder_wf_meta h); [done| |apply Hw..]. width. }
  assert (repr (store_of e) a) as R by (rewrite Hs; apply S).
  assert (repr (store_of (default e seen)) a0) as R0 by (by destruct seen; cbn; [|subst a0]).
  destruct (try_put_spec b _ e t g d a0 a R0 R (begin_view _ _ Et) Hw')
    as (rc1 & evs1 & t' & e' & -> & Hb' & _ & Hrc). cbn [mbind option_bind].
  assert (a_items a !! i = None) as Hfree.
  { destruct (a_items a !! i) as [g'|] eqn:E; [|done]. pose proof (so_items _ _ S _ _ E). lia. }
  destruct t' as [t'|].
  - destruct (_handlerc e' rc1 (Some t')) as [rc' e''] eqn:Eh.
    pose proof (handlerc_store e' rc1 (Some t')) as [Hst Hsb']. pose proof (handlerc_zero e' rc1 (Some t')) as Hz.
    rewrite Eh in Hst, Hsb', Hz. cbn in Hst, Hsb', Hz. intros [= <- <- <- <-]. do 3 (split; [done|]).
    destruct (Z.eqb_spec rc1 0) as [->|Hn]; [by destruct Hrc as (_ & _ & ? & _)|].
    destruct (Z.eqb_spec rc' 0) as [->|]; [by rewrite (proj1 Hz eq_refl) in Hn|]. destruct Hrc as [Hst' ->].
    split; [|done]. apply (state_ok_env b); [done|by rewrite Hst, Hst', Hs|lia].
  - destruct (Z.eqb_spec rc1 0) as [->|]; [|done]. intros [= <- <- <- <-]. do 3 (split; [done|]).
    cbn [Z.eqb]. destruct Hrc as (R' & _ & _ & Ha & Hev). split; [|done].
    apply (state_ok_new b a); [done|done|lia| |by auto].
    cbn. intros k Hk. apply is_Some_insert in Hk as [->|]; [|by auto]. right. cbn. lia.
Qed.

Lemma api_put_sound fuel b a h d rc evs h' b' :
  state_ok b a → holder_wf h d → _api_put fuel b h = Some (rc, evs, h', b') →
  h' = OeStoreHolder_set_lease_id h (lease_id h') ∧ 0 < lease_id h' < 2 ^ 63 ∧
  a_items a !! lease_id h' = None ∧
  if rc =? 0
  then state_ok b' (add_item h' a) ∧ (txn_id h ≠ 0 → active a (txn_id h)) ∧
       evs = (if fire_write_event b && (txn_id h =? 0) then [OeStoreHolder_get_data h] else [])
  else state_ok b' a ∧ evs = [].
Proof. intros S Hw. by apply (api_put_seen_sound fuel None b a a h d). Qed.

(** The call of [_handlerc] on a handle that a failed commit has ended is the
    only way a put that has begun fails to return. *)
Lemma api_put_total n fuel b a h d :
  state_ok b a → holder_wf h d → seq_ready n (env b) → (n ≤ fuel)%nat →
  is_Some (_api_put fuel b h) ∨
  ∃ i e, _create_id fuel (env b) = Some (i, e) ∧ ((txn_begin e).1 ≠ 0 ∨ ∃ t, (txn_commit e t).1 ≠ 0).
Proof.
  intros S Hw Hr Hf. unfold _api_put, _api_put_seen. destruct (create_id_ready n fuel _ Hr Hf) as (i & e & Ei).
  rewrite Ei. cbn [mbind option_bind]. destruct (create_id_ok _ _ _ _ Ei) as (Hs & _ & Hi & _).
  destruct (txn_begin e) as [rc0 t] eqn:Et. destruct (Z.eqb_spec rc0 0) as [->|Hn].
  2:{ right. exists i, e. split; [done|]. left. by rewrite Et. }
  assert (repr (store_of e) a) as R by (rewrite Hs; apply S).
  destruct (try_put_spec b e e t (OeStoreHolder_set_lease_id h i) d a a R R) as (rc & evs & t' & e' & E & _ & Hc & _).
  - by apply begin_view.
  - unfold OeStoreHolder_set_lease_id. rewrite (hw_data _ _ Hw).
    apply (holder_wf_meta h); [done| |apply Hw..]. width.
  - cbn [default from_option id]. rewrite E. cbn [mbind option_bind]. destruct t' as [t'|].
    + destruct (_handlerc e' rc (Some t')). left. eauto.
    + destruct (Z.eqb_spec rc 0); [left; eauto|]. right. exists i, e. split; [done|]. right.
      destruct (Hc eq_refl) as [t1 <-]. by exists t1.
Qed.

(** C5  Putting an item.  When the sequence answers, the call returns unless
    the database fails to begin or to commit its transaction: in those two
    cases [_handlerc] aborts a handle that is not one.  When it returns with
    code 0 the store has one more item, under a lease id no item had, owned
    by an active transaction or by none, and the write event has fired once
    if the item is not owned; with any other code the store is unchanged and
    no event has fired. *)
Theorem api_put_spec n fuel b a h d :
  state_ok b a → holder_wf h d → seq_ready n (env b) → (n ≤ fuel)%nat →
  match _api_put fuel b h with
  | Some (rc, evs, h', b') =>
      h' = OeStoreHolder_set_lease_id h (lease_id h') ∧ a_items a !! lease_id h' = None ∧
      if rc =? 0
      then state_ok b' (add_item h' a) ∧ (txn_id h ≠ 0 → active a (txn_id h)) ∧
           evs = (if fire_write_event b && (txn_id h =? 0) then [OeStoreHolder_get_data h] else [])
      else state_ok b' a ∧ evs = []
  | None =>
      ∃ i e, _create_id fuel (env b) = Some (i, e) ∧ ((txn_begin e).1 ≠ 0 ∨ ∃ t, (txn_commit e t).1 ≠ 0)
  end.
Proof.
  intros S Hw Hr Hf. destruct (api_put_total n fuel b a h d S Hw Hr Hf) as [[[[[rc evs] h'] b'] E]|H].
  - rewrite E. destruct (api_put_sound fuel b a h d rc evs h' b' S Hw E) as (Eh & _ & H). done.
  - destruct (_api_put fuel b h) as [[[[rc evs] h'] b']|] eqn:E; [|done].
    destruct (api_put_sound fuel b a h d rc evs h' b' S Hw E) as (Eh & _ & H'). done.
Qed.

(** A put accepted for a transaction another call has ended since
    [_txn_is_active] looked: the item is written, and its owner is not an
    active transaction. *)
Lemma put_joins_ended fuel seen b a h d evs h' b' x :
  state_ok b a → holder_wf h d → a_txns a !! txn_id h = Some x → status x ≠ OESTORE_TXN_ACTIVE →
  txn_id h ≠ 0 → (∃ a0, repr (store_of seen) a0) →
  _api_put_seen fuel (Some seen) b h = Some (0, evs, h', b') →
  ∃ a', state_ok b' a' ∧ a_items a' !! lease_id h' = Some (norm h') ∧ ¬ active a' (txn_id h').
Proof.
  intros S Hw Hx Hst Ho [a0 R0] E.
  destruct (api_put_seen_sound fuel (Some seen) b a0 a h d 0 evs h' b' S R0 Hw E) as (Eh & _ & _ & S' & _).
  exists (add_item h' a). split; [done|]. split; [cbn; by rewrite lookup_insert_eq|].
  rewrite Eh. intros (y & Hy & ?). cbn in Hy. congruence.
Qed.

(** ** Queries *)

(** The keys of a template, and the items it matches. *)
Definition qkeys (tuple : bool) (d : DataObject) : list string :=
  if tuple then tkeys (strings d) 0 (Z.of_nat (length (strings d)))
  else (λ p, mkey p.1 p.2) <$> attr_pairs (strings d).
Definition amatch (tuple : bool) (d : DataObject) (h : OeStoreHolder) : Prop :=
  qkeys tuple d ≠ [] ∧ Forall (has_prop (enc_h h)) (qkeys tuple d).
Definition visible (now : Z) (h : OeStoreHolder) : Prop := OeStoreHolder_skip now h = OESTORE_DO_NOT_SKIP.
#[export] Instance visible_dec now h : Decision (visible now h).
Proof. unfold visible. apply _. Defined.

(** The copy a query hands out. *)
Definition handed (q : OeStoreQuery) (h : OeStoreHolder) : OeStoreHolder :=
  if q_take q then OeStoreHolder_set_txn_id (OeStoreHolder_set_lock h OESTORE_TAKE_LOCK) (q_owner_id q) else h.

Definition same_query (q q' : OeStoreQuery) : Prop :=
  q_take q' = q_take q ∧ q_is_tuple q' = q_is_tuple q ∧ q_owner_id q' = q_owner_id q ∧
  q_value_lists q' = q_value_lists q ∧ q_max_items q' = q_max_items q ∧ q_ifexists q' = q_ifexists q.

Lemma same_query_trans q q' q'' : same_query q q' → same_query q' q'' → same_query q q''.
Proof. unfold same_query. intuition congruence. Qed.
Lemma same_query_handed q q' h : same_query q q' → handed q' h = handed q h.
Proof. unfold same_query, handed. by intros (-> & _ & -> & _). Qed.

Lemma position_tuple_spec t l pos sz :
  ∃ rc ks, position_tuple t l pos sz = Some (rc, ks) ∧
    if rc =? 0 then ks = tkeys l pos sz else ∃ k, k ∈ tkeys l pos sz ∧ prop_set t k = rc.
Proof.
  revert pos. induction l as [|s l IH]; intros pos; cbn [position_tuple tkeys]; [by do 2 eexists|].
  unfold OESTORE_WILDCARD. case_bool_decide; [apply IH|]. rewrite tuple_key_eq. cbn [mbind option_bind].
  destruct (Z.eqb_spec (prop_set t (tkey s pos sz)) 0) as [E|E]; cbn [negb].
  - destruct (IH (pos + 1)) as (rc & ks & -> & Hr). cbn [mbind option_bind]. do 2 eexists. split; [done|].
    destruct (Z.eqb_spec rc 0) as [->|]; [by rewrite Hr|]. destruct Hr as (k & ? & ?). exists k. set_solver.
  - do 2 eexists. split; [done|]. destruct (Z.eqb_spec (prop_set t (tkey s pos sz)) 0); [done|].
    eexists. split; [|done]. set_solver.
Qed.

Lemma position_map_spec t l :
  Nat.Even (length l) →
  ∃ rc ks, position_map t l = Some (rc, ks) ∧
    let keys := (λ p, mkey p.1 p.2) <$> attr_pairs l in
    if rc =? 0 then ks = keys else ∃ k, k ∈ keys ∧ prop_set t k = rc.
Proof.
  induction l as [|s|k v l IH] using pairs_ind; intros He; [by do 2 eexists|destruct He as [n Hn]; cbn in Hn; lia|].
  cbn [position_map attr_pairs fmap list_fmap fst snd]. rewrite map_key_eq. cbn [mbind option_bind].
  destruct (Z.eqb_spec (prop_set t (mkey k v)) 0) as [E|E]; cbn [negb].
  - destruct (IH (even_cons2 _ _ _ He)) as (rc & ks & -> & Hr). cbn [mbind option_bind]. do 2 eexists. split; [done|].
    cbv zeta in *. destruct (Z.eqb_spec rc 0) as [->|]; [by rewrite Hr|]. destruct Hr as (k' & ? & ?). exists k'. set_solver.
  - do 2 eexists. split; [done|]. cbv zeta. destruct (Z.eqb_spec (prop_set t (mkey k v)) 0); [done|].
    eexists. split; [|done]. set_solver.
Qed.

(** What a scan adds to a query: copies of distinct visible items of the
    scan, at most up to the limit (one at least), and on running out of
    records all of them. *)
Record scan_adds (now : Z) (a : astore) (items : list (Z * list Z)) (fin : Z) (q : OeStoreQuery)
    (rc : Z) (q' : OeStoreQuery) (hs : list OeStoreHolder) : Prop := {
  sa_same : same_query q q';
  sa_results : q_results q' = q_results q ++ (handed q <$> hs);
  sa_ids : (lease_id <$> hs) `sublist_of` items.*1;
  sa_items h : h ∈ hs → visible now h ∧ a_items a !! lease_id h = Some h ∧ (lease_id h, enc_h h) ∈ items;
  sa_limit : Z.of_nat (length (q_results q')) ≤ Z.max (q_max_items q) (Z.of_nat (length (q_results q)) + 1);
  sa_found : rc = 0 → hs ≠ [];
  sa_more : rc ≠ 0 → hs = [] ∨ Z.of_nat (length (q_results q')) < q_max_items q;
  sa_all : rc ≠ 0 → rc = fin ∧
    ∀ k h, (k, enc_h h) ∈ items → a_items a !! k = Some h → visible now h → h ∈ hs
}.

(** A record that is passed over, whatever it does to the [exists] flag. *)
Lemma scan_skip now a items fin q q1 rc q' hs k h :
  a_items a !! k = Some h → ¬ visible now h → q_results q1 = q_results q → same_query q q1 →
  scan_adds now a items fin q1 rc q' hs → scan_adds now a ((k, enc_h h) :: items) fin q rc q' hs.
Proof.
  intros Ha Hnv Hr Hq [H1 H2 H3 H4 H5 H6 Hm H7].
  split.
  - by eapply same_query_trans.
  - rewrite H2, Hr. f_equal. apply list_fmap_ext. intros ? g _. by apply same_query_handed.
  - by apply sublist_cons.
  - intros g Hg. destruct (H4 g Hg) as (? & ? & ?). split_and!; [done..|set_solver].
  - rewrite <-Hr. replace (q_max_items q) with (q_max_items q1) by apply Hq. done.
  - done.
  - replace (q_max_items q) with (q_max_items q1) by apply Hq. done.
  - intros Hrc. destruct (H7 Hrc) as [-> Hall]. split; [done|]. intros k' g Hg Hag Hvg.
    apply elem_of_cons in Hg as [Hg|Hg]; [|by eapply Hall]. by simplify_eq.
Qed.

(** A record that is handed out, with the rest of the scan after it. *)
Lemma scan_hand now a items fin q q1 rc q' hs k h :
  a_items a !! k = Some h → lease_id h = k → visible now h →
  q_results q1 = q_results q ++ [handed q h] → same_query q q1 →
  Z.of_nat (length (q_results q1)) < q_max_items q →
  scan_adds now a items fin q1 rc q' hs → scan_adds now a ((k, enc_h h) :: items) fin q rc q' (h :: hs).
Proof.
  intros Ha Hk Hv Hr Hq Hlt [H1 H2 H3 H4 H5 H6 Hm H7]. split.
  - by eapply same_query_trans.
  - rewrite H2, Hr, <-app_assoc. cbn. do 2 f_equal. apply list_fmap_ext. intros ? g _. by apply same_query_handed.
  - cbn. rewrite Hk. by apply sublist_skip.
  - intros g Hg. apply elem_of_cons in Hg as [->|Hg]; [rewrite Hk; split_and!; [done..|set_solver]|].
    destruct (H4 g Hg) as (? & ? & ?). split_and!; [done..|set_solver].
  - replace (q_max_items q1) with (q_max_items q) in H5 by (symmetry; apply Hq). lia.
  - done.
  - replace (q_max_items q1) with (q_max_items q) in Hm by (symmetry; apply Hq). intros Hrc. right.
    destruct (Hm Hrc) as [->|]; [|done]. rewrite H2. cbn. rewrite app_nil_r. lia.
  - intros Hrc. destruct (H7 Hrc) as [-> Hall]. split; [done|]. intros k' g Hg Hag Hvg.
    apply elem_of_cons in Hg as [Hg|Hg]; [|apply elem_of_cons; right; by eapply Hall].
    simplify_eq. set_solver.
Qed.

Lemma get_one_loop_spec now items fin q a c :
  repr c a → (∀ k b, (k, b) ∈ items → c_holders c !! k = Some b) → fin ≠ 0 →
  ∃ rc q' hs, get_one_loop now items fin q = Some (rc, q') ∧ scan_adds now a items fin q rc q' hs.
Proof.
  intros R. revert q. induction items as [|[k r] items IH]; intros q Hin Hfin; cbn [get_one_loop].
  { exists fin, q, []. split; [done|]. split; [done|by rewrite app_nil_r|done|set_solver|lia|done|by left|]. set_solver. }
  destruct (repr_lookup c a k r R (Hin k r ltac:(set_solver))) as (h & Ha & -> & Hs).
  unfold _get_with_cursor. destruct (read_loop_ok (enc_h h)) as [n ->]. cbn [mbind option_bind Z.eqb negb].
  rewrite (stored_dec k h _ Hs). cbn [mbind option_bind].
  assert (∀ k b, (k, b) ∈ items → c_holders c !! k = Some b) as Hin' by set_solver.
  assert (lease_id h = k) as Hk by apply Hs.
  destruct (OeStoreHolder_skip now h) eqn:Ek.
  - set (q1 := OeStoreQuery_set_exists (OeStoreQuery_add_store_holder q _) true).
    assert (q_results q1 = q_results q ++ [handed q h]) as Hr1.
    { cbn. rewrite append_app. unfold handed. by destruct (q_take q). }
    unfold OeStoreQuery_get_max_results, OeStoreQuery_get_nitems_found. rewrite length_spec.
    change (q_max_items q1) with (q_max_items q).
    destruct (Z.leb_spec (q_max_items q) (Z.of_nat (length (q_results q1)))) as [Hle|Hlt].
    + exists 0, q1, [h]. split; [done|]. split; [done|done| |intros g Hg| |done|done|done].
      * cbn. rewrite Hk. apply sublist_skip, sublist_nil_l.
      * apply list_elem_of_singleton in Hg as ->. rewrite Hk. split_and!; [done..|set_solver].
      * rewrite Hr1, length_app. cbn. lia.
    + destruct (IH q1 Hin' Hfin) as (rc & q' & hs & -> & Hsa). exists rc, q', (h :: hs). split; [done|].
      by apply (scan_hand _ _ _ _ _ q1).
  - destruct (IH q Hin' Hfin) as (rc & q' & hs & -> & Hsa). exists rc, q', hs. split; [done|].
    apply (scan_skip _ _ _ _ _ q); [done|unfold visible; congruence|done..].
  - set (q1 := OeStoreQuery_set_exists q true).
    destruct (IH q1 Hin' Hfin) as (rc & q' & hs & -> & Hsa). exists rc, q', hs. split; [done|].
    apply (scan_skip _ _ _ _ _ q1); [done|unfold visible; congruence|done..].
Qed.

(** What a template adds to a query. *)
Record query_adds (now : Z) (a : astore) (P : OeStoreHolder → Prop) (q : OeStoreQuery)
    (rc : Z) (q' : OeStoreQuery) (hs : list OeStoreHolder) : Prop := {
  qa_same : same_query q q';
  qa_results : q_results q' = q_results q ++ (handed q <$> hs);
  qa_ids : NoDup (lease_id <$> hs);
  qa_items h : h ∈ hs → visible now h ∧ a_items a !! lease_id h = Some h ∧ P h;
  qa_limit : Z.of_nat (length (q_results q')) ≤ Z.max (q_max_items q) (Z.of_nat (length (q_results q)) + 1);
  qa_found : rc = 0 → hs ≠ [];
  qa_code : is_db_code rc ∨ rc = -1;
  qa_more : rc ≠ 0 → hs = [] ∨ Z.of_nat (length (q_results q')) < q_max_items q;
  qa_all : rc = DB_NOTFOUND → ∀ k h, a_items a !! k = Some h → P h → visible now h → h ∈ hs
}.

Lemma query_adds_none now a P q rc :
  rc ≠ 0 → is_db_code rc ∨ rc = -1 → (rc = DB_NOTFOUND → ∀ k h, a_items a !! k = Some h → ¬ P h) →
  query_adds now a P q rc q [].
Proof.
  intros H0 Hcd Hn. split; [done|by rewrite app_nil_r|constructor|set_solver|lia|done|done|by left|].
  intros E k h Hk HP. by destruct (Hn E k h Hk).
Qed.

Lemma tuple_nkeys l n pos sz :
  foldl (λ nkeys skey, if bool_decide (skey = OESTORE_WILDCARD) then nkeys - 1 else nkeys) n l =
  n - Z.of_nat (length l) + Z.of_nat (length (tkeys l pos sz)).
Proof.
  revert n pos. induction l as [|s l IH]; intros n pos; cbn [foldl tkeys length]; [lia|].
  rewrite (IH _ (pos + 1)). unfold OESTORE_WILDCARD. case_bool_decide; cbn [length]; lia.
Qed.

(** The hypothesis that joining positioned cursors succeeds.  Without it a
    query returns its results as specified or does not return. *)
Definition joins_open : Prop := ∀ t ks, (prop_join t ks).1 = 0.
Definition returns {A} (o : option A) (P : A → Prop) : Prop :=
  match o with Some x => P x | None => ¬ joins_open end.

Lemma returns_total {A} (o : option A) (P : A → Prop) : joins_open → returns o P → ∃ x, o = Some x ∧ P x.
Proof. intros J. destruct o as [x|]; cbn; [by exists x|done]. Qed.

(** After positioning, whatever the kind of template. *)
Lemma joined_spec now q d t a :
  repr (view t) a → qkeys (q_is_tuple q) d ≠ [] →
  returns
    (let '(ret, (items, fin)) := prop_join t (qkeys (q_is_tuple q) d) in
     if negb (ret =? 0) then None else get_one_loop now items fin q)
    (λ '(rc, q'), ∃ hs, query_adds now a (amatch (q_is_tuple q) d) q rc q' hs).
Proof.
  intros R Hne. destruct (prop_join t _) as [ret [items fin]] eqn:Ej.
  destruct (Z.eqb_spec ret 0) as [->|Hn]; cbn [negb].
  2:{ intros J. specialize (J t (qkeys (q_is_tuple q) d)). by rewrite Ej in J. }
  destruct (join_ok _ _ _ Ej) as (Hcd & Hfin & Hnd & Hin & Hall). cbn [fst snd] in *.
  destruct (get_one_loop_spec now items fin q a (view t) R) as (rc & q' & hs & -> & [H1 H2 H3 H4 H5 H6 Hm H7]);
    [intros k b Hk; by apply Hin|done|].
  exists hs. split; [done|done| | |done|done| |done|].
  3:{ left. destruct (decide (rc = 0)) as [->|Hn]; [by left|]. by destruct (H7 Hn) as [-> _]. }
  - by eapply sublist_NoDup.
  - intros h Hh. destruct (H4 h Hh) as (? & ? & Hk). split_and!; [done..|]. by apply Hin in Hk as [_ ?].
  - intros -> k h Hk [_ Hmt] Hv. destruct (H7 ltac:(apply codes)) as [<- Hc]. apply (Hc k h); [|done..].
    apply Hall; [done| |done]. by apply (repr_lookup_2 _ a).
Qed.

(** A key without records rules out every item. *)
Lemma missing_key t a q d k rc :
  repr (view t) a → k ∈ qkeys (q_is_tuple q) d → prop_set t k = rc → rc = DB_NOTFOUND →
  ∀ j h, a_items a !! j = Some h → ¬ amatch (q_is_tuple q) d h.
Proof.
  intros R Hk Hp Hrc j h Hj [_ Hm]. rewrite Forall_forall in Hm. rewrite Hrc in Hp.
  eapply prop_set_notfound; [exact Hp|by apply (repr_lookup_2 _ a)|]. by apply Hm, list_elem_of_In.
Qed.

Definition template_ok (d : DataObject) : Prop := Z.of_nat (length (strings d)) < 2 ^ 31.

Lemma get_one_spec now q d t a :
  repr (view t) a → template_ok d →
  returns (_get_one now q d t) (λ '(rc, q'), ∃ hs, query_adds now a (amatch (q_is_tuple q) d) q rc q' hs).
Proof.
  intros R Hd. pose proof codes as (Hnf0 & _ & _ & _ & Hnf & _). unfold template_ok in Hd. unfold _get_one.
  destruct (Z.leb_spec (_calc_nkeys q d) 0) as [Hk|Hk].
  { exists []. apply query_adds_none; [done|by right|congruence]. }
  destruct (Z.eqb_spec (prop_cursor t) 0) as [Hc|Hc]; cbn [negb].
  2:{ exists []. destruct (prop_cursor_code t).
      apply query_adds_none; [done|by left|done]. }
  assert (∃ rc ks, (if q_is_tuple q then _position_tuple_cursors t d else _position_map_cursors t d) = Some (rc, ks) ∧
    (if rc =? 0 then ks = qkeys (q_is_tuple q) d ∧ ks ≠ []
     else rc = -1 ∨ ∃ k, k ∈ qkeys (q_is_tuple q) d ∧ prop_set t k = rc)) as (rc & ks & -> & Hpos).
  { unfold qkeys, _calc_nkeys in *. destruct (q_is_tuple q).
    - unfold _position_tuple_cursors, DataObject_get_nattrs in *. rewrite length_spec, wraps_id in * by width.
      rewrite (tuple_nkeys _ _ 0 (Z.of_nat (length (strings d)))) in Hk.
      destruct (position_tuple_spec t (strings d) 0 (Z.of_nat (length (strings d)))) as (rc & ks & -> & Hp).
      do 2 eexists. split; [done|]. destruct (rc =? 0); [|by auto]. split; [done|]. subst ks. intros E.
      rewrite E in Hk. cbn in Hk. lia.
    - unfold _position_map_cursors, DataObject_get_nattrs in *. rewrite length_spec, wraps_id in * by width.
      destruct (Z.leb_spec (Z.of_nat (length (strings d))) 0); [do 2 eexists; split; [done|]; by left|].
      destruct (Z.eqb_spec (Z.rem (Z.of_nat (length (strings d))) 2) 0) as [Ev|]; cbn [negb];
        [|do 2 eexists; split; [done|]; by left].
      destruct (position_map_spec t (strings d)) as (rc & ks & -> & Hp).
      { exists (Z.to_nat (Z.of_nat (length (strings d)) / 2)).
        rewrite Z.rem_mod_nonneg in Ev by lia. pose proof (Z.div_mod (Z.of_nat (length (strings d))) 2). lia. }
      do 2 eexists. split; [done|]. cbv zeta in Hp. destruct (rc =? 0); [|by auto]. split; [done|]. subst ks.
      destruct (strings d) as [|x [|y l]]; [done|by cbn in Ev|by cbn]. }
  cbn [mbind option_bind]. destruct (Z.eqb_spec rc 0) as [->|Hn]; cbn [negb].
  - destruct Hpos as [-> Hne]. by apply joined_spec.
  - exists []. apply query_adds_none; [done| |intros E].
    { destruct Hpos as [->|(k & _ & <-)]; [by right|left; apply prop_set_code]. }
    destruct Hpos as [->|(k & Hin & Hp)]; [congruence|]. by eapply missing_key.
Qed.

(** What all the templates of a query add. *)
Record loop_adds (now : Z) (a : astore) (_AND : bool) (l : list DataObject) (q : OeStoreQuery)
    (rc : Z) (q' : OeStoreQuery) (hs : list OeStoreHolder) : Prop := {
  la_same : same_query q q';
  la_results : q_results q' = q_results q ++ (handed q <$> hs) ∨
               _AND = true ∧ rc = DB_NOTFOUND ∧ q_results q' = [] ∧ hs = [];
  la_items h : h ∈ hs → visible now h ∧ a_items a !! lease_id h = Some h ∧
                       Exists (λ d, amatch (q_is_tuple q) d h) l;
  la_limit : l ≠ [] → Z.of_nat (length (q_results q')) ≤
    Z.max (q_max_items q) (Z.of_nat (length (q_results q)) + 1) + Z.of_nat (length l) - 1;
  la_all : _AND = false → rc = DB_NOTFOUND → hs = [] → l ≠ [] →
    ∀ k h d, d ∈ l → a_items a !! k = Some h → amatch (q_is_tuple q) d h → ¬ visible now h;
  la_found : rc = 0 → l ≠ [] → hs ≠ [];
  la_and : _AND = true → rc = 0 → q_max_items q = 0 → Forall2 (λ d h, amatch (q_is_tuple q) d h) l hs;
  la_none : _AND = true → rc = DB_NOTFOUND → q_max_items q = 0 → l ≠ [] →
    Exists (λ d, ∀ k h, a_items a !! k = Some h → amatch (q_is_tuple q) d h → ¬ visible now h) l
}.

Lemma loop_adds_cons now a _AND d l q rc1 q1 hs1 rc q' hs :
  query_adds now a (amatch (q_is_tuple q) d) q rc1 q1 hs1 → rc1 = 0 ∨ rc1 = DB_NOTFOUND →
  ¬ (_AND = true ∧ hs1 = []) → (l = [] → rc = rc1) →
  loop_adds now a _AND l q1 rc q' hs →
  ∃ hs', loop_adds now a _AND (d :: l) q rc q' hs'.
Proof.
  intros [Q1 Q2 Q3 Q4 Q5 Q6 Qc Qm Q7] Hrc1 Hand Hl [L1 L2 L3 L4 L5 Lf L6 Ln].
  assert (q_is_tuple q1 = q_is_tuple q) as Et by apply Q1. rewrite Et in *.
  assert (q_max_items q1 = q_max_items q) as Em by apply Q1. rewrite Em in *.
  assert (∀ gs : list OeStoreHolder, handed q1 <$> gs = handed q <$> gs) as Eh.
  { intros gs. apply list_fmap_ext. intros ? g _. by apply same_query_handed. }
  assert (Z.of_nat (length (q_results q')) ≤
    Z.max (q_max_items q) (Z.of_nat (length (q_results q)) + 1) + Z.of_nat (length (d :: l)) - 1) as Hlim.
  { destruct l as [|d' l]; [|specialize (L4 ltac:(done)); cbn [length] in *; lia].
    destruct L2 as [L2|(? & ? & -> & ?)]; [|cbn; lia].
    destruct hs as [|h hs]; [|destruct (L3 h) as (_ & _ & Hx); [set_solver|by inversion Hx]].
    rewrite L2. cbn. rewrite app_nil_r. cbn in *. lia. }
  assert (_AND = true → rc = DB_NOTFOUND → q_max_items q = 0 → d :: l ≠ [] →
    Exists (λ d, ∀ k h, a_items a !! k = Some h → amatch (q_is_tuple q) d h → ¬ visible now h) (d :: l)) as Hnone.
  { intros HA Hrc Hmax _. destruct l as [|d' l]; [|by right; apply Ln].
    rewrite (Hl eq_refl) in Hrc. destruct (Qm ltac:(rewrite Hrc; apply codes)) as [->|Hlt]; [|lia].
    left. intros k h Hk Hm Hv. specialize (Q7 Hrc k h Hk Hm Hv). set_solver. }
  destruct L2 as [L2|(Ha & -> & Hr & ->)].
  - exists (hs1 ++ hs). split; [by eapply same_query_trans| | |done| | | |done].
    + left. by rewrite L2, Q2, fmap_app, Eh, app_assoc.
    + intros h Hh. apply elem_of_app in Hh as [Hh|Hh].
      * destruct (Q4 h Hh) as (? & ? & ?). split_and!; [done..|by left].
      * destruct (L3 h Hh) as (? & ? & ?). split_and!; [done..|by right].
    + intros HA Hrc Hnil _ k h d' Hd Hk Hm Hv. apply app_nil in Hnil as [-> ->].
      destruct Hrc1 as [->|Hrc1]; [by destruct Q6|].
      apply elem_of_cons in Hd as [->|Hd]; [specialize (Q7 Hrc1 k h Hk Hm Hv); set_solver|].
      eapply L5; [done|done|done| |exact Hd|exact Hk|done|done]. by destruct l; [set_solver|].
    + intros Hrc _ Hnil. apply app_nil in Hnil as [-> ->]. destruct l; [|by apply Lf].
      by apply Q6; [rewrite <-Hl|].
    + intros HA Hrc Hmax. specialize (L6 HA Hrc Hmax). destruct hs1 as [|h hs1]; [by destruct Hand|].
      assert (hs1 = []) as ->.
      { rewrite Q2, !length_app, length_fmap, Hmax in Q5. cbn in Q5. destruct hs1; [done|]. cbn in Q5. lia. }
      cbn. constructor; [|done]. apply Q4. set_solver.
  - exists []. split; [by eapply same_query_trans|by right|set_solver|done|congruence| | |done];
      intros Hn; by destruct codes.
Qed.

Lemma api_get_loop_spec now _AND l ret q t a :
  repr (view t) a → Forall template_ok l →
  returns (api_get_loop now _AND l ret q t)
    (λ '(rc, q'), ∃ hs, loop_adds now a _AND l q rc q' hs ∧
       match l with [] => rc = ret | _ => is_db_code rc ∨ rc = -1 end).
Proof.
  intros R. revert ret q. induction l as [|d l IH]; intros ret q Hok; cbn [api_get_loop].
  { exists []. split; [|done].
    split; [done|left; by rewrite app_nil_r|set_solver|done|done|done|by constructor|done]. }
  inversion Hok as [|? ? Hd Hok']; subst.
  pose proof (get_one_spec now q d t a R Hd) as H1. destruct (_get_one now q d t) as [[rc1 q1]|]; [|exact H1].
  destruct H1 as (hs1 & Hq). cbn [mbind option_bind].
  assert (OeStoreQuery_get_nitems_found q =? OeStoreQuery_get_nitems_found q1 = bool_decide (hs1 = [])) as ->.
  { unfold OeStoreQuery_get_nitems_found. rewrite !length_spec, (qa_results _ _ _ _ _ _ _ Hq), length_app, length_fmap.
    destruct hs1; cbn [length]; case_bool_decide; try done; [apply Z.eqb_eq|apply Z.eqb_neq]; lia. }
  destruct (negb (rc1 =? 0) && negb (rc1 =? DB_NOTFOUND)) eqn:Ee.
  - exists hs1. split; [|apply Hq].
    apply andb_true_iff in Ee as [E0 E1]. apply negb_true_iff, Z.eqb_neq in E0, E1.
    destruct Hq as [Q1 Q2 Q3 Q4 Q5 Q6 Qc Qm Q7]. split; [done|by left| |intros _; cbn [length]; lia|congruence|congruence|congruence|congruence].
    intros h Hh. destruct (Q4 h Hh) as (? & ? & ?). split_and!; [done..|by left].
  - assert (rc1 = 0 ∨ rc1 = DB_NOTFOUND) as Hrc1.
    { destruct (Z.eqb_spec rc1 0), (Z.eqb_spec rc1 DB_NOTFOUND); cbn in Ee; auto; done. }
    destruct (_AND && bool_decide (hs1 = [])) eqn:Ea.
    + apply andb_true_iff in Ea as [-> ->%bool_decide_eq_true]. exists [].
      split; [|left; right; apply code_notfound]. destruct Hq as [Q1 _ _ _ _ Q6 _ _ Q7].
      split; [done|by right|set_solver|intros _; cbn [length q_results OeStoreQuery_reset_nitems_found OeStoreQuery_set_results]; cbn; lia|done| | |];
        [intros Hn; by destruct codes|intros ? Hn; by destruct codes|].
      intros _ _ _ _. left. intros k h Hk Hm Hv. destruct Hrc1 as [Hrc1|Hrc1]; [by apply Q6 in Hrc1|].
      specialize (Q7 Hrc1 k h Hk Hm Hv). set_solver.
    + specialize (IH rc1 q1 Hok'). destruct (api_get_loop now _AND l rc1 q1 t) as [[rc q']|]; [|exact IH].
      destruct IH as (hs & Hl & Hlast).
      destruct (loop_adds_cons now a _AND d l q rc1 q1 hs1 rc q' hs Hq Hrc1) as [hs' H']; [|..|done|].
      { intros [-> ->]. by cbn in Ea. }
      { by intros ->. }
      exists hs'. split; [done|]. destruct l; [subst rc; apply Hq|done].
Qed.

(** ** Taking *)

Definition take_out (rs : list OeStoreHolder) (a : astore) : astore :=
  foldl (λ a r, del_item (lease_id r) a) a rs.
Definition lock_in (rs : list OeStoreHolder) (a : astore) : astore :=
  foldl (λ a r, add_item r a) a rs.

(** The recheck of an item before it is taken: on success it is there and visible. *)
Definition recheck (now : Z) (t : dtxn) (lid : Z) : option Z :=
  '(ret, data) ← _get (holder_get t lid);
  if ret =? DB_NOTFOUND then Some OE_STORE_PLEASE_RETRY
  else if negb (ret =? 0) then Some ret
  else
    rholder ← OeStoreHolder_new_from_buffer data;
    Some (if negb (bool_decide (OeStoreHolder_skip now rholder = OESTORE_DO_NOT_SKIP))
          then OE_STORE_PLEASE_RETRY else 0).

Lemma recheck_spec now t lid a :
  repr (view t) a →
  ∃ rc, recheck now t lid = Some rc ∧
    (rc = 0 → ∃ h, a_items a !! lid = Some h ∧ visible now h).
Proof.
  intros R. pose proof codes as (Hnf & _). unfold recheck. destruct (holder_get t lid) as [rc r] eqn:E.
  destruct (decide (rc = 0)) as [->|Hn].
  - destruct (_get_ok r) as [n ->]. cbn [mbind option_bind]. destruct (Z.eqb_spec 0 DB_NOTFOUND); [congruence|].
    cbn [Z.eqb negb]. destruct (repr_lookup _ _ _ _ R (hget_ok _ _ _ E)) as (h & Ha & -> & Hs).
    rewrite (stored_dec lid h _ Hs). cbn [mbind option_bind]. eexists. split; [done|].
    case_bool_decide; cbn; [|done]. intros _. by exists h.
  - rewrite _get_err by done. cbn [mbind option_bind]. destruct (Z.eqb_spec rc DB_NOTFOUND);
      [by eexists|]. destruct (Z.eqb_spec rc 0); [done|]. by eexists.
Qed.

Lemma delete_loop_step now t r rs :
  _delete_items_for_take_loop now t (r :: rs) =
  (rc ← recheck now t (lease_id r);
   if rc =? 0 then
     let '(ret, t) := holder_del t (lease_id r) in
     if negb (ret =? 0) then Some (ret, t) else _delete_items_for_take_loop now t rs
   else Some (rc, t)).
Proof.
  cbn [_delete_items_for_take_loop]. unfold recheck.
  destruct (_get _) as [[rc d]|]; cbn [mbind option_bind]; [|done].
  destruct (rc =? DB_NOTFOUND); [done|]. destruct (Z.eqb_spec rc 0) as [->|Hn]; cbn [negb mbind option_bind];
    [|by destruct (Z.eqb_spec rc 0)].
  destruct (OeStoreHolder_new_from_buffer d); cbn [mbind option_bind]; [|done].
  by repeat case_bool_decide.
Qed.

Lemma update_loop_step now t r rs :
  _update_locks_for_take_loop now t (r :: rs) =
  (rc ← recheck now t (lease_id r);
   if rc =? 0 then
     '(ret, t) ← _put_holder t r;
     if negb (ret =? 0) then Some (ret, t) else _update_locks_for_take_loop now t rs
   else Some (rc, t)).
Proof.
  cbn [_update_locks_for_take_loop]. unfold recheck.
  destruct (_get _) as [[rc d]|]; cbn [mbind option_bind]; [|done].
  destruct (rc =? DB_NOTFOUND); [done|]. destruct (Z.eqb_spec rc 0) as [->|Hn]; cbn [negb mbind option_bind];
    [|by destruct (Z.eqb_spec rc 0)].
  destruct (OeStoreHolder_new_from_buffer d); cbn [mbind option_bind]; [|done].
  by repeat case_bool_decide.
Qed.

(** All the items handed out are taken, or the call fails. *)
Lemma delete_loop_spec now t rs a :
  repr (view t) a →
  ∃ rc t', _delete_items_for_take_loop now t rs = Some (rc, t') ∧
    (rc = 0 → repr (view t') (take_out rs a) ∧ NoDup (lease_id <$> rs) ∧
      ∀ r, r ∈ rs → ∃ h, a_items a !! lease_id r = Some h ∧ visible now h).
Proof.
  revert t a. induction rs as [|r rs IH]; intros t a R.
  { do 2 eexists. split; [done|]. intros _. split_and!; [done|constructor|set_solver]. }
  rewrite delete_loop_step. destruct (recheck_spec now t (lease_id r) a R) as (rc & -> & Hrc).
  cbn [mbind option_bind]. destruct (Z.eqb_spec rc 0) as [->|Hn]; [|by do 2 eexists].
  destruct (Hrc eq_refl) as (h & Ha & Hv). destruct (holder_del t (lease_id r)) as [ret t1] eqn:E.
  destruct (Z.eqb_spec ret 0) as [->|Hn]; cbn [negb]; [|by do 2 eexists].
  destruct (IH t1 (del_item (lease_id r) a)) as (rc & t' & -> & Hok).
  { rewrite (hdel_ok _ _ _ E). by apply repr_del. }
  do 2 eexists. split; [done|]. intros ->. destruct (Hok eq_refl) as (R' & Hnd & Hin).
  split; [done|]. split.
  - cbn. constructor; [|done]. intros Hr. apply list_elem_of_fmap in Hr as (r' & Er & Hr').
    destruct (Hin r' Hr') as (h' & Hl & _). rewrite <-Er in Hl. cbn in Hl. by rewrite lookup_delete_eq in Hl.
  - intros r' Hr'. apply elem_of_cons in Hr' as [->|Hr']; [by exists h|].
    destruct (Hin r' Hr') as (h' & Hl & Hv'). cbn in Hl. apply lookup_delete_Some in Hl as [_ Hl]. by exists h'.
Qed.

Lemma update_loop_spec now t rs a :
  repr (view t) a → Forall (λ r, lock r = OESTORE_TAKE_LOCK ∧ ∃ d, holder_wf r d) rs →
  ∃ rc t', _update_locks_for_take_loop now t rs = Some (rc, t') ∧
    (rc = 0 → repr (view t') (lock_in rs a) ∧ NoDup (lease_id <$> rs) ∧
      ∀ r, r ∈ rs → ∃ h, a_items a !! lease_id r = Some h ∧ visible now h).
Proof.
  revert t a. induction rs as [|r rs IH]; intros t a R Hwf.
  { do 2 eexists. split; [done|]. intros _. split_and!; [done|constructor|set_solver]. }
  inversion Hwf as [|? ? [Hlk [d Hw]] Hwf']; subst.
  rewrite update_loop_step. destruct (recheck_spec now t (lease_id r) a R) as (rc & -> & Hrc).
  cbn [mbind option_bind]. destruct (Z.eqb_spec rc 0) as [->|Hn]; [|by do 2 eexists].
  destruct (Hrc eq_refl) as (h & Ha & Hv). destruct (put_holder_spec t r d a Hw R) as (ret & t1 & -> & Hp).
  cbn [mbind option_bind]. destruct (Z.eqb_spec ret 0) as [->|Hn]; cbn [negb]; [|by do 2 eexists].
  destruct (Hp eq_refl) as [R1 _]. destruct (IH t1 (add_item r a) R1 Hwf') as (rc & t' & -> & Hok).
  do 2 eexists. split; [done|]. intros ->. destruct (Hok eq_refl) as (R' & Hnd & Hin).
  assert (∀ r', r' ∈ rs → lease_id r' ≠ lease_id r) as Hne.
  { intros r' Hr' Er. destruct (Hin r' Hr') as (h' & Hl & Hv'). rewrite Er in Hl. cbn in Hl.
    rewrite lookup_insert_eq in Hl. simplify_eq. apply skip_deliver in Hv' as [_ Hv'].
    unfold norm in Hv'. rewrite (hw_data _ _ Hw) in Hv'. cbn in Hv'. congruence. }
  split; [done|]. split.
  - cbn. constructor; [|done]. intros Hr. apply list_elem_of_fmap in Hr as (r' & Er & Hr').
    by destruct (Hne r' Hr').
  - intros r' Hr'. apply elem_of_cons in Hr' as [->|Hr']; [by exists h|].
    destruct (Hin r' Hr') as (h' & Hl & Hv'). cbn in Hl.
    rewrite lookup_insert_ne in Hl by (specialize (Hne _ Hr'); congruence). by exists h'.
Qed.

(** What a query is given: no results yet, templates of bounded size. *)
Record query_ok (q : OeStoreQuery) (l : list DataObject) : Prop := {
  qo_lists : q_value_lists q = Some l;
  qo_templates : Forall template_ok l;
  qo_empty : q_results q = [];
  qo_owner : in_u 64 (q_owner_id q)
}.

(** The items behind the results of a query. *)
Definition found_in (now : Z) (a : astore) (q : OeStoreQuery) (l : list DataObject)
    (rs hs : list OeStoreHolder) : Prop :=
  rs = handed q <$> hs ∧
  ∀ h, h ∈ hs → a_items a !! lease_id h = Some h ∧ visible now h ∧ txn_id h = 0 ∧
               Exists (λ d, amatch (q_is_tuple q) d h) l.

Lemma amatch_unowned k h tuple d : stored k h → amatch tuple d h → txn_id h = 0.
Proof.
  intros Hs [Hne Hm]. destruct (qkeys tuple d) as [|key ks]; [done|]. inversion Hm; subst.
  by eapply has_prop_unowned.
Qed.

Lemma loop_found now a c _AND l q rc q' hs :
  repr c a → q_results q = [] → loop_adds now a _AND l q rc q' hs →
  ∃ hs', found_in now a q l (q_results q') hs' ∧
    (hs' = [] → _AND = false → hs = []) ∧ (rc ≠ DB_NOTFOUND ∨ _AND = false → hs' = hs).
Proof.
  intros R Hr [L1 L2 L3 L4 L5 Lf L6 Ln]. destruct L2 as [L2|(-> & -> & L2 & ->)].
  - exists hs. rewrite L2, Hr. split; [|done]. split; [done|]. intros h Hh.
    destruct (L3 h Hh) as (? & Hl & He). split_and!; [done..| |done].
    apply list.Exists_exists in He as (d & _ & Hm). eapply amatch_unowned; [|exact Hm].
    by apply (r_items _ _ R).
  - exists []. rewrite L2. split; [|split; [done|intros [?|?]; done]]. split; [done|set_solver].
Qed.

Lemma handed_wf q k h :
  stored k h → q_take q = true → in_u 64 (q_owner_id q) →
  lease_id (handed q h) = lease_id h ∧ lock (handed q h) = OESTORE_TAKE_LOCK ∧
  stored k (handed q h) ∧ ∃ d, holder_wf (handed q h) d.
Proof.
  intros Hs Ht Ho. unfold handed. rewrite Ht. cbn. split; [done|]. split; [done|].
  apply (stored_meta k h OESTORE_TAKE_LOCK (q_owner_id q) (lease_expire_time h) Hs Ho).
  destruct Hs as (_ & d & Hw & _). apply Hw.
Qed.

Lemma nitems_zero q : (OeStoreQuery_get_nitems_found q =? 0) = bool_decide (q_results q = []).
Proof.
  unfold OeStoreQuery_get_nitems_found. rewrite length_spec. destruct (q_results q); [done|].
  by rewrite bool_decide_eq_false_2.
Qed.

Lemma nitems_le q : (OeStoreQuery_get_nitems_found q <=? 0) = bool_decide (q_results q = []).
Proof.
  unfold OeStoreQuery_get_nitems_found. rewrite length_spec. destruct (q_results q); [done|].
  by rewrite bool_decide_eq_false_2.
Qed.

(** No visible item matches the template. *)
Definition unseen (now : Z) (a : astore) (tuple : bool) (d : DataObject) : Prop :=
  ∀ k h, a_items a !! k = Some h → amatch tuple d h → ¬ visible now h.

Lemma api_get_read_ok now now' b a q l :
  state_ok b a → query_ok q l → q_take q = false →
  returns (_api_get now now' b q) (λ '(rc, q', b'), state_ok b' a ∧
    (rc = 0 → l ≠ [] →
      q_results q' ≠ [] ∧ found_in now a q l (q_results q') (q_results q') ∧
      Z.of_nat (length (q_results q')) ≤ Z.max (q_max_items q) 1 + Z.of_nat (length l) - 1 ∧
      (q_max_items q = 0 → Forall2 (λ d h, amatch (q_is_tuple q) d h) l (q_results q'))) ∧
    (rc = OE_STORE_ITEM_NOTFOUND → l ≠ [] →
      if q_max_items q =? 0 then Exists (unseen now a (q_is_tuple q)) l
      else Forall (unseen now a (q_is_tuple q)) l)).
Proof.
  intros S [Hl Ht He Ho] Htake. pose proof codes as (Hnf & _). unfold _api_get, _api_get_seen, OeStoreQuery_get_value_lists.
  rewrite Htake, Hl. cbn [andb negb mbind option_bind].
  destruct (txn_begin (env b)) as [rc0 t] eqn:Et. pose proof (begin_code (env b)) as [Hcd Hbn].
  rewrite Et in Hcd, Hbn. cbn in Hcd, Hbn.
  destruct (Z.eqb_spec rc0 0) as [->|Hn0]; cbn [negb].
  2:{ split; [done|]. split; [by intros Hz; apply handlerc_zero in Hz|].
      intros E. apply handlerc_notfound in E as [?|?]; [done|]. unfold is_db_code, OE_STORE_ITEM_NOTFOUND in *. lia. }
  assert (repr (view t) a) as R by (rewrite (begin_view _ _ Et); apply S).
  set (AND := OeStoreQuery_get_max_results q =? 0).
  pose proof (api_get_loop_spec now AND l 0 q t a R Ht) as Hloop.
  destruct (api_get_loop now AND l 0 q t) as [[rc q']|]; [|exact Hloop]. destruct Hloop as (hs & La & Hcode).
  cbn [mbind option_bind].
  destruct (loop_found now a _ AND l q rc q' hs R He La) as (hs' & [Hrs Hin] & Hnil & Heq).
  rewrite nitems_zero, nitems_le.
  assert (handed q <$> hs' = hs') as Hh.
  { rewrite <-(list_fmap_id hs') at 2. apply list_fmap_ext. intros ? h _. unfold handed. by rewrite Htake. }
  destruct (finish_abort (env b) t) as (_ & Hst & Hsb). destruct (_finish_txn (env b) (Some t) false) as [z e].
  cbn in Hst, Hsb. assert (state_ok (set_env b e) a) as S' by (apply state_ok_env; [done..|lia]).
  assert (l ≠ [] → rc = 0 → q_results q' ≠ []) as Hsome.
  { intros Hne -> Hres. rewrite Hres in Hrs. symmetry in Hrs. apply fmap_nil_inv in Hrs. subst hs'.
    apply (la_found _ _ _ _ _ _ _ _ La eq_refl Hne). symmetry. apply Heq. left. congruence. }
  assert (l ≠ [] → rc = DB_NOTFOUND → q_results q' = [] ∨ AND = true →
    if q_max_items q =? 0 then Exists (unseen now a (q_is_tuple q)) l else Forall (unseen now a (q_is_tuple q)) l) as Hunseen.
  { intros Hne Hrc Hres. fold (OeStoreQuery_get_max_results q). fold AND. destruct AND eqn:HA.
    - apply (la_none _ _ _ _ _ _ _ _ La); [done..| |done]. by apply Z.eqb_eq.
    - destruct Hres as [Hres|]; [|done]. apply Forall_forall. intros d Hd k h Hk Hm.
      rewrite Hres in Hrs. symmetry in Hrs. apply fmap_nil_inv in Hrs. subst hs'.
      refine (la_all _ _ _ _ _ _ _ _ La eq_refl Hrc (Hnil eq_refl eq_refl) Hne k h d _ Hk Hm). by apply list_elem_of_In. }
  set (ret := if _ && _ && _ then 0 else rc).
  destruct (Z.eqb_spec ret 0) as [Hz|Hz]; cbn [negb].
  - assert (ret = 0 → rc = 0 ∨ AND = false ∧ rc = DB_NOTFOUND ∧ q_results q' ≠ []) as Hor.
    { unfold ret. destruct (Z.eqb_spec rc DB_NOTFOUND); case_bool_decide; destruct AND; cbn; auto. }
    case_bool_decide as Hres.
    + split; [done|]. split; [done|]. intros _ Hne. exfalso. destruct (Hor Hz) as [?|(_ & _ & ?)]; [|done]. by apply Hsome.
    + split; [done|].
      split; [|intros E; apply handlerc_notfound in E as [E|E]; [congruence|rewrite Hz in E; done]].
      intros _ Hne. rewrite Hrs, Hh. split; [congruence|]. split; [split; [done|]; apply Hin|].
      assert (hs' = hs) as Ehs.
      { apply Heq. destruct (Hor Hz) as [->|[? _]]; [left; congruence|by right]. }
      split.
      * pose proof (la_limit _ _ _ _ _ _ _ _ La Hne) as Hlim. rewrite Hrs, Hh, He in Hlim. done.
      * intros Hmax. rewrite Ehs. apply (la_and _ _ _ _ _ _ _ _ La); [by apply Z.eqb_eq| |done].
        destruct (Hor Hz) as [?|[HA _]]; [done|]. unfold AND, OeStoreQuery_get_max_results in HA. by rewrite Hmax in HA.
  - split; [done|]. split; [by intros E; apply handlerc_zero in E|].
    intros E Hne. assert (rc = ret) as Hrr by (revert Hz; unfold ret; by destruct (_ && _)).
    assert (rc = DB_NOTFOUND) as Hrc.
    { rewrite Hrr. apply handlerc_notfound in E as [?|E]; [done|]. destruct l; [done|].
      rewrite <-Hrr in E. unfold is_db_code, OE_STORE_ITEM_NOTFOUND in *. lia. }
    apply Hunseen; [done..|]. revert Hz. unfold ret. rewrite Hrc, Z.eqb_refl.
    case_bool_decide; destruct AND; cbn; auto.
Qed.

(** A query comes back with its results and nothing else changed. *)
Lemma api_get_same now now' b a q l rc q' b' :
  state_ok b a → query_ok q l → _api_get now now' b q = Some (rc, q', b') →
  same_query q q' ∧ fire_write_event b' = fire_write_event b ∧
  (l ≠ [] → Z.of_nat (length (q_results q')) ≤ Z.max (q_max_items q) 1 + Z.of_nat (length l) - 1).
Proof.
  intros S [Hl Ht He Ho]. unfold _api_get, _api_get_seen, OeStoreQuery_get_value_lists. rewrite Hl.
  assert (same_query q q) by (by repeat split).
  assert (l ≠ [] → Z.of_nat (length (q_results q)) ≤ Z.max (q_max_items q) 1 + Z.of_nat (length l) - 1)
    by (rewrite He; destruct l; [done|cbn; lia]).
  destruct (if q_take q && _ then _ else _) as [[]|]; cbn [mbind option_bind negb]; [|by intros [= <- <- <-]|done].
  destruct (txn_begin (env b)) as [rc0 t] eqn:Et. destruct (Z.eqb_spec rc0 0) as [->|]; cbn [negb]; [|by intros [= <- <- <-]].
  assert (repr (view t) a) as R by (rewrite (begin_view _ _ Et); apply S).
  pose proof (api_get_loop_spec now (OeStoreQuery_get_max_results q =? 0) l 0 q t a R Ht) as Hloop.
  destruct (api_get_loop now _ l 0 q t) as [[rc1 q1]|]; [|done]. destruct Hloop as (hs & La & _).
  cbn [mbind option_bind]. pose proof (la_same _ _ _ _ _ _ _ _ La) as Hq.
  pose proof (la_limit _ _ _ _ _ _ _ _ La) as Hlim. rewrite He in Hlim. cbn [length] in Hlim.
  destruct (negb _).
  { destruct (_finish_txn _ _ _). by intros [= <- <- <-]. }
  destruct (_ && _).
  - destruct (if _ =? 0 then _ else _) as [[ret t']|]; cbn [mbind option_bind]; [|done].
    destruct (negb _); destruct (_finish_txn _ _ _); by intros [= <- <- <-].
  - destruct (_finish_txn _ _ _). destruct (_ <=? 0); by intros [= <- <- <-].
Qed.

(** C6  Reading: a query that does not take returns when the database joins
    positioned cursors, and never changes the store, whatever else the
    database answers.  With code 0 it has results, each an item of the store
    that is unexpired, unlocked, owned by no transaction and matched by one of
    the templates; there are at most as many as asked for (one at least), and
    one more for each template after the first; with a limit of 0 there is
    one result per template.  When it reports that nothing was found, no
    visible item of the store matches any template; with a limit of 0, there
    is a template no visible item matches. *)
Theorem api_get_read now now' b a q l :
  state_ok b a → query_ok q l → joins_open → q_take q = false →
  ∃ rc q' b', _api_get now now' b q = Some (rc, q', b') ∧ state_ok b' a ∧
    (rc = 0 → l ≠ [] →
      q_results q' ≠ [] ∧ found_in now a q l (q_results q') (q_results q') ∧
      Z.of_nat (length (q_results q')) ≤ Z.max (q_max_items q) 1 + Z.of_nat (length l) - 1 ∧
      (q_max_items q = 0 → Forall2 (λ d h, amatch (q_is_tuple q) d h) l (q_results q'))) ∧
    (rc = OE_STORE_ITEM_NOTFOUND → l ≠ [] →
      if q_max_items q =? 0 then Exists (unseen now a (q_is_tuple q)) l
      else Forall (unseen now a (q_is_tuple q)) l).
Proof.
  intros S Hq J Ht.
  destruct (returns_total _ _ J (api_get_read_ok now now' b a q l S Hq Ht)) as ([[rc q'] b'] & -> & H). eauto.
Qed.

Lemma take_out_lookup rs a k :
  a_txns (take_out rs a) = a_txns a ∧
  a_items (take_out rs a) !! k = if decide (k ∈ lease_id <$> rs) then None else a_items a !! k.
Proof.
  revert a. induction rs as [|r rs IH]; intros a; cbn [take_out foldl fmap list_fmap].
  { by rewrite decide_False by apply not_elem_of_nil. }
  destruct (IH (del_item (lease_id r) a)) as [IH1 IH2]. unfold take_out in *. rewrite IH1, IH2. split; [done|].
  cbn. destruct (decide (k ∈ lease_id <$> rs)); [by rewrite decide_True by set_solver|].
  destruct (decide (k = lease_id r)) as [->|Hn].
  - rewrite decide_True by set_solver. apply lookup_delete_eq.
  - rewrite decide_False by set_solver. by rewrite lookup_delete_ne.
Qed.

Lemma lock_in_lookup rs a :
  NoDup (lease_id <$> rs) →
  a_txns (lock_in rs a) = a_txns a ∧
  (∀ r, r ∈ rs → a_items (lock_in rs a) !! lease_id r = Some (norm r)) ∧
  (∀ k, k ∉ lease_id <$> rs → a_items (lock_in rs a) !! k = a_items a !! k).
Proof.
  revert a. induction rs as [|r rs IH]; intros a Hnd; cbn [lock_in foldl]; [split_and!; [done|set_solver|done]|].
  inversion Hnd as [|? ? Hr Hnd']; subst. destruct (IH (add_item r a) Hnd') as (IH1 & IH2 & IH3).
  unfold lock_in in *. rewrite IH1. split; [done|]. split.
  - intros r' Hr'. apply elem_of_cons in Hr' as [->|Hr']; [|by apply IH2].
    rewrite IH3 by done. cbn. apply lookup_insert_eq.
  - intros k Hk. apply not_elem_of_cons in Hk as [Hk1 Hk2]. rewrite IH3 by done. cbn. by rewrite lookup_insert_ne.
Qed.

(** What a successful take has done to the store. *)
Definition taken (q : OeStoreQuery) (rs : list OeStoreHolder) (a : astore) : astore :=
  if q_owner_id q =? 0 then take_out rs a else lock_in rs a.

Lemma take_items_spec now' q q' t a hs :
  repr (view t) a → q_take q = true → in_u 64 (q_owner_id q) → q_owner_id q' = q_owner_id q →
  q_results q' = handed q <$> hs → (∀ h, h ∈ hs → a_items a !! lease_id h = Some h) →
  ∃ rc t', (if q_owner_id q' =? 0 then _delete_items_for_take now' q' t
            else _update_locks_for_take now' q' t) = Some (rc, t') ∧
    (rc = 0 → repr (view t') (taken q (q_results q') a) ∧ NoDup (lease_id <$> q_results q') ∧
      ∀ h, h ∈ hs → visible now' h).
Proof.
  intros R Ht Ho Hoq Hres Hin. rewrite Hoq. unfold taken.
  assert (∀ h, h ∈ hs → lease_id (handed q h) = lease_id h ∧ lock (handed q h) = OESTORE_TAKE_LOCK ∧
    ∃ d, holder_wf (handed q h) d) as Hwf.
  { intros h Hh. pose proof (r_items _ _ R _ _ (Hin h Hh)) as Hs.
    destruct (handed_wf q _ h Hs Ht Ho) as (? & ? & ? & ?). auto. }
  assert ((∀ r, r ∈ q_results q' → ∃ h, a_items a !! lease_id r = Some h ∧ visible now' h) →
    ∀ h, h ∈ hs → visible now' h) as Hvis.
  { intros Hr h Hh. destruct (Hr (handed q h)) as (h' & Hl & Hv).
    - rewrite Hres. by apply list_elem_of_fmap_2.
    - rewrite (proj1 (Hwf h Hh)), (Hin h Hh) in Hl. by simplify_eq. }
  unfold _delete_items_for_take, _update_locks_for_take.
  destruct (Z.eqb_spec (q_owner_id q) 0), (is_deadlocked t);
    try (by do 2 eexists; split; [done|]; intros E).
  - destruct (delete_loop_spec now' t (q_results q') a R) as (rc & t' & -> & Hok).
    do 2 eexists. split; [done|]. intros E. destruct (Hok E) as (? & ? & ?). auto.
  - destruct (update_loop_spec now' t (q_results q') a R) as (rc & t' & -> & Hok).
    { rewrite Hres. apply Forall_forall. intros r Hr. apply list_elem_of_In, list_elem_of_fmap in Hr as (h & -> & Hh).
      destruct (Hwf h Hh) as (_ & ? & ?). auto. }
    do 2 eexists. split; [done|]. intros E. destruct (Hok E) as (? & ? & ?). auto.
Qed.

Lemma taken_state b a e q rs :
  state_ok b a → repr (store_of e) (taken q rs a) → seq_bound e = seq_bound (env b) →
  NoDup (lease_id <$> rs) → (∀ r, r ∈ rs → is_Some (a_items a !! lease_id r)) →
  state_ok (set_env b e) (taken q rs a).
Proof.
  intros S R Hb Hnd Hin. apply (state_ok_new b a); [done|done|lia| |]; unfold taken; destruct (q_owner_id q =? 0).
  - intros k. rewrite (proj2 (take_out_lookup rs a k)). case_decide; [by intros []|by left].
  - intros k Hk. left. destruct (lock_in_lookup rs a Hnd) as (_ & _ & H3).
    destruct (decide (k ∈ lease_id <$> rs)) as [Hd|Hd]; [|by rewrite H3 in Hk].
    apply list_elem_of_fmap in Hd as (r & -> & Hr). by apply Hin.
  - intros k. rewrite (proj1 (take_out_lookup rs a 0)). by left.
  - intros k. rewrite (proj1 (lock_in_lookup rs a Hnd)). by left.
Qed.

(** The end of a taking query, after its items were found. *)
Lemma take_tail_spec now' b a q q' t hs :
  state_ok b a → repr (view t) a → q_take q = true → in_u 64 (q_owner_id q) →
  q_owner_id q' = q_owner_id q → q_results q' = handed q <$> hs →
  (∀ h, h ∈ hs → a_items a !! lease_id h = Some h) →
  ∃ rc b',
    ('(ret, txn_holder) ← (if q_owner_id q' =? 0 then _delete_items_for_take now' q' t
                           else _update_locks_for_take now' q' t);
     if negb (ret =? 0) then
       let '(_, e) := _finish_txn (env b) (Some txn_holder) false in
       Some ((_handlerc e ret None).1, q', set_env b e)
     else
       let '(lret, e) := _finish_txn (env b) (Some txn_holder) true in
       Some ((_handlerc e lret None).1, q', set_env b e)) = Some (rc, q', b') ∧
    if rc =? 0
    then state_ok b' (taken q (q_results q') a) ∧ NoDup (lease_id <$> q_results q') ∧ ∀ h, h ∈ hs → visible now' h
    else state_ok b' a.
Proof.
  intros S R Ht Ho Hoq Hres Hin.
  destruct (take_items_spec now' q q' t a hs R Ht Ho Hoq Hres Hin) as (rc & t' & -> & Hok). cbn [mbind option_bind].
  destruct (Z.eqb_spec rc 0) as [->|Hn]; cbn [negb].
  - destruct (Hok eq_refl) as (R' & Hnd & Hv).
    destruct (_finish_txn (env b) (Some t') true) as [lret e] eqn:Ef. destruct (finish_commit _ _ _ _ Ef) as [Hb Hs].
    do 2 eexists. split; [done|]. pose proof (handlerc_zero e lret None) as Hz.
    destruct (Z.eqb_spec lret 0) as [->|Hn].
    + rewrite (proj2 Hz eq_refl). cbn. split; [|done]. apply taken_state; [done|by rewrite Hs|done|done|].
      rewrite Hres. intros r Hr. apply list_elem_of_fmap in Hr as (h & -> & Hh).
      pose proof (r_items _ _ R _ _ (Hin h Hh)) as Hst.
      rewrite (proj1 (handed_wf q _ h Hst Ht Ho)), (Hin h Hh). done.
    + destruct (Z.eqb_spec (_handlerc e lret None).1 0) as [E%Hz|]; [done|]. apply state_ok_env; [done..|lia].
  - destruct (finish_abort (env b) t') as (_ & Hst & Hsb). destruct (_finish_txn (env b) (Some t') false) as [z e].
    do 2 eexists. split; [done|].
    destruct (Z.eqb_spec (_handlerc e rc None).1 0) as [E%handlerc_zero|]; [done|].
    cbn in *. apply state_ok_env; [done..|lia].
Qed.

Lemma api_take_ok now now' b a q l :
  state_ok b a → query_ok q l → q_take q = true →
  returns (_api_get now now' b q) (λ '(rc, q', b'),
    if rc =? 0
    then l ≠ [] →
         state_ok b' (taken q (q_results q') a) ∧ NoDup (lease_id <$> q_results q') ∧
         (q_owner_id q ≠ 0 → active a (q_owner_id q)) ∧
         ∃ hs, hs ≠ [] ∧ found_in now a q l (q_results q') hs ∧ ∀ h, h ∈ hs → visible now' h
    else state_ok b' a).
Proof.
  intros S [Hl Ht He Ho] Htake. pose proof codes as (Hnf & _). unfold _api_get, _api_get_seen, OeStoreQuery_get_value_lists.
  rewrite Htake, Hl. cbn [andb from_option].
  assert (∃ r, (if negb (q_owner_id q =? 0) then _txn_is_active (env b) (q_owner_id q) else Some true) = Some r ∧
    (r = true → q_owner_id q ≠ 0 → active a (q_owner_id q))) as (r & -> & Hr).
  { destruct (Z.eqb_spec (q_owner_id q) 0) as [E|Hn]; cbn [negb]; [by exists true|].
    destruct (txn_is_active_spec (env b) _ a (so_repr _ _ S) Hn) as (r & -> & Hr). exists r. auto. }
  cbn [mbind option_bind]. destruct r; cbn [negb].
  2:{ unfold returns. by destruct (Z.eqb_spec (_handlerc (env b) OESTORE_INACTIVE_TXN None).1 0)
        as [E%handlerc_zero|]. }
  destruct (txn_begin (env b)) as [rc0 t] eqn:Et.
  destruct (Z.eqb_spec rc0 0) as [->|Hn0]; cbn [negb].
  2:{ unfold returns. by destruct (Z.eqb_spec (_handlerc (env b) rc0 None).1 0) as [E%handlerc_zero|]. }
  assert (repr (view t) a) as R by (rewrite (begin_view _ _ Et); apply S).
  pose proof (api_get_loop_spec now (OeStoreQuery_get_max_results q =? 0) l 0 q t a R Ht) as Hloop.
  destruct (api_get_loop now _ l 0 q t) as [[rc q']|]; [|exact Hloop]. destruct Hloop as (hs & La & _).
  cbn [mbind option_bind].
  destruct (loop_found now a _ _ l q rc q' hs R He La) as (hs' & [Hrs Hin] & _ & _).
  set (ret := if _ && _ && _ then 0 else rc).
  destruct (finish_abort (env b) t) as (_ & Hst & Hsb). destruct (_finish_txn (env b) (Some t) false) as [z e].
  cbn in Hst, Hsb. assert (state_ok (set_env b e) a) as S' by (apply state_ok_env; [done..|lia]).
  destruct (Z.eqb_spec ret 0) as [Hz|Hz]; cbn [negb].
  2:{ unfold returns. by destruct (Z.eqb_spec (_handlerc e ret None).1 0) as [E%handlerc_zero|]. }
  destruct (0 <? OeStoreQuery_get_nitems_found q') eqn:Hpos.
  - destruct (take_tail_spec now' b a q q' t hs' S R Htake Ho) as (rcf & b' & -> & Hf);
      [apply La|done|intros h Hh; by apply Hin|].
    unfold returns. destruct (rcf =? 0); [|done]. intros Hne.
    destruct Hf as (? & ? & ?). split_and!; [done..|by apply Hr|]. exists hs'. split_and!; [|done..].
    intros ->. unfold OeStoreQuery_get_nitems_found in Hpos. rewrite length_spec, Hrs in Hpos. done.
  - rewrite Z.leb_antisym, Hpos. done.
Qed.

(** C3  Taking: a query that takes is all or nothing.  With code 0 its results
    are distinct items that were visible, matched a template and were owned
    by no transaction; they are gone from the store when the query has no
    transaction, and otherwise they are in the store with a take lock and the
    transaction, which is active, as owner.  With any other code the store is
    unchanged. *)
Theorem api_take_spec now now' b a q l :
  state_ok b a → query_ok q l → joins_open → q_take q = true →
  ∃ rc q' b', _api_get now now' b q = Some (rc, q', b') ∧
    if rc =? 0
    then l ≠ [] →
         state_ok b' (taken q (q_results q') a) ∧ NoDup (lease_id <$> q_results q') ∧
         (q_owner_id q ≠ 0 → active a (q_owner_id q)) ∧
         ∃ hs, hs ≠ [] ∧ found_in now a q l (q_results q') hs ∧ ∀ h, h ∈ hs → visible now' h
    else state_ok b' a.
Proof.
  intros S Hq J Ht.
  destruct (returns_total _ _ J (api_take_ok now now' b a q l S Hq Ht)) as ([[rc q'] b'] & -> & H). eauto.
Qed.

End BdbSpec.
