(* ===== verification/BdbTxn.v ===== *)
(** * BdbTxn: transactions, leases and reachable states of the store

    The transaction state machine of [src/corelib/OeBdb.c] ([_start_txn],
    [_update_txn], [_finish_oetxn]), the lease operations, and the invariant
    of every state that sequences of API calls can reach. *)

From S2P Require Import Prelude Values Collections StoreHolder BdbKeys Bdb BdbSpec.
Import AList DataObject DataObjectList.

(** ** Finishing a transaction on the abstract store *)

Definition unlock (h : OeStoreHolder) : OeStoreHolder :=
  OeStoreHolder_set_lock (OeStoreHolder_set_txn_id h 0) OESTORE_UNLOCKED.

(** What happens to an item when transaction [t] ends and items locked with
    [del] are to go. *)
Definition settle (t : Z) (del : OESTORE_LOCK) (h : OeStoreHolder) : option OeStoreHolder :=
  if txn_id h =? t then (if bool_decide (lock h = del) then None else Some (unlock h)) else Some h.

Definition del_lock (st : OESTORE_TXN_STATUS) : OESTORE_LOCK :=
  match st with OESTORE_TXN_ROLLED_BACK => OESTORE_WRITE_LOCK | _ => OESTORE_TAKE_LOCK end.
Definition clr_lock (st : OESTORE_TXN_STATUS) : OESTORE_LOCK :=
  match st with OESTORE_TXN_ROLLED_BACK => OESTORE_TAKE_LOCK | _ => OESTORE_WRITE_LOCK end.

Definition settled (st : OESTORE_TXN_STATUS) (t : Z) (a : astore) : astore :=
  match st with
  | OESTORE_TXN_ACTIVE => a
  | _ => mkStore (omap (settle t (del_lock st)) (a_items a)) (a_txns a)
  end.

(** The items of a transaction, and those its end makes visible. *)
Definition owned (a : astore) (t : Z) : list OeStoreHolder :=
  (map_to_list (filter (λ kh, txn_id kh.2 = t) (a_items a))).*2.
Definition released (st : OESTORE_TXN_STATUS) (a : astore) (t : Z) : list DataObject :=
  match st with
  | OESTORE_TXN_ACTIVE => []
  | _ => _getdata <$> filter (λ h, lock h = clr_lock st) (owned a t)
  end.

(** Locks and owners go together, and owners are active. *)
Record ainv (a : astore) : Prop := {
  ai_lock k h : a_items a !! k = Some h → (lock h = OESTORE_UNLOCKED ↔ txn_id h = 0);
  ai_owner k h : a_items a !! k = Some h → txn_id h ≠ 0 → active a (txn_id h)
}.

Section BdbTxn.
Context {B : BerkeleyDB} {BS : BerkeleyDBSpec B}.
#[local] Opaque _handlerc.

(** ** The loop over the items of a transaction *)

Definition settle_one (del : OESTORE_LOCK) (a : astore) (h : OeStoreHolder) : astore :=
  if bool_decide (lock h = del) then del_item (lease_id h) a else add_item (unlock h) a.

Lemma unlock_stored k h : stored k h → stored k (unlock h) ∧ norm (unlock h) = unlock h ∧ ∃ d, holder_wf (unlock h) d.
Proof.
  intros Hs. destruct (stored_meta k h OESTORE_UNLOCKED 0 (lease_expire_time h) Hs) as [Hs' Hw];
    [width|destruct Hs as (_ & d & Hw & _); apply Hw|].
  split; [done|]. split; [by eapply stored_norm|done].
Qed.

Lemma settle_fold del hs a :
  NoDup (lease_id <$> hs) → (∀ h, h ∈ hs → a_items a !! lease_id h = Some h ∧ stored (lease_id h) h) →
  a_txns (foldl (settle_one del) a hs) = a_txns a ∧
  ∀ k, a_items (foldl (settle_one del) a hs) !! k =
       if decide (k ∈ lease_id <$> hs)
       then a_items a !! k ≫= (λ h, if bool_decide (lock h = del) then None else Some (unlock h))
       else a_items a !! k.
Proof.
  revert a. induction hs as [|h hs IH]; intros a Hnd Hin; cbn [foldl fmap list_fmap].
  { split; [done|]. intros k. by rewrite decide_False by apply not_elem_of_nil. }
  inversion Hnd as [|? ? Hh Hnd']; subst. destruct (Hin h ltac:(set_solver)) as [Hl Hs].
  destruct (unlock_stored _ h Hs) as (_ & Hnu & _).
  assert (∀ k, k ≠ lease_id h → a_items (settle_one del a h) !! k = a_items a !! k) as Hother.
  { intros k Hk. unfold settle_one. case_bool_decide; cbn; [by rewrite lookup_delete_ne|by rewrite lookup_insert_ne]. }
  destruct (IH (settle_one del a h) Hnd') as [IH1 IH2].
  { intros g Hg. rewrite Hother; [apply Hin; set_solver|]. intros E. apply Hh. rewrite <-E. by apply list_elem_of_fmap_2. }
  rewrite IH1. split; [by unfold settle_one; case_bool_decide|]. intros k. rewrite IH2.
  destruct (decide (k = lease_id h)) as [->|Hk].
  - rewrite decide_False, decide_True by set_solver. rewrite Hl. cbn. unfold settle_one.
    case_bool_decide; cbn; [apply lookup_delete_eq|]. rewrite Hnu. apply lookup_insert_eq.
  - rewrite Hother by done. destruct (decide (k ∈ lease_id <$> hs));
      [by rewrite decide_True by set_solver|by rewrite decide_False by set_solver].
Qed.

Lemma finish_loop_spec del clr hs fin t unl n a :
  repr (view t) a → NoDup (lease_id <$> hs) →
  (∀ h, h ∈ hs → a_items a !! lease_id h = Some h ∧ (lock h = del ∨ lock h = clr)) → del ≠ clr →
  ∃ r, finish_loop del clr ((λ h, (lease_id h, enc_h h)) <$> hs) fin t unl n = Some r ∧
    match r with
    | inl (rc, _) => rc ≠ 0
    | inr (ret, t', unl', n') =>
      ret = fin ∧ repr (view t') (foldl (settle_one del) a hs) ∧
      unl' = unl ++ (_getdata <$> filter (λ h, lock h = clr) hs) ∧ n' = n + Z.of_nat (length hs)
    end.
Proof.
  revert t unl n a. induction hs as [|h hs IH]; intros t unl n a R Hnd Hin Hdc; cbn [fmap list_fmap finish_loop].
  { eexists. split; [done|]. cbn. rewrite app_nil_r. split_and!; [done..|lia]. }
  inversion Hnd as [|? ? Hh Hnd']; subst. destruct (Hin h ltac:(set_solver)) as [Hl Hlk].
  pose proof (r_items _ _ R _ _ Hl) as Hs. destruct (unlock_stored _ h Hs) as (_ & Hnu & d & Hwu).
  unfold _get_with_cursor. destruct (read_loop_ok (enc_h h)) as [m ->]. cbn [mbind option_bind Z.eqb negb].
  rewrite (stored_dec _ h _ Hs). cbn [mbind option_bind]. unfold choose_cmd.
  assert (∀ g, g ∈ hs → a_items (settle_one del a h) !! lease_id g = Some g ∧ (lock g = del ∨ lock g = clr)) as Hin'.
  { intros g Hg. destruct (Hin g ltac:(set_solver)) as [Hgl Hgk]. split; [|done].
    assert (lease_id h ≠ lease_id g) as Hne by (intros E; apply Hh; rewrite E; by apply list_elem_of_fmap_2).
    unfold settle_one. case_bool_decide; cbn; [by rewrite lookup_delete_ne|by rewrite lookup_insert_ne]. }
  rewrite filter_cons. cbn [foldl]. destruct (bool_decide_reflect (lock h = del)) as [Ed|Ed].
  - destruct (holder_del t (lease_id h)) as [lret t1] eqn:E.
    destruct (Z.eqb_spec lret 0) as [->|Hn]; cbn [negb]; [|by eexists].
    destruct (IH t1 unl (n + 1) (settle_one del a h)) as (r & -> & Hr); [|done..|].
    { unfold settle_one. rewrite bool_decide_true by done. rewrite (hdel_ok _ _ _ E). by apply repr_del. }
    eexists. split; [done|]. destruct r as [[]|[[[]]]]; [done|]. destruct Hr as (-> & R' & -> & ->).
    case_decide; [congruence|]. cbn [length]. split_and!; [done..|lia].
  - destruct (bool_decide_reflect (lock h = clr)) as [Ec|Ec]; [|naive_solver].
    fold (unlock h). rewrite (marshal_enc _ d Hwu). cbn [mbind option_bind]. rewrite Nat2Z.id, take_app_length.
    destruct (holder_put t (lease_id (unlock h)) (enc (unlock h) d)) as [ret t1] eqn:E.
    destruct (Z.eqb_spec ret 0) as [->|Hn]; cbn [negb]; [|by eexists].
    destruct (IH t1 (Oec_AList_append unl (Oec_AList_list [Some (OeStoreHolder_get_data (unlock h)); None])) (n + 1)
      (settle_one del a h)) as (r & -> & Hr); [|done..|].
    { unfold settle_one. rewrite bool_decide_false by done. rewrite (proj1 (hput_ok _ _ _ _ E)). by apply repr_add. }
    eexists. split; [done|]. destruct r as [[]|[[[]]]]; [done|]. destruct Hr as (-> & R' & -> & ->).
    case_decide; [|done]. rewrite (append_app unl). cbn [fmap list_fmap length]. rewrite <-app_assoc.
    split_and!; [done..|lia].
Qed.

Lemma compare_zero x y : 0 ≤ x < 2 ^ 32 → 0 ≤ y < 2 ^ 32 → _compare_oe_id x y = 0 → x = y.
Proof.
  intros Hx Hy. unfold _compare_oe_id, wraps, wrapu. rewrite Z.mod_mod_divide by (by exists (2 ^ 32)).
  pose proof (Z.mod_pos_bound (x - y) (2 ^ 32) ltac:(lia)). intros H0.
  assert ((x - y) mod 2 ^ 32 = 0) as Hm by (revert H0; case_match; lia).
  apply Z.mod_divide in Hm as [k Hk]; [|lia]. nia.
Qed.

Lemma elem_of_owned a o h :
  (∀ k g, a_items a !! k = Some g → lease_id g = k) →
  h ∈ owned a o ↔ a_items a !! lease_id h = Some h ∧ txn_id h = o.
Proof.
  intros Hid. unfold owned. rewrite list_elem_of_fmap. split.
  - intros ([k g] & -> & Hin). apply elem_of_map_to_list, map_lookup_filter_Some in Hin as [Hl Ho]. cbn in *.
    by rewrite (Hid _ _ Hl).
  - intros [Hl Ho]. exists (lease_id h, h). split; [done|]. apply elem_of_map_to_list, map_lookup_filter_Some. done.
Qed.

Lemma scan_holders a (P : OeStoreHolder → Prop) (items : list (Z * list Z)) :
  (∀ k r, (k, r) ∈ items → ∃ h, a_items a !! k = Some h ∧ r = enc_h h ∧ lease_id h = k ∧ P h) →
  ∃ hs, items = (λ h, (lease_id h, enc_h h)) <$> hs ∧ ∀ h, h ∈ hs → a_items a !! lease_id h = Some h ∧ P h.
Proof.
  induction items as [|[k r] items IH]; intros Hin; [exists []; split; [done|set_solver]|].
  destruct IH as (hs & -> & Hhs); [intros; apply Hin; set_solver|].
  destruct (Hin k r ltac:(set_solver)) as (h & Hl & -> & <- & HP). exists (h :: hs). split; [done|].
  intros g Hg. apply elem_of_cons in Hg as [->|Hg]; [done|by apply Hhs].
Qed.

(** The owner index lists exactly the items of the transaction, as long as
    fewer than 2^32 ids have been handed out. *)
Lemma owner_items t a o items fin :
  repr (view t) a → (∀ k h, a_items a !! k = Some h → 0 ≤ txn_id h < 2 ^ 32) → 0 < o < 2 ^ 32 →
  owner_scan t o = (0, (items, fin)) →
  fin ≠ 0 ∧ ∃ hs, items = (λ h, (lease_id h, enc_h h)) <$> hs ∧ NoDup (lease_id <$> hs) ∧
    (∀ h, h ∈ hs → a_items a !! lease_id h = Some h ∧ txn_id h = o) ∧
    (fin = DB_NOTFOUND → hs ≡ₚ owned a o).
Proof.
  intros R Hids Ho E. destruct (owner_ok _ _ _ E) as (Hfin & Hnd & Hin & Hall). cbn [fst snd] in *.
  split; [done|].
  assert (∀ k g, a_items a !! k = Some g → lease_id g = k) as Hid by (intros k g Hg; by apply (r_items _ _ R)).
  destruct (scan_holders a (λ h, txn_id h = o) items) as (hs & -> & Hhs).
  { intros k r Hk. destruct (Hin k r Hk) as [Hl (o' & Hso & Hc)].
    destruct (repr_lookup _ _ _ _ R Hl) as (h & Hh & -> & Hs). exists h. split_and!; [done..|by apply Hs|].
    rewrite (set_owner_stored k h Hs) in Hso. destruct (Z.eqb_spec (txn_id h) 0); [done|]. injection Hso as <-.
    apply compare_zero; [by eapply Hids|lia|done]. }
  exists hs. rewrite <-list_fmap_compose in Hnd. split_and!; [done|done|done|]. intros Hf.
  apply NoDup_Permutation; [by eapply NoDup_fmap_1| |].
  { apply (NoDup_fmap_1 lease_id). unfold owned. rewrite <-list_fmap_compose.
    erewrite list_fmap_ext; [apply NoDup_fst_map_to_list|].
    intros i [k g] Hi%list_elem_of_lookup_2. apply elem_of_map_to_list, map_lookup_filter_Some in Hi as [Hi _].
    cbn. by apply Hid. }
  intros h. rewrite elem_of_owned by done. split; [by apply Hhs|]. intros [Hl Hoh].
  assert ((lease_id h, enc_h h) ∈ (λ h, (lease_id h, enc_h h)) <$> hs) as Hm.
  { apply Hall; [done|by apply (repr_lookup_2 _ a)|]. exists o. rewrite (set_owner_stored _ h (r_items _ _ R _ _ Hl)).
    rewrite Hoh. destruct (Z.eqb_spec o 0); [lia|]. split; [done|]. unfold _compare_oe_id. by rewrite Z.sub_diag. }
  apply list_elem_of_fmap in Hm as (g & Eg & Hg). injection Eg as Eid _.
  destruct (Hhs g Hg) as [Hlg _]. rewrite <-Eid, Hl in Hlg. by simplify_eq.
Qed.

(** Settling the items of the transaction one by one settles the store. *)
Lemma settle_all st o hs a c :
  repr c a → st ≠ OESTORE_TXN_ACTIVE → NoDup (lease_id <$> hs) → hs ≡ₚ owned a o →
  foldl (settle_one (del_lock st)) a hs = settled st o a.
Proof.
  intros R Hst Hnd Hp.
  assert (∀ k g, a_items a !! k = Some g → lease_id g = k) as Hid by (intros k g Hg; by apply (r_items _ _ R)).
  assert (∀ h, h ∈ hs ↔ a_items a !! lease_id h = Some h ∧ txn_id h = o) as Hhs
    by (intros h; rewrite Hp; by apply elem_of_owned).
  destruct (settle_fold (del_lock st) hs a Hnd) as [Ht Hi].
  { intros h Hh. apply Hhs in Hh as [Hl _]. split; [done|]. by apply (r_items _ _ R). }
  destruct (foldl _ a hs) as [items txns]. cbn in Ht, Hi.
  replace (settled st o a) with (mkStore (omap (settle o (del_lock st)) (a_items a)) (a_txns a)) by (by destruct st).
  f_equal; [|done]. apply map_eq. intros k. rewrite Hi, lookup_omap. unfold settle.
  destruct (a_items a !! k) as [h|] eqn:Ek; [|by case_decide]. cbn. pose proof (Hid _ _ Ek) as <-.
  destruct (Z.eqb_spec (txn_id h) o) as [Eo|Eo].
  - rewrite decide_True; [done|]. apply list_elem_of_fmap_2, Hhs. done.
  - rewrite decide_False; [done|]. intros Hm. apply list_elem_of_fmap in Hm as (g & Eg & Hg).
    apply Hhs in Hg as [Hg Hog]. rewrite <-Eg, Ek in Hg. by simplify_eq.
Qed.

Lemma finish_oetxn_spec now x t a st n :
  repr (view t) a → ainv a → (∀ k h, a_items a !! k = Some h → 0 ≤ txn_id h < 2 ^ 32) →
  0 < tid x < 2 ^ 32 → status x = OESTORE_TXN_ACTIVE → st ≠ OESTORE_TXN_ACTIVE →
  ∃ rc t' x' unl, _finish_oetxn now x t (del_lock st) (clr_lock st) st n = Some (rc, t', x', unl) ∧
    (rc = 0 → repr (view t') (settled st (tid x) a) ∧ x' = mkTxn st now (begin_time x) now (tid x) ∧
      unl ≡ₚ released st a (tid x) ∧ (n = -1 ∨ n = Z.of_nat (length (owned a (tid x))))).
Proof.
  intros R Hinv Hids Ho Hst Hna. pose proof codes as (Hnf & Hdl & _). unfold _finish_oetxn. rewrite Hst.
  destruct (is_deadlocked t); [by do 4 eexists|]. rewrite bool_decide_true by done. cbn [negb].
  destruct (Z.eqb_spec (tid x) 0); [lia|]. destruct (owner_scan t (tid x)) as [rc [items fin]] eqn:E.
  destruct (Z.eqb_spec rc 0) as [->|Hn]; cbn [negb]; [|by do 4 eexists].
  destruct (owner_items _ _ _ _ _ R Hids Ho E) as (Hfin & hs & -> & Hnd & Hhs & Hp).
  destruct (finish_loop_spec (del_lock st) (clr_lock st) hs fin t [] 0 a R Hnd) as (r & -> & Hr).
  { intros h Hh. destruct (Hhs h Hh) as [Hl Hoh]. split; [done|].
    pose proof (ai_lock _ Hinv _ _ Hl) as Hlk. destruct (lock h), st; cbn; try (by auto); naive_solver lia. }
  { by destruct st. }
  cbn [mbind option_bind]. destruct r as [[rc t']|[[[ret t'] unl] m]]; [by do 4 eexists|].
  destruct Hr as (-> & R' & -> & ->). rewrite Z.add_0_l, app_nil_l.
  destruct (Z.eqb_spec (cursor_close t') DB_LOCK_DEADLOCK) as [Hc|Hc].
  { do 4 eexists. split; [done|]. intros E0. congruence. }
  destruct (negb (n =? -1) && negb (Z.of_nat (length hs) =? n)) eqn:En; [by do 4 eexists|].
  do 4 eexists. split; [done|]. destruct (Z.eqb_spec fin DB_NOTFOUND) as [Hf|]; [|done]. intros _.
  specialize (Hp Hf). split_and!.
  - by rewrite <-(settle_all st (tid x) hs a (view t)).
  - done.
  - unfold released. destruct st; [by rewrite <-Hp|by rewrite <-Hp|done].
  - rewrite <-Hp. destruct (Z.eqb_spec n (-1)); [by left|]. right. cbn in En.
    destruct (Z.eqb_spec (Z.of_nat (length hs)) n); [done|by cbn in En].
Qed.

Lemma settled_dom st o a k : is_Some (a_items (settled st o a) !! k) → is_Some (a_items a !! k).
Proof.
  unfold settled. destruct st; cbn; [..|done]; rewrite lookup_omap; by destruct (a_items a !! k).
Qed.

Definition expired (now : Z) (x : OESTORE_TXN) : Prop :=
  expire_time x ≠ Str.OEC_FOREVER ∧ expire_time x < now.

(** The record a transaction gets. *)
Definition new_txn (now now' dur : Z) (st : OESTORE_TXN_STATUS) (o : Z) (x : OESTORE_TXN) : OESTORE_TXN :=
  mkTxn st
    (match st with OESTORE_TXN_ACTIVE => if 0 <? dur then i64 (now + dur) else expire_time x | _ => now' end)
    (begin_time x)
    (match st with OESTORE_TXN_ACTIVE => end_time x | _ => now' end) o.

(** The whole effect of [_update_txn] on the store, by its result. *)
Record updated (now now' : Z) (fire : bool) (b' : OeBdb) (a : astore) (o dur : Z)
    (st : OESTORE_TXN_STATUS) (n : Z) (evs : list DataObject) (x : OESTORE_TXN) : Prop := {
  up_active : status x = OESTORE_TXN_ACTIVE;
  up_time : ¬ expired now x;
  up_state : state_ok b' (add_txn (new_txn now now' dur st o x) (settled st o a));
  up_count : st = OESTORE_TXN_COMMITTED → n = -1 ∨ n = Z.of_nat (length (owned a o));
  up_events : evs ≡ₚ if fire then released st a o else []
}.

(** The last steps: the transaction record is written and all is committed. *)
Lemma update_tail b a e t x (unl : list DataObject) a' :
  state_ok b a → e = env b → repr (view t) a' → txn_wf x → a_txns a' = a_txns a →
  (∀ k, is_Some (a_items a' !! k) → is_Some (a_items a !! k)) → is_Some (a_txns a !! tid x) →
  ∃ rc evs b',
    ('(ret, txn_holder) ← _put_oetxn t x;
     if negb (ret =? 0) then
       let '(rc, e) := _handlerc e ret (Some txn_holder) in Some (rc, [], set_env b e)
     else if is_deadlocked txn_holder then
       let '(rc, e) := _handlerc e DB_LOCK_DEADLOCK (Some txn_holder) in Some (rc, [], set_env b e)
     else
       let '(ret, e) := txn_commit e txn_holder in
       if negb (ret =? 0) then Some ((_handlerc e ret None).1, [], set_env b e)
       else Some (0, if fire_write_event b && (0 <? Oec_AList_length unl) then unl else [], set_env b e))
    = Some (rc, evs, b') ∧
    if rc =? 0 then state_ok b' (add_txn x a') ∧ evs = (if fire_write_event b then unl else [])
    else state_ok b' a ∧ evs = [].
Proof.
  intros S -> R Hw Ht Hi Htx. destruct (put_oetxn_spec t x a' Hw R) as (ret & t' & -> & Hok). cbn [mbind option_bind].
  assert (∀ rc, rc ≠ 0 → ∃ rc' evs b', (let '(rc, e) := _handlerc (env b) rc (Some t') in Some (rc, [], set_env b e)) = Some (rc', evs, b') ∧
    if rc' =? 0 then state_ok b' (add_txn x a') ∧ evs = (if fire_write_event b then unl else []) else state_ok b' a ∧ evs = []) as Herr.
  { intros rc Hrc. destruct (_handlerc (env b) rc (Some t')) as [rc' e] eqn:Eh.
    pose proof (handlerc_store (env b) rc (Some t')) as [Hst Hsb]. pose proof (handlerc_zero (env b) rc (Some t')) as Hz.
    rewrite Eh in *. cbn in *. do 3 eexists. split; [done|]. destruct (Z.eqb_spec rc' 0) as [E%Hz|]; [done|].
    split; [|done]. apply state_ok_env; [done..|lia]. }
  destruct (Z.eqb_spec ret 0) as [->|Hn]; cbn [negb]; [|by apply Herr].
  destruct (is_deadlocked t'); [apply Herr; apply codes|].
  destruct (txn_commit (env b) t') as [ret e] eqn:Ec. destruct (Z.eqb_spec ret 0) as [->|Hn]; cbn [negb].
  - destruct (commit_ok _ _ _ Ec) as [Hs Hb]. do 3 eexists. split; [done|]. cbn. split.
    + apply (state_ok_new b a); [done|rewrite Hs; by apply Hok|lia|by auto|].
      cbn. intros k Hk. left. apply is_Some_insert in Hk as [->|Hk]; [done|by rewrite <-Ht].
    + destruct (fire_write_event b); cbn; [|done]. rewrite length_spec. by destruct unl.
  - destruct (commit_err _ _ _ _ Ec Hn) as [Hs Hb]. do 3 eexists. split; [done|].
    destruct (Z.eqb_spec (_handlerc e ret None).1 0) as [E%handlerc_zero|]; [done|].
    split; [|done]. apply state_ok_env; [done..|lia].
Qed.

(** The index of transaction ids compares them as 32-bit numbers. *)
Definition narrow (a : astore) : Prop := ∀ k x, a_txns a !! k = Some x → 0 < k < 2 ^ 32.

Lemma bound_narrow b a : state_ok b a → seq_bound (env b) ≤ 2 ^ 32 → narrow a.
Proof. intros S Hb k x Hk. pose proof (so_txns _ _ S _ _ Hk). lia. Qed.

Lemma owner_bound a k h : ainv a → narrow a → a_items a !! k = Some h → 0 ≤ txn_id h < 2 ^ 32.
Proof.
  intros Hi Hb Hl. destruct (decide (txn_id h = 0)) as [->|Hn]; [lia|].
  destruct (ai_owner _ Hi _ _ Hl Hn) as (x & Hx & _). pose proof (Hb _ _ Hx). lia.
Qed.

(** The work on the items of a transaction. *)
Lemma update_work now now' dur st n x t a o :
  repr (view t) a → ainv a → (∀ k h, a_items a !! k = Some h → 0 ≤ txn_id h < 2 ^ 32) →
  0 < o < 2 ^ 32 → tid x = o → status x = OESTORE_TXN_ACTIVE → txn_wf x → in_s 64 now' →
  ∃ rc t' x' unl,
    (let oetxn := if 0 <? dur
                  then mkTxn (status x) (i64 (now + dur)) (begin_time x) (end_time x) o else x in
     match st with
     | OESTORE_TXN_COMMITTED => _finish_oetxn now' oetxn t OESTORE_TAKE_LOCK OESTORE_WRITE_LOCK st n
     | OESTORE_TXN_ROLLED_BACK => _finish_oetxn now' oetxn t OESTORE_WRITE_LOCK OESTORE_TAKE_LOCK st (-1)
     | OESTORE_TXN_ACTIVE => Some (0, t, oetxn, [])
     end) = Some (rc, t', x', unl) ∧
    (rc = 0 → repr (view t') (settled st o a) ∧ x' = new_txn now now' dur st o x ∧ txn_wf x' ∧
      unl ≡ₚ released st a o ∧ (st = OESTORE_TXN_COMMITTED → n = -1 ∨ n = Z.of_nat (length (owned a o)))).
Proof.
  intros R Hinv Hids Ho Hid Hst [W1 W2 W3] Hnow. set (y := if 0 <? dur then _ else x).
  assert (tid y = o ∧ status y = OESTORE_TXN_ACTIVE ∧ begin_time y = begin_time x) as (Hy1 & Hy2 & Hy3)
    by (by unfold y; destruct (0 <? dur)).
  pose proof (λ st n, finish_oetxn_spec now' y t a st n R Hinv Hids) as F. rewrite Hy1, Hy3 in F.
  cbv zeta. destruct st.
  - destruct (F OESTORE_TXN_COMMITTED n) as (rc & t' & x' & unl & E & Hok); [done..|]. do 4 eexists. split; [exact E|].
    intros E0. destruct (Hok E0) as (? & -> & ? & ?). by split_and!.
  - destruct (F OESTORE_TXN_ROLLED_BACK (-1)) as (rc & t' & x' & unl & E & Hok); [done..|]. do 4 eexists. split; [exact E|].
    intros E0. destruct (Hok E0) as (? & -> & ? & ?). by split_and!.
  - do 4 eexists. split; [done|]. intros _. unfold y, new_txn.
    split_and!; [done|destruct (0 <? dur), x; cbn in *; congruence| |done|congruence].
    destruct (0 <? dur); [|done]. split; [|done..]. by apply wraps_range.
Qed.

Lemma update_txn_narrow now now' b a o dur st n :
  state_ok b a → ainv a → narrow a → in_s 64 now' →
  ∃ rc evs b', _update_txn now now' b o dur st n = Some (rc, evs, b') ∧
    if rc =? 0
    then ∃ x, a_txns a !! o = Some x ∧
         (status x ≠ OESTORE_TXN_ACTIVE ∧ st = status x ∧ state_ok b' a ∧ evs = [] ∨
          updated now now' (fire_write_event b) b' a o dur st n evs x)
    else state_ok b' a ∧ evs = [].
Proof.
  intros S Hinv Hbd Hnow. unfold _update_txn. destruct (txn_begin (env b)) as [rc0 t] eqn:Et.
  destruct (Z.eqb_spec rc0 0) as [->|Hn0]; cbn [negb].
  2:{ do 3 eexists. split; [done|]. by destruct (Z.eqb_spec (_handlerc (env b) rc0 None).1 0) as [E%handlerc_zero|]. }
  assert (repr (view t) a) as R by (rewrite (begin_view _ _ Et); apply S).
  destruct (get_txn_spec (env b) (Some t) o a R) as (rc & x & -> & Hx). cbn [mbind option_bind].
  assert (∀ t' rc, rc ≠ 0 → ∃ rc' evs b', (let '(rc, e) := _handlerc (env b) rc (Some t') in Some (rc, [], set_env b e)) = Some (rc', evs, b') ∧
    rc' ≠ 0 ∧ state_ok b' a ∧ evs = @nil DataObject) as Herr.
  { intros t' rc' Hrc. destruct (_handlerc (env b) rc' (Some t')) as [rc2 e] eqn:Eh.
    pose proof (handlerc_store (env b) rc' (Some t')) as [Hst Hsb]. pose proof (handlerc_zero (env b) rc' (Some t')) as Hz.
    rewrite Eh in *. cbn in *. do 3 eexists. split; [done|]. split; [by rewrite Hz|]. split; [|done].
    apply state_ok_env; [done..|lia]. }
  destruct (Z.eqb_spec rc 0) as [->|Hn]; cbn [negb].
  2:{ destruct (Herr t rc Hn) as (rc' & evs & b' & -> & H0 & ?). do 3 eexists. split; [done|].
      by destruct (Z.eqb_spec rc' 0). }
  destruct (Hx eq_refl) as (Hl & Hid & Hwf).
  assert (state_ok (set_env b (txn_abort (env b) t)) a) as Sab.
  { destruct (abort_ok (env b) t) as [Hs Hb]. apply state_ok_env; [done..|lia]. }
  destruct (bool_decide_reflect (status x = OESTORE_TXN_ROLLED_BACK)) as [Er|Er].
  { do 3 eexists. split; [done|]. case_bool_decide; cbn; [|done]. exists x. split; [done|]. left.
    split_and!; congruence. }
  destruct (bool_decide_reflect (status x = OESTORE_TXN_COMMITTED)) as [Ec|Ec].
  { do 3 eexists. split; [done|]. case_bool_decide; cbn; [|done]. exists x. split; [done|]. left.
    split_and!; congruence. }
  assert (status x = OESTORE_TXN_ACTIVE) as Ea by (by destruct (status x)).
  destruct (negb (expire_time x =? Str.OEC_FOREVER) && (expire_time x <? now)) eqn:Ex; [by do 3 eexists|].
  assert (¬ expired now x) as Hne.
  { intros [He Hlt]. destruct (Z.eqb_spec (expire_time x) Str.OEC_FOREVER); [done|].
    cbn in Ex. apply Z.ltb_ge in Ex. lia. }
  pose proof (Hbd _ _ Hl) as Hob.
  destruct (update_work now now' dur st n x t a o R Hinv) as (rc & t' & x' & unl & E & Hok);
    [intros k h Hk; exact (owner_bound a k h Hinv Hbd Hk)|lia|done..|]. cbv zeta in E. rewrite E. clear E. cbn [mbind option_bind].
  destruct (Z.eqb_spec rc 0) as [->|Hn]; cbn [negb].
  2:{ destruct (Herr t' rc Hn) as (rc' & evs & b' & -> & H0 & ?). do 3 eexists. split; [done|].
      by destruct (Z.eqb_spec rc' 0). }
  destruct (Hok eq_refl) as (R' & -> & Hw' & Hu & Hc).
  destruct (update_tail b a (env b) t' (new_txn now now' dur st o x) unl (settled st o a) S eq_refl R' Hw')
    as (rc & evs & b' & -> & Hf); [by destruct st|apply settled_dom|by exists x|].
  do 3 eexists. split; [done|]. destruct (rc =? 0); [|done]. destruct Hf as [? ->]. exists x. split; [done|]. right.
  split; [done..|]. by destruct (fire_write_event b).
Qed.

Lemma update_txn_ok now now' b a o dur st n :
  state_ok b a → ainv a → seq_bound (env b) ≤ 2 ^ 32 → in_s 64 now' →
  ∃ rc evs b', _update_txn now now' b o dur st n = Some (rc, evs, b') ∧
    if rc =? 0
    then ∃ x, a_txns a !! o = Some x ∧
         (status x ≠ OESTORE_TXN_ACTIVE ∧ st = status x ∧ state_ok b' a ∧ evs = [] ∨
          updated now now' (fire_write_event b) b' a o dur st n evs x)
    else state_ok b' a ∧ evs = [].
Proof. intros S Hi Hb. apply update_txn_narrow; [done..|by eapply bound_narrow]. Qed.

(** ** Starting a transaction *)

Lemma start_txn_ok fuel now b a dur rc x b' :
  state_ok b a → in_s 64 now → _start_txn fuel now b dur = Some (rc, x, b') →
  if rc =? 0
  then state_ok b' (add_txn x a) ∧ a_txns a !! tid x = None ∧ status x = OESTORE_TXN_ACTIVE ∧
       expire_time x = (if dur =? Str.OEC_FOREVER then Str.OEC_FOREVER else i64 (now + dur)) ∧ 0 < tid x
  else state_ok b' a.
Proof.
  intros S Hnow. unfold _start_txn. destruct (txn_begin (env b)) as [rc0 t] eqn:Et.
  destruct (Z.eqb_spec rc0 0) as [->|Hn0]; cbn [negb].
  2:{ intros [= <- <- <-]. by destruct (Z.eqb_spec (_handlerc (env b) rc0 None).1 0) as [E%handlerc_zero|]. }
  destruct (_create_id fuel (env b)) as [[i e]|] eqn:Ei; [|done]. cbn [mbind option_bind].
  destruct (create_id_ok _ _ _ _ Ei) as (Hs & Hle & Hi & Hsb).
  set (y := mkTxn OESTORE_TXN_ACTIVE _ now 0 i).
  assert (txn_wf y) as Hw.
  { split; cbn; [|done|width]. destruct (dur =? _); [unfold Str.OEC_FOREVER; width|by apply wraps_range]. }
  assert (repr (view t) a) as R by (rewrite (begin_view _ _ Et); apply S).
  destruct (put_oetxn_spec t y a Hw R) as (ret & t' & -> & Hok). cbn [mbind option_bind].
  destruct (Z.eqb_spec ret 0) as [->|Hn].
  - destruct (txn_commit e t') as [ret e'] eqn:Ec. intros [= <- <- <-].
    pose proof (handlerc_zero e' ret None) as Hz. destruct (Z.eqb_spec ret 0) as [->|Hn].
    + rewrite (proj2 Hz eq_refl). cbn [Z.eqb]. destruct (commit_ok _ _ _ Ec) as [Hs' Hb'].
      split_and!; [|cbn|done|done|cbn; lia].
      * apply (state_ok_new b a); [done|rewrite Hs'; by apply Hok|lia|by auto|].
        cbn. intros k Hk. apply is_Some_insert in Hk as [->|]; [right; lia|by left].
      * destruct (a_txns a !! i) as [z|] eqn:E; [|done]. pose proof (so_txns _ _ S _ _ E). lia.
    + destruct (Z.eqb_spec (_handlerc e' ret None).1 0) as [E%Hz|]; [done|].
      destruct (commit_err _ _ _ _ Ec Hn) as [Hs' Hb']. apply state_ok_env; [done|congruence|lia].
  - destruct (_handlerc e ret (Some t')) as [rc' e'] eqn:Eh. intros [= <- <- <-].
    pose proof (handlerc_store e ret (Some t')) as [Hst Hsb']. pose proof (handlerc_zero e ret (Some t')) as Hz.
    rewrite Eh in *. cbn in *. destruct (Z.eqb_spec rc' 0) as [E%Hz|]; [done|].
    apply state_ok_env; [done|congruence|lia].
Qed.

(** ** Leases *)

Lemma update_lease_ok now b a lid exp :
  state_ok b a → in_s 64 exp →
  ∃ rc b', _update_lease now b lid exp = Some (rc, b') ∧
    if rc =? 0
    then ∃ h, a_items a !! lid = Some h ∧
         (lease_expire_time h = Str.OEC_FOREVER ∨ now ≤ lease_expire_time h) ∧
         state_ok b' (add_item (OeStoreHolder_set_lease_expire_time h exp) a)
    else state_ok b' a.
Proof.
  intros S Hexp. unfold _update_lease. destruct (txn_begin (env b)) as [rc0 t] eqn:Et.
  destruct (Z.eqb_spec rc0 0) as [->|Hn0]; cbn [negb].
  2:{ do 2 eexists. split; [done|]. by destruct (Z.eqb_spec (_handlerc (env b) rc0 None).1 0) as [E%handlerc_zero|]. }
  assert (repr (view t) a) as R by (rewrite (begin_view _ _ Et); apply S).
  assert (∀ t' rc, rc ≠ 0 → ∃ rc' b', (let '(rc, e) := _handlerc (env b) rc (Some t') in Some (rc, set_env b e)) = Some (rc', b') ∧
    rc' ≠ 0 ∧ state_ok b' a) as Herr.
  { intros t' rc' Hrc. destruct (_handlerc (env b) rc' (Some t')) as [rc2 e] eqn:Eh.
    pose proof (handlerc_store (env b) rc' (Some t')) as [Hst Hsb]. pose proof (handlerc_zero (env b) rc' (Some t')) as Hz.
    rewrite Eh in *. cbn in *. do 2 eexists. split; [done|]. split; [by rewrite Hz|].
    apply state_ok_env; [done..|lia]. }
  destruct (holder_get t lid) as [rc r] eqn:Eg. destruct (decide (rc = 0)) as [->|Hn].
  2:{ rewrite _get_err by done. cbn [mbind option_bind]. destruct (Z.eqb_spec rc 0); [done|]. cbn [negb].
      destruct (Herr t rc Hn) as (rc' & b' & -> & H0 & ?). do 2 eexists. split; [done|]. by destruct (Z.eqb_spec rc' 0). }
  destruct (_get_ok r) as [m ->]. cbn [mbind option_bind Z.eqb negb].
  destruct (repr_lookup _ _ _ _ R (hget_ok _ _ _ Eg)) as (h & Hl & -> & Hs).
  rewrite (stored_dec lid h _ Hs). cbn [mbind option_bind].
  destruct (negb (lease_expire_time h =? Str.OEC_FOREVER) && (lease_expire_time h <? now)) eqn:Ex.
  { do 2 eexists. split; [done|]. cbn. destruct (abort_ok (env b) t) as [? ?]. apply state_ok_env; [done..|lia]. }
  set (g := OeStoreHolder_set_lease_expire_time h exp).
  assert (stored lid g ∧ ∃ d, holder_wf g d) as [Hsg [d Hw]].
  { apply (stored_meta lid h (lock h) (txn_id h) exp Hs); [|done]. destruct Hs as (_ & d & Hw & _). apply Hw. }
  assert (lease_id g = lid) as Hid by apply Hs.
  rewrite (marshal_enc g d Hw). cbn [mbind option_bind]. rewrite Nat2Z.id, take_app_length.
  destruct (holder_put t lid (enc g d)) as [ret t'] eqn:Ep.
  destruct (Z.eqb_spec ret 0) as [->|Hn]; cbn [negb].
  2:{ destruct (Herr t' ret Hn) as (rc' & b' & -> & H0 & ?). do 2 eexists. split; [done|]. by destruct (Z.eqb_spec rc' 0). }
  destruct (is_deadlocked t'); cbn [negb].
  { destruct (Herr t' DB_LOCK_DEADLOCK) as (rc' & b' & -> & H0 & ?); [apply codes|].
    do 2 eexists. split; [done|]. by destruct (Z.eqb_spec rc' 0). }
  destruct (txn_commit (env b) t') as [ret e] eqn:Ec. do 2 eexists. split; [done|].
  pose proof (handlerc_zero e ret None) as Hz. destruct (Z.eqb_spec ret 0) as [->|Hn].
  - rewrite (proj2 Hz eq_refl). cbn [Z.eqb]. destruct (commit_ok _ _ _ Ec) as [Hst Hsb]. exists h. split; [done|]. split.
    { destruct (Z.eqb_spec (lease_expire_time h) Str.OEC_FOREVER); [by left|right]. cbn in Ex. by apply Z.ltb_ge in Ex. }
    apply (state_ok_new b a); [done| |lia| |by auto].
    + rewrite Hst, (proj1 (hput_ok _ _ _ _ Ep)). rewrite <-Hid. by apply repr_add.
    + intros k Hk. left. apply is_Some_insert in Hk as [Ek|]; [|done]. exists h. rewrite <-Hl, Ek. f_equal. exact Hid.
  - destruct (commit_err _ _ _ _ Ec Hn) as [Hst Hsb].
    destruct (Z.eqb_spec (_handlerc e ret None).1 0) as [E%Hz|]; [done|]. apply state_ok_env; [done..|lia].
Qed.

(** ** The reaper *)

Definition expired_item (now : Z) (h : OeStoreHolder) : Prop :=
  txn_id h = 0 ∧ lease_expire_time h ≠ Str.OEC_FOREVER ∧ lease_expire_time h ≤ now.

(** [a'] is [a] without some of its expired items. *)
Definition reaped (now : Z) (a a' : astore) : Prop :=
  a_txns a' = a_txns a ∧
  ∀ k, a_items a' !! k = a_items a !! k ∨
       a_items a' !! k = None ∧ ∃ h, a_items a !! k = Some h ∧ expired_item now h.

Lemma reaped_del now a a' k h :
  reaped now a a' → a_items a !! k = Some h → expired_item now h → reaped now a (del_item k a').
Proof.
  intros [Ht Hi] Hl He. split; [done|]. intros j. cbn. destruct (decide (j = k)) as [->|Hj].
  - right. rewrite lookup_delete_eq. eauto.
  - by rewrite lookup_delete_ne.
Qed.

Lemma reap_loop_spec now items fin t a0 a cnt :
  repr (view t) a → reaped now a0 a →
  (∀ k r, (k, r) ∈ items → ∃ h, a_items a0 !! k = Some h ∧ r = enc_h h ∧ stored k h ∧
     txn_id h = 0 ∧ lease_expire_time h ≠ Str.OEC_FOREVER) →
  ∃ r, reap_loop now items fin t cnt = Some r ∧
    match r with
    | inl _ => True
    | inr (_, t', _) => ∃ a', repr (view t') a' ∧ reaped now a0 a'
    end.
Proof.
  revert t a cnt. induction items as [|[k r] items IH]; intros t a cnt R Hre Hin; cbn [reap_loop].
  { eexists. split; [done|]. by exists a. }
  destruct (Hin k r ltac:(set_solver)) as (h & Hl & -> & Hs & Ho & Hf).
  destruct (stored_peek k h [] Hs) as [Hp1 Hp2]. rewrite app_nil_r in Hp1, Hp2.
  rewrite Hp1, Hp2. cbn [mbind option_bind]. rewrite Ho. cbn [Z.eqb c_assert mbind option_bind].
  assert (∀ k r, (k, r) ∈ items → ∃ h, a_items a0 !! k = Some h ∧ r = enc_h h ∧ stored k h ∧
     txn_id h = 0 ∧ lease_expire_time h ≠ Str.OEC_FOREVER) as Hin' by (intros; apply Hin; set_solver).
  destruct (Z.ltb_spec now (lease_expire_time h)) as [Hlt|Hge]; [by apply (IH t a)|].
  destruct (holder_del t k) as [rc t'] eqn:Ed.
  destruct (negb (rc =? 0) && negb (rc =? DB_NOTFOUND)) eqn:Erc; [by eexists|].
  assert (∃ a', repr (view t') a' ∧ reaped now a0 a') as (a' & R' & Hre').
  { destruct (Z.eqb_spec rc 0) as [->|].
    - exists (del_item k a). rewrite (hdel_ok _ _ _ Ed). split; [by apply repr_del|]. by apply (reaped_del _ _ _ _ h).
    - destruct (Z.eqb_spec rc DB_NOTFOUND) as [->|]; [|by cbn in Erc]. exists a. by rewrite (hdel_notfound _ _ _ Ed). }
  case_match; [by eexists; split; [done|]; exists a'|]. case_match; [by eexists; split; [done|]; exists a'|].
  by apply (IH t' a').
Qed.

Lemma state_ok_flag b a fl : state_ok b a → state_ok (mkOeBdb (env b) (fire_write_event b) fl) a.
Proof. intros [R H1 H2]. by split. Qed.

Lemma set_running_env junk b fl a : state_ok b a → state_ok (_set_reaper_running junk b fl).2 a.
Proof. intros S. unfold _set_reaper_running. destruct (reaper_running_flag b); [done|by apply state_ok_flag]. Qed.

Lemma expires_stored k h x :
  stored k h → expires (enc_h h) x → txn_id h = 0 ∧ lease_expire_time h ≠ Str.OEC_FOREVER ∧ x = lease_expire_time h.
Proof.
  intros Hs. destruct (stored_peek k h [] Hs) as [Hp1 Hp2]. rewrite app_nil_r in Hp1, Hp2.
  unfold expires, _set_expire_time. rewrite Hp1, Hp2. cbn [mbind option_bind].
  destruct (Z.eqb_spec (txn_id h) 0); cbn [negb]; [|done].
  destruct (Z.eqb_spec (lease_expire_time h) Str.OEC_FOREVER); [done|]. by intros [= <-].
Qed.

Lemma lease_reaper_ok junk now b a rc b' :
  state_ok b a → _lease_reaper junk now b = Some (rc, b') → ∃ a', state_ok b' a' ∧ reaped now a a'.
Proof.
  intros S. assert (reaped now a a) as Hre by (split; [done|by left]). unfold _lease_reaper.
  pose proof (set_running_env junk b true a S) as S1. destruct (_set_reaper_running junk b true) as [go b1].
  cbn in S1. destruct go; [|intros [= <- <-]; by exists a].
  destruct (txn_begin (env b1)) as [rc0 t] eqn:Et. destruct (Z.eqb_spec rc0 0) as [->|]; cbn [negb]; [|done].
  assert (repr (view t) a) as R by (rewrite (begin_view _ _ Et); apply S1).
  assert (∀ t, state_ok (_set_reaper_running junk (set_env b1 (txn_abort (env b1) t)) false).2 a) as Sab.
  { intros t'. apply set_running_env. destruct (abort_ok (env b1) t'). apply state_ok_env; [done..|lia]. }
  destruct (expire_scan t now) as [lret [items fin]] eqn:Es.
  destruct (Z.eqb_spec lret 0) as [->|]; cbn [negb]; [|intros [= <- <-]; by exists a].
  destruct (expire_ok _ _ _ Es) as (Hfin & Hnd & Hin). cbn in Hin.
  destruct (reap_loop_spec now items fin t a a 0 R Hre) as (r & -> & Hr).
  { intros k r Hk. destruct (Hin k r Hk) as [Hl [x Hx]]. destruct (repr_lookup _ _ _ _ R Hl) as (h & Hh & -> & Hs).
    destruct (expires_stored k h x Hs Hx) as (? & ? & ?). exists h. by split_and!. }
  cbn [mbind option_bind]. destruct r as [[? t']|[[lret t'] ret]]; [intros [= <- <-]; by exists a|].
  destruct (negb (lret =? 0) && negb (lret =? DB_NOTFOUND)); [intros [= <- <-]; by exists a|].
  destruct (Z.eqb_spec (cursor_close t') 0); cbn [negb]; [|intros [= <- <-]; by exists a].
  destruct (txn_commit (env b1) t') as [cr e1] eqn:Ec. destruct (Z.eqb_spec cr 0) as [->|]; cbn [negb]; [|done].
  intros [= <- <-]. destruct Hr as (a' & R' & Hre'). exists a'. split; [|done]. apply set_running_env.
  destruct (commit_ok _ _ _ Ec) as [Hst Hsb]. destruct Hre' as [Ht Hi].
  apply (state_ok_new b1 a); [done|by rewrite Hst|lia| |by rewrite Ht; auto].
  intros k Hk. left. destruct (Hi k) as [E|[E _]]; rewrite E in Hk; [done|]. by destruct Hk.
Qed.

(** ** The invariant *)

Lemma norm_meta h : lock (norm h) = lock h ∧ txn_id (norm h) = txn_id h.
Proof. unfold norm. by destruct (data h). Qed.

Lemma ainv_add_item a h :
  ainv a → (lock h = OESTORE_UNLOCKED ↔ txn_id h = 0) → (txn_id h ≠ 0 → active a (txn_id h)) →
  ainv (add_item h a).
Proof.
  intros [Hl Ho] H1 H2. destruct (norm_meta h) as [E1 E2]. split; cbn; intros k g Hg;
    apply lookup_insert_Some in Hg as [[<- <-]|[_ Hg]]; rewrite ?E1, ?E2; [done|by eapply Hl|done|by eapply Ho].
Qed.

Lemma active_add_txn a x o : active a o → (tid x = o → status x = OESTORE_TXN_ACTIVE) → active (add_txn x a) o.
Proof.
  intros (y & Hy & Hs) Hx. unfold active. cbn. destruct (decide (tid x = o)) as [E|E].
  - exists x. rewrite E. split; [apply lookup_insert_eq|by apply Hx].
  - exists y. by rewrite lookup_insert_ne.
Qed.

Lemma ainv_add_txn a x : ainv a → status x = OESTORE_TXN_ACTIVE → ainv (add_txn x a).
Proof.
  intros [Hl Ho] Hs. split; [done|]. intros k h Hk Hn. apply active_add_txn; [by eapply Ho|done].
Qed.

Lemma ainv_settled a o x st :
  ainv a → st ≠ OESTORE_TXN_ACTIVE → o ≠ 0 → tid x = o → ainv (add_txn x (settled st o a)).
Proof.
  intros [Hl Ho] Hst Hn Hx.
  assert (∀ k g, a_items (settled st o a) !! k = Some g →
    lock g = OESTORE_UNLOCKED ∧ txn_id g = 0 ∨ a_items a !! k = Some g ∧ txn_id g ≠ o) as Hc.
  { intros k g. unfold settled. destruct st; [..|done]; cbn [a_items]; rewrite lookup_omap;
      (destruct (a_items a !! k) as [h|] eqn:E; [|done]); cbn; unfold settle;
      (destruct (Z.eqb_spec (txn_id h) o); [case_bool_decide; [done|]; intros [= <-]; by left|]);
      intros [= <-]; by right. }
  split; intros k g Hg; cbn in Hg; destruct (Hc k g Hg) as [[H1 H2]|[H1 H2]].
  - done.
  - by eapply Hl.
  - done.
  - intros Hg0. apply active_add_txn; [|congruence]. destruct (Ho k g H1 Hg0) as (y & ? & ?). exists y.
    by destruct st.
Qed.

Lemma ainv_taken a q rs :
  ainv a → NoDup (lease_id <$> rs) →
  (∀ r, r ∈ rs → lock r = OESTORE_TAKE_LOCK ∧ txn_id r = q_owner_id q) →
  (q_owner_id q ≠ 0 → active a (q_owner_id q)) → ainv (taken q rs a).
Proof.
  intros [Hl Ho] Hnd Hrs Ha. unfold taken. destruct (Z.eqb_spec (q_owner_id q) 0) as [E|E].
  - assert (∀ k g, a_items (take_out rs a) !! k = Some g → a_items a !! k = Some g) as Hs.
    { intros k g. rewrite (proj2 (take_out_lookup rs a k)). by case_decide. }
    split; intros k g Hg; [by eapply Hl, Hs|]. intros Hn. destruct (Ho k g (Hs _ _ Hg) Hn) as (y & ? & ?).
    exists y. by rewrite (proj1 (take_out_lookup rs a 0)).
  - destruct (lock_in_lookup rs a Hnd) as (Ht & Hin & Hout).
    assert (∀ k g, a_items (lock_in rs a) !! k = Some g →
      lock g = OESTORE_TAKE_LOCK ∧ txn_id g = q_owner_id q ∨ a_items a !! k = Some g) as Hs.
    { intros k g. destruct (decide (k ∈ lease_id <$> rs)) as [Hk|Hk]; [|rewrite Hout by done; by right].
      apply list_elem_of_fmap in Hk as (r & -> & Hr). rewrite Hin by done. intros [= <-]. left.
      destruct (norm_meta r) as [-> ->]. by apply Hrs. }
    assert (∀ o, active a o → active (lock_in rs a) o) as Hact by (intros o (y & ? & ?); exists y; by rewrite Ht).
    split; intros k g Hg; destruct (Hs k g Hg) as [[H1 H2]|H1]; [rewrite H1, H2; naive_solver|by eapply Hl| |].
    + rewrite H2. auto.
    + intros Hn. apply Hact. by eapply Ho.
Qed.

Lemma ainv_reaped now a a' : ainv a → reaped now a a' → ainv a'.
Proof.
  intros [Hl Ho] [Ht Hi]. assert (∀ k g, a_items a' !! k = Some g → a_items a !! k = Some g) as Hs.
  { intros k g Hg. destruct (Hi k) as [<-|[E _]]; [done|congruence]. }
  split; intros k g Hg; [by eapply Hl, Hs|]. intros Hn. destruct (Ho k g (Hs _ _ Hg) Hn) as (y & ? & ?).
  exists y. by rewrite Ht.
Qed.

Lemma handed_taken q rs now a l hs :
  q_take q = true → found_in now a q l rs hs → ∀ r, r ∈ rs → lock r = OESTORE_TAKE_LOCK ∧ txn_id r = q_owner_id q.
Proof.
  intros Ht [-> _] r Hr. apply list_elem_of_fmap in Hr as (h & -> & _). unfold handed. by rewrite Ht.
Qed.

(** A call of the store's interface that returns. *)
Inductive api_step : OeBdb → OeBdb → Prop :=
  | step_put fuel b h d rc evs h' b' :
      holder_wf h d → (lock h = OESTORE_UNLOCKED ↔ txn_id h = 0) →
      _api_put fuel b h = Some (rc, evs, h', b') → api_step b b'
  | step_get now now' b q l rc q' b' :
      query_ok q l → l ≠ [] → _api_get now now' b q = Some (rc, q', b') → api_step b b'
  | step_start fuel now b dur rc x b' :
      in_s 64 now → _start_txn fuel now b dur = Some (rc, x, b') → api_step b b'
  | step_update now now' b o dur st n rc evs b' :
      seq_bound (env b) ≤ 2 ^ 32 → in_s 64 now' →
      _update_txn now now' b o dur st n = Some (rc, evs, b') → api_step b b'
  | step_lease now b lid exp rc b' :
      in_s 64 exp → _update_lease now b lid exp = Some (rc, b') → api_step b b'
  | step_reap junk now b rc b' :
      _lease_reaper junk now b = Some (rc, b') → api_step b b'.

Definition good (b : OeBdb) : Prop := ∃ a, state_ok b a ∧ ainv a.

Lemma update_good now now' b o dur st n rc evs b' :
  good b → seq_bound (env b) ≤ 2 ^ 32 → in_s 64 now' →
  _update_txn now now' b o dur st n = Some (rc, evs, b') → good b'.
Proof.
  intros (a & S & Hi) Hb Hn E.
  destruct (update_txn_ok now now' b a o dur st n S Hi Hb Hn) as (rc' & evs' & b'' & E' & H).
  rewrite E in E'. simplify_eq. destruct (rc' =? 0); [|destruct H; by exists a].
  destruct H as (x & Hx & [(_ & _ & ? & _)|U]); [by exists a|]. eexists. split; [apply U|].
  pose proof (so_txns _ _ S _ _ Hx). destruct (decide (st = OESTORE_TXN_ACTIVE)) as [->|].
  - by apply ainv_add_txn.
  - apply ainv_settled; [done..|lia|done].
Qed.

Lemma step_good b b' : api_step b b' → good b → good b'.
Proof.
  intros St (a & S & Hi). destruct St as [fuel b h d rc evs h' b' Hw Hlk E|now now' b q l rc q' b' Hq Hne E
    |fuel now b dur rc x b' Hn E|now now' b o dur st n rc evs b' Hb Hn E|now b lid exp rc b' He E|junk now b rc b' E].
  - destruct (api_put_sound fuel b a h d rc evs h' b' S Hw E) as (Eh & _ & _ & H). destruct (rc =? 0).
    + destruct H as (? & Ha & _). exists (add_item h' a). split; [done|].
      apply ainv_add_item; [done|rewrite Eh; done|rewrite Eh; done].
    + destruct H. by exists a.
  - destruct (q_take q) eqn:Ht.
    + pose proof (api_take_ok now now' b a q l S Hq Ht) as H. rewrite E in H. cbn in H.
      destruct (rc =? 0); [|by exists a]. destruct (H Hne) as (? & Hnd & Ha & hs & _ & Hf & _).
      eexists. split; [done|]. apply ainv_taken; [done..| |done]. by eapply handed_taken.
    + pose proof (api_get_read_ok now now' b a q l S Hq Ht) as H. rewrite E in H. exists a. by split; [apply H|].
  - pose proof (start_txn_ok fuel now b a dur rc x b' S Hn E) as H. destruct (rc =? 0); [|by exists a].
    destruct H as (? & _ & ? & _). eexists. split; [done|]. by apply ainv_add_txn.
  - eapply update_good; [by exists a|done..].
  - destruct (update_lease_ok now b a lid exp S He) as (rc1 & b1 & E1 & H). rewrite E in E1. simplify_eq.
    destruct (rc1 =? 0); [|by exists a]. destruct H as (h & Hl & _ & ?). eexists. split; [done|].
    apply ainv_add_item; [done|by apply (ai_lock _ Hi _ _ Hl)|by apply (ai_owner _ Hi _ _ Hl)].
  - destruct (lease_reaper_ok junk now b a rc b' S E) as (a' & ? & Hr). exists a'. split; [done|].
    by eapply ainv_reaped.
Qed.

(** ** Whether write events are fired does not change *)

Lemma put_fire fuel b h rc evs h' b' :
  _api_put fuel b h = Some (rc, evs, h', b') → fire_write_event b' = fire_write_event b.
Proof. unfold _api_put, _api_put_seen. intros E. repeat (case_match || (progress simplify_option_eq)); by simplify_eq. Qed.
Lemma start_fire fuel now b dur rc x b' :
  _start_txn fuel now b dur = Some (rc, x, b') → fire_write_event b' = fire_write_event b.
Proof. unfold _start_txn. intros E. repeat (case_match || (progress simplify_option_eq)); by simplify_eq. Qed.
Lemma lease_fire now b lid ex rc b' :
  _update_lease now b lid ex = Some (rc, b') → fire_write_event b' = fire_write_event b.
Proof. unfold _update_lease. intros E. repeat (case_match || (progress simplify_option_eq)); by simplify_eq. Qed.
Lemma update_fire now now' b o dur st n rc evs b' :
  _update_txn now now' b o dur st n = Some (rc, evs, b') → fire_write_event b' = fire_write_event b.
Proof. unfold _update_txn. intros E. repeat (case_match || (progress simplify_option_eq)); by simplify_eq. Qed.

(** ** Properties *)

(** C1  Ending or extending a transaction.  The call always returns.  With a
    code other than 0 the store is unchanged and no event fires.  With code 0
    the transaction exists, and either it had already ended in the requested
    way and nothing happens, or it was active and not expired: a commit then
    deletes exactly the items it took and makes visible exactly the items it
    wrote, a rollback the other way round, nothing else changes, the number
    of items agrees with the number the caller expects when it commits, and a
    write event fires for each item made visible. *)
Theorem update_txn_spec now now' b a o dur st n :
  state_ok b a → ainv a → seq_bound (env b) ≤ 2 ^ 32 → in_s 64 now' →
  ∃ rc evs b', _update_txn now now' b o dur st n = Some (rc, evs, b') ∧
    if rc =? 0
    then ∃ x, a_txns a !! o = Some x ∧
         (status x ≠ OESTORE_TXN_ACTIVE ∧ st = status x ∧ state_ok b' a ∧ evs = [] ∨
          updated now now' (fire_write_event b) b' a o dur st n evs x)
    else state_ok b' a ∧ evs = [].
Proof. apply update_txn_ok. Qed.

(** A transaction that has been committed or rolled back stays so: asking
    for any other status fails, and no request changes the store. *)
Theorem txn_final now now' b a o dur st n rc evs b' x :
  state_ok b a → ainv a → seq_bound (env b) ≤ 2 ^ 32 → in_s 64 now' →
  a_txns a !! o = Some x → status x ≠ OESTORE_TXN_ACTIVE →
  _update_txn now now' b o dur st n = Some (rc, evs, b') →
  state_ok b' a ∧ evs = [] ∧ (rc = 0 → st = status x).
Proof.
  intros S Hi Hb Hn Hx Hs E.
  destruct (update_txn_ok now now' b a o dur st n S Hi Hb Hn) as (rc' & evs' & b'' & E' & H).
  rewrite E in E'. simplify_eq. destruct (Z.eqb_spec rc' 0) as [->|]; [|by destruct H].
  destruct H as (y & Hy & [(_ & -> & ? & ->)|U]); simplify_eq; [done|]. by destruct Hs; apply U.
Qed.

(** C2  In every state that calls of the store's interface reach from a good
    one, one call after the other and each of them returning, whatever codes
    the database answers with and while the ids the sequence gives stay below
    2^32, the records are well formed, items and transactions have ids below
    the sequence, an item is locked exactly when it has an owner, and every
    owner is a transaction that is still active.  A call of which the handle
    is aborted after its commit failed does not return ([_api_put]), and
    calls that come between a call and its [_txn_is_active] are not steps
    here (see [put_joins_ended]). *)
Theorem store_invariant b b' :
  good b → rtc api_step b b' →
  ∃ a, state_ok b' a ∧
    ∀ k h, a_items a !! k = Some h →
      0 < k < seq_bound (env b') ∧ (lock h = OESTORE_UNLOCKED ↔ txn_id h = 0) ∧
      (txn_id h ≠ 0 → active a (txn_id h)).
Proof.
  intros Hg Hr. assert (good b') as (a & S & Hi).
  { induction Hr as [|b b1 b' St _ IH]; [done|]. by apply IH, (step_good b). }
  exists a. split; [done|]. intros k h Hk. split_and!.
  - by apply (so_items _ _ S k h).
  - by apply (so_items _ _ S k h).
  - apply (ai_lock _ Hi _ _ Hk).
  - apply (ai_owner _ Hi _ _ Hk).
Qed.

Lemma settled_lock_in st a o hs q c :
  repr c a → q_take q = true → q_owner_id q = o → in_u 64 o → o ≠ 0 → owned a o = [] →
  st ≠ OESTORE_TXN_ACTIVE → NoDup (lease_id <$> (handed q <$> hs)) →
  (∀ h, h ∈ hs → a_items a !! lease_id h = Some h ∧ lock h = OESTORE_UNLOCKED ∧ txn_id h = 0) →
  settled st o (lock_in (handed q <$> hs) a) =
  match st with OESTORE_TXN_COMMITTED => take_out (handed q <$> hs) a | _ => a end.
Proof.
  intros R Ht Ho Hu Hn Hown Hst Hnd Hhs.
  destruct (lock_in_lookup (handed q <$> hs) a Hnd) as (Htx & Hin & Hout).
  assert (∀ k g, a_items a !! k = Some g → lease_id g = k) as Hid by (intros k g Hg; by apply (r_items _ _ R)).
  assert (∀ k g, a_items a !! k = Some g → txn_id g ≠ o) as Hno.
  { intros k g Hg E. pose proof (proj2 (elem_of_owned a o g Hid)) as Hm. rewrite Hown in Hm.
    rewrite (Hid _ _ Hg) in Hm. specialize (Hm (conj Hg E)). by apply elem_of_nil in Hm. }
  assert (∀ k, omap (settle o (del_lock st)) (a_items (lock_in (handed q <$> hs) a)) !! k =
    if decide (k ∈ lease_id <$> (handed q <$> hs))
    then match st with OESTORE_TXN_COMMITTED => None | _ => a_items a !! k end else a_items a !! k) as Hlk.
  { intros k. rewrite lookup_omap. case_decide as Hk.
    - apply list_elem_of_fmap in Hk as (r & -> & Hr). rewrite Hin by done.
      apply list_elem_of_fmap in Hr as (h & -> & Hh). destruct (Hhs h Hh) as (Hl & Hlock & Htid).
      destruct (handed_wf q _ h (r_items _ _ R _ _ Hl) Ht ltac:(by rewrite Ho)) as (Eid & _ & Hs & _).
      rewrite Eid, Hl, (stored_norm _ _ Hs). cbn. unfold settle, handed. rewrite Ht. cbn. rewrite Ho, Z.eqb_refl.
      destruct st; cbn; [done| |done]. f_equal. unfold unlock. destruct h; cbn in *. by subst.
    - rewrite Hout by done. destruct (a_items a !! k) as [g|] eqn:Eg; [|done]. cbn. unfold settle.
      destruct (Z.eqb_spec (txn_id g) o); [by destruct (Hno k g)|done]. }
  destruct st; [..|done]; unfold settled, del_lock in *; rewrite Htx.
  - destruct (take_out_lookup (handed q <$> hs) a 0) as [Et _].
    assert (∀ a1 a2 : astore, a_items a1 = a_items a2 → a_txns a1 = a_txns a2 → a1 = a2) as Heta
      by (intros [] []; cbn; congruence).
    apply Heta; [|done]. apply map_eq. intros k. rewrite (proj2 (take_out_lookup (handed q <$> hs) a k)). apply Hlk.
  - destruct a as [items txns]. f_equal. apply map_eq. intros k. rewrite Hlk. by case_decide.
Qed.

(** C4  Taking under a transaction that owns nothing else and then ending it:
    a rollback gives back exactly the items there were before the take, a
    commit removes exactly the items the take returned. *)
Theorem take_then_end now now' b a q l q1 b1 now2 now2' dur st n evs b2 :
  state_ok b a → ainv a → query_ok q l → l ≠ [] → q_take q = true →
  q_owner_id q ≠ 0 → owned a (q_owner_id q) = [] → st ≠ OESTORE_TXN_ACTIVE →
  _api_get now now' b q = Some (0, q1, b1) →
  seq_bound (env b1) ≤ 2 ^ 32 → in_s 64 now2' →
  _update_txn now2 now2' b1 (q_owner_id q) dur st n = Some (0, evs, b2) →
  ∃ x, state_ok b2 (add_txn x (match st with
                              | OESTORE_TXN_COMMITTED => take_out (q_results q1) a
                              | _ => a
                              end)).
Proof.
  intros S Hi Hq Hne Ht Ho Hown Hst E1 Hb Hn E2.
  pose proof (api_take_ok now now' b a q l S Hq Ht) as H. rewrite E1 in H. rename q1 into q', b1 into b'.
  cbn [returns Z.eqb] in H. destruct (H Hne) as (S1 & Hnd & Hact & hs & Hhs0 & [Hrs Hin] & _).
  assert (ainv (taken q (q_results q') a)) as Hi1.
  { apply ainv_taken; [done..| |done]. apply (handed_taken q (q_results q') now a l hs Ht). by split. }
  destruct (update_txn_ok now2 now2' b' _ (q_owner_id q) dur st n S1 Hi1 Hb Hn) as (rc & evs' & b3 & E3 & H3).
  rewrite E2 in E3. simplify_eq. cbn [Z.eqb] in H3. destruct H3 as (x & Hx & H3).
  assert (active (taken q (q_results q') a) (q_owner_id q)) as (x' & Hx' & Hxa).
  { destruct (Hact Ho) as (y & ? & ?). exists y. split; [|done]. unfold taken.
    destruct (Z.eqb_spec (q_owner_id q) 0); [done|]. by rewrite (proj1 (lock_in_lookup (q_results q') a Hnd)). }
  destruct H3 as [(Hna & _)|U]; [congruence|]. eexists. pose proof (up_state _ _ _ _ _ _ _ _ _ _ _ U) as S3.
  unfold taken in S3. destruct (Z.eqb_spec (q_owner_id q) 0); [done|]. rewrite Hrs in *.
  rewrite (settled_lock_in st a (q_owner_id q) hs q (store_of (env b))) in S3; try done; [apply S|apply Hq|].
  intros h Hh. destruct (Hin h Hh) as (? & Hv & ? & _). apply skip_deliver in Hv as [_ ?]. done.
Qed.

(** Renewing a lease returns; with code 0 the item existed, its lease had
    not run out before the call, and only its expiry time has changed; with
    any other code the store is unchanged. *)
Theorem update_lease_spec now b a lid exp :
  state_ok b a → in_s 64 exp →
  ∃ rc b', _update_lease now b lid exp = Some (rc, b') ∧
    if rc =? 0
    then ∃ h, a_items a !! lid = Some h ∧
         (lease_expire_time h = Str.OEC_FOREVER ∨ now ≤ lease_expire_time h) ∧
         state_ok b' (add_item (OeStoreHolder_set_lease_expire_time h exp) a)
    else state_ok b' a.
Proof. apply update_lease_ok. Qed.

(** The reaper removes nothing but items without an owner whose lease has
    run out; in particular nothing a transaction holds. *)
Theorem lease_reaper_safe junk now b a rc b' :
  state_ok b a → _lease_reaper junk now b = Some (rc, b') →
  ∃ a', state_ok b' a' ∧ a_txns a' = a_txns a ∧
    ∀ k h, a_items a !! k = Some h →
      a_items a' !! k = Some h ∨ a_items a' !! k = None ∧ expired_item now h.
Proof.
  intros S E. destruct (lease_reaper_ok junk now b a rc b' S E) as (a' & S' & Ht & Hi).
  exists a'. split; [done|]. split; [done|]. intros k h Hk. destruct (Hi k) as [->|(-> & h' & Hk' & He)]; [by left|].
  right. by simplify_eq.
Qed.

(** The reaper does not run twice: after a first run that got to its work
    the running flag is set and stays set, and a later call whose
    uninitialised result is false does nothing at all. *)
Theorem lease_reaper_stuck junk now b rc b' :
  reaper_running_flag b = false → _lease_reaper junk now b = Some (rc, b') →
  reaper_running_flag b' = true ∧ ∀ now2, _lease_reaper false now2 b' = Some (0, b').
Proof.
  intros Hf. unfold _lease_reaper at 1. unfold _set_reaper_running at 1. rewrite Hf.
  set (b1 := mkOeBdb (env b) (fire_write_event b) true).
  assert (∀ e, (_set_reaper_running junk (set_env b1 e) false).2 = set_env b1 e) as Hs by done.
  assert (∀ b2, reaper_running_flag b2 = true →
    reaper_running_flag b2 = true ∧ ∀ now2, _lease_reaper false now2 b2 = Some (0, b2)) as Hdone.
  { intros b2 E. split; [done|]. intros now2. unfold _lease_reaper, _set_reaper_running. by rewrite E. }
  destruct (txn_begin (env b1)) as [lret t]. destruct (negb (lret =? 0)); [done|].
  destruct (expire_scan t now) as [lret' [items fin]].
  destruct (negb (lret' =? 0)); [intros [= <- <-]; by apply Hdone|].
  destruct (reap_loop now items fin t 0) as [[[? t']|[[lr t'] ret]]|]; cbn [mbind option_bind];
    [intros [= <- <-]; by apply Hdone| |done].
  destruct (_ && _); [intros [= <- <-]; by apply Hdone|].
  destruct (negb (cursor_close t' =? 0)); [intros [= <- <-]; by apply Hdone|].
  destruct (txn_commit (env b1) t') as [cr e]. destruct (negb (cr =? 0)); [done|].
  intros [= <- <-]. by apply Hdone.
Qed.

(** The reaper starts at the first index entry that is not before now and
    walks back: when every indexed lease has already run out it finds no
    such entry and removes nothing. *)
Theorem lease_reaper_misses junk now b a rc b' :
  state_ok b a → _lease_reaper junk now b = Some (rc, b') →
  (∀ k h, a_items a !! k = Some h → txn_id h = 0 → lease_expire_time h ≠ Str.OEC_FOREVER →
     _compare_oe_time (lease_expire_time h) now < 0) →
  state_ok b' a.
Proof.
  intros S E Hall. unfold _lease_reaper in E.
  pose proof (set_running_env junk b true a S) as S1. destruct (_set_reaper_running junk b true) as [go b1].
  cbn in S1. destruct go; [|by simplify_eq].
  destruct (txn_begin (env b1)) as [rc0 t] eqn:Et. destruct (Z.eqb_spec rc0 0) as [->|]; cbn [negb] in E; [|done].
  assert (repr (view t) a) as R by (rewrite (begin_view _ _ Et); apply S1).
  assert (∀ t, state_ok (_set_reaper_running junk (set_env b1 (txn_abort (env b1) t)) false).2 a) as Sab.
  { intros t'. apply set_running_env. destruct (abort_ok (env b1) t'). apply state_ok_env; [done..|lia]. }
  destruct (expire_scan t now) as [lret s] eqn:Es. destruct s as [items fin].
  destruct (Z.eqb_spec lret 0) as [->|]; cbn [negb] in E; [|simplify_eq; apply Sab].
  assert ((items, fin) = ([], DB_NOTFOUND)) as [= -> ->].
  { apply (expire_none _ _ _ Es). intros k r x Hr Hx. destruct (repr_lookup _ _ _ _ R Hr) as (h & Hh & -> & Hs).
    destruct (expires_stored k h x Hs Hx) as (? & ? & ->). by eapply Hall. }
  cbn [reap_loop mbind option_bind] in E. rewrite Z.eqb_refl, andb_false_r in E.
  destruct (negb (cursor_close t =? 0)); [simplify_eq; apply Sab|].
  destruct (txn_commit (env b1) t) as [cr e] eqn:Ec. destruct (Z.eqb_spec cr 0) as [->|]; cbn [negb] in E; [|done].
  simplify_eq. apply set_running_env. destruct (commit_ok _ _ _ Ec) as [Hst Hsb].
  apply (state_ok_new b1 a); [done|by rewrite Hst|lia|by auto..].
Qed.

(** A deadlock on the first read of a transaction's items is reported as a
    wrong item count, not as a request to retry, when the caller expects
    items. *)
Theorem deadlock_hidden now x t st n :
  is_deadlocked t = false → status x = OESTORE_TXN_ACTIVE → tid x ≠ 0 →
  owner_scan t (tid x) = (0, ([], DB_LOCK_DEADLOCK)) → cursor_close t = 0 → 0 < n →
  _finish_oetxn now x t (del_lock st) (clr_lock st) st n =
    Some (OESTORE_ENLISTED_COUNT_INCORRECT, t, x, []).
Proof.
  intros Hd Hs Ht Ho Hc Hn. pose proof codes as (_ & Hdl & _). unfold _finish_oetxn.
  rewrite Hd, Hs, bool_decide_true, Ho by done. destruct (Z.eqb_spec (tid x) 0); [done|]. cbn [negb Z.eqb finish_loop mbind option_bind].
  rewrite Hc. destruct (Z.eqb_spec 0 DB_LOCK_DEADLOCK); [congruence|].
  destruct (Z.eqb_spec n (-1)); [lia|]. by destruct n; [lia|..].
Qed.

End BdbTxn.
