(* ===== verification/MemDb.v ===== *)
(** * MemDb: a database in memory

    A concrete [BerkeleyDB] that satisfies [BerkeleyDBSpec]: finite maps for
    the primary databases, the secondary indexes computed from the callbacks,
    and no failures other than the ones the documentation requires.  With
    [dl] every scan of the owner index is ended by a deadlock.  It shows that what the
    theorems about the store assume of Berkeley DB can hold, and runs the
    store's operations. *)

From S2P Require Import Prelude Values Collections StoreHolder BdbKeys Bdb BdbSpec BdbTxn.
Import AList DataObject DataObjectList.

Record mem_env := mkMem { m_content : content; m_seq : Z }.

Definition props_of (b : list Z) : list string :=
  match _set_props b with Some (CbKeys ks) => ks | _ => [] end.
Definition has_keys (keys : list string) (b : list Z) : bool :=
  forallb (λ k, bool_decide (k ∈ props_of b)) keys.
Definition owner_is (o : Z) (b : list Z) : bool :=
  match _set_owner b with Some (Some o') => _compare_oe_id o' o =? 0 | _ => false end.
Definition time_of (b : list Z) : option Z := default None (_set_expire_time b).

Definition put_code (b : list Z) : Z :=
  match _set_props b with
  | Some CbDoNotIndex | Some (CbKeys _) => 0
  | Some (CbError rc) => if rc =? 0 then -1 else rc
  | None => -1
  end.

Definition mem_scan (c : content) (p : list Z → bool) : list (Z * list Z) :=
  filter (λ kb, p kb.2 = true) (map_to_list (c_holders c)).

Definition mem_expire (c : content) (now : Z) : list (Z * list Z) :=
  let late b := match time_of b with Some x => 0 <=? _compare_oe_time x now | None => false end in
  let early b := match time_of b with Some x => _compare_oe_time x now <? 0 | None => false end in
  match mem_scan c late with
  | [] => []
  | kb :: _ => kb :: mem_scan c early
  end.

#[export] Instance memdb (dl : bool) : BerkeleyDB := {|
  DB_NOTFOUND := -30988;
  DB_LOCK_DEADLOCK := -30993;
  DB_BUFFER_SMALL := -30999;
  denv := mem_env;
  dtxn := content;
  store_of := m_content;
  view := id;
  seq_bound := m_seq;
  txn_begin e := (0, m_content e);
  txn_commit e t := (0, mkMem t (m_seq e));
  txn_abort e _ := e;
  is_deadlocked _ := false;
  usermem r n := if n <? Z.of_nat (length r) then (-30999, Z.of_nat (length r), [])
                 else (0, Z.of_nat (length r), r);
  holder_get t k := match c_holders t !! k with Some b => (0, b) | None => (-30988, []) end;
  holder_put t k b := (put_code b, if put_code b =? 0 then set_holders <[k := b]> t else t);
  holder_del t k := match c_holders t !! k with
                    | Some _ => (0, set_holders (delete k) t) | None => (-30988, t) end;
  txndb_get e ot k :=
    match c_txns (match ot with Some t => t | None => m_content e end) !! k with
    | Some b => (0, b) | None => (-30988, []) end;
  txndb_put t k b := (0, set_txns <[k := b]> t);
  prop_cursor _ := 0;
  prop_set t key := if existsb (λ kb, has_keys [key] kb.2) (map_to_list (c_holders t)) then 0 else -30988;
  prop_join t keys := (0, (mem_scan t (has_keys keys), -30988));
  owner_scan t o := (0, if dl then ([], -30993) else (mem_scan t (owner_is o), -30988));
  expire_scan t now := (0, (mem_expire t now, -30988));
  cursor_close _ := 0;
  seq_get e := if (0 <? m_seq e) && (m_seq e <? 2 ^ 63)
               then (0, m_seq e, mkMem (m_content e) (m_seq e + 1)) else (1, 0, e)
|}.

Lemma elem_of_mem_scan c p k b :
  (k, b) ∈ mem_scan c p ↔ c_holders c !! k = Some b ∧ p b = true.
Proof. unfold mem_scan. rewrite list_elem_of_filter, elem_of_map_to_list. cbn. naive_solver. Qed.

Lemma mem_scan_NoDup c p : NoDup (mem_scan c p).*1.
Proof.
  apply (sublist_NoDup _ (map_to_list (c_holders c)).*1); [apply NoDup_fst_map_to_list|].
  unfold mem_scan. apply fmap_sublist, sublist_filter.
Qed.

Lemma has_keys_spec keys b : has_keys keys b = true ↔ Forall (has_prop b) keys.
Proof.
  unfold has_keys. rewrite forallb_forall, Forall_forall. split; intros H k Hk; specialize (H k Hk).
  - apply bool_decide_eq_true in H. unfold props_of in H. destruct (_set_props b) as [[ks| |]|] eqn:E; [by exists ks|set_solver..].
  - apply bool_decide_eq_true. destruct H as (ks & E & Hin). unfold props_of. by rewrite E.
Qed.

Lemma time_of_spec b x : time_of b = Some x ↔ expires b x.
Proof. unfold time_of, expires. destruct (_set_expire_time b) as [[y|]|]; cbn; naive_solver. Qed.

Lemma put_code_zero b : put_code b = 0 → indexable b.
Proof.
  unfold put_code, indexable. destruct (_set_props b) as [[ks| |rc]|]; [eauto|eauto| |done].
  by destruct (Z.eqb_spec rc 0).
Qed.

Lemma mem_expire_spec c now k b :
  (k, b) ∈ mem_expire c now → c_holders c !! k = Some b ∧ ∃ x, expires b x.
Proof.
  unfold mem_expire. destruct (mem_scan c _) as [|[k0 b0] l] eqn:E; [set_solver|].
  assert ((k0, b0) ∈ (k0, b0) :: l) as H0 by set_solver. rewrite <-E in H0.
  apply elem_of_mem_scan in H0 as [H0 H1]. intros Hin. apply elem_of_cons in Hin as [[= -> ->]|Hin].
  - split; [done|]. destruct (time_of b0) as [x|] eqn:Ex; [|done]. exists x. by apply time_of_spec.
  - apply elem_of_mem_scan in Hin as [? H2]. split; [done|]. destruct (time_of b) as [x|] eqn:Ex; [|done].
    exists x. by apply time_of_spec.
Qed.

Lemma mem_expire_NoDup c now : NoDup (mem_expire c now).*1.
Proof.
  unfold mem_expire. destruct (mem_scan c _) as [|[k0 b0] l] eqn:E; [constructor|].
  assert ((k0, b0) ∈ (k0, b0) :: l) as H0 by set_solver. rewrite <-E in H0. apply elem_of_mem_scan in H0 as [H0 H1].
  cbn. constructor; [|apply mem_scan_NoDup]. intros Hin. apply list_elem_of_fmap in Hin as ([k b] & -> & Hin).
  apply elem_of_mem_scan in Hin as [H2 H3]. cbn in *. rewrite H0 in H2. simplify_eq.
  destruct (time_of b) as [x|]; [|done]. apply Z.leb_le in H1. apply Z.ltb_lt in H3. lia.
Qed.

Lemma mem_scan_ok dl t P p :
  (∀ b, p b = true ↔ P b) → @scan_ok (memdb dl) t P (mem_scan t p, -30988).
Proof.
  intros Hp. split_and!; [done|apply mem_scan_NoDup| |]; cbn [fst snd].
  - intros k b Hk. apply elem_of_mem_scan in Hk as [? ?]. split; [done|by apply Hp].
  - intros _ k b Hl HP. apply elem_of_mem_scan. split; [done|by apply Hp].
Qed.

Lemma owner_is_spec o b :
  owner_is o b = true ↔ ∃ o', _set_owner b = Some (Some o') ∧ _compare_oe_id o' o = 0.
Proof.
  unfold owner_is. destruct (_set_owner b) as [[o'|]|]; [|naive_solver..]. rewrite Z.eqb_eq. naive_solver.
Qed.

Lemma mem_prop_missing t key k b :
  existsb (λ kb, has_keys [key] kb.2) (map_to_list (c_holders t)) = false →
  c_holders t !! k = Some b → ¬ has_prop b key.
Proof.
  intros E Hk Hp. assert (existsb (λ kb, has_keys [key] kb.2) (map_to_list (c_holders t)) = true); [|congruence].
  apply existsb_exists. exists (k, b). split; [by apply list_elem_of_In, elem_of_map_to_list|].
  apply has_keys_spec. by repeat constructor.
Qed.

Lemma mem_expire_none t now :
  (∀ k b x, c_holders t !! k = Some b → expires b x → _compare_oe_time x now < 0) → mem_expire t now = [].
Proof.
  intros Hall. unfold mem_expire. destruct (mem_scan t _) as [|[k b] l] eqn:E; [done|].
  assert ((k, b) ∈ (k, b) :: l) as Hin by set_solver. rewrite <-E in Hin. apply elem_of_mem_scan in Hin as [Hl Ht].
  destruct (time_of b) as [x|] eqn:Ex; [|done]. apply Z.leb_le in Ht. apply time_of_spec in Ex.
  specialize (Hall k b x Hl Ex). lia.
Qed.

#[export] Instance memdb_spec dl : BerkeleyDBSpec (memdb dl).
Proof.
  split; cbn [DB_NOTFOUND DB_LOCK_DEADLOCK DB_BUFFER_SMALL denv dtxn store_of view seq_bound txn_begin txn_commit
    txn_abort usermem holder_get holder_put holder_del txndb_get txndb_put prop_cursor prop_set prop_join owner_scan
    expire_scan seq_get memdb fst snd]; unfold id, is_db_code.
  - lia.
  - lia.
  - lia.
  - lia.
  - by intros e t [= <-].
  - by intros e t e' [= <-].
  - by intros e t rc e' [= <- <-].
  - done.
  - done.
  - intros t k b. by case_match; intros [= <-].
  - intros t k b. by case_match.
  - intros t k b t' [= E <-]. rewrite E. split; [done|by apply put_code_zero].
  - intros t k t'. by case_match; intros [= <-].
  - intros t k t'. by case_match; intros [= <-].
  - intros e ot k b. by destruct ot; case_match; intros [= <-].
  - by intros t k b t' [= <-].
  - intros _. lia.
  - intros _. lia.
  - intros t key. case_match; lia.
  - intros t key k b. destruct (existsb _ _) eqn:E; [done|]. intros _. by apply mem_prop_missing.
  - intros t keys s [= <-]. split; [cbn; lia|]. apply mem_scan_ok. intros b. apply has_keys_spec.
  - intros t o s [= <-]. destruct dl.
    + split_and!; [done|constructor| |done]. intros k b Hk. by apply elem_of_nil in Hk.
    + apply mem_scan_ok. intros b. apply owner_is_spec.
  - intros t now s [= <-]. split_and!; [done|apply mem_expire_NoDup|]. intros k b. apply mem_expire_spec.
  - intros t now s [= <-] Hall. by rewrite mem_expire_none.
  - intros e i e'. destruct (Z.ltb_spec 0 (m_seq e)), (Z.ltb_spec (m_seq e) (2 ^ 63)); cbn;
      intros [= <- <-]; cbn; split_and!; (done || lia).
  - intros e rc i e'. case_match; intros [= <- <- <-]; done.
Qed.

(** ** Concrete stores *)

Definition content_of (a : astore) : content := mkContent (enc_h <$> a_items a) (enc_txn <$> a_txns a).
Definition store_with (dl : bool) (a : astore) (seq : Z) : OeBdb (B := memdb dl) :=
  mkOeBdb (B := memdb dl) (mkMem (content_of a) seq) true false.

Lemma store_with_ok dl a seq :
  map_Forall (λ k h, stored k h ∧ 0 < k < seq) (a_items a) →
  map_Forall (λ k x, (txn_wf x ∧ tid x = k) ∧ 0 < k < seq) (a_txns a) →
  state_ok (store_with dl a seq) a.
Proof.
  intros Hi Ht. split; [split; [done|done| |]| |]; cbn.
  - intros k h Hk. by apply Hi.
  - intros k x Hk. by apply Ht.
  - intros k h Hk. by apply (Hi k h).
  - intros k x Hk. by apply (Ht k x).
Qed.

Lemma mem_joins dl : joins_open (B := memdb dl).
Proof. done. Qed.

Definition job : DataObject := mkDataObject ["job"; "7"] 0 None None false.
Definition any_job : DataObject := mkDataObject ["job"; "_"] 0 None None false.
Definition job_item (l : OESTORE_LOCK) (lid owner exp : Z) : OeStoreHolder := mkHolder l true lid owner exp (Some job).
Definition a_txn (st : OESTORE_TXN_STATUS) (t : Z) : OESTORE_TXN := mkTxn st Str.OEC_FOREVER 5 0 t.

Lemma job_item_wf l lid owner exp :
  in_u 64 lid → in_u 64 owner → in_s 64 exp → holder_wf (job_item l lid owner exp) job.
Proof.
  intros H1 H2 H3. apply (holder_wf_meta (job_item OESTORE_UNLOCKED 0 0 0)); [|done..].
  split; try (vm_compute; intuition congruence). repeat constructor; unfold no_nul; vm_compute; set_solver.
Qed.

Lemma job_item_stored l lid owner exp :
  in_u 64 lid → in_u 64 owner → in_s 64 exp → stored lid (job_item l lid owner exp).
Proof. intros H1 H2 H3. split; [done|]. exists job. split; [by apply job_item_wf|done]. Qed.

(** One item, and a transaction without items. *)
Definition one_item (l : OESTORE_LOCK) (owner : Z) (st : OESTORE_TXN_STATUS) : astore :=
  mkStore {[1001 := job_item l 1001 owner Str.OEC_FOREVER]} {[1002 := a_txn st 1002]}.

Lemma one_item_ok dl l owner st : in_u 64 owner → state_ok (store_with dl (one_item l owner st) 1003) (one_item l owner st).
Proof.
  intros Ho. apply store_with_ok; cbn; apply map_Forall_singleton.
  - split; [|lia]. apply job_item_stored; [width|done|unfold Str.OEC_FOREVER; width].
  - repeat split; try (cbn; unfold Str.OEC_FOREVER; width); done.
Qed.

Lemma one_item_inv l owner st :
  (l = OESTORE_UNLOCKED ↔ owner = 0) → (owner ≠ 0 → owner = 1002 ∧ st = OESTORE_TXN_ACTIVE) → ainv (one_item l owner st).
Proof.
  intros H1 H2. split; cbn; intros k h Hk; apply lookup_singleton_Some in Hk as [<- <-]; cbn; [done|].
  intros Hn. destruct (H2 Hn) as [-> ->]. by eexists.
Qed.

Definition free_store : OeBdb (B := memdb false) := store_with false (one_item OESTORE_UNLOCKED 0 OESTORE_TXN_ACTIVE) 1003.
Definition held_store : OeBdb (B := memdb false) := store_with false (one_item OESTORE_TAKE_LOCK 1002 OESTORE_TXN_ACTIVE) 1003.
Definition done_store : OeBdb (B := memdb false) := store_with false (one_item OESTORE_UNLOCKED 0 OESTORE_TXN_COMMITTED) 1003.

Definition job_query (take : bool) (owner : Z) : OeStoreQuery :=
  mkQuery take true false owner (Some [any_job]) 1 false [].
Lemma job_query_ok take owner : in_u 64 owner → query_ok (job_query take owner) [any_job].
Proof. intros H. split; [done|by repeat constructor|done|done]. Qed.

(** ** Witnesses *)

Lemma api_put_spec_witness :
  match _api_put 1 free_store (job_item OESTORE_UNLOCKED 0 0 9) with
  | Some (rc, evs, h', b') =>
    h' = OeStoreHolder_set_lease_id (job_item OESTORE_UNLOCKED 0 0 9) (lease_id h') ∧
    a_items (one_item OESTORE_UNLOCKED 0 OESTORE_TXN_ACTIVE) !! lease_id h' = None ∧
    if rc =? 0
    then state_ok b' (add_item h' (one_item OESTORE_UNLOCKED 0 OESTORE_TXN_ACTIVE)) ∧
         (0 ≠ 0 → active (one_item OESTORE_UNLOCKED 0 OESTORE_TXN_ACTIVE) 0) ∧ evs = [job]
    else state_ok b' (one_item OESTORE_UNLOCKED 0 OESTORE_TXN_ACTIVE) ∧ evs = []
  | None => ∃ i e, _create_id 1 (env free_store) = Some (i, e) ∧ ((txn_begin e).1 ≠ 0 ∨ ∃ t, (txn_commit e t).1 ≠ 0)
  end.
Proof.
  apply (api_put_spec 1 1 free_store (one_item OESTORE_UNLOCKED 0 OESTORE_TXN_ACTIVE)
    (job_item OESTORE_UNLOCKED 0 0 9) job).
  - apply one_item_ok. width.
  - apply job_item_wf; width.
  - eapply seq_ready_now. reflexivity.
  - lia.
Defined.

(** A put under transaction 1002, which was active when [_txn_is_active] read
    its record and has been committed when the item is written: the put
    succeeds and the item belongs to no active transaction. *)
Lemma put_after_commit :
  ∃ h' b' a', _api_put_seen 1 (Some (env free_store)) done_store (job_item OESTORE_WRITE_LOCK 0 1002 9) = Some (0, [], h', b') ∧
    state_ok b' a' ∧ a_items a' !! lease_id h' = Some (norm h') ∧ StoreHolder.txn_id h' = 1002 ∧ ¬ active a' 1002.
Proof.
  assert ((λ r, (r.1.1, StoreHolder.txn_id r.1.2)) <$>
    _api_put_seen 1 (Some (env free_store)) done_store (job_item OESTORE_WRITE_LOCK 0 1002 9) = Some (0, [], 1002)) as Hrun
    by (vm_compute; reflexivity).
  destruct (_api_put_seen _ _ _ _) as [[[[rc evs] h'] b']|] eqn:E; [|done]. cbn in Hrun. injection Hrun as -> -> Ht.
  destruct (put_joins_ended 1 (env free_store) done_store (one_item OESTORE_UNLOCKED 0 OESTORE_TXN_COMMITTED)
    (job_item OESTORE_WRITE_LOCK 0 1002 9) job [] h' b' (a_txn OESTORE_TXN_COMMITTED 1002)) as (a' & S & Hl & Ha);
    [apply one_item_ok; width|apply job_item_wf; width|reflexivity|done|done| |exact E|].
  - eexists. eapply so_repr. apply (one_item_ok false OESTORE_UNLOCKED 0 OESTORE_TXN_ACTIVE). width.
  - rewrite Ht in Ha. exists h', b', a'. auto.
Qed.

(** The put of the witness succeeds. *)
Lemma api_put_runs :
  (λ r, r.1.1) <$> _api_put 1 free_store (job_item OESTORE_UNLOCKED 0 0 9) = Some (0, [job]).
Proof. vm_compute. reflexivity. Qed.

Lemma api_get_read_witness :
  ∃ rc q' b', _api_get 10 10 free_store (job_query false 0) = Some (rc, q', b') ∧
    state_ok b' (one_item OESTORE_UNLOCKED 0 OESTORE_TXN_ACTIVE) ∧
    (rc = 0 → [any_job] ≠ [] →
      q_results q' ≠ [] ∧
      found_in 10 (one_item OESTORE_UNLOCKED 0 OESTORE_TXN_ACTIVE) (job_query false 0) [any_job] (q_results q') (q_results q') ∧
      Z.of_nat (length (q_results q')) ≤ Z.max 1 1 + 1 - 1 ∧
      (1 = 0 → Forall2 (λ d h, amatch true d h) [any_job] (q_results q'))) ∧
    (rc = OE_STORE_ITEM_NOTFOUND → [any_job] ≠ [] →
      Forall (unseen 10 (one_item OESTORE_UNLOCKED 0 OESTORE_TXN_ACTIVE) true) [any_job]).
Proof.
  apply (api_get_read 10 10 free_store (one_item OESTORE_UNLOCKED 0 OESTORE_TXN_ACTIVE) (job_query false 0) [any_job]).
  - apply one_item_ok. width.
  - apply job_query_ok. width.
  - apply mem_joins.
  - done.
Defined.

Lemma api_take_spec_witness :
  ∃ rc q' b', _api_get 10 11 free_store (job_query true 1002) = Some (rc, q', b') ∧
    if rc =? 0
    then [any_job] ≠ [] →
         state_ok b' (taken (job_query true 1002) (q_results q') (one_item OESTORE_UNLOCKED 0 OESTORE_TXN_ACTIVE)) ∧
         NoDup (lease_id <$> q_results q') ∧
         (1002 ≠ 0 → active (one_item OESTORE_UNLOCKED 0 OESTORE_TXN_ACTIVE) 1002) ∧
         ∃ hs, hs ≠ [] ∧ found_in 10 (one_item OESTORE_UNLOCKED 0 OESTORE_TXN_ACTIVE) (job_query true 1002) [any_job] (q_results q') hs ∧
           ∀ h, h ∈ hs → visible 11 h
    else state_ok b' (one_item OESTORE_UNLOCKED 0 OESTORE_TXN_ACTIVE).
Proof.
  apply (api_take_spec 10 11 free_store (one_item OESTORE_UNLOCKED 0 OESTORE_TXN_ACTIVE) (job_query true 1002) [any_job]).
  - apply one_item_ok. width.
  - apply job_query_ok. width.
  - apply mem_joins.
  - done.
Defined.

(** The query and the take of the witnesses find the item. *)
Lemma get_and_take_run :
  (λ r, (r.1.1, lease_id <$> q_results r.1.2)) <$> _api_get 10 10 free_store (job_query false 0) = Some (0, [1001]) ∧
  (λ r, (r.1.1, lock <$> q_results r.1.2)) <$> _api_get 10 11 free_store (job_query true 1002) = Some (0, [OESTORE_TAKE_LOCK]) ∧
  (λ r, r.1.1) <$> _api_get 10 10 held_store (job_query false 0) = Some OE_STORE_ITEM_NOTFOUND.
Proof. vm_compute. done. Qed.

Lemma update_txn_spec_witness :
  ∃ rc evs b', _update_txn 10 11 held_store 1002 0 OESTORE_TXN_COMMITTED 1 = Some (rc, evs, b') ∧
    if rc =? 0
    then ∃ x, a_txns (one_item OESTORE_TAKE_LOCK 1002 OESTORE_TXN_ACTIVE) !! 1002 = Some x ∧
         (status x ≠ OESTORE_TXN_ACTIVE ∧ OESTORE_TXN_COMMITTED = status x ∧
            state_ok b' (one_item OESTORE_TAKE_LOCK 1002 OESTORE_TXN_ACTIVE) ∧ evs = [] ∨
          updated 10 11 true b' (one_item OESTORE_TAKE_LOCK 1002 OESTORE_TXN_ACTIVE) 1002 0 OESTORE_TXN_COMMITTED 1 evs x)
    else state_ok b' (one_item OESTORE_TAKE_LOCK 1002 OESTORE_TXN_ACTIVE) ∧ evs = [].
Proof.
  apply (update_txn_spec 10 11 held_store (one_item OESTORE_TAKE_LOCK 1002 OESTORE_TXN_ACTIVE) 1002 0 OESTORE_TXN_COMMITTED 1).
  - apply one_item_ok. width.
  - by apply one_item_inv.
  - vm_compute. congruence.
  - width.
Defined.

(** Rolling back makes the item visible again and fires an event for it. *)
Lemma rollback_runs :
  (λ r, r.1) <$> _update_txn 10 11 held_store 1002 0 OESTORE_TXN_ROLLED_BACK (-1) = Some (0, [job]) ∧
  (λ r, r.1) <$> _update_txn 10 11 held_store 1002 0 OESTORE_TXN_COMMITTED 2 = Some (OESTORE_ENLISTED_COUNT_INCORRECT, []) ∧
  (λ r, r.1) <$> _update_txn 10 11 held_store 1002 0 OESTORE_TXN_COMMITTED 1 = Some (0, []).
Proof. vm_compute. done. Qed.

Lemma txn_final_witness :
  state_ok done_store (one_item OESTORE_UNLOCKED 0 OESTORE_TXN_COMMITTED) ∧ @nil DataObject = [] ∧
  (OESTORE_UPDATING_COMMITTED_TXN_ERR = 0 → OESTORE_TXN_ROLLED_BACK = OESTORE_TXN_COMMITTED).
Proof.
  apply (txn_final 10 11 done_store (one_item OESTORE_UNLOCKED 0 OESTORE_TXN_COMMITTED) 1002 0 OESTORE_TXN_ROLLED_BACK (-1)
    OESTORE_UPDATING_COMMITTED_TXN_ERR [] done_store (a_txn OESTORE_TXN_COMMITTED 1002)).
  - apply one_item_ok. width.
  - by apply one_item_inv.
  - vm_compute. congruence.
  - width.
  - done.
  - done.
  - reflexivity.
Defined.

(** What the calls of the witnesses leave: the take turns [free_store] into
    [held_store]. *)
Definition take_query : OeStoreQuery :=
  match _api_get 10 11 free_store (job_query true 1002) with Some r => r.1.2 | None => job_query true 1002 end.
Definition after_rollback : OeBdb (B := memdb false) :=
  match _update_txn 12 13 held_store 1002 0 OESTORE_TXN_ROLLED_BACK (-1) with Some r => r.2 | None => free_store end.

Lemma take_then_end_witness :
  ∃ x, state_ok after_rollback (add_txn x (one_item OESTORE_UNLOCKED 0 OESTORE_TXN_ACTIVE)).
Proof.
  apply (take_then_end 10 11 free_store (one_item OESTORE_UNLOCKED 0 OESTORE_TXN_ACTIVE) (job_query true 1002) [any_job]
    take_query held_store 12 13 0 OESTORE_TXN_ROLLED_BACK (-1) [job] after_rollback).
  - apply one_item_ok. width.
  - by apply one_item_inv.
  - apply job_query_ok. width.
  - done.
  - done.
  - done.
  - reflexivity.
  - done.
  - reflexivity.
  - vm_compute. congruence.
  - width.
  - reflexivity.
Defined.

Lemma store_invariant_witness :
  ∃ a, state_ok held_store a ∧
    ∀ k h, a_items a !! k = Some h →
      0 < k < seq_bound (env held_store) ∧ (lock h = OESTORE_UNLOCKED ↔ txn_id h = 0) ∧
      (txn_id h ≠ 0 → active a (txn_id h)).
Proof.
  apply (store_invariant free_store).
  - exists (one_item OESTORE_UNLOCKED 0 OESTORE_TXN_ACTIVE). split; [apply one_item_ok; width|by apply one_item_inv].
  - apply rtc_once. apply (step_get 10 11 free_store (job_query true 1002) [any_job] 0 take_query).
    + apply job_query_ok. width.
    + done.
    + reflexivity.
Defined.

Lemma update_lease_spec_witness :
  ∃ rc b', _update_lease 10 free_store 1001 99 = Some (rc, b') ∧
    if rc =? 0
    then ∃ h, a_items (one_item OESTORE_UNLOCKED 0 OESTORE_TXN_ACTIVE) !! 1001 = Some h ∧
         (lease_expire_time h = Str.OEC_FOREVER ∨ 10 ≤ lease_expire_time h) ∧
         state_ok b' (add_item (OeStoreHolder_set_lease_expire_time h 99) (one_item OESTORE_UNLOCKED 0 OESTORE_TXN_ACTIVE))
    else state_ok b' (one_item OESTORE_UNLOCKED 0 OESTORE_TXN_ACTIVE).
Proof.
  apply (update_lease_spec 10 free_store (one_item OESTORE_UNLOCKED 0 OESTORE_TXN_ACTIVE) 1001 99).
  - apply one_item_ok. width.
  - width.
Defined.

(** Two leases: one runs out at 50, the other at 500. *)
Definition leased : astore :=
  mkStore (<[1001 := job_item OESTORE_UNLOCKED 1001 0 50]> {[1002 := job_item OESTORE_UNLOCKED 1002 0 500]}) ∅.
Definition leased_store : OeBdb (B := memdb false) := store_with false leased 1003.

Lemma leased_ok : state_ok leased_store leased.
Proof.
  apply store_with_ok; [|apply map_Forall_empty]. cbn [leased a_items].
  apply map_Forall_insert_2; [|apply map_Forall_singleton]; (split; [apply job_item_stored; width|lia]).
Qed.

Definition after_reap (now : Z) : OeBdb (B := memdb false) :=
  match _lease_reaper false now leased_store with Some r => r.2 | None => leased_store end.

Lemma lease_reaper_safe_witness :
  ∃ a', state_ok (after_reap 100) a' ∧ a_txns a' = a_txns leased ∧
    ∀ k h, a_items leased !! k = Some h →
      a_items a' !! k = Some h ∨ a_items a' !! k = None ∧ expired_item 100 h.
Proof.
  apply (lease_reaper_safe false 100 leased_store leased 0 (after_reap 100)); [apply leased_ok|reflexivity].
Defined.

Lemma lease_reaper_stuck_witness :
  reaper_running_flag (after_reap 100) = true ∧
  ∀ now2, _lease_reaper false now2 (after_reap 100) = Some (0, after_reap 100).
Proof. apply (lease_reaper_stuck false 100 leased_store 0 (after_reap 100)); reflexivity. Defined.

Lemma lease_reaper_misses_witness : state_ok (after_reap 1000) leased.
Proof.
  apply (lease_reaper_misses false 1000 leased_store leased 0 (after_reap 1000)); [apply leased_ok|reflexivity|].
  intros k h Hk _ _. unfold leased in Hk. cbn [a_items] in Hk. apply lookup_insert_Some in Hk as [[_ <-]|[_ Hk]]; [reflexivity|].
  apply lookup_singleton_Some in Hk as [_ <-]. reflexivity.
Defined.

(** One of the two leases is reaped at 100, none at 1000. *)
Lemma reap_runs :
  size (c_holders (m_content (@env (memdb false) (after_reap 100)))) = 1%nat ∧
  size (c_holders (m_content (@env (memdb false) (after_reap 1000)))) = 2%nat.
Proof. split; reflexivity. Qed.

Lemma deadlock_hidden_witness :
  _finish_oetxn (B := memdb true) 11 (a_txn OESTORE_TXN_ACTIVE 1002)
    (content_of (one_item OESTORE_TAKE_LOCK 1002 OESTORE_TXN_ACTIVE)) OESTORE_TAKE_LOCK OESTORE_WRITE_LOCK
    OESTORE_TXN_COMMITTED 1 =
  Some (OESTORE_ENLISTED_COUNT_INCORRECT, content_of (one_item OESTORE_TAKE_LOCK 1002 OESTORE_TXN_ACTIVE),
        a_txn OESTORE_TXN_ACTIVE 1002, []).
Proof.
  apply (deadlock_hidden (B := memdb true) 11 (a_txn OESTORE_TXN_ACTIVE 1002)
    (content_of (one_item OESTORE_TAKE_LOCK 1002 OESTORE_TXN_ACTIVE)) OESTORE_TXN_COMMITTED 1);
    [done|done|done|reflexivity|done|lia].
Defined.
