(* ===== verification/Kernel.v ===== *)
(** * Kernel: executing commands against a store

    Models [src/corelib/OEK.c], [OEK_impl.c], [OEK_get.c], [OEK_put.c],
    [OEK_sta.c], [OEK_upl.c], [OEK_upt.c] and the interface of
    [src/corelib/OeStore.c].  The store is the class [OeStoreOps]: the kernel
    is written and verified against it.  A handler runs on a thread of the
    dispatcher; its result is the store, the write events it fired and the
    one thing it does with its context: the response callback, the freeing of
    the context when there is no callback, or, for a get that waits, the
    registration with the template matcher.

    [clk i] is the clock of the i-th attempt of a handler's retry loop, for
    operations that read it twice a pair.  Arenas, logging and thread hand-over
    are not modelled. *)

From S2P Require Import Prelude Values Collections Messages StoreHolder BdbKeys.
Import AList DataObject DataObjectList.

(** ** The interface of a store *)

Class OeStoreOps (S : Type) := {
  OeStore_put : S → OeStoreHolder → option (Z * list DataObject * OeStoreHolder * S);
  OeStore_get : Z * Z → S → OeStoreQuery → option (Z * OeStoreQuery * S);
  OeStore_start_txn : Z * Z → S → Z → option (Z * OESTORE_TXN * S);
  OeStore_update_txn : Z * Z → S → Z → Z → OESTORE_TXN_STATUS → Z → option (Z * list DataObject * S);
  OeStore_update_lease : Z * Z → S → Z → Z → option (Z * S)
}.

(** ** Contexts *)

Record OEK_Context := mkContext {
  expire_time_ctx : Z;
  cmd_msg : OekMsg;
  write_response_cb : bool;
  res_msgs : option (list OekMsg);
  err_msg : option OekMsg
}.
Definition set_res (c : OEK_Context) (l : list OekMsg) : OEK_Context :=
  mkContext (expire_time_ctx c) (cmd_msg c) (write_response_cb c) (Some l) (err_msg c).
Definition set_err (c : OEK_Context) (m : OekMsg) : OEK_Context :=
  mkContext (expire_time_ctx c) (cmd_msg c) (write_response_cb c) (res_msgs c) (Some m).

Inductive k_output :=
  | K_write (c : OEK_Context)
  | K_free
  | K_register (keylists : DataObjectList) (dur : Z) (destroy : bool).

Definition _default_write_to_client (c : OEK_Context) : k_output :=
  if write_response_cb c then K_write c else K_free.

Definition _send_error (c : OEK_Context) (errid : Z) (errstring : string) : option k_output :=
  res_msg ← OekMsg_new OEK_ERR;
  err ← OekMsg_get_err res_msg;
  let res_msg := OekMsg_set_tid (OekMsg_set_cid res_msg (OekMsg_get_cid (cmd_msg c))) (OekMsg_get_tid (cmd_msg c)) in
  let err := OekErr_set_message (OekErr_set_type err errid) errstring in
  Some (_default_write_to_client (set_err c (set_data res_msg (D_err err)))).

Definition OEK_STR_GET_FAILED : string := "get failed".
Definition OEK_STR_CAN_NOT_STORE : string := "can not store data".
Definition OEK_STR_CAN_NOT_STA : string := "can not start transaction".
Definition OEK_STR_LEASE_NOT_FOUND : string := "lease not found".
Definition OEK_STR_LEASE_UPDATE_FAILED : string := "lease update failed".
Definition OEK_STR_NULL_TXNID : string := "trying to update a null txn (txnid is 0)".
Definition OEK_STR_TXN_NOT_FOUND : string := "transaction not found".
Definition OEK_STR_WRONG_ENLISTED_COUNT_MSG : string := "incorrect txn enlisted count".
Definition OEK_STR_TXN_EXPIRED : string := "trying to update txn that has an expired txn lease".
Definition OEK_STR_TXN_ALREADY_COMMITTED : string := "trying to update txn that was already committed".
Definition OEK_STR_TXN_ALREADY_ROLLEDBACK : string := "trying to update txn that was already rolledback".
Definition OEK_STR_TXN_UPDATE_FAILED : string := "transaction update failed".

(** ** The retry loop every handler has *)

Definition OEK_MAX_DB_DEADLOCKS : nat := Z.to_nat 10000.

(** [step i x] is an attempt, [again] what the body does before the next. *)
Fixpoint retry {X : Type} (fuel i : nat) (step : nat → X → option (Z * X)) (again : X → X) (ret : Z) (x : X)
    : option (Z * X) :=
  match fuel with
  | O => Some (ret, x)
  | S fuel =>
    '(ret, x) ← step i x;
    if negb (ret =? OE_STORE_PLEASE_RETRY) then Some (ret, x)
    else retry fuel (S i) step again ret (again x)
  end.

(** When attempts return, the loop returns what one of them returned. *)
Lemma retry_inv {X} (P : X → Prop) (Q : Z → X → Prop) fuel i step again ret x :
  (∀ i x, P x → ∃ r x', step i x = Some (r, x') ∧ Q r x' ∧
     (r = OE_STORE_PLEASE_RETRY → P (again x') ∧ Q r (again x'))) →
  P x → (fuel = 0%nat → Q ret x) →
  ∃ r x', retry fuel i step again ret x = Some (r, x') ∧ Q r x'.
Proof.
  intros Hs. revert i ret x. induction fuel as [|fuel IH]; intros i ret x Hx Hq; cbn [retry]; [eauto|].
  destruct (Hs i x Hx) as (r & x' & -> & Hr & Hn). cbn [mbind option_bind].
  destruct (Z.eqb_spec r OE_STORE_PLEASE_RETRY) as [->|]; cbn [negb]; [|eauto].
  destruct (Hn eq_refl). apply IH; auto.
Qed.

(** A loop that returns went through attempts that returned. *)
Lemma retry_sound {X} (P : X → Prop) (Q : Z → X → Prop) fuel i step again ret x r y :
  (∀ i x r x', P x → step i x = Some (r, x') → Q r x' ∧
     (r = OE_STORE_PLEASE_RETRY → P (again x') ∧ Q r (again x'))) →
  P x → (fuel = 0%nat → Q ret x) →
  retry fuel i step again ret x = Some (r, y) → Q r y.
Proof.
  intros Hs. revert i ret x. induction fuel as [|fuel IH]; intros i ret x Hx Hq; cbn [retry].
  { intros [= <- <-]. by apply Hq. }
  destruct (step i x) as [[r' x']|] eqn:E; [|done]. cbn [mbind option_bind].
  destruct (Hs i x r' x' Hx E) as [Hr Hn].
  destruct (Z.eqb_spec r' OE_STORE_PLEASE_RETRY) as [->|]; cbn [negb]; [|by intros [= <- <-]].
  destruct (Hn eq_refl). apply IH; auto.
Qed.

Section Kernel.
Context {S : Type} `{ST : OeStoreOps S}.
Variable clk : nat → Z * Z.

(** The clock of the handler itself. *)
Variable now : Z.

Definition k_result : Type := S * list DataObject * k_output.

(** ** put *)

(** The database entry a put command builds. *)
Definition put_holder (txnid : Z) (cmd : PutCmd) : OeStoreHolder :=
  let values := PutCmd_get_data cmd in
  let holder := OeStoreHolder_set_txn_id (OeStoreHolder_new_with_data (Some values)) txnid in
  let dur := put_duration cmd in
  let exptime := if dur =? Str.OEC_FOREVER then Str.OEC_FOREVER else i64 (now + dur) in
  let holder := OeStoreHolder_set_lease_expire_time holder exptime in
  let holder := OeStoreHolder_set_lock holder (if txnid =? 0 then OESTORE_UNLOCKED else OESTORE_WRITE_LOCK) in
  OeStoreHolder_set_tuple holder (put_is_tuple cmd).

Definition _sput (s : S) (context : OEK_Context) : option k_result :=
  let msg := cmd_msg context in
  let corid := OekMsg_get_cid msg in
  let txnid := OekMsg_get_tid msg in
  cmd ← OekMsg_get_put_cmd msg;
  '(ret, (holder, s, evs)) ←
    retry OEK_MAX_DB_DEADLOCKS 0
      (λ _ '(holder, s, evs), '(ret, evs', holder, s) ← OeStore_put s holder; Some (ret, (holder, s, evs ++ evs')))
      id 0 (put_holder txnid cmd, s, []);
  if negb (ret =? 0) then
    out ← _send_error context 104 OEK_STR_CAN_NOT_STORE; Some (s, evs, out)
  else
    res_msg ← OekMsg_new PUT_RES;
    res ← OekMsg_get_put_res res_msg;
    let res_msg := OekMsg_set_tid (OekMsg_set_cid res_msg corid) txnid in
    let res_msg := set_data res_msg (D_put_res (PutRes_set_lease_id res (lease_id holder))) in
    Some (s, evs, _default_write_to_client (set_res context (Oec_AList_list [Some res_msg; None]))).

(** ** sta *)

Definition _ssta (s : S) (context : OEK_Context) : option k_result :=
  let msg := cmd_msg context in
  let corid := OekMsg_get_cid msg in
  cmd ← OekMsg_get_sta_cmd msg;
  let duration := sta_duration cmd in
  '(ret, (oetxn, s)) ←
    retry OEK_MAX_DB_DEADLOCKS 0
      (λ i '(_, s), '(ret, oetxn, s) ← OeStore_start_txn (clk i) s duration; Some (ret, (oetxn, s)))
      id 0 (mkTxn OESTORE_TXN_ACTIVE 0 0 0 0, s);
  if negb (ret =? 0) then
    out ← _send_error context 109 OEK_STR_CAN_NOT_STA; Some (s, [], out)
  else
    res_msg ← OekMsg_new STA_RES;
    let res_msg := OekMsg_set_tid (OekMsg_set_cid res_msg corid) (tid oetxn) in
    Some (s, [], _default_write_to_client (set_res context (Oec_AList_list [Some res_msg; None]))).

(** ** upl *)

(** [duration] is unsigned: the sum wraps and is read back as a time. *)
Definition _supl (s : S) (context : OEK_Context) : option k_result :=
  let msg := cmd_msg context in
  let corid := OekMsg_get_cid msg in
  let txnid := OekMsg_get_tid msg in
  cmd ← OekMsg_get_upl_cmd msg;
  let duration := u64 (upl_duration cmd) in
  let expire_time := i64 (u64 (now + duration)) in
  let lease_id := upl_lease_id cmd in
  '(ret, s) ←
    retry OEK_MAX_DB_DEADLOCKS 0
      (λ i s, OeStore_update_lease (clk i) s lease_id expire_time) id 0 s;
  if ret =? OE_STORE_ITEM_NOTFOUND then
    out ← _send_error context 108 OEK_STR_LEASE_NOT_FOUND; Some (s, [], out)
  else if negb (ret =? 0) then
    out ← _send_error context 111 OEK_STR_LEASE_UPDATE_FAILED; Some (s, [], out)
  else
    res_msg ← OekMsg_new UPL_RES;
    res ← OekMsg_get_upl_res res_msg;
    let res_msg := OekMsg_set_tid (OekMsg_set_cid res_msg corid) txnid in
    let res_msg := set_data res_msg (D_upl_res (UplRes_set_expiretime res expire_time)) in
    Some (s, [], _default_write_to_client (set_res context (Oec_AList_list [Some res_msg; None]))).

(** ** upt *)

Definition _get_txn_status (statuschar : option ascii) : OESTORE_TXN_STATUS :=
  if bool_decide (statuschar = Some "C"%char) then OESTORE_TXN_COMMITTED
  else if bool_decide (statuschar = Some "R"%char) then OESTORE_TXN_ROLLED_BACK
  else OESTORE_TXN_ACTIVE.

(** The message for a code of [OeStore_update_txn] that has no case of its own. *)
Definition upt_error (ret : Z) : string :=
  if ret =? OESTORE_UPDATING_COMMITTED_TXN_ERR then OEK_STR_TXN_ALREADY_COMMITTED
  else if ret =? OESTORE_UPDATING_ROLLEDBACK_TXN_ERR then OEK_STR_TXN_ALREADY_ROLLEDBACK
  else if ret =? OESTORE_UPDATING_EXPIRED_TXN_ERR then OEK_STR_TXN_EXPIRED
  else OEK_STR_TXN_UPDATE_FAILED.

Definition _supt (s : S) (context : OEK_Context) : option k_result :=
  let msg := cmd_msg context in
  let corid := OekMsg_get_cid msg in
  let txnid := OekMsg_get_tid msg in
  cmd ← OekMsg_get_upt_cmd msg;
  let status := _get_txn_status (upt_status cmd) in
  let duration := upt_duration cmd in
  let enlisted := upt_enlisted cmd in
  if txnid =? 0 then
    out ← _send_error context 116 OEK_STR_NULL_TXNID; Some (s, [], out)
  else
    '(ret, (s, evs)) ←
      retry OEK_MAX_DB_DEADLOCKS 0
        (λ i '(s, evs), '(ret, evs', s) ← OeStore_update_txn (clk i) s txnid duration status enlisted;
                        Some (ret, (s, evs ++ evs')))
        id 0 (s, []);
    if ret =? OE_STORE_ITEM_NOTFOUND then
      out ← _send_error context 106 OEK_STR_TXN_NOT_FOUND; Some (s, evs, out)
    else if ret =? OESTORE_ENLISTED_COUNT_INCORRECT then
      out ← _send_error context 107 OEK_STR_WRONG_ENLISTED_COUNT_MSG; Some (s, evs, out)
    else if negb (ret =? 0) then
      out ← _send_error context 107 (upt_error ret); Some (s, evs, out)
    else
      res_msg ← OekMsg_new UPT_RES;
      res ← OekMsg_get_upt_res res_msg;
      let res_msg := OekMsg_set_tid (OekMsg_set_cid res_msg corid) txnid in
      let res := UptRes_set_status res
                   (match status with
                    | OESTORE_TXN_COMMITTED => OETXN_COMMITTED
                    | OESTORE_TXN_ROLLED_BACK => OETXN_ROLLEDBACK
                    | OESTORE_TXN_ACTIVE => OETXN_ACTIVE
                    end) in
      Some (s, evs, _default_write_to_client
                      (set_res context (Oec_AList_list [Some (set_data res_msg (D_upt_res res)); None]))).

(** ** get *)

Definition _no_results (context : OEK_Context) : option k_output :=
  res_msg ← OekMsg_new GET_RES;
  res ← OekMsg_get_get_res res_msg;
  let res_msg := OekMsg_set_tid (OekMsg_set_cid res_msg (OekMsg_get_cid (cmd_msg context)))
                   (OekMsg_get_tid (cmd_msg context)) in
  cmd ← OekMsg_get_get_cmd (cmd_msg context);
  let res := if GetCmd_remove cmd then GetRes_set_destroyed res else res in
  Some (_default_write_to_client
          (set_res context (Oec_AList_list [Some (set_data res_msg (D_get_res res)); None]))).

Definition result_msg (corid txnid : Z) (cmd : GetCmd) (result_count : Z) (result : OeStoreHolder) : option OekMsg :=
  res_msg ← OekMsg_new GET_RES;
  res ← OekMsg_get_get_res res_msg;
  let res_msg := OekMsg_set_tid (OekMsg_set_cid res_msg corid) txnid in
  let res := GetRes_set_nresults (GetRes_set_data res (OeStoreHolder_get_data result)) result_count in
  let res := if GetCmd_is_tuple cmd then GetRes_set_tuple res else res in
  let res := if GetCmd_remove cmd then GetRes_set_destroyed res else res in
  let res := if GetCmd_return_attrs cmd then GetRes_set_return_attrs res else res in
  let res := if GetCmd_return_bytes cmd then GetRes_set_return_bytes res else res in
  Some (set_data res_msg (D_get_res res)).

Fixpoint handle_result_loop (corid txnid : Z) (cmd : GetCmd) (count : Z) (results : list OeStoreHolder)
    (msgs : list OekMsg) : option (list OekMsg) :=
  match results with
  | [] => Some msgs
  | r :: results =>
    m ← result_msg corid txnid cmd count r;
    handle_result_loop corid txnid cmd count results (Oec_AList_append msgs (Oec_AList_list [Some m; None]))
  end.

Definition _geth_handle_result (context : OEK_Context) (query : OeStoreQuery) : option k_output :=
  let msg := cmd_msg context in
  cmd ← OekMsg_get_get_cmd msg;
  let result_count := OeStoreQuery_get_nitems_found query in
  c_assert (negb (result_count =? 0));;
  res_msgs ← handle_result_loop (OekMsg_get_cid msg) (OekMsg_get_tid msg) cmd result_count (q_results query)
               (Oec_AList_list [None]);
  Some (_default_write_to_client (set_res context res_msgs)).

Definition _geth_handle_no_results (context : OEK_Context) (query : OeStoreQuery) : option k_output :=
  cmd ← OekMsg_get_get_cmd (cmd_msg context);
  let destroy := GetCmd_remove cmd in
  let keylists := GetCmd_get_data_objects cmd in
  if expire_time_ctx context <=? now then _no_results context
  else if q_ifexists query && negb (q_exists query) then _no_results context
  else Some (K_register keylists (i64 (expire_time_ctx context - now)) destroy).

Definition get_query (msg : OekMsg) (cmd : GetCmd) : OeStoreQuery :=
  let query := OeStoreQuery_new (get_max_responses cmd) in
  let query := OeStoreQuery_set_value_lists query (GetCmd_get_data_objects cmd) in
  let query := OeStoreQuery_set_take query (GetCmd_remove cmd) in
  let query := OeStoreQuery_set_ifexists query (GetCmd_ifexists cmd) in
  let query := OeStoreQuery_set_tuple query (GetCmd_is_tuple cmd) in
  OeStoreQuery_set_owner query (OekMsg_get_tid msg).

Definition _geth (s : S) (context : OEK_Context) : option k_result :=
  let msg := cmd_msg context in
  cmd ← OekMsg_get_get_cmd msg;
  '(ret, (query, s)) ←
    retry OEK_MAX_DB_DEADLOCKS 0
      (λ i '(query, s), '(ret, query, s) ← OeStore_get (clk i) s query; Some (ret, (query, s)))
      (λ '(query, s), (OeStoreQuery_reset_nitems_found query, s)) 0 (get_query msg cmd, s);
  if negb (ret =? 0) && negb (ret =? OE_STORE_ITEM_NOTFOUND) then
    out ← _send_error context 105 OEK_STR_GET_FAILED; Some (s, [], out)
  else if (ret =? OE_STORE_ITEM_NOTFOUND) || (OeStoreQuery_get_nitems_found query =? 0) then
    out ← _geth_handle_no_results context query; Some (s, [], out)
  else
    out ← _geth_handle_result context query; Some (s, [], out).

(** ** Dispatch on the type of the command *)

Definition OEK_exec (s : S) (context : OEK_Context) : option k_result :=
  match OekMsg_get_type (cmd_msg context) with
  | GET_CMD => _geth s context
  | PUT_CMD => _sput s context
  | STA_CMD => _ssta s context
  | UPT_CMD => _supt s context
  | UPL_CMD => _supl s context
  | _ => None
  end.

(** ** Every command is answered once *)

Definition response_of (t : OEK_MSG_TYPE) : OEK_MSG_TYPE :=
  match t with
  | GET_CMD => GET_RES | PUT_CMD => PUT_RES | STA_CMD => STA_RES | UPT_CMD => UPT_RES | UPL_CMD => UPL_RES
  | _ => OEK_NON
  end.

(** A message that answers the command [c]: its correlation id, and its
    transaction id unless it reports a new one. *)
Definition replies (c m : OekMsg) (t : OEK_MSG_TYPE) : Prop :=
  mtype m = t ∧ msg_wf m ∧ OekMsg_get_cid m = OekMsg_get_cid c ∧
  (t ≠ STA_RES → OekMsg_get_tid m = OekMsg_get_tid c).

Definition answers (context : OEK_Context) (out : k_output) : Prop :=
  let c := cmd_msg context in
  match out with
  | K_write c' =>
    (∃ m, err_msg c' = Some m ∧ res_msgs c' = None ∧ replies c m OEK_ERR) ∨
    (∃ ms, err_msg c' = None ∧ res_msgs c' = Some ms ∧ ms ≠ [] ∧
           Forall (λ m, replies c m (response_of (mtype c))) ms)
  | K_free => False
  | K_register _ dur _ => mtype c = GET_CMD ∧ now < expire_time_ctx context
  end.

(** A context as the protocol hands it over. *)
Record fresh_context (context : OEK_Context) : Prop := {
  fc_wf : msg_wf (cmd_msg context);
  fc_cb : write_response_cb context = true;
  fc_res : res_msgs context = None;
  fc_err : err_msg context = None
}.

Lemma send_error_answers context errid str :
  fresh_context context → ∃ out, _send_error context errid str = Some out ∧ answers context out.
Proof.
  intros [_ Hcb Hr He]. eexists. split; [reflexivity|]. unfold _default_write_to_client. cbn [write_response_cb set_err].
  rewrite Hcb. left. eexists. split; [reflexivity|]. split; [exact Hr|done].
Qed.

Lemma write_answers context ms :
  fresh_context context → ms ≠ [] → Forall (λ m, replies (cmd_msg context) m (response_of (mtype (cmd_msg context)))) ms →
  answers context (_default_write_to_client (set_res context ms)).
Proof.
  intros [_ Hcb Hr He] Hne Hms. unfold _default_write_to_client. cbn [write_response_cb set_res]. rewrite Hcb.
  right. exists ms. split; [exact He|done].
Qed.

Lemma no_results_answers context cmd :
  fresh_context context → mtype (cmd_msg context) = GET_CMD → OekMsg_get_get_cmd (cmd_msg context) = Some cmd →
  ∃ out, _no_results context = Some out ∧ answers context out.
Proof.
  intros Hf Ht Hc. unfold _no_results. rewrite Hc. cbn. eexists. split; [reflexivity|].
  apply write_answers; [done|done|]. rewrite Ht. by repeat constructor.
Qed.

Lemma handle_result_replies cm cmd count rs msgs :
  Forall (λ m, replies cm m GET_RES) msgs →
  ∃ ms, handle_result_loop (OekMsg_get_cid cm) (OekMsg_get_tid cm) cmd count rs msgs = Some ms ∧
    Forall (λ m, replies cm m GET_RES) ms ∧ length ms = (length msgs + length rs)%nat.
Proof.
  revert msgs. induction rs as [|r rs IH]; intros msgs Hm; cbn [handle_result_loop].
  { eexists. split; [done|]. split; [done|cbn; lia]. }
  cbn [result_msg OekMsg_new OekMsg_settype OekMsg_get_get_res mbind option_bind].
  destruct (IH (Oec_AList_append msgs (Oec_AList_list [Some (set_data (OekMsg_set_tid (OekMsg_set_cid
      (mkOekMsg GET_RES 0 0 true (D_get_res GetRes_new)) (OekMsg_get_cid cm)) (OekMsg_get_tid cm))
      (D_get_res (let res := GetRes_set_nresults (GetRes_set_data GetRes_new (OeStoreHolder_get_data r)) count in
        let res := if GetCmd_is_tuple cmd then GetRes_set_tuple res else res in
        let res := if GetCmd_remove cmd then GetRes_set_destroyed res else res in
        let res := if GetCmd_return_attrs cmd then GetRes_set_return_attrs res else res in
        if GetCmd_return_bytes cmd then GetRes_set_return_bytes res else res))); None])))
    as (ms & E & H1 & H2).
  { rewrite (AList.append_app msgs). apply Forall_app. split; [done|]. by repeat constructor. }
  exists ms. split; [exact E|]. split; [done|]. rewrite H2, (AList.append_app msgs), length_app. cbn. lia.
Qed.

(** The operations of the store return. *)
Record ops_total : Prop := {
  ot_put s h : is_Some (OeStore_put s h);
  ot_get t s q : is_Some (OeStore_get t s q);
  ot_sta t s d : is_Some (OeStore_start_txn t s d);
  ot_upt t s o d st n : is_Some (OeStore_update_txn t s o d st n);
  ot_upl t s l x : is_Some (OeStore_update_lease t s l x)
}.

(** Loops whose attempts return return. *)
Lemma retry_total {X} fuel i step again ret (x : X) :
  (∀ i x, is_Some (step i x)) → ∃ r x', retry fuel i step again ret x = Some (r, x').
Proof.
  intros Hs. destruct (retry_inv (λ _, True) (λ _ _, True) fuel i step again ret x) as (r & x' & E & _); [|done|done|by eauto].
  intros j y _. destruct (Hs j y) as [[r y'] E]. exists r, y'. done.
Qed.

Lemma sput_answers s context :
  ops_total → fresh_context context → mtype (cmd_msg context) = PUT_CMD →
  ∃ s' evs out, _sput s context = Some (s', evs, out) ∧ answers context out.
Proof.
  intros T Hf Ht. unfold _sput. pose proof (fc_wf _ Hf) as Hw. unfold msg_wf in Hw. rewrite Ht in Hw.
  destruct (Messages.data (cmd_msg context)) eqn:Ed; try done.
  assert (OekMsg_get_put_cmd (cmd_msg context) = Some c) as Hc by (unfold OekMsg_get_put_cmd; by rewrite Ht, Ed).
  rewrite Hc. cbn [mbind option_bind].
  match goal with |- context [retry ?f ?i ?st ?ag ?r ?x] =>
    destruct (retry_total f i st ag r x) as (ret & [[h s'] evs] & ->) end.
  { intros j [[h s'] evs]. destruct (ot_put T s' h) as [[[[? ?] ?] ?] ->]. cbn. eauto. }
  cbn [mbind option_bind]. destruct (negb (ret =? 0)).
  - destruct (send_error_answers context 104 OEK_STR_CAN_NOT_STORE Hf) as (out & -> & Ha). cbn. eauto.
  - do 3 eexists. split; [reflexivity|]. apply write_answers; [done|done|]. rewrite Ht. by repeat constructor.
Qed.

Lemma ssta_answers s context :
  ops_total → fresh_context context → mtype (cmd_msg context) = STA_CMD →
  ∃ s' evs out, _ssta s context = Some (s', evs, out) ∧ answers context out.
Proof.
  intros T Hf Ht. unfold _ssta. pose proof (fc_wf _ Hf) as Hw. unfold msg_wf in Hw. rewrite Ht in Hw.
  destruct (Messages.data (cmd_msg context)) eqn:Ed; try done.
  assert (OekMsg_get_sta_cmd (cmd_msg context) = Some c) as Hc by (unfold OekMsg_get_sta_cmd; by rewrite Ht, Ed).
  rewrite Hc. cbn [mbind option_bind].
  match goal with |- context [retry ?f ?i ?st ?ag ?r ?x] =>
    destruct (retry_total f i st ag r x) as (ret & [x' s'] & ->) end.
  { intros j [x' s']. destruct (ot_sta T (clk j) s' (sta_duration c)) as [[[? ?] ?] ->]. cbn. eauto. }
  cbn [mbind option_bind]. destruct (negb (ret =? 0)).
  - destruct (send_error_answers context 109 OEK_STR_CAN_NOT_STA Hf) as (out & -> & Ha). cbn. eauto.
  - do 3 eexists. split; [reflexivity|]. apply write_answers; [done|done|]. rewrite Ht. by repeat constructor.
Qed.

Lemma supl_answers s context :
  ops_total → fresh_context context → mtype (cmd_msg context) = UPL_CMD →
  ∃ s' evs out, _supl s context = Some (s', evs, out) ∧ answers context out.
Proof.
  intros T Hf Ht. unfold _supl. pose proof (fc_wf _ Hf) as Hw. unfold msg_wf in Hw. rewrite Ht in Hw.
  destruct (Messages.data (cmd_msg context)) eqn:Ed; try done.
  assert (OekMsg_get_upl_cmd (cmd_msg context) = Some c) as Hc by (unfold OekMsg_get_upl_cmd; by rewrite Ht, Ed).
  rewrite Hc. cbn [mbind option_bind].
  match goal with |- context [retry ?f ?i ?st ?ag ?r ?x] =>
    destruct (retry_total f i st ag r x) as (ret & s' & ->) end.
  { intros j s'. apply (ot_upl T). }
  cbn [mbind option_bind]. destruct (ret =? OE_STORE_ITEM_NOTFOUND); [|destruct (negb (ret =? 0))].
  - destruct (send_error_answers context 108 OEK_STR_LEASE_NOT_FOUND Hf) as (out & -> & Ha). cbn. eauto.
  - destruct (send_error_answers context 111 OEK_STR_LEASE_UPDATE_FAILED Hf) as (out & -> & Ha). cbn. eauto.
  - do 3 eexists. split; [reflexivity|]. apply write_answers; [done|done|]. rewrite Ht. by repeat constructor.
Qed.

Lemma supt_answers s context :
  ops_total → fresh_context context → mtype (cmd_msg context) = UPT_CMD →
  ∃ s' evs out, _supt s context = Some (s', evs, out) ∧ answers context out.
Proof.
  intros T Hf Ht. unfold _supt. pose proof (fc_wf _ Hf) as Hw. unfold msg_wf in Hw. rewrite Ht in Hw.
  destruct (Messages.data (cmd_msg context)) eqn:Ed; try done.
  assert (OekMsg_get_upt_cmd (cmd_msg context) = Some c) as Hc by (unfold OekMsg_get_upt_cmd; by rewrite Ht, Ed).
  rewrite Hc. cbn [mbind option_bind].
  destruct (OekMsg_get_tid (cmd_msg context) =? 0).
  { destruct (send_error_answers context 116 OEK_STR_NULL_TXNID Hf) as (out & -> & Ha). cbn. eauto. }
  match goal with |- context [retry ?f ?i ?st ?ag ?r ?x] =>
    destruct (retry_total f i st ag r x) as (ret & [s' evs] & ->) end.
  { intros j [s' evs]. destruct (ot_upt T (clk j) s' (OekMsg_get_tid (cmd_msg context)) (upt_duration c)
      (_get_txn_status (upt_status c)) (upt_enlisted c)) as [[[? ?] ?] ->]. cbn. eauto. }
  cbn [mbind option_bind].
  destruct (ret =? OE_STORE_ITEM_NOTFOUND); [|destruct (ret =? OESTORE_ENLISTED_COUNT_INCORRECT);
    [|destruct (negb (ret =? 0))]].
  - destruct (send_error_answers context 106 OEK_STR_TXN_NOT_FOUND Hf) as (out & -> & Ha). cbn. eauto.
  - destruct (send_error_answers context 107 OEK_STR_WRONG_ENLISTED_COUNT_MSG Hf) as (out & -> & Ha). cbn. eauto.
  - destruct (send_error_answers context 107 (upt_error ret) Hf) as (out & -> & Ha). cbn. eauto.
  - do 3 eexists. split; [reflexivity|]. apply write_answers; [done|done|]. rewrite Ht. by repeat constructor.
Qed.

Lemma no_items_answers context cmd q :
  fresh_context context → mtype (cmd_msg context) = GET_CMD → OekMsg_get_get_cmd (cmd_msg context) = Some cmd →
  ∃ out, _geth_handle_no_results context q = Some out ∧ answers context out.
Proof.
  intros Hf Ht Hc. unfold _geth_handle_no_results. rewrite Hc. cbn [mbind option_bind].
  destruct (Z.leb_spec (expire_time_ctx context) now); [by eapply no_results_answers|].
  destruct (q_ifexists q && negb (q_exists q)); [by eapply no_results_answers|]. eexists. split; [done|]. by split.
Qed.

Lemma items_answers context cmd q :
  fresh_context context → mtype (cmd_msg context) = GET_CMD → OekMsg_get_get_cmd (cmd_msg context) = Some cmd →
  OeStoreQuery_get_nitems_found q ≠ 0 →
  ∃ out, _geth_handle_result context q = Some out ∧ answers context out.
Proof.
  intros Hf Ht Hc Hn. unfold _geth_handle_result. rewrite Hc. cbn [mbind option_bind].
  destruct (Z.eqb_spec (OeStoreQuery_get_nitems_found q) 0); [done|]. cbn [negb c_assert mbind option_bind].
  destruct (handle_result_replies (cmd_msg context) cmd (OeStoreQuery_get_nitems_found q) (q_results q) [])
    as (ms & E & Hr & Hl); [constructor|]. cbn [Oec_AList_list]. rewrite E. cbn [mbind option_bind].
  eexists. split; [done|]. apply write_answers; [done| |by rewrite Ht].
  intros ->. destruct (q_results q) eqn:Eq; [|done]. unfold OeStoreQuery_get_nitems_found in Hn. by rewrite Eq in Hn.
Qed.

Lemma geth_answers s context :
  ops_total → fresh_context context → mtype (cmd_msg context) = GET_CMD →
  ∃ s' evs out, _geth s context = Some (s', evs, out) ∧ answers context out.
Proof.
  intros T Hf Ht. unfold _geth. pose proof (fc_wf _ Hf) as Hw. unfold msg_wf in Hw. rewrite Ht in Hw.
  destruct (Messages.data (cmd_msg context)) eqn:Ed; try done.
  assert (OekMsg_get_get_cmd (cmd_msg context) = Some c) as Hc by (unfold OekMsg_get_get_cmd; by rewrite Ht, Ed).
  rewrite Hc. cbn [mbind option_bind].
  match goal with |- context [retry ?f ?i ?st ?ag ?r ?x] =>
    destruct (retry_total f i st ag r x) as (ret & [q s'] & ->) end.
  { intros j [q s']. destruct (ot_get T (clk j) s' q) as [[[? ?] ?] ->]. cbn. eauto. }
  cbn [mbind option_bind]. destruct (negb (ret =? 0) && negb (ret =? OE_STORE_ITEM_NOTFOUND)).
  { destruct (send_error_answers context 105 OEK_STR_GET_FAILED Hf) as (out & -> & Ha). cbn. eauto. }
  destruct ((ret =? OE_STORE_ITEM_NOTFOUND) || (OeStoreQuery_get_nitems_found q =? 0)) eqn:Ez.
  - destruct (no_items_answers context c q Hf Ht Hc) as (out & -> & Ha). cbn. eauto.
  - apply orb_false_iff in Ez as [_ Ez]. apply Z.eqb_neq in Ez.
    destruct (items_answers context c q Hf Ht Hc Ez) as (out & -> & Ha). cbn. eauto.
Qed.

(** C7  Every command is answered once.  For a store whose operations return,
    and whatever codes they return, executing a get, put, start, update or
    lease command returns, after at most 10000 attempts, and ends in exactly
    one of: an error message, a non-empty list of responses of the type that
    belongs to the command, or, for a get whose time is not up, a
    registration.  Every message carries the correlation id of the command
    and, but for a started transaction, its transaction id. *)
Theorem kernel_answers s context :
  ops_total → fresh_context context → response_of (mtype (cmd_msg context)) ≠ OEK_NON →
  ∃ s' evs out, OEK_exec s context = Some (s', evs, out) ∧ answers context out.
Proof.
  intros T Hf Hc. unfold OEK_exec, OekMsg_get_type. destruct (mtype (cmd_msg context)) eqn:Et; try done.
  - by apply ssta_answers.
  - by apply supt_answers.
  - by apply supl_answers.
  - by apply sput_answers.
  - by apply geth_answers.
Qed.

(** Renewing a lease for ever ends it: the kernel adds the duration to the
    clock without looking for the value that means for ever, so the lease
    it asks the store for is one millisecond in the past. *)
Theorem upl_forever_expires s context cmd s' ret :
  OekMsg_get_upl_cmd (cmd_msg context) = Some cmd → upl_duration cmd = Str.OEC_FOREVER →
  0 < now < 2 ^ 62 → OeStore_update_lease (clk 0) s (upl_lease_id cmd) (now - 1) = Some (ret, s') →
  ret = 0 → write_response_cb context = true →
  ∃ m, _supl s context = Some (s', [], K_write (set_res context [m])) ∧
    Messages.data m = D_upl_res (mkUplRes (now - 1)).
Proof.
  intros Hc Hd Hn Hs -> Hcb. unfold _supl. rewrite Hc. cbn [mbind option_bind].
  rewrite Hd. unfold Str.OEC_FOREVER.
  assert (wraps 64 (wrapu 64 (now + wrapu 64 (-1))) = now - 1) as ->.
  { change (wrapu 64 (-1)) with (2 ^ 64 - 1). unfold wrapu.
    replace (now + (2 ^ 64 - 1)) with (now - 1 + 1 * 2 ^ 64) by lia. rewrite Z_mod_plus_full.
    rewrite Z.mod_small, wraps_id by width. done. }
  change OEK_MAX_DB_DEADLOCKS with (Datatypes.S 9999). cbn [retry]. rewrite Hs. cbn [mbind option_bind].
  change (negb (0 =? OE_STORE_PLEASE_RETRY)) with true. cbn. unfold _default_write_to_client. cbn. rewrite Hcb.
  eexists. split; [reflexivity|done].
Qed.

End Kernel.

(** ** A store that answers everything *)

#[export] Instance answering_store : OeStoreOps Z := {|
  OeStore_put s h := Some (0, [], OeStoreHolder_set_lease_id h s, s + 1);
  OeStore_get _ s q := Some (OE_STORE_PLEASE_RETRY, q, s);
  OeStore_start_txn _ s _ := Some (0, mkTxn OESTORE_TXN_ACTIVE 0 0 0 s, s + 1);
  OeStore_update_txn _ s _ _ _ _ := Some (OESTORE_ENLISTED_COUNT_INCORRECT, [], s);
  OeStore_update_lease _ s _ _ := Some (0, s)
|}.

Lemma answering_total : ops_total (S := Z).
Proof. split; intros; cbn; eauto. Qed.

Definition a_get : OEK_Context :=
  mkContext 100 (mkOekMsg GET_CMD 7 3 true (D_get_cmd GetCmd_new)) true None None.
Definition a_upl : OEK_Context :=
  mkContext 100 (mkOekMsg UPL_CMD 7 3 true (D_upl_cmd (mkUplCmd 1001 Str.OEC_FOREVER))) true None None.

Lemma kernel_answers_witness :
  ∃ s' evs out, OEK_exec (λ _, (50, 50)) 50 1001 a_get = Some (s', evs, out) ∧ answers 50 a_get out.
Proof. apply (kernel_answers (λ _, (50, 50)) 50 1001 a_get); [apply answering_total|by split|done]. Defined.

Lemma upl_forever_expires_witness :
  ∃ m, _supl (λ _, (50, 50)) 50 1001 a_upl = Some (1001, [], K_write (set_res a_upl [m])) ∧
    Messages.data m = D_upl_res (mkUplRes 49).
Proof.
  apply (upl_forever_expires (λ _, (50, 50)) 50 1001 a_upl (mkUplCmd 1001 Str.OEC_FOREVER) 1001 0); (done || lia).
Defined.
