(* ===== verification/KernelStore.v ===== *)
(** * KernelStore: the kernel over the Berkeley DB store

    [OeStoreSpec] states what a store promises the kernel about each of its
    operations, in terms of the abstract store; [bdb_store_spec] discharges
    it for the Berkeley DB store.  Against it the kernel implements a tuple
    space: [served] says how a command may be answered and what the store is
    then, and [kernel_refines] that every execution of a command is one of
    these, through any number of retries. *)

From S2P Require Import Prelude Values Collections Messages StoreHolder BdbKeys Bdb BdbSpec BdbTxn MemDb Kernel.
Import AList DataObject DataObjectList.

(** ** What a store promises *)

(** [models fire s a]: the state [s] holds the items and transactions of [a],
    and fires write events if [fire].  [clk] is a pair of readings of the clock. *)
Class OeStoreSpec (S : Type) {ops : OeStoreOps S} := {
  models : bool → S → astore → Prop;
  put_models fire s a h d rc evs h' s' :
    models fire s a → holder_wf h d → (lock h = OESTORE_UNLOCKED ↔ StoreHolder.txn_id h = 0) →
    OeStore_put s h = Some (rc, evs, h', s') →
    h' = OeStoreHolder_set_lease_id h (lease_id h') ∧ in_u 64 (lease_id h') ∧
    if rc =? 0
    then a_items a !! lease_id h' = None ∧ models fire s' (add_item h' a) ∧
         (StoreHolder.txn_id h ≠ 0 → active a (StoreHolder.txn_id h)) ∧
         evs = (if fire && (StoreHolder.txn_id h =? 0) then [OeStoreHolder_get_data h] else [])
    else models fire s' a ∧ evs = [];
  get_models fire t s a q l rc q' s' :
    models fire s a → query_ok q l → l ≠ [] → OeStore_get t s q = Some (rc, q', s') →
    same_query q q' ∧
    (if rc =? 0
     then (∃ hs, hs ≠ [] ∧ found_in t.1 a q l (q_results q') hs) ∧
          Z.of_nat (length (q_results q')) ≤ Z.max (q_max_items q) 1 + Z.of_nat (length l) - 1 ∧
          (q_take q = true → NoDup (lease_id <$> q_results q') ∧ (q_owner_id q ≠ 0 → active a (q_owner_id q))) ∧
          models fire s' (if q_take q then taken q (q_results q') a else a)
     else models fire s' a) ∧
    (rc = OE_STORE_ITEM_NOTFOUND → q_take q = false → q_max_items q ≠ 0 →
       ∀ k h d, d ∈ l → a_items a !! k = Some h → amatch (q_is_tuple q) d h → ¬ visible t.1 h);
  sta_models fire t s a dur rc x s' :
    models fire s a → in_s 64 t.1 → OeStore_start_txn t s dur = Some (rc, x, s') →
    if rc =? 0
    then a_txns a !! tid x = None ∧ status x = OESTORE_TXN_ACTIVE ∧ 0 < tid x ∧
         expire_time x = (if dur =? Str.OEC_FOREVER then Str.OEC_FOREVER else i64 (t.1 + dur)) ∧
         models fire s' (add_txn x a)
    else models fire s' a;
  upt_models fire t s a o dur st n rc evs s' :
    models fire s a → narrow a → in_s 64 t.2 → OeStore_update_txn t s o dur st n = Some (rc, evs, s') →
    if rc =? 0
    then ∃ x, a_txns a !! o = Some x ∧
         (status x ≠ OESTORE_TXN_ACTIVE ∧ st = status x ∧ models fire s' a ∧ evs = [] ∨
          status x = OESTORE_TXN_ACTIVE ∧ ¬ expired t.1 x ∧
          models fire s' (add_txn (new_txn t.1 t.2 dur st o x) (settled st o a)) ∧
          (st = OESTORE_TXN_COMMITTED → n = -1 ∨ n = Z.of_nat (length (owned a o))) ∧
          evs ≡ₚ if fire then released st a o else [])
    else models fire s' a ∧ evs = [];
  upl_models fire t s a lid ex rc s' :
    models fire s a → in_s 64 ex → OeStore_update_lease t s lid ex = Some (rc, s') →
    if rc =? 0
    then ∃ h, a_items a !! lid = Some h ∧
         (lease_expire_time h = Str.OEC_FOREVER ∨ t.1 ≤ lease_expire_time h) ∧
         models fire s' (add_item (OeStoreHolder_set_lease_expire_time h ex) a)
    else models fire s' a
}.

(** ** The Berkeley DB store keeps the promise *)

Section BdbStore.
Context {B : BerkeleyDB} {BS : BerkeleyDBSpec B} (fuel : nat).

#[export] Instance bdb_ops : OeStoreOps OeBdb := {|
  OeStore_put b h := _api_put fuel b h;
  OeStore_get t b q := _api_get t.1 t.2 b q;
  OeStore_start_txn t b d := _start_txn fuel t.1 b d;
  OeStore_update_txn t b o d st n := _update_txn t.1 t.2 b o d st n;
  OeStore_update_lease t b l x := _update_lease t.1 b l x
|}.

Definition bdb_models (fire : bool) (b : OeBdb) (a : astore) : Prop :=
  state_ok b a ∧ ainv a ∧ fire_write_event b = fire.

Lemma bdb_get fire t b a q l rc q' b' :
  bdb_models fire b a → query_ok q l → l ≠ [] → _api_get t.1 t.2 b q = Some (rc, q', b') →
  same_query q q' ∧
  (if rc =? 0
   then (∃ hs, hs ≠ [] ∧ found_in t.1 a q l (q_results q') hs) ∧
        Z.of_nat (length (q_results q')) ≤ Z.max (q_max_items q) 1 + Z.of_nat (length l) - 1 ∧
        (q_take q = true → NoDup (lease_id <$> q_results q') ∧ (q_owner_id q ≠ 0 → active a (q_owner_id q))) ∧
        bdb_models fire b' (if q_take q then taken q (q_results q') a else a)
   else bdb_models fire b' a) ∧
  (rc = OE_STORE_ITEM_NOTFOUND → q_take q = false → q_max_items q ≠ 0 →
     ∀ k h d, d ∈ l → a_items a !! k = Some h → amatch (q_is_tuple q) d h → ¬ visible t.1 h).
Proof.
  intros (S & Hi & Hf) Hq Hne E.
  destruct (api_get_same t.1 t.2 b a q l rc q' b' S Hq E) as (Hs & Hf' & Hlim). split; [done|].
  rewrite Hf in Hf'. destruct (q_take q) eqn:Ht.
  - pose proof (api_take_ok t.1 t.2 b a q l S Hq Ht) as H. rewrite E in H. cbn [returns] in H.
    split; [|done]. destruct (rc =? 0); [|done]. destruct (H Hne) as (S' & Hnd & Ha & hs & Hh & Hfd & _).
    split; [by exists hs|]. split; [by apply Hlim|]. split; [done|]. split; [done|]. split; [|done].
    apply ainv_taken; [done..| |done]. by eapply handed_taken.
  - pose proof (api_get_read_ok t.1 t.2 b a q l S Hq Ht) as H. rewrite E in H. destruct H as (S' & H1 & H2).
    split; [|intros Hrc _ Hmax k h d Hd; specialize (H2 Hrc Hne); rewrite (proj2 (Z.eqb_neq _ _) Hmax), Forall_forall in H2;
      exact (H2 d ltac:(first [exact Hd|by apply list_elem_of_In]) k h)].
    destruct (Z.eqb_spec rc 0) as [->|]; [|done].
    destruct (H1 eq_refl Hne) as (Hr & Hfd & _). split; [by eexists|]. split; [by apply Hlim|done].
Qed.

#[export] Instance bdb_store_spec : OeStoreSpec OeBdb.
Proof.
  refine {| models := bdb_models; get_models := bdb_get |}.
  - intros fire s a h d rc evs h' s' (S & Hi & Hf) Hw Hl E. pose proof (put_fire _ _ _ _ _ _ _ E) as Hf'.
    destruct (api_put_sound fuel s a h d rc evs h' s' S Hw E) as (Eh & Hb & Hn & H). split; [done|]. split; [width|].
    rewrite Hf in Hf'. destruct (rc =? 0); [|by destruct H]. destruct H as (S' & Ha & ->).
    split; [done|]. split; [|split; [done|by rewrite Hf]].
    split_and!; [done| |done]. apply ainv_add_item; [done|rewrite Eh; exact Hl|rewrite Eh; exact Ha].
  - intros fire t s a dur rc x s' (S & Hi & Hf) Ht E. pose proof (start_fire _ _ _ _ _ _ _ E) as Hf'. rewrite Hf in Hf'.
    pose proof (start_txn_ok fuel t.1 s a dur rc x s' S Ht E) as H.
    destruct (rc =? 0); [|done]. destruct H as (S' & Hn & Ha & He & Hp). split_and!; [done..|].
    split_and!; [done|by apply ainv_add_txn|done].
  - intros fire t s a o dur st n rc evs s' (S & Hi & Hf) Hb Ht E. pose proof (update_fire _ _ _ _ _ _ _ _ _ _ E) as Hf'.
    rewrite Hf in Hf'. destruct (update_txn_narrow t.1 t.2 s a o dur st n S Hi Hb Ht) as (rc' & evs' & s'' & E' & H).
    cbn in E. rewrite E in E'. simplify_eq. destruct (rc' =? 0); [|by destruct H].
    destruct H as (x & Hx & [(? & ? & ? & ?)|U]); exists x; (split; [done|]); [by left|right].
    split; [apply U|]. split; [apply U|]. split; [|split; apply U]. split_and!; [apply U| |done].
    destruct (decide (st = OESTORE_TXN_ACTIVE)) as [->|]; [by apply ainv_add_txn|].
    pose proof (Hb _ _ Hx). apply ainv_settled; [done..|lia|done].
  - intros fire t s a lid ex rc s' (S & Hi & Hf) He E. pose proof (lease_fire _ _ _ _ _ _ E) as Hf'. rewrite Hf in Hf'.
    destruct (update_lease_ok t.1 s a lid ex S He) as (rc' & s'' & E' & H).
    cbn in E. rewrite E in E'. simplify_eq. destruct (rc' =? 0); [|done]. destruct H as (h & Hl & Ht & S').
    exists h. split_and!; [done..|]. split_and!; [done| |done].
    apply ainv_add_item; [done|by apply (ai_lock _ Hi _ _ Hl)|by apply (ai_owner _ Hi _ _ Hl)].
Defined.

End BdbStore.

(** ** Commands change the store as their responses say *)

Section Effects.
Context {S : Type} {ops : OeStoreOps S} {SP : OeStoreSpec S}.
Variables (clk : nat → Z * Z) (now : Z) (fire : bool).

(** *** Answers *)

Definition reply_msg (c : OEK_Context) (t : OEK_MSG_TYPE) (d : msg_data) : OekMsg :=
  mkOekMsg t (OekMsg_get_cid (cmd_msg c)) (OekMsg_get_tid (cmd_msg c)) true d.
Definition failed (c : OEK_Context) (e : Z * string) : k_output :=
  K_write (set_err c (reply_msg c OEK_ERR (D_err (mkOekErr e.1 (Some e.2))))).

Lemma send_error_failed c id text : fresh_context c → _send_error c id text = Some (failed c (id, text)).
Proof. intros Hf. unfold _send_error. cbn. unfold _default_write_to_client. cbn. by rewrite (fc_cb _ Hf). Qed.

(** Every error the kernel reports *)
Definition k_errors : list (Z * string) :=
  [(104, OEK_STR_CAN_NOT_STORE); (105, OEK_STR_GET_FAILED); (106, OEK_STR_TXN_NOT_FOUND);
   (107, OEK_STR_WRONG_ENLISTED_COUNT_MSG); (107, OEK_STR_TXN_ALREADY_COMMITTED);
   (107, OEK_STR_TXN_ALREADY_ROLLEDBACK); (107, OEK_STR_TXN_EXPIRED); (107, OEK_STR_TXN_UPDATE_FAILED);
   (108, OEK_STR_LEASE_NOT_FOUND); (109, OEK_STR_CAN_NOT_STA); (111, OEK_STR_LEASE_UPDATE_FAILED);
   (116, OEK_STR_NULL_TXNID)].

Definition none_res (cmd : GetCmd) : GetRes :=
  if GetCmd_remove cmd then GetRes_set_destroyed GetRes_new else GetRes_new.
Definition lease_end (cmd : UplCmd) : Z := i64 (u64 (now + u64 (upl_duration cmd))).
Definition status_res (cmd : UptCmd) : UptRes :=
  UptRes_set_status UptRes_new
    (match _get_txn_status (upt_status cmd) with
     | OESTORE_TXN_COMMITTED => OETXN_COMMITTED
     | OESTORE_TXN_ROLLED_BACK => OETXN_ROLLEDBACK
     | OESTORE_TXN_ACTIVE => OETXN_ACTIVE
     end).

(** A read found nothing: at one reading of the clock no item that matches
    was visible. *)
Definition nothing (a : astore) (cmd : GetCmd) : Prop :=
  GetCmd_remove cmd = false → get_max_responses cmd ≠ 0 →
  ∃ i, ∀ k h d, d ∈ GetCmd_get_data_objects cmd → a_items a !! k = Some h →
    amatch (GetCmd_is_tuple cmd) d h → ¬ visible (clk i).1 h.

(** *** The tuple space: what may be done with a command

    [served a c evs out a']: on the items and transactions [a] the command of
    [c] is answered with [out], leaves [a'] and fires the events [evs]. *)
Inductive served (a : astore) (c : OEK_Context) : list DataObject → k_output → astore → Prop :=
  | served_error e : e ∈ k_errors → served a c [] (failed c e) a
  | served_put cmd lid :
      OekMsg_get_put_cmd (cmd_msg c) = Some cmd → in_u 64 lid → a_items a !! lid = None →
      (OekMsg_get_tid (cmd_msg c) ≠ 0 → active a (OekMsg_get_tid (cmd_msg c))) →
      served a c (if fire && (OekMsg_get_tid (cmd_msg c) =? 0) then [PutCmd_get_data cmd] else [])
        (K_write (set_res c [reply_msg c PUT_RES (D_put_res (mkPutRes lid))]))
        (add_item (OeStoreHolder_set_lease_id (put_holder now (OekMsg_get_tid (cmd_msg c)) cmd) lid) a)
  | served_start cmd i x :
      OekMsg_get_sta_cmd (cmd_msg c) = Some cmd → a_txns a !! tid x = None → status x = OESTORE_TXN_ACTIVE →
      0 < tid x →
      expire_time x =
        (if sta_duration cmd =? Str.OEC_FOREVER then Str.OEC_FOREVER else i64 ((clk i).1 + sta_duration cmd)) →
      served a c []
        (K_write (set_res c [mkOekMsg STA_RES (OekMsg_get_cid (cmd_msg c)) (tid x) true (D_sta_res StaRes_new)]))
        (add_txn x a)
  | served_lease cmd h i :
      OekMsg_get_upl_cmd (cmd_msg c) = Some cmd → a_items a !! upl_lease_id cmd = Some h →
      lease_expire_time h = Str.OEC_FOREVER ∨ (clk i).1 ≤ lease_expire_time h →
      served a c [] (K_write (set_res c [reply_msg c UPL_RES (D_upl_res (mkUplRes (lease_end cmd)))]))
        (add_item (OeStoreHolder_set_lease_expire_time h (lease_end cmd)) a)
  | served_ended cmd x :
      OekMsg_get_upt_cmd (cmd_msg c) = Some cmd → a_txns a !! OekMsg_get_tid (cmd_msg c) = Some x →
      status x ≠ OESTORE_TXN_ACTIVE → status x = _get_txn_status (upt_status cmd) →
      served a c [] (K_write (set_res c [reply_msg c UPT_RES (D_upt_res (status_res cmd))])) a
  | served_update cmd x i evs (st := _get_txn_status (upt_status cmd)) (o := OekMsg_get_tid (cmd_msg c)) :
      OekMsg_get_upt_cmd (cmd_msg c) = Some cmd → a_txns a !! o = Some x →
      status x = OESTORE_TXN_ACTIVE → ¬ expired (clk i).1 x →
      (st = OESTORE_TXN_COMMITTED → upt_enlisted cmd = -1 ∨ upt_enlisted cmd = Z.of_nat (length (owned a o))) →
      evs ≡ₚ (if fire then released st a o else []) →
      served a c evs (K_write (set_res c [reply_msg c UPT_RES (D_upt_res (status_res cmd))]))
        (add_txn (new_txn (clk i).1 (clk i).2 (upt_duration cmd) st o x) (settled st o a))
  | served_get cmd i hs rs ms (q := get_query (cmd_msg c) cmd) (l := GetCmd_get_data_objects cmd) :
      OekMsg_get_get_cmd (cmd_msg c) = Some cmd → hs ≠ [] → found_in (clk i).1 a q l rs hs →
      Z.of_nat (length rs) ≤ Z.max (get_max_responses cmd) 1 + Z.of_nat (length l) - 1 →
      (GetCmd_remove cmd = true → NoDup (lease_id <$> rs) ∧
         (OekMsg_get_tid (cmd_msg c) ≠ 0 → active a (OekMsg_get_tid (cmd_msg c)))) →
      Forall2 (λ r m, result_msg (OekMsg_get_cid (cmd_msg c)) (OekMsg_get_tid (cmd_msg c)) cmd
                        (Z.of_nat (length rs)) r = Some m) rs ms →
      served a c [] (K_write (set_res c ms)) (if GetCmd_remove cmd then taken q rs a else a)
  | served_none cmd :
      OekMsg_get_get_cmd (cmd_msg c) = Some cmd → nothing a cmd →
      expire_time_ctx c ≤ now ∨ GetCmd_ifexists cmd = true →
      served a c [] (K_write (set_res c [reply_msg c GET_RES (D_get_res (none_res cmd))])) a
  | served_wait cmd :
      OekMsg_get_get_cmd (cmd_msg c) = Some cmd → nothing a cmd → now < expire_time_ctx c →
      served a c []
        (K_register (GetCmd_get_data_objects cmd) (i64 (expire_time_ctx c - now)) (GetCmd_remove cmd)) a.

(** What the store relies on: items it can write, and templates it can look up *)
Definition command_ok (c : OEK_Context) : Prop :=
  match Messages.data (cmd_msg c) with
  | D_put_cmd cmd => ∃ d, holder_wf (put_holder now (OekMsg_get_tid (cmd_msg c)) cmd) d
  | D_get_cmd cmd => GetCmd_get_data_objects cmd ≠ [] ∧ Forall template_ok (GetCmd_get_data_objects cmd) ∧
                     in_u 64 (OekMsg_get_tid (cmd_msg c))
  | _ => True
  end.

(** What a put that succeeded leaves *)
Definition put_done (a : astore) (h0 h : OeStoreHolder) (s : S) (evs : list DataObject) : Prop :=
  a_items a !! lease_id h = None ∧ models fire s (add_item h a) ∧
  (StoreHolder.txn_id h0 ≠ 0 → active a (StoreHolder.txn_id h0)) ∧
  evs = (if fire && (StoreHolder.txn_id h0 =? 0) then [OeStoreHolder_get_data h0] else []).

(** A put command is answered with the lease id of an item that the store
    now has and had not before, with the data, owner, lock and expiry time the
    command asks for; if it is answered with an error the store is as before.
    This holds through any number of retries. *)
Theorem kernel_put_effect s a context cmd d s' evs out :
  models fire s a → fresh_context context → OekMsg_get_put_cmd (cmd_msg context) = Some cmd →
  holder_wf (put_holder now (OekMsg_get_tid (cmd_msg context)) cmd) d →
  _sput now s context = Some (s', evs, out) →
  (∃ lid, out = K_write (set_res context [reply_msg context PUT_RES (D_put_res (mkPutRes lid))]) ∧
     in_u 64 lid ∧ a_items a !! lid = None ∧
     models fire s' (add_item (OeStoreHolder_set_lease_id (put_holder now (OekMsg_get_tid (cmd_msg context)) cmd) lid) a) ∧
     (OekMsg_get_tid (cmd_msg context) ≠ 0 → active a (OekMsg_get_tid (cmd_msg context))) ∧
     evs = (if fire && (OekMsg_get_tid (cmd_msg context) =? 0) then [PutCmd_get_data cmd] else [])) ∨
  (out = failed context (104, OEK_STR_CAN_NOT_STORE) ∧ models fire s' a ∧ evs = []).
Proof.
  intros M Hf Hc Hw. unfold _sput. rewrite Hc. cbn [mbind option_bind].
  set (h0 := put_holder now _ cmd) in *.
  match goal with |- context [retry ?f ?i ?st ?ag ?r ?x] => destruct (retry f i st ag r x) as [[ret [[h s1] evs1]]|] eqn:E end; [|done].
  assert ((∃ lid, in_u 64 lid ∧ h = OeStoreHolder_set_lease_id h0 lid) ∧
    if ret =? 0 then put_done a h0 h s1 evs1 else models fire s1 a ∧ evs1 = []) as [(lid & Hlid & Eh) Hr].
  { refine (retry_sound
      (λ x, (∃ lid, in_u 64 lid ∧ x.1.1 = OeStoreHolder_set_lease_id h0 lid) ∧ models fire x.1.2 a ∧ x.2 = [])
      (λ ret x, (∃ lid, in_u 64 lid ∧ x.1.1 = OeStoreHolder_set_lease_id h0 lid) ∧
         if ret =? 0 then put_done a h0 x.1.1 x.1.2 x.2 else models fire x.1.2 a ∧ x.2 = []) _ _ _ _ _ _ _ _ _ _ _ E).
    - intros i [[h1 s2] evs2] r [[h2 s3] evs3]; cbn. intros ((lid & Hlid & ->) & M2 & ->) Ep.
      destruct (OeStore_put s2 (OeStoreHolder_set_lease_id h0 lid)) as [[[[r' e'] h3] s4]|] eqn:Eq; [|done].
      cbn in Ep. simplify_eq.
      destruct (put_models fire s2 a (OeStoreHolder_set_lease_id h0 lid) d r evs3 h2 s3 M2) as (Eh & Hb & Hr); [| |done|].
      { unfold OeStoreHolder_set_lease_id. rewrite (hw_data _ _ Hw). by apply (holder_wf_meta h0); [|done|apply Hw..]. }
      { cbn. destruct (Z.eqb_spec (OekMsg_get_tid (cmd_msg context)) 0); split; congruence. }
      assert (h2 = OeStoreHolder_set_lease_id h0 (lease_id h2)) as Eh2 by (rewrite Eh at 1; done).
      split; [split; [by exists (lease_id h2)|]|].
      + destruct (r =? 0); [|by destruct Hr as [? ->]]. by destruct Hr as (? & ? & ? & ->).
      + intros ->. cbn in Hr. destruct Hr as [M3 ->]. split; (split; [exists (lease_id h2)|]); done.
    - split; [|done]. exists 0. split; [width|]. unfold h0, put_holder. reflexivity.
    - done. }
  subst h. cbn [mbind option_bind]. destruct (ret =? 0); cbn [negb].
  - intros [= <- <- <-]. left. unfold _default_write_to_client. cbn [write_response_cb set_res]. rewrite (fc_cb _ Hf).
    destruct Hr as (H1 & H2 & H3 & H4). exists lid. split; [reflexivity|]. split; [done|]. split; [done|].
    split; [exact H2|]. split; [exact H3|exact H4].
  - destruct Hr as [M1 ->]. rewrite (send_error_failed context _ _ Hf). intros [= <- <- <-]. by right.
Qed.

Hypothesis clk_ok : ∀ i, in_s 64 (clk i).1 ∧ in_s 64 (clk i).2.

Lemma errored c id text : fresh_context c → (id, text) ∈ k_errors → ∀ a,
  ∃ out, _send_error c id text = Some out ∧ served a c [] out a.
Proof. intros Hf He a. rewrite (send_error_failed _ _ _ Hf). eexists. split; [done|]. by constructor. Qed.

Lemma written c ms : fresh_context c → _default_write_to_client (set_res c ms) = K_write (set_res c ms).
Proof. intros Hf. unfold _default_write_to_client. cbn. by rewrite (fc_cb _ Hf). Qed.

Lemma sta_served s a c s' evs out :
  models fire s a → fresh_context c → _ssta clk s c = Some (s', evs, out) → ∃ a', models fire s' a' ∧ served a c evs out a'.
Proof.
  intros M Hf. unfold _ssta. destruct (OekMsg_get_sta_cmd _) as [cmd|] eqn:Hc; [|done]. cbn [mbind option_bind].
  match goal with |- context [retry ?f ?i ?st ?ag ?r ?x] => destruct (retry f i st ag r x) as [[ret [x1 s1]]|] eqn:E end; [|done].
  assert (if ret =? 0 then ∃ i, a_txns a !! tid x1 = None ∧ status x1 = OESTORE_TXN_ACTIVE ∧ 0 < tid x1 ∧
            expire_time x1 = (if sta_duration cmd =? Str.OEC_FOREVER then Str.OEC_FOREVER
                              else i64 ((clk i).1 + sta_duration cmd)) ∧ models fire s1 (add_txn x1 a)
          else models fire s1 a) as Hr.
  { refine (retry_sound (λ x, models fire x.2 a)
      (λ ret x, if ret =? 0 then ∃ i, a_txns a !! tid x.1 = None ∧ status x.1 = OESTORE_TXN_ACTIVE ∧ 0 < tid x.1 ∧
            expire_time x.1 = (if sta_duration cmd =? Str.OEC_FOREVER then Str.OEC_FOREVER
                              else i64 ((clk i).1 + sta_duration cmd)) ∧ models fire x.2 (add_txn x.1 a)
          else models fire x.2 a) _ _ _ _ _ _ _ _ _ _ _ E); [|exact M|done].
    intros i [x2 s2] r [x3 s3]; cbn. intros M2 Ep.
    destruct (OeStore_start_txn _ _ _) as [[[r' x'] s4]|] eqn:Eq; [|done]. cbn in Ep. simplify_eq.
    pose proof (sta_models fire (clk i) s2 a _ _ _ _ M2 (proj1 (clk_ok i)) Eq) as H. split; [|by intros ->].
    destruct (r =? 0); [|done]. by exists i. }
  cbn [mbind option_bind]. destruct (ret =? 0); cbn [negb].
  - destruct Hr as (i & H1 & H2 & H3 & H4 & H5). intros [= <- <- <-]. rewrite (written c) by done.
    eexists. split; [exact H5|]. by eapply served_start.
  - destruct (errored c 109 OEK_STR_CAN_NOT_STA Hf ltac:(by (repeat constructor)) a) as (out' & -> & Hs).
    intros [= <- <- <-]. exists a. split; [exact Hr|exact Hs].
Qed.

Lemma upl_served s a c s' evs out :
  models fire s a → fresh_context c → _supl clk now s c = Some (s', evs, out) → ∃ a', models fire s' a' ∧ served a c evs out a'.
Proof.
  intros M Hf. unfold _supl. destruct (OekMsg_get_upl_cmd _) as [cmd|] eqn:Hc; [|done]. cbn [mbind option_bind].
  fold (lease_end cmd).
  match goal with |- context [retry ?f ?i ?st ?ag ?r ?x] => destruct (retry f i st ag r x) as [[ret s1]|] eqn:E end; [|done].
  assert (if ret =? 0 then ∃ i h, a_items a !! upl_lease_id cmd = Some h ∧
            (lease_expire_time h = Str.OEC_FOREVER ∨ (clk i).1 ≤ lease_expire_time h) ∧
            models fire s1 (add_item (OeStoreHolder_set_lease_expire_time h (lease_end cmd)) a)
          else models fire s1 a) as Hr.
  { refine (retry_sound (λ x, models fire x a)
      (λ ret x, if ret =? 0 then ∃ i h, a_items a !! upl_lease_id cmd = Some h ∧
            (lease_expire_time h = Str.OEC_FOREVER ∨ (clk i).1 ≤ lease_expire_time h) ∧
            models fire x (add_item (OeStoreHolder_set_lease_expire_time h (lease_end cmd)) a)
          else models fire x a) _ _ _ _ _ _ _ _ _ _ _ E); [|exact M|done].
    intros i s2 r s3; cbn. intros M2 Eq.
    assert (in_s 64 (lease_end cmd)) as He by (by apply wraps_range).
    pose proof (upl_models fire (clk i) s2 a _ _ _ _ M2 He Eq) as H. split; [|by intros ->].
    destruct (r =? 0); [|done]. destruct H as (h & ? & ? & ?). by exists i, h. }
  cbn [mbind option_bind]. destruct (Z.eqb_spec ret OE_STORE_ITEM_NOTFOUND) as [->|].
  - destruct (errored c 108 OEK_STR_LEASE_NOT_FOUND Hf ltac:(by (repeat constructor)) a) as (out' & -> & Hs).
    intros [= <- <- <-]. exists a. split; [exact Hr|exact Hs].
  - destruct (ret =? 0); cbn [negb].
    + destruct Hr as (i & h & H1 & H2 & H3). intros [= <- <- <-]. rewrite (written c) by done.
      eexists. split; [exact H3|]. by eapply served_lease.
    + destruct (errored c 111 OEK_STR_LEASE_UPDATE_FAILED Hf ltac:(by (repeat constructor)) a) as (out' & -> & Hs).
      intros [= <- <- <-]. exists a. split; [exact Hr|exact Hs].
Qed.

(** What the attempts of an update leave *)
Definition update_done (a : astore) (c : OEK_Context) (cmd : UptCmd) (ret : Z) (x : S * list DataObject) : Prop :=
  let st := _get_txn_status (upt_status cmd) in
  let o := OekMsg_get_tid (cmd_msg c) in
  if ret =? 0
  then ∃ y, a_txns a !! o = Some y ∧
       (status y ≠ OESTORE_TXN_ACTIVE ∧ st = status y ∧ models fire x.1 a ∧ x.2 = [] ∨
        ∃ i, status y = OESTORE_TXN_ACTIVE ∧ ¬ expired (clk i).1 y ∧
          models fire x.1 (add_txn (new_txn (clk i).1 (clk i).2 (upt_duration cmd) st o y) (settled st o a)) ∧
          (st = OESTORE_TXN_COMMITTED → upt_enlisted cmd = -1 ∨ upt_enlisted cmd = Z.of_nat (length (owned a o))) ∧
          x.2 ≡ₚ if fire then released st a o else [])
  else models fire x.1 a ∧ x.2 = [].

Lemma upt_error_in ret : (107, upt_error ret) ∈ k_errors.
Proof. unfold upt_error. repeat case_match; by repeat constructor. Qed.

Lemma upt_served s a c s' evs out :
  models fire s a → narrow a → fresh_context c → _supt clk s c = Some (s', evs, out) →
  ∃ a', models fire s' a' ∧ served a c evs out a'.
Proof.
  intros M Hb Hf. unfold _supt. destruct (OekMsg_get_upt_cmd _) as [cmd|] eqn:Hc; [|done]. cbn [mbind option_bind].
  destruct (Z.eqb_spec (OekMsg_get_tid (cmd_msg c)) 0) as [H0|H0].
  { destruct (errored c 116 OEK_STR_NULL_TXNID Hf ltac:(by (repeat constructor)) a) as (out' & -> & Hs).
    intros [= <- <- <-]. by exists a. }
  match goal with |- context [retry ?f ?i ?st ?ag ?r ?x] => destruct (retry f i st ag r x) as [[ret [s1 evs1]]|] eqn:E end; [|done].
  assert (update_done a c cmd ret (s1, evs1)) as Hr.
  { refine (retry_sound (λ x, models fire x.1 a ∧ x.2 = []) (update_done a c cmd) _ _ _ _ _ _ _ _ _ _ _ E);
      [|by split|done].
    intros i [s2 evs2] r [s3 evs3]; cbn. intros [M2 ->] Ep.
    destruct (OeStore_update_txn _ _ _ _ _ _) as [[[r' e'] s4]|] eqn:Eq; [|done]. cbn in Ep. simplify_eq.
    pose proof (upt_models fire (clk i) s2 a _ _ _ _ _ _ _ M2 Hb (proj2 (clk_ok i)) Eq) as H. unfold update_done.
    split; [|by intros ->]. destruct (r =? 0); [|done]. destruct H as (x & Hx & H). exists x. split; [done|].
    destruct H as [?|?]; [by left|right; by exists i]. }
  assert (ret ≠ 0 → models fire s1 a ∧ evs1 = []) as Hn by (intros Hn; unfold update_done in Hr; by destruct (Z.eqb_spec ret 0)).
  cbn [mbind option_bind]. destruct (Z.eqb_spec ret OE_STORE_ITEM_NOTFOUND) as [->|].
  { destruct (errored c 106 OEK_STR_TXN_NOT_FOUND Hf ltac:(by (repeat constructor)) a) as (out' & -> & Hs).
    destruct (Hn ltac:(done)) as [? ->]. intros [= <- <- <-]. by exists a. }
  destruct (Z.eqb_spec ret OESTORE_ENLISTED_COUNT_INCORRECT) as [->|].
  { destruct (errored c 107 OEK_STR_WRONG_ENLISTED_COUNT_MSG Hf ltac:(by (repeat constructor)) a) as (out' & -> & Hs).
    destruct (Hn ltac:(done)) as [? ->]. intros [= <- <- <-]. by exists a. }
  destruct (Z.eqb_spec ret 0) as [->|]; cbn [negb].
  - intros [= <- <- <-]. rewrite (written c) by done. destruct Hr as (y & Hy & [(H1 & H2 & M1 & Hev)|(i & H1 & H2 & M1 & H4 & H5)]).
    + cbn in Hev. subst evs1. exists a. split; [done|]. by eapply served_ended.
    + eexists. split; [exact M1|]. by eapply served_update.
  - destruct (errored c 107 (upt_error ret) Hf (upt_error_in ret) a) as (out' & -> & Hs).
    destruct (Hn ltac:(done)) as [? ->]. intros [= <- <- <-]. by exists a.
Qed.

(** *** Gets *)

Lemma found_same t a q q' l rs hs : same_query q q' → found_in t a q' l rs hs → found_in t a q l rs hs.
Proof.
  intros Hs [Hrs Hin]. split; [|by destruct Hs as (_ & <- & _)].
  rewrite Hrs. apply list_fmap_ext. intros ? h _. by apply same_query_handed.
Qed.

Definition get_done (a : astore) (cmd : GetCmd) (q : OeStoreQuery) (ret : Z) (x : OeStoreQuery * S) : Prop :=
  let l := GetCmd_get_data_objects cmd in
  same_query q x.1 ∧
  (if ret =? 0
   then (∃ i hs, hs ≠ [] ∧ found_in (clk i).1 a q l (q_results x.1) hs) ∧
        Z.of_nat (length (q_results x.1)) ≤ Z.max (q_max_items q) 1 + Z.of_nat (length l) - 1 ∧
        (q_take q = true → NoDup (lease_id <$> q_results x.1) ∧ (q_owner_id q ≠ 0 → active a (q_owner_id q))) ∧
        models fire x.2 (if q_take q then taken q (q_results x.1) a else a)
   else models fire x.2 a) ∧
  (ret = OE_STORE_ITEM_NOTFOUND → nothing a cmd).

Lemma result_msgs cid txn cmd n rs : ∀ ms ms',
  handle_result_loop cid txn cmd n rs ms = Some ms' →
  ∃ ms1, ms' = ms ++ ms1 ∧ Forall2 (λ r m, result_msg cid txn cmd n r = Some m) rs ms1.
Proof.
  induction rs as [|r rs IH]; intros ms ms'; cbn [handle_result_loop].
  { intros [= <-]. exists []. by rewrite app_nil_r. }
  destruct (result_msg cid txn cmd n r) as [m|] eqn:Em; [|done]. cbn [mbind option_bind]. intros E.
  apply IH in E as (ms1 & -> & H). rewrite (AList.append_app ms). exists (m :: ms1). split; [by rewrite <-app_assoc|].
  by constructor.
Qed.

Lemma no_results_out c cmd : fresh_context c → OekMsg_get_get_cmd (cmd_msg c) = Some cmd →
  _no_results c = Some (K_write (set_res c [reply_msg c GET_RES (D_get_res (none_res cmd))])).
Proof.
  intros Hf Hc. unfold _no_results. rewrite Hc. cbn [mbind option_bind OekMsg_new OekMsg_settype OekMsg_get_get_res].
  rewrite <-(written c _ Hf). by unfold none_res; destruct (GetCmd_remove cmd).
Qed.

Lemma get_served s a c s' evs out :
  models fire s a → command_ok c → fresh_context c → _geth clk now s c = Some (s', evs, out) →
  ∃ a', models fire s' a' ∧ served a c evs out a'.
Proof.
  intros M Hok Hf. unfold _geth. destruct (OekMsg_get_get_cmd _) as [cmd|] eqn:Hc; [|done]. cbn [mbind option_bind].
  set (q := get_query _ cmd). set (l := GetCmd_get_data_objects cmd).
  assert (l ≠ [] ∧ query_ok q l) as [Hl Hq].
  { unfold command_ok in Hok. unfold OekMsg_get_get_cmd in Hc. destruct (mtype (cmd_msg c)); try done.
    destruct (Messages.data (cmd_msg c)); try done. injection Hc as ->. destruct Hok as (? & ? & ?). by split. }
  match goal with |- context [retry ?f ?i ?st ?ag ?r ?x] => destruct (retry f i st ag r x) as [[ret [q1 s1]]|] eqn:E end; [|done].
  assert (get_done a cmd q ret (q1, s1)) as (Hs & Hr & Hnone).
  { refine (retry_sound (λ x, (same_query q x.1 ∧ query_ok x.1 l) ∧ models fire x.2 a) (get_done a cmd q)
      _ _ _ _ _ _ _ _ _ _ _ E); [|split; [split; [by repeat split|done]|exact M]|done].
    intros i [q2 s2] r [q3 s3]; cbn. intros [[Hs2 Hq2] M2] Ep.
    destruct (OeStore_get _ _ _) as [[[r' q'] s4]|] eqn:Eq; [|done]. cbn in Ep. simplify_eq.
    destruct (get_models fire (clk i) s2 a q2 l r q3 s3 M2 Hq2 Hl Eq) as (Hs3 & H & Hn).
    pose proof (same_query_trans _ _ _ Hs2 Hs3) as Hs. pose proof Hs2 as (Et & Etu & Eo & _ & Em & _).
    rewrite Et, Etu, Eo, Em in *. unfold get_done. cbn. fold l. split.
    - split; [done|]. split; [|by intros -> Hrm Hmax; exists i; apply Hn].
      destruct (r =? 0); [|done]. destruct H as ((hs & Hh & Hfd) & Hlen & Hnd & M3).
      split; [exists i, hs; split; [done|exact (found_same _ _ _ _ _ _ _ Hs2 Hfd)]|]. split; [done|]. split; [done|].
      unfold taken in *. by rewrite Eo in M3.
    - intros ->. cbn in H. pose proof Hs as (Et' & Etu' & Eo' & Ev' & _).
      assert (same_query q (OeStoreQuery_reset_nitems_found q3)) as Hs' by exact Hs.
      split; [split; [split; [done|]|exact H]|by split].
      split; cbn; [by rewrite Ev'; apply Hq|apply Hq|done|by rewrite Eo'; apply Hq]. }
  cbn in Hs, Hr. fold l in Hr. cbn [mbind option_bind].
  destruct (Z.eqb_spec ret 0) as [->|Hn0]; cbn [negb andb].
  - destruct Hr as ((i & hs & Hh & Hfd) & Hlen & Hnd & M1). cbn [Z.eqb OE_STORE_ITEM_NOTFOUND orb].
    assert (q_results q1 ≠ []) as Hne by (destruct Hfd as [-> _]; by destruct hs).
    assert (OeStoreQuery_get_nitems_found q1 = Z.of_nat (length (q_results q1))) as En
      by (unfold OeStoreQuery_get_nitems_found; by rewrite AList.length_spec).
    rewrite En. destruct (Z.eqb_spec (Z.of_nat (length (q_results q1))) 0); [by destruct (q_results q1)|].
    cbn [orb]. change (0 =? OE_STORE_ITEM_NOTFOUND) with false. cbn [orb].
    unfold _geth_handle_result. rewrite Hc, En. cbn [mbind option_bind].
    destruct (c_assert _); [|done]. cbn [mbind option_bind]. destruct (handle_result_loop _ _ _ _ _ _) as [ms|] eqn:El; [|done].
    apply result_msgs in El as (ms1 & -> & Hms). intros [= <- <- <-]. rewrite (written c) by done.
    eexists. split; [exact M1|]. by apply (served_get a c cmd i hs (q_results q1) ms1).
  - destruct (Z.eqb_spec ret OE_STORE_ITEM_NOTFOUND) as [->|Hn1]; cbn [negb andb orb].
    + unfold _geth_handle_no_results. rewrite Hc. cbn [mbind option_bind]. specialize (Hnone eq_refl).
      assert (q_ifexists q1 = GetCmd_ifexists cmd) as -> by (destruct Hs as (_ & _ & _ & _ & _ & ->); done).
      pose proof (no_results_out c cmd Hf Hc) as Hnr.
      destruct (Z.leb_spec (expire_time_ctx c) now) as [|].
      { rewrite Hnr. intros [= <- <- <-]. exists a. split; [done|]. apply served_none; auto. }
      destruct (GetCmd_ifexists cmd) eqn:Ei; cbn [andb].
      * destruct (negb (q_exists q1)).
        { rewrite Hnr. intros [= <- <- <-]. exists a. split; [done|]. apply served_none; auto. }
        intros [= <- <- <-]. exists a. split; [done|]. by apply served_wait.
      * intros [= <- <- <-]. exists a. split; [done|]. by apply served_wait.
    + destruct (errored c 105 OEK_STR_GET_FAILED Hf ltac:(by (repeat constructor)) a) as (out' & -> & Hsv).
      intros [= <- <- <-]. exists a. split; [exact Hr|exact Hsv].
Qed.

Lemma exec_served s a c s' evs out :
  models fire s a → narrow a → command_ok c → fresh_context c → OEK_exec clk now s c = Some (s', evs, out) →
  ∃ a', models fire s' a' ∧ served a c evs out a'.
Proof.
  intros M Hb Hok Hf. unfold OEK_exec, OekMsg_get_type. destruct (mtype (cmd_msg c)) eqn:Et; try done.
  - by apply sta_served.
  - by apply upt_served.
  - by apply upl_served.
  - intros E. destruct (OekMsg_get_put_cmd (cmd_msg c)) as [cmd|] eqn:Hc; [|unfold _sput in E; by rewrite Hc in E].
    assert (∃ d, holder_wf (put_holder now (OekMsg_get_tid (cmd_msg c)) cmd) d) as [d Hw].
    { unfold command_ok in Hok. unfold OekMsg_get_put_cmd in Hc. rewrite Et in Hc.
      destruct (Messages.data (cmd_msg c)); try done. by injection Hc as ->. }
    destruct (kernel_put_effect s a c cmd d s' evs out M Hf Hc Hw E)
      as [(lid & -> & Hl & Hn & M' & Ha & ->)|(-> & M' & ->)].
    + eexists. split; [exact M'|]. by apply served_put.
    + exists a. split; [done|]. apply served_error. by repeat constructor.
  - by apply get_served.
Qed.

(** C8  The kernel implements the tuple space.  Whatever command it executes,
    on a store in any state that holds some items and transactions, what it
    answers, the events it fires and the items and transactions the store
    then holds are as [served] says: a put adds one item under the lease id
    it answers; a get answers with distinct visible items that match and, if
    it takes, removes them or locks them to its transaction; the end of a
    transaction settles exactly its items and fires an event for each one
    released; an error changes nothing; and a get waits only when it found
    nothing.  No retry leaves a trace. *)
Theorem kernel_refines s a c s' evs out :
  models fire s a → narrow a → command_ok c → fresh_context c → OEK_exec clk now s c = Some (s', evs, out) →
  ∃ a', models fire s' a' ∧ served a c evs out a'.
Proof. apply exec_served. Qed.

End Effects.

(** ** The kernel on the store in memory: a take of any job *)

Definition take_cmd : GetCmd :=
  GetCmd_set_return_attrs (GetCmd_set_tuple (GetCmd_set_remove_option (mkGetCmd 0 1 0 (Some [any_job])))) true.
Definition take_context : OEK_Context :=
  mkContext 100 (mkOekMsg GET_CMD 7 0 true (D_get_cmd take_cmd)) true None None.

#[export] Instance mem_store_spec : OeStoreSpec (OeBdb (B := memdb false)) (ops := bdb_ops 1) :=
  bdb_store_spec 1.

Definition take_run : option (k_result (S := OeBdb (B := memdb false))) :=
  OEK_exec (ST := bdb_ops 1) (λ _, (10, 11)) 10 free_store take_context.

(** The number of the messages it is answered with *)
Definition answered_with (r : option (k_result (S := OeBdb (B := memdb false)))) : option nat :=
  '(_, _, out) ← r; match out with K_write c => length <$> res_msgs c | _ => None end.
Lemma take_answered : answered_with take_run = Some 1%nat.
Proof. vm_compute. reflexivity. Qed.

Lemma kernel_refines_witness :
  ∃ s' evs out a', take_run = Some (s', evs, out) ∧ models (ops := bdb_ops 1) true s' a' ∧
    served (λ _, (10, 11)) 10 true (one_item OESTORE_UNLOCKED 0 OESTORE_TXN_ACTIVE) take_context evs out a'.
Proof.
  pose proof take_answered as Hn. destruct take_run as [[[s' evs] out]|] eqn:E; [|done].
  assert (∀ i : nat, in_s 64 ((λ _ : nat, (10, 11)) i).1 ∧ in_s 64 ((λ _ : nat, (10, 11)) i).2) as Hc
    by (intros i; cbn; split; width).
  destruct (kernel_refines (ops := bdb_ops 1) (λ _, (10, 11)) 10 true Hc free_store
    (one_item OESTORE_UNLOCKED 0 OESTORE_TXN_ACTIVE) take_context s' evs out) as (a' & M & Hs).
  - split_and!; [apply one_item_ok; width|by apply one_item_inv|done].
  - intros k x Hx. cbn in Hx. apply lookup_singleton_Some in Hx as [<- <-]. lia.
  - split; [done|]. split; [by repeat constructor|width].
  - by split.
  - exact E.
  - by exists s', evs, out, a'.
Defined.
