(* ===== verification/Dispatcher.v ===== *)
(** * Dispatcher: the template matcher

    Models [src/corelib/Oed_Dispatcher.c]: templates are registered with
    handlers, an event runs the handlers of the templates it matches and
    removes them, a timer runs the timeout handler.  Gets that found nothing
    wait here.

    Items, sets and groups are heap objects: [d_heap], [d_sets] and
    [d_groups] map addresses to live objects, and reading an address that was
    freed is [None].  The table of sets is the string-keyed table of
    [HashTable], the sets are its hash sets.  A set member is a pointer with
    the [sid] that [_itemcmp] and [_itemhash] read through it.  Running a
    callback appends it, with the [sid] of its item, to [d_calls]; callbacks
    hand their work to other threads and do not call the matcher back.

    The strings of a template belong to the caller: [d_freed] holds the ids of
    the templates whose strings the caller has released, and reading them is
    [None].  The table keeps the key it was given as a pointer: a [key_ref] is
    a string with the template it lies in, and a lookup reads the keys of a
    bucket up to the one it finds.

    Threads: callers push items and write a byte to a pipe, the matcher's one
    thread reads bytes and pops as many items.  What other threads and the
    matcher's thread do between two pushes of [Oed_Dispatcher_reg_group] is a
    list of [meanwhile].  Freeing an item that was never
    found and freeing events' copies are not observable. *)

From S2P Require Import Prelude Values HashTable Collections.
Import SKeyTable DataObject DataObjectList.

(** ** State *)

Inductive ITEM_TYPE := REG | UNREG | PROCESS | TQUIT | EXECUTE | TIMEOUT | HEARTBEAT | DIAG.

#[export] Instance item_type_eq : EqDecision ITEM_TYPE.
Proof. solve_decision. Defined.

(** Callbacks and their arguments are pointers.  [next] is the order of
    [d_que], [free_alloc] only says who frees an event, [dispatcher] is the one
    dispatcher; [run_on_timeout] and [key] are never read. *)
Record item_ := mkItem_ {
  itype : ITEM_TYPE;
  sid : Z;
  consume : bool;
  object : list string;
  match_handler : option Z;
  timeout_handler : option Z;
  args : Z;
  key_idx : nat;
  timer_event : bool;
  duration : Z;
  items : option Z;
  group : option Z
}.
Definition set_placed (i : item_) (s : Z) (k : nat) : item_ :=
  mkItem_ (itype i) (sid i) (consume i) (object i) (match_handler i) (timeout_handler i) (args i) k
    (timer_event i) (duration i) (Some s) (group i).
Definition set_group (i : item_) (g : option Z) : item_ :=
  mkItem_ (itype i) (sid i) (consume i) (object i) (match_handler i) (timeout_handler i) (args i) (key_idx i)
    (timer_event i) (duration i) (items i) g.
Definition set_mute (i : item_) : item_ :=
  mkItem_ (itype i) (sid i) (consume i) (object i) None None (args i) (key_idx i)
    (timer_event i) (duration i) (items i) (group i).
Definition set_timer (i : item_) : item_ :=
  mkItem_ (itype i) (sid i) (consume i) (object i) (match_handler i) (timeout_handler i) (args i) (key_idx i)
    true (duration i) (items i) (group i).

(** A pointer to an item, with what the set's functions read through it. *)
Record item_ref := mkRef { r_ptr : Z; r_sid : Z }.
Definition _itemcmp (x y : item_ref) : Z :=
  if r_sid x =? r_sid y then 0 else if r_sid x <? r_sid y then -1 else 1.
Definition _itemhash (x : item_ref) : Z := u32 (r_sid x).

#[export, refine] Instance ref_ops : KeyOps item_ref Z :=
  {| kcmp := _itemcmp; khash := _itemhash; kcls := r_sid |}.
Proof.
  - intros x y. unfold _itemcmp.
    destruct (Z.eqb_spec (r_sid x) (r_sid y)); [naive_solver|]. case_match; naive_solver.
  - intros x y E. unfold _itemhash. by rewrite E.
  - intros x. apply (wrapu_range 32). lia.
Defined.

(** A key as the table keeps it: a pointer to the string [k_str] of the
    template with id [k_own]. *)
Record key_ref := mkKey { k_str : string; k_own : Z }.

#[export, refine] Instance key_ops : KeyOps key_ref Z :=
  {| kcmp := λ x y, _stringcmp (k_str x) (k_str y);
     khash := λ x, _stringhash (k_str x);
     kcls := λ x, Str.oec_hash_string_key (k_str x) |}.
Proof.
  - intros x y. exact (kcmp_zero (k_str x) (k_str y)).
  - intros x y E. exact (khash_kcls (k_str x) (k_str y) E).
  - intros x. exact (khash_nonneg (k_str x)).
Defined.

Abbreviation item_set := (HSet.Set_T (A := item_ref)).
Abbreviation set_table := (ArenaTable.ArenaTable_T (K := key_ref) (V := Z)).

(** A callback that was run: the function, its argument, the item's id. *)
Record call := mkCall { c_fun : Z; c_arg : Z; c_sid : Z }.

Record dispatcher := mkDisp {
  d_heap : gmap Z item_;
  d_sets : gmap Z item_set;
  d_groups : gmap Z (list Z);
  d_items : set_table;
  d_next : Z;                (* the next address of the allocator *)
  next_unused_id : Z;
  d_que : list Z;
  que_size : Z;
  que_counter : Z;
  number_of_threads : Z;
  d_calls : list call;
  d_running : bool;          (* the event loop runs *)
  d_freed : gset Z           (* templates whose strings are released *)
}.
Definition upd_heap (f : gmap Z item_ → gmap Z item_) (d : dispatcher) : dispatcher :=
  mkDisp (f (d_heap d)) (d_sets d) (d_groups d) (d_items d) (d_next d) (next_unused_id d) (d_que d)
    (que_size d) (que_counter d) (number_of_threads d) (d_calls d) (d_running d) (d_freed d).
Definition upd_sets (f : gmap Z item_set → gmap Z item_set) (d : dispatcher) : dispatcher :=
  mkDisp (d_heap d) (f (d_sets d)) (d_groups d) (d_items d) (d_next d) (next_unused_id d) (d_que d)
    (que_size d) (que_counter d) (number_of_threads d) (d_calls d) (d_running d) (d_freed d).
Definition upd_groups (f : gmap Z (list Z) → gmap Z (list Z)) (d : dispatcher) : dispatcher :=
  mkDisp (d_heap d) (d_sets d) (f (d_groups d)) (d_items d) (d_next d) (next_unused_id d) (d_que d)
    (que_size d) (que_counter d) (number_of_threads d) (d_calls d) (d_running d) (d_freed d).
Definition upd_items (f : set_table → set_table) (d : dispatcher) : dispatcher :=
  mkDisp (d_heap d) (d_sets d) (d_groups d) (f (d_items d)) (d_next d) (next_unused_id d) (d_que d)
    (que_size d) (que_counter d) (number_of_threads d) (d_calls d) (d_running d) (d_freed d).
Definition upd_que (q : list Z) (size counter : Z) (d : dispatcher) : dispatcher :=
  mkDisp (d_heap d) (d_sets d) (d_groups d) (d_items d) (d_next d) (next_unused_id d) q
    size counter (number_of_threads d) (d_calls d) (d_running d) (d_freed d).
Definition upd_running (b : bool) (d : dispatcher) : dispatcher :=
  mkDisp (d_heap d) (d_sets d) (d_groups d) (d_items d) (d_next d) (next_unused_id d) (d_que d)
    (que_size d) (que_counter d) (number_of_threads d) (d_calls d) b (d_freed d).

(** The allocator: an address never used before. *)
Definition alloc (d : dispatcher) : Z * dispatcher :=
  (d_next d,
   mkDisp (d_heap d) (d_sets d) (d_groups d) (d_items d) (d_next d + 1) (next_unused_id d) (d_que d)
     (que_size d) (que_counter d) (number_of_threads d) (d_calls d) (d_running d) (d_freed d)).
Definition new_item (i : item_) (d : dispatcher) : Z * dispatcher :=
  let '(p, d) := alloc d in (p, upd_heap <[p := i]> d).

Definition _process_fun (fun_ arg sid : Z) (d : dispatcher) : dispatcher :=
  mkDisp (d_heap d) (d_sets d) (d_groups d) (d_items d) (d_next d) (next_unused_id d) (d_que d)
    (que_size d) (que_counter d) (number_of_threads d) (d_calls d ++ [mkCall fun_ arg sid]) (d_running d) (d_freed d).

Definition _gen_id (d : dispatcher) : Z * dispatcher :=
  (next_unused_id d,
   mkDisp (d_heap d) (d_sets d) (d_groups d) (d_items d) (d_next d) (u64 (next_unused_id d + 1)) (d_que d)
     (que_size d) (que_counter d) (number_of_threads d) (d_calls d) (d_running d) (d_freed d)).

Definition Oed_Dispatcher_new (threads : Z) : option dispatcher :=
  c_assert (threads <=? 1);;
  t ← ArenaTable.ArenaTable_new 1000;
  Some (mkDisp ∅ ∅ ∅ t 1 101 [] 0 0 threads [] false ∅).

(** ** Strings *)

(** The caller releases the strings of a template. *)
Definition release (sid : Z) (d : dispatcher) : dispatcher :=
  mkDisp (d_heap d) (d_sets d) (d_groups d) (d_items d) (d_next d) (next_unused_id d) (d_que d)
    (que_size d) (que_counter d) (number_of_threads d) (d_calls d) (d_running d) ({[sid]} ∪ d_freed d).

(** The strings of an item, when they are still there. *)
Definition template (it : item_) (d : dispatcher) : option (list string) :=
  if decide (sid it ∈ d_freed d) then None else Some (object it).

(** The table of sets: a lookup reads keys. *)
Definition key_live (d : dispatcher) (k : key_ref) : bool := bool_decide (k_own k ∉ d_freed d).
Definition Table_get (key : key_ref) (d : dispatcher) : option (option Z) :=
  if ArenaTable.table_reads (key_live d) (d_items d) key
  then Some (ArenaTable.ArenaTable_get (d_items d) key) else None.
Definition Table_put (key : key_ref) (s : Z) (d : dispatcher) : option dispatcher :=
  if ArenaTable.table_reads (key_live d) (d_items d) key
  then Some (upd_items (λ t, (ArenaTable.ArenaTable_put t key s).1) d) else None.
Definition Table_remove (key : key_ref) (d : dispatcher) : option (option Z * dispatcher) :=
  if ArenaTable.table_reads (key_live d) (d_items d) key
  then Some ((ArenaTable.ArenaTable_remove (d_items d) key).2,
             upd_items (λ t, (ArenaTable.ArenaTable_remove t key).1) d)
  else None.

(** ** Removing *)

(** [_remove_item] on an item with no group (lines 104 to 135). *)
Definition remove_ungrouped (p : Z) (timeout : bool) (d : dispatcher) : option dispatcher :=
  rm ← d_heap d !! p;
  match items rm with
  | None => Some d
  | Some s =>
    set ← d_sets d !! s;
    let '(set, found) := HSet.Set_remove set (mkRef p (sid rm)) in
    let d := upd_sets <[s := set]> d in
    match found with
    | None => Some d
    | Some ref =>
      item ← d_heap d !! r_ptr ref;
      let d := match timeout_handler item with
               | Some f => if timeout then _process_fun f (args item) (sid item) d else d
               | None => d
               end in
      let d := if p =? r_ptr ref then d else upd_heap (delete p) d in
      d ← (if (key_idx item =? 0)%nat then Some d
           else
             obj ← template item d;
             key ← obj !! key_idx item;
             if HSet.Set_length set <=? 0
             then '(_, d) ← Table_remove (mkKey key (sid item)) d; Some (upd_sets (delete s) d)
             else Some d);
      Some (upd_heap (delete (r_ptr ref)) d)
    end
  end.

(** The group's list is an array of pointers; [i] counts its entries. *)
Fixpoint remove_members (l : list Z) (i : nat) (timeout : bool) (d : dispatcher) : option dispatcher :=
  match l with
  | [] => Some d
  | p :: l =>
    gitem ← d_heap d !! p;
    let gitem := set_group gitem None in
    let gitem := if (0 <? i)%nat then set_mute gitem else gitem in
    d ← remove_ungrouped p timeout (upd_heap <[p := gitem]> d);
    remove_members l (S i) timeout d
  end.

Definition _remove_group (g : Z) (timeout : bool) (d : dispatcher) : option dispatcher :=
  l ← d_groups d !! g;
  d ← remove_members l 0 timeout d;
  Some (upd_groups (delete g) d).

Definition _remove_item (p : Z) (timeout : bool) (d : dispatcher) : option dispatcher :=
  rm ← d_heap d !! p;
  match group rm with
  | Some g => _remove_group g timeout d
  | None => remove_ungrouped p timeout d
  end.

(** ** Registering *)

(** The search for the least used key of the template [own]: the index and
    the set found so far. *)
Fixpoint choose_key (own : Z) (d : dispatcher) (l : list string) (i : nat) (best : option (nat * Z * Z))
    : option (dispatcher * option (nat * Z * Z)) :=
  match l with
  | [] => Some (d, best)
  | tmpkey :: l =>
    if bool_decide ("_" = tmpkey) then choose_key own d l (S i) best
    else
      found ← Table_get (mkKey tmpkey own) d;
      match found with
      | Some s =>
        set ← d_sets d !! s;
        let size := HSet.Set_length set in
        choose_key own d l (S i)
          (match best with
           | None => Some (i, size, s)
           | Some (_, set_size, _) => if size <? set_size then Some (i, size, s) else best
           end)
      | None =>
        set ← HSet.Set_new 10;
        let '(s, d) := alloc d in
        let d := upd_sets <[s := set]> d in
        d ← Table_put (mkKey tmpkey own) s d;
        Some (d, Some (i, 0, s))
      end
  end.

Definition _add_template (p : Z) (d : dispatcher) : option (Z * dispatcher) :=
  item ← d_heap d !! p;
  obj ← template item d;
  '(d, best) ← choose_key (sid item) d obj 0 None;
  match best with
  | None => Some (-1, d)
  | Some (k, _, s) =>
    set ← d_sets d !! s;
    let d := upd_heap <[p := set_placed item s k]> d in
    Some (0, upd_sets <[s := HSet.Set_put set (mkRef p (sid item))]> d)
  end.

Definition _watch_for_timeout (p : Z) (d : dispatcher) : option dispatcher :=
  item ← d_heap d !! p;
  if duration item =? Str.OEC_FOREVER then Some d
  else Some (upd_heap <[p := set_timer item]> d).

Definition _timeout_cb (p : Z) (d : dispatcher) : option dispatcher := _remove_item p true d.

(** ** Matching *)

(** Field [j] of the template is found among the event's fields but
    [key_idx]; a wildcard is found in any of them. *)
Fixpoint field_found (ev : list string) (k key_idx : nat) (tobj : string) : bool :=
  match ev with
  | [] => false
  | iobj :: ev =>
    if (k =? key_idx)%nat then field_found ev (S k) key_idx tobj
    else if bool_decide (iobj = tobj) then true
    else if bool_decide ("_" = tobj) then true
    else field_found ev (S k) key_idx tobj
  end.
Fixpoint template_matches (t : list string) (j titem_key_idx : nat) (ev : list string) (key_idx : nat) : bool :=
  match t with
  | [] => true
  | tobj :: t =>
    if (j =? titem_key_idx)%nat then template_matches t (S j) titem_key_idx ev key_idx
    else if field_found ev 0 key_idx tobj then template_matches t (S j) titem_key_idx ev key_idx
    else false
  end.

Fixpoint process_array (l : list item_ref) (ev : list string) (key_idx_ : nat) (d : dispatcher)
    : option (bool * dispatcher) :=
  match l with
  | [] => Some (false, d)
  | ref :: l =>
    titem ← d_heap d !! r_ptr ref;
    tobjs ← template titem d;
    if template_matches tobjs 0 (key_idx titem) ev key_idx_ then
      let d := match match_handler titem with
               | Some f => _process_fun f (args titem) (sid titem) d
               | None => d
               end in
      d ← _remove_item (r_ptr ref) false d;
      if consume titem then Some (true, d) else process_array l ev key_idx_ d
    else process_array l ev key_idx_ d
  end.

Definition _processSet (s : Z) (ev : list string) (key_idx : nat) (d : dispatcher)
    : option (bool * dispatcher) :=
  set ← d_sets d !! s;
  process_array (HSet.Set_toArray set) ev key_idx d.

(** [rest] are the event's fields from index [i] on; whose they are does not
    matter, since a lookup does not keep its key. *)
Fixpoint process_fields (rest : list string) (i : nat) (ev : list string) (d : dispatcher)
    : option dispatcher :=
  match rest with
  | [] => Some d
  | key :: rest =>
    found ← Table_get (mkKey key 0) d;
    match found with
    | None => process_fields rest (S i) ev d
    | Some s =>
      '(done, d) ← _processSet s ev i d;
      if (done : bool) then Some d else process_fields rest (S i) ev d
    end
  end.
Definition _process (ev : list string) (d : dispatcher) : option dispatcher := process_fields ev 0 ev d.

(** ** The work queue *)

(** [_free_items] visits every second entry of an array of keys and values
    up to the number of bindings. *)
Fixpoint free_sets (l : list (key_ref * Z)) (n : Z) (d : dispatcher) : option dispatcher :=
  match l with
  | [] => Some d
  | (key, _) :: l =>
    if n <=? 0 then Some d
    else
      c_assert (key_live d key);;
      '(titem, d) ← Table_remove key d;
      let d := match titem with Some s => upd_sets (delete s) d | None => d end in
      free_sets l (n - 2) d
  end.
Definition _free_items (d : dispatcher) : option dispatcher :=
  let sz := ArenaTable.ArenaTable_length (d_items d) in
  if 0 <? sz then free_sets (ArenaTable.ArenaTable_toArray (d_items d)) sz d else Some d.

(** An item with everything but its type and id zeroed, as [Mem_calloc]
    leaves it. *)
Definition blank (t : ITEM_TYPE) (sid : Z) : item_ := mkItem_ t sid false [] None None 0 0 false 0 None None.

Definition _schedule_heartbeat (d : dispatcher) : dispatcher :=
  let '(sid, d) := _gen_id d in (new_item (set_timer (blank HEARTBEAT sid)) d).2.

Definition _process_que_item (p : Z) (d : dispatcher) : option dispatcher :=
  item ← d_heap d !! p;
  match itype item with
  | REG => '(_, d) ← _add_template p d; _watch_for_timeout p d
  | UNREG => _remove_item p false d
  | PROCESS => d ← _process (object item) d; Some (upd_heap (delete p) d)
  | EXECUTE =>
    let d := match match_handler item with
             | Some f => _process_fun f (args item) (sid item) d
             | None => d
             end in
    Some (upd_heap (delete p) d)
  | HEARTBEAT => Some (_schedule_heartbeat (upd_heap (delete p) d))
  | DIAG => Some (upd_heap (delete p) d)
  | TQUIT => _free_items (upd_running false (upd_heap (delete p) d))
  | TIMEOUT => None (* assert(0) *)
  end.

Definition _que_push (p : Z) (d : dispatcher) : dispatcher :=
  upd_que (d_que d ++ [p]) (que_size d + 1) (que_counter d + 1) d.

(** The size is decremented whether or not there was an item. *)
Definition _que_pop (d : dispatcher) : option Z * dispatcher :=
  match d_que d with
  | [] => (None, upd_que [] (que_size d - 1) (que_counter d) d)
  | p :: q => (Some p, upd_que q (que_size d - 1) (que_counter d) d)
  end.

Definition _schedule_item (p : Z) (d : dispatcher) : option dispatcher :=
  if 0 <? number_of_threads d then Some (_que_push p d)
  else d ← _process_que_item p d; Some (upd_que (d_que d) (que_size d) (que_counter d + 1) d).

(** [event_count] items are popped for as many bytes read. *)
Fixpoint _process_que (event_count : nat) (d : dispatcher) : option dispatcher :=
  match event_count with
  | O => Some d
  | S n =>
    let '(p, d) := _que_pop d in
    d ← match p with Some p => _process_que_item p d | None => Some d end;
    _process_que n d
  end.

(** ** The interface *)

Definition _create_reg_item (templ : list string) (dur : Z) (consume : bool) (mh th : option Z) (arg : Z)
    (d : dispatcher) : Z * Z * dispatcher :=
  let '(sid, d) := _gen_id d in
  let '(p, d) := new_item (mkItem_ REG sid consume templ mh th arg 0 false dur None None) d in
  (p, sid, d).

Definition Oed_Dispatcher_reg (templ : DataObject) (dur : Z) (consume : bool) (mh th : option Z) (arg : Z)
    (d : dispatcher) : option (Z * dispatcher) :=
  let '(p, sid, d) := _create_reg_item (strings templ) dur consume mh th arg d in
  d ← _schedule_item p d; Some (sid, d).

(** The items of a group are all created before the first is scheduled. *)
Fixpoint create_group (all : list DataObject) (dur : Z) (consume : bool) (mh th : option Z) (arg : Z)
    (sid : Z) (group : list Z) (d : dispatcher) : Z * list Z * dispatcher :=
  match all with
  | [] => (sid, group, d)
  | o :: all =>
    let '(p, sid, d) := _create_reg_item (strings o) dur consume mh th arg d in
    create_group all dur consume mh th arg sid (group ++ [p]) d
  end.
Definition Oed_Dispatcher_unreg (sid : Z) (d : dispatcher) : option dispatcher :=
  let '(p, d) := new_item (blank UNREG sid) d in _schedule_item p d.

Definition event_item (sid : Z) (l : list string) : item_ :=
  mkItem_ PROCESS sid false l None None 0 0 false 0 None None.
Definition Oed_Dispatcher_process (props : DataObject) (d : dispatcher) : option dispatcher :=
  let '(sid, d) := _gen_id d in
  let '(p, d) := new_item (event_item sid (strings props)) d in _schedule_item p d.

(** The items of a group are scheduled one by one.  The loop reads the length
    of the group's list again before each; [between] is what happens after
    each push: events of other callers, turns of the matcher's thread and its
    timers. *)
Inductive meanwhile := M_process (props : DataObject) | M_que (n : nat) | M_timer (p : Z).
Fixpoint run_meanwhile (l : list meanwhile) (d : dispatcher) : option dispatcher :=
  match l with
  | [] => Some d
  | m :: l =>
    d ← match m with
        | M_process props => Oed_Dispatcher_process props d
        | M_que n => _process_que n d
        | M_timer p => _timeout_cb p d
        end;
    run_meanwhile l d
  end.
Fixpoint schedule_group (g : Z) (l : list Z) (between : list (list meanwhile)) (d : dispatcher) : option dispatcher :=
  match l with
  | [] => Some d
  | p :: l =>
    item ← d_heap d !! p;
    d ← _schedule_item p (upd_heap <[p := set_group item (Some g)]> d);
    d ← run_meanwhile (default [] (head between)) d;
    _ ← d_groups d !! g;
    schedule_group g l (tail between) d
  end.
Definition Oed_Dispatcher_reg_group (all : DataObjectList) (dur : Z) (consume : bool) (mh th : option Z)
    (arg : Z) (between : list (list meanwhile)) (d : dispatcher) : option (Z * dispatcher) :=
  let '(sid, l, d) := create_group all dur consume mh th arg 0 [] d in
  let '(g, d) := alloc d in
  d ← schedule_group g l between (upd_groups <[g := l]> d);
  Some (sid, d).

Definition Oed_Dispatcher_exec (f arg : Z) (d : dispatcher) : option dispatcher :=
  let '(p, d) := new_item (mkItem_ EXECUTE 0 false [] (Some f) None arg 0 false 0 None None) d in
  _schedule_item p d.

Definition Oed_Dispatcher_print_diag (d : dispatcher) : option dispatcher :=
  let '(sid, d) := _gen_id d in
  let '(p, d) := new_item (blank DIAG sid) d in _schedule_item p d.

Definition Oed_Dispatcher_stop (d : dispatcher) : option dispatcher :=
  let '(sid, d) := _gen_id d in
  let '(p, d) := new_item (blank TQUIT sid) d in
  if 0 <? number_of_threads d then Some (_que_push p d) else _process_que_item p d.

(** The matcher's thread up to its event loop, whose callbacks are
    [_process_que], [_timeout_cb] and [_heartbeat_cb]. *)
Definition _do_work (d : dispatcher) : dispatcher := upd_running true (_schedule_heartbeat d).

Definition _heartbeat_cb (p : Z) (d : dispatcher) : option dispatcher := _schedule_item p d.

(** ** Invariant *)

Abbreviation hash_key := Str.oec_hash_string_key.

(** Where item [p] is: in the set [s], under one of its fields. *)
Definition placed (d : dispatcher) (p : Z) (it : item_) (s : Z) : Prop :=
  ∃ set key, d_sets d !! s = Some set ∧ HSet.smap set !! sid it = Some (mkRef p (sid it)) ∧
    object it !! key_idx it = Some key ∧ key ≠ "_" ∧
    ArenaTable.tmap (d_items d) !! hash_key key = Some s.

(** The table, the sets and the items agree. *)
Record core_ok (d : dispatcher) : Prop := {
  ck_table : ArenaTable.table_wf (d_items d);
  ck_sets c s : ArenaTable.tmap (d_items d) !! c = Some s → is_Some (d_sets d !! s);
  ck_inj c c' s : ArenaTable.tmap (d_items d) !! c = Some s → ArenaTable.tmap (d_items d) !! c' = Some s → c = c';
  ck_wf s set : d_sets d !! s = Some set → HSet.set_wf set;
  ck_member s set i r :
    d_sets d !! s = Some set → HSet.smap set !! i = Some r →
    ∃ it, d_heap d !! r_ptr r = Some it ∧ sid it = r_sid r ∧ items it = Some s ∧ itype it = REG;
  ck_placed p it s : d_heap d !! p = Some it → items it = Some s → placed d p it s;
  ck_sid p p' it it' :
    d_heap d !! p = Some it → d_heap d !! p' = Some it' → itype it = REG → itype it' = REG →
    sid it = sid it' → p = p';
  ck_ids p it : d_heap d !! p = Some it → itype it = REG → sid it < next_unused_id d;
  ck_next : (∀ p, is_Some (d_heap d !! p) → p < d_next d) ∧ (∀ s, is_Some (d_sets d !! s) → s < d_next d);
  ck_other p it : d_heap d !! p = Some it → itype it ≠ REG → items it = None ∧ group it = None;
  ck_keys k : k ∈ ArenaTable.table_keys (d_items d) → k_own k ∉ d_freed d;
  ck_live p it : d_heap d !! p = Some it → itype it = REG → sid it ∉ d_freed d;
  ck_freed i : i ∈ d_freed d → i < next_unused_id d
}.

(** The strings that are read are there. *)
Lemma template_live d p it :
  core_ok d → d_heap d !! p = Some it → itype it = REG → template it d = Some (object it).
Proof. intros H Hp Ht. unfold template. rewrite decide_False; [done|]. by eapply ck_live. Qed.
Lemma reads_live d key : core_ok d → ArenaTable.table_reads (key_live d) (d_items d) key = true.
Proof.
  intros H. apply ArenaTable.table_reads_all; [apply H|]. intros k Hk. apply bool_decide_eq_true. by eapply ck_keys.
Qed.
Lemma Table_get_live d key own :
  core_ok d → Table_get (mkKey key own) d = Some (ArenaTable.tmap (d_items d) !! hash_key key).
Proof. intros H. unfold Table_get. rewrite reads_live by done. by rewrite ArenaTable.table_get_spec by apply H. Qed.

(** The parts of the state that handling templates leaves alone. *)
Definition same_rest (d d' : dispatcher) : Prop :=
  d_que d' = d_que d ∧ next_unused_id d' = next_unused_id d ∧ number_of_threads d' = number_of_threads d ∧
  (d_running d' = d_running d ∧ d_freed d' = d_freed d) ∧ que_size d' = que_size d ∧ que_counter d' = que_counter d ∧ d_next d ≤ d_next d'.

Lemma same_rest_refl d : same_rest d d.
Proof. repeat split; lia. Qed.
Lemma same_rest_trans d1 d2 d3 : same_rest d1 d2 → same_rest d2 d3 → same_rest d1 d3.
Proof. unfold same_rest. intuition (congruence || lia). Qed.

#[export] Hint Resolve same_rest_refl : oes.

Definition timeout_calls (timeout : bool) (it : item_) : list call :=
  match timeout_handler it with
  | Some f => if timeout then [mkCall f (args it) (sid it)] else []
  | None => []
  end.

Lemma set_length_zero (set : item_set) : HSet.set_wf set → HSet.Set_length set <= 0 → HSet.smap set = ∅.
Proof.
  intros Hw Hl. unfold HSet.Set_length in Hl. rewrite (HSet.sw_length _ Hw) in Hl.
  unfold HSet.smap, bmap. destruct (concat (HSet.buckets set)) eqn:E; [|cbn in Hl; lia].
  reflexivity.
Qed.

Lemma ref_cls (set : item_set) i r : HSet.set_wf set → HSet.smap set !! i = Some r → r_sid r = i.
Proof. intros Hw Hr. exact (HSet.smap_cls set i r Hw Hr). Qed.

(** Taking item [p] out of its set keeps the rest consistent. *)
Lemma core_take_out d p it s set set' :
  core_ok d → d_heap d !! p = Some it → items it = Some s → d_sets d !! s = Some set →
  HSet.set_wf set' → HSet.smap set' = delete (sid it) (HSet.smap set) →
  core_ok (upd_heap (delete p) (upd_sets <[s := set']> d)).
Proof.
  intros H Hp Hs Hset Hw Hm. split; cbn.
  - apply H.
  - intros c s' E. destruct (decide (s' = s)) as [->|]; simplify_map_eq; [eauto|by eapply ck_sets].
  - eapply ck_inj; eauto.
  - intros s' set1. rewrite lookup_insert_Some. intros [[<- <-]|[_ E]]; [done|by eapply ck_wf].
  - intros s' set1 i r. rewrite lookup_insert_Some. intros [[<- <-]|[Hne E]] Hr.
    + rewrite Hm in Hr. apply lookup_delete_Some in Hr as [Hi Hr].
      destruct (ck_member d H s set i r Hset Hr) as (it' & E1 & E2 & E3 & E4).
      exists it'. rewrite lookup_delete_ne; [done|]. intros Ep. rewrite <-Ep in E1.
      assert (it' = it) as -> by congruence. apply Hi. rewrite E2.
      eapply ref_cls; [by eapply ck_wf|done].
    + destruct (ck_member d H s' set1 i r E Hr) as (it' & E1 & E2 & E3 & E4).
      exists it'. rewrite lookup_delete_ne; [done|]. intros Ep. rewrite <-Ep in E1. congruence.
  - intros q it' s' [Hne Hq]%lookup_delete_Some Hs'.
    destruct (ck_placed d H q it' s' Hq Hs') as (set1 & key & E1 & E2 & E3 & E4 & E5).
    destruct (decide (s' = s)) as [->|].
    + assert (set1 = set) as -> by congruence. exists set', key. cbn. simplify_map_eq. split_and!; try done.
      rewrite Hm, lookup_delete_ne; [done|]. intros Heq.
      destruct (ck_member d H s set _ _ Hset E2) as (i1 & F1 & F2 & F3 & F4). cbn in *.
      destruct (ck_placed d H p it s Hp Hs) as (set2 & k2 & G1 & G2 & _).
      assert (set2 = set) as -> by congruence. rewrite <-Heq in E2. rewrite G2 in E2. congruence.
    + exists set1, key. cbn. by rewrite lookup_insert_ne.
  - intros q q' it1 it2 [_ E1]%lookup_delete_Some [_ E2]%lookup_delete_Some. by eapply ck_sid.
  - intros q it1 [_ E1]%lookup_delete_Some. by eapply ck_ids.
  - destruct (ck_next d H) as [N1 N2]. split.
    + intros q [i [_ E]%lookup_delete_Some]. eauto.
    + intros s' [x E]. apply lookup_insert_Some in E as [[<- <-]|[_ E]]; eauto.
  - intros q it1 [_ E1]%lookup_delete_Some. by eapply ck_other.
  - apply H.
  - intros q it1 [_ E1]%lookup_delete_Some. by eapply ck_live.
  - apply H.
Qed.

(** Dropping an empty set together with its key. *)
Lemma core_drop_set d s set key :
  core_ok d → d_sets d !! s = Some set → HSet.smap set = ∅ →
  ArenaTable.tmap (d_items d) !! hash_key (k_str key) = Some s →
  core_ok (upd_sets (delete s) (upd_items (λ t, (ArenaTable.ArenaTable_remove t key).1) d)).
Proof.
  intros H Hset Hm Hk. destruct (ArenaTable.remove_spec (d_items d) key (ck_table d H)) as (Hw & Ht & _).
  change (kcls key) with (hash_key (k_str key)) in Ht. split; cbn.
  - done.
  - intros c s'. rewrite Ht. intros [Hc E]%lookup_delete_Some.
    rewrite lookup_delete_ne; [by eapply ck_sets|]. intros <-. apply Hc. by eapply (ck_inj d H).
  - intros c c' s'. rewrite Ht. intros [_ E]%lookup_delete_Some [_ E']%lookup_delete_Some.
    by eapply (ck_inj d H).
  - intros s' set1 [_ E]%lookup_delete_Some. by eapply ck_wf.
  - intros s' set1 i r [_ E]%lookup_delete_Some. by eapply (ck_member d H).
  - intros p it s' Hp Hs. destruct (ck_placed d H p it s' Hp Hs) as (set1 & k1 & E1 & E2 & E3 & E4 & E5).
    assert (s' ≠ s) as Hne by (intros ->; rewrite Hset in E1; simplify_eq; by rewrite Hm in E2).
    exists set1, k1. cbn. rewrite Ht. rewrite lookup_delete_ne by done. split_and!; try done.
    rewrite lookup_delete_ne; [done|]. intros E. rewrite E in Hk. congruence.
  - eapply (ck_sid d H).
  - eapply (ck_ids d H).
  - destruct (ck_next d H) as [N1 N2]. split; [done|]. intros s' [x [_ E]%lookup_delete_Some]. eauto.
  - eapply (ck_other d H).
  - intros k Hk'. apply (ck_keys d H). by apply ArenaTable.remove_keys in Hk'; [|apply H].
  - apply (ck_live d H).
  - apply H.
Qed.

Lemma core_calls d d' :
  d_heap d' = d_heap d → d_sets d' = d_sets d → d_items d' = d_items d → d_next d' = d_next d →
  next_unused_id d' = next_unused_id d → d_freed d' = d_freed d → core_ok d → core_ok d'.
Proof.
  intros E1 E2 E3 E4 E5 E6 []. unfold placed in *. split; rewrite ?E1, ?E2, ?E3, ?E4, ?E5, ?E6; try done.
  intros p it s Hp Hs. unfold placed. rewrite ?E2, ?E3. eauto.
Qed.

Lemma remove_ungrouped_ok d p it timeout :
  core_ok d → d_heap d !! p = Some it →
  match items it with
  | None => remove_ungrouped p timeout d = Some d
  | Some _ => ∃ d', remove_ungrouped p timeout d = Some d' ∧ core_ok d' ∧ same_rest d d' ∧
      d_groups d' = d_groups d ∧ d_heap d' = delete p (d_heap d) ∧
      d_calls d' = d_calls d ++ timeout_calls timeout it
  end.
Proof.
  intros H Hp. unfold remove_ungrouped. rewrite Hp. cbn. destruct (items it) as [s|] eqn:Hs; [|done].
  destruct (ck_placed d H p it s Hp Hs) as (set & key & E1 & E2 & E3 & E4 & E5). rewrite E1. cbn.
  destruct (HSet.set_remove_spec set (mkRef p (sid it)) (ck_wf d H s set E1)) as (Hw & Hm & Hr).
  destruct (HSet.Set_remove set (mkRef p (sid it))) as [set' found]. cbn in Hw, Hm, Hr.
  rewrite E2 in Hr. subst found. cbn. rewrite Hp. cbn. rewrite Z.eqb_refl.
  set (d1 := match timeout_handler it with Some f => _ | None => _ end).
  assert (∀ f, d_heap (upd_heap f d1) = f (d_heap d)) as Hh1 by (intros; unfold d1; by repeat case_match).
  assert (core_ok (upd_heap (delete p) d1)) as H1.
  { eapply core_calls; [..|exact (core_take_out d p it s set set' H Hp Hs E1 Hw Hm)];
      unfold d1; by repeat case_match. }
  assert (d_sets d1 = <[s := set']> (d_sets d) ∧ d_items d1 = d_items d ∧ d_groups d1 = d_groups d ∧
          same_rest d d1 ∧ d_calls d1 = d_calls d ++ timeout_calls timeout it) as (S1 & S2 & S3 & S4 & S5).
  { unfold d1, timeout_calls. repeat case_match; cbn; rewrite ?app_nil_r; split_and!; try done;
      repeat split; cbn; lia. }
  clearbody d1. destruct (key_idx it =? 0)%nat.
  - cbn. eexists. split_and!; [done|exact H1|exact S4|exact S3|apply Hh1|exact S5].
  - assert (d_freed d1 = d_freed d) as Ef by apply S4.
    assert (template it d1 = Some (object it)) as ->.
    { destruct (ck_member d H s set _ _ E1 E2) as (x & Hx & _ & _ & Hxt). cbn in Hx. rewrite Hp in Hx. injection Hx as <-.
      unfold template. rewrite Ef. by apply (template_live d p). }
    cbn [mbind option_bind]. rewrite E3. cbn [mbind option_bind].
    destruct (Z.leb_spec (HSet.Set_length set') 0) as [Hz|_].
    + unfold Table_remove. rewrite (reads_live (upd_heap (delete p) d1) (mkKey key (sid it)) H1 : ArenaTable.table_reads (key_live d1) (d_items d1) _ = true).
      cbn [mbind option_bind].
      eexists. split_and!; [done| |exact S4|exact S3|apply (Hh1 (delete p))|exact S5].
      eapply core_calls; [..|apply (core_drop_set (upd_heap (delete p) d1) s set' (mkKey key (sid it)) H1)]; try done; cbn.
      * rewrite S1. by simplify_map_eq.
      * by apply set_length_zero.
      * by rewrite S2.
    + eexists. split_and!; [done|exact H1|exact S4|exact S3|apply Hh1|exact S5].
Qed.

(** Changing what the index does not depend on. *)
Definition same_index (it it' : item_) : Prop :=
  itype it' = itype it ∧ sid it' = sid it ∧ object it' = object it ∧ key_idx it' = key_idx it ∧ items it' = items it.

Lemma core_update d p it it' :
  core_ok d → d_heap d !! p = Some it → same_index it it' → (itype it ≠ REG → group it' = None) →
  core_ok (upd_heap <[p := it']> d).
Proof.
  intros H Hp (I1 & I2 & I3 & I4 & I5) Hg.
  assert (∀ q x, <[p := it']> (d_heap d) !! q = Some x →
    ∃ y, d_heap d !! q = Some y ∧ same_index y x ∧ (x = y ∨ q = p ∧ x = it' ∧ y = it)) as Hold.
  { intros q x [[<- <-]|[_ E]]%lookup_insert_Some; [by exists it; split_and!; auto|].
    exists x. split_and!; try done. by left. }
  split; cbn.
  - apply H.
  - apply (ck_sets d H).
  - apply (ck_inj d H).
  - apply (ck_wf d H).
  - intros s set i r Hs Hr. destruct (ck_member d H s set i r Hs Hr) as (y & E1 & E2 & E3 & E4).
    destruct (decide (r_ptr r = p)) as [E|].
    + rewrite E in E1. exists it'. rewrite E. simplify_map_eq. split_and!; congruence.
    + exists y. by rewrite lookup_insert_ne.
  - intros q x s Hq Hs. destruct (Hold q x Hq) as (y & E1 & (J1 & J2 & J3 & J4 & J5) & _).
    destruct (ck_placed d H q y s E1 ltac:(congruence)) as (set & key & F1 & F2 & F3 & F4 & F5).
    exists set, key. cbn. rewrite J2, J3, J4. done.
  - intros q q' x x' Hq Hq'. destruct (Hold q x Hq) as (y & E1 & (J1 & J2 & _) & _).
    destruct (Hold q' x' Hq') as (y' & E1' & (J1' & J2' & _) & _). rewrite J1, J2, J1', J2'.
    by eapply (ck_sid d H).
  - intros q x Hq. destruct (Hold q x Hq) as (y & E1 & (J1 & J2 & _) & _). rewrite J1, J2.
    by eapply (ck_ids d H).
  - destruct (ck_next d H) as [N1 N2]. split; [|done].
    intros q [x Hx]. destruct (Hold q x Hx) as (y & E1 & _). eauto.
  - intros q x Hq. destruct (Hold q x Hq) as (y & E1 & (J1 & _ & _ & _ & J5) & Hxy). rewrite J1, J5.
    intros Hn. destruct (ck_other d H q y E1 Hn). split; [done|].
    destruct Hxy as [->|(-> & -> & ->)]; auto.
  - apply H.
  - intros q x Hq. destruct (Hold q x Hq) as (y & E1 & (J1 & J2 & _) & _). rewrite J1, J2. by eapply (ck_live d H).
  - apply H.
Qed.

Lemma same_index_group it g : same_index it (set_group it g).
Proof. done. Qed.
Lemma same_index_mute it : same_index it (set_mute it).
Proof. done. Qed.
Lemma same_index_timer it : same_index it (set_timer it).
Proof. done. Qed.

(** What is left of a member that was not in a set. *)
Definition left_over (i : nat) (it : item_) : item_ :=
  if (0 <? i)%nat then set_mute (set_group it None) else set_group it None.

Definition member_calls (d : dispatcher) (l : list Z) (i : nat) (timeout : bool) : list call :=
  match l with
  | p :: _ =>
    match d_heap d !! p with
    | Some it => if (i =? 0)%nat && bool_decide (is_Some (items it)) then timeout_calls timeout it else []
    | None => []
    end
  | [] => []
  end.

Lemma left_over_same i it : same_index it (left_over i it) ∧ group (left_over i it) = None.
Proof. unfold left_over. by case_match. Qed.

Lemma left_over_calls i timeout it :
  timeout_calls timeout (left_over i it) = if (i =? 0)%nat then timeout_calls timeout it else [].
Proof. by destruct i. Qed.

Lemma remove_members_ok l i timeout d :
  core_ok d → NoDup l → (∀ p, p ∈ l → is_Some (d_heap d !! p)) →
  ∃ d', remove_members l i timeout d = Some d' ∧ core_ok d' ∧ same_rest d d' ∧ d_groups d' = d_groups d ∧
    (∀ q, q ∉ l → d_heap d' !! q = d_heap d !! q) ∧
    (∀ q it, q ∈ l → d_heap d !! q = Some it →
      (items it ≠ None → d_heap d' !! q = None) ∧
      (items it = None → ∃ j, l !! j = Some q ∧ d_heap d' !! q = Some (left_over (i + j) it))) ∧
    d_calls d' = d_calls d ++ member_calls d l i timeout.
Proof.
  revert i d. induction l as [|p l IH]; intros i d H Hn Hl.
  { exists d. cbn. rewrite app_nil_r. split_and!; auto with oes. intros q it Hq. by apply not_elem_of_nil in Hq. }
  cbn [remove_members]. destruct (Hl p) as [it Hp]; [left|]. rewrite Hp. cbn [mbind option_bind].
  fold (left_over i it). destruct (left_over_same i it) as [Hsi Hg].
  assert (core_ok (upd_heap <[p := left_over i it]> d)) as H1 by (eapply core_update; eauto).
  pose proof (remove_ungrouped_ok _ p (left_over i it) timeout H1) as Hr.
  cbn [upd_heap d_heap d_groups d_calls] in Hr. rewrite lookup_insert_eq in Hr. specialize (Hr eq_refl).
  assert (items (left_over i it) = items it) as Hit by apply Hsi. rewrite Hit in Hr.
  pose proof (NoDup_cons_1_1 _ _ Hn) as Hpl. apply NoDup_cons_1_2 in Hn.
  assert (∃ d1, remove_ungrouped p timeout (upd_heap <[p := left_over i it]> d) = Some d1 ∧ core_ok d1 ∧
    same_rest d d1 ∧ d_groups d1 = d_groups d ∧ (∀ q, q ≠ p → d_heap d1 !! q = d_heap d !! q) ∧
    (items it ≠ None → d_heap d1 !! p = None) ∧ (items it = None → d_heap d1 !! p = Some (left_over i it)) ∧
    d_calls d1 = d_calls d ++ member_calls d (p :: l) i timeout) as (d1 & E & C1 & R1 & G1 & K1 & N1 & S1 & L1).
  { cbn [member_calls]. rewrite Hp. destruct (items it) as [s|] eqn:Es.
    - destruct Hr as (d1 & E & C1 & R1 & G1 & K1 & L1). exists d1.
      split_and!; try done.
      + intros q Hq. rewrite K1, lookup_delete_ne, lookup_insert_ne by done. done.
      + rewrite K1. intros _. apply lookup_delete_eq.
      + rewrite L1, left_over_calls, andb_true_r. done.
    - exists (upd_heap <[p := left_over i it]> d). rewrite bool_decide_false by (intros [? ?]; done).
      rewrite andb_false_r, app_nil_r.
      split_and!; [done|done|apply (same_rest_refl d)|done| |done| |done]; cbn.
      + intros q Hq. by rewrite lookup_insert_ne.
      + intros _. apply lookup_insert_eq. }
  rewrite E. cbn [mbind option_bind].
  destruct (IH (S i) d1 C1 Hn) as (d2 & E2 & C2 & R2 & G2 & K2 & M2 & L2).
  { intros q Hq. rewrite K1; [apply Hl; by right|]. intros ->. done. }
  exists d2. split_and!; [done|done|by eapply same_rest_trans|by rewrite G2|..].
  - intros q Hq. rewrite not_elem_of_cons in Hq. destruct Hq. by rewrite K2, K1.
  - intros q it' [->|Hq]%elem_of_cons Hq'.
    + rewrite K2 by done. rewrite Hp in Hq'. simplify_eq. split; [done|]. intros Hz.
      exists 0%nat. rewrite Nat.add_0_r. auto.
    + assert (q ≠ p) by (intros ->; done). rewrite <-K1 in Hq' by done.
      destruct (M2 q it' Hq Hq') as [M3 M4]. split; [done|]. intros Hz.
      destruct (M4 Hz) as (j & Hj & Hh). exists (S j). by rewrite Nat.add_succ_r.
  - rewrite L2, L1, <-app_assoc. f_equal. unfold member_calls at 2. destruct l as [|q l]; [by rewrite app_nil_r|].
    destruct (d_heap d1 !! q); cbn [Nat.eqb andb]; by rewrite app_nil_r.
Qed.

(** Groups: the members of a live group are live, belong to it alone, carry
    the same handlers, and take when there are several of them. *)
Definition alike (it it' : item_) : Prop :=
  match_handler it = match_handler it' ∧ timeout_handler it = timeout_handler it' ∧ args it = args it' ∧
  consume it = consume it'.

Record groups_ok (d : dispatcher) : Prop := {
  gk_group p it g :
    d_heap d !! p = Some it → group it = Some g → ∃ l, d_groups d !! g = Some l ∧ p ∈ l;
  gk_live g l p :
    d_groups d !! g = Some l → p ∈ l →
    ∃ it, d_heap d !! p = Some it ∧ itype it = REG ∧ (group it = Some g ∨ group it = None ∧ items it = None ∧ timer_event it = false);
  gk_nodup g l : d_groups d !! g = Some l → NoDup l;
  gk_disj g g' l l' p : d_groups d !! g = Some l → d_groups d !! g' = Some l' → p ∈ l → p ∈ l' → g = g';
  gk_next g : is_Some (d_groups d !! g) → g < d_next d;
  gk_same g l p p' it it' :
    d_groups d !! g = Some l → p ∈ l → p' ∈ l → d_heap d !! p = Some it → d_heap d !! p' = Some it' → alike it it';
  gk_safe g l p it :
    d_groups d !! g = Some l → p ∈ l → d_heap d !! p = Some it → (length l ≤ 1)%nat ∨ consume it = true
}.

Record disp_ok (d : dispatcher) : Prop := { dk_core : core_ok d; dk_groups : groups_ok d }.

(** The items that go when [p] goes. *)
Definition mates (d : dispatcher) (p : Z) (it : item_) : list Z :=
  match group it with
  | Some g => default [] (d_groups d !! g)
  | None => [p]
  end.

Lemma mates_self d p it : disp_ok d → d_heap d !! p = Some it → p ∈ mates d p it.
Proof.
  intros [_ G] Hp. unfold mates. destruct (group it) as [g|] eqn:E; [|set_solver].
  destruct (gk_group d G p it g Hp E) as (l & -> & Hl). done.
Qed.

Lemma left_over_self it : group it = None → left_over 0 it = it.
Proof. destruct it. cbn. intros ->. done. Qed.

(** What removing the members [l] does to the items. *)
Definition removed (d d' : dispatcher) (l : list Z) : Prop :=
  (∀ q, q ∉ l → d_heap d' !! q = d_heap d !! q) ∧
  (∀ q it, q ∈ l → d_heap d !! q = Some it →
    (items it ≠ None → d_heap d' !! q = None) ∧
    (items it = None → ∃ j, l !! j = Some q ∧ d_heap d' !! q = Some (left_over j it))).

Lemma removed_old d d' l q it' :
  removed d d' l → (∀ q, q ∈ l → is_Some (d_heap d !! q)) → d_heap d' !! q = Some it' →
  ∃ it, d_heap d !! q = Some it ∧ (q ∉ l ∧ it' = it ∨ q ∈ l ∧ items it = None ∧ ∃ j, it' = left_over j it).
Proof.
  intros [H1 H2] Hl Hq. destruct (decide (q ∈ l)) as [Hin|Hin].
  - destruct (Hl q Hin) as [it Hit]. exists it. destruct (H2 q it Hin Hit) as [F1 F2].
    split; [done|]. right. destruct (items it) eqn:E.
    + rewrite F1 in Hq by done. done.
    + destruct (F2 eq_refl) as (j & _ & Hj). rewrite Hj in Hq. simplify_eq. eauto.
  - exists it'. rewrite <-H1 by done. auto.
Qed.

Lemma groups_after d d' l G :
  groups_ok d → removed d d' l → (∀ q, q ∈ l → is_Some (d_heap d !! q)) → d_next d ≤ d_next d' →
  d_groups d' = G → (∀ g l', G !! g = Some l' → d_groups d !! g = Some l' ∧ ∀ q, q ∈ l → q ∉ l') →
  (∀ g l', d_groups d !! g = Some l' → G !! g = None → l' ⊆ l) →
  groups_ok d'.
Proof.
  intros H Hr Hl Hn EG Hsub Hgone. split; rewrite ?EG.
  - intros p it g Hp Hg. destruct (removed_old d d' l p it Hr Hl Hp) as (y & Hy & [[Hni ->]|(Hi & _ & j & ->)]).
    + destruct (gk_group d H p y g Hy Hg) as (l' & E & Hl'). exists l'. split; [|done].
      destruct (G !! g) as [l2|] eqn:E2; [by destruct (Hsub g l2 E2); congruence|].
      destruct Hni. by eapply Hgone.
    + destruct (left_over_same j y) as [_ E]. congruence.
  - intros g l' p E Hp. destruct (Hsub g l' E) as [E' Hd].
    destruct (gk_live d H g l' p E' Hp) as (it & F1 & F2). exists it.
    destruct Hr as [Hr _]. rewrite Hr; [done|]. intros Hin. by eapply Hd.
  - intros g l' E. destruct (Hsub g l' E). by eapply gk_nodup.
  - intros g g' l1 l2 p E1 E2. destruct (Hsub g l1 E1), (Hsub g' l2 E2). by eapply (gk_disj d H).
  - intros g [l' E]. destruct (Hsub g l' E). pose proof (gk_next d H g ltac:(eauto)). lia.
  - intros g l' p p' it it' E Hp Hp'. destruct (Hsub g l' E) as [E' Hd]. destruct Hr as [Hr _].
    rewrite !Hr; [by eapply (gk_same d H)|..]; intros Hin; by eapply Hd.
  - intros g l' p it E Hp. destruct (Hsub g l' E) as [E' Hd]. destruct Hr as [Hr _].
    rewrite Hr; [by eapply (gk_safe d H)|]. intros Hin; by eapply Hd.
Qed.

(** The groups that remain, and their members, are as they were. *)
Definition kept_groups (d d' : dispatcher) : Prop :=
  ∀ g l, d_groups d' !! g = Some l →
    d_groups d !! g = Some l ∧ ∀ p, p ∈ l → d_heap d' !! p = d_heap d !! p.

Lemma kept_groups_trans d1 d2 d3 : kept_groups d1 d2 → kept_groups d2 d3 → kept_groups d1 d3.
Proof.
  intros K1 K2 g l E. destruct (K2 g l E) as [E2 H2]. destruct (K1 g l E2) as [E1 H1].
  split; [done|]. intros p Hp. by rewrite H2, H1.
Qed.

(** The calls that removing [p] makes. *)
Definition removal_calls (d : dispatcher) (p : Z) (it : item_) (timeout : bool) : list call :=
  member_calls d (mates d p it) 0 timeout.

Lemma removal_calls_match d p it : removal_calls d p it false = [].
Proof.
  unfold removal_calls, member_calls, timeout_calls. repeat case_match; done.
Qed.

Definition groups_without (d : dispatcher) (it : item_) : gmap Z (list Z) :=
  match group it with Some g => delete g (d_groups d) | None => d_groups d end.

Lemma remove_item_ok d p it timeout :
  disp_ok d → d_heap d !! p = Some it →
  ∃ d', _remove_item p timeout d = Some d' ∧ disp_ok d' ∧ same_rest d d' ∧
    removed d d' (mates d p it) ∧ kept_groups d d' ∧ d_groups d' = groups_without d it ∧
    d_calls d' = d_calls d ++ removal_calls d p it timeout.
Proof.
  intros H Hp. pose proof (mates_self d p it H Hp) as Hself. destruct H as [HC HG].
  unfold _remove_item. rewrite Hp. cbn [mbind option_bind]. unfold removal_calls, groups_without, mates in *.
  destruct (group it) as [g|] eqn:Eg.
  - destruct (gk_group d HG p it g Hp Eg) as (l & El & Hpl). rewrite El in *. cbn [default] in *.
    unfold _remove_group. rewrite El. cbn [mbind option_bind].
    assert (∀ q, q ∈ l → is_Some (d_heap d !! q)) as Hl.
    { intros q Hq. destruct (gk_live d HG g l q El Hq) as (y & -> & _). eauto. }
    destruct (remove_members_ok l 0 timeout d HC (gk_nodup d HG g l El) Hl)
      as (d' & E & C' & R & G' & K1 & K2 & L). rewrite E. cbn [mbind option_bind].
    assert (kept_groups d (upd_groups (delete g) d')) as HK.
    { intros g' l'. cbn. rewrite G'. intros [Hne E']%lookup_delete_Some. split; [done|]. intros q Hq.
      apply K1. intros Hq'. apply Hne. by eapply (gk_disj d HG). }
    exists (upd_groups (delete g) d'). split_and!; [done| |exact R|by split|exact HK|cbn; by rewrite G'|exact L]. split.
    + eapply core_calls; [..|exact C']; done.
    + eapply (groups_after d _ l); [done|by split|done|by destruct R as (_&_&_&_&_&_&?)|cbn; by rewrite G'|..].
      * intros g' l' [Hne E']%lookup_delete_Some. split; [done|]. intros q Hq Hq'. apply Hne.
        by eapply (gk_disj d HG).
      * intros g' l' E'. rewrite lookup_delete_None. intros [<-|?]; [|congruence]. by simplify_eq.
  - pose proof (remove_ungrouped_ok d p it timeout HC Hp) as Hr. cbn [member_calls]. rewrite Hp. cbn [Nat.eqb andb].
    assert (∀ g l', d_groups d !! g = Some l' → items it ≠ None → p ∉ l') as Hno.
    { intros g l' E Hi Hin. destruct (gk_live d HG g l' p E Hin) as (y & Hy & _ & F).
      rewrite Hp in Hy. simplify_eq. destruct F as [?|(_ & ? & _)]; congruence. }
    destruct (items it) as [s|] eqn:Es.
    + rewrite bool_decide_true by eauto. destruct Hr as (d' & E & C' & R & G' & K & L).
      assert (removed d d' [p]) as Hrm.
      { split.
        - intros q Hq. rewrite K, lookup_delete_ne; set_solver.
        - intros q y ->%list_elem_of_singleton Hy. rewrite K, lookup_delete_eq.
          rewrite Hp in Hy. simplify_eq. split; [done|]. congruence. }
      assert (kept_groups d d') as HK.
      { intros g l' E'. rewrite G' in E'. split; [done|]. intros q Hq. apply (proj1 Hrm).
        intros ->%list_elem_of_singleton. by eapply Hno. }
      exists d'. split_and!; try done. split; [done|].
      eapply (groups_after d d' [p]); [done|done| |by destruct R as (_&_&_&_&_&_&?)|exact G'|..].
      * intros q ->%list_elem_of_singleton. eauto.
      * intros g l' E'. split; [done|]. intros q ->%list_elem_of_singleton. by eapply Hno.
      * intros g l' E' En. congruence.
    + rewrite bool_decide_false by (intros [? ?]; done). rewrite app_nil_r. exists d.
      split_and!; auto with oes; [by split| |done]. split; [done|].
      intros q y ->%list_elem_of_singleton Hy. rewrite Hp in Hy. simplify_eq. split; [congruence|].
      intros _. exists 0%nat. by rewrite left_over_self.
Qed.

(** ** Matching *)

Lemma field_found_spec ev k ki s :
  field_found ev k ki s = true ↔ ∃ i e, ev !! i = Some e ∧ (k + i ≠ ki)%nat ∧ (e = s ∨ s = "_").
Proof.
  revert k. induction ev as [|e ev IH]; intros k; cbn; [split; [done|naive_solver]|].
  destruct (Nat.eqb_spec k ki) as [->|Hk].
  { rewrite IH. split.
    - intros (i & e' & H1 & H2 & H3). exists (S i), e'. split_and!; [done|lia|done].
    - intros ([|i] & e' & H1 & H2 & H3); [lia|]. exists i, e'. split_and!; [done|lia|done]. }
  destruct (bool_decide_reflect (e = s)) as [->|He].
  { split; [|done]. intros _. exists 0%nat, s. split_and!; [done|lia|auto]. }
  destruct (bool_decide_reflect ("_" = s)) as [<-|Hs].
  { split; [|done]. intros _. exists 0%nat, e. split_and!; [done|lia|auto]. }
  rewrite IH. split.
  - intros (i & e' & H1 & H2 & H3). exists (S i), e'. split_and!; [done|lia|done].
  - intros ([|i] & e' & H1 & H2 & H3); [cbn in H1; simplify_eq; destruct H3; congruence|].
    exists i, e'. split_and!; [done|lia|done].
Qed.

Lemma template_matches_spec t j tk ev ki :
  template_matches t j tk ev ki = true ↔
  ∀ i s, t !! i = Some s → (j + i ≠ tk)%nat → field_found ev 0 ki s = true.
Proof.
  revert j. induction t as [|s t IH]; intros j; cbn; [split; [naive_solver|done]|].
  assert ((∀ i s', t !! i = Some s' → (S j + i ≠ tk)%nat → field_found ev 0 ki s' = true) ↔
          (∀ i s', (s :: t) !! S i = Some s' → (j + S i ≠ tk)%nat → field_found ev 0 ki s' = true)) as Hs.
  { cbn. split; intros H i s' E Hi; apply (H i s' E); lia. }
  destruct (Nat.eqb_spec j tk) as [->|Hj].
  { rewrite IH, Hs. split; [|by intros H i; apply H].
    intros H [|i] s' E Hi; [lia|by apply (H i)]. }
  destruct (field_found ev 0 ki s) eqn:Ef.
  - rewrite IH, Hs. split; [|by intros H i; apply H].
    intros H [|i] s' E Hi; [cbn in E; by simplify_eq|by apply (H i)].
  - split; [done|]. intros H. rewrite <-Ef. apply (H 0%nat s); [done|lia].
Qed.

(** The fields of the template find different fields of the event. *)
Definition covers (t ev : list string) : Prop :=
  ∃ f : nat → nat,
    (∀ j j', (j < length t)%nat → (j' < length t)%nat → f j = f j' → j = j') ∧
    ∀ j s, t !! j = Some s → ∃ e, ev !! f j = Some e ∧ (e = s ∨ s = "_").

Lemma covers_matches t ev k key :
  covers t ev → t !! k = Some key → key ≠ "_" →
  ∃ i, ev !! i = Some key ∧ template_matches t 0 k ev i = true.
Proof.
  intros (f & Hinj & Hf) Hk Hne. exists (f k). destruct (Hf k key Hk) as (e & He & [->|?]); [|done].
  split; [done|]. apply template_matches_spec. intros j s Hj Hjk. apply field_found_spec.
  destruct (Hf j s Hj) as (e' & He' & H'). exists (f j), e'. split_and!; [done| |done].
  intros E. apply Hjk. apply Hinj; [by eapply lookup_lt_Some|by eapply lookup_lt_Some|done].
Qed.

(** A tuple event is covered by the templates it agrees with field by field. *)
Lemma tuple_covers t ev :
  length t = length ev → (∀ i s, t !! i = Some s → s ≠ "_" → ev !! i = Some s) → covers t ev.
Proof.
  intros Hl Hm. exists id. split; [done|]. intros j s Hj.
  destruct (lookup_lt_is_Some_2 ev j) as [e He]; [rewrite <-Hl; by eapply lookup_lt_Some|].
  exists e. split; [done|]. destruct (decide (s = "_")); [auto|]. left. specialize (Hm j s Hj n). cbn in *. congruence.
Qed.

(** What a match means: every field is a wildcard or a field of the event,
    but for the indexed field, of which only the hash has been compared. *)
Definition seen_in (it : item_) (ev : list string) : Prop :=
  ∀ j s, object it !! j = Some s →
    s = "_" ∨ s ∈ ev ∨ j = key_idx it ∧ ∃ e, e ∈ ev ∧ hash_key e = hash_key s.

Lemma matches_seen it ev ki e key :
  template_matches (object it) 0 (key_idx it) ev ki = true → ev !! ki = Some e →
  object it !! key_idx it = Some key → hash_key key = hash_key e → seen_in it ev.
Proof.
  intros Hm He Hk Hh j s Hj. destruct (decide (j = key_idx it)) as [->|Hne].
  - right. right. split; [done|]. exists e. split; [by eapply list_elem_of_lookup_2|]. congruence.
  - rewrite template_matches_spec in Hm. specialize (Hm j s Hj Hne).
    apply field_found_spec in Hm as (i & e' & Hi & _ & [->| ->]); [|auto].
    right. left. by eapply list_elem_of_lookup_2.
Qed.

Definition match_calls (it : item_) : list call :=
  match match_handler it with Some f => [mkCall f (args it) (sid it)] | None => [] end.

Lemma disp_ok_ext d d' :
  d_heap d' = d_heap d → d_sets d' = d_sets d → d_items d' = d_items d → d_groups d' = d_groups d →
  d_next d' = d_next d → next_unused_id d' = next_unused_id d → d_freed d' = d_freed d → disp_ok d → disp_ok d'.
Proof.
  intros E1 E2 E3 E4 E5 E6 E7 [C []]. split; [by eapply core_calls|].
  split; rewrite ?E1, ?E4, ?E5; done.
Qed.

Lemma mates_live d p it q : disp_ok d → d_heap d !! p = Some it → q ∈ mates d p it → is_Some (d_heap d !! q).
Proof.
  intros [_ G] Hp. unfold mates. destruct (group it) as [g|] eqn:E.
  - destruct (gk_group d G p it g Hp E) as (l & El & _). rewrite El. cbn. intros Hq.
    destruct (gk_live d G g l q El Hq) as (y & -> & _). eauto.
  - intros ->%list_elem_of_singleton. eauto.
Qed.

Lemma mates_alike d p it q it' :
  disp_ok d → d_heap d !! p = Some it → q ∈ mates d p it → d_heap d !! q = Some it' → alike it it'.
Proof.
  intros [_ G] Hp. unfold mates. destruct (group it) as [g|] eqn:E.
  - destruct (gk_group d G p it g Hp E) as (l & El & Hl). rewrite El. cbn. intros Hq Hq'.
    exact (gk_same d G g l p q it it' El Hl Hq Hp Hq').
  - intros ->%list_elem_of_singleton Hq. rewrite Hp in Hq. by simplify_eq.
Qed.

Lemma mates_single d p it :
  disp_ok d → d_heap d !! p = Some it → consume it = false → mates d p it = [p].
Proof.
  intros H Hp Hc. pose proof (mates_self d p it H Hp) as Hs. destruct H as [_ G]. unfold mates in *.
  destruct (group it) as [g|] eqn:E; [|done].
  destruct (gk_group d G p it g Hp E) as (l & El & Hl). rewrite El in *. cbn in *.
  destruct (gk_safe d G g l p it El Hl Hp) as [Hle|?]; [|congruence].
  destruct l as [|x [|y l]]; cbn in Hle; [set_solver| |lia].
  apply list_elem_of_singleton in Hl. by subst.
Qed.

(** ** Waking once

    The registrations with ids from [a] to [b]: either none of them can run a
    handler any more, after at most one has, or none has run one and those
    that can are members of one group.  [Q] is the queue.  The first member
    of a group is queued before the others, so that once a member has been
    registered the first one has been.  With [k] the first member can be
    found: it has handlers and is in a set, or will be; then exactly one has
    run, or none has and the first member can still run its own. *)
Definition alive (Q : list Z) (d : dispatcher) (p : Z) (it : item_) : Prop :=
  d_heap d !! p = Some it ∧ itype it = REG ∧ (items it ≠ None ∨ p ∈ Q) ∧
  (match_handler it ≠ None ∨ timeout_handler it ≠ None).

Definition woken (a b : Z) (cs : list call) : nat := length (filter (λ c, a ≤ c_sid c < b) cs).

Definition first_in (Q : list Z) (d : dispatcher) (l : list Z) : Prop :=
  ∀ h, head l = Some h →
    (∀ q it, q ∈ l → d_heap d !! q = Some it → items it ≠ None ∨ timer_event it = true → h ∉ Q) ∧
    (∀ i j q, Q !! i = Some h → Q !! j = Some q → q ∈ l → (i ≤ j)%nat).

Definition keyed_head (Q : list Z) (d : dispatcher) (l : list Z) : Prop :=
  ∃ h it, head l = Some h ∧ d_heap d !! h = Some it ∧ match_handler it ≠ None ∧ timeout_handler it ≠ None ∧
    (items it ≠ None ∨ h ∈ Q ∧ ¬ Forall (eq "_") (object it)).

Definition once_ok (a b : Z) (k : bool) (Q : list Z) (d : dispatcher) : Prop :=
  (∀ p it, alive Q d p it → a ≤ sid it < b → False) ∧ (woken a b (d_calls d) ≤ 1)%nat ∧
    (k = true → woken a b (d_calls d) = 1%nat) ∨
  woken a b (d_calls d) = 0%nat ∧
  ∃ g l, d_groups d !! g = Some l ∧ (∀ p it, alive Q d p it → a ≤ sid it < b → p ∈ l) ∧ first_in Q d l ∧
    (∀ p it, p ∈ l → d_heap d !! p = Some it → a ≤ sid it < b) ∧ (k = true → keyed_head Q d l).

Lemma woken_app a b cs new : woken a b (cs ++ new) = (woken a b cs + woken a b new)%nat.
Proof. unfold woken. by rewrite list.filter_app, length_app. Qed.

Lemma woken_le a b new : (woken a b new ≤ length new)%nat.
Proof. unfold woken. apply length_filter. Qed.

Lemma woken_none a b new : (∀ c, c ∈ new → ¬ a ≤ c_sid c < b) → woken a b new = 0%nat.
Proof.
  intros H. unfold woken. destruct (filter _ new) as [|c l] eqn:E; [done|].
  assert (c ∈ filter (λ c, a ≤ c_sid c < b) new) as [Hc Hin]%list_elem_of_filter by (rewrite E; left).
  by destruct (H c Hin).
Qed.

Lemma woken_all a b new : (∀ c, c ∈ new → a ≤ c_sid c < b) → woken a b new = length new.
Proof.
  intros H. unfold woken. induction new as [|c new IH]; [done|]. rewrite filter_cons_True by (apply H; left).
  cbn. f_equal. apply IH. intros x Hx. apply H. by right.
Qed.

Lemma left_over_alive j it :
  match_handler (left_over j it) ≠ None ∨ timeout_handler (left_over j it) ≠ None → j = 0%nat ∧ left_over j it = set_group it None.
Proof. destruct j; cbn; naive_solver. Qed.

Lemma removed_alive d d' p it Q q it' :
  disp_ok d → d_heap d !! p = Some it → removed d d' (mates d p it) → alive Q d' q it' →
  ∃ y, alive Q d q y ∧ sid y = sid it' ∧
    (q ∉ mates d p it ∧ y = it' ∨ q ∈ mates d p it ∧ q ∈ Q ∧ items y = None ∧ head (mates d p it) = Some q).
Proof.
  intros H Hp Hr (Hq & Ht & Hw & Hh).
  destruct (removed_old d d' _ q it' Hr ltac:(eauto using mates_live) Hq) as (y & Hy & [[Hni ->]|(Hi & Hn & _)]).
  { exists y. split_and!; try done. by left. }
  destruct (proj2 Hr q y Hi Hy) as [_ Hj]. destruct (Hj Hn) as (j & Hlj & Hq'). rewrite Hq in Hq'. simplify_eq.
  destruct (left_over_alive j y Hh) as [-> E]. rewrite E in *. cbn in *.
  destruct Hw as [?|HQ]; [done|]. exists y. split_and!; [by split_and!; auto|done|]. right.
  split_and!; try done. by destruct (mates d p it).
Qed.

(** Removing a registration keeps it so, whatever calls its removal makes,
    when there is at most one and it is of one of the items removed, and
    there is one if the first member of its group can be found. *)
Lemma removal_once a b k Q d d' p it new :
  disp_ok d → d_heap d !! p = Some it → items it ≠ None ∨ timer_event it = true →
  removed d d' (mates d p it) → d_groups d' = groups_without d it → d_calls d' = d_calls d ++ new →
  (length new ≤ 1)%nat →
  (∀ c, c ∈ new → ∃ q y, q ∈ mates d p it ∧ alive Q d q y ∧ c_sid c = sid y) →
  (∀ h y, head (mates d p it) = Some h → d_heap d !! h = Some y → items y ≠ None →
     match_handler y ≠ None → timeout_handler y ≠ None → length new = 1%nat) →
  once_ok a b k Q d → once_ok a b k Q d'.
Proof.
  intros H Hp Hpr Hr Hg Hc Hlen Hnew Hfull Honce. unfold once_ok. rewrite Hc, woken_app.
  destruct Honce as [(Hno & Hle & Hk)|(Hz & g & l & El & Hin & Hf & Hall & Hk)].
  { assert (woken a b new = 0%nat) as ->.
    { apply woken_none. intros c Hc' Hrg. destruct (Hnew c Hc') as (q & y & _ & Hy & Es).
      apply (Hno q y Hy). by rewrite <-Es. }
    rewrite Nat.add_0_r. left. split; [|done].
    intros q it' Ha Hrg. destruct (removed_alive d d' p it Q q it' H Hp Hr Ha) as (y & Hy & Es & _).
    apply (Hno q y Hy). by rewrite Es. }
  rewrite Hz. destruct (decide (group it = Some g)) as [Eg|Eg].
  - assert (mates d p it = l) as Em by (unfold mates; by rewrite Eg, El). rewrite Em in *.
    assert (p ∈ l) as Hpl by (rewrite <-Em; by apply mates_self).
    left. split; [|split; [pose proof (woken_le a b new); lia|]].
    + intros q it' Ha Hrg.
      destruct (removed_alive d d' p it Q q it' H Hp ltac:(by rewrite Em) Ha) as (y & Hy & Es & F).
      rewrite Em in F. pose proof (Hin q y Hy ltac:(by rewrite Es)) as Hql.
      destruct F as [[? _]|(_ & HQ & _ & Hh)]; [done|].
      destruct (Hf q Hh) as [Hf1 _]. by apply (Hf1 p it).
    + intros Hkt. destruct (Hk Hkt) as (h & y & Hh & Hy & Hm & Ht & Hi). cbn.
      rewrite woken_all; [|intros c Hc'; destruct (Hnew c Hc') as (q & z & Hq & Hz' & ->); eapply Hall; [done|apply Hz']].
      eapply (Hfull h y); try done. destruct Hi as [?|[HQ _]]; [done|]. destruct (Hf h Hh) as [Hf1 _].
      by destruct (Hf1 p it Hpl Hp Hpr).
  - assert (∀ q, q ∈ l → q ∉ mates d p it) as Hdis.
    { intros q Hq Hm. unfold mates in Hm. destruct (group it) as [g'|] eqn:Eg'.
      - destruct (gk_group d (dk_groups d H) p it g' Hp Eg') as (l' & El' & _). rewrite El' in Hm. cbn in Hm.
        destruct Eg. f_equal. by eapply (gk_disj d (dk_groups d H)).
      - apply list_elem_of_singleton in Hm as ->.
        destruct (gk_live d (dk_groups d H) g l p El Hq) as (y & Hy & _ & F). rewrite Hp in Hy. simplify_eq.
        destruct F as [?|(_ & Hn & Hn')], Hpr; congruence. }
    right. split.
    { rewrite (woken_none a b new); [lia|]. intros c Hc' Hrg. destruct (Hnew c Hc') as (q & y & Hm & Hy & Es).
      apply (Hdis q); [|done]. apply (Hin q y Hy). by rewrite <-Es. }
    exists g, l. split_and!.
    + rewrite Hg. unfold groups_without. destruct (group it); [|done]. rewrite lookup_delete_ne; congruence.
    + intros q it' Ha Hrg. destruct (removed_alive d d' p it Q q it' H Hp Hr Ha) as (y & Hy & Es & _).
      apply (Hin q y Hy). by rewrite Es.
    + intros h Hh. destruct (Hf h Hh) as [Hf1 Hf2]. split; [|done].
      intros q y Hq. rewrite (proj1 Hr q (Hdis q Hq)). by apply Hf1.
    + intros q y Hq. rewrite (proj1 Hr q (Hdis q Hq)). by apply Hall.
    + intros Hkt. destruct (Hk Hkt) as (h & y & Hh & Hy & F). exists h, y. split; [done|]. split; [|done].
      rewrite (proj1 Hr h); [done|]. apply Hdis. destruct l; [done|]. injection Hh as ->. left.
Qed.

(** What processing an event has done so far. *)
Record advanced (ev : list string) (d d' : dispatcher) (new : list call) : Prop := {
  av_ok : disp_ok d';
  av_rest : same_rest d d';
  av_calls : d_calls d' = d_calls d ++ new;
  av_groups : kept_groups d d';
  av_once a b k Q : once_ok a b k Q d → once_ok a b k Q d';
  av_sound c :
    c ∈ new → ∃ q it, d_heap d !! q = Some it ∧ items it ≠ None ∧ d_heap d' !! q = None ∧
      c = mkCall (c_fun c) (args it) (sid it) ∧ match_handler it = Some (c_fun c) ∧ seen_in it ev;
  av_old q it' :
    d_heap d' !! q = Some it' →
    ∃ it, d_heap d !! q = Some it ∧ (it' = it ∨ items it = None ∧ ∃ j, it' = left_over j it);
  av_kept q it : d_heap d !! q = Some it → items it = None → is_Some (d_heap d' !! q);
  av_woken q it f :
    d_heap d !! q = Some it → items it ≠ None → d_heap d' !! q = None → match_handler it = Some f →
    ∃ c, c ∈ new ∧ c_fun c = f ∧ c_arg c = args it
}.

Lemma left_over_twice i j it : left_over i (left_over j it) = left_over (i + j) it.
Proof. by destruct it, i, j. Qed.

Lemma advanced_gone ev d d' new q : advanced ev d d' new → d_heap d !! q = None → d_heap d' !! q = None.
Proof.
  intros H Hq. destruct (d_heap d' !! q) as [it'|] eqn:E; [|done].
  destruct (av_old _ _ _ _ H q it' E) as (it & ? & _). congruence.
Qed.

Lemma advanced_placed ev d d' new q it it' :
  advanced ev d d' new → d_heap d !! q = Some it → d_heap d' !! q = Some it' →
  (items it ≠ None ∨ items it' ≠ None) → it' = it.
Proof.
  intros H Hq Hq' Hi. destruct (av_old _ _ _ _ H q it' Hq') as (y & Hy & [->|(Hn & j & ->)]); [congruence|].
  rewrite Hq in Hy. simplify_eq. destruct (left_over_same j y) as [(_ & _ & _ & _ & E) _].
  destruct Hi; congruence.
Qed.

Lemma advanced_refl ev d : disp_ok d → advanced ev d d [].
Proof.
  intros H. split; auto with oes; [by rewrite app_nil_r|done|set_solver|naive_solver|congruence].
Qed.

Lemma advanced_trans ev d1 d2 d3 n1 n2 :
  advanced ev d1 d2 n1 → advanced ev d2 d3 n2 → advanced ev d1 d3 (n1 ++ n2).
Proof.
  intros A1 A2. split.
  - apply A2.
  - eapply same_rest_trans; [apply A1|apply A2].
  - rewrite (av_calls _ _ _ _ A2), (av_calls _ _ _ _ A1). by rewrite app_assoc.
  - eapply kept_groups_trans; [apply A1|apply A2].
  - intros a b k Q HQ. by apply (av_once _ _ _ _ A2), (av_once _ _ _ _ A1).
  - intros c [Hc|Hc]%elem_of_app.
    + destruct (av_sound _ _ _ _ A1 c Hc) as (q & it & E1 & E2 & E3 & E4). exists q, it.
      split_and!; [done|done|by eapply advanced_gone|apply E4..].
    + destruct (av_sound _ _ _ _ A2 c Hc) as (q & it & E1 & E2 & E3 & E4).
      destruct (av_old _ _ _ _ A1 q it E1) as (y & Hy & _).
      pose proof (advanced_placed _ _ _ _ _ _ _ A1 Hy E1 (or_intror E2)). subst y.
      exists q, it. split_and!; [done|done|done|apply E4..].
  - intros q it' Hq. destruct (av_old _ _ _ _ A2 q it' Hq) as (y & Hy & F).
    destruct (av_old _ _ _ _ A1 q y Hy) as (x & Hx & F'). exists x. split; [done|].
    destruct F as [->|(Hn & j & ->)]; [done|]. right. destruct F' as [->|(Hn' & j' & ->)]; [eauto|].
    split; [done|]. rewrite left_over_twice. eauto.
  - intros q it Hq Hi. destruct (av_kept _ _ _ _ A1 q it Hq Hi) as [y Hy].
    apply (av_kept _ _ _ _ A2 q y Hy). destruct (av_old _ _ _ _ A1 q y Hy) as (x & Hx & [->|(_ & j & ->)]);
      rewrite Hq in Hx; simplify_eq; [done|]. by destruct (left_over_same j x) as [(_ & _ & _ & _ & ->) _].
  - intros q it f Hq Hi Hg Hf. destruct (d_heap d2 !! q) as [it2|] eqn:E.
    + pose proof (advanced_placed _ _ _ _ _ _ _ A1 Hq E (or_introl Hi)). subst it2.
      destruct (av_woken _ _ _ _ A2 q it f E Hi Hg Hf) as (c & Hc & ?). exists c. set_solver.
    + destruct (av_woken _ _ _ _ A1 q it f Hq Hi E Hf) as (c & Hc & ?). exists c. set_solver.
Qed.

(** One template that matches. *)
Lemma fire_ok ev d p it :
  disp_ok d → d_heap d !! p = Some it → items it ≠ None → seen_in it ev →
  let d1 := match match_handler it with
            | Some f => _process_fun f (args it) (sid it) d
            | None => d
            end in
  ∃ d', _remove_item p false d1 = Some d' ∧ advanced ev d d' (match_calls it) ∧ d_heap d' !! p = None ∧
    (consume it = false → ∀ q, q ≠ p → d_heap d' !! q = d_heap d !! q).
Proof.
  intros H Hp Hi Hseen d1.
  assert (d_heap d1 = d_heap d ∧ d_groups d1 = d_groups d ∧ d_calls d1 = d_calls d ++ match_calls it ∧
          same_rest d d1 ∧ disp_ok d1) as (Eh & Eg & Ec & Er & Hok1).
  { unfold d1, match_calls. destruct (match_handler it); [|rewrite app_nil_r; auto with oes].
    split_and!; auto; [apply (same_rest_refl d)|]. by eapply disp_ok_ext; [..|exact H]. }
  clearbody d1. assert (mates d1 p it = mates d p it) as Em by (unfold mates; by rewrite Eg).
  destruct (remove_item_ok d1 p it false Hok1) as (d' & E & Hok & R & Hrm & HK & HG & L); [by rewrite Eh|].
  rewrite removal_calls_match, app_nil_r in L. rewrite Em in Hrm.
  assert (removed d d' (mates d p it)) as Hrm' by (unfold removed in *; by rewrite Eh in Hrm).
  pose proof (mates_self d p it H Hp) as Hself.
  exists d'. split_and!; [done| |by eapply (proj2 Hrm')|].
  - split.
    + done.
    + by eapply same_rest_trans.
    + congruence.
    + unfold kept_groups in *. by rewrite Eh, Eg in HK.
    + intros a b k Q. apply (removal_once a b k Q d d' p it (match_calls it)); auto.
      * rewrite HG. unfold groups_without. by rewrite Eg.
      * congruence.
      * unfold match_calls. case_match; cbn; lia.
      * unfold match_calls. destruct (match_handler it) eqn:Ef; [|set_solver].
        intros c ->%list_elem_of_singleton. exists p, it. split_and!; [done| |done].
        split_and!; auto; [|left; congruence].
        destruct (decide (itype it = REG)) as [|Hr]; [done|]. by destruct (ck_other d (dk_core d H) p it Hp Hr).
      * intros h y Hh Hy _ Hm _. assert (h ∈ mates d p it) as Hin by (destruct (mates d p it); [done|]; injection Hh as ->; left).
        destruct (mates_alike d p it h y H Hp Hin Hy) as (A1 & _). unfold match_calls. rewrite A1.
        by destruct (match_handler y).
    + unfold match_calls. destruct (match_handler it) as [f|] eqn:Ef; [|set_solver].
      intros c ->%list_elem_of_singleton. exists p, it. split_and!; try done. by eapply (proj2 Hrm').
    + intros q it' Hq. destruct (removed_old d d' _ q it' Hrm' ltac:(eauto using mates_live) Hq)
        as (y & Hy & [[_ ->]|(_ & Hn & j & ->)]); exists y; [by auto|]. split; [done|]. right. eauto.
    + intros q y Hq Hyi. destruct (decide (q ∈ mates d p it)) as [Hin|Hin].
      * destruct (proj2 Hrm' q y Hin Hq) as [_ Hj]. destruct (Hj Hyi) as (j & _ & ->). eauto.
      * rewrite (proj1 Hrm' q Hin). eauto.
    + intros q y f Hq Hyi Hg Hf. destruct (decide (q ∈ mates d p it)) as [Hin|Hin].
      * destruct (mates_alike d p it q y H Hp Hin Hq) as (A1 & _ & A3 & _).
        unfold match_calls. rewrite A1, Hf. eexists. split; [left|]. cbn. auto.
      * rewrite (proj1 Hrm' q Hin) in Hg. congruence.
  - intros Hc q Hq. apply (proj1 Hrm'). rewrite (mates_single d p it H Hp Hc). set_solver.
Qed.

(** A template that takes was matched. *)
Definition consumed (ev : list string) (d d' : dispatcher) : Prop :=
  ∃ q it, d_heap d !! q = Some it ∧ items it ≠ None ∧ consume it = true ∧ d_heap d' !! q = None ∧ seen_in it ev.

Lemma consumed_trans ev d1 d2 d3 n1 n2 :
  advanced ev d1 d2 n1 → advanced ev d2 d3 n2 → consumed ev d2 d3 → consumed ev d1 d3.
Proof.
  intros A1 A2 (q & it & E1 & E2 & E3 & E4 & E5). destruct (av_old _ _ _ _ A1 q it E1) as (y & Hy & _).
  pose proof (advanced_placed _ _ _ _ _ _ _ A1 Hy E1 (or_intror E2)). subst y.
  exists q, it. done.
Qed.

Lemma disp_reg_placed d p it : disp_ok d → d_heap d !! p = Some it → items it ≠ None → itype it = REG.
Proof.
  intros H Hp Hi. destruct (decide (itype it = REG)) as [|Hr]; [done|].
  by destruct (ck_other d (dk_core d H) p it Hp Hr).
Qed.

(** The array of a set: live items under the class of the event's field. *)
Definition array_ok (d : dispatcher) (e : string) (l : list item_ref) : Prop :=
  NoDup (r_ptr <$> l) ∧
  ∀ r, r ∈ l → ∃ it key, d_heap d !! r_ptr r = Some it ∧ items it ≠ None ∧
    object it !! key_idx it = Some key ∧ hash_key key = hash_key e.

Lemma process_array_ok l ev ki e d :
  disp_ok d → ev !! ki = Some e → array_ok d e l →
  ∃ done d' new, process_array l ev ki d = Some (done, d') ∧ advanced ev d d' new ∧
    if (done : bool) then consumed ev d d'
    else ∀ r it, r ∈ l → d_heap d !! r_ptr r = Some it →
         template_matches (object it) 0 (key_idx it) ev ki = true → d_heap d' !! r_ptr r = None.
Proof.
  intros H He. revert d H. induction l as [|r l IH]; intros d H [Hn Hl]; cbn [process_array].
  { exists false, d, []. split_and!; [done|by apply advanced_refl|set_solver]. }
  destruct (Hl r) as (it & key & Hr & Hi & Hk & Hh); [left|]. rewrite Hr. cbn [mbind option_bind].
  rewrite (template_live d (r_ptr r) it) by eauto using dk_core, disp_reg_placed. cbn [mbind option_bind].
  cbn in Hn. pose proof (NoDup_cons_1_1 _ _ Hn) as Hnr. apply NoDup_cons_1_2 in Hn.
  assert (∀ r', r' ∈ l → r_ptr r' ≠ r_ptr r) as Hne.
  { intros r' Hr' E. apply Hnr. rewrite <-E. by apply list_elem_of_fmap_2. }
  destruct (template_matches (object it) 0 (key_idx it) ev ki) eqn:Em.
  - assert (seen_in it ev) as Hseen by (by eapply matches_seen).
    destruct (fire_ok ev d (r_ptr r) it H Hr Hi Hseen) as (d1 & E1 & A1 & G1 & K1). cbn zeta in E1.
    rewrite E1. cbn [mbind option_bind]. destruct (consume it) eqn:Ec.
    + exists true, d1, (match_calls it). split_and!; [done|done|]. exists (r_ptr r), it. done.
    + destruct (IH d1 (av_ok _ _ _ _ A1)) as (done & d2 & new & E2 & A2 & F2).
      { split; [done|]. intros r' Hr'. rewrite K1 by auto. apply Hl. by right. }
      exists done, d2, (match_calls it ++ new). split_and!; [done|by eapply advanced_trans|].
      destruct done; [by eapply consumed_trans|].
      intros r' it' [->|Hr']%elem_of_cons Hh' Hm; [by eapply advanced_gone|].
      apply (F2 r' it' Hr'); [by rewrite K1; auto|done].
  - destruct (IH d H) as (done & d2 & new & E2 & A2 & F2).
    { split; [done|]. intros r' Hr'. apply Hl. by right. }
    exists done, d2, new. split_and!; [done|done|]. destruct done; [done|].
    intros r' it' [->|Hr']%elem_of_cons Hh' Hm; [|eauto].
    rewrite Hr in Hh'. simplify_eq. congruence.
Qed.

(** The array of the set a field leads to. *)
Lemma set_array d e s set :
  disp_ok d → ArenaTable.tmap (d_items d) !! hash_key e = Some s → d_sets d !! s = Some set →
  array_ok d e (HSet.Set_toArray set) ∧
  ∀ p it key, d_heap d !! p = Some it → items it ≠ None → object it !! key_idx it = Some key →
    hash_key key = hash_key e → mkRef p (sid it) ∈ HSet.Set_toArray set.
Proof.
  intros [H _] Hs Hset. pose proof (ck_wf d H s set Hset) as Hw.
  assert (∀ r, r ∈ HSet.Set_toArray set ↔ HSet.smap set !! r_sid r = Some r) as Hel.
  { intros r. symmetry. unfold HSet.smap, HSet.Set_toArray.
    rewrite (bmap_lookup _ (HSet.slot_of set)) by apply Hw. naive_solver. }
  split; [split|].
  - apply (NoDup_fmap_2_strong r_ptr).
    + intros x y Hx%Hel Hy%Hel E.
      destruct (ck_member d H s set _ x Hset Hx) as (ix & X1 & X2 & _).
      destruct (ck_member d H s set _ y Hset Hy) as (iy & Y1 & Y2 & _).
      rewrite E in X1. destruct x, y. cbn in *. congruence.
    + destruct Hw as [_ _ [_ Hn] _]. by eapply NoDup_fmap_1.
  - intros r Hr%Hel. destruct (ck_member d H s set _ r Hset Hr) as (it & E1 & E2 & E3 & _).
    destruct (ck_placed d H _ it s E1 E3) as (set' & key & F1 & F2 & F3 & F4 & F5).
    exists it, key. split_and!; [done|congruence|done|]. by eapply (ck_inj d H).
  - intros p it key Hp Hi Hk Hh. destruct (items it) as [s'|] eqn:Es; [|done].
    destruct (ck_placed d H p it s' Hp Es) as (set' & key' & F1 & F2 & F3 & F4 & F5).
    assert (key' = key) as -> by congruence. assert (s' = s) as -> by congruence.
    apply Hel. cbn. congruence.
Qed.

Lemma process_fields_ok rest i ev d :
  disp_ok d → rest = drop i ev →
  ∃ d' new, process_fields rest i ev d = Some d' ∧ advanced ev d d' new ∧
    (consumed ev d d' ∨
     ∀ j e p it key, (i ≤ j)%nat → ev !! j = Some e → d_heap d !! p = Some it → items it ≠ None →
       object it !! key_idx it = Some key → hash_key key = hash_key e →
       template_matches (object it) 0 (key_idx it) ev j = true → d_heap d' !! p = None).
Proof.
  revert i d. induction rest as [|e0 rest IH]; intros i d H Hrest; cbn [process_fields].
  { exists d, []. split_and!; [done|by apply advanced_refl|]. right. intros j e p it key Hj He.
    apply lookup_lt_Some in He. apply (f_equal length) in Hrest. rewrite length_drop in Hrest. cbn in Hrest. lia. }
  assert (ev !! i = Some e0) as He0 by (rewrite <-(Nat.add_0_r i), <-lookup_drop, <-Hrest; done).
  assert (rest = drop (S i) ev) as Hrest'.
  { rewrite <-Nat.add_1_r, <-drop_drop, <-Hrest. done. }
  rewrite Table_get_live by apply H. cbn [mbind option_bind].
  destruct (ArenaTable.tmap (d_items d) !! hash_key e0) as [s|] eqn:Es.
  - unfold _processSet. destruct (ck_sets d (dk_core d H) _ _ Es) as [set Eset]. rewrite Eset. cbn [mbind option_bind].
    destruct (set_array d e0 s set H Es Eset) as [Harr Hin].
    destruct (process_array_ok _ ev i e0 d H He0 Harr) as (done & d1 & n1 & E1 & A1 & F1). rewrite E1.
    cbn [mbind option_bind]. destruct done; [exists d1, n1; auto|].
    destruct (IH (S i) d1 (av_ok _ _ _ _ A1) Hrest') as (d2 & n2 & E2 & A2 & F2).
    exists d2, (n1 ++ n2). split_and!; [done|by eapply advanced_trans|].
    destruct F2 as [F2|F2]; [left; by eapply consumed_trans|]. right.
    intros j e p it key Hj He Hp Hi Hk Hh Hm. destruct (d_heap d1 !! p) as [it1|] eqn:Ep; [|by eapply advanced_gone].
    pose proof (advanced_placed _ _ _ _ _ _ _ A1 Hp Ep (or_introl Hi)). subst it1.
    destruct (decide (j = i)) as [->|Hne].
    + rewrite He0 in He. simplify_eq.
      pose proof (F1 (mkRef p (sid it)) it (Hin p it key Hp Hi Hk Hh) Hp Hm) as Hg. cbn in Hg. congruence.
    + eapply (F2 j e p it key); eauto. lia.
  - destruct (IH (S i) d H Hrest') as (d2 & n2 & E2 & A2 & F2). exists d2, n2. split_and!; [done|done|].
    destruct F2 as [F2|F2]; [by left|]. right. intros j e p it key Hj He Hp Hi Hk Hh Hm.
    destruct (decide (j = i)) as [->|Hne]; [|eapply (F2 j e p it key); eauto; lia].
    exfalso. rewrite He0 in He. simplify_eq. destruct (items it) as [s|] eqn:Ei; [|done].
    destruct (ck_placed d (dk_core d H) p it s Hp Ei) as (set & key' & _ & _ & K1 & _ & K2). congruence.
Qed.

(** Processing an event returns, runs only handlers of templates the event
    matches, and wakes every covered template unless a take was matched. *)
Lemma process_ok ev d :
  disp_ok d →
  ∃ d' new, _process ev d = Some d' ∧ advanced ev d d' new ∧
    (consumed ev d d' ∨
     ∀ p it, d_heap d !! p = Some it → items it ≠ None → covers (object it) ev → d_heap d' !! p = None).
Proof.
  intros H. destruct (process_fields_ok ev 0 ev d H eq_refl) as (d' & new & E & A & F).
  exists d', new. split_and!; [done|done|]. destruct F as [F|F]; [by left|]. right.
  intros p it Hp Hi Hc. destruct (items it) as [s|] eqn:Ei; [|done].
  destruct (ck_placed d (dk_core d H) p it s Hp Ei) as (set & key & _ & _ & K1 & K2 & _).
  destruct (covers_matches _ _ _ _ Hc K1 K2) as (i & Hi' & Hm).
  eapply (F i key p it key); eauto; [lia|congruence].
Qed.

(** ** Registering *)

(** A new empty set under an unused key. *)
Lemma core_new_set d key set :
  core_ok d → ArenaTable.tmap (d_items d) !! hash_key (k_str key) = None → k_own key ∉ d_freed d →
  HSet.Set_new 10 = Some set →
  core_ok (upd_items (λ t, (ArenaTable.ArenaTable_put t key (d_next d)).1)
             (upd_sets <[d_next d := set]> (alloc d).2)).
Proof.
  intros H Hk Hown Hnew. destruct (HSet.set_new_wf 10 set Hnew) as [Hw Hm].
  destruct (ArenaTable.put_spec (d_items d) key (d_next d) (ck_table d H)) as (Hw' & Ht & _).
  change (kcls key) with (hash_key (k_str key)) in Ht. destruct (ck_next d H) as [N1 N2].
  assert (∀ c s, ArenaTable.tmap (d_items d) !! c = Some s → s ≠ d_next d) as Hfresh.
  { intros c s E ->. pose proof (N2 _ (ck_sets d H c _ E)). lia. }
  split; cbn.
  - done.
  - intros c s. rewrite Ht, lookup_insert_Some. intros [[<- <-]|[_ E]]; [by simplify_map_eq|].
    rewrite lookup_insert_ne; [by eapply (ck_sets d H)|]. intros <-. by eapply Hfresh.
  - intros c c' s. rewrite Ht, !lookup_insert_Some.
    intros [[<- <-]|[_ E]] [[<- E']|[_ E']]; [done|by destruct (Hfresh _ _ E')|subst; by destruct (Hfresh _ _ E)|].
    by eapply (ck_inj d H).
  - intros s set1 [[<- <-]|[_ E]]%lookup_insert_Some; [done|by eapply (ck_wf d H)].
  - intros s set1 i r [[<- <-]|[_ E]]%lookup_insert_Some Hr; [by rewrite Hm in Hr|by eapply (ck_member d H)].
  - intros p it s Hp Hs. destruct (ck_placed d H p it s Hp Hs) as (set1 & k1 & E1 & E2 & E3 & E4 & E5).
    exists set1, k1. cbn. rewrite Ht. split_and!; try done.
    + rewrite lookup_insert_ne; [done|]. intros <-. by eapply Hfresh.
    + rewrite lookup_insert_ne; [done|]. intros E. rewrite E in Hk. congruence.
  - eapply (ck_sid d H).
  - eapply (ck_ids d H).
  - split; [intros p Hp; specialize (N1 p Hp); lia|].
    intros s [x [[<- _]|[_ E]]%lookup_insert_Some]; [lia|]. specialize (N2 s ltac:(eauto)). lia.
  - eapply (ck_other d H).
  - intros k [->|Hk']%ArenaTable.put_keys; [done|by apply (ck_keys d H)|apply H].
  - apply (ck_live d H).
  - apply H.
Qed.

Definition best_ok (d : dispatcher) (obj : list string) (best : option (nat * Z * Z)) : Prop :=
  ∀ k z s, best = Some (k, z, s) →
    ∃ key, obj !! k = Some key ∧ key ≠ "_" ∧ ArenaTable.tmap (d_items d) !! hash_key key = Some s.

Lemma choose_key_ok own l i obj d best :
  core_ok d → own ∉ d_freed d → l = drop i obj → best_ok d obj best →
  ∃ d' best', choose_key own d l i best = Some (d', best') ∧ core_ok d' ∧ same_rest d d' ∧
    d_heap d' = d_heap d ∧ d_groups d' = d_groups d ∧ d_calls d' = d_calls d ∧ best_ok d' obj best' ∧
    (best' = None → best = None ∧ Forall (eq "_") l).
Proof.
  revert i best. induction l as [|k l IH]; intros i best H Hown Hl Hb; cbn [choose_key].
  { exists d, best. split_and!; auto with oes. }
  assert (obj !! i = Some k) as Hk by (rewrite <-(Nat.add_0_r i), <-lookup_drop, <-Hl; done).
  assert (l = drop (S i) obj) as Hl' by (rewrite <-Nat.add_1_r, <-drop_drop, <-Hl; done).
  destruct (bool_decide_reflect ("_" = k)) as [<-|Hne].
  { destruct (IH (S i) best H Hown Hl' Hb) as (d' & b' & E & C & R & Eh & Eg & Ec & Hb' & Hn).
    exists d', b'. split_and!; auto. intros ->. destruct (Hn eq_refl). auto. }
  rewrite Table_get_live by done. cbn [mbind option_bind].
  destruct (ArenaTable.tmap (d_items d) !! hash_key k) as [s|] eqn:Es.
  - destruct (ck_sets d H _ _ Es) as [set Eset]. rewrite Eset. cbn [mbind option_bind].
    match goal with |- context [choose_key own d l (S i) ?b] => set (best1 := b) end.
    assert (best_ok d obj best1 ∧ best1 ≠ None) as [Hb1 Hn1].
    { unfold best1. destruct best as [[[k0 z0] s0]|]; [|split; [|done]].
      - case_match; split; try done. intros ? ? ? [= <- <- <-]. exists k. auto.
      - intros ? ? ? [= <- <- <-]. exists k. auto. }
    destruct (IH (S i) best1 H Hown Hl' Hb1) as (d' & b' & E & C & R & Eh & Eg & Ec & Hb' & Hn).
    exists d', b'. split_and!; auto. intros ->. by destruct (Hn eq_refl).
  - destruct (HSet.new_total (A := item_ref) 10) as (set & En & _); [lia|]. rewrite En. cbn [mbind option_bind].
    pose proof (core_new_set d (mkKey k own) set H Es Hown En) as C.
    change (alloc d) with (d_next d, (alloc d).2). cbv iota beta.
    unfold Table_put. change (ArenaTable.table_reads _ _ _) with
      (ArenaTable.table_reads (key_live d) (d_items d) (mkKey k own)). rewrite reads_live by done.
    cbn [mbind option_bind].
    eexists _, _. split_and!; [done|exact C| |done|done|done| |done].
    + repeat split; cbn; lia.
    + intros ? ? ? [= <- <- <-]. exists k. split_and!; [done|done|]. cbn.
      destruct (ArenaTable.put_spec (d_items d) (mkKey k own) (d_next d) (ck_table d H)) as (_ & -> & _).
      apply lookup_insert_eq.
Qed.

(** Putting item [p] into the set chosen for it. *)
Lemma core_place d p it s k key set :
  core_ok d → d_heap d !! p = Some it → itype it = REG → items it = None →
  object it !! k = Some key → key ≠ "_" → ArenaTable.tmap (d_items d) !! hash_key key = Some s →
  d_sets d !! s = Some set →
  core_ok (upd_sets <[s := HSet.Set_put set (mkRef p (sid it))]> (upd_heap <[p := set_placed it s k]> d)).
Proof.
  intros H Hp Ht Hi Hk Hne Hs Hset.
  destruct (HSet.set_put_spec set (mkRef p (sid it)) (ck_wf d H s set Hset)) as [Hw Hm]. cbn in Hm.
  assert (∀ q x, <[p := set_placed it s k]> (d_heap d) !! q = Some x →
    ∃ y, d_heap d !! q = Some y ∧ itype x = itype y ∧ sid x = sid y ∧ object x = object y ∧ group x = group y ∧
         (q = p ∧ x = set_placed it s k ∧ y = it ∨ q ≠ p ∧ x = y)) as Hold.
  { intros q x [[<- <-]|[Hq E]]%lookup_insert_Some; [exists it|exists x]; split_and!; auto. }
  split; cbn.
  - apply H.
  - intros c s' E. destruct (decide (s' = s)) as [->|]; simplify_map_eq; [eauto|by eapply (ck_sets d H)].
  - eapply (ck_inj d H).
  - intros s' set1 [[<- <-]|[_ E]]%lookup_insert_Some; [done|by eapply (ck_wf d H)].
  - intros s' set1 i r [[<- <-]|[Hs' E]]%lookup_insert_Some Hr.
    + rewrite Hm in Hr. apply lookup_insert_Some in Hr as [[<- <-]|[Hni Hr]].
      { exists (set_placed it s k). cbn. by rewrite lookup_insert_eq. }
      destruct (ck_member d H s set i r Hset Hr) as (y & F1 & F2 & F3 & F4). exists y.
      rewrite lookup_insert_ne; [done|]. intros ->. congruence.
    + destruct (ck_member d H s' set1 i r E Hr) as (y & F1 & F2 & F3 & F4). exists y.
      rewrite lookup_insert_ne; [done|]. intros ->. congruence.
  - intros q x s' Hq Hx. destruct (Hold q x Hq) as (y & Hy & _ & _ & _ & _ & [(-> & -> & ->)|[Hqp ->]]).
    + cbn in Hx. injection Hx as <-. exists (HSet.Set_put set (mkRef p (sid it))), key. cbn.
      split_and!; [apply lookup_insert_eq|rewrite Hm; apply lookup_insert_eq|done|done|done].
    + destruct (ck_placed d H q y s' Hy Hx) as (set1 & k1 & F1 & F2 & F3 & F4 & F5).
      destruct (decide (s' = s)) as [->|Hss].
      * assert (set1 = set) as -> by congruence. eexists _, k1. cbn. rewrite lookup_insert_eq.
        split_and!; [done| |done|done|done]. rewrite Hm, lookup_insert_ne; [done|]. intros E.
        destruct (ck_member d H s set _ _ Hset F2) as (z & G1 & G2 & G3 & G4). cbn in G1.
        apply Hqp. eapply (ck_sid d H q p y it); eauto. congruence.
      * exists set1, k1. cbn. by rewrite lookup_insert_ne.
  - intros q q' x x' Hq Hq'. destruct (Hold q x Hq) as (y & Hy & -> & -> & _).
    destruct (Hold q' x' Hq') as (y' & Hy' & -> & -> & _). by eapply (ck_sid d H).
  - intros q x Hq. destruct (Hold q x Hq) as (y & Hy & -> & -> & _). by eapply (ck_ids d H).
  - destruct (ck_next d H) as [N1 N2]. split.
    + intros q [x Hx]. destruct (Hold q x Hx) as (y & Hy & _). eauto.
    + intros s' [x [[<- _]|[_ E]]%lookup_insert_Some]; eauto.
  - intros q x Hq Hr. destruct (Hold q x Hq) as (y & Hy & E1 & _ & _ & Eg & [(-> & -> & ->)|[Hqp ->]]).
    + done.
    + by eapply (ck_other d H).
  - apply H.
  - intros q x Hq. destruct (Hold q x Hq) as (y & Hy & -> & -> & _). by eapply (ck_live d H).
  - apply H.
Qed.
