(* ===== verification/DispatcherSpec.v ===== *)
(** * DispatcherSpec: what the template matcher guarantees

    The operations of [Dispatcher] as steps, the invariant of every reachable
    state, and the theorems on waiting: an event wakes the templates it
    covers, a registration is woken at most once, and where the code falls
    short of that. *)

From S2P Require Import Prelude Values HashTable Collections Dispatcher.
Import SKeyTable DataObject DataObjectList.

(** ** Single items *)

(** Registration changes an item's place and timer only. *)
Definition registered (it it' : item_) : Prop :=
  alike it it' ∧ itype it' = itype it ∧ sid it' = sid it ∧ object it' = object it ∧ group it' = group it ∧
  (items it' = None → Forall (eq "_") (object it)).

Lemma groups_update d d' p it it' :
  groups_ok d → d_heap d !! p = Some it → d_heap d' = <[p := it']> (d_heap d) → d_groups d' = d_groups d →
  d_next d ≤ d_next d' → alike it it' → itype it' = itype it → group it' = group it →
  (∀ g l, d_groups d !! g = Some l → p ∈ l → group it = Some g ∨ items it' = None ∧ timer_event it' = false) →
  groups_ok d'.
Proof.
  intros H Hp Eh Eg En Ha Et Egr Hm.
  assert (∀ q x, d_heap d' !! q = Some x → ∃ y, d_heap d !! q = Some y ∧ alike y x ∧ group x = group y) as Hold.
  { intros q x. rewrite Eh, lookup_insert_Some. intros [[<- <-]|[_ E]]; [eauto|]. exists x. done. }
  split; rewrite ?Eg.
  - intros q x g Hq Hx. destruct (Hold q x Hq) as (y & Hy & _ & E). rewrite E in Hx. by eapply gk_group.
  - intros g l q Hg Hq. destruct (gk_live d H g l q Hg Hq) as (y & Hy & F1 & F2). rewrite Eh.
    destruct (decide (q = p)) as [->|]; [|exists y; by rewrite lookup_insert_ne].
    rewrite Hp in Hy. simplify_eq. exists it'. rewrite lookup_insert_eq, Et, Egr. split_and!; [done|done|].
    destruct (Hm g l Hg Hq) as [?|[? ?]]; [auto|]. destruct F2 as [?|[? _]]; auto.
  - eapply (gk_nodup d H).
  - eapply (gk_disj d H).
  - intros g Hg. pose proof (gk_next d H g Hg). lia.
  - intros g l q q' x x' Hg Hq Hq' Hx Hx'. destruct (Hold q x Hx) as (y & Hy & (A1 & A2 & A3 & A4) & _).
    destruct (Hold q' x' Hx') as (y' & Hy' & (B1 & B2 & B3 & B4) & _).
    destruct (gk_same d H g l q q' y y' Hg Hq Hq' Hy Hy') as (C1 & C2 & C3 & C4).
    unfold alike. split_and!; congruence.
  - intros g l q x Hg Hq Hx. destruct (Hold q x Hx) as (y & Hy & (_ & _ & _ & A4) & _). rewrite <-A4.
    by eapply (gk_safe d H).
Qed.

Lemma watch_ok d p it :
  disp_ok d → d_heap d !! p = Some it → itype it = REG →
  (∀ g l, d_groups d !! g = Some l → p ∈ l → group it = Some g) →
  ∃ d' it', _watch_for_timeout p d = Some d' ∧ disp_ok d' ∧ same_rest d d' ∧ d_groups d' = d_groups d ∧
    d_calls d' = d_calls d ∧ d_heap d' = <[p := it']> (d_heap d) ∧ (it' = it ∨ it' = set_timer it).
Proof.
  intros H Hp Ht Hg. unfold _watch_for_timeout. rewrite Hp. cbn. destruct (duration it =? Str.OEC_FOREVER).
  - exists d, it. split_and!; auto with oes. by rewrite insert_id.
  - eexists _, (set_timer it). split_and!; [done| |apply (same_rest_refl d)|done|done|done|auto].
    split.
    + eapply core_update; [apply H|done|done|done].
    + eapply groups_update; [apply H|exact Hp|done|done|cbn; lia|done|done|done|].
      eauto.
Qed.

Lemma reg_item_ok d p it :
  disp_ok d → d_heap d !! p = Some it → itype it = REG → items it = None →
  (∀ g l, d_groups d !! g = Some l → p ∈ l → group it = Some g) →
  ∃ rc d1 d' it', _add_template p d = Some (rc, d1) ∧ _watch_for_timeout p d1 = Some d' ∧
    disp_ok d' ∧ same_rest d d' ∧ d_groups d' = d_groups d ∧ d_calls d' = d_calls d ∧
    d_heap d' = <[p := it']> (d_heap d) ∧ registered it it'.
Proof.
  intros H Hp Ht Hi Hg. unfold _add_template. rewrite Hp. cbn [mbind option_bind].
  rewrite (template_live d p it) by (apply H || done). cbn [mbind option_bind].
  destruct (choose_key_ok (sid it) (object it) 0 (object it) d None (dk_core d H) (ck_live d (dk_core d H) p it Hp Ht) eq_refl)
    as (d1 & best & E & C & R & Eh & Eg & Ec & Hb & Hn); [done|]. rewrite E. cbn [mbind option_bind].
  assert (disp_ok d1) as H1.
  { split; [done|]. pose proof (dk_groups d H) as G. split; rewrite ?Eh, ?Eg; try apply G.
    intros g F. destruct R as (_&_&_&_&_&_&?). pose proof (gk_next d G g F). lia. }
  destruct best as [[[k z] s]|].
  - destruct (Hb k z s eq_refl) as (key & K1 & K2 & K3). destruct (ck_sets d1 C _ _ K3) as [set Es].
    rewrite Es. cbn [mbind option_bind].
    set (d2 := upd_sets _ _). assert (disp_ok d2) as H2.
    { split; [apply (core_place d1 p it s k key set); auto; by rewrite Eh|].
      eapply groups_update with (p := p); [apply H1|rewrite Eh; exact Hp|done|done|cbn; lia|done|done|done|].
      intros g l Hg' Hl. rewrite Eg in Hg'. eauto. }
    destruct (watch_ok d2 p (set_placed it s k) H2) as (d3 & it3 & E3 & F1 & F2 & F3 & F4 & F5 & F6);
      [cbn; by rewrite lookup_insert_eq|done|by cbn; rewrite Eg|].
    eexists _, d2, d3, it3. split_and!; [done|exact E3|done| | | | |].
    + eapply same_rest_trans; [exact R|]. exact F2.
    + rewrite F3. exact Eg.
    + rewrite F4. exact Ec.
    + rewrite F5. cbn. rewrite insert_insert_eq, Eh. done.
    + by destruct F6 as [->| ->].
  - destruct (watch_ok d1 p it H1) as (d3 & it3 & E3 & F1 & F2 & F3 & F4 & F5 & F6); [by rewrite Eh|done|by rewrite Eg|].
    eexists _, d1, d3, it3. split_and!; [done|exact E3|done| | | | |].
    + by eapply same_rest_trans.
    + by rewrite F3.
    + by rewrite F4.
    + by rewrite F5, Eh.
    + destruct (Hn eq_refl) as [_ Hall]. by destruct F6 as [->| ->].
Qed.

(** Freeing what is not a template. *)
Lemma delete_other d p :
  disp_ok d → (∀ it, d_heap d !! p = Some it → itype it ≠ REG) → disp_ok (upd_heap (delete p) d).
Proof.
  intros [C G] Hp. split.
  - split; cbn; try apply C.
    + intros s set i r Hs Hr. destruct (ck_member _ C s set i r Hs Hr) as (it & E & F). exists it.
      rewrite lookup_delete_ne; [done|]. intros ->. by destruct (Hp it E); apply F.
    + intros q it s [_ E]%lookup_delete_Some Hs. destruct (ck_placed _ C q it s E Hs) as (x & y & F). by exists x, y.
    + intros q q' x x' [_ E]%lookup_delete_Some [_ E']%lookup_delete_Some. by eapply (ck_sid _ C).
    + intros q x [_ E]%lookup_delete_Some. by eapply (ck_ids _ C).
    + destruct (ck_next _ C) as [N1 N2]. split; [|done]. intros q [x [_ E]%lookup_delete_Some]. eauto.
    + intros q x [_ E]%lookup_delete_Some. by eapply (ck_other _ C).
    + intros q x [_ E]%lookup_delete_Some. by eapply (ck_live _ C).
  - split; cbn; try apply G.
    + intros q x g [_ E]%lookup_delete_Some. by eapply (gk_group _ G).
    + intros g l q Hg Hq. destruct (gk_live _ G g l q Hg Hq) as (it & E & F). exists it.
      rewrite lookup_delete_ne; [done|]. intros ->. by destruct (Hp it E); apply F.
    + intros g l q q' x x' Hg Hq Hq' [_ E]%lookup_delete_Some [_ E']%lookup_delete_Some.
      exact (gk_same _ G g l q q' x x' Hg Hq Hq' E E').
    + intros g l q x Hg Hq [_ E]%lookup_delete_Some. by eapply (gk_safe _ G).
Qed.

(** Allocating an item that is in no set and no group. *)
Lemma new_item_ok d i :
  disp_ok d → items i = None → group i = None →
  (itype i = REG → sid i < next_unused_id d ∧ sid i ∉ d_freed d ∧
     ∀ p it, d_heap d !! p = Some it → itype it = REG → sid it ≠ sid i) →
  disp_ok (new_item i d).2 ∧ d_heap d !! d_next d = None.
Proof.
  intros [C G] Hi Hg Hs. destruct (ck_next d C) as [N1 N2].
  assert (d_heap d !! d_next d = None) as Hf.
  { destruct (d_heap d !! d_next d) eqn:E; [|done]. specialize (N1 (d_next d) ltac:(eauto)). lia. }
  assert (∀ q x, d_heap d !! q = Some x → q ≠ d_next d) as Hne by (intros q x E ->; congruence).
  split; [|done]. unfold new_item, alloc. cbn. split.
  - split; cbn; try apply C.
    + intros s set j r Hset Hr. destruct (ck_member _ C s set j r Hset Hr) as (it & E & F). exists it.
      rewrite lookup_insert_ne; [done|]. intros E'. rewrite <-E' in E. congruence.
    + intros q it s [[<- <-]|[_ E]]%lookup_insert_Some Hq; [congruence|].
      destruct (ck_placed _ C q it s E Hq) as (x & y & F). by exists x, y.
    + intros q q' x x' [[<- <-]|[_ E]]%lookup_insert_Some [[<- <-]|[_ E']]%lookup_insert_Some R1 R2 Es;
        [done| | |by eapply (ck_sid _ C)].
      * destruct (Hs R1) as (_ & _ & Hd). by destruct (Hd q' x' E' R2).
      * destruct (Hs R2) as (_ & _ & Hd). by destruct (Hd q x E R1).
    + intros q x [[<- <-]|[_ E]]%lookup_insert_Some Hr; [by apply Hs|by eapply (ck_ids _ C)].
    + split; [|intros s Hs'; specialize (N2 s Hs'); lia].
      intros q [x [[<- _]|[_ E]]%lookup_insert_Some]; [lia|]. specialize (N1 q ltac:(eauto)). lia.
    + intros q x [[<- <-]|[_ E]]%lookup_insert_Some Hr; [done|by eapply (ck_other _ C)].
    + intros q x [[<- <-]|[_ E]]%lookup_insert_Some Hr; [by apply Hs|by eapply (ck_live _ C)].
  - split; cbn; try apply G.
    + intros q x g [[<- <-]|[_ E]]%lookup_insert_Some Hx; [congruence|by eapply (gk_group _ G)].
    + intros g l q Hl Hq. destruct (gk_live _ G g l q Hl Hq) as (it & E & F). exists it.
      rewrite lookup_insert_ne; [done|]. by eapply not_eq_sym, Hne.
    + intros g Hl. pose proof (gk_next _ G g Hl). lia.
    + intros g l q q' x x' Hl Hq Hq'. destruct (gk_live _ G g l q Hl Hq) as (y & E & _).
      destruct (gk_live _ G g l q' Hl Hq') as (y' & E' & _).
      rewrite !lookup_insert_ne by (eapply not_eq_sym, Hne; eassumption). exact (gk_same _ G g l q q' x x' Hl Hq Hq').
    + intros g l q x Hl Hq. destruct (gk_live _ G g l q Hl Hq) as (y & E & _).
      rewrite lookup_insert_ne by (eapply not_eq_sym, Hne; eassumption). by eapply (gk_safe _ G).
Qed.

(** ** The queue *)

Definition queueable (t : ITEM_TYPE) : bool :=
  match t with TQUIT | HEARTBEAT | TIMEOUT => false | _ => true end.

(** What may stand in the queue.  Quitting and the heartbeat are not steps of
    the model. *)
Definition queued (d : dispatcher) (p : Z) : Prop :=
  ∃ it, d_heap d !! p = Some it ∧ itype it ≠ TQUIT ∧ queueable (itype it) = true ∧ (itype it = EXECUTE → sid it = 0) ∧
    (itype it = REG → items it = None ∧ ∀ g l, d_groups d !! g = Some l → p ∈ l → group it = Some g).

Record full_ok (d : dispatcher) : Prop := {
  fk_disp : disp_ok d;
  fk_nodup : NoDup (d_que d);
  fk_que p : p ∈ d_que d → queued d p;
  fk_id : 0 < next_unused_id d;
  fk_calls c : c ∈ d_calls d → c_sid c < next_unused_id d
}.

Lemma not_member d p it g l :
  disp_ok d → d_heap d !! p = Some it → itype it ≠ REG → d_groups d !! g = Some l → p ∉ l.
Proof.
  intros H Hp Hr Hg Hl. destruct (gk_live d (dk_groups d H) g l p Hg Hl) as (y & Hy & ? & _). congruence.
Qed.

(** Nothing the invariant of waiting speaks of has changed, but for items
    that cannot run a handler and belong to no group. *)
Lemma once_same a b k Q Q' d d' :
  d_calls d' = d_calls d → (∀ g l, d_groups d !! g = Some l → d_groups d' !! g = Some l) →
  (∀ p it, d_heap d' !! p = Some it →
     d_heap d !! p = Some it ∨
     (itype it = REG → items it = None ∧ p ∉ Q') ∧ ∀ g l, d_groups d !! g = Some l → p ∉ l) →
  (∀ p it g l, d_groups d !! g = Some l → p ∈ l → d_heap d !! p = Some it → d_heap d' !! p = Some it) →
  (∃ p, Q = p :: Q' ∧ ∀ g l, d_groups d !! g = Some l → p ∉ l) ∨ Q' = Q →
  once_ok a b k Q d → once_ok a b k Q' d'.
Proof.
  intros Ec Eg Eh Ek HQ'. unfold once_ok. rewrite Ec.
  assert (∀ q, q ∈ Q' → q ∈ Q) as HQ by (destruct HQ' as [(p & -> & _)| ->]; set_solver).
  assert (∀ p it, alive Q' d' p it → alive Q d p it) as Ha.
  { intros p it (H1 & H2 & H3 & H4). destruct (Eh p it H1) as [E|[E _]].
    - split_and!; auto. destruct H3; auto.
    - destruct (E H2). destruct H3; done. }
  intros [(Hno & Hle & Hk)|(Hz & g & l & El & Hin & Hf & Hall & Hk)]; [left; eauto|].
  assert (∀ p it, p ∈ l → d_heap d' !! p = Some it → d_heap d !! p = Some it) as Hl.
  { intros p it Hp Hit. destruct (Eh p it Hit) as [?|[_ E]]; [done|]. by destruct (E g l El). }
  right. split; [done|]. exists g, l. split_and!; eauto.
  - intros h Hh. destruct (Hf h Hh) as [Hf1 Hf2]. split.
    + intros q it Hq Hit Hp Hh'. eapply (Hf1 q it); eauto.
    + intros i j q Hi Hj Hq. destruct HQ' as [(p & -> & _)| ->]; [|by eapply Hf2].
      pose proof (Hf2 (S i) (S j) q Hi Hj Hq). lia.
  - intros Hkt. destruct (Hk Hkt) as (h & it & Hh & Hit & Hm & Ht & Hi).
    assert (h ∈ l) as Hhl by (destruct l; [done|]; injection Hh as ->; left).
    exists h, it. split_and!; eauto. destruct Hi as [?|[HhQ ?]]; [by left|right; split; [|done]].
    destruct HQ' as [(p & -> & Hp)| ->]; [|done].
    apply elem_of_cons in HhQ as [->|?]; [by destruct (Hp g l El)|done].
Qed.

Lemma step_reg a b k d d' p it it' Q :
  d_heap d !! p = Some it → itype it = REG → registered it it' → items it = None → p ∉ Q →
  d_heap d' = <[p := it']> (d_heap d) → d_groups d' = d_groups d → d_calls d' = d_calls d →
  once_ok a b k (p :: Q) d → once_ok a b k Q d'.
Proof.
  intros Hp Ht (Ha & Et & Es & _ & _ & Hnone) Hi HpQ Eh Eg Ec. unfold once_ok. rewrite Ec, Eg.
  assert (∀ q y, alive Q d' q y → ∃ x, alive (p :: Q) d q x ∧ sid x = sid y) as Hal.
  { intros q y (H1 & H2 & H3 & H4). rewrite Eh in H1. apply lookup_insert_Some in H1 as [[<- <-]|[Hne H1]].
    - exists it. destruct Ha as (A1 & A2 & _). split; [|done]. split_and!; [done|done|right; left|]. by rewrite A1, A2.
    - exists y. split; [|done]. split_and!; auto. destruct H3; [auto|]. right. by right. }
  intros [(Hno & Hle & Hk)|(Hz & g & l & El & Hin & Hf & Hall & Hk)].
  { left. split; [|done]. intros q y Hq Hr. destruct (Hal q y Hq) as (x & Hx & E). apply (Hno q x Hx). by rewrite E. }
  right. split; [done|]. exists g, l. split_and!; [done| | | |].
  { intros q y Hq Hr. destruct (Hal q y Hq) as (x & Hx & E). apply (Hin q x Hx). by rewrite E. }
  2:{ intros q y Hq Hy. rewrite Eh in Hy. apply lookup_insert_Some in Hy as [[<- <-]|[_ Hy]]; [|eauto].
      rewrite Es. eauto. }
  - intros h Hh. destruct (Hf h Hh) as [Hf1 Hf2]. split.
    + intros q y Hq Hy Hpr HhQ. rewrite Eh in Hy. apply lookup_insert_Some in Hy as [[<- <-]|[Hne Hy]].
      * apply list_elem_of_lookup in HhQ as [i Hhi]. pose proof (Hf2 (S i) 0%nat p Hhi eq_refl Hq). lia.
      * apply (Hf1 q y Hq Hy Hpr). by right.
    + intros i j q Hqi Hqj Hq. pose proof (Hf2 (S i) (S j) q Hqi Hqj Hq). lia.
  - intros Hkt. destruct (Hk Hkt) as (h & y & Hh & Hy & Hm & Hto & Hiy). exists h. rewrite Eh.
    destruct (decide (h = p)) as [->|Hne].
    + rewrite Hp in Hy. injection Hy as <-. exists it'. rewrite lookup_insert_eq. destruct Ha as (A1 & A2 & _).
      rewrite <-A1, <-A2. split_and!; [done..|left]. intros E. destruct Hiy as [?|[_ Hw]]; [done|]. by apply Hw, Hnone.
    + exists y. rewrite lookup_insert_ne by done. split_and!; [done..|].
      destruct Hiy as [?|[[->|?]%elem_of_cons ?]]; auto; done.
Qed.

Lemma once_call a b k Q f x i d : ¬ a ≤ i < b → once_ok a b k Q d → once_ok a b k Q (_process_fun f x i d).
Proof.
  intros Hi. unfold once_ok.
  change (d_calls (_process_fun f x i d)) with (d_calls d ++ [mkCall f x i]). rewrite woken_app, (woken_none a b [mkCall f x i]), Nat.add_0_r; [done|].
  by intros c ->%list_elem_of_singleton.
Qed.

(** The state after an item of the queue has been handled. *)
Definition stepped (d d' : dispatcher) (p : Z) : Prop :=
  full_ok d' ∧ d_que d' = d_que d ∧ number_of_threads d' = number_of_threads d ∧
  next_unused_id d' = next_unused_id d ∧
  ∀ a b k, 0 < a → once_ok a b k (p :: d_que d) d → once_ok a b k (d_que d') d'.

(** Items that are in no set stay, at most left over from their group. *)
Definition kept_items (d d' : dispatcher) : Prop :=
  ∀ q it, d_heap d !! q = Some it → items it = None →
    ∃ it', d_heap d' !! q = Some it' ∧ (it' = it ∨ ∃ j, it' = left_over j it).

Lemma advanced_kept ev d d' new : advanced ev d d' new → kept_items d d'.
Proof.
  intros A q it Hq Hi. destruct (av_kept _ _ _ _ A q it Hq Hi) as [it' Hq']. exists it'. split; [done|].
  destruct (av_old _ _ _ _ A q it' Hq') as (y & Hy & [->|(_ & F)]); rewrite Hq in Hy; simplify_eq; auto.
Qed.

Lemma queued_kept d d' p :
  disp_ok d → kept_items d d' → kept_groups d d' → queued d p → queued d' p.
Proof.
  intros H A G (it & Hp & N1 & N2 & N3 & N4).
  assert (items it = None) as Hi.
  { destruct (decide (itype it = REG)) as [Hr|Hr]; [by apply N4|]. by destruct (ck_other d (dk_core d H) p it Hp Hr). }
  destruct (A p it Hp Hi) as (it' & Hp' & F). exists it'.
  assert (itype it' = itype it ∧ sid it' = sid it ∧ items it' = items it) as (E1 & E2 & E3).
  { destruct F as [->|(j & ->)]; [done|]. by destruct (left_over_same j it) as [(-> & -> & _ & _ & ->) _]. }
  rewrite E1, E2, E3. split_and!; auto. intros Hr. destruct (N4 Hr) as [_ Hg]. split; [done|].
  intros g l El Hl. destruct (G g l El) as [El' Hsame].
  rewrite (Hsame p Hl), Hp in Hp'. simplify_eq. eauto.
Qed.

Lemma delete_step d d1 p it :
  full_ok d → disp_ok d1 → (∀ q, q ∈ d_que d → queued d1 q) → same_rest d d1 →
  d_heap d1 !! p = Some it → itype it ≠ REG → p ∉ d_que d →
  (∀ c, c ∈ d_calls d1 → c_sid c < next_unused_id d) →
  (∀ a b k, 0 < a → once_ok a b k (p :: d_que d) d → once_ok a b k (p :: d_que d) d1) →
  stepped d (upd_heap (delete p) d1) p.
Proof.
  intros F H1 Hq (R1 & R2 & R3 & _) Hp Hr Hn Hc Ho. split_and!.
  - split; cbn.
    + apply delete_other; [done|]. intros y Hy. congruence.
    + rewrite R1. apply F.
    + rewrite R1. intros q Hq'. destruct (Hq q Hq') as (y & Hy & N). exists y. cbn.
      rewrite lookup_delete_ne; [done|]. intros ->. done.
    + rewrite R2. apply (fk_id d F).
    + by rewrite R2.
  - done.
  - done.
  - done.
  - intros a b k Ha Hd. cbn. rewrite R1. eapply once_same; [..|by apply Ho]; try done.
    + intros q y Hy. cbn in Hy. left. by apply lookup_delete_Some in Hy as [_ Hy].
    + intros q y g l El Hql Hy. cbn. rewrite lookup_delete_ne; [done|].
      intros <-. by destruct (not_member d1 p it g l H1 Hp Hr El).
    + left. exists p. split; [done|]. intros g l El. by eapply not_member.
Qed.

Lemma item_step d p :
  full_ok d → queued d p → p ∉ d_que d →
  ∃ d', _process_que_item p d = Some d' ∧ stepped d d' p.
Proof.
  intros F (it & Hp & N1 & N2 & N3 & N4) Hn. pose proof (fk_disp d F) as H.
  unfold _process_que_item. rewrite Hp. cbn [mbind option_bind]. destruct (itype it) eqn:Et; try done.
  - destruct (N4 eq_refl) as [Hi Hg].
    destruct (reg_item_ok d p it H Hp Et Hi Hg) as (rc & d1 & d' & it' & E1 & E2 & H' & (R1 & R2 & R3 & _) & Eg & Ec & Eh & Hr).
    rewrite E1. cbn [mbind option_bind]. exists d'. split; [done|]. split_and!; try done.
    + split; [done|rewrite R1; apply F| |rewrite R2; apply (fk_id d F)|rewrite R2, Ec; apply F].
      rewrite R1. intros q Hq. destruct (fk_que d F q Hq) as (y & Hy & N). exists y.
      rewrite Eh, Eg, lookup_insert_ne; [done|]. intros ->. done.
    + intros a b k Ha Ho. rewrite R1. by eapply step_reg.
  - unfold _remove_item. rewrite Hp. cbn [mbind option_bind].
    destruct (ck_other d (dk_core d H) p it Hp ltac:(congruence)) as [Hi Hg]. rewrite Hg.
    unfold remove_ungrouped. rewrite Hp. cbn [mbind option_bind]. rewrite Hi.
    exists d. split; [done|]. split_and!; try done. intros a b k Ha.
    apply once_same; auto. left. exists p. split; [done|]. intros g l El. eapply not_member; [done..| |done]. congruence.
  - destruct (process_ok (object it) d H) as (d1 & new & E & A & _). rewrite E. cbn [mbind option_bind].
    eexists. split; [done|].
    destruct (ck_other d (dk_core d H) p it Hp ltac:(congruence)) as [Hi _].
    destruct (av_kept _ _ _ _ A p it Hp Hi) as [it' Hp'].
    eapply (delete_step d d1 p it'); [done|apply A| |apply A|done| |done| |].
    + intros q Hq. eapply queued_kept; eauto using advanced_kept, av_groups. by apply F.
    + destruct (av_old _ _ _ _ A p it' Hp') as (y & Hy & [->|(_ & j & ->)]); rewrite Hp in Hy; simplify_eq; [congruence|].
      destruct (left_over_same j y) as [(-> & _) _]. congruence.
    + rewrite (av_calls _ _ _ _ A). intros c [Hc|Hc]%elem_of_app; [by apply (fk_calls d F)|].
      destruct (av_sound _ _ _ _ A c Hc) as (q & y & Hq & Hqi & _ & -> & _). cbn.
      eapply (ck_ids d (dk_core d H)); eauto using disp_reg_placed.
    + intros a b k _. apply (av_once _ _ _ _ A).
  - eexists. split; [done|].
    set (d1 := match match_handler it with Some f => _ | None => _ end).
    assert (d_heap d1 = d_heap d ∧ disp_ok d1 ∧ same_rest d d1 ∧ d_groups d1 = d_groups d) as (Eh & H1 & R & Eg).
    { unfold d1. case_match; [|auto with oes]. split_and!; [done| |apply (same_rest_refl d)|done].
      by eapply disp_ok_ext; [..|exact H]. }
    eapply (delete_step d d1 p it); [done|done| |done|by rewrite Eh|congruence|done| |].
    2:{ intros c. unfold d1. case_match; [|apply (fk_calls d F)]. cbn. rewrite elem_of_app.
        intros [Hc| ->%list_elem_of_singleton]; [by apply (fk_calls d F)|]. cbn. rewrite N3 by done. apply (fk_id d F). }
    + intros q Hq. destruct (fk_que d F q Hq) as (y & Hy & N). exists y. by rewrite Eh, Eg.
    + intros a b k Ha Ho. unfold d1. case_match; [|done]. apply once_call; [|done]. rewrite N3 by done. lia.
  - eexists. split; [done|]. eapply (delete_step d d p it); auto with oes; [|congruence|]; [apply (fk_que d F)|apply (fk_calls d F)].
Qed.

(** One more item in the queue, outside the range. *)
Lemma once_cons a b k Q d p :
  (∀ it, d_heap d !! p = Some it → itype it = REG → ¬ a ≤ sid it < b) →
  disp_ok d → once_ok a b k Q d → once_ok a b k (p :: Q) d ∧ once_ok a b k (Q ++ [p]) d.
Proof.
  intros Hp H. unfold once_ok.
  assert (∀ Q' q it, (∀ x, x ∈ Q' → x ∈ Q ∨ x = p) → alive Q' d q it → a ≤ sid it < b → alive Q d q it) as Hal.
  { intros Q' q it HQ (H1 & H2 & H3 & H4) Hr. split_and!; auto. destruct H3 as [?|Hq]; [auto|].
    destruct (HQ q Hq) as [?| ->]; [auto|]. by destruct (Hp it H1 H2). }
  assert (∀ x, x ∈ p :: Q → x ∈ Q ∨ x = p) as HQ1 by set_solver.
  assert (∀ x, x ∈ Q ++ [p] → x ∈ Q ∨ x = p) as HQ2 by set_solver.
  intros [(Hno & Hle & Hk)|(Hz & g & l & El & Hin & Hf & Hall & Hk)]; [split; left; split_and!; eauto|].
  assert (∀ h, head l = Some h → h ∈ l) as Hhd by (intros h; destruct l; [done|]; intros [= ->]; left).
  assert (p ∉ l) as Hpl.
  { intros Hpl. destruct (gk_live d (dk_groups d H) g l p El Hpl) as (y & Hy & Ht & _).
    apply (Hp y Hy Ht). eauto. }
  assert (∀ h, head l = Some h → h ≠ p) as Hhp by (intros h Hh ->; auto).
  assert (∀ Q', (∀ x, x ∈ Q → x ∈ Q') → k = true → keyed_head Q' d l) as Hk'.
  { intros Q' HQ Hkt. destruct (Hk Hkt) as (h & y & ? & ? & ? & ? & Hi). exists h, y. split_and!; try done.
    destruct Hi as [?|[? ?]]; auto. }
  split; right; (split; [done|]); exists g, l; split_and!; eauto; try (apply Hk'; set_solver).
  - intros h Hh. destruct (Hf h Hh) as [Hf1 Hf2]. split.
    + intros q it Hq Hit Hpr Hin'. destruct (HQ1 h Hin') as [?| ->]; [by eapply Hf1|by apply (Hhp p)].
    + intros [|i] [|j] q Hi Hj Hq; cbn in Hi, Hj; simplify_eq; [lia|by destruct (Hhp h)|done|].
      pose proof (Hf2 i j q Hi Hj Hq). lia.
  - intros h Hh. destruct (Hf h Hh) as [Hf1 Hf2]. split.
    + intros q it Hq Hit Hpr Hin'. destruct (HQ2 h Hin') as [?| ->]; [by eapply Hf1|by apply (Hhp p)].
    + intros i j q [Hi|[_ Hi]]%lookup_app_Some [Hj|[_ Hj]]%lookup_app_Some Hq.
      * eauto.
      * apply list_lookup_singleton_Some in Hj as [_ <-]. done.
      * apply list_lookup_singleton_Some in Hi as [_ <-]. by destruct (Hhp p).
      * apply list_lookup_singleton_Some in Hi as [_ <-]. by destruct (Hhp p).
Qed.

(** Scheduling an item that is not yet in the queue. *)
Definition scheduled (d d' : dispatcher) (p : Z) : Prop :=
  full_ok d' ∧ number_of_threads d' = number_of_threads d ∧ next_unused_id d' = next_unused_id d ∧
  ∀ a b k, 0 < a → (∀ it, d_heap d !! p = Some it → itype it = REG → ¬ a ≤ sid it < b) →
    once_ok a b k (d_que d) d → once_ok a b k (d_que d') d'.

Lemma push_ok d p : full_ok d → queued d p → p ∉ d_que d → scheduled d (_que_push p d) p.
Proof.
  intros F Hq Hn. split_and!; try done.
  - split; cbn; try apply (fk_id _ F); try apply (fk_calls _ F); try apply F.
    + by eapply disp_ok_ext; [..|apply F].
    + apply list.NoDup_app. split_and!; [apply F|set_solver|apply NoDup_singleton].
    + intros q [Hq'|Hq']%elem_of_app; [by apply F|]. apply list_elem_of_singleton in Hq'. by subst.
  - intros a b k Ha Hr Ho. cbn. exact (proj2 (once_cons a b k (d_que d) d p Hr (fk_disp d F) Ho)).
Qed.

Lemma schedule_ok d p :
  full_ok d → queued d p → p ∉ d_que d → ∃ d', _schedule_item p d = Some d' ∧ scheduled d d' p.
Proof.
  intros F Hq Hn. unfold _schedule_item. destruct (0 <? number_of_threads d).
  { eexists. split; [done|]. by apply push_ok. }
  destruct (item_step d p F Hq Hn) as (d' & E & F' & E1 & E2 & E3 & Ho). rewrite E. cbn.
  eexists. split; [done|]. split_and!; try done.
  - split; cbn; try apply (fk_id _ F'); try apply (fk_calls _ F'); try apply F'. by eapply disp_ok_ext; [..|apply F'].
  - intros a b k Ha Hr Hd. cbn. apply Ho; [done|]. by apply once_cons; [|apply F|].
Qed.

Lemma que_ok n d :
  full_ok d →
  ∃ d', _process_que n d = Some d' ∧ full_ok d' ∧ number_of_threads d' = number_of_threads d ∧
    next_unused_id d' = next_unused_id d ∧
    ∀ a b k, 0 < a → once_ok a b k (d_que d) d → once_ok a b k (d_que d') d'.
Proof.
  revert d. induction n as [|n IH]; intros d F; cbn [_process_que]; [by exists d|].
  unfold _que_pop. destruct (d_que d) as [|p q] eqn:Eq.
  - cbn [mbind option_bind]. set (d0 := upd_que [] _ _ d).
    assert (full_ok d0) as F0.
    { split; cbn; try apply (fk_id _ F); try apply (fk_calls _ F); try apply F; [by eapply disp_ok_ext; [..|apply F]|constructor|set_solver]. }
    destruct (IH d0 F0) as (d' & E & F' & E1 & E2 & Ho). exists d'. split_and!; try done.
  - set (d0 := upd_que q _ _ d). pose proof (fk_nodup d F) as Hnd. rewrite Eq in Hnd.
    assert (full_ok d0) as F0.
    { split; cbn; try apply (fk_id _ F); try apply (fk_calls _ F); try apply F; [by eapply disp_ok_ext; [..|apply F]|by eapply NoDup_cons_1_2|].
      intros x Hx. apply (fk_que d F). rewrite Eq. by right. }
    destruct (item_step d0 p F0) as (d1 & E1 & F1 & G1 & G2 & G3 & Ho1).
    { apply (fk_que d F). rewrite Eq. left. }
    { by apply NoDup_cons_1_1 in Hnd. }
    rewrite E1. cbn [mbind option_bind]. destruct (IH d1 F1) as (d' & E & F' & J1 & J2 & Ho).
    exists d'. split_and!; [done|done|by rewrite J1, G2|by rewrite J2, G3|].
    intros a b k Ha Hd. apply Ho; [done|]. by apply Ho1.
Qed.

Lemma member_calls_from d l timeout c :
  c ∈ member_calls d l 0 timeout →
  (length (member_calls d l 0 timeout) ≤ 1)%nat ∧
  ∃ q it, q ∈ l ∧ d_heap d !! q = Some it ∧ items it ≠ None ∧ timeout_handler it ≠ None ∧ c_sid c = sid it.
Proof.
  unfold member_calls, timeout_calls. destruct l as [|q l]; [set_solver|].
  destruct (d_heap d !! q) as [it|] eqn:E; [|set_solver]. cbn [Nat.eqb andb].
  case_bool_decide as Hi; [|set_solver]. destruct (timeout_handler it) eqn:Eh; [|set_solver].
  destruct timeout; [|set_solver]. intros ->%list_elem_of_singleton. split; [cbn; lia|].
  exists q, it. split_and!; [left|done| |congruence|done]. intros Hn. rewrite Hn in Hi. by destruct Hi.
Qed.

Lemma removal_length d p it timeout : (length (removal_calls d p it timeout) ≤ 1)%nat.
Proof.
  destruct (removal_calls d p it timeout) as [|c l] eqn:E; [cbn; lia|]. rewrite <-E.
  eapply member_calls_from. unfold removal_calls in E. rewrite E. left.
Qed.

(** A timer that fires. *)
Lemma timer_ok d p it :
  full_ok d → d_heap d !! p = Some it → itype it = REG → timer_event it = true →
  ∃ d', _timeout_cb p d = Some d' ∧ full_ok d' ∧ d_que d' = d_que d ∧
    number_of_threads d' = number_of_threads d ∧ next_unused_id d' = next_unused_id d ∧
    d_calls d' = d_calls d ++ removal_calls d p it true ∧ removed d d' (mates d p it) ∧
    ∀ a b k, once_ok a b k (d_que d) d → once_ok a b k (d_que d) d'.
Proof.
  intros F Hp Ht Htm. pose proof (fk_disp d F) as H. unfold _timeout_cb.
  destruct (remove_item_ok d p it true H Hp) as (d' & E & H' & (R1 & R2 & R3 & _) & Hr & HK & HG & Hc).
  assert (∀ c, c ∈ removal_calls d p it true →
    ∃ q y, q ∈ mates d p it ∧ alive (d_que d) d q y ∧ c_sid c = sid y) as Hnew.
  { intros c [_ (q & y & Hq & Hy & Hi & Hh & Es)]%member_calls_from. exists q, y.
    split_and!; [done| |done]. split_and!; auto. exact (disp_reg_placed d q y H Hy Hi). }
  assert (kept_items d d') as HI.
  { intros q y Hy Hi. destruct (decide (q ∈ mates d p it)) as [Hm|Hm].
    - destruct (proj2 Hr q y Hm Hy) as [_ Hj]. destruct (Hj Hi) as (j & _ & ->). eauto.
    - rewrite (proj1 Hr q Hm). eauto. }
  exists d'. split_and!; try done.
  - split.
    + done.
    + rewrite R1. apply F.
    + rewrite R1. intros q Hq. apply (queued_kept d d' q H HI HK). by apply F.
    + rewrite R2. apply (fk_id d F).
    + rewrite R2, Hc. intros c [Hc'|Hc']%elem_of_app; [by apply (fk_calls d F)|].
      destruct (Hnew c Hc') as (q & y & _ & (Hy & Hyt & _) & ->). by eapply (ck_ids d (dk_core d H)).
  - intros a b k Ho. apply (removal_once a b k (d_que d) d d' p it (removal_calls d p it true)); auto using removal_length.
    intros h y Hh Hy Hi _ Hto. unfold removal_calls, member_calls. destruct (mates d p it); [done|]. injection Hh as ->.
    rewrite Hy, bool_decide_true by (by apply not_eq_None_Some). cbn. unfold timeout_calls. by destruct (timeout_handler y).
Qed.

(** A new item that is in no set, no group and not in the queue. *)
Definition fresh_item (d : dispatcher) (i : item_) : Prop :=
  items i = None ∧ group i = None ∧ timer_event i = false ∧ itype i ≠ TQUIT ∧ queueable (itype i) = true ∧
  (itype i = EXECUTE → sid i = 0) ∧
  (itype i = REG → sid i < next_unused_id d ∧ sid i ∉ d_freed d ∧
     ∀ p it, d_heap d !! p = Some it → itype it = REG → sid it ≠ sid i).

Record added (d d' : dispatcher) (p : Z) (i : item_) : Prop := {
  ad_ok : full_ok d';
  ad_heap : d_heap d' = <[p := i]> (d_heap d);
  ad_new : d_heap d !! p = None;
  ad_que : d_que d' = d_que d ∧ p ∉ d_que d;
  ad_groups : d_groups d' = d_groups d ∧ ∀ g l, d_groups d !! g = Some l → p ∉ l;
  ad_calls : d_calls d' = d_calls d;
  ad_queued : queued d' p;
  ad_rest : number_of_threads d' = number_of_threads d ∧ next_unused_id d' = next_unused_id d;
  ad_once a b k : once_ok a b k (d_que d) d → once_ok a b k (d_que d') d'
}.

Lemma add_item_ok d i : full_ok d → fresh_item d i → added d (new_item i d).2 (new_item i d).1 i.
Proof.
  intros F (Hi & Hg & Htm & N1 & N2 & N3 & Hs). pose proof (fk_disp d F) as H.
  destruct (new_item_ok d i H Hi Hg Hs) as [H' Hn].
  assert (d_next d ∉ d_que d) as Hq.
  { intros Hin. destruct (fk_que d F _ Hin) as (y & Hy & _). congruence. }
  assert (∀ g l, d_groups d !! g = Some l → d_next d ∉ l) as Hl.
  { intros g l El Hin. destruct (gk_live d (dk_groups d H) g l _ El Hin) as (y & Hy & _). congruence. }
  split; try done.
  - split; cbn; try apply (fk_id _ F); try apply (fk_calls _ F); try apply F; [done|]. intros q Hq'. destruct (fk_que d F q Hq') as (y & Hy & N). exists y. cbn.
    rewrite lookup_insert_ne; [done|]. intros <-. done.
  - exists i. cbn. rewrite lookup_insert_eq. split_and!; auto. intros _. split; [done|].
    intros g l El Hin. by destruct (Hl g l El).
  - intros a b k. apply once_same; auto.
    + intros q y. cbn. intros [[<- <-]|[_ E]]%lookup_insert_Some; [right; by eauto|auto].
    + intros q y g l El Hin Hy. cbn. rewrite lookup_insert_ne; [done|]. intros <-. by destruct (Hl g l El).
Qed.

(** The id generator does not wrap. *)
Lemma gen_id_ok d :
  full_ok d → next_unused_id d + 1 < 2 ^ 64 →
  full_ok (_gen_id d).2 ∧ next_unused_id (_gen_id d).2 = next_unused_id d + 1 ∧
  ∀ a b k, once_ok a b k (d_que d) d → once_ok a b k (d_que d) (_gen_id d).2.
Proof.
  intros F Hlt. pose proof (fk_id d F). pose proof (fk_disp d F) as [C G].
  assert (next_unused_id (_gen_id d).2 = next_unused_id d + 1) as E.
  { cbn. apply wrapu_id. unfold in_u. lia. }
  split_and!; [|done|done]. split; try apply (fk_id _ F); try apply (fk_calls _ F); try apply F.
  - split; [|by destruct G]. split; try apply C; rewrite E.
    + intros p it Hp Ht. pose proof (ck_ids d C p it Hp Ht). lia.
    + intros i Hi. pose proof (ck_freed d C i Hi). lia.
  - rewrite E. lia.
  - rewrite E. intros c Hc. pose proof (fk_calls d F c Hc). lia.
Qed.

(** A new item with a new id. *)
Lemma create_ok d i :
  full_ok d → next_unused_id d + 1 < 2 ^ 64 → sid i = next_unused_id d →
  items i = None → group i = None → timer_event i = false → itype i ≠ TQUIT → queueable (itype i) = true →
  itype i ≠ EXECUTE →
  added (_gen_id d).2 (new_item i (_gen_id d).2).2 (new_item i (_gen_id d).2).1 i ∧
  next_unused_id (_gen_id d).2 = next_unused_id d + 1 ∧
  ∀ a b k, once_ok a b k (d_que d) d → once_ok a b k (d_que d) (_gen_id d).2.
Proof.
  intros F Hlt Hs Hi Hg Ht N1 N2 N3. destruct (gen_id_ok d F Hlt) as (F' & E & Ho). split; [|done].
  apply add_item_ok; [done|]. split_and!; try done. intros _. rewrite E. split; [lia|].
  split; [intros Hi'; pose proof (ck_freed d (dk_core d (fk_disp d F)) _ Hi'); lia|].
  intros p it Hp Hr. cbn in Hp. pose proof (ck_ids d (dk_core d (fk_disp d F)) p it Hp Hr). lia.
Qed.

(** ** Registering a group *)

(** An item of a group before it is scheduled. *)
Definition newly (c : bool) (mh th : option Z) (arg : Z) (it : item_) : Prop :=
  itype it = REG ∧ items it = None ∧ group it = None ∧ timer_event it = false ∧
  consume it = c ∧ match_handler it = mh ∧ timeout_handler it = th ∧ args it = arg.

Lemma create_group_ok all dur c mh th arg sid0 acc d :
  full_ok d → next_unused_id d + Z.of_nat (length all) < 2 ^ 64 →
  ∃ sid' l d', create_group all dur c mh th arg sid0 acc d = (sid', acc ++ l, d') ∧ full_ok d' ∧
    d_que d' = d_que d ∧ d_groups d' = d_groups d ∧ number_of_threads d' = number_of_threads d ∧
    d_calls d' = d_calls d ∧ next_unused_id d' = next_unused_id d + Z.of_nat (length all) ∧
    length l = length all ∧ NoDup l ∧
    (∀ p, p ∈ l → d_heap d !! p = None ∧ p ∉ d_que d ∧ (∀ g l', d_groups d !! g = Some l' → p ∉ l') ∧
       ∃ it, d_heap d' !! p = Some it ∧ newly c mh th arg it ∧ next_unused_id d ≤ sid it) ∧
    (∀ q, q ∉ l → d_heap d' !! q = d_heap d !! q) ∧
    (∀ o all', all = o :: all' → ∃ p l' it, l = p :: l' ∧ d_heap d' !! p = Some it ∧ object it = strings o) ∧
    (∀ a b k, once_ok a b k (d_que d) d → once_ok a b k (d_que d') d').
Proof.
  revert sid0 acc d. induction all as [|o all IH]; intros sid0 acc d F Hlt; cbn [create_group].
  { exists sid0, [], d. rewrite app_nil_r. cbn. split_and!; try done; [lia|constructor|set_solver]. }
  unfold _create_reg_item. change (_gen_id d) with (next_unused_id d, (_gen_id d).2). cbv iota beta.
  set (i := mkItem_ REG (next_unused_id d) c (strings o) mh th arg 0 false dur None None).
  destruct (create_ok d i F) as (A & En & Ho0); [cbn in Hlt; lia|done..|].
  destruct (new_item i (_gen_id d).2) as [p d1] eqn:Ei. cbn [fst snd] in A.
  destruct (IH (next_unused_id d) (acc ++ [p]) d1 (ad_ok _ _ _ _ A))
    as (sid' & l & d' & E & F' & E1 & E2 & E3 & E4 & E5 & E6 & E7 & E8 & E9 & _ & Ho).
  { rewrite (proj2 (ad_rest _ _ _ _ A)), En. cbn in Hlt. lia. }
  pose proof (ad_heap _ _ _ _ A) as Hh. pose proof (ad_new _ _ _ _ A) as Hnew.
  destruct (ad_que _ _ _ _ A) as [Hq Hpq]. destruct (ad_groups _ _ _ _ A) as [Hg Hpg].
  cbn in Hh, Hnew, Hq, Hpq, Hg, Hpg.
  assert (p ∉ l) as Hpl.
  { intros Hin. destruct (E8 p Hin) as [Hn _]. rewrite Hh, lookup_insert_eq in Hn. done. }
  exists sid', (p :: l), d'. rewrite E, <-app_assoc. split_and!; try done.
  - by rewrite E1.
  - by rewrite E2.
  - rewrite E3. apply (ad_rest _ _ _ _ A).
  - rewrite E4. apply (ad_calls _ _ _ _ A).
  - rewrite E5, (proj2 (ad_rest _ _ _ _ A)), En. cbn. lia.
  - cbn. by rewrite E6.
  - by apply NoDup_cons_2.
  - intros q [->|Hin]%elem_of_cons.
    + split_and!; try done. exists i. rewrite (E9 p Hpl), Hh, lookup_insert_eq. split_and!; try done; cbn; lia.
    + destruct (E8 q Hin) as (N1 & N2 & N3 & it & N4 & N5 & N6). rewrite Hh in N1.
      apply lookup_insert_None in N1 as [N1 Hne]. split_and!; [done|by rewrite <-Hq|by rewrite <-Hg|].
      exists it. split_and!; try done. rewrite (proj2 (ad_rest _ _ _ _ A)), En in N6. lia.
  - intros q Hq'. rewrite not_elem_of_cons in Hq'. destruct Hq' as [Hq1 Hq2].
    rewrite (E9 q Hq2), Hh. by rewrite lookup_insert_ne.
  - intros o' all' [= <- <-]. exists p, l, i. by rewrite (E9 p Hpl), Hh, lookup_insert_eq.
  - intros a b k Hab. apply Ho, (ad_once _ _ _ _ A), Ho0, Hab.
Qed.

Lemma add_group_ok d l c mh th arg :
  full_ok d → NoDup l → (length l ≤ 1)%nat ∨ c = true →
  (∀ p, p ∈ l → p ∉ d_que d ∧ (∀ g l', d_groups d !! g = Some l' → p ∉ l') ∧
     ∃ it, d_heap d !! p = Some it ∧ newly c mh th arg it) →
  let d' := upd_groups <[d_next d := l]> (alloc d).2 in
  full_ok d' ∧ d_groups d !! d_next d = None ∧ ∀ a b k, once_ok a b k (d_que d) d → once_ok a b k (d_que d') d'.
Proof.
  intros F Hnd Hs Hl d'. pose proof (fk_disp d F) as [C G].
  assert (d_groups d !! d_next d = None) as Hn.
  { destruct (d_groups d !! d_next d) eqn:E; [|done]. pose proof (gk_next d G (d_next d) ltac:(eauto)). lia. }
  split_and!; [|done|].
  - split; try apply (fk_id _ F); try apply (fk_calls _ F); try apply F.
    + split.
      * destruct (ck_next d C) as [N1 N2]. split; try apply C.
        split; cbn; [intros p Hp; specialize (N1 p Hp)|intros s Hs'; specialize (N2 s Hs')]; lia.
      * split; cbn.
        -- intros p it g Hp Hg. destruct (gk_group d G p it g Hp Hg) as (l' & El & Hin). exists l'.
           rewrite lookup_insert_ne; [done|]. intros <-. congruence.
        -- intros g l' p [[<- <-]|[_ E]]%lookup_insert_Some Hp; [|by eapply (gk_live d G)].
           destruct (Hl p Hp) as (_ & _ & it & Hit & N1 & N2 & N3 & N4 & _). exists it. auto 6.
        -- intros g l' [[<- <-]|[_ E]]%lookup_insert_Some; [done|by eapply (gk_nodup d G)].
        -- intros g g' l1 l2 p [[<- <-]|[_ E]]%lookup_insert_Some [[<- <-]|[_ E']]%lookup_insert_Some H1 H2; [done|..].
           ++ destruct (Hl p H1) as (_ & Hd & _). by destruct (Hd g' l2 E').
           ++ destruct (Hl p H2) as (_ & Hd & _). by destruct (Hd g l1 E).
           ++ by eapply (gk_disj d G).
        -- intros g [x [[<- _]|[_ E]]%lookup_insert_Some]; [lia|]. pose proof (gk_next d G g ltac:(eauto)). lia.
        -- intros g l' p p' it it' [[<- <-]|[_ E]]%lookup_insert_Some Hp Hp' Hi Hi'.
           ++ destruct (Hl p Hp) as (_ & _ & y & Hy & _ & _ & _ & _ & A1 & A2 & A3 & A4).
              destruct (Hl p' Hp') as (_ & _ & y' & Hy' & _ & _ & _ & _ & B1 & B2 & B3 & B4).
              rewrite Hi in Hy. rewrite Hi' in Hy'. simplify_eq. unfold alike. split_and!; congruence.
           ++ exact (gk_same d G g l' p p' it it' E Hp Hp' Hi Hi').
        -- intros g l' p it [[<- <-]|[_ E]]%lookup_insert_Some Hp Hi; [|exact (gk_safe d G g l' p it E Hp Hi)].
           destruct (Hl p Hp) as (_ & _ & y & Hy & _ & _ & _ & _ & A1 & _).
           rewrite Hi in Hy. simplify_eq. naive_solver.
    + intros p Hp. destruct (fk_que d F p Hp) as (it & Hit & N1 & N2 & N3 & N4). exists it.
      split_and!; try done. intros Hr. destruct (N4 Hr) as [N5 N6]. split; [done|]. cbn.
      intros g l' [[<- <-]|[_ E]]%lookup_insert_Some Hin; [by destruct (Hl p Hin)|eauto].
  - intros a b k. apply once_same; auto. cbn. intros g l' E. rewrite lookup_insert_ne; [done|]. intros <-. congruence.
Qed.

(** Changing an item outside the range. *)
Lemma once_update a b k Q d d' p it it' :
  d_heap d !! p = Some it → d_heap d' = <[p := it']> (d_heap d) → sid it' = sid it →
  d_groups d' = d_groups d → d_calls d' = d_calls d → ¬ a ≤ sid it < b →
  once_ok a b k Q d → once_ok a b k Q d'.
Proof.
  intros Hp Eh Es Eg Ec Hr. unfold once_ok. rewrite Eg, Ec.
  assert (∀ q y, alive Q d' q y → a ≤ sid y < b → alive Q d q y) as Hal.
  { intros q y (H1 & H2 & H3 & H4) Hr'. rewrite Eh in H1.
    apply lookup_insert_Some in H1 as [[<- <-]|[Hne H1]]; [congruence|]. by split_and!. }
  intros [(Hno & Hle & Hk)|(Hz & g & l & El & Hin & Hf & Hall & Hk)]; [left; split_and!; eauto|].
  assert (∀ q, q ∈ l → d_heap d' !! q = d_heap d !! q) as Hl.
  { intros q Hq. rewrite Eh, lookup_insert_ne; [done|]. intros <-. eauto. }
  right. split; [done|]. exists g, l. split_and!; eauto.
  3:{ intros Hkt. destruct (Hk Hkt) as (h & y & Hh & Hy & F). exists h, y. rewrite Hl; [done|].
      destruct l; [done|]. injection Hh as ->. left. }
  - intros h Hh. destruct (Hf h Hh) as [Hf1 Hf2]. split; [|done]. intros q y Hq. rewrite (Hl q Hq). by apply Hf1.
  - intros q y Hq. rewrite (Hl q Hq). eauto.
Qed.

(** A member is told its group. *)
Lemma join_ok d p it g l :
  full_ok d → d_groups d !! g = Some l → p ∈ l → p ∉ d_que d → d_heap d !! p = Some it → itype it = REG →
  group it = None → items it = None →
  full_ok (upd_heap <[p := set_group it (Some g)]> d).
Proof.
  intros F El Hpl Hpq Hp Ht Hg Hi. pose proof (fk_disp d F) as [C G].
  assert (∀ q y, <[p := set_group it (Some g)]> (d_heap d) !! q = Some y →
    ∃ x, d_heap d !! q = Some x ∧ alike x y ∧ itype y = itype x ∧
      (q = p ∧ y = set_group it (Some g) ∧ x = it ∨ q ≠ p ∧ y = x)) as Hold.
  { intros q y [[<- <-]|[Hne E]]%lookup_insert_Some; [exists it|exists y]; split_and!; auto; done. }
  split; try apply (fk_id _ F); try apply (fk_calls _ F); try apply F.
  - split; [eapply core_update; eauto; done|]. split; cbn; try apply G.
    + intros q y g' Hq Hy. destruct (Hold q y Hq) as (x & Hx & _ & _ & [(-> & -> & ->)|[_ ->]]).
      * cbn in Hy. simplify_eq. eauto.
      * by eapply (gk_group d G).
    + intros g' l' q El' Hq. destruct (gk_live d G g' l' q El' Hq) as (x & Hx & N1 & N2).
      destruct (decide (q = p)) as [->|Hne]; [|exists x; by rewrite lookup_insert_ne].
      eexists. rewrite lookup_insert_eq. split_and!; [done|done|left]. cbn. f_equal.
      by eapply (gk_disj d G).
    + intros g' l' q q' y y' El' Hq Hq' Hy Hy'. destruct (Hold q y Hy) as (x & Hx & (A1 & A2 & A3 & A4) & _).
      destruct (Hold q' y' Hy') as (x' & Hx' & (B1 & B2 & B3 & B4) & _).
      destruct (gk_same d G g' l' q q' x x' El' Hq Hq' Hx Hx') as (C1 & C2 & C3 & C4).
      unfold alike. split_and!; congruence.
    + intros g' l' q y El' Hq Hy. destruct (Hold q y Hy) as (x & Hx & (_ & _ & _ & <-) & _).
      exact (gk_safe d G g' l' q x El' Hq Hx).
  - intros q Hq. destruct (fk_que d F q Hq) as (y & Hy & N). exists y. cbn.
    rewrite lookup_insert_ne; [done|]. intros <-. done.
Qed.

(** Scheduling a member: what becomes of it, and that nothing else changes. *)
Lemma schedule_member d p it g l :
  full_ok d → d_groups d !! g = Some l → p ∈ l → p ∉ d_que d → d_heap d !! p = Some it → itype it = REG →
  group it = Some g → items it = None →
  ∃ d' it', _schedule_item p d = Some d' ∧ scheduled d d' p ∧ d_heap d' = <[p := it']> (d_heap d) ∧
    itype it' = REG ∧ sid it' = sid it ∧ d_groups d' = d_groups d ∧ d_calls d' = d_calls d ∧
    d_que d' = d_que d ++ (if 0 <? number_of_threads d then [p] else []) ∧
    (0 < number_of_threads d → it' = it) ∧
    alike it it' ∧ object it' = object it ∧
    (items it' = None → 0 < number_of_threads d ∨ Forall (eq "_") (object it)).
Proof.
  intros F El Hpl Hpq Hp Ht Hg Hi.
  assert (∀ g' l', d_groups d !! g' = Some l' → p ∈ l' → group it = Some g') as Hgr.
  { intros g' l' El' Hl'. rewrite Hg. f_equal. by eapply (gk_disj d (dk_groups d (fk_disp d F))). }
  assert (queued d p) as Hq by (exists it; rewrite Ht; split_and!; try congruence; done).
  destruct (schedule_ok d p F Hq Hpq) as (d' & E & S). exists d'. unfold _schedule_item in E |- *.
  destruct (Z.ltb_spec 0 (number_of_threads d)) as [Hth|Hth].
  - injection E as <-. exists it. split_and!; try done; [cbn; by rewrite insert_id|by left].
  - destruct (reg_item_ok d p it (fk_disp d F) Hp Ht Hi Hgr)
      as (rc & d1 & d2 & it' & E1 & E2 & H' & (R1 & _) & Eg & Ec & Eh & (Ra & R3 & R4 & Ro & _ & Rn)).
    assert (_process_que_item p d = Some d2) as E3.
    { unfold _process_que_item. rewrite Hp. cbn [mbind option_bind]. rewrite Ht, E1. cbn. done. }
    rewrite E3 in E |- *. cbn in E |- *. injection E as <-. exists it'.
    rewrite app_nil_r. split_and!; try done; [congruence|lia|auto].
Qed.

Lemma schedule_group_ok g L l c mh th arg d :
  full_ok d → d_groups d !! g = Some L → NoDup l →
  (∀ p, p ∈ l → p ∈ L ∧ p ∉ d_que d ∧ ∃ it, d_heap d !! p = Some it ∧ newly c mh th arg it) →
  ∃ d', schedule_group g l [] d = Some d' ∧ full_ok d' ∧ d_groups d' = d_groups d ∧ d_calls d' = d_calls d ∧
    number_of_threads d' = number_of_threads d ∧ next_unused_id d' = next_unused_id d ∧
    d_que d' = d_que d ++ (if 0 <? number_of_threads d then l else []) ∧
    (∀ q it', d_heap d' !! q = Some it' → ∃ it, d_heap d !! q = Some it ∧ sid it' = sid it ∧ itype it' = itype it ∧
       (0 < number_of_threads d → q ∈ l → items it' = None ∧ timer_event it' = false) ∧ (q ∉ l → it' = it)) ∧
    (∀ q it, q ∈ l → d_heap d !! q = Some it → ∃ it', d_heap d' !! q = Some it' ∧ alike it it' ∧
       object it' = object it ∧ (items it' = None → 0 < number_of_threads d ∨ Forall (eq "_") (object it))) ∧
    (∀ a b k, 0 < a → (∀ p it, p ∈ l → d_heap d !! p = Some it → ¬ a ≤ sid it < b) →
       once_ok a b k (d_que d) d → once_ok a b k (d_que d') d').
Proof.
  revert d. induction l as [|p l IH]; intros d F El Hnd Hl; cbn [schedule_group].
  { exists d. split_and!; try done.
    - case_match; by rewrite app_nil_r.
    - intros q it Hq. exists it. split_and!; try done. intros _ []%not_elem_of_nil.
    - intros q it []%not_elem_of_nil. }
  pose proof (NoDup_cons_1_1 _ _ Hnd) as Hpl. apply NoDup_cons_1_2 in Hnd.
  destruct (Hl p) as (HpL & Hpq & it & Hp & N1 & N2 & N3 & N4 & N5); [left|]. rewrite Hp. cbn [mbind option_bind].
  pose proof (join_ok d p it g L F El HpL Hpq Hp N1 N3 N2) as F1. set (d1 := upd_heap _ d) in *.
  destruct (schedule_member d1 p (set_group it (Some g)) g L F1 El HpL Hpq)
    as (d2 & it2 & E2 & (F2 & S1 & S2 & S3) & Eh & Et & Es & Eg & Ec & Eq & Ei & Ea & Eo & En); [cbn; apply lookup_insert_eq|done..|].
  rewrite E2. cbn [mbind option_bind head tail default from_option run_meanwhile]. rewrite Eg.
  change (d_groups d1) with (d_groups d). rewrite El. cbn [mbind option_bind]. cbn in Eh. rewrite insert_insert_eq in Eh.
  destruct (IH d2 F2) as (d' & E & F' & J1 & J2 & J3 & J4 & J5 & J6 & J8 & J7).
  { by rewrite Eg. }
  { done. }
  { intros q Hq. destruct (Hl q) as (M1 & M2 & y & M3 & M4); [by right|].
    assert (q ≠ p) by (intros ->; done). split_and!; [done| |].
    - rewrite Eq. intros [?|Hin]%elem_of_app; [done|].
      destruct (0 <? number_of_threads d1); [by apply list_elem_of_singleton in Hin|by apply not_elem_of_nil in Hin].
    - exists y. by rewrite Eh, lookup_insert_ne. }
  exists d'. split_and!; [done|done|by rewrite J1, Eg|by rewrite J2, Ec|by rewrite J3|by rewrite J4| | | |].
  - rewrite J5, Eq, S1. change (number_of_threads d1) with (number_of_threads d).
    change (d_que d1) with (d_que d). destruct (0 <? number_of_threads d); by rewrite <-app_assoc.
  - intros q it' Hq. destruct (J6 q it' Hq) as (y & Hy & K1 & K2 & K3 & K4). rewrite Eh in Hy.
    apply lookup_insert_Some in Hy as [[<- <-]|[Hne Hy]].
    + rewrite (K4 Hpl). exists it. split_and!; [done|done|by rewrite Et|..].
      * intros Hth _. rewrite (Ei Hth). cbn. done.
      * intros []. left.
    + exists y. split_and!; try done.
      * intros Hth [->|Hin]%elem_of_cons; [done|]. apply K3; [by rewrite S1|done].
      * rewrite not_elem_of_cons. intros [_ Hn]. auto.
  - intros q y [->|Hin]%elem_of_cons Hq.
    + rewrite Hp in Hq. injection Hq as <-. exists it2. split_and!; [|done|done|done].
      destruct (d_heap d' !! p) as [z|] eqn:Ez.
      * destruct (J6 p z Ez) as (z' & Hz & _ & _ & _ & K4). rewrite (K4 Hpl). by rewrite Eh, lookup_insert_eq in Hz.
      * exfalso. destruct (gk_live d' (dk_groups d' (fk_disp d' F')) g L p) as (z & Hz & _); [by rewrite J1, Eg|done|congruence].
    + assert (q ≠ p) by (intros ->; done).
      destruct (J8 q y Hin) as (z & Hz & A1 & A2 & A3); [by rewrite Eh, lookup_insert_ne|].
      exists z. rewrite S1 in A3. done.
  - intros a b k Ha Hr Ho. apply J7; [done| |].
    + intros q y Hq. rewrite Eh, lookup_insert_ne; [|by intros ->]. apply Hr. by right.
    + apply S3; [done| |].
      * cbn. rewrite lookup_insert_eq. intros y [= <-] _. cbn. apply (Hr p); [left|done].
      * eapply (once_update a b k (d_que d) d d1 p it); eauto. apply (Hr p); [left|done].
Qed.

(** ** Runs *)

(** The calls of other threads, the matcher's own thread taking [n] items
    from the queue, a timer, and the owner of a template releasing its
    strings.  A step is a whole call: nothing comes between the pushes of a
    registration (for what happens otherwise see [group_freed_while_read]). *)
Inductive op :=
  | Op_reg (templ : DataObject) (dur : Z) (consume : bool) (mh th : option Z) (arg : Z)
  | Op_reg_group (all : DataObjectList) (dur : Z) (consume : bool) (mh th : option Z) (arg : Z)
  | Op_unreg (sid : Z)
  | Op_process (props : DataObject)
  | Op_exec (f arg : Z)
  | Op_diag
  | Op_que (n : nat)
  | Op_timer (p : Z)
  | Op_release (sid : Z).

Definition run (o : op) (d : dispatcher) : option dispatcher :=
  match o with
  | Op_reg t dur c mh th arg => snd <$> Oed_Dispatcher_reg t dur c mh th arg d
  | Op_reg_group l dur c mh th arg => snd <$> Oed_Dispatcher_reg_group l dur c mh th arg [] d
  | Op_unreg i => Oed_Dispatcher_unreg i d
  | Op_process props => Oed_Dispatcher_process props d
  | Op_exec f arg => Oed_Dispatcher_exec f arg d
  | Op_diag => Oed_Dispatcher_print_diag d
  | Op_que n => _process_que n d
  | Op_timer p => _timeout_cb p d
  | Op_release i => Some (release i d)
  end.

(** The ids do not run out, a read has one template, a timer that fires is
    that of a live template, and strings are released when no template and no
    key of the table uses them. *)
Definition ids_left (n : Z) (d : dispatcher) : Prop := next_unused_id d + n < 2 ^ 64.
Definition allowed (o : op) (d : dispatcher) : Prop :=
  match o with
  | Op_reg _ _ _ _ _ _ | Op_process _ | Op_diag => ids_left 1 d
  | Op_reg_group l _ c _ _ _ => ids_left (Z.of_nat (length l)) d ∧ ((length l ≤ 1)%nat ∨ c = true)
  | Op_unreg _ | Op_exec _ _ | Op_que _ => True
  | Op_timer p => ∃ it, d_heap d !! p = Some it ∧ itype it = REG ∧ timer_event it = true
  | Op_release i => i < next_unused_id d ∧ (∀ p it, d_heap d !! p = Some it → itype it = REG → sid it ≠ i) ∧
      ∀ k, k ∈ ArenaTable.table_keys (d_items d) → k_own k ≠ i
  end.
Definition dstep (d d' : dispatcher) : Prop := ∃ o, allowed o d ∧ run o d = Some d'.

Definition went (d d' : dispatcher) : Prop :=
  full_ok d' ∧ next_unused_id d ≤ next_unused_id d' ∧
  ∀ a b k, 0 < a → b ≤ next_unused_id d → once_ok a b k (d_que d) d → once_ok a b k (d_que d') d'.

Lemma went_trans d1 d2 d3 : went d1 d2 → went d2 d3 → went d1 d3.
Proof.
  intros (_ & N1 & O1) (F2 & N2 & O2). split_and!; [done|lia|]. intros a b k Ha Hb H. apply O2; [done|lia|].
  by apply O1.
Qed.

(** Creating an item and scheduling it. *)
Lemma added_scheduled d d1 p i :
  full_ok d → added d d1 p i → (itype i = REG → sid i = next_unused_id d - 1) →
  ∃ d', _schedule_item p d1 = Some d' ∧ full_ok d' ∧ next_unused_id d' = next_unused_id d ∧
    ∀ a b k, 0 < a → b < next_unused_id d → once_ok a b k (d_que d) d → once_ok a b k (d_que d') d'.
Proof.
  intros F A Hs. destruct (ad_que _ _ _ _ A) as [Eq Hn].
  destruct (schedule_ok d1 p (ad_ok _ _ _ _ A) (ad_queued _ _ _ _ A)) as (d' & E & F' & _ & E2 & Ho); [by rewrite Eq|].
  exists d'. split_and!; [done|done|rewrite E2; apply (ad_rest _ _ _ _ A)|].
  intros a b k Ha Hb Hd. apply Ho; [done| |by apply (ad_once _ _ _ _ A)].
  rewrite (ad_heap _ _ _ _ A), lookup_insert_eq. intros it [= <-] Ht. rewrite (Hs Ht). lia.
Qed.

Lemma create_scheduled d i :
  full_ok d → ids_left 1 d → sid i = next_unused_id d → items i = None → group i = None →
  timer_event i = false → itype i ≠ TQUIT → queueable (itype i) = true → itype i ≠ EXECUTE →
  ∃ d', _schedule_item (new_item i (_gen_id d).2).1 (new_item i (_gen_id d).2).2 = Some d' ∧ went d d'.
Proof.
  intros F Hl Hs Hi Hg Ht N1 N2 N3. destruct (create_ok d i F) as (A & En & Ho0); try done.
  destruct (gen_id_ok d F Hl) as (F0 & _).
  destruct (added_scheduled _ _ _ i F0 A) as (d' & E & F' & E2 & Ho); [rewrite En; lia|].
  exists d'. split; [done|]. split_and!; [done|lia|]. intros a b k Ha Hb Hd. apply Ho; [done|lia|]. by apply Ho0.
Qed.

Lemma add_scheduled d i :
  full_ok d → fresh_item d i → itype i ≠ REG →
  ∃ d', _schedule_item (new_item i d).1 (new_item i d).2 = Some d' ∧ went d d'.
Proof.
  intros F Hf Hr. pose proof (add_item_ok d i F Hf) as A. destruct (ad_que _ _ _ _ A) as [Eq Hn].
  destruct (schedule_ok _ _ (ad_ok _ _ _ _ A) (ad_queued _ _ _ _ A)) as (d' & E & F' & _ & E2 & Ho); [by rewrite Eq|].
  exists d'. split; [done|]. split_and!; [done|rewrite E2, (proj2 (ad_rest _ _ _ _ A)); lia|].
  intros a b k Ha Hb Hd. apply Ho; [done| |by apply (ad_once _ _ _ _ A)].
  rewrite (ad_heap _ _ _ _ A), lookup_insert_eq. by intros it [= <-].
Qed.

(** The first template has a field to be found by. *)
Definition keyed (all : DataObjectList) : bool :=
  match all with o :: _ => bool_decide (¬ Forall (eq "_") (strings o)) | [] => false end.

(** Registering a group, and that its range then waits. *)
Lemma reg_group_ok all dur c mh th arg d :
  full_ok d → allowed (Op_reg_group all dur c mh th arg) d →
  ∃ sid d', Oed_Dispatcher_reg_group all dur c mh th arg [] d = Some (sid, d') ∧ went d d' ∧
    next_unused_id d' = next_unused_id d + Z.of_nat (length all) ∧
    ∀ k, (k = true → keyed all = true ∧ mh ≠ None ∧ th ≠ None) →
      once_ok (next_unused_id d) (next_unused_id d') k (d_que d') d'.
Proof.
  intros F [Hids Hs]. unfold Oed_Dispatcher_reg_group.
  destruct (create_group_ok all dur c mh th arg 0 [] d F Hids)
    as (sid & l & d1 & E1 & F1 & A1 & A2 & A3 & A4 & A5 & A6 & A7 & A8 & A9 & A11 & A10). rewrite E1. cbn [app].
  change (alloc d1) with (d_next d1, (alloc d1).2). cbv iota beta.
  destruct (add_group_ok d1 l c mh th arg F1 A7) as (F2 & Hg & B2).
  { by rewrite A6. }
  { intros p Hp. destruct (A8 p Hp) as (M1 & M2 & M3 & it & M4 & M5 & _).
    rewrite A1, A2. split_and!; try done. eauto. }
  set (d2 := upd_groups <[d_next d1 := l]> (alloc d1).2) in *.
  assert (∀ p, p ∈ l → p ∉ d_que d2) as Hq2.
  { intros p Hp. destruct (A8 p Hp) as (M1 & M2 & _). cbn. by rewrite A1. }
  destruct (schedule_group_ok (d_next d1) l l c mh th arg d2 F2) as (d3 & E3 & F3 & C1 & C2 & C3 & C4 & C5 & C6 & C8 & C7).
  { cbn. apply lookup_insert_eq. }
  { done. }
  { intros p Hp. destruct (A8 p Hp) as (_ & _ & _ & it & M4 & M5 & _). split_and!; [done|by apply Hq2|eauto]. }
  rewrite E3. exists sid, d3. split; [done|]. change (next_unused_id d2) with (next_unused_id d1) in C4.
  pose proof (fk_id d F) as Hpos.
  assert (∀ p it, p ∈ l → d_heap d1 !! p = Some it → next_unused_id d ≤ Dispatcher.sid it < next_unused_id d1) as Hrange.
  { intros p it Hp Hit. destruct (A8 p Hp) as (_ & _ & _ & y & M4 & M5 & M6). rewrite Hit in M4. simplify_eq.
    split; [done|]. apply (ck_ids d1 (dk_core d1 (fk_disp d1 F1)) p y Hit). apply M5. }
  split; [split_and!; [done|lia|]|split; [lia|]].
  - intros a b k Ha Hb Ho. apply C7; [done| |by apply B2, A10].
    intros p it Hp Hit. cbn in Hit. pose proof (Hrange p it Hp Hit). lia.
  - rewrite C4. intros k Hk. right. split.
    + apply woken_none. intros x Hx. rewrite C2 in Hx. change (d_calls d2) with (d_calls d1) in Hx.
      rewrite A4 in Hx. pose proof (fk_calls d F x Hx). lia.
    + exists (d_next d1), l. split_and!.
      * rewrite C1. cbn. apply lookup_insert_eq.
      * intros p it (Hp & Ht & _) Hr. destruct (C6 p it Hp) as (y & Hy & K1 & K2 & _). cbn in Hy.
        destruct (decide (p ∈ l)) as [|Hn]; [done|]. rewrite (A9 p Hn) in Hy.
        pose proof (ck_ids d (dk_core d (fk_disp d F)) p y Hy ltac:(congruence)). lia.
      * intros h Hh. assert (h ∈ l) as Hhl by (destruct l; [done|]; injection Hh as ->; left). split.
        -- intros q it Hq Hit Hpr HhQ. destruct (C6 q it Hit) as (y & _ & _ & _ & K3 & _). rewrite C5 in HhQ.
           apply elem_of_app in HhQ as [HhQ|HhQ]; [by apply (Hq2 h)|].
           destruct (Z.ltb_spec 0 (number_of_threads d2)) as [Hth|]; [|by apply not_elem_of_nil in HhQ].
           destruct (K3 Hth Hq) as [K4 K5]. destruct Hpr; congruence.
        -- intros i j q Hi Hj Hq. rewrite C5 in Hi, Hj.
           apply lookup_app_Some in Hj as [Hj|[Hj _]]; [apply list_elem_of_lookup_2 in Hj; by destruct (Hq2 q)|].
           apply lookup_app_Some in Hi as [Hi|[Hi Hi']]; [apply list_elem_of_lookup_2 in Hi; by destruct (Hq2 h)|].
           destruct (0 <? number_of_threads d2); [|done].
           destruct l as [|x l]; [done|]. injection Hh as ->.
           assert (i - length (d_que d2) = 0)%nat; [|lia].
           by eapply NoDup_lookup; [exact A7|exact Hi'|].
      * intros p it Hp Hit. destruct (C6 p it Hit) as (y & Hy & K1 & _). rewrite K1. by eapply Hrange.
      * intros Hkt. destruct (Hk Hkt) as (Hkey & Hmh & Hth). destruct all as [|o all]; [done|].
        destruct (A11 o all eq_refl) as (p & l' & it & -> & Hit & Ho). cbn in Hkey. apply bool_decide_eq_true in Hkey.
        destruct (A8 p) as (_ & _ & _ & y & Hy & (_ & _ & _ & _ & _ & N6 & N7 & _) & _); [left|].
        rewrite Hit in Hy. injection Hy as <-.
        destruct (C8 p it) as (z & Hz & (D1 & D2 & _) & D3 & D4); [left|done|].
        exists p, z. rewrite <-D1, <-D2, N6, N7, D3, Ho. split_and!; [done..|].
        destruct (items z) as [s|]; [by left|right]. split; [|done]. rewrite C5.
        destruct (D4 eq_refl) as [Hth'|Hw]; [|by rewrite Ho in Hw].
        rewrite (proj2 (Z.ltb_lt _ _) Hth'). set_solver.
Qed.

Lemma run_ok o d : full_ok d → allowed o d → ∃ d', run o d = Some d' ∧ went d d'.
Proof.
  intros F Ha. destruct o; cbn [run allowed] in *.
  - unfold Oed_Dispatcher_reg, _create_reg_item.
    change (_gen_id d) with (next_unused_id d, (_gen_id d).2). cbv iota beta.
    match goal with |- context [new_item ?i _] =>
      destruct (create_scheduled d i F Ha) as (d' & E & W); try done;
      destruct (new_item i (_gen_id d).2) as [p d1]; cbn [fst snd] in E; rewrite E end.
    exists d'. done.
  - destruct (reg_group_ok all dur consume mh th arg d F Ha) as (i & d' & E & W & _). rewrite E. exists d'. done.
  - unfold Oed_Dispatcher_unreg.
    destruct (add_scheduled d (blank UNREG sid) F) as (d' & E & W); [split_and!; done|done|].
    destruct (new_item (blank UNREG sid) d) as [p d1]. cbn [fst snd] in E. rewrite E. eauto.
  - unfold Oed_Dispatcher_process.
    change (_gen_id d) with (next_unused_id d, (_gen_id d).2). cbv iota beta.
    match goal with |- context [new_item ?i _] =>
      destruct (create_scheduled d i F Ha) as (d' & E & W); try done;
      destruct (new_item i (_gen_id d).2) as [p d1]; cbn [fst snd] in E; rewrite E end.
    exists d'. done.
  - unfold Oed_Dispatcher_exec.
    match goal with |- context [new_item ?i d] =>
      destruct (add_scheduled d i F) as (d' & E & W); [split_and!; done|done|];
      destruct (new_item i d) as [p d1]; cbn [fst snd] in E; rewrite E end.
    eauto.
  - unfold Oed_Dispatcher_print_diag.
    change (_gen_id d) with (next_unused_id d, (_gen_id d).2). cbv iota beta.
    match goal with |- context [new_item ?i _] =>
      destruct (create_scheduled d i F Ha) as (d' & E & W); try done;
      destruct (new_item i (_gen_id d).2) as [p d1]; cbn [fst snd] in E; rewrite E end.
    exists d'. done.
  - destruct (que_ok n d F) as (d' & E & F' & _ & E2 & Ho). exists d'. split; [done|].
    split_and!; [done|lia|]. auto.
  - destruct Ha as (it & Hp & Ht & Htm). destruct (timer_ok d p it F Hp Ht Htm) as (d' & E & F' & Eq & _ & E2 & _ & _ & Ho).
    exists d'. split; [done|]. split_and!; [done|lia|]. intros a b k _ _. rewrite Eq. apply Ho.
  - destruct Ha as (Hlt & Hreg & Hkey). eexists. split; [done|]. split_and!; [|cbn; lia|done].
    destruct F as [[C G] F1 F2 F3 F4]. split; [split|..]; try done; [|by destruct G].
    split; try apply C; cbn.
    + intros k Hk. rewrite elem_of_union, elem_of_singleton. intros [?|?]; [by destruct (Hkey k)|by destruct (ck_keys d C k)].
    + intros p it Hp Ht. rewrite elem_of_union, elem_of_singleton. intros [?|?]; [by destruct (Hreg p it)|by destruct (ck_live d C p it)].
    + intros i [->%elem_of_singleton|?]%elem_of_union; [done|by apply (ck_freed d C)].
Qed.

Lemma new_full threads d : Oed_Dispatcher_new threads = Some d → full_ok d.
Proof.
  unfold Oed_Dispatcher_new. destruct (threads <=? 1); [|done]. cbn [c_assert mbind option_bind].
  destruct (ArenaTable.ArenaTable_new 1000) as [t|] eqn:Et; [|done]. cbn. intros [= <-].
  destruct (ArenaTable.table_new_wf 1000 t Et) as [Hw Hm].
  split; cbn; [split; split; cbn|constructor|intros p Hp; by apply not_elem_of_nil in Hp|lia|
    intros c Hc; by apply not_elem_of_nil in Hc]; try exact Hw; try done.
  - intros c s. by rewrite Hm.
  - intros c c' s. by rewrite Hm.
  - split; by intros ? [? ?].
  - by intros g [? ?].
Qed.

Lemma steps_ok d d' : full_ok d → rtc dstep d d' → went d d'.
Proof.
  intros F Hr. revert F. induction Hr as [d|d d1 d2 (o & Ha & E) _ IH]; intros F.
  - split_and!; [done|lia|auto].
  - destruct (run_ok o d F Ha) as (d1' & E' & W). rewrite E in E'. simplify_eq.
    eapply went_trans; [done|]. apply IH, W.
Qed.

(** C18  The matcher does not use freed memory: in every state that
    registrations, events, timers, the release of strings and the handling of
    the queue reach from a new matcher, in any order, each of them can be
    carried out, and the table, the sets, the items and the groups stay
    consistent.  This needs what [allowed] says: a registration that reads
    has one template ([read_group_uses_freed]), it is not interrupted between
    its pushes ([group_freed_while_read]), and strings are released only
    when no template and no key of the table lies in them
    ([stale_key_read]). *)
Theorem matcher_safe threads d0 d o :
  Oed_Dispatcher_new threads = Some d0 → rtc dstep d0 d → allowed o d →
  disp_ok d ∧ ∃ d', run o d = Some d' ∧ disp_ok d'.
Proof.
  intros Hn Hr Ha. destruct (steps_ok d0 d (new_full threads d0 Hn) Hr) as (F & _).
  destruct (run_ok o d F Ha) as (d' & E & (F' & _)). split; [apply F|]. exists d'. split; [done|apply F'].
Qed.

(** C19  Events wake waiters.  In a consistent matcher processing an event
    returns; every handler it runs belongs to a registered template whose
    fields are all wildcards or fields of the event, except that the indexed
    field was compared by its hash, and that template is gone afterwards; and
    each registered template with a handler whose fields find different fields
    of the event, as a tuple's do that agrees with it field by field, has the
    handler run, on its own account or its group's, unless a template that
    takes was matched. *)
Theorem event_wakes ev d :
  disp_ok d →
  ∃ d' new, _process ev d = Some d' ∧ d_calls d' = d_calls d ++ new ∧ disp_ok d' ∧
    (∀ c, c ∈ new → ∃ q it, d_heap d !! q = Some it ∧ d_heap d' !! q = None ∧
       c = mkCall (c_fun c) (args it) (sid it) ∧ match_handler it = Some (c_fun c) ∧ seen_in it ev) ∧
    (consumed ev d d' ∨
     ∀ p it f, d_heap d !! p = Some it → items it ≠ None → match_handler it = Some f → covers (object it) ev →
       ∃ c, c ∈ new ∧ c_fun c = f ∧ c_arg c = args it).
Proof.
  intros H. destruct (process_ok ev d H) as (d' & new & E & A & F). exists d', new.
  split_and!; [done|apply A|apply A| |].
  - intros c Hc. destruct (av_sound _ _ _ _ A c Hc) as (q & it & E1 & E2 & E3 & E4 & E5 & E6).
    exists q, it. by split_and!.
  - destruct F as [F|F]; [by left|]. right. intros p it f Hp Hi Hf Hc.
    eapply (av_woken _ _ _ _ A); eauto.
Qed.

(** C17  A waiting request is woken at most once: of all handlers, for a match
    or a timeout, of the templates registered by one call, at most one is ever
    run, whatever happens in which order afterwards within what [allowed]
    says: a registration that reads has one template, none is interrupted
    between its pushes, and strings in use stay where they are. *)
Theorem wait_woken_once threads d0 d all dur c mh th arg i d1 d2 :
  Oed_Dispatcher_new threads = Some d0 → rtc dstep d0 d →
  allowed (Op_reg_group all dur c mh th arg) d →
  Oed_Dispatcher_reg_group all dur c mh th arg [] d = Some (i, d1) → rtc dstep d1 d2 →
  (woken (next_unused_id d) (next_unused_id d1) (d_calls d2) ≤ 1)%nat.
Proof.
  intros Hn Hr Ha E Hr2. destruct (steps_ok d0 d (new_full threads d0 Hn) Hr) as (F & _).
  destruct (reg_group_ok all dur c mh th arg d F Ha) as (i' & d1' & E' & (F1 & N1 & _) & _ & Ho).
  rewrite E in E'. simplify_eq. destruct (steps_ok d1' d2 F1 Hr2) as (_ & _ & O2).
  destruct (O2 (next_unused_id d) (next_unused_id d1') false) as [(_ & Hle & _)|[-> _]];
    [apply (fk_id d F)|lia|by apply Ho|done|lia].
Qed.

(** ** Where waiting fails *)

Definition obj (l : list string) : DataObject := mkDataObject l 0 None None false.

(** A request whose first template is in no set, because it consists of
    wildcards, is not answered when its time is up: the timer removes all its
    templates, and the only handler it would run is that of the first. *)
Theorem wildcard_timeout_silent threads d0 d p it g h l ith d' :
  Oed_Dispatcher_new threads = Some d0 → rtc dstep d0 d →
  d_heap d !! p = Some it → itype it = REG → timer_event it = true → group it = Some g →
  d_groups d !! g = Some (h :: l) → d_heap d !! h = Some ith → items ith = None →
  _timeout_cb p d = Some d' →
  d_calls d' = d_calls d ∧ (items it ≠ None → d_heap d' !! p = None).
Proof.
  intros Hn Hr Hp Ht Htm Hg El Hh Hi E. destruct (steps_ok d0 d (new_full threads d0 Hn) Hr) as (F & _).
  destruct (timer_ok d p it F Hp Ht Htm) as (d1 & E' & _ & _ & _ & _ & Hc & Hrm & _). rewrite E in E'. simplify_eq.
  split.
  - rewrite Hc. unfold removal_calls, mates. rewrite Hg, El. cbn. rewrite Hh. cbn.
    rewrite bool_decide_false; [by rewrite app_nil_r|]. intros [? ?]. congruence.
  - intros Hit. apply (proj2 Hrm p it); [|done|done]. by apply mates_self; [apply F|].
Qed.

(** A template that takes swallows an event that it only seems to match: the
    matcher does not look at positions, so a waiting take of a pair with "a"
    second is run for the pair ("a", "b"), and a waiting read of pairs with
    "b" second, which the pair does match, is not. *)
Definition starving : option (list call) :=
  d ← Oed_Dispatcher_new 0;
  '(_, d) ← Oed_Dispatcher_reg_group [obj ["_"; "a"]] 100 true (Some 1) (Some 2) 10 [] d;
  '(_, d) ← Oed_Dispatcher_reg_group [obj ["_"; "b"]] 100 false (Some 1) (Some 2) 20 [] d;
  d ← Oed_Dispatcher_process (obj ["a"; "b"]) d;
  Some (d_calls d).

(** A waiting read can sleep through the item it waits for: with a take
    waiting for pairs that end in "a" and a read waiting for pairs that end in
    "b", the event of the pair ("a", "b") runs the handler of the take, which
    the pair does not match, and not that of the read, which it covers. *)
Theorem take_starves_read :
  starving = Some [mkCall 1 10 101] ∧ covers ["_"; "b"] ["a"; "b"] ∧
  ¬ (∀ i s, ["_"; "a"] !! i = Some s → s ≠ "_" → ["a"; "b"] !! i = Some s).
Proof.
  split_and!.
  - vm_compute. reflexivity.
  - apply tuple_covers; [done|]. intros [|[|i]] s; cbn; [by intros [= <-]|by intros [= <-]|done].
  - intros H. specialize (H 1%nat "a" eq_refl ltac:(done)). done.
Qed.

Definition two_templates : option dispatcher :=
  d ← Oed_Dispatcher_new 0;
  snd <$> Oed_Dispatcher_reg_group [obj ["a"]; obj ["a"]] 100 false (Some 1) (Some 2) 10 [] d.

(** A read with two templates under the same key reads freed memory: the
    first match frees both templates, and the loop over the set goes on with
    the second. *)
Theorem read_group_uses_freed :
  is_Some two_templates ∧ (two_templates ≫= Oed_Dispatcher_process (obj ["a"])) = None.
Proof. split; [by vm_compute; eexists|vm_compute; reflexivity]. Qed.

(** The loop of a registration reads the group's list after each push.  When
    the first template of a take is matched before the second is pushed, the
    matcher's thread has freed the list: the loop reads freed memory. *)
Definition interrupted (between : list (list meanwhile)) : option (Z * dispatcher) :=
  d ← Oed_Dispatcher_new 1;
  Oed_Dispatcher_reg_group [obj ["a"]; obj ["b"]] 100 true (Some 1) (Some 2) 10 between d.

Theorem group_freed_while_read :
  is_Some (interrupted []) ∧ is_Some (interrupted [[M_que 1]; [M_que 1]]) ∧
  interrupted [[M_process (obj ["a"]); M_que 2]] = None.
Proof. split_and!; [vm_compute; by eexists..|vm_compute; reflexivity]. Qed.

(** ** Keys that outlive their template *)

(** A template found by its first field leaves the table as it is. *)
Lemma remove_keeps_table p timeout d d' it :
  core_ok d → d_heap d !! p = Some it → key_idx it = 0%nat → remove_ungrouped p timeout d = Some d' →
  d_items d' = d_items d ∧ d_freed d' = d_freed d.
Proof.
  intros C Hp Hk E. destruct (items it) as [s|] eqn:Hi.
  2:{ pose proof (remove_ungrouped_ok d p it timeout C Hp) as H. rewrite Hi, E in H. by simplify_eq. }
  destruct (ck_placed d C p it s Hp Hi) as (set & key & E1 & E2 & _). revert E.
  unfold remove_ungrouped. rewrite Hp. cbn [mbind option_bind]. rewrite Hi, E1. cbn [mbind option_bind].
  destruct (HSet.set_remove_spec set (mkRef p (sid it)) (ck_wf d C s set E1)) as (_ & _ & Hr).
  destruct (HSet.Set_remove set (mkRef p (sid it))) as [set' found]. cbn in Hr. rewrite E2 in Hr. subst found.
  cbn [r_ptr upd_sets d_heap]. rewrite Hp. cbn [mbind option_bind]. rewrite Z.eqb_refl, Hk. cbn.
  intros [= <-]. by repeat case_match.
Qed.

(** C39  A key outlives its template.  The table keeps a pointer into the first
    template that was put under a key, and [_remove_item] takes the key out
    only when the template was indexed by another field than its first.  So
    once a template indexed by its first field has been removed, and its
    owner releases its strings as the kernel does with the arena of a context
    it has answered, the next event, or registration, with that field reads
    the released string. *)
Theorem stale_key_read p timeout d d' it k ev :
  core_ok d → d_heap d !! p = Some it → items it ≠ None → key_idx it = 0%nat →
  k ∈ ArenaTable.table_keys (d_items d) → k_own k = sid it →
  remove_ungrouped p timeout d = Some d' →
  d_heap d' !! p = None ∧ k ∈ ArenaTable.table_keys (d_items d') ∧
  _process (k_str k :: ev) (release (sid it) d') = None ∧
  ∀ own l i best, k_str k ≠ "_" → choose_key own (release (sid it) d') (k_str k :: l) i best = None.
Proof.
  intros C Hp Hi Hk Hin Hown E. pose proof (remove_ungrouped_ok d p it timeout C Hp) as H. rewrite E in H.
  destruct (items it) as [s|]; [|done]. destruct H as (d1 & E1 & C' & _ & _ & Hh & _). injection E1 as <-.
  destruct (remove_keeps_table p timeout d d' it C Hp Hk E) as [Et Ef].
  assert (∀ own, Table_get (mkKey (k_str k) own) (release (sid it) d') = None) as Hno.
  { intros own. unfold Table_get. rewrite (ArenaTable.table_reads_meets _ _ _ k); [done|apply C'|by cbn; rewrite Et|done|].
    unfold key_live. apply bool_decide_eq_false. cbn. rewrite Hown. set_solver. }
  split_and!.
  - rewrite Hh. apply lookup_delete_eq.
  - by rewrite Et.
  - unfold _process. cbn [process_fields]. by rewrite Hno.
  - intros own l i best Hne. cbn [choose_key]. rewrite bool_decide_false by congruence. by rewrite Hno.
Qed.

(** ** A run *)

Definition demo_disp : dispatcher :=
  mkDisp ∅ ∅ ∅ (ArenaTable.mkTable 509 0 0 (replicate 509 [])) 1 101 [] 0 0 1 [] false ∅.
Definition demo_reg : op := Op_reg_group [obj ["a"; "_"]] 100 true (Some 1) (Some 2) 7.
Definition after (o : op) (d : dispatcher) : dispatcher := default d (run o d).
Definition demo_queued : dispatcher := after demo_reg demo_disp.
Definition demo_ready : dispatcher := after (Op_que 1) demo_queued.
Definition demo_event : dispatcher := after (Op_process (obj ["a"; "b"])) demo_ready.
Definition demo_woken : dispatcher := after (Op_que 1) demo_event.

Lemma demo_start : Oed_Dispatcher_new 1 = Some demo_disp.
Proof. vm_compute. reflexivity. Qed.

Lemma demo_steps : dstep demo_disp demo_queued ∧ dstep demo_queued demo_ready ∧
  dstep demo_ready demo_event ∧ dstep demo_event demo_woken.
Proof.
  split_and!.
  - exists demo_reg. split; [split; [vm_compute; reflexivity|auto]|vm_compute; reflexivity].
  - exists (Op_que 1). split; [done|vm_compute; reflexivity].
  - exists (Op_process (obj ["a"; "b"])). split; [vm_compute; reflexivity|vm_compute; reflexivity].
  - exists (Op_que 1). split; [done|vm_compute; reflexivity].
Qed.

Lemma demo_ready_reached : rtc dstep demo_disp demo_ready.
Proof. destruct demo_steps as (S1 & S2 & _). by eapply rtc_l, rtc_once. Qed.

Lemma demo_ready_ok : disp_ok demo_ready.
Proof. apply (steps_ok demo_disp demo_ready (new_full 1 demo_disp demo_start) demo_ready_reached). Qed.

Lemma matcher_safe_witness : ∃ d', run (Op_process (obj ["a"; "b"])) demo_ready = Some d' ∧ disp_ok d'.
Proof.
  apply (matcher_safe 1 demo_disp demo_ready (Op_process (obj ["a"; "b"]))).
  - exact demo_start.
  - exact demo_ready_reached.
  - vm_compute. reflexivity.
Defined.

Lemma event_wakes_witness :
  ∃ d' new, _process ["a"; "b"] demo_ready = Some d' ∧ d_calls d' = d_calls demo_ready ++ new ∧ disp_ok d'.
Proof.
  destruct (event_wakes ["a"; "b"] demo_ready demo_ready_ok) as (d' & new & E & C & K & _).
  exists d', new. auto.
Defined.

(** The waiting take is run, once. *)
Lemma demo_runs : d_calls demo_woken = [mkCall 1 7 101].
Proof. vm_compute. reflexivity. Qed.

Lemma wait_woken_once_witness : (woken 101 102 (d_calls demo_woken) ≤ 1)%nat.
Proof.
  apply (wait_woken_once 1 demo_disp demo_disp [obj ["a"; "_"]] 100 true (Some 1) (Some 2) 7 101 demo_queued).
  - exact demo_start.
  - apply rtc_refl.
  - split; [vm_compute; reflexivity|auto].
  - vm_compute. reflexivity.
  - destruct demo_steps as (_ & S2 & S3 & S4). eapply rtc_l; [exact S2|]. eapply rtc_l; [exact S3|].
    apply rtc_once. exact S4.
Defined.

(** A take of a pair with "a" first is registered, woken and removed; its key
    stays. *)
Definition demo_item : item_ := default (blank REG 0) (d_heap demo_ready !! 1).
Definition demo_alone : dispatcher := upd_heap <[1 := set_group demo_item None]> demo_ready.

Lemma stale_key_read_witness :
  ∃ d', remove_ungrouped 1 false demo_alone = Some d' ∧ _process ["a"] (release 101 d') = None.
Proof.
  destruct (remove_ungrouped 1 false demo_alone) as [d'|] eqn:E; [|by vm_compute in E].
  exists d'. split; [done|].
  destruct (stale_key_read 1 false demo_alone d' (set_group demo_item None) (mkKey "a" 101) []) as (_ & _ & H & _).
  - eapply (core_update demo_ready 1 demo_item); [apply demo_ready_ok|vm_compute; reflexivity|done|done].
  - cbn. apply lookup_insert_eq.
  - vm_compute. discriminate.
  - vm_compute. reflexivity.
  - vm_compute. left.
  - vm_compute. reflexivity.
  - exact E.
  - exact H.
Defined.

(** A request for anything, or for a pair, and what its timer does. *)
Definition demo_any : op := Op_reg_group [obj ["_"; "_"]; obj ["a"; "b"]] 100 true (Some 1) (Some 2) 9.
Definition demo_any_ready : dispatcher := after (Op_que 2) (after demo_any demo_disp).

Lemma demo_any_reached : rtc dstep demo_disp demo_any_ready.
Proof.
  eapply rtc_l; [|apply rtc_once].
  - exists demo_any. split; [split; [vm_compute; reflexivity|auto]|vm_compute; reflexivity].
  - exists (Op_que 2). split; [done|vm_compute; reflexivity].
Qed.

Lemma wildcard_timeout_silent_witness :
  ∃ d', _timeout_cb 2 demo_any_ready = Some d' ∧ d_calls d' = [] ∧ d_heap d' !! 2 = None.
Proof.
  assert (is_Some (_timeout_cb 2 demo_any_ready)) as [d' E] by (vm_compute; eexists; reflexivity).
  exists d'. split; [exact E|].
  destruct (wildcard_timeout_silent 1 demo_disp demo_any_ready 2
    (default (blank REG 0) (d_heap demo_any_ready !! 2)) 3 1 [2]
    (default (blank REG 0) (d_heap demo_any_ready !! 1)) d') as [H1 H2];
    [exact demo_start|exact demo_any_reached|vm_compute; reflexivity..|exact E|].
  split; [rewrite H1; vm_compute; reflexivity|]. apply H2. vm_compute. discriminate.
Defined.
