(* ===== verification/Waiting.v ===== *)
(** * Waiting: the kernel and the template matcher together

    Composes [Kernel] with [Dispatcher] as [src/corelib/OEK_get.c] and
    [OEK_impl.c] do.  Commands are contexts, handed to the database threads; a
    get that finds nothing registers its context with the matcher; a write
    event or a timer makes the matcher run [_async_geth], which hands the
    context to the database threads again.

    The threads are interleaved between the calls that lock: a step of the
    system is a whole handler, a registration, the firing of one event, some
    turns of the matcher's thread or a timer.  In particular the registration
    of a get comes some time after its handler has looked into the store.
    Addresses of contexts are not used twice, and the arena of a context,
    which holds the strings of its templates, is not released here: what the
    matcher does when it is, [DispatcherSpec.stale_key_read] shows. *)

From S2P Require Import Prelude Values HashTable Collections Messages StoreHolder BdbKeys Bdb BdbSpec MemDb Kernel KernelStore Dispatcher DispatcherSpec.
Import DataObject DataObjectList.

(** ** What a matcher may call *)

(** The handler [f] with the argument [a] may be run for the id [s]. *)
Definition handles (it : item_) (f : Z) : Prop := match_handler it = Some f ∨ timeout_handler it = Some f.
Definition tags (d : dispatcher) (s f a : Z) : Prop :=
  ∃ p it, d_heap d !! p = Some it ∧ handles it f ∧ sid it = s ∧ args it = a.

(** [d'] comes from [d] by running and dropping handlers of [d] and such as
    [N] allows: handlers keep their arguments and calls are only added. *)
Definition tame (N : Z → Z → Z → Prop) (d d' : dispatcher) : Prop :=
  (∀ s f a, tags d' s f a → tags d s f a ∨ N s f a) ∧
  ∃ new, d_calls d' = d_calls d ++ new ∧ ∀ c, c ∈ new → tags d (c_sid c) (c_fun c) (c_arg c) ∨ N (c_sid c) (c_fun c) (c_arg c).

Section Tame.
Context {N : Z → Z → Z → Prop}.

Lemma tame_refl d : tame N d d.
Proof. split; [by left|]. exists []. split; [by rewrite app_nil_r|]. intros c []%not_elem_of_nil. Qed.
Lemma tame_trans d1 d2 d3 : tame N d1 d2 → tame N d2 d3 → tame N d1 d3.
Proof.
  intros (T1 & n1 & E1 & C1) (T2 & n2 & E2 & C2). split.
  - intros s f a [H|H]%T2; [by apply T1|by right].
  - exists (n1 ++ n2). split; [by rewrite E2, E1, app_assoc|].
    intros c [H|[H|H]%C2]%elem_of_app; [by apply C1|by apply T1|by right].
Qed.

(** Steps that leave heap and calls alone *)
Lemma tame_same d d' : d_heap d' = d_heap d → d_calls d' = d_calls d → tame N d d'.
Proof. intros Eh Ec. unfold tame, tags. rewrite Eh, Ec. apply (tame_refl d). Qed.

(** Steps on one item of the heap *)
Lemma tame_delete d p : tame N d (upd_heap (delete p) d).
Proof.
  split; [|apply (tame_refl d)]. intros s f a (q & it & E & H). cbn in E. apply lookup_delete_Some in E as [_ E].
  left. by exists q, it.
Qed.
Lemma tame_insert d p it it' :
  d_heap d !! p = Some it → sid it' = sid it → args it' = args it → (∀ f, handles it' f → handles it f) →
  tame N d (upd_heap <[p := it']> d).
Proof.
  intros Hp Es Ea Hf. split; [|apply (tame_refl d)].
  intros s f a (q & x & E & H & <- & <-). cbn in E. left.
  apply lookup_insert_Some in E as [[<- <-]|[_ E]]; [exists p, it|exists q, x]; auto.
Qed.
Lemma tame_new d i : (∀ f, handles i f → N (sid i) f (args i)) → tame N d (new_item i d).2.
Proof.
  intros Hi. split; [|apply (tame_refl d)].
  intros s f a (q & x & E & H & <- & <-). cbn in E.
  apply lookup_insert_Some in E as [[<- <-]|[_ E]]; [right; auto|left; by exists q, x].
Qed.
Lemma tame_call d p it f :
  d_heap d !! p = Some it → handles it f → tame N d (_process_fun f (args it) (sid it) d).
Proof.
  intros Hp Hf. split; [by left|]. eexists. split; [done|].
  intros c ->%list_elem_of_singleton. left. by exists p, it.
Qed.
Lemma tame_match d p it :
  d_heap d !! p = Some it →
  tame N d (match match_handler it with Some f => _process_fun f (args it) (sid it) d | None => d end).
Proof.
  intros Hp. destruct (match_handler it) eqn:E; [|apply tame_refl]. eapply tame_call; [done|by left].
Qed.

Hint Resolve tame_refl tame_delete : core.

Lemma remove_ungrouped_tame p timeout d d' : remove_ungrouped p timeout d = Some d' → tame N d d'.
Proof.
  unfold remove_ungrouped. destruct (d_heap d !! p) as [rm|] eqn:Hp; [|done]. cbn [mbind option_bind].
  destruct (items rm) as [s|]; [|intros [= <-]; done]. destruct (d_sets d !! s) as [set|]; [|done]. cbn [mbind option_bind].
  destruct (HSet.Set_remove set (mkRef p (sid rm))) as [set' [ref|]]; [|intros [= <-]; by apply tame_same].
  set (d1 := upd_sets _ d). change (d_heap d1) with (d_heap d).
  destruct (d_heap d !! r_ptr ref) as [item|] eqn:Hr; [|done]. cbn [mbind option_bind].
  set (d2 := match timeout_handler item with Some _ => _ | None => _ end).
  assert (tame N d d2) as T2.
  { apply tame_trans with d1; [by apply tame_same|]. unfold d2. destruct (timeout_handler item) eqn:E; [|done].
    destruct timeout; [|done]. eapply (tame_call d1); [done|by right]. }
  set (d3 := if p =? r_ptr ref then d2 else _).
  assert (tame N d d3) as T3 by (unfold d3; case_match; [done|]; by eapply tame_trans).
  clearbody d3. destruct (key_idx item =? 0)%nat; cbn [mbind option_bind].
  - intros [= <-]. by eapply tame_trans.
  - destruct (template item d3) as [obj|]; [|done]. cbn [mbind option_bind].
    destruct (obj !! key_idx item) as [key|]; [|done]. cbn [mbind option_bind]. unfold Table_remove.
    case_match; [case_match; [|done]|]; cbn [mbind option_bind]; intros [= <-];
      (eapply tame_trans; [exact T3|]); (eapply tame_trans; [|apply tame_delete]); [by apply tame_same|done].
Qed.

Lemma remove_members_tame l i timeout d d' : remove_members l i timeout d = Some d' → tame N d d'.
Proof.
  revert i d. induction l as [|p l IH]; intros i d; cbn [remove_members]; [by intros [= <-]|].
  destruct (d_heap d !! p) as [it|] eqn:Hp; [|done]. cbn [mbind option_bind].
  set (it' := if (0 <? i)%nat then _ else _).
  destruct (remove_ungrouped p timeout _) as [d1|] eqn:E; [|done]. cbn [mbind option_bind]. intros E'.
  eapply tame_trans; [|by eapply IH]. eapply tame_trans; [|by eapply remove_ungrouped_tame].
  apply tame_insert with it; [done|by unfold it'; case_match|by unfold it'; case_match|].
  intros f. unfold it'. case_match; [by intros [?|?]|done].
Qed.

Lemma remove_item_tame p timeout d d' : _remove_item p timeout d = Some d' → tame N d d'.
Proof.
  unfold _remove_item, _remove_group. destruct (d_heap d !! p) as [it|]; [|done]. cbn [mbind option_bind].
  destruct (group it) as [g|]; [|apply remove_ungrouped_tame].
  destruct (d_groups d !! g) as [l|]; [|done]. cbn [mbind option_bind].
  destruct (remove_members l 0 timeout d) as [d1|] eqn:E; [|done]. cbn. intros [= <-].
  apply remove_members_tame in E. eapply tame_trans; [exact E|by apply tame_same].
Qed.

Lemma process_array_tame l ev k b d d' : process_array l ev k d = Some (b, d') → tame N d d'.
Proof.
  revert d. induction l as [|r l IH]; intros d; cbn [process_array]; [by intros [= _ <-]|].
  destruct (d_heap d !! r_ptr r) as [it|] eqn:Hp; [|done]. cbn [mbind option_bind].
  destruct (template it d) as [tobjs|]; [|done]. cbn [mbind option_bind].
  destruct (template_matches _ _ _ _ _); [|apply IH].
  destruct (_remove_item (r_ptr r) false _) as [d1|] eqn:E; [|done]. cbn [mbind option_bind].
  assert (tame N d d1) as T.
  { eapply tame_trans; [by eapply tame_match|]. by eapply remove_item_tame. }
  destruct (consume it); [by intros [= _ <-]|]. intros E'. eapply tame_trans; [exact T|by eapply IH].
Qed.

Lemma process_fields_tame rest i ev d d' : process_fields rest i ev d = Some d' → tame N d d'.
Proof.
  revert i d. induction rest as [|key rest IH]; intros i d; cbn [process_fields]; [by intros [= <-]|].
  destruct (Table_get (mkKey key 0) d) as [[s|]|]; [|apply IH|done]. cbn [mbind option_bind]. unfold _processSet.
  destruct (d_sets d !! s) as [set|]; [|done]. cbn [mbind option_bind].
  destruct (process_array _ ev i d) as [[b d1]|] eqn:E; [|done]. cbn [mbind option_bind].
  apply process_array_tame in E. destruct b; [by intros [= <-]|]. intros E'.
  eapply tame_trans; [exact E|by eapply IH].
Qed.

Lemma choose_key_same own d l i best d' best' :
  choose_key own d l i best = Some (d', best') → d_heap d' = d_heap d ∧ d_calls d' = d_calls d.
Proof.
  revert d i best. induction l as [|k l IH]; intros d i best; cbn [choose_key]; [by intros [= <- _]|].
  case_bool_decide; [apply IH|]. destruct (Table_get (mkKey k own) d) as [[s|]|]; [| |done]; cbn [mbind option_bind].
  - destruct (d_sets d !! s); [|done]. cbn. apply IH.
  - destruct (HSet.Set_new (A := item_ref) 10); [|done]. cbn [mbind option_bind].
    change (alloc d) with (d_next d, (alloc d).2). cbv iota beta. unfold Table_put.
    case_match; [|done]. by intros [= <- _].
Qed.

Lemma add_template_tame p d rc d' : _add_template p d = Some (rc, d') → tame N d d'.
Proof.
  unfold _add_template. destruct (d_heap d !! p) as [it|] eqn:Hp; [|done]. cbn [mbind option_bind].
  destruct (template it d) as [obj|]; [|done]. cbn [mbind option_bind].
  destruct (choose_key (sid it) d obj 0 None) as [[d1 best]|] eqn:E; [|done]. cbn [mbind option_bind].
  apply choose_key_same in E as [Eh Ec].
  destruct best as [[[k z] s]|]; [|by intros [= _ <-]; apply tame_same].
  destruct (d_sets d1 !! s) as [set|]; [|done]. cbn. intros [= _ <-].
  eapply tame_trans; [by apply (tame_same d d1)|].
  eapply tame_trans; [apply (tame_insert d1 p it (set_placed it s k)); [by rewrite Eh|done..]|by apply tame_same].
Qed.

Lemma watch_tame p d d' : _watch_for_timeout p d = Some d' → tame N d d'.
Proof.
  unfold _watch_for_timeout. destruct (d_heap d !! p) as [it|] eqn:Hp; [|done]. cbn.
  case_match; intros [= <-]; [done|]. by apply tame_insert with it.
Qed.

Lemma free_items_same d d' : _free_items d = Some d' → d_heap d' = d_heap d ∧ d_calls d' = d_calls d.
Proof.
  unfold _free_items. case_match; [|by intros [= <-]]. generalize (ArenaTable.ArenaTable_length (d_items d)) as n.
  generalize (ArenaTable.ArenaTable_toArray (d_items d)) as l. clear. intros l. revert d.
  induction l as [|[k v] l IH]; intros d n; cbn [free_sets]; [by intros [= <-]|]. case_match; [by intros [= <-]|].
  destruct (key_live d k); [|done]. cbn [c_assert mbind option_bind]. unfold Table_remove. case_match; [|done].
  cbn [mbind option_bind]. intros [-> ->]%IH. by case_match.
Qed.

Lemma item_tame p d d' : _process_que_item p d = Some d' → tame N d d'.
Proof.
  unfold _process_que_item. destruct (d_heap d !! p) as [it|] eqn:Hp; [|done]. cbn [mbind option_bind].
  destruct (itype it); [| | | | |done|intros [= <-]|by intros [= <-]].
  - destruct (_add_template p d) as [[rc d1]|] eqn:E; [|done]. cbn [mbind option_bind]. intros E'.
    eapply tame_trans; [by eapply add_template_tame|by eapply watch_tame].
  - apply remove_item_tame.
  - destruct (_process (object it) d) as [d1|] eqn:E; [|done]. cbn. intros [= <-].
    eapply tame_trans; [by eapply process_fields_tame|done].
  - intros [Eh Ec]%free_items_same. apply (tame_trans _ (upd_heap (delete p) d)); [done|]. by apply tame_same.
  - intros [= <-]. eapply tame_trans; [by eapply tame_match|done].
  - apply (tame_trans _ (upd_heap (delete p) d)); [done|]. unfold _schedule_heartbeat.
    destruct (_gen_id (upd_heap (delete p) d)) as [i d1] eqn:E. injection E as <- <-.
    eapply tame_trans; [|apply (tame_new _ (set_timer (blank HEARTBEAT _))); by intros f [?|?]]. by apply tame_same.
Qed.

Lemma schedule_tame p d d' : _schedule_item p d = Some d' → tame N d d'.
Proof.
  unfold _schedule_item. case_match; [intros [= <-]; by apply tame_same|].
  destruct (_process_que_item p d) as [d1|] eqn:E; [|done]. cbn. intros [= <-].
  apply item_tame in E. eapply tame_trans; [exact E|by apply tame_same].
Qed.

Lemma que_tame n d d' : _process_que n d = Some d' → tame N d d'.
Proof.
  revert d. induction n as [|n IH]; intros d; cbn [_process_que]; [by intros [= <-]|].
  unfold _que_pop. destruct (d_que d) as [|p q]; cbn [mbind option_bind].
  - intros E. eapply tame_trans; [|by eapply IH]. by apply tame_same.
  - set (d0 := upd_que q _ _ d). destruct (_process_que_item p d0) as [d1|] eqn:E; [|done]. cbn. intros E'.
    eapply tame_trans; [by apply (tame_same d d0)|]. eapply tame_trans; [by eapply item_tame|by eapply IH].
Qed.

Lemma process_tame props d d' : Oed_Dispatcher_process props d = Some d' → tame N d d'.
Proof.
  unfold Oed_Dispatcher_process. intros E%schedule_tame. eapply tame_trans; [|exact E].
  eapply tame_trans; [by apply (tame_same d (_gen_id d).2)|]. apply tame_new. by intros f [?|?].
Qed.

Lemma schedule_group_tame g l d d' : schedule_group g l [] d = Some d' → tame N d d'.
Proof.
  revert d. induction l as [|p l IH]; intros d; cbn [schedule_group]; [by intros [= <-]|].
  destruct (d_heap d !! p) as [it|] eqn:Hp; [|done]. cbn [mbind option_bind].
  destruct (_schedule_item p _) as [d1|] eqn:E; [|done].
  cbn [mbind option_bind head tail default from_option run_meanwhile].
  destruct (d_groups d1 !! g); [|done]. cbn [mbind option_bind]. intros E'.
  eapply tame_trans; [by apply (tame_insert d p it (set_group it (Some g)))|].
  eapply tame_trans; [by eapply schedule_tame|by eapply IH].
Qed.

End Tame.

(** A registration: its ids are new and they belong to its context. *)
Definition fresh_tags (lo hi : Z) (arg : Z) (f : Z) (s f' a : Z) : Prop := f' = f ∧ a = arg ∧ lo ≤ s < hi.

Lemma create_group_tame all dur c f arg sid0 acc d sid' l d' lo hi :
  create_group all dur c (Some f) (Some f) arg sid0 acc d = (sid', l, d') →
  lo ≤ next_unused_id d → 0 ≤ next_unused_id d → next_unused_id d + Z.of_nat (length all) ≤ hi → hi < 2 ^ 64 →
  tame (fresh_tags lo hi arg f) d d'.
Proof.
  revert sid0 acc d. induction all as [|o all IH]; intros sid0 acc d; cbn [create_group].
  { intros [= <- <- <-] _ _ _ _. apply tame_refl. }
  unfold _create_reg_item, _gen_id. set (i := mkItem_ REG _ _ _ _ _ _ _ _ _ _ _). set (d0 := mkDisp _ _ _ _ _ _ _ _ _ _ _ _ _).
  change (new_item i d0) with (d_next d0, (new_item i d0).2). cbv iota beta. intros E L1 L2 L3 L4.
  cbn [length] in L3. assert (next_unused_id (new_item i d0).2 = next_unused_id d + 1) as En.
  { cbn. apply wrapu_id. unfold in_u. lia. }
  eapply tame_trans; [|eapply IH; [exact E|lia..|done]].
  apply (tame_trans _ d0); [by apply tame_same|]. apply tame_new. intros f' Hf.
  unfold handles in Hf. cbn in Hf. split; [|split; [done|]]; [naive_solver|]. cbn. lia.
Qed.

Lemma reg_group_tame all dur c f arg d i d' :
  full_ok d → allowed (Op_reg_group all dur c (Some f) (Some f) arg) d →
  Oed_Dispatcher_reg_group all dur c (Some f) (Some f) arg [] d = Some (i, d') →
  tame (fresh_tags (next_unused_id d) (next_unused_id d + Z.of_nat (length all)) arg f) d d'.
Proof.
  intros F [Hids _]. unfold Oed_Dispatcher_reg_group.
  destruct (create_group all dur c (Some f) (Some f) arg 0 [] d) as [[sid l] d1] eqn:E1.
  change (alloc d1) with (d_next d1, (alloc d1).2). cbv iota beta.
  destruct (schedule_group _ l _ _) as [d2|] eqn:E2; [|done]. cbn. intros [= <- <-].
  pose proof (fk_id d F). unfold ids_left in Hids.
  eapply tame_trans; [eapply create_group_tame; [exact E1|lia..|lia]|].
  eapply tame_trans; [|by eapply schedule_group_tame]. by apply tame_same.
Qed.

(** ** The system *)

Section System.
Context {S : Type} {ST : OeStoreOps S}.

(** A context handed to the database threads: a new command, or a get that is
    tried again. *)
Inductive db_job := J_exec (id : Z) | J_again (id : Z).
Definition job_ctx (j : db_job) : Z := match j with J_exec id | J_again id => id end.

(** A handler that is about to register its context *)
Record waiter := mkWaiter { w_keylists : DataObjectList; w_dur : Z; w_destroy : bool; w_ctx : Z }.

Record system := mkSystem {
  y_store : S;
  y_matcher : dispatcher;
  y_contexts : gmap Z OEK_Context;
  y_work : list db_job;
  y_registering : list waiter;
  y_events : list DataObject;
  y_finished : list (Z * k_output)
}.

(** The handler the matcher runs for a context, and its address.  It hands
    the context to the database threads. *)
Definition async_geth : Z := 1.
Definition _async_geth (c : call) : db_job := J_again (c_arg c).
Definition woken_jobs (d d' : dispatcher) : list db_job :=
  _async_geth <$> filter (λ c, c_fun c = async_geth) (drop (length (d_calls d)) (d_calls d')).

Definition upd_matcher (d : dispatcher) (y : system) : system :=
  mkSystem (y_store y) d (y_contexts y) (y_work y ++ woken_jobs (y_matcher y) d) (y_registering y) (y_events y)
    (y_finished y).

(** A command arrives. *)
Definition _oek_impl_cmd (id : Z) (c : OEK_Context) (y : system) : system :=
  mkSystem (y_store y) (y_matcher y) (<[id := c]> (y_contexts y)) (y_work y ++ [J_exec id]) (y_registering y)
    (y_events y) (y_finished y).

(** A database thread executes the [i]-th context handed over, at the clocks
    [clk] and [now]. *)
Definition handler (j : db_job) (clk : nat → Z * Z) (now : Z) (y : system) : option (k_result (S := S)) :=
  c ← y_contexts y !! job_ctx j;
  match j with
  | J_exec _ => OEK_exec clk now (y_store y) c
  | J_again _ => _geth clk now (y_store y) c
  end.
Definition handled (i : nat) (j : db_job) (r : k_result (S := S)) (y : system) : system :=
  let '(s, evs, out) := r in
  mkSystem s (y_matcher y) (y_contexts y) (delete i (y_work y))
    (y_registering y ++
       match out with K_register l dur destroy => [mkWaiter l dur destroy (job_ctx j)] | _ => [] end)
    (y_events y ++ evs)
    (y_finished y ++ match out with K_register _ _ _ => [] | _ => [(job_ctx j, out)] end).
Definition work (i : nat) (clk : nat → Z * Z) (now : Z) (y : system) : option system :=
  j ← y_work y !! i; r ← handler j clk now y; Some (handled i j r y).

(** A handler that found nothing registers its context. *)
Definition reg_op (w : waiter) : op :=
  Op_reg_group (w_keylists w) (w_dur w) (w_destroy w) (Some async_geth) (Some async_geth) (w_ctx w).
Definition register (i : nat) (y : system) : option system :=
  w ← y_registering y !! i;
  '(_, d) ← Oed_Dispatcher_reg_group (w_keylists w) (w_dur w) (w_destroy w) (Some async_geth) (Some async_geth)
              (w_ctx w) [] (y_matcher y);
  let y' := upd_matcher d y in
  Some (mkSystem (y_store y') (y_matcher y') (y_contexts y') (y_work y') (delete i (y_registering y')) (y_events y')
          (y_finished y')).

(** The store fires an event. *)
Definition _fire_write_event (i : nat) (y : system) : option system :=
  props ← y_events y !! i;
  d ← Oed_Dispatcher_process props (y_matcher y);
  let y' := upd_matcher d y in
  Some (mkSystem (y_store y') (y_matcher y') (y_contexts y') (y_work y') (y_registering y') (delete i (y_events y'))
          (y_finished y')).

Inductive ystep :=
  | Y_command (id : Z) (c : OEK_Context)
  | Y_work (i : nat) (clk : nat → Z * Z) (now : Z)
  | Y_register (i : nat)
  | Y_fire (i : nat)
  | Y_que (n : nat)
  | Y_timer (p : Z).

Definition yrun (o : ystep) (y : system) : option system :=
  match o with
  | Y_command id c => Some (_oek_impl_cmd id c y)
  | Y_work i clk now => work i clk now y
  | Y_register i => register i y
  | Y_fire i => _fire_write_event i y
  | Y_que n => d ← _process_que n (y_matcher y); Some (upd_matcher d y)
  | Y_timer p => d ← _timeout_cb p (y_matcher y); Some (upd_matcher d y)
  end.

(** What the matcher relies on, that a context is new, and that the store
    returns *)
Definition yallowed (o : ystep) (y : system) : Prop :=
  match o with
  | Y_command id _ => y_contexts y !! id = None
  | Y_work i clk now => ∃ j, y_work y !! i = Some j ∧ is_Some (handler j clk now y)
  | Y_register i => ∃ w, y_registering y !! i = Some w ∧ allowed (reg_op w) (y_matcher y)
  | Y_fire i => ∃ props, y_events y !! i = Some props ∧ allowed (Op_process props) (y_matcher y)
  | Y_que n => True
  | Y_timer p => allowed (Op_timer p) (y_matcher y)
  end.
Definition system_step (y y' : system) : Prop := ∃ o, yallowed o y ∧ yrun o y = Some y'.

(** The system before the first command *)
Definition started (s : S) (d : dispatcher) : system := mkSystem s d ∅ [] [] [] [].

(** *** Where a context is *)

Definition count_in {A} (f : A → Z) (id : Z) (l : list A) : nat := length (filter (λ x, f x = id) l).

(** Handed to a database thread or about to be registered by one *)
Definition in_hand (id : Z) (y : system) : nat :=
  count_in job_ctx id (y_work y) + count_in w_ctx id (y_registering y).

(** In the matcher: a template, in a set or in the queue, has a handler and
    the context as its argument. *)
Definition in_matcher (id : Z) (d : dispatcher) : Prop := ∃ p it, alive (d_que d) d p it ∧ args it = id.

(** The templates a context is registered with *)
Definition wait_keys (c : OEK_Context) : DataObjectList :=
  match OekMsg_get_get_cmd (cmd_msg c) with Some cmd => GetCmd_get_data_objects cmd | None => [] end.

(** An output that is not a registration *)
Definition answer (o : k_output) : Prop := match o with K_register _ _ _ => False | _ => True end.

Lemma write_answer c : answer (_default_write_to_client c).
Proof. unfold _default_write_to_client. by case_match. Qed.
Lemma send_error_answer c i t o : _send_error c i t = Some o → answer o.
Proof. unfold _send_error. intros E. simplify_option_eq. apply write_answer. Qed.
Lemma no_results_answer c o : _no_results c = Some o → answer o.
Proof. unfold _no_results. intros E. simplify_option_eq. apply write_answer. Qed.
Lemma handle_result_answer c q o : _geth_handle_result c q = Some o → answer o.
Proof. unfold _geth_handle_result. intros E. simplify_option_eq. apply write_answer. Qed.

Lemma geth_registers clk now (s : S) c s' evs l dur destroy :
  _geth clk now s c = Some (s', evs, K_register l dur destroy) → l = wait_keys c.
Proof.
  unfold _geth, wait_keys. destruct (OekMsg_get_get_cmd (cmd_msg c)) as [cmd|] eqn:Ec; [|done]. cbn [mbind option_bind].
  destruct (retry _ _ _ _ _ _) as [[ret [q s1]]|]; [|done]. cbn [mbind option_bind]. case_match.
  { destruct (_send_error c _ _) as [o|] eqn:E; [|done]. cbn. intros [= _ _ ->]. by apply send_error_answer in E. }
  case_match.
  - destruct (_geth_handle_no_results now c q) as [o|] eqn:E; [|done]. cbn. intros [= _ _ ->]. revert E.
    unfold _geth_handle_no_results. rewrite Ec. cbn [mbind option_bind]. case_match; [by intros E%no_results_answer|].
    case_match; [by intros E%no_results_answer|]. by intros [= <- _ _].
  - destruct (_geth_handle_result c q) as [o|] eqn:E; [|done]. cbn. intros [= _ _ ->]. by apply handle_result_answer in E.
Qed.

(** The handlers of the other commands answer. *)
Ltac follow :=
  repeat match goal with
  | |- mbind _ ?e = Some _ → _ => let E := fresh "E" in destruct e as [?|] eqn:E; [|done]; cbn [mbind option_bind]
  | |- (let '(_, _) := ?p in _) = Some _ → _ => destruct p; cbn [mbind option_bind]
  | |- (if ?b then _ else _) = Some _ → _ => destruct b
  end;
  intros [= _ _ <-]; first [apply write_answer|by eapply send_error_answer].

Lemma others_answer clk now (s : S) c s' evs o :
  (_sput now s c = Some (s', evs, o) → answer o) ∧ (_ssta clk s c = Some (s', evs, o) → answer o) ∧
  (_supt clk s c = Some (s', evs, o) → answer o) ∧ (_supl clk now s c = Some (s', evs, o) → answer o).
Proof. unfold _sput, _ssta, _supt, _supl. cbv zeta. split_and!; follow. Qed.

Lemma exec_registers clk now (s : S) c s' evs l dur destroy :
  OEK_exec clk now s c = Some (s', evs, K_register l dur destroy) → l = wait_keys c.
Proof.
  destruct (others_answer clk now s c s' evs (K_register l dur destroy)) as (H1 & H2 & H3 & H4).
  unfold OEK_exec. destruct (OekMsg_get_type (cmd_msg c)); try done; intros E;
    first [by eapply geth_registers|destruct (H1 E)|destruct (H2 E)|destruct (H3 E)|destruct (H4 E)].
Qed.

#[local] Arguments count_in : simpl never.

(** *** Invariant *)

(** A registration made: its context, the ids of its templates, and whether
    the first of them can be found.  It waits while none of its handlers has
    been run. *)
Record registration := mkReg { r_ctx : Z; r_from : Z; r_to : Z; r_keyed : bool }.
Definition waits (id : Z) (cs : list call) (r : registration) : Prop :=
  r_ctx r = id ∧ woken (r_from r) (r_to r) cs = 0%nat.
#[export] Instance waits_dec id cs r : Decision (waits id cs r).
Proof. unfold waits. apply _. Defined.
Definition waiting (id : Z) (cs : list call) (rs : list registration) : nat := length (filter (waits id cs) rs).
#[local] Arguments waiting : simpl never.

(** The id [s] belongs to a registration of the context [a]. *)
Definition registered_tag (rs : list registration) (s f a : Z) : Prop :=
  f = async_geth ∧ ∃ r, r ∈ rs ∧ r_ctx r = a ∧ r_from r ≤ s < r_to r.

Record match_ok (d : dispatcher) (rs : list registration) : Prop := {
  mo_full : full_ok d;
  mo_once r : r ∈ rs → 0 < r_from r ∧ r_to r ≤ next_unused_id d ∧ once_ok (r_from r) (r_to r) (r_keyed r) (d_que d) d;
  mo_apart i j r r' : rs !! i = Some r → rs !! j = Some r' → (i < j)%nat → r_to r ≤ r_from r';
  mo_tags s f a : tags d s f a → registered_tag rs s f a
}.

Lemma waiting_app id cs l1 l2 : waiting id cs (l1 ++ l2) = (waiting id cs l1 + waiting id cs l2)%nat.
Proof. unfold waiting. by rewrite list.filter_app, length_app. Qed.
Lemma count_in_app {A} (f : A → Z) id l1 l2 : count_in f id (l1 ++ l2) = (count_in f id l1 + count_in f id l2)%nat.
Proof. unfold count_in. by rewrite list.filter_app, length_app. Qed.
Lemma count_in_cons {A} (f : A → Z) id x l :
  count_in f id (x :: l) = ((if decide (f x = id) then 1 else 0) + count_in f id l)%nat.
Proof. unfold count_in. rewrite filter_cons. by case_decide. Qed.
Lemma waiting_cons id cs r rs :
  waiting id cs (r :: rs) = ((if decide (waits id cs r) then 1 else 0) + waiting id cs rs)%nat.
Proof. unfold waiting. rewrite filter_cons. by case_decide. Qed.
Lemma count_delete {A} (f : A → Z) id i x l :
  l !! i = Some x → count_in f id l = ((if decide (f x = id) then 1 else 0) + count_in f id (delete i l))%nat.
Proof.
  revert i. induction l as [|y l IH]; intros [|i]; [done..| |].
  - intros [= ->]. apply count_in_cons.
  - intros E. change (delete (Datatypes.S i) (y :: l)) with (y :: delete i l).
    rewrite !count_in_cons, (IH i E). lia.
Qed.

Lemma woken_in a b cs c : a ≤ c_sid c < b → woken a b (cs ++ [c]) = Datatypes.S (woken a b cs).
Proof. intros H. rewrite woken_app. unfold woken at 2. rewrite filter_cons, decide_True by done. cbn. lia. Qed.
Lemma woken_out a b cs c : ¬ a ≤ c_sid c < b → woken a b (cs ++ [c]) = woken a b cs.
Proof. intros H. rewrite woken_app. unfold woken at 2. rewrite filter_cons, decide_False by done. cbn. lia. Qed.

(** A call outside of all ranges *)
Lemma waiting_other id cs c rs :
  (∀ r, r ∈ rs → ¬ r_from r ≤ c_sid c < r_to r) → waiting id (cs ++ [c]) rs = waiting id cs rs.
Proof.
  induction rs as [|r rs IH]; intros H; [done|]. rewrite !waiting_cons, IH by (intros r' ?; apply H; by right). f_equal.
  apply decide_ext. unfold waits. by rewrite (woken_out (r_from r) (r_to r) cs c) by (apply H; left).
Qed.

Definition in_order (rs : list registration) : Prop :=
  ∀ i j r r', rs !! i = Some r → rs !! j = Some r' → (i < j)%nat → r_to r ≤ r_from r'.

Lemma waiting_call id cs c rs r :
  in_order rs → r ∈ rs → r_ctx r = c_arg c → r_from r ≤ c_sid c < r_to r → (woken (r_from r) (r_to r) (cs ++ [c]) ≤ 1)%nat →
  waiting id cs rs = (waiting id (cs ++ [c]) rs + if decide (c_arg c = id) then 1 else 0)%nat.
Proof.
  intros Ha (l1 & l2 & ->)%list_elem_of_split Hc Hr Hw.
  assert (∀ r', r' ∈ l1 → ¬ r_from r' ≤ c_sid c < r_to r') as H1.
  { intros r' [i Hi]%list_elem_of_lookup_1. pose proof (lookup_lt_Some _ _ _ Hi).
    pose proof (Ha i (length l1) r' r ltac:(by rewrite lookup_app_l) ltac:(by apply list_lookup_middle)). lia. }
  assert (∀ r', r' ∈ l2 → ¬ r_from r' ≤ c_sid c < r_to r') as H2.
  { intros r' [i Hi]%list_elem_of_lookup_1.
    pose proof (Ha (length l1) (length l1 + Datatypes.S i)%nat r r' ltac:(by apply list_lookup_middle)
      ltac:(by rewrite lookup_app_r, Nat.add_comm, Nat.add_sub by lia)). lia. }
  rewrite !waiting_app, !waiting_cons, !waiting_other by done. rewrite (woken_in _ _ _ _ Hr) in Hw.
  assert (¬ waits id (cs ++ [c]) r) as Hn by (unfold waits; rewrite (woken_in _ _ _ _ Hr); lia).
  rewrite (decide_False (P := waits id (cs ++ [c]) r)) by done. rewrite <-Hc.
  rewrite (decide_ext (waits id cs r) (r_ctx r = id)); [lia|]. unfold waits. split; [naive_solver|split; [done|lia]].
Qed.

Lemma waiting_calls id rs cs new :
  in_order rs →
  (∀ c, c ∈ new → ∃ r, r ∈ rs ∧ r_ctx r = c_arg c ∧ r_from r ≤ c_sid c < r_to r) →
  (∀ r, r ∈ rs → (woken (r_from r) (r_to r) (cs ++ new) ≤ 1)%nat) →
  waiting id cs rs = (waiting id (cs ++ new) rs + count_in c_arg id new)%nat.
Proof.
  intros Ha. induction new as [|c new IH] using rev_ind; intros Hc Hw; [by rewrite app_nil_r, Nat.add_0_r|].
  rewrite app_assoc in Hw |- *. rewrite count_in_app, IH.
  - destruct (Hc c ltac:(set_solver)) as (r & Hr & Hx & Hs).
    rewrite (waiting_call id (cs ++ new) c rs r); [|done..|by apply Hw]. rewrite count_in_cons.
    change (count_in c_arg id []) with 0%nat. lia.
  - intros c' ?. apply Hc. set_solver.
  - intros r Hr. specialize (Hw r Hr). rewrite woken_app in Hw. lia.
Qed.

Lemma once_woken a b k Q d : once_ok a b k Q d → (woken a b (d_calls d) ≤ 1)%nat.
Proof. intros [(_ & ? & _)|[-> _]]; lia. Qed.

Lemma woken_count id cs :
  (∀ c, c ∈ cs → c_fun c = async_geth) →
  count_in job_ctx id (_async_geth <$> filter (λ c, c_fun c = async_geth) cs) = count_in c_arg id cs.
Proof.
  induction cs as [|c cs IH]; intros H; [done|]. rewrite filter_cons, decide_True by (apply H; left).
  rewrite fmap_cons, !count_in_cons, IH; [done|]. intros c' ?. apply H. by right.
Qed.

(** A step of the matcher: the handlers it runs are of contexts that waited. *)
Lemma match_step {N} d d' rs extra :
  match_ok d rs → went d d' → tame N d d' → (∀ s f a, N s f a → registered_tag extra s f a) →
  (∀ r, r ∈ extra → next_unused_id d ≤ r_from r ∧ 0 < r_from r ∧ r_to r ≤ next_unused_id d' ∧
     once_ok (r_from r) (r_to r) (r_keyed r) (d_que d') d') → (length extra ≤ 1)%nat →
  match_ok d' (rs ++ extra) ∧
  ∀ id, waiting id (d_calls d) (rs ++ extra) =
        (waiting id (d_calls d') (rs ++ extra) + count_in job_ctx id (woken_jobs d d'))%nat.
Proof.
  intros M (F & Hn & Ho) (T & new & Ec & Hc) HN Hx Hl.
  assert (∀ s f a, tags d s f a ∨ N s f a → registered_tag (rs ++ extra) s f a) as HT.
  { intros s f a [(-> & r & Hr & ?)%(mo_tags _ _ M)|(-> & r & Hr & ?)%HN]; (split; [done|]); exists r; set_solver. }
  assert (∀ r, r ∈ rs ++ extra → 0 < r_from r ∧ r_to r ≤ next_unused_id d' ∧
    once_ok (r_from r) (r_to r) (r_keyed r) (d_que d') d') as HO.
  { intros r [Hr|Hr]%elem_of_app; [|by apply Hx]. destruct (mo_once _ _ M r Hr) as (H1 & H2 & H3).
    split_and!; [done|lia|by apply Ho]. }
  assert (in_order (rs ++ extra)) as HA.
  { intros i j r r' Hi Hj Hij. apply lookup_app_Some in Hi as [Hi|[Hi1 Hi]].
    - apply lookup_app_Some in Hj as [Hj|[_ Hj]]; [by eapply (mo_apart _ _ M i j)|].
      apply list_elem_of_lookup_2 in Hi, Hj. destruct (mo_once _ _ M r Hi) as (_ & ? & _).
      destruct (Hx r' Hj) as (? & _). lia.
    - apply lookup_app_Some in Hj as [Hj|[_ Hj]]; [apply lookup_lt_Some in Hj; lia|].
      apply lookup_lt_Some in Hi, Hj. lia. }
  split; [by split; [done|..|intros s f a H%T; by apply HT]|]. intros id.
  rewrite Ec, (waiting_calls id (rs ++ extra) (d_calls d) new HA).
  - f_equal. unfold woken_jobs. rewrite Ec, drop_app_length. symmetry. apply woken_count.
    intros c Hin. exact (proj1 (HT _ _ _ (Hc c Hin))).
  - intros c Hin. destruct (HT _ _ _ (Hc c Hin)) as (_ & r & Hr & ? & ?). by exists r.
  - intros r Hr. rewrite <-Ec. eapply once_woken, HO, Hr.
Qed.
(** *** Every step keeps it *)

Definition places (rs : list registration) (id : Z) (y : system) : nat :=
  in_hand id y + waiting id (d_calls (y_matcher y)) rs + count_in fst id (y_finished y).

Record accounted (y : system) (rs : list registration) : Prop := {
  ac_match : match_ok (y_matcher y) rs;
  ac_places id : places rs id y = (if decide (is_Some (y_contexts y !! id)) then 1 else 0)%nat;
  ac_keyed r : r ∈ rs → ∃ c, y_contexts y !! r_ctx r = Some c ∧ r_keyed r = keyed (wait_keys c);
  ac_waiter w : w ∈ y_registering y → ∃ c, y_contexts y !! w_ctx w = Some c ∧ w_keylists w = wait_keys c
}.
Definition system_ok (y : system) : Prop := ∃ rs, accounted y rs.

Lemma started_ok threads s d : Oed_Dispatcher_new threads = Some d → system_ok (started s d).
Proof.
  intros Hn. exists []. split.
  - split; cbn; [by eapply new_full|set_solver|done|].
    intros a f b (p & it & Hp & _). unfold Oed_Dispatcher_new in Hn.
    destruct (threads <=? 1); [|done]. cbn [c_assert mbind option_bind] in Hn.
    destruct (ArenaTable.ArenaTable_new 1000); [|done]. injection Hn as <-. done.
  - intros id. cbn. rewrite decide_False; [done|]. rewrite lookup_empty. by intros [? ?].
  - by intros r []%not_elem_of_nil.
  - by intros w []%not_elem_of_nil.
Qed.

(** Steps of the matcher that register nothing *)
Lemma matcher_step d y :
  system_ok y → went (y_matcher y) d → tame (λ _ _ _, False) (y_matcher y) d →
  system_ok (upd_matcher d y).
Proof.
  intros [rs [M P K W']] W T. exists rs.
  destruct (match_step (y_matcher y) d rs [] M W T) as [M' Hw]; [done|set_solver|cbn; lia|].
  rewrite app_nil_r in M', Hw. split; [done| |done|done]. intros id. specialize (P id). specialize (Hw id).
  unfold places, in_hand in *. cbn. rewrite count_in_app. lia.
Qed.

Lemma command_ok_step id c y : system_ok y → y_contexts y !! id = None → system_ok (_oek_impl_cmd id c y).
Proof.
  intros [rs [M P K W]] Hn. exists rs. split; [done|..].
  - intros k. specialize (P k).
    unfold places, in_hand in *. cbn. rewrite count_in_app, count_in_cons. cbn [job_ctx].
    change (count_in job_ctx k []) with 0%nat. destruct (decide (id = k)) as [->|Hne].
    + rewrite lookup_insert_eq, decide_True by eauto. rewrite Hn, decide_False in P by (by intros [? ?]). lia.
    + rewrite lookup_insert_ne by done. lia.
  - intros r Hr. destruct (K r Hr) as (x & Hx & E). exists x. cbn. rewrite lookup_insert_ne; [done|congruence].
  - intros w Hw. destruct (W w Hw) as (x & Hx & E). exists x. cbn. rewrite lookup_insert_ne; [done|congruence].
Qed.

Lemma handled_ok i j r clk now y :
  system_ok y → y_work y !! i = Some j → handler j clk now y = Some r → system_ok (handled i j r y).
Proof.
  intros [rs [M P K W]] Hj Hr. exists rs. destruct r as [[s evs] out]. split; [done| |done|].
  - intros id. specialize (P id).
    unfold places, in_hand in *. cbn. rewrite !count_in_app. rewrite (count_delete job_ctx id i j) in P by done.
    destruct out; rewrite ?count_in_cons; cbn [w_ctx fst];
      change (count_in w_ctx id []) with 0%nat; change (count_in fst id ([] : list (Z * k_output))) with 0%nat; lia.
  - cbn. intros w [Hw|Hw]%elem_of_app; [by apply W|]. destruct out as [| |l dur destroy]; try by apply not_elem_of_nil in Hw.
    apply list_elem_of_singleton in Hw as ->. cbn. unfold handler in Hr.
    destruct (y_contexts y !! job_ctx j) as [c|]; [|done]. exists c. split; [done|].
    destruct j; cbn in Hr; [by eapply exec_registers|by eapply geth_registers].
Qed.

Lemma register_ok i w y :
  system_ok y → y_registering y !! i = Some w → allowed (reg_op w) (y_matcher y) →
  ∃ y', register i y = Some y' ∧ system_ok y'.
Proof.
  intros [rs [M P K W']] Hw Ha. pose proof (mo_full _ _ M) as F. unfold register. rewrite Hw. cbn [mbind option_bind].
  destruct (reg_group_ok _ _ _ _ _ _ _ F Ha) as (sid & d & E & W & En & Ho). rewrite E. cbn.
  eexists. split; [done|]. pose proof (reg_group_tame _ _ _ _ _ _ _ _ F Ha E) as T.
  set (r := mkReg (w_ctx w) (next_unused_id (y_matcher y)) (next_unused_id d) (keyed (w_keylists w))).
  destruct (match_step (y_matcher y) d rs [r] M W T) as [M' Hc].
  - intros s f a (-> & -> & H). split; [done|]. exists r. split; [left|]. cbn. split; [done|lia].
  - intros x ->%list_elem_of_singleton. cbn. pose proof (fk_id _ F). split_and!; [lia|lia|lia|].
    apply Ho. done.
  - done.
  - exists (rs ++ [r]). split; [exact M'|..].
    + intros id. specialize (P id). specialize (Hc id). unfold places, in_hand in *. cbn.
      rewrite count_in_app. rewrite (count_delete w_ctx id i w) in P by done.
      rewrite (waiting_app id (d_calls (y_matcher y))), (waiting_cons id (d_calls (y_matcher y)) r) in Hc.
      change (waiting id (d_calls (y_matcher y)) []) with 0%nat in Hc.
      rewrite (decide_ext (waits id (d_calls (y_matcher y)) r) (w_ctx w = id)) in Hc; [lia|].
      unfold waits. cbn. rewrite woken_none; [naive_solver|].
      intros c Hin. pose proof (fk_calls _ F c Hin). lia.
    + intros x [Hx|Hx]%elem_of_app; [by apply K|]. apply list_elem_of_singleton in Hx as ->. cbn.
      destruct (W' w (list_elem_of_lookup_2 _ _ _ Hw)) as (c & Hc' & ->). by exists c.
    + cbn. intros x Hx. apply W'. rewrite list_elem_of_lookup in Hx |- *. destruct Hx as [k Hk].
      rewrite list_lookup_delete in Hk. eauto.
Qed.

Lemma system_runs y o : system_ok y → yallowed o y → ∃ y', yrun o y = Some y' ∧ system_ok y'.
Proof.
  intros Hy Ha. destruct (Hy) as [rs Hac]. pose proof (mo_full _ _ (ac_match _ _ Hac)) as F.
  destruct o as [id c|i clk now|i|i|n|p]; cbn [yallowed yrun] in *.
  - eexists. split; [done|]. by apply command_ok_step.
  - destruct Ha as (j & Hj & r & Hr). unfold work. rewrite Hj. cbn. rewrite Hr. cbn.
    eexists. split; [done|]. by eapply handled_ok.
  - destruct Ha as (w & Hw & Ha). by eapply register_ok.
  - destruct Ha as (props & Hp & Ha). unfold _fire_write_event. rewrite Hp. cbn [mbind option_bind].
    destruct (run_ok (Op_process props) _ F Ha) as (d & E & W). cbn [run] in E. rewrite E. cbn.
    eexists. split; [done|]. destruct (matcher_step d y Hy W) as [rs' [M P K W']]; [by eapply process_tame|].
    exists rs'. by split.
  - destruct (run_ok (Op_que n) _ F I) as (d & E & W). cbn [run] in E. rewrite E. cbn.
    eexists. split; [done|]. apply matcher_step; [done..|by eapply que_tame].
  - destruct (run_ok (Op_timer p) _ F Ha) as (d & E & W). cbn [run] in E. rewrite E. cbn.
    eexists. split; [done|]. apply matcher_step; [done..|]. by eapply remove_item_tame.
Qed.

Lemma steps_accounted y y' : system_ok y → rtc system_step y y' → system_ok y'.
Proof.
  intros Hy Hr. revert Hy. induction Hr as [|y y1 y' (o & Ha & E) _ IH]; intros Hy; [done|].
  destruct (system_runs y o Hy Ha) as (y2 & E2 & H2). rewrite E in E2. injection E2 as ->. by apply IH.
Qed.

(** *** A registration that waits is in the matcher *)

Lemma waiting_exists id cs rs : (0 < waiting id cs rs)%nat ↔ ∃ r, r ∈ rs ∧ waits id cs r.
Proof.
  unfold waiting. split.
  - destruct (filter (waits id cs) rs) as [|r l] eqn:E; [cbn; lia|]. intros _. exists r.
    assert (r ∈ filter (waits id cs) rs) as [? ?]%list_elem_of_filter by (rewrite E; left). done.
  - intros (r & Hr & Hw). assert (r ∈ filter (waits id cs) rs) as H by (by apply list_elem_of_filter).
    destruct (filter (waits id cs) rs); [by apply not_elem_of_nil in H|cbn; lia].
Qed.

Lemma same_registration rs r r' s :
  in_order rs → r ∈ rs → r' ∈ rs → r_from r ≤ s < r_to r → r_from r' ≤ s < r_to r' → r_ctx r = r_ctx r'.
Proof.
  intros Ho [i Hi]%list_elem_of_lookup [j Hj]%list_elem_of_lookup H1 H2.
  destruct (lt_eq_lt_dec i j) as [[Hl| ->]|Hl]; [|by rewrite Hi in Hj; simplify_eq|].
  - pose proof (Ho i j r r' Hi Hj Hl). lia.
  - pose proof (Ho j i r' r Hj Hi Hl). lia.
Qed.

Lemma in_matcher_waiting id d rs : match_ok d rs → in_matcher id d → (0 < waiting id (d_calls d) rs)%nat.
Proof.
  intros M (p & it & Ha & Harg). apply waiting_exists. destruct (Ha) as (Hp & Ht & Hw & Hh).
  assert (∃ f, handles it f) as [f Hf].
  { destruct Hh as [Hh|Hh]; [destruct (match_handler it) as [f|] eqn:E|destruct (timeout_handler it) as [f|] eqn:E];
      try done; exists f; [by left|by right]. }
  destruct (mo_tags _ _ M (sid it) f (args it)) as (_ & r & Hr & Hc & Hs); [by exists p, it|].
  exists r. split; [done|]. split; [congruence|].
  destruct (mo_once _ _ M r Hr) as (_ & _ & [(Hno & _)|[-> _]]); [by destruct (Hno p it Ha Hs)|done].
Qed.

Lemma waiting_in_matcher id d rs r :
  match_ok d rs → r ∈ rs → waits id (d_calls d) r → r_keyed r = true → in_matcher id d.
Proof.
  intros M Hr [Hc Hw] Hk. pose proof (fk_disp _ (mo_full _ _ M)) as D.
  destruct (mo_once _ _ M r Hr) as (_ & _ & [(_ & _ & H1)|(_ & g & l & El & _ & _ & Hall & Hh)]);
    [specialize (H1 Hk); lia|].
  destruct (Hh Hk) as (h & it & Hhd & Hit & Hm & Hto & Hi).
  assert (h ∈ l) as Hin by (destruct l; [done|]; injection Hhd as ->; left).
  destruct (gk_live d (dk_groups d D) g l h El Hin) as (y & Hy & Ht & _). rewrite Hit in Hy. injection Hy as <-.
  exists h, it. split; [split_and!; [done|done| |by left]; destruct Hi as [?|[? _]]; auto|].
  destruct (match_handler it) as [f|] eqn:Ef; [|done].
  destruct (mo_tags _ _ M (sid it) f (args it)) as (_ & r' & Hr' & Hc' & Hs'); [exists h, it; split_and!; [done|by left|done..]|].
  rewrite <-Hc', <-Hc. apply (same_registration rs r' r (sid it)); [|done..|by eapply Hall].
  intros i j x x' Hx Hx' Hij. by eapply (mo_apart _ _ M i j).
Qed.


(** A context that is tried again after its time is finished: the last timer
    of a get ends its wait. *)
Lemma expired_finishes i clk now y id c :
  ops_total (S := S) → y_work y !! i = Some (J_again id) → y_contexts y !! id = Some c → fresh_context c →
  mtype (cmd_msg c) = GET_CMD → expire_time_ctx c ≤ now →
  ∃ y', work i clk now y = Some y' ∧ y_registering y' = y_registering y ∧
    count_in fst id (y_finished y') = Datatypes.S (count_in fst id (y_finished y)).
Proof.
  intros T Hj Hc Hf Ht Hn. unfold work, handler. rewrite Hj. cbn [job_ctx mbind option_bind]. rewrite Hc. cbn [mbind option_bind].
  destruct (geth_answers clk now (y_store y) c T Hf Ht) as (s & evs & out & -> & Ha). cbn [mbind option_bind].
  eexists. split; [done|]. cbn. rewrite count_in_app.
  destruct out as [c'| |l dur destroy]; [|done|destruct Ha; lia].
  rewrite app_nil_r, count_in_cons. cbn. rewrite decide_True by done.
  change (count_in fst id ([] : list (Z * k_output))) with 0%nat. split; [done|lia].
Qed.

End System.

(** ** Two orders of a take and a put *)

Definition op_allowed (o : op) (d : dispatcher) : bool :=
  match o with
  | Op_reg _ _ _ _ _ _ | Op_process _ | Op_diag => next_unused_id d + 1 <? 2 ^ 64
  | Op_reg_group l _ c _ _ _ => (next_unused_id d + Z.of_nat (length l) <? 2 ^ 64) && ((length l <=? 1)%nat || c)
  | Op_unreg _ | Op_exec _ _ | Op_que _ => true
  | Op_timer p => match d_heap d !! p with Some it => bool_decide (itype it = REG) && timer_event it | None => false end
  | Op_release _ => false
  end.
Lemma op_allowed_sound o d : op_allowed o d = true → allowed o d.
Proof.
  destruct o; cbn; unfold ids_left; try done; try by intros ?%Z.ltb_lt.
  - intros [?%Z.ltb_lt [?%Nat.leb_le| ->]%orb_true_iff]%andb_true_iff; auto.
  - destruct (d_heap d !! p) as [it|]; [|done]. intros [?%bool_decide_eq_true ?]%andb_true_iff. by exists it.
Qed.

Section Runs.
Context {S : Type} {ST : OeStoreOps S}.

Definition step_allowed (o : ystep) (y : system (S := S)) : bool :=
  match o with
  | Y_command id _ => bool_decide (id ∉ dom (y_contexts y))
  | Y_work i clk now => true
  | Y_register i => match y_registering y !! i with Some w => op_allowed (reg_op w) (y_matcher y) | None => false end
  | Y_fire i => match y_events y !! i with Some props => op_allowed (Op_process props) (y_matcher y) | None => false end
  | Y_que n => true
  | Y_timer p => op_allowed (Op_timer p) (y_matcher y)
  end.
Lemma step_allowed_sound o y y' : step_allowed o y = true → yrun o y = Some y' → system_step y y'.
Proof.
  intros Ha E. exists o. split; [|done]. destruct o as [id c|i clk now|i|i|n|p]; cbn [step_allowed yrun yallowed] in *.
  - apply bool_decide_eq_true in Ha. by apply not_elem_of_dom.
  - unfold work in E. destruct (y_work y !! i) as [j|]; [|done]. cbn [mbind option_bind] in E.
    exists j. destruct (handler j clk now y); [by eauto|done].
  - destruct (y_registering y !! i) as [w|]; [|done]. exists w. split; [done|]. by apply op_allowed_sound.
  - destruct (y_events y !! i) as [w|]; [|done]. exists w. split; [done|]. by apply op_allowed_sound.
  - done.
  - by apply op_allowed_sound.
Qed.

(** A run of allowed steps *)
Fixpoint yruns (l : list ystep) (y : system (S := S)) : option (system (S := S)) :=
  match l with
  | [] => Some y
  | o :: l => if step_allowed o y then y ← yrun o y; yruns l y else None
  end.
Lemma yruns_reached l y y' : yruns l y = Some y' → rtc system_step y y'.
Proof.
  revert y. induction l as [|o l IH]; intros y; cbn [yruns]; [by intros [= ->]|].
  destruct (step_allowed o y) eqn:Ha; [|done]. destruct (yrun o y) as [y1|] eqn:E; [|done]. cbn [mbind option_bind].
  intros Hr. eapply rtc_l; [by eapply step_allowed_sound|by apply IH].
Qed.

End Runs.

Abbreviation mem_store := (OeBdb (B := memdb false)).
#[export] Instance mem_ops : OeStoreOps mem_store := bdb_ops 1.

Definition empty_store : mem_store := store_with false (mkStore ∅ ∅) 1001.
Definition job_put : OEK_Context :=
  mkContext 100 (mkOekMsg PUT_CMD 8 0 true (D_put_cmd (mkPutCmd 1000 true (Some MemDb.job)))) true None None.
Definition at_time (t : Z) (i : nat) : ystep := Y_work i (λ _, (t, t)) t.
Definition at_ten : nat → ystep := at_time 10.

(** A take of any job, whose handler has found nothing; and a put of a job *)
Definition looked : list ystep := [Y_command 1 take_context; at_ten 0; Y_command 2 job_put].
Definition registered_late : list ystep := looked ++ [at_ten 0; Y_fire 0; Y_que 1; Y_register 0; Y_que 1].
Definition registered_first : list ystep := looked ++ [Y_register 0; at_ten 0; Y_fire 0; Y_que 2; at_ten 0].

Definition run_from_start (l : list ystep) : option (system (S := mem_store)) :=
  d ← Oed_Dispatcher_new 1; yruns l (started empty_store d).

(** Nothing is left to do for the database threads and the matcher. *)
Definition at_rest (y : system (S := mem_store)) : bool :=
  bool_decide (length (y_work y) = 0%nat) && bool_decide (length (y_registering y) = 0%nat) &&
  bool_decide (length (y_events y) = 0%nat) && bool_decide (d_que (y_matcher y) = []).
(** What a take would be handed now *)
Definition could_take (y : system (S := mem_store)) : option nat :=
  '(_, q, _) ← OeStore_get (10, 10) (y_store y) (get_query (cmd_msg take_context) take_cmd); Some (length (q_results q)).
(** The contexts the templates of the matcher can be run for *)
Definition waiters (d : dispatcher) : list Z :=
  (λ x : Z * item_, args x.2) <$>
  filter (λ x : Z * item_, itype x.2 = REG ∧ (items x.2 ≠ None ∨ x.1 ∈ d_que d) ∧
    (match_handler x.2 ≠ None ∨ timeout_handler x.2 ≠ None)) (map_to_list (d_heap d)).
Lemma waiters_spec id d : id ∈ waiters d ↔ in_matcher id d.
Proof.
  unfold waiters, in_matcher, alive. rewrite list_elem_of_fmap. split.
  - intros ([p it] & -> & Hf). apply list_elem_of_filter in Hf as [H1 Hf]. cbn in *.
    exists p, it. split; [|done]. destruct H1 as (? & ? & ?). split_and!; [|done..]. by apply elem_of_map_to_list.
  - intros (p & it & (H1 & H2 & H3 & H4) & <-). exists (p, it). split; [done|]. apply list_elem_of_filter.
    split; [by split_and!|]. by apply elem_of_map_to_list.
Qed.
Definition rest_state (y : system (S := mem_store)) : bool * list Z * list Z * option nat :=
  (at_rest y, waiters (y_matcher y), fst <$> y_finished y, could_take y).

(** The first order, and then the timer of the get *)
Definition timed_out : list ystep := registered_late ++ [Y_timer 2; at_time 100 0].
Definition run_end (l : list ystep) : option (bool * list Z * list Z * option nat) := rest_state <$> run_from_start l.

(** A put between the look and the registration is missed.  The handler of a
    get looks into the store and registers with the matcher afterwards without
    looking again.  In the first of these runs a put stores its item, fires its
    event and has it processed in between: all threads come to rest with the
    item in the store, visible and matching, and the get waiting in the
    matcher.  In the second the registration comes first and the same put
    answers the get.  In the third the get of the first run is answered when
    its timer looks again. *)
Lemma lost_wakeup_runs :
  run_end registered_late = Some (true, [1], [2], Some 1%nat) ∧
  run_end registered_first = Some (true, [], [2; 1], Some 0%nat) ∧
  run_end timed_out = Some (true, [], [2; 1], Some 0%nat).
Proof. vm_compute. split_and!; reflexivity. Qed.

(** ** Witness: the state in which the take waits *)

Lemma late_runs :
  (d ← Oed_Dispatcher_new 1; y ← yruns registered_late (started empty_store d);
   Some (bool_decide (is_Some (y_contexts y !! 1)), (in_hand 1 y + count_in fst 1 (y_finished y))%nat)) = Some (true, 0%nat).
Proof. vm_compute. reflexivity. Qed.

