(* ===== verification/Security.v ===== *)
(** * Security: logging in and authorising commands

    Models [src/corelib/Subject.c], [Privilege.c], [SecurityContext.c],
    [LoginModule.c], [BaseLoginModule.c] and [BuiltInLoginModule.c].

    Modules, extents and groups are shared: a login module is reached through
    its pointer, and a privilege keeps the pointer of a group, whose templates
    the administrator may extend later.  They live in a store [sec] of
    addresses; a missing address is [None].  A login module and a privilege
    are a function pointer and its object, so that a context can mix modules.
    Accounts are never changed and stand in their table by value. *)

From S2P Require Import Prelude Values HashTable Collections Messages.
Import Flags AList SKeyTable.

(** ** C strings *)

(** [strncmp] on strings without NUL: the difference of the first bytes that
    differ, a string's end being a zero byte. *)
Fixpoint strncmp (n : nat) (x y : list Z) : Z :=
  match n with
  | O => 0
  | S n =>
    let a := default 0 (head x) in
    let b := default 0 (head y) in
    if a =? b then (if a =? 0 then 0 else strncmp n (tail x) (tail y)) else a - b
  end.

(** [strtok_r]: the next token and what follows the delimiter that ends it. *)
Fixpoint skip_delims (delims : list ascii) (s : string) : string :=
  match s with
  | EmptyString => EmptyString
  | String c rest => if bool_decide (c ∈ delims) then skip_delims delims rest else s
  end.
Fixpoint span_token (delims : list ascii) (s : string) : string * string :=
  match s with
  | EmptyString => (EmptyString, EmptyString)
  | String c rest =>
    if bool_decide (c ∈ delims) then (EmptyString, rest)
    else let '(tok, r) := span_token delims rest in (String c tok, r)
  end.
Definition strtok_r (delims : list ascii) (s : string) : option (string * string) :=
  match skip_delims delims s with
  | EmptyString => None
  | s => Some (span_token delims s)
  end.

(** ** Objects *)

Inductive AUTH := ALLOW | DENY | DONTCARE.

#[export] Instance auth_eq : EqDecision AUTH.
Proof. solve_decision. Defined.

Definition MAX_GROUPS : nat := 10.

Abbreviation string_table V := (ArenaTable.ArenaTable_T (K := string) (V := V)).

Record grpinfo := mkGrp { grp_name : string; templates : list OekMsg }.
Record extinfo := mkExt { ext_name : string; groups : string_table Z }.
Record BaseLoginModule := mkBase { extents : string_table Z }.
Record userinfo := mkUser { u_username : string; u_pwd : string; grpname : list (option string) }.
Record BuiltInLoginModule := mkBuiltIn { users : string_table userinfo; basemod : BaseLoginModule }.

Record sec := mkSec {
  grps : gmap Z grpinfo;
  exts : gmap Z extinfo;
  mods : gmap Z BuiltInLoginModule;
  s_next : Z                      (* the next address of the allocator *)
}.
Definition upd_grps (f : gmap Z grpinfo → gmap Z grpinfo) (st : sec) : sec :=
  mkSec (f (grps st)) (exts st) (mods st) (s_next st).
Definition upd_exts (f : gmap Z extinfo → gmap Z extinfo) (st : sec) : sec :=
  mkSec (grps st) (f (exts st)) (mods st) (s_next st).
Definition upd_mods (f : gmap Z BuiltInLoginModule → gmap Z BuiltInLoginModule) (st : sec) : sec :=
  mkSec (grps st) (exts st) (f (mods st)) (s_next st).
Definition sec_alloc (st : sec) : Z * sec :=
  (s_next st, mkSec (grps st) (exts st) (mods st) (s_next st + 1)).

(** ** Privileges and subjects *)

Record Privilege := mkPriv { p_impl : Z; allow_func : sec → Z → OekMsg → option AUTH }.
Definition Privilege_new (allow_func : sec → Z → OekMsg → option AUTH) (impl : Z) : Privilege :=
  mkPriv impl allow_func.
Definition Privilege_allow (st : sec) (p : Privilege) (msg : OekMsg) : option AUTH :=
  c_assert (negb (p_impl p =? 0));; allow_func p st (p_impl p) msg.

Record Subject := mkSubject {
  username : option string;
  extentname : option string;
  pwd : option string;
  privileges : list Privilege;
  news : list string;
  status : Z
}.
Definition SUBJECT_AUTHENTICATED : Z := 1.
Definition SUBJECT_HAS_NEWS : Z := 2.
Definition Subject_new : Subject := mkSubject None None None [] [] 0.
Definition Subject_set_username (s : Subject) (u : option string) : Subject :=
  mkSubject u (extentname s) (pwd s) (privileges s) (news s) (status s).
Definition Subject_set_extentname (s : Subject) (x : option string) : Subject :=
  mkSubject (username s) x (pwd s) (privileges s) (news s) (status s).
Definition Subject_set_pwd (s : Subject) (p : option string) : Subject :=
  mkSubject (username s) (extentname s) p (privileges s) (news s) (status s).
Definition Subject_status_is_set (s : Subject) (flag : Z) : bool := OEC_FLAG_ISSET (status s) flag.
Definition Subject_is_authenticated (s : Subject) : bool := OEC_FLAG_ISSET (status s) SUBJECT_AUTHENTICATED.
Definition Subject_has_news (s : Subject) : bool := OEC_FLAG_ISSET (status s) SUBJECT_HAS_NEWS.
Definition Subject_status_set (s : Subject) (flag : Z) : Subject :=
  mkSubject (username s) (extentname s) (pwd s) (privileges s) (news s) (OEC_FLAG_SET (status s) flag).
Definition Subject_status_clear (s : Subject) (flag : Z) : Subject :=
  mkSubject (username s) (extentname s) (pwd s) (privileges s) (news s) (OEC_FLAG_CLEAR (status s) flag).
Definition Subject_add_privilege (s : Subject) (p : Privilege) : Subject :=
  mkSubject (username s) (extentname s) (pwd s)
    (Oec_AList_append (privileges s) (Oec_AList_list [Some p; None])) (news s) (status s).
Definition Subject_add_news (s : Subject) (txt : string) : Subject :=
  mkSubject (username s) (extentname s) (pwd s) (privileges s)
    (Oec_AList_append (news s) (Oec_AList_list [Some txt; None])) (status s).

(** ** BaseLoginModule.c *)

Definition BaseLoginModule_new : option BaseLoginModule :=
  t ← SKeyTable_arena_new 100; Some (mkBase t).

Fixpoint allow_loop (msg : OekMsg) (l : list OekMsg) : AUTH :=
  match l with
  | [] => DONTCARE
  | mtemplate :: l => if OekMsgTemplateMatcher_match msg mtemplate then ALLOW else allow_loop msg l
  end.
Definition _allow (st : sec) (ginfo : Z) (msg : OekMsg) : option AUTH :=
  if ginfo =? 0 then Some DONTCARE
  else g ← grps st !! ginfo; Some (allow_loop msg (templates g)).

(** The extent's and then the group's entry, made on demand when [alloc]. *)
Definition get_extinfo (m : BaseLoginModule) (extentname : string) (alloc : bool) (st : sec)
    : option (option Z * BaseLoginModule * sec) :=
  match ArenaTable.ArenaTable_get (extents m) extentname with
  | Some e => Some (Some e, m, st)
  | None =>
    if alloc then
      t ← SKeyTable_arena_new 100;
      let '(e, st) := sec_alloc st in
      Some (Some e, mkBase (ArenaTable.ArenaTable_put (extents m) extentname e).1,
            upd_exts <[e := mkExt extentname t]> st)
    else Some (None, m, st)
  end.
Definition _get_grpinfo (m : BaseLoginModule) (extentname groupname : string) (alloc : bool) (st : sec)
    : option (option Z * BaseLoginModule * sec) :=
  '(einfo, m, st) ← get_extinfo m extentname alloc st;
  match einfo with
  | None => Some (None, m, st)
  | Some e =>
    ei ← exts st !! e;
    match ArenaTable.ArenaTable_get (groups ei) groupname with
    | Some g => Some (Some g, m, st)
    | None =>
      if alloc then
        let '(g, st) := sec_alloc st in
        let st := upd_grps <[g := mkGrp groupname (Oec_AList_list [None])]> st in
        Some (Some g, m,
              upd_exts <[e := mkExt (ext_name ei) (ArenaTable.ArenaTable_put (groups ei) groupname g).1]> st)
      else Some (None, m, st)
    end
  end.

Fixpoint assign_loop (st : sec) (m : BaseLoginModule) (ext : string) (grouplst : list (option string))
    (s : Subject) : option Subject :=
  match grouplst with
  | Some gname :: grouplst =>
    '(ginfo, _, _) ← _get_grpinfo m ext gname false st;
    assign_loop st m ext grouplst
      (match ginfo with
       | Some g => if Subject_is_authenticated s then Subject_add_privilege s (Privilege_new _allow g) else s
       | None => s
       end)
  | _ => Some s
  end.
Definition BaseLoginModule_assign_privs (st : sec) (m : BaseLoginModule) (s : Subject)
    (grouplst : list (option string)) : option Subject :=
  _ ← username s;
  ext ← extentname s;
  if negb (Subject_is_authenticated s) then Some s
  else assign_loop st m ext (take MAX_GROUPS grouplst) s.

Definition BaseLoginModule_add_privilege (m : BaseLoginModule) (extentname groupname : string)
    (mtemplate : OekMsg) (st : sec) : option (BaseLoginModule * sec) :=
  '(ginfo, m, st) ← _get_grpinfo m extentname groupname true st;
  g ← ginfo;
  gi ← grps st !! g;
  Some (m, upd_grps <[g := mkGrp (grp_name gi)
                         (Oec_AList_append (templates gi) (Oec_AList_list [Some mtemplate; None]))]> st).

(** ** BuiltInLoginModule.c *)

Definition BuiltInLoginModule_new (st : sec) : option (Z * sec) :=
  t ← SKeyTable_arena_new 10000;
  b ← BaseLoginModule_new;
  let '(m, st) := sec_alloc st in
  Some (m, upd_mods <[m := mkBuiltIn t b]> st).

Definition delimiters : list ascii := [" "; "."; ","; ";"; ":"; "!"; "-"]%char.

(** The loop over the tokens of the group list; the array is zeroed. *)
Fixpoint fill_groups (n i : nat) (cp : string) (arr : list (option string)) : list (option string) :=
  match n with
  | O => arr
  | S n =>
    match strtok_r delimiters cp with
    | None => <[i := None]> arr
    | Some (token, cp) => fill_groups n (S i) cp (<[i := Some token]> arr)
    end
  end.
Definition BuiltInLoginModule_add_account (impl : Z) (grouplst username pwd : string) (st : sec) : option sec :=
  m ← mods st !! impl;
  let uinfo := mkUser username pwd (fill_groups MAX_GROUPS 0 grouplst (replicate MAX_GROUPS None)) in
  Some (upd_mods <[impl := mkBuiltIn (ArenaTable.ArenaTable_put (users m) username uinfo).1 (basemod m)]> st).

Definition BuiltInLoginModule_add_privilege (impl : Z) (extentname groupname : string) (mtemplate : OekMsg)
    (st : sec) : option sec :=
  m ← mods st !! impl;
  '(b, st) ← BaseLoginModule_add_privilege (basemod m) extentname groupname mtemplate st;
  Some (upd_mods <[impl := mkBuiltIn (users m) b]> st).

Definition _login (st : sec) (impl : Z) (s : Subject) : option Subject :=
  m ← mods st !! impl;
  match username s with
  | None => Some s
  | Some u =>
    match ArenaTable.ArenaTable_get (users m) u with
    | None => Some s
    | Some uinfo =>
      if Subject_is_authenticated s then Some s
      else
        match pwd s with
        | None => Some s
        | Some trymepwd =>
          if negb (strncmp (String.length (u_pwd uinfo)) (bytes_of (u_pwd uinfo)) (bytes_of trymepwd) =? 0)
          then Some s
          else BaseLoginModule_assign_privs st (basemod m) (Subject_status_set s SUBJECT_AUTHENTICATED)
                 (grpname uinfo)
        end
    end
  end.

(** ** LoginModule.c and SecurityContext.c *)

Record LoginModule := mkLogin { m_impl : Z; login_func : sec → Z → Subject → option Subject }.
Definition LoginModule_new (login_func : sec → Z → Subject → option Subject) (impl : Z) : option LoginModule :=
  c_assert (negb (impl =? 0));; Some (mkLogin impl login_func).
Definition LoginModule_login (st : sec) (m : LoginModule) (s : Subject) : option Subject :=
  c_assert (negb (m_impl m =? 0));; login_func m st (m_impl m) s.
Definition BuiltInLoginModule_new_module (impl : Z) : option LoginModule := LoginModule_new _login impl.

Record SecurityContext := mkSecCtx { modules : list LoginModule }.
Definition SecurityContext_new : SecurityContext := mkSecCtx [].
Definition SecurityContext_add_module (c : SecurityContext) (m : LoginModule) : SecurityContext :=
  mkSecCtx (Oec_AList_append (modules c) (Oec_AList_list [Some m; None])).

Fixpoint login_loop (st : sec) (l : list LoginModule) (s : Subject) : option Subject :=
  match l with
  | [] => Some s
  | m :: l => s ← LoginModule_login st m s; login_loop st l s
  end.
Definition SecurityContext_login (st : sec) (c : SecurityContext) (s : Subject) : option Subject :=
  login_loop st (modules c) s.

Fixpoint authorize_loop (st : sec) (l : list Privilege) (msg : OekMsg) (auth : AUTH) : option AUTH :=
  match l with
  | [] => Some auth
  | p :: l =>
    auth ← Privilege_allow st p msg;
    if bool_decide (auth = DONTCARE) then authorize_loop st l msg auth else Some auth
  end.
Definition SecurityContext_authorize (st : sec) (c : SecurityContext) (s : Subject) (msg : OekMsg) : option AUTH :=
  auth ← authorize_loop st (privileges s) msg ALLOW;
  Some (if bool_decide (auth = DONTCARE) then DENY else auth).

(** ** What the store means

    Names count by their hash class, as the tables compare them.  [acl] is
    the access list of a module, extent and group, [account] a module's
    account of a user name. *)

Abbreviation cls := Str.oec_hash_string_key.

Definition grp_at (st : sec) (i cx cg : Z) : option Z :=
  m ← mods st !! i;
  e ← ArenaTable.tmap (extents (basemod m)) !! cx;
  ei ← exts st !! e;
  ArenaTable.tmap (groups ei) !! cg.
Definition acl (st : sec) (i cx cg : Z) : option (list OekMsg) :=
  g ← grp_at st i cx cg; gi ← grps st !! g; Some (templates gi).
(** The account of module [i] in the hash class [c] of a user name: a user
    whose name has the same hash has the same account. *)
Definition account (st : sec) (i c : Z) : option userinfo :=
  m ← mods st !! i; ArenaTable.tmap (users m) !! c.

(** Tables are well formed, pointers point to live objects, and no two
    entries share one. *)
Record sec_ok (st : sec) : Prop := {
  so_next : 0 < s_next st;
  so_grps : ∀ g gi, grps st !! g = Some gi → 0 < g < s_next st;
  so_exts : ∀ e ei, exts st !! e = Some ei → 0 < e < s_next st ∧ ArenaTable.table_wf (groups ei);
  so_mods : ∀ i m, mods st !! i = Some m →
    0 < i < s_next st ∧ ArenaTable.table_wf (users m) ∧ ArenaTable.table_wf (extents (basemod m));
  so_ext_live : ∀ i m cx e, mods st !! i = Some m → ArenaTable.tmap (extents (basemod m)) !! cx = Some e →
    is_Some (exts st !! e);
  so_grp_live : ∀ e ei cg g, exts st !! e = Some ei → ArenaTable.tmap (groups ei) !! cg = Some g →
    is_Some (grps st !! g);
  so_ext_own : ∀ i m cx i' m' cx' e, mods st !! i = Some m → mods st !! i' = Some m' →
    ArenaTable.tmap (extents (basemod m)) !! cx = Some e →
    ArenaTable.tmap (extents (basemod m')) !! cx' = Some e → i = i' ∧ cx = cx';
  so_grp_own : ∀ e ei cg e' ei' cg' g, exts st !! e = Some ei → exts st !! e' = Some ei' →
    ArenaTable.tmap (groups ei) !! cg = Some g → ArenaTable.tmap (groups ei') !! cg' = Some g →
    e = e' ∧ cg = cg'
}.

Lemma table_new {V} hint : 0 ≤ hint →
  ∃ t : string_table V, SKeyTable_arena_new hint = Some t ∧ ArenaTable.table_wf t ∧ ArenaTable.tmap t = ∅.
Proof.
  intros Hh. destruct (SKeyTable_arena_new hint) as [t|] eqn:E.
  - exists t. split; [done|]. by apply (ArenaTable.table_new_wf hint).
  - unfold SKeyTable_arena_new, ArenaTable.ArenaTable_new in E. destruct (Z.leb_spec 0 hint); [done|lia].
Qed.

Lemma grp_at_live st i cx cg g : sec_ok st → grp_at st i cx cg = Some g → ∃ gi, grps st !! g = Some gi ∧ 0 < g.
Proof.
  intros H E. unfold grp_at in E. destruct (mods st !! i) as [m|] eqn:Em; [|done]; cbn in E.
  destruct (_ !! cx) as [e|] eqn:Ee; [|done]; cbn in E. destruct (exts st !! e) as [ei|] eqn:Ei; [|done]; cbn in E.
  destruct (so_grp_live st H e ei cg g Ei E) as [gi Eg]. exists gi. split; [done|]. apply (so_grps st H g gi Eg).
Qed.

Lemma acl_grp_at st i cx cg : sec_ok st → acl st i cx cg = None ↔ grp_at st i cx cg = None.
Proof.
  intros H. unfold acl. destruct (grp_at st i cx cg) as [g|] eqn:E; cbn; [|done].
  destruct (grp_at_live st i cx cg g H E) as (gi & -> & _). done.
Qed.

(** Two triples do not share a group. *)
Lemma grp_at_own st i cx cg i' cx' cg' g :
  sec_ok st → grp_at st i cx cg = Some g → grp_at st i' cx' cg' = Some g → i = i' ∧ cx = cx' ∧ cg = cg'.
Proof.
  intros H E E'. unfold grp_at in E, E'.
  destruct (mods st !! i) as [m|] eqn:Em; [|done]; destruct (mods st !! i') as [m'|] eqn:Em'; [|done]; cbn in E, E'.
  destruct (_ !! cx) as [e|] eqn:Ee; [|done]; destruct (_ !! cx') as [e'|] eqn:Ee'; [|done]; cbn in E, E'.
  destruct (exts st !! e) as [ei|] eqn:Ei; [|done]; destruct (exts st !! e') as [ei'|] eqn:Ei'; [|done]; cbn in E, E'.
  destruct (so_grp_own st H e ei cg e' ei' cg' g Ei Ei' E E') as [<- <-].
  destruct (so_ext_own st H i m cx i' m' cx' e Em Em' Ee Ee') as [<- <-]. done.
Qed.

(** ** Looking up and making groups *)

Lemma find_group st i m x g :
  sec_ok st → mods st !! i = Some m →
  _get_grpinfo (basemod m) x g false st = Some (grp_at st i (cls x) (cls g), basemod m, st).
Proof.
  intros H Em. destruct (so_mods st H i m Em) as (_ & _ & W). unfold _get_grpinfo, get_extinfo, grp_at.
  rewrite ArenaTable.table_get_spec, Em by done. cbn.
  destruct (ArenaTable.tmap (extents (basemod m)) !! cls x) as [e|] eqn:Ee; cbn; [|done].
  destruct (so_ext_live st H i m _ e Em Ee) as [ei Ei]. rewrite Ei. cbn.
  rewrite ArenaTable.table_get_spec by apply (so_exts st H e ei Ei). cbn.
  by destruct (ArenaTable.tmap (groups ei) !! cls g).
Qed.

(** The store with module [i] replaced by [m]. *)
Abbreviation with_mod i m st := (upd_mods <[i := m]> st).

Lemma with_mod_id i m st : mods st !! i = Some m → with_mod i m st = st.
Proof. intros E. destruct st. unfold upd_mods. cbn in *. by rewrite insert_id. Qed.

(** A new, empty extent. *)
Section NewExtent.
Context (st : sec) (i : Z) (m : BuiltInLoginModule) (x : string) (t : string_table Z).
Hypothesis (H : sec_ok st) (Em : mods st !! i = Some m).
Hypothesis (Hx : ArenaTable.tmap (extents (basemod m)) !! cls x = None).
Hypothesis (Wt : ArenaTable.table_wf t) (Et : ArenaTable.tmap t = ∅).

Let e := s_next st.
Let b := mkBase (ArenaTable.ArenaTable_put (extents (basemod m)) x e).1.
Let st' := with_mod i (mkBuiltIn (users m) b) (upd_exts <[e := mkExt x t]> (sec_alloc st).2).

Lemma new_extent_map : ArenaTable.table_wf (extents b) ∧
  ArenaTable.tmap (extents b) = <[cls x := e]> (ArenaTable.tmap (extents (basemod m))).
Proof.
  destruct (so_mods st H i m Em) as (_ & _ & We).
  by destruct (ArenaTable.put_spec (extents (basemod m)) x e We) as (Wb & Mb & _).
Qed.

Lemma new_extent_fresh i' m0 cx : mods st !! i' = Some m0 → ArenaTable.tmap (extents (basemod m0)) !! cx ≠ Some e.
Proof.
  intros E E'. destruct (so_ext_live st H i' m0 cx e E E') as [ei Ei].
  pose proof (so_exts st H e ei Ei). subst e. lia.
Qed.

Lemma new_extent_mods i' m' : mods st' !! i' = Some m' → ∃ m0, mods st !! i' = Some m0 ∧
  ∀ cx e', ArenaTable.tmap (extents (basemod m')) !! cx = Some e' →
    (i' = i ∧ cx = cls x ∧ e' = e) ∨ ArenaTable.tmap (extents (basemod m0)) !! cx = Some e'.
Proof.
  intros E. cbn in E. apply lookup_insert_Some in E as [[<- <-]|[Hne E]].
  - exists m. split; [done|]. intros cx e'. cbn [basemod]. rewrite (proj2 new_extent_map).
    rewrite lookup_insert_Some. intros [[<- <-]|[? ?]]; auto.
  - exists m'. auto.
Qed.

Lemma new_extent_ok : sec_ok st'.
Proof.
  split; cbn.
  - pose proof (so_next st H). lia.
  - intros g gi E. pose proof (so_grps st H g gi E). lia.
  - intros e' ei E. apply lookup_insert_Some in E as [[<- <-]|[_ E]].
    + pose proof (so_next st H). subst e. split; [lia|done].
    + destruct (so_exts st H e' ei E). split; [lia|done].
  - intros i' m' E. apply lookup_insert_Some in E as [[<- <-]|[_ E]].
    + destruct (so_mods st H i m Em) as (? & ? & _). split_and!; [lia|lia|done|apply new_extent_map].
    + destruct (so_mods st H i' m' E) as (? & ? & ?). split_and!; try done; lia.
  - intros i' m' cx e' E Ee. destruct (new_extent_mods i' m' E) as (m0 & E0 & Hc).
    destruct (Hc cx e' Ee) as [(-> & -> & ->)|E']; [rewrite lookup_insert_eq; eauto|].
    pose proof (new_extent_fresh i' m0 cx E0). rewrite lookup_insert_ne by congruence.
    by apply (so_ext_live st H i' m0 cx).
  - intros e' ei cg g E Eg. apply lookup_insert_Some in E as [[<- <-]|[_ E]]; [cbn in Eg; by rewrite Et in Eg|].
    by apply (so_grp_live st H e' ei cg g).
  - intros i1 m1 c1 i2 m2 c2 e' E1 E2 X1 X2.
    destruct (new_extent_mods i1 m1 E1) as (n1 & F1 & C1). destruct (new_extent_mods i2 m2 E2) as (n2 & F2 & C2).
    pose proof (new_extent_fresh i1 n1 c1 F1). pose proof (new_extent_fresh i2 n2 c2 F2).
    destruct (C1 c1 e' X1) as [(-> & -> & ->)|Y1], (C2 c2 _ X2) as [(-> & -> & ?)|Y2]; subst; try done.
    by apply (so_ext_own st H i1 n1 c1 i2 n2 c2 e').
  - intros e1 ei1 c1 e2 ei2 c2 g E1 E2 X1 X2.
    apply lookup_insert_Some in E1 as [[<- <-]|[_ E1]]; [cbn in X1; by rewrite Et in X1|].
    apply lookup_insert_Some in E2 as [[<- <-]|[_ E2]]; [cbn in X2; by rewrite Et in X2|].
    by apply (so_grp_own st H e1 ei1 c1 e2 ei2 c2 g).
Qed.

Lemma new_extent_same i' cx cg : grp_at st' i' cx cg = grp_at st i' cx cg.
Proof.
  unfold grp_at. cbn. destruct (decide (i' = i)) as [->|Hi].
  - rewrite lookup_insert_eq, Em. cbn [mbind option_bind basemod]. rewrite (proj2 new_extent_map). destruct (decide (cx = cls x)) as [->|Hc].
    + rewrite lookup_insert_eq, Hx. cbn. rewrite lookup_insert_eq. cbn. by rewrite Et.
    + rewrite lookup_insert_ne by done. destruct (_ !! cx) as [e'|] eqn:Ee; [|done]. cbn.
      pose proof (new_extent_fresh i m cx Em). by rewrite lookup_insert_ne by congruence.
  - rewrite lookup_insert_ne by done. destruct (mods st !! i') as [m'|] eqn:Em'; [|done]. cbn.
    destruct (_ !! cx) as [e'|] eqn:Ee; [|done]. cbn.
    pose proof (new_extent_fresh i' m' cx Em'). by rewrite lookup_insert_ne by congruence.
Qed.
End NewExtent.

(** A new group, with no templates yet, in an extent. *)
Section NewGroup.
Context (st : sec) (i : Z) (m : BuiltInLoginModule) (cx e : Z) (ei : extinfo) (gname : string).
Hypothesis (H : sec_ok st) (Em : mods st !! i = Some m).
Hypothesis (Ee : ArenaTable.tmap (extents (basemod m)) !! cx = Some e) (Ei : exts st !! e = Some ei).
Hypothesis (Hg : ArenaTable.tmap (groups ei) !! cls gname = None).

Let g := s_next st.
Let ei' := mkExt (ext_name ei) (ArenaTable.ArenaTable_put (groups ei) gname g).1.
Let st' := upd_exts <[e := ei']> (upd_grps <[g := mkGrp gname []]> (sec_alloc st).2).

Lemma new_group_map : ArenaTable.table_wf (groups ei') ∧
  ArenaTable.tmap (groups ei') = <[cls gname := g]> (ArenaTable.tmap (groups ei)).
Proof.
  destruct (so_exts st H e ei Ei) as [_ W]. by destruct (ArenaTable.put_spec (groups ei) gname g W) as (? & ? & _).
Qed.

Lemma new_group_fresh e' ei0 cg : exts st !! e' = Some ei0 → ArenaTable.tmap (groups ei0) !! cg ≠ Some g.
Proof.
  intros E E'. destruct (so_grp_live st H e' ei0 cg g E E') as [gi Eg].
  pose proof (so_grps st H g gi Eg). subst g. lia.
Qed.

Lemma new_group_exts e' ei1 : exts st' !! e' = Some ei1 → ∃ ei0, exts st !! e' = Some ei0 ∧
  ∀ cg g', ArenaTable.tmap (groups ei1) !! cg = Some g' →
    (e' = e ∧ cg = cls gname ∧ g' = g) ∨ ArenaTable.tmap (groups ei0) !! cg = Some g'.
Proof.
  intros E. cbn in E. apply lookup_insert_Some in E as [[<- <-]|[Hne E]].
  - exists ei. split; [done|]. intros cg g'. rewrite (proj2 new_group_map).
    rewrite lookup_insert_Some. intros [[<- <-]|[? ?]]; auto.
  - exists ei1. auto.
Qed.

Lemma new_group_ok : sec_ok st'.
Proof.
  split; cbn.
  - pose proof (so_next st H). lia.
  - intros g' gi E. apply lookup_insert_Some in E as [[<- <-]|[_ E]].
    + pose proof (so_next st H). subst g. lia.
    + pose proof (so_grps st H g' gi E). lia.
  - intros e' ei1 E. apply lookup_insert_Some in E as [[<- <-]|[_ E]].
    + destruct (so_exts st H e ei Ei). split; [lia|apply new_group_map].
    + destruct (so_exts st H e' ei1 E). split; [lia|done].
  - intros i' m' E. destruct (so_mods st H i' m' E) as (? & ? & ?). split_and!; try done; lia.
  - intros i' m' c e' E X. destruct (so_ext_live st H i' m' c e' E X) as [ei0 E0].
    destruct (decide (e' = e)) as [->|]; [rewrite lookup_insert_eq|rewrite lookup_insert_ne by done]; eauto.
  - intros e' ei1 cg g' E X. destruct (new_group_exts e' ei1 E) as (ei0 & E0 & C).
    destruct (C cg g' X) as [(-> & -> & ->)|Y]; [rewrite lookup_insert_eq; eauto|].
    pose proof (new_group_fresh e' ei0 cg E0). rewrite lookup_insert_ne by congruence.
    by apply (so_grp_live st H e' ei0 cg).
  - intros i1 m1 c1 i2 m2 c2 e'. apply (so_ext_own st H i1 m1 c1 i2 m2 c2 e').
  - intros e1 ei1 c1 e2 ei2 c2 g' E1 E2 X1 X2.
    destruct (new_group_exts e1 ei1 E1) as (n1 & F1 & C1). destruct (new_group_exts e2 ei2 E2) as (n2 & F2 & C2).
    pose proof (new_group_fresh e1 n1 c1 F1). pose proof (new_group_fresh e2 n2 c2 F2).
    destruct (C1 c1 g' X1) as [(-> & -> & ->)|Y1], (C2 c2 _ X2) as [(-> & -> & ?)|Y2]; subst; try done.
    by apply (so_grp_own st H e1 n1 c1 e2 n2 c2 g').
Qed.

Lemma new_group_same i' cx' cg : grp_at st' i' cx' cg =
  if decide ((i', cx', cg) = (i, cx, cls gname)) then Some g else grp_at st i' cx' cg.
Proof.
  unfold grp_at. cbn. destruct (mods st !! i') as [m'|] eqn:Em'; cbn.
  2: { rewrite decide_False; [done|]. intros [= -> _ _]. congruence. }
  destruct (ArenaTable.tmap (extents (basemod m')) !! cx') as [e'|] eqn:Ee'; cbn.
  2: { rewrite decide_False; [done|]. intros [= -> -> _]. congruence. }
  destruct (decide (e' = e)) as [->|He].
  - destruct (so_ext_own st H i' m' cx' i m cx e Em' Em Ee' Ee) as [-> ->].
    rewrite lookup_insert_eq, Ei. cbn [mbind option_bind]. rewrite (proj2 new_group_map). destruct (decide (cg = cls gname)) as [->|Hne].
    + by rewrite lookup_insert_eq, decide_True.
    + rewrite lookup_insert_ne by done. rewrite decide_False by congruence. done.
  - rewrite lookup_insert_ne by done. rewrite decide_False; [done|]. intros [= -> -> _]. congruence.
Qed.

Lemma new_group_acl i' cx' cg : acl st' i' cx' cg =
  if decide ((i', cx', cg) = (i, cx, cls gname)) then Some [] else acl st i' cx' cg.
Proof.
  unfold acl at 1. rewrite new_group_same. case_decide as D.
  - cbn. by rewrite lookup_insert_eq.
  - unfold acl. destruct (grp_at st i' cx' cg) as [g'|] eqn:E; [|done]. cbn.
    destruct (grp_at_live st i' cx' cg g' H E) as (gi & Egi & _). pose proof (so_grps st H g' gi Egi).
    by rewrite lookup_insert_ne by (subst g; lia).
Qed.
End NewGroup.

(** What [alloc] leaves behind: the access lists as before, the wanted one
    existing. *)
Definition made (st st' : sec) (i : Z) (m m' : BuiltInLoginModule) (cx cg : Z) : Prop :=
  sec_ok (with_mod i m' st') ∧ mods st' = mods st ∧ users m' = users m ∧
  ∀ i' cx' cg', acl (with_mod i m' st') i' cx' cg' =
    if decide ((i', cx', cg') = (i, cx, cg)) then Some (default [] (acl st i cx cg)) else acl st i' cx' cg'.

Lemma get_extent_true st i m x :
  sec_ok st → mods st !! i = Some m →
  ∃ e b st', get_extinfo (basemod m) x true st = Some (Some e, b, st') ∧
    let st1 := with_mod i (mkBuiltIn (users m) b) st' in
    sec_ok st1 ∧ mods st' = mods st ∧ grps st' = grps st ∧ ArenaTable.tmap (extents b) !! cls x = Some e ∧
    ∀ i' cx cg, grp_at st1 i' cx cg = grp_at st i' cx cg.
Proof.
  intros H Em. destruct (so_mods st H i m Em) as (_ & _ & W). unfold get_extinfo.
  rewrite ArenaTable.table_get_spec by done. cbn [kcls skey_ops].
  destruct (ArenaTable.tmap (extents (basemod m)) !! cls x) as [e|] eqn:Ee.
  - exists e, (basemod m), st. assert (mkBuiltIn (users m) (basemod m) = m) as -> by by destruct m.
    rewrite with_mod_id by done. by split_and!.
  - destruct (table_new (V := Z) 100 ltac:(lia)) as (t & Et & Wt & Mt). rewrite Et. cbn [mbind option_bind].
    eexists _, _, _. split; [done|]. cbn zeta. split_and!; try done.
    + by apply new_extent_ok.
    + rewrite (proj2 (new_extent_map st i m x H Em)). by rewrite lookup_insert_eq.
    + intros i' cx cg. by apply new_extent_same.
Qed.

Lemma get_group_true st i m x gname :
  sec_ok st → mods st !! i = Some m →
  ∃ g b st', _get_grpinfo (basemod m) x gname true st = Some (Some g, b, st') ∧
    made st st' i m (mkBuiltIn (users m) b) (cls x) (cls gname) ∧
    grp_at (with_mod i (mkBuiltIn (users m) b) st') i (cls x) (cls gname) = Some g.
Proof.
  intros H Em. destruct (get_extent_true st i m x H Em) as (e & b & st1 & E1 & H1 & M1 & G1 & X1 & S1).
  unfold _get_grpinfo. rewrite E1. cbn [mbind option_bind]. set (m1 := mkBuiltIn (users m) b) in *.
  set (st2 := with_mod i m1 st1) in *.
  assert (mods st2 !! i = Some m1) as Em2 by (cbn; apply lookup_insert_eq).
  destruct (so_ext_live st2 H1 i m1 _ e Em2 X1) as [ei Ei]. change (exts st1 !! e = Some ei) in Ei. rewrite Ei.
  cbn [mbind option_bind]. destruct (so_exts st2 H1 e ei Ei) as [_ W].
  rewrite ArenaTable.table_get_spec by done. cbn [kcls skey_ops].
  assert (grp_at st2 i (cls x) (cls gname) = ArenaTable.tmap (groups ei) !! cls gname) as Eg.
  { unfold grp_at. rewrite Em2. cbn [mbind option_bind]. change (basemod m1) with b. rewrite X1. cbn.
    by rewrite Ei. }
  assert (∀ i' cx cg, acl st2 i' cx cg = acl st i' cx cg) as A2.
  { intros i' cx cg. unfold acl. rewrite S1. cbn. by rewrite G1. }
  destruct (ArenaTable.tmap (groups ei) !! cls gname) as [g|] eqn:Ex.
  - exists g, b, st1. split_and!; [done| |done]. split_and!; try done.
    intros i' cx cg. change (acl st2 i' cx cg = if decide ((i', cx, cg) = (i, cls x, cls gname))
      then Some (default [] (acl st i (cls x) (cls gname))) else acl st i' cx cg).
    rewrite A2. case_decide as D; [|done]. injection D as -> -> ->.
    destruct (acl st i (cls x) (cls gname)) eqn:Ea; [done|]. rewrite <-A2 in Ea.
    apply acl_grp_at in Ea; [|done]. congruence.
  - eexists _, b, _. split; [done|]. fold m1.
    assert (acl st i (cls x) (cls gname) = None) as Ea by (rewrite <-A2; by apply acl_grp_at).
    split; [split_and!; [exact (new_group_ok st2 e ei gname H1 Ei)|done|done|]|].
    + intros i' cx cg. rewrite Ea, <-A2. exact (new_group_acl st2 i m1 (cls x) e ei gname H1 Em2 X1 Ei Ex i' cx cg).
    + etrans; [exact (new_group_same st2 i m1 (cls x) e ei gname H1 Em2 X1 Ei Ex i (cls x) (cls gname))|].
      by rewrite decide_True.
Qed.

(** ** Administration *)

(** The tokens of a group list, at most [n]. *)
Fixpoint tokens (n : nat) (s : string) : list string :=
  match n with
  | O => []
  | S n => match strtok_r delimiters s with None => [] | Some (t, r) => t :: tokens n r end
  end.
Definition account_groups (grouplst : string) : list (option string) :=
  let l := tokens MAX_GROUPS grouplst in (Some <$> l) ++ replicate (MAX_GROUPS - length l) None.

Lemma tokens_length n s : (length (tokens n s) ≤ n)%nat.
Proof.
  revert s. induction n as [|n IH]; intros s; cbn; [lia|].
  destruct (strtok_r delimiters s) as [[t r]|]; cbn; [|lia]. specialize (IH r). lia.
Qed.

Lemma fill_groups_ok n i s pre :
  length pre = i →
  fill_groups n i s (pre ++ replicate n None) =
  pre ++ (Some <$> tokens n s) ++ replicate (n - length (tokens n s)) None.
Proof.
  revert i s pre. induction n as [|n IH]; intros i s pre Hl; cbn [fill_groups tokens]; [done|].
  destruct (strtok_r delimiters s) as [[t r]|]; cbn [replicate].
  - rewrite insert_app_r_alt by lia. rewrite Hl, Nat.sub_diag. cbn [insert list_insert].
    replace (pre ++ Some t :: replicate n None) with ((pre ++ [Some t]) ++ replicate n None)
      by by rewrite <-app_assoc.
    rewrite IH by (rewrite length_app; cbn; lia). by rewrite <-app_assoc.
  - rewrite insert_app_r_alt by lia. rewrite Hl, Nat.sub_diag. done.
Qed.

Lemma add_account_ok st i m grouplst user p :
  sec_ok st → mods st !! i = Some m →
  ∃ st', BuiltInLoginModule_add_account i grouplst user p st = Some st' ∧ sec_ok st' ∧
    (∀ i' c, account st' i' c =
       if decide ((i', c) = (i, cls user)) then Some (mkUser user p (account_groups grouplst)) else account st i' c) ∧
    (∀ i' cx cg, acl st' i' cx cg = acl st i' cx cg).
Proof.
  intros H Em. unfold BuiltInLoginModule_add_account. rewrite Em. cbn [mbind option_bind].
  pose proof (fill_groups_ok MAX_GROUPS 0 grouplst [] eq_refl) as Ef. rewrite !app_nil_l in Ef. rewrite Ef.
  change ((Some <$> tokens MAX_GROUPS grouplst) ++ _) with (account_groups grouplst).
  set (ui := mkUser user p (account_groups grouplst)).
  destruct (so_mods st H i m Em) as (Hi & Wu & We). destruct (ArenaTable.put_spec (users m) user ui Wu) as (Wp & Mp & _).
  eexists. split; [done|]. cbn in Mp.
  assert (∀ i' m', <[i := mkBuiltIn (ArenaTable.ArenaTable_put (users m) user ui).1 (basemod m)]> (mods st) !! i' = Some m' →
    ∃ m0, mods st !! i' = Some m0 ∧ basemod m' = basemod m0) as Hm.
  { intros i' m' [[<- <-]|[_ E]]%lookup_insert_Some; eauto. }
  split_and!.
  - split; cbn; try apply H.
    + intros i' m' [[<- <-]|[_ E]]%lookup_insert_Some; [done|]. by apply (so_mods st H i' m').
    + intros i' m' cx e E. destruct (Hm i' m' E) as (m0 & E0 & ->). by apply (so_ext_live st H i' m0).
    + intros i1 m1 c1 i2 m2 c2 e E1 E2. destruct (Hm i1 m1 E1) as (n1 & F1 & ->).
      destruct (Hm i2 m2 E2) as (n2 & F2 & ->). by apply (so_ext_own st H i1 n1 c1 i2 n2 c2 e).
  - intros i' c. unfold account. cbn. destruct (decide (i' = i)) as [->|Hne].
    + rewrite lookup_insert_eq, Em. cbn. rewrite Mp. destruct (decide (c = cls user)) as [->|Hc].
      * by rewrite lookup_insert_eq, decide_True.
      * rewrite lookup_insert_ne by done. by rewrite decide_False by congruence.
    + rewrite lookup_insert_ne by done. by rewrite decide_False by congruence.
  - intros i' cx cg. unfold acl, grp_at. cbn. destruct (decide (i' = i)) as [->|Hne].
    + by rewrite lookup_insert_eq, Em.
    + by rewrite lookup_insert_ne by done.
Qed.

Lemma new_module_ok st :
  sec_ok st →
  ∃ i st', BuiltInLoginModule_new st = Some (i, st') ∧ sec_ok st' ∧ mods st !! i = None ∧ is_Some (mods st' !! i) ∧
    (∀ i' c, account st' i' c = account st i' c) ∧ (∀ i' cx cg, acl st' i' cx cg = acl st i' cx cg).
Proof.
  intros H. unfold BuiltInLoginModule_new, BaseLoginModule_new.
  destruct (table_new (V := userinfo) 10000 ltac:(lia)) as (tu & Eu & Wu & Mu). rewrite Eu. cbn [mbind option_bind].
  destruct (table_new (V := Z) 100 ltac:(lia)) as (tx & Ex & Wx & Mx). rewrite Ex. cbn [mbind option_bind].
  eexists _, _. split; [done|]. cbn.
  assert (mods st !! s_next st = None) as Hn.
  { destruct (mods st !! s_next st) as [m|] eqn:E; [|done]. pose proof (proj1 (so_mods st H _ m E)). lia. }
  pose proof (so_next st H). split_and!; [|done|rewrite lookup_insert_eq; eauto| |].
  - split; cbn; try apply H; try lia.
    + intros g gi E. pose proof (so_grps st H g gi E). lia.
    + intros e ei E. destruct (so_exts st H e ei E). split; [lia|done].
    + intros i m [[<- <-]|[_ E]]%lookup_insert_Some; [split_and!; done || lia|].
      destruct (so_mods st H i m E) as (? & ? & ?). split_and!; done || lia.
    + intros i m cx e [[<- <-]|[_ E]]%lookup_insert_Some; [cbn; by rewrite Mx|by apply (so_ext_live st H i m)].
    + intros i1 m1 c1 i2 m2 c2 e [[<- <-]|[_ E1]]%lookup_insert_Some; [cbn; by rewrite Mx|].
      intros [[<- <-]|[_ E2]]%lookup_insert_Some; [cbn; by rewrite Mx|].
      by apply (so_ext_own st H i1 m1 c1 i2 m2 c2 e).
  - intros i' c. unfold account. cbn. destruct (decide (i' = s_next st)) as [->|].
    + rewrite lookup_insert_eq, Hn. cbn. by rewrite Mu.
    + by rewrite lookup_insert_ne by done.
  - intros i' cx cg. unfold acl, grp_at. cbn. destruct (decide (i' = s_next st)) as [->|].
    + rewrite lookup_insert_eq, Hn. cbn. by rewrite Mx.
    + by rewrite lookup_insert_ne by done.
Qed.

(** Another template at the end of a group's list. *)
Lemma templates_ok st i cx cg g gi l :
  sec_ok st → grp_at st i cx cg = Some g → grps st !! g = Some gi →
  let st' := upd_grps <[g := mkGrp (grp_name gi) l]> st in
  sec_ok st' ∧ ∀ i' cx' cg', acl st' i' cx' cg' =
    if decide ((i', cx', cg') = (i, cx, cg)) then Some l else acl st i' cx' cg'.
Proof.
  intros H Eg Egi st'. split.
  - split; cbn; try apply H.
    + intros g' gi' [[<- <-]|[_ E]]%lookup_insert_Some; [by apply (so_grps st H g gi)|by apply (so_grps st H g' gi')].
    + intros e ei c g' E X. destruct (decide (g' = g)) as [->|]; [rewrite lookup_insert_eq; eauto|].
      rewrite lookup_insert_ne by done. by apply (so_grp_live st H e ei c).
  - intros i' cx' cg'. unfold acl. change (grp_at st' i' cx' cg') with (grp_at st i' cx' cg'). case_decide as D.
    + injection D as -> -> ->. rewrite Eg. cbn. by rewrite lookup_insert_eq.
    + destruct (grp_at st i' cx' cg') as [g'|] eqn:E; [|done]. cbn. rewrite lookup_insert_ne; [done|].
      intros ->. destruct (grp_at_own st i' cx' cg' i cx cg g' H E Eg) as (-> & -> & ->). done.
Qed.

Lemma add_privilege_ok st i m x g t :
  sec_ok st → mods st !! i = Some m →
  ∃ st', BuiltInLoginModule_add_privilege i x g t st = Some st' ∧ sec_ok st' ∧
    (∀ i' cx cg, acl st' i' cx cg =
       if decide ((i', cx, cg) = (i, cls x, cls g))
       then Some (default [] (acl st i (cls x) (cls g)) ++ [t]) else acl st i' cx cg) ∧
    (∀ i' c, account st' i' c = account st i' c).
Proof.
  intros H Em. destruct (get_group_true st i m x g H Em) as (gp & b & st1 & E & (H1 & M1 & U1 & A1) & G1).
  set (st2 := with_mod i (mkBuiltIn (users m) b) st1) in *.
  unfold BuiltInLoginModule_add_privilege, BaseLoginModule_add_privilege. rewrite Em. cbn [mbind option_bind].
  rewrite E. cbn [mbind option_bind]. destruct (grp_at_live st2 _ _ _ gp H1 G1) as (gi & Egi & _).
  change (grps st1 !! gp = Some gi) in Egi. rewrite Egi. cbn [mbind option_bind]. rewrite append_app.
  set (l := templates gi ++ _). eexists. split; [done|].
  destruct (templates_ok st2 i (cls x) (cls g) gp gi l H1 G1 Egi) as [H3 A3].
  assert (acl st2 i (cls x) (cls g) = Some (templates gi)) as Ea.
  { unfold acl. rewrite G1. cbn. by rewrite Egi. }
  rewrite A1, decide_True in Ea by done. split_and!; [exact H3| |].
  - intros i' cx cg. etrans; [exact (A3 i' cx cg)|]. rewrite A1. case_decide; [|done]. by injection Ea as ->.
  - intros i' c. unfold account. cbn. rewrite M1. destruct (decide (i' = i)) as [->|].
    + by rewrite lookup_insert_eq, Em.
    + by rewrite lookup_insert_ne by done.
Qed.

(** ** Logging in *)

Lemma strncmp_prefix x y : 0 ∉ x → strncmp (length x) x y = 0 ↔ x `prefix_of` y.
Proof.
  revert y. induction x as [|a x IH]; intros y Hx; cbn [length strncmp].
  - split; [intros _; apply prefix_nil|done].
  - apply not_elem_of_cons in Hx as [Ha Hx]. cbn [head tail default id]. destruct y as [|b y]; cbn [head tail default id].
    + destruct (Z.eqb_spec a 0) as [->|]; [done|]. split; [intros; lia|]. by intros ?%prefix_nil_not.
    + destruct (Z.eqb_spec a b) as [->|Hne].
      * destruct (Z.eqb_spec b 0) as [->|_]; [done|]. rewrite IH by done. split; [apply prefix_cons|apply prefix_cons_inv_2].
      * split; [intros; lia|]. intros ?%prefix_cons_inv_1. done.
Qed.

(** The names an account's groups array holds before its first NULL. *)
Fixpoint names (l : list (option string)) : list string :=
  match l with
  | Some g :: l => g :: names l
  | _ => []
  end.

Definition auth_status (s : Subject) : Z := OEC_FLAG_SET (status s) SUBJECT_AUTHENTICATED.

(** The account that lets [s] in through module [i]. *)
Definition accepted (st : sec) (i : Z) (s : Subject) : option userinfo :=
  u ← username s;
  ui ← account st i (cls u);
  p ← pwd s;
  if negb (Subject_is_authenticated s) && bool_decide (bytes_of (u_pwd ui) `prefix_of` bytes_of p)
  then Some ui else None.
Definition granted (st : sec) (i : Z) (x : string) (ui : userinfo) : list Privilege :=
  Privilege_new _allow <$> omap (λ g, grp_at st i (cls x) (cls g)) (names (take MAX_GROUPS (grpname ui))).
Definition let_in (st : sec) (i : Z) (x : string) (ui : userinfo) (s : Subject) : Subject :=
  mkSubject (username s) (extentname s) (pwd s) (privileges s ++ granted st i x ui) (news s) (auth_status s).

Definition clean_passwords (st : sec) : Prop := ∀ i c ui, account st i c = Some ui → no_nul (u_pwd ui).

Lemma auth_set s : Subject_is_authenticated (Subject_status_set s SUBJECT_AUTHENTICATED) = true.
Proof.
  unfold Subject_is_authenticated, Subject_status_set. cbn [status].
  change SUBJECT_AUTHENTICATED with (bit 0). by rewrite isset_set.
Qed.

Lemma assign_loop_ok st i m x l s :
  sec_ok st → mods st !! i = Some m → Subject_is_authenticated s = true →
  assign_loop st (basemod m) x l s =
  Some (mkSubject (username s) (extentname s) (pwd s)
          (privileges s ++ (Privilege_new _allow <$> omap (λ g, grp_at st i (cls x) (cls g)) (names l)))
          (news s) (status s)).
Proof.
  intros H Em. revert s. induction l as [|[g|] l IH]; intros s Ha; cbn [assign_loop names omap list_omap fmap list_fmap].
  - rewrite app_nil_r. by destruct s.
  - rewrite (find_group st i m) by done. cbn [mbind option_bind].
    destruct (grp_at st i (cls x) (cls g)) as [gp|]; cbn [mbind option_bind].
    + rewrite Ha. rewrite IH by done. unfold Subject_add_privilege. cbn [username extentname pwd privileges news status Oec_AList_list]. by rewrite (append_app (privileges s)), <-app_assoc.
    + by rewrite IH.
  - rewrite app_nil_r. by destruct s.
Qed.

Lemma login_ok st i m s x :
  sec_ok st → clean_passwords st → mods st !! i = Some m → extentname s = Some x →
  _login st i s = Some (match accepted st i s with Some ui => let_in st i x ui s | None => s end).
Proof.
  intros H Hc Em Hx. unfold _login, accepted. rewrite Em. cbn [mbind option_bind].
  destruct (username s) as [u|] eqn:Eu; [|done]. cbn [mbind option_bind].
  assert (ArenaTable.ArenaTable_get (users m) u = account st i (cls u)) as ->.
  { unfold account. rewrite Em. cbn [mbind option_bind]. rewrite ArenaTable.table_get_spec; [done|].
    apply (so_mods st H i m Em). }
  destruct (account st i (cls u)) as [ui|] eqn:Ea; [|done]. cbn [mbind option_bind].
  destruct (pwd s) as [p|] eqn:Ep; cbn [mbind option_bind].
  2: by destruct (Subject_is_authenticated s).
  destruct (Subject_is_authenticated s) eqn:Eau; [done|]. cbn [negb andb].
  pose proof (strncmp_prefix (bytes_of (u_pwd ui)) (bytes_of p) (Hc i _ ui Ea)) as Hp.
  rewrite bytes_of_length in Hp.
  destruct (Z.eqb_spec (strncmp (String.length (u_pwd ui)) (bytes_of (u_pwd ui)) (bytes_of p)) 0) as [E|E]; cbn [negb].
  - rewrite bool_decide_true by by apply Hp. unfold BaseLoginModule_assign_privs. cbn [username extentname Subject_status_set].
    rewrite Eu, Hx. cbn [mbind option_bind]. rewrite auth_set. cbn [negb].
    rewrite (assign_loop_ok st i m) by (done || apply auth_set). done.
  - rewrite bool_decide_false by tauto. done.
Qed.

(** *** Several modules *)

Definition built_in (st : sec) (m : LoginModule) : Prop := login_func m = _login ∧ is_Some (mods st !! m_impl m).

Fixpoint first_accepting (st : sec) (l : list LoginModule) (s : Subject) : option (Z * userinfo) :=
  match l with
  | [] => None
  | m :: l => match accepted st (m_impl m) s with Some ui => Some (m_impl m, ui) | None => first_accepting st l s end
  end.

Lemma let_in_auth st i x ui s : Subject_is_authenticated (let_in st i x ui s) = true.
Proof. apply (auth_set s). Qed.

Lemma none_left st l s : Subject_is_authenticated s = true → first_accepting st l s = None.
Proof.
  intros Ha. induction l as [|m l IH]; [done|]. cbn [first_accepting].
  assert (accepted st (m_impl m) s = None) as ->; [|done]. unfold accepted. rewrite Ha.
  destruct (username s) as [u|]; [|done]. cbn. destruct (account st (m_impl m) (cls u)); [|done]. cbn. by destruct (pwd s).
Qed.

Lemma login_loop_ok st l s x :
  sec_ok st → clean_passwords st → Forall (built_in st) l → extentname s = Some x →
  login_loop st l s = Some (match first_accepting st l s with Some (i, ui) => let_in st i x ui s | None => s end).
Proof.
  intros H Hc Hl. revert s. induction Hl as [|m l [Hf [bm Em]] Hl IH]; intros s Hx; cbn [login_loop first_accepting]; [done|].
  pose proof (proj1 (so_mods st H _ bm Em)) as Hi. unfold LoginModule_login.
  destruct (Z.eqb_spec (m_impl m) 0) as [|_]; [lia|]. cbn [negb c_assert mbind option_bind]. rewrite Hf.
  rewrite (login_ok st _ bm s x) by done. cbn [mbind option_bind].
  destruct (accepted st (m_impl m) s) as [ui|]; [|by apply IH].
  rewrite IH by done. set (s' := let_in st (m_impl m) x ui s).
  assert (first_accepting st l s' = None) as ->; [|done].
  apply none_left, let_in_auth.
Qed.

(** ** Authorising *)

Definition list_allows (msg : OekMsg) (l : list OekMsg) : bool := existsb (OekMsgTemplateMatcher_match msg) l.
(** No list at all allows everything. *)
Definition lists_allow (msg : OekMsg) (ls : list (list OekMsg)) : bool :=
  match ls with [] => true | _ => existsb (list_allows msg) ls end.

Lemma allow_loop_ok msg l : allow_loop msg l = if list_allows msg l then ALLOW else DONTCARE.
Proof. induction l as [|t l IH]; cbn; [done|]. by destruct (OekMsgTemplateMatcher_match msg t). Qed.

Lemma authorize_loop_ok st msg ps a :
  Forall (λ p, ∃ g gi, p = Privilege_new _allow g ∧ 0 < g ∧ grps st !! g = Some gi) ps →
  authorize_loop st ps msg a =
  Some (match ps with
        | [] => a
        | _ => if existsb (λ p, match grps st !! p_impl p with Some gi => list_allows msg (templates gi) | None => false end) ps
               then ALLOW else DONTCARE
        end).
Proof.
  intros Hp. revert a. induction Hp as [|p ps (g & gi & -> & Hg & Eg) Hp IH]; intros a; cbn [authorize_loop]; [done|].
  unfold Privilege_allow. cbn [p_impl allow_func Privilege_new]. unfold _allow.
  destruct (Z.eqb_spec g 0) as [|_]; [lia|]. cbn [negb c_assert mbind option_bind].
  rewrite Eg. cbn [mbind option_bind]. rewrite allow_loop_ok. cbn [existsb p_impl Privilege_new]. rewrite Eg.
  destruct (list_allows msg (templates gi)); cbn; [done|]. rewrite IH. by destruct ps.
Qed.

(** The access lists an account has on an extent. *)
Definition account_lists (st : sec) (i : Z) (x : string) (ui : userinfo) : list (list OekMsg) :=
  omap (λ g, acl st i (cls x) (cls g)) (names (take MAX_GROUPS (grpname ui))).

Lemma granted_lists st i x ui msg :
  sec_ok st →
  Forall (λ p, ∃ g gi, p = Privilege_new _allow g ∧ 0 < g ∧ grps st !! g = Some gi) (granted st i x ui) ∧
  existsb (λ p, match grps st !! p_impl p with Some gi => list_allows msg (templates gi) | None => false end)
    (granted st i x ui) = existsb (list_allows msg) (account_lists st i x ui) ∧
  (granted st i x ui = [] ↔ account_lists st i x ui = []).
Proof.
  intros H. unfold granted, account_lists. induction (names _) as [|g l (IH1 & IH2 & IH3)]; [done|].
  cbn [omap list_omap]. unfold acl. destruct (grp_at st i (cls x) (cls g)) as [gp|] eqn:E; cbn [mbind option_bind]; [|done].
  destruct (grp_at_live st i _ _ gp H E) as (gi & Eg & Hg). rewrite Eg. cbn [mbind option_bind fmap list_fmap existsb p_impl Privilege_new].
  rewrite Eg. split_and!; [constructor; eauto|by rewrite IH2|done].
Qed.

(** What logging in leaves a new subject with: privileges that can be asked. *)
Definition privs_ok (st : sec) (s : Subject) : Prop :=
  Forall (λ p, ∃ g gi, p = Privilege_new _allow g ∧ 0 < g ∧ grps st !! g = Some gi) (privileges s).

Lemma login_total st c s x :
  sec_ok st → clean_passwords st → Forall (built_in st) (modules c) → extentname s = Some x → privileges s = [] →
  ∃ s', SecurityContext_login st c s = Some s' ∧ extentname s' = Some x ∧ privs_ok st s'.
Proof.
  intros H Hc Hm Hx Hp. unfold SecurityContext_login. rewrite (login_loop_ok st _ s x) by done.
  eexists. split; [done|]. unfold privs_ok. destruct (first_accepting st (modules c) s) as [[i ui]|].
  - split; [done|]. cbn [let_in privileges]. rewrite Hp, app_nil_l. apply (granted_lists st i x ui (mkOekMsg OEK_NON 0 0 true D_none) H).
  - split; [done|]. rewrite Hp. constructor.
Qed.

Lemma authorize_total st c s msg : privs_ok st s → is_Some (SecurityContext_authorize st c s msg).
Proof. intros H. unfold SecurityContext_authorize. rewrite authorize_loop_ok by done. by eexists. Qed.

(** ** Theorems *)

Definition subject_for (u p x : string) : Subject :=
  Subject_set_extentname (Subject_set_pwd (Subject_set_username Subject_new (Some u)) (Some p)) (Some x).

Lemma accepting_iff st l u p x :
  is_Some (first_accepting st l (subject_for u p x)) ↔
  ∃ m ui, m ∈ l ∧ account st (m_impl m) (cls u) = Some ui ∧ bytes_of (u_pwd ui) `prefix_of` bytes_of p.
Proof.
  induction l as [|m l IH]; cbn [first_accepting].
  - split; [by intros [? ?]|]. intros (m & ui & Hm & _). by apply elem_of_nil in Hm.
  - unfold accepted. cbn [subject_for username pwd Subject_set_extentname Subject_set_pwd Subject_set_username mbind option_bind].
    change (Subject_is_authenticated (subject_for u p x)) with false. cbn [negb andb].
    assert (is_Some (first_accepting st l (subject_for u p x)) →
      ∃ m' ui, m' ∈ m :: l ∧ account st (m_impl m') (cls u) = Some ui ∧ bytes_of (u_pwd ui) `prefix_of` bytes_of p) as Hl.
    { intros (m' & ui & Hm & X)%IH. exists m', ui. split; [by right|done]. }
    destruct (account st (m_impl m) (cls u)) as [ui|] eqn:E; cbn [mbind option_bind]; [case_bool_decide as B|].
    + split; [|eauto]. intros _. exists m, ui. split_and!; [left|done|done].
    + split; [done|]. intros (m' & ui' & Hm & E' & Hp). apply IH. apply elem_of_cons in Hm as [->|Hm]; [congruence|eauto].
    + split; [done|]. intros (m' & ui' & Hm & E' & Hp). apply IH. apply elem_of_cons in Hm as [->|Hm]; [congruence|eauto].
Qed.

(** C34  Access control.  With any list of built-in login modules, logging in
    returns, and the subject is authenticated exactly when one of them has an
    account in the hash class of the name, whose password is a prefix of the
    given one: tables compare the hashes of names only.  The first such account
    alone then decides, and later modules add nothing: a command is allowed
    when the account has no access list on the extent, or one of its groups'
    lists has a template that matches, and is denied otherwise.  (The comments
    of [SecurityContext.h] and [SecurityContext.c] say otherwise on both: that
    no opinion means denied, and that later modules add privileges.) *)
Theorem access_control st c u p x msg :
  sec_ok st → clean_passwords st → Forall (built_in st) (modules c) →
  ∃ s, SecurityContext_login st c (subject_for u p x) = Some s ∧
    (Subject_is_authenticated s = true ↔
     ∃ m ui, m ∈ modules c ∧ account st (m_impl m) (cls u) = Some ui ∧ bytes_of (u_pwd ui) `prefix_of` bytes_of p) ∧
    ∀ i ui, first_accepting st (modules c) (subject_for u p x) = Some (i, ui) →
      SecurityContext_authorize st c s msg =
      Some (if lists_allow msg (account_lists st i x ui) then ALLOW else DENY).
Proof.
  intros H Hc Hm. unfold SecurityContext_login. rewrite (login_loop_ok st (modules c) (subject_for u p x) x H Hc Hm eq_refl).
  eexists. split; [done|]. rewrite <-(accepting_iff st (modules c) u p x).
  destruct (first_accepting st (modules c) (subject_for u p x)) as [[i ui]|].
  - split; [rewrite let_in_auth; naive_solver|]. intros i' ui' [= <- <-].
    destruct (granted_lists st i x ui msg H) as (G1 & G2 & G3).
    unfold SecurityContext_authorize. cbn [privileges let_in subject_for Subject_set_extentname]. rewrite app_nil_l.
    rewrite authorize_loop_ok by done. cbn [mbind option_bind]. rewrite G2. unfold lists_allow.
    destruct (granted st i x ui) as [|q qs], (account_lists st i x ui) as [|l ls]; [done|by destruct G3 as [G3 _]; specialize (G3 eq_refl)|by destruct G3 as [_ G3]; specialize (G3 eq_refl)|].
    by destruct (existsb (list_allows msg) (l :: ls)).
  - split; [|done]. split; [done|by intros [? ?]].
Qed.

(** Administration.  A new module has no accounts and no lists.  Adding
    an account or a template to a live module returns, keeps the store consistent, and changes exactly one entry: the
    account of that module and name, with the first ten tokens of the group
    list as its groups, or the list of that module, extent and group, with the
    template at its end.  Other modules, accounts and lists stay as they were,
    and privileges already handed out see the new template. *)
Theorem admin_spec st i grouplst user p x g t :
  sec_ok st → is_Some (mods st !! i) →
  (∃ st', BuiltInLoginModule_add_account i grouplst user p st = Some st' ∧ sec_ok st' ∧
     (∀ i' c, account st' i' c =
        if decide ((i', c) = (i, cls user)) then Some (mkUser user p (account_groups grouplst)) else account st i' c) ∧
     (∀ i' cx cg, acl st' i' cx cg = acl st i' cx cg)) ∧
  (∃ st', BuiltInLoginModule_add_privilege i x g t st = Some st' ∧ sec_ok st' ∧
     (∀ i' cx cg, acl st' i' cx cg =
        if decide ((i', cx, cg) = (i, cls x, cls g))
        then Some (default [] (acl st i (cls x) (cls g)) ++ [t]) else acl st i' cx cg) ∧
     (∀ i' c, account st' i' c = account st i' c)) ∧
  (∃ i' st', BuiltInLoginModule_new st = Some (i', st') ∧ sec_ok st' ∧ mods st !! i' = None ∧
     (∀ i' c, account st' i' c = account st i' c) ∧ (∀ i' cx cg, acl st' i' cx cg = acl st i' cx cg)).
Proof.
  intros H [m Em]. split_and!; [by apply (add_account_ok st i m)|by apply (add_privilege_ok st i m)|].
  destruct (new_module_ok st H) as (i' & st' & E & H' & Hn & _ & A & L). exists i', st'. by split_and!.
Qed.

(** ** A configuration *)

Definition cmd (t : OEK_MSG_TYPE) : OekMsg := default (mkOekMsg OEK_NON 0 0 true D_none) (OekMsg_new t).

Definition empty_sec : sec := mkSec ∅ ∅ ∅ 1.

Lemma empty_sec_ok : sec_ok empty_sec.
Proof. by split; cbn; intros; rewrite ?lookup_empty in *. Qed.

(** Alice may read, through one of her groups; bob's group has no list. *)
Definition demo_sec : sec := default empty_sec (
  '(m, st) ← BuiltInLoginModule_new empty_sec;
  st ← BuiltInLoginModule_add_account m "readers, ops" "alice" "secret" st;
  st ← BuiltInLoginModule_add_account m "guests" "bob" "pw" st;
  BuiltInLoginModule_add_privilege m "extent" "readers" (cmd GET_CMD) st).

Lemma demo_sec_ok : sec_ok demo_sec ∧ clean_passwords demo_sec ∧
  account demo_sec 1 (cls "alice") = Some (mkUser "alice" "secret" (account_groups "readers, ops")) ∧
  account demo_sec 1 (cls "bob") = Some (mkUser "bob" "pw" (account_groups "guests")).
Proof.
  destruct (new_module_ok empty_sec empty_sec_ok) as (i & st1 & E1 & H1 & _ & [m1 M1] & A1 & _).
  assert (i = 1) as -> by (by injection E1).
  destruct (add_account_ok st1 1 m1 "readers, ops" "alice" "secret" H1 M1) as (st2 & E2 & H2 & A2 & _).
  assert (is_Some (mods st2 !! 1)) as [m2 M2].
  { unfold BuiltInLoginModule_add_account in E2. rewrite M1 in E2. injection E2 as <-. cbn. rewrite lookup_insert_eq. eauto. }
  destruct (add_account_ok st2 1 m2 "guests" "bob" "pw" H2 M2) as (st3 & E3 & H3 & A3 & _).
  assert (is_Some (mods st3 !! 1)) as [m3 M3].
  { unfold BuiltInLoginModule_add_account in E3. rewrite M2 in E3. injection E3 as <-. cbn. rewrite lookup_insert_eq. eauto. }
  destruct (add_privilege_ok st3 1 m3 "extent" "readers" (cmd GET_CMD) H3 M3) as (st4 & E4 & H4 & _ & A4).
  assert (demo_sec = st4) as ->.
  { unfold demo_sec. rewrite E1. cbn [mbind option_bind]. rewrite E2. cbn [mbind option_bind].
    rewrite E3. cbn [mbind option_bind]. by rewrite E4. }
  split_and!; [done| |by rewrite A4, A3, A2|by rewrite A4, A3].
  intros i c ui. rewrite A4, A3. case_decide; [intros [= <-]; vm_compute; set_solver|].
  rewrite A2. case_decide; [intros [= <-]; vm_compute; set_solver|]. rewrite A1. unfold account. cbn.
  by rewrite lookup_empty.
Qed.

Definition demo_ctx : SecurityContext := SecurityContext_add_module SecurityContext_new (mkLogin 1 _login).

Lemma demo_built_in : Forall (built_in demo_sec) (modules demo_ctx).
Proof. repeat constructor. vm_compute. by eexists. Qed.

(** Alice is let in with more than her password, may read, and nothing else. *)
Lemma access_control_witness :
  (∃ s, SecurityContext_login demo_sec demo_ctx (subject_for "alice" "secretive" "extent") = Some s ∧
     SecurityContext_authorize demo_sec demo_ctx s (cmd GET_CMD) = Some ALLOW) ∧
  (∃ s, SecurityContext_login demo_sec demo_ctx (subject_for "alice" "secret" "extent") = Some s ∧
     SecurityContext_authorize demo_sec demo_ctx s (cmd PUT_CMD) = Some DENY) ∧
  (∃ s, SecurityContext_login demo_sec demo_ctx (subject_for "bob" "pw" "extent") = Some s ∧
     SecurityContext_authorize demo_sec demo_ctx s (cmd PUT_CMD) = Some ALLOW).
Proof.
  destruct demo_sec_ok as (H & Hc & Ha & Hb). split_and!.
  - destruct (access_control demo_sec demo_ctx "alice" "secretive" "extent" (cmd GET_CMD) H Hc demo_built_in)
      as (s & E & _ & A). exists s. split; [exact E|]. rewrite (A 1 (mkUser "alice" "secret" (account_groups "readers, ops"))).
    + vm_compute. reflexivity.
    + vm_compute. reflexivity.
  - destruct (access_control demo_sec demo_ctx "alice" "secret" "extent" (cmd PUT_CMD) H Hc demo_built_in)
      as (s & E & _ & A). exists s. split; [exact E|]. rewrite (A 1 (mkUser "alice" "secret" (account_groups "readers, ops"))).
    + vm_compute. reflexivity.
    + vm_compute. reflexivity.
  - destruct (access_control demo_sec demo_ctx "bob" "pw" "extent" (cmd PUT_CMD) H Hc demo_built_in)
      as (s & E & _ & A). exists s. split; [exact E|]. rewrite (A 1 (mkUser "bob" "pw" (account_groups "guests"))).
    + vm_compute. reflexivity.
    + vm_compute. reflexivity.
Defined.

Lemma admin_spec_witness : ∃ st', BuiltInLoginModule_add_privilege 1 "extent" "readers" (cmd PUT_CMD) demo_sec = Some st' ∧
  acl st' 1 (cls "extent") (cls "readers") = Some [cmd GET_CMD; cmd PUT_CMD].
Proof.
  destruct (admin_spec demo_sec 1 "" "carol" "x" "extent" "readers" (cmd PUT_CMD) (proj1 demo_sec_ok))
    as (_ & (st' & E & _ & A & _) & _).
  - vm_compute. by eexists.
  - exists st'. split; [exact E|]. rewrite A. vm_compute. reflexivity.
Defined.
