(* ===== verification/Server.v ===== *)
(** * Server: sessions and the protocol server

    Models [src/corelib/OeSession.c], [src/corelib/OepServer.c] and the life
    of a connection in [src/corelib/OeLibevent2Factory.c].  One session is
    followed from its creation to its freeing, with the answers its client is
    sent and the commands its kernel is handed.

    All callbacks of a session run on the one thread of the event base: bytes
    arriving, errors, the drained write buffer, the connect timer, and the
    answers of the kernel, which [_write_to_client] sends through the
    dispatcher to [_write_to_client_cb].  A run is a sequence of such events.
    Reading a message is the work of the configured [read_fun]: an event of
    arriving bytes carries, for each call, the clock, its result and its
    message; a next entry stands for bytes still available.  The session, its
    set of transactions and its partial read are heap objects: using one that
    was freed is [None]. *)

From S2P Require Import Prelude Values HashTable Collections Messages Kernel Security.
Import Flags AList SKeyTable.

(** ** State *)

(** A pointer that is NULL, points to a live object, or dangles. *)
Inductive cell (A : Type) := Null | Live (a : A) | Freed.
Arguments Null {A}.
Arguments Live {A} a.
Arguments Freed {A}.

Abbreviation id_set := (HSet.Set_T (A := ID_ITEM)).
Abbreviation tid_set := (HSet.Set_T (A := atom)).

(** The net, arena and connection of a session are its surroundings; its start
    time and [proto_context] are never read. *)
Record OeSession := mkSession {
  sess_id : Z;
  state : Z;
  sess_context : option Z;              (* the kernel, once connected *)
  appl_context : cell (option OekMsg);  (* the message read so far *)
  subject : option Subject;
  rb_on_dis : bool;
  outstanding_task_count : Z;
  pending_txns : cell tid_set;
  conn_timeout : bool;                  (* the connect timer is set *)
  close_cb : bool                       (* closes when all is written *)
}.

Definition OENET_CLIENT_CLOSING : Z := 2.
Definition OENET_CLIENT_CONNECTED : Z := 4.

Definition oesession_new (i : Z) : OeSession := mkSession i 0 None Null None false 0 Null false false.

Definition OeSession_state_is_set (s : OeSession) (flag : Z) : bool := OEC_FLAG_ISSET (state s) flag.
Definition set_state (s : OeSession) (v : Z) : OeSession :=
  mkSession (sess_id s) v (sess_context s) (appl_context s) (subject s) (rb_on_dis s)
    (outstanding_task_count s) (pending_txns s) (conn_timeout s) (close_cb s).
Definition OeSession_state_clear (s : OeSession) (flag : Z) : OeSession := set_state s (OEC_FLAG_CLEAR (state s) flag).
Definition OeSession_state_set (s : OeSession) (flag : Z) : OeSession := set_state s (OEC_FLAG_SET (state s) flag).
Definition OeSession_set_id (s : OeSession) (i : Z) : OeSession :=
  mkSession i (state s) (sess_context s) (appl_context s) (subject s) (rb_on_dis s)
    (outstanding_task_count s) (pending_txns s) (conn_timeout s) (close_cb s).
Definition OeSession_set_appl_context (s : OeSession) (c : cell (option OekMsg)) : OeSession :=
  mkSession (sess_id s) (state s) (sess_context s) c (subject s) (rb_on_dis s)
    (outstanding_task_count s) (pending_txns s) (conn_timeout s) (close_cb s).
Definition OeSession_set_sess_context (s : OeSession) (k : Z) : OeSession :=
  mkSession (sess_id s) (state s) (Some k) (appl_context s) (subject s) (rb_on_dis s)
    (outstanding_task_count s) (pending_txns s) (conn_timeout s) (close_cb s).
Definition OeSession_set_subject (s : OeSession) (j : Subject) : OeSession :=
  mkSession (sess_id s) (state s) (sess_context s) (appl_context s) (Some j) (rb_on_dis s)
    (outstanding_task_count s) (pending_txns s) (conn_timeout s) (close_cb s).
Definition OeSession_set_rb_on_disconnect (s : OeSession) : OeSession :=
  mkSession (sess_id s) (state s) (sess_context s) (appl_context s) (subject s) true
    (outstanding_task_count s) (pending_txns s) (conn_timeout s) (close_cb s).
Definition set_task_count (s : OeSession) (n : Z) : OeSession :=
  mkSession (sess_id s) (state s) (sess_context s) (appl_context s) (subject s) (rb_on_dis s)
    n (pending_txns s) (conn_timeout s) (close_cb s).
Definition OeSession_incr_task_count (s : OeSession) : OeSession :=
  set_task_count s (i32 (outstanding_task_count s + 1)).
Definition OeSession_decr_task_count (s : OeSession) : OeSession :=
  set_task_count s (i32 (outstanding_task_count s - 1)).
Definition set_pending (s : OeSession) (p : cell tid_set) : OeSession :=
  mkSession (sess_id s) (state s) (sess_context s) (appl_context s) (subject s) (rb_on_dis s)
    (outstanding_task_count s) p (conn_timeout s) (close_cb s).
Definition set_timeout (s : OeSession) (b : bool) : OeSession :=
  mkSession (sess_id s) (state s) (sess_context s) (appl_context s) (subject s) (rb_on_dis s)
    (outstanding_task_count s) (pending_txns s) b (close_cb s).
Definition set_close_cb (s : OeSession) : OeSession :=
  mkSession (sess_id s) (state s) (sess_context s) (appl_context s) (subject s) (rb_on_dis s)
    (outstanding_task_count s) (pending_txns s) (conn_timeout s) true.

(** Transaction ids are put into the set as pointers, which may not be NULL. *)
Definition OeSession_save_tid (s : OeSession) (tid : Z) : option OeSession :=
  set ← match pending_txns s with
        | Null => HSet.Set_new 1
        | Live set => Some set
        | Freed => None
        end;
  c_assert (negb (tid =? 0));;
  Some (set_pending s (Live (HSet.Set_put set (Atom tid)))).
Definition OeSession_clear_tid (s : OeSession) (tid : Z) : option (Z * OeSession) :=
  match pending_txns s with
  | Null => Some (0, s)
  | Live set =>
    c_assert (negb (tid =? 0));;
    let '(set, old) := HSet.Set_remove set (Atom tid) in
    Some (match old with Some a => ptr a | None => 0 end, set_pending s (Live set))
  | Freed => None
  end.

(** A server is the same for all its sessions.  [version] is the build's. *)
Record OepServer := mkServer {
  kernels : string_table Z;
  security_context : option SecurityContext
}.
Definition OepServer_new : option OepServer := t ← SKeyTable_new 100; Some (mkServer t None).
Definition OepServer_add_kernel (v : OepServer) (extentname : string) (kernel : Z) : option OepServer :=
  c_assert (negb (kernel =? 0));;
  Some (mkServer (ArenaTable.ArenaTable_put (kernels v) extentname kernel).1 (security_context v)).
Definition OepServer_add_login_module (v : OepServer) (m : LoginModule) : OepServer :=
  let c := match security_context v with Some c => c | None => SecurityContext_new end in
  mkServer (kernels v) (Some (SecurityContext_add_module c m)).
Definition _get_kernel (v : OepServer) (extentname : string) : option Z :=
  ArenaTable.ArenaTable_get (kernels v) extentname.

(** A command handed to a kernel, with the subject on whose behalf. *)
Record handed := mkHanded { h_kernel : Z; h_context : OEK_Context; h_subject : option Subject }.

Record world := mkWorld {
  session : option OeSession;     (* [None] when freed *)
  sessions : id_set;              (* the net's set of session ids *)
  sent : list OekMsg;             (* written to the client *)
  commands : list handed;         (* handed to kernels *)
  running : list OEK_Context;     (* those not answered yet *)
  rollbacks : list (Z * Z);       (* kernels and transactions to roll back *)
  answered : list OEK_Context     (* answers that came back *)
}.
Definition upd_session (f : OeSession → OeSession) (w : world) : world :=
  mkWorld (f <$> session w) (sessions w) (sent w) (commands w) (running w) (rollbacks w) (answered w).
Definition write_fun (w : world) (m : OekMsg) : option world :=
  _ ← session w;
  Some (mkWorld (session w) (sessions w) (sent w ++ [m]) (commands w) (running w) (rollbacks w) (answered w)).

(** ** The connection (OeLibevent2Factory.c) *)

(** [_orderly_cleanup_conn], which is what [OeNet_cleanup_conn] calls. *)
Definition _orderly_cleanup_conn (w : world) : option world :=
  _ ← session w;
  Some (upd_session (λ s, set_close_cb (OeSession_state_set s OENET_CLIENT_CLOSING)) w).

Definition _listen_for_bytes (i : Z) (ids : id_set) : world :=
  mkWorld (Some (set_timeout (oesession_new i) true)) (IdSet.Oec_IdSet_put ids i) [] [] [] [] [].

(** ** The server (OepServer.c) *)

Definition OEP_ERR_NOT_CONNECTED : string := "not connected".
Definition OEP_ERR_NOT_LOGGED_IN : string := "not logged in".
Definition OEP_ERR_CAN_NOT_PARSE : string := "can not parse msg".
Definition OEP_SERVER_CONN_TIMEOUT : string := "connection timed out".
Definition OEP_SERVER_ALREADY_CONNECTED : string := "already connected".
Definition OEP_SERVER_ACCESS_DENIED : string := "access denied".

(** An error message and the freeing of the context. *)
Definition _send_err (emsg : string) (cid : Z) (w : world) : option world :=
  errmsg ← OekMsg_new OEK_ERR;
  let errmsg := OekMsg_set_cid errmsg cid in
  err ← OekMsg_get_err errmsg;
  write_fun w (set_data errmsg (D_err (OekErr_set_message (OekErr_set_type err 1) emsg))).

Definition _con_timeout_cb (w : world) : option world :=
  s ← session w;
  let w := upd_session (λ s, set_timeout s false) w in
  if OeSession_state_is_set s OENET_CLIENT_CONNECTED then Some w
  else
    msg ← OekMsg_new OEK_ERR;
    err ← OekMsg_get_err msg;
    w ← write_fun w (set_data msg (D_err (OekErr_set_message err OEP_SERVER_CONN_TIMEOUT)));
    _orderly_cleanup_conn w.

(** The loop over the array of transaction ids, which a NULL ends. *)
Fixpoint rollback_loop (kernel : option Z) (tids : list atom) (out : list (Z * Z)) : option (list (Z * Z)) :=
  match tids with
  | [] => Some out
  | a :: tids =>
    if ptr a =? 0 then Some out
    else k ← kernel; rollback_loop kernel tids (out ++ [(k, ptr a)])
  end.
Definition _rollback_transactions (w : world) : option world :=
  s ← session w;
  if negb (rb_on_dis s) then Some w
  else
    match pending_txns s with
    | Null => Some w
    | Freed => None
    | Live txns =>
      out ← rollback_loop (sess_context s) (HSet.Set_toArray txns) (rollbacks w);
      Some (mkWorld (Some (set_pending s Freed)) (sessions w) (sent w) (commands w) (running w) out (answered w))
    end.

Definition _cleanup (w : world) : option world :=
  s ← session w;
  if outstanding_task_count s =? 0 then _rollback_transactions w else Some w.

Definition _dis_handler (w : world) : option world :=
  _orderly_cleanup_conn (upd_session (λ s, OeSession_state_clear s 0) w).

(** The command's context goes to a kernel. *)
Definition hand_over (kernel : option Z) (c : OEK_Context) (w : world) : option world :=
  s ← session w;
  k ← kernel;
  Some (mkWorld (Some (OeSession_incr_task_count s)) (sessions w) (sent w)
          (commands w ++ [mkHanded k c (subject s)]) (running w ++ [c]) (rollbacks w) (answered w)).

Section Server.
Context (server : OepServer) (st : sec) (version : Z * Z * Z).

Definition _con_handler (msg : OekMsg) (w : world) : option (bool * world) :=
  session ← session w;
  if OeSession_state_is_set session OENET_CLIENT_CONNECTED then
    w ← _send_err OEP_SERVER_ALREADY_CONNECTED (OekMsg_get_cid msg) w; Some (false, w)
  else
    cmd ← OekMsg_get_con_cmd msg;
    match con_extentname cmd with
    | None => w ← _send_err OEP_SERVER_ACCESS_DENIED (OekMsg_get_cid msg) w; Some (false, w)
    | Some extentname =>
      let s := Subject_set_username Subject_new (con_username cmd) in
      let s := Subject_set_pwd s (con_password cmd) in
      let s := Subject_set_extentname s (Some extentname) in
      s ← match security_context server with
          | Some c => SecurityContext_login st c s
          | None => Some s
          end;
      let w := upd_session (λ x, OeSession_set_subject x s) w in
      if match security_context server with Some _ => negb (Subject_is_authenticated s) | None => false end
      then w ← _send_err OEP_SERVER_ACCESS_DENIED (OekMsg_get_cid msg) w; Some (false, w)
      else
        match _get_kernel server extentname with
        | None => w ← _send_err OEP_SERVER_ACCESS_DENIED (OekMsg_get_cid msg) w; Some (false, w)
        | Some kernel =>
          let w := upd_session (λ x, OeSession_state_set (OeSession_set_sess_context x kernel)
                                       OENET_CLIENT_CONNECTED) w in
          let w := if ConCmd_rollback_on_disconnect cmd then upd_session OeSession_set_rb_on_disconnect w else w in
          resmsg ← OekMsg_new CON_RES;
          let resmsg := OekMsg_set_cid resmsg (OekMsg_get_cid msg) in
          res ← OekMsg_get_con_res resmsg;
          let res := ConRes_set_sid (ConRes_set_extentname res extentname) (sess_id session) in
          let '(maj, min, upt) := version in
          let res := ConRes_set_version_upt (ConRes_set_version_min (ConRes_set_version_maj res maj) min) upt in
          w ← write_fun w (set_data resmsg (D_con_res res));
          Some (true, w)
        end
    end.

(** The checks before a command is executed: [Some] is the error it gets. *)
Definition refuse (msg : OekMsg) (session : OeSession) : option (option string) :=
  if bool_decide (OekMsg_get_type msg = CON_CMD) then Some None
  else
    denied ← match security_context server with
             | None => Some None
             | Some c =>
               match subject session with
               | None => Some (Some OEP_ERR_NOT_LOGGED_IN)
               | Some s =>
                 if negb (Subject_is_authenticated s) then Some (Some OEP_ERR_NOT_LOGGED_IN)
                 else
                   auth ← SecurityContext_authorize st c s msg;
                   Some (if bool_decide (auth = ALLOW) then None else Some OEP_SERVER_ACCESS_DENIED)
               end
             end;
    Some (match denied, sess_context session with
          | Some e, _ => Some e
          | None, None => Some OEP_ERR_NOT_LOGGED_IN
          | None, Some _ => None
          end).

Definition _invoke_msg_handler (now : Z) (msg : OekMsg) (w : world) : option (bool * world) :=
  session ← session w;
  no ← refuse msg session;
  match no with
  | Some e => w ← _send_err e (OekMsg_get_cid msg) w; Some (false, w)
  | None =>
    let kernel := sess_context session in
    match OekMsg_get_type msg with
    | CON_CMD => _con_handler msg w
    | DIS_CMD => w ← _dis_handler w; Some (true, w)
    | GET_CMD =>
      cmd ← OekMsg_get_get_cmd msg;
      w ← hand_over kernel (mkContext (i64 (now + get_timeout cmd)) msg true None None) w;
      Some (true, w)
    | PUT_CMD | STA_CMD | UPT_CMD | UPL_CMD =>
      w ← hand_over kernel (mkContext 0 msg true None None) w; Some (true, w)
    | _ => None (* assert(false) *)
    end
  end.

(** One call of [read_fun]: the clock, the return code and the message. *)
Record read := mkRead { r_now : Z; r_rc : Z; r_msg : option OekMsg }.

Fixpoint _buffered_on_read (reads : list read) (w : world) : option world :=
  s ← session w;
  if OeSession_state_is_set s OENET_CLIENT_CLOSING then _cleanup w
  else
    match reads with
    | [] => Some w
    | r :: rest =>
      ctx ← match appl_context s with
            | Null => Some (Live None)
            | Live m => Some (Live m)
            | Freed => None
            end;
      let w := upd_session (λ s, OeSession_set_appl_context s ctx) w in
      if r_rc r <? 0 then
        w ← _send_err OEP_ERR_CAN_NOT_PARSE 0 w;
        _orderly_cleanup_conn (upd_session (λ s, OeSession_set_appl_context s Freed) w)
      else if r_rc r =? 0 then
        Some (upd_session (λ s, OeSession_set_appl_context s (Live (r_msg r))) w)
      else
        msg ← r_msg r;
        let w := upd_session (λ s, OeSession_set_appl_context s Null) w in
        if negb (OeSession_state_is_set s OENET_CLIENT_CONNECTED)
           && negb (bool_decide (OekMsg_get_type msg = CON_CMD))
        then w ← _send_err OEP_ERR_NOT_CONNECTED (OekMsg_get_cid msg) w; _orderly_cleanup_conn w
        else
          '(ok, w) ← _invoke_msg_handler (r_now r) msg w;
          if negb ok then _orderly_cleanup_conn w
          else match rest with [] => Some w | _ => _buffered_on_read rest w end
    end.
End Server.

(** [_cleanup_conn] of the connection, with the read handler it calls with no
    buffer: that only cleans up, because the session is closing. *)
Definition _cleanup_conn (w : world) : option world :=
  _ ← session w;
  let w := upd_session (λ s, OeSession_state_set (OeSession_state_clear s OENET_CLIENT_CONNECTED)
                               OENET_CLIENT_CLOSING) w in
  let w := upd_session (λ s, set_timeout s false) w in
  s ← session w;
  if negb (outstanding_task_count s =? 0) then Some w
  else
    let w := mkWorld (session w) (IdSet.Oec_IdSet_remove (sessions w) (sess_id s)).1 (sent w) (commands w)
               (running w) (rollbacks w) (answered w) in
    let w := upd_session (λ s, OeSession_state_set s OENET_CLIENT_CLOSING) w in
    w ← _cleanup w;
    Some (mkWorld None (sessions w) (sent w) (commands w) (running w) (rollbacks w) (answered w)).

Definition _buffered_close_on_writeable (w : world) : option world := _cleanup_conn w.

(** [what] has the bit [BEV_EVENT_CONNECTED] or not. *)
Definition _buffered_on_error_cb (connected : bool) (w : world) : option world :=
  if connected then Some w else _cleanup_conn w.

Definition _update_pending_txns (c : OEK_Context) (w : world) : option world :=
  match res_msgs c with
  | Some (resmsg :: _) =>
    s ← session w;
    match OekMsg_get_type resmsg with
    | STA_RES => s ← OeSession_save_tid s (OekMsg_get_tid resmsg); Some (upd_session (λ _, s) w)
    | UPT_RES =>
      res ← OekMsg_get_upt_res resmsg;
      if bool_decide (UptRes_get_status res = OETXN_ACTIVE) then Some w
      else '(_, s) ← OeSession_clear_tid s (OekMsg_get_tid resmsg); Some (upd_session (λ _, s) w)
    | _ => Some w
    end
  | _ => Some w
  end.

Fixpoint write_all (l : list OekMsg) (w : world) : option world :=
  match l with
  | [] => Some w
  | m :: l => w ← write_fun w m; write_all l w
  end.

(** Called with the context the kernel has answered. *)
Definition _write_to_client_cb (c : OEK_Context) (w : world) : option world :=
  w ← _update_pending_txns c w;
  let w := upd_session OeSession_decr_task_count w in
  s ← session w;
  let client_disconnected := negb (OeSession_state_is_set s OENET_CLIENT_CONNECTED) in
  if (outstanding_task_count s =? 0) && client_disconnected then
    w ← _rollback_transactions w; _orderly_cleanup_conn w
  else if negb client_disconnected then
    match err_msg c with
    | Some m => w ← write_fun w m; _orderly_cleanup_conn w
    | None => write_all (default [] (res_msgs c)) w
    end
  else Some w.
