(* ===== verification/ServerSpec.v ===== *)
(** * ServerSpec: what the protocol server guarantees

    Runs of a session of [Server]: the events, the invariant that every event
    keeps, and the theorems on guarded commands, memory safety, rollback on
    disconnect and the release of the session. *)

From S2P Require Import Prelude Values HashTable Collections Messages Kernel Security Server.
Import Flags AList SKeyTable.

(** ** Flags of a session *)

Definition closing (s : OeSession) : bool := OeSession_state_is_set s OENET_CLIENT_CLOSING.
Definition connected (s : OeSession) : bool := OeSession_state_is_set s OENET_CLIENT_CONNECTED.

Lemma closing_flags s :
  closing (OeSession_state_set s OENET_CLIENT_CLOSING) = true ∧
  closing (OeSession_state_clear s OENET_CLIENT_CONNECTED) = closing s ∧
  closing (OeSession_state_set s OENET_CLIENT_CONNECTED) = closing s ∧
  closing (OeSession_state_clear s 0) = closing s.
Proof.
  unfold closing, OeSession_state_is_set, OeSession_state_set, OeSession_state_clear. cbn [state set_state].
  change OENET_CLIENT_CLOSING with (bit 1). change OENET_CLIENT_CONNECTED with (bit 2).
  rewrite !isset_set, !isset_clear by lia. split_and!; try done.
  unfold OEC_FLAG_CLEAR. by rewrite Z.land_m1_r.
Qed.

Lemma connected_flags s :
  connected (OeSession_state_set s OENET_CLIENT_CLOSING) = connected s ∧
  connected (OeSession_state_clear s OENET_CLIENT_CONNECTED) = false ∧
  connected (OeSession_state_set s OENET_CLIENT_CONNECTED) = true ∧
  connected (OeSession_state_clear s 0) = connected s.
Proof.
  unfold connected, OeSession_state_is_set, OeSession_state_set, OeSession_state_clear. cbn [state set_state].
  change OENET_CLIENT_CLOSING with (bit 1). change OENET_CLIENT_CONNECTED with (bit 2).
  rewrite !isset_set, !isset_clear by lia. split_and!; try done.
  unfold OEC_FLAG_CLEAR. by rewrite Z.land_m1_r.
Qed.

(** Flags are read from [state] alone. *)
Lemma same_state s s' : state s = state s' → closing s = closing s' ∧ connected s = connected s'.
Proof. intros E. unfold closing, connected, OeSession_state_is_set. by rewrite E. Qed.

(** ** Open transactions *)

(** Those an answer started and no later answer ended. *)
Definition open_after (open : gset Z) (c : OEK_Context) : gset Z :=
  match res_msgs c with
  | Some (m :: _) =>
    match data m with
    | D_sta_res _ => {[txn_id m]} ∪ open
    | D_upt_res r => if bool_decide (UptRes_get_status r = OETXN_ACTIVE) then open else open ∖ {[txn_id m]}
    | _ => open
    end
  | _ => open
  end.
Definition open_txns (l : list OEK_Context) : gset Z := foldl open_after ∅ l.

Lemma open_txns_snoc l c : open_txns (l ++ [c]) = open_after (open_txns l) c.
Proof. unfold open_txns. by rewrite foldl_app. Qed.

(** An answer is a response whose first message says what it is, on a
    transaction with an id. *)
Definition answer_ok (c : OEK_Context) : Prop :=
  ∀ m l, res_msgs c = Some (m :: l) → msg_wf m ∧ (mtype m = STA_RES ∨ mtype m = UPT_RES → txn_id m ≠ 0).

(** The pending set of a session holds the open transactions. *)
Definition pending_is (s : OeSession) (open : gset Z) : Prop :=
  match pending_txns s with
  | Null => open = ∅
  | Live set => HSet.set_wf set ∧ dom (HSet.smap set) = open
  | Freed => True
  end.

(** The session differs in its pending set only, which stays as dangling as it was. *)
Definition repending (s s' : OeSession) (open : gset Z) : Prop :=
  ∃ p, s' = set_pending s p ∧ pending_is s' open ∧ (p = Freed ↔ pending_txns s = Freed).

Lemma repending_same s open : pending_is s open → repending s s open.
Proof. exists (pending_txns s). by destruct s. Qed.

Lemma save_tid_ok s tid open :
  pending_is s open → tid ≠ 0 →
  match OeSession_save_tid s tid with
  | Some s' => repending s s' ({[tid]} ∪ open)
  | None => pending_txns s = Freed
  end.
Proof.
  intros Hp Ht. unfold OeSession_save_tid.
  assert (∀ set, HSet.set_wf set → dom (HSet.smap set) = open → pending_txns s ≠ Freed →
    repending s (set_pending s (Live (HSet.Set_put set (Atom tid)))) ({[tid]} ∪ open)) as Hput.
  { intros set Ws Hd Hf. destruct (HSet.set_put_spec set (Atom tid) Ws) as [W' M'].
    eexists. split; [done|]. split; [|by split]. split; [done|].
    cbn [set_pending pending_txns]. by rewrite M', dom_insert_L, Hd. }
  unfold pending_is in Hp. destruct (pending_txns s) as [|set|] eqn:Ep; cbn [mbind option_bind]; [| |done].
  - destruct (HSet.new_total (A := atom) 1 ltac:(lia)) as (set & En & W & M). rewrite En. cbn [mbind option_bind].
    destruct (Z.eqb_spec tid 0) as [|_]; [done|]. cbn [negb c_assert mbind option_bind].
    apply Hput; [done|by rewrite M, dom_empty_L|done].
  - destruct (Z.eqb_spec tid 0) as [|_]; [done|]. cbn [negb c_assert mbind option_bind]. destruct Hp. by apply Hput.
Qed.

Lemma clear_tid_ok s tid open :
  pending_is s open → tid ≠ 0 →
  match OeSession_clear_tid s tid with
  | Some (_, s') => repending s s' (open ∖ {[tid]})
  | None => pending_txns s = Freed
  end.
Proof.
  intros Hp Ht. unfold OeSession_clear_tid. pose proof Hp as Hp'. unfold pending_is in Hp.
  destruct (pending_txns s) as [|set|] eqn:Ep; [| |done].
  - apply repending_same. subst open. unfold pending_is. rewrite Ep. set_solver.
  - destruct Hp as [W Hd]. destruct (Z.eqb_spec tid 0) as [|_]; [done|]. cbn [negb c_assert mbind option_bind].
    destruct (HSet.set_remove_spec set (Atom tid) W) as (W' & M' & _).
    destruct (HSet.Set_remove set (Atom tid)) as [set' old]. cbn in W', M'.
    eexists. split; [done|]. split; [|by rewrite Ep]. split; [done|]. cbn [set_pending pending_txns].
    by rewrite M', dom_delete_L, Hd.
Qed.

Lemma upd_session_id w s : session w = Some s → upd_session (λ _, s) w = w.
Proof. destruct w. cbn. by intros ->. Qed.

Lemma update_pending_ok c w s open :
  session w = Some s → pending_is s open → answer_ok c →
  match _update_pending_txns c w with
  | Some w' => ∃ s', w' = upd_session (λ _, s') w ∧ repending s s' (open_after open c)
  | None => pending_txns s = Freed
  end.
Proof.
  intros Es Hp Ha. unfold _update_pending_txns, open_after.
  assert (∃ s', w = upd_session (λ _, s') w ∧ repending s s' open) as Hsame.
  { exists s. rewrite upd_session_id by done. auto using repending_same. }
  destruct (res_msgs c) as [[|m l]|] eqn:Er; [done| |done].
  destruct (Ha m l Er) as [Hwf Ht]. rewrite Es. cbn [mbind option_bind].
  destruct m as [t cid tid v d]. unfold msg_wf in Hwf. cbn in Hwf, Ht. subst t. cbn [OekMsg_get_type mtype data txn_id].
  destruct d; cbn [tag_of]; try done.
  - pose proof (save_tid_ok s tid open Hp (Ht (or_introl eq_refl))) as H. cbn [OekMsg_get_tid txn_id].
    destruct (OeSession_save_tid s tid) as [s'|]; [by exists s'|done].
  - unfold OekMsg_get_upt_res. cbn [mtype tag_of]. rewrite bool_decide_true by done. cbn [c_assert mbind option_bind data].
    case_bool_decide as Hst; [done|]. pose proof (clear_tid_ok s tid open Hp (Ht (or_intror eq_refl))) as H.
    cbn [OekMsg_get_tid txn_id]. destruct (OeSession_clear_tid s tid) as [[o s']|]; [by exists s'|done].
Qed.

(** ** Runs *)

Inductive event :=
  | E_read (reads : list read)
  | E_error (connected : bool)
  | E_writable
  | E_timeout
  | E_response (n : nat) (c : OEK_Context).

Section Spec.
Context (server : OepServer) (st : sec) (version : Z * Z * Z).
Hypothesis (Hst : sec_ok st) (Hpw : clean_passwords st).
Hypothesis (Hmods : ∀ c, security_context server = Some c → Forall (built_in st) (modules c)).

(** An answer comes back: its context is no longer running. *)
Definition take_answer (n : nat) (c : OEK_Context) (w : world) : world :=
  mkWorld (session w) (sessions w) (sent w) (commands w) (delete n (running w)) (rollbacks w) (answered w ++ [c]).

Definition step (e : event) (w : world) : option world :=
  match e with
  | E_read reads => _buffered_on_read server st version reads w
  | E_error connected => _buffered_on_error_cb connected w
  | E_writable => _buffered_close_on_writeable w
  | E_timeout => _con_timeout_cb w
  | E_response n c => _write_to_client_cb c (take_answer n c w)
  end.

(** What the readers hand out: messages of any type, commands and responses,
    whose type and content agree; with [nb], no connection asks for rollback
    on disconnect. *)
Definition read_ok (nb : bool) (r : read) : Prop :=
  0 < r_rc r → ∃ m, r_msg r = Some m ∧ msg_wf m ∧
    (nb = true → ∀ c, data m = D_con_cmd c → ConCmd_rollback_on_disconnect c = false).

(** Not a response or an error message *)
Definition is_command (m : OekMsg) : bool :=
  match data m with
  | D_con_cmd _ | D_dis_cmd _ | D_get_cmd _ | D_put_cmd _ | D_sta_cmd _ | D_upt_cmd _ | D_upl_cmd _ => true
  | _ => false
  end.

(** The events of a live session: its connection's callbacks as far as they
    are set, and the answers to running commands. *)
Definition allowed (nb : bool) (e : event) (w : world) : Prop :=
  match e with
  | E_read reads => is_Some (session w) ∧ Forall (read_ok nb) reads ∧
      Z.of_nat (length (running w) + length reads) < 2 ^ 31
  | E_error _ => is_Some (session w)
  | E_writable => ∃ s, session w = Some s ∧ close_cb s = true
  | E_timeout => ∃ s, session w = Some s ∧ conn_timeout s = true
  | E_response n c => is_Some (running w !! n) ∧ answer_ok c
  end.
Definition sstep (nb : bool) (w w' : world) : Prop := ∃ e, allowed nb e w ∧ step e w = Some w'.

(** A message that is no command, and that the checks let through: [e] reads
    it, and what [e] reads before it has led to a session in which nothing
    refuses it. *)
Definition let_through (s : OeSession) (m : OekMsg) : Prop :=
  closing s = false ∧ connected s = true ∧ is_command m = false ∧ refuse server st m s = Some None.
Definition reads_response (nb : bool) (e : event) (w : world) : Prop :=
  ∃ reads r m w1 s1, e = E_read reads ∧ r ∈ reads ∧ r_msg r = Some m ∧
    rtc (sstep nb) w w1 ∧ session w1 = Some s1 ∧ let_through s1 m.

(** ** Invariant *)

(** The command was handed to the kernel of the extent its client connected
    to, by a subject that had logged in and was authorised. *)
Definition guarded (h : handed) : Prop :=
  ∃ j x, h_subject h = Some j ∧ extentname j = Some x ∧ _get_kernel server x = Some (h_kernel h) ∧
    ∀ c, security_context server = Some c →
      Subject_is_authenticated j = true ∧
      SecurityContext_authorize st c j (cmd_msg (h_context h)) = Some ALLOW.

Definition logged_in (s : OeSession) : Prop :=
  ∃ j x k, sess_context s = Some k ∧ subject s = Some j ∧ extentname j = Some x ∧ _get_kernel server x = Some k ∧
    privs_ok st j ∧ (is_Some (security_context server) → Subject_is_authenticated j = true).

Record sess_ok (nb : bool) (run ans : list OEK_Context) (s : OeSession) : Prop := {
  sk_tasks : outstanding_task_count s = Z.of_nat (length run);
  sk_bound : Z.of_nat (length run) < 2 ^ 31;
  sk_pend : pending_is s (open_txns ans);
  sk_freed : pending_txns s = Freed → closing s = true ∧ rb_on_dis s = true;
  sk_appl : appl_context s = Freed → closing s = true;
  sk_conn : closing s = false → connected s = true → logged_in s;
  sk_unconn : closing s = false → connected s = false → sess_context s = None;
  sk_idle : sess_context s = None → run = [] ∧ pending_txns s = Null;
  sk_rb : nb = true → rb_on_dis s = false
}.

Record world_ok (nb : bool) (w : world) : Prop := {
  wk_guard : Forall guarded (commands w);
  wk_tids : 0 ∉ open_txns (answered w);
  wk_sess : match session w with Some s => sess_ok nb (running w) (answered w) s | None => running w = [] end
}.

(** The transactions of the session dangle. *)
Definition dangling (w : world) : Prop := ∃ s, session w = Some s ∧ pending_txns s = Freed.

(** An event returns a good world, unless it fails for the reason [fr]. *)
Definition okf (nb : bool) (fr : Prop) (o : option world) : Prop :=
  match o with Some w' => world_ok nb w' | None => fr end.

Lemma okf_weaken nb (fr fr' : Prop) o : (fr → fr') → okf nb fr o → okf nb fr' o.
Proof. unfold okf. destruct o; auto. Qed.

(** What the client is sent does not matter. *)
Definition wsame (w w' : world) : Prop :=
  session w' = session w ∧ commands w' = commands w ∧ running w' = running w ∧ rollbacks w' = rollbacks w ∧
  answered w' = answered w.

Lemma world_ok_same nb w w' : wsame w w' → world_ok nb w → world_ok nb w'.
Proof. intros (E1 & E2 & E3 & E4 & E5) []. split; by rewrite ?E1, ?E2, ?E3, ?E5. Qed.

Lemma write_ok w m s : session w = Some s → ∃ w', write_fun w m = Some w' ∧ wsame w w'.
Proof. intros E. unfold write_fun. rewrite E. eexists. split; [done|]. by split_and!. Qed.

Lemma send_err_ok e cid w s : session w = Some s → ∃ w', _send_err e cid w = Some w' ∧ wsame w w'.
Proof. intros E. unfold _send_err. cbn. by apply (write_ok _ _ s). Qed.

Lemma write_all_ok l w s : session w = Some s → ∃ w', write_all l w = Some w' ∧ wsame w w'.
Proof.
  revert w. induction l as [|m l IH]; intros w E; cbn [write_all]; [by exists w|].
  destruct (write_ok w m s E) as (w1 & E1 & S1). rewrite E1. cbn [mbind option_bind].
  destruct (IH w1) as (w2 & E2 & S2); [by rewrite (proj1 S1)|]. exists w2. split; [done|].
  destruct S1 as (? & ? & ? & ? & ?), S2 as (? & ? & ? & ? & ?). split_and!; congruence.
Qed.

(** Changing the session alone. *)
Lemma world_ok_upd nb w s f :
  session w = Some s → world_ok nb w → sess_ok nb (running w) (answered w) (f s) → world_ok nb (upd_session f w).
Proof. intros E [G T _] H. split; cbn; [done|done|]. by rewrite E. Qed.

Lemma sess_closing nb run ans s :
  sess_ok nb run ans s → sess_ok nb run ans (set_close_cb (OeSession_state_set s OENET_CLIENT_CLOSING)).
Proof.
  intros []. destruct (closing_flags s) as (C & _).
  assert (closing (set_close_cb (OeSession_state_set s OENET_CLIENT_CLOSING)) = true) as C'.
  { rewrite <-C. by apply same_state. }
  split; try done; try (rewrite C'; done). intros Hf. rewrite C'. split; [done|]. by apply sk_freed0.
Qed.

Lemma orderly_ok nb w s :
  session w = Some s → world_ok nb w →
  ∃ w', _orderly_cleanup_conn w = Some w' ∧ world_ok nb w' ∧
    w' = upd_session (λ s, set_close_cb (OeSession_state_set s OENET_CLIENT_CLOSING)) w.
Proof.
  intros E H. unfold _orderly_cleanup_conn. rewrite E. eexists. split; [done|]. split; [|done].
  apply (world_ok_upd nb w s); [done|done|]. apply sess_closing. pose proof (wk_sess nb w H) as Hs. by rewrite E in Hs.
Qed.

(** ** Each function *)

Lemma rollback_loop_ok k tids out :
  Forall (λ a, ptr a ≠ 0) tids →
  rollback_loop (Some k) tids out = Some (out ++ ((λ a, (k, ptr a)) <$> tids)).
Proof.
  intros H. revert out. induction H as [|a tids Ha H IH]; intros out; cbn [rollback_loop fmap list_fmap].
  - by rewrite app_nil_r.
  - destruct (Z.eqb_spec (ptr a) 0) as [|_]; [done|]. cbn [mbind option_bind]. by rewrite IH, <-app_assoc.
Qed.

Lemma pending_nonzero set open : HSet.set_wf set → dom (HSet.smap set) = open → 0 ∉ open →
  Forall (λ a, ptr a ≠ 0) (HSet.Set_toArray set).
Proof.
  intros W Hd Hz. apply list.Forall_forall. intros a Ha E. apply Hz. rewrite <-Hd, elem_of_dom, <-E.
  change (ptr a) with (kcls a). apply HSet.toArray_dom; [done|].
  apply list_elem_of_fmap. by exists a.
Qed.

(** What rolling back does, when the session is closing. *)
Definition rolled_back (w w' : world) (s : OeSession) : Prop :=
  (w' = w ∧ (rb_on_dis s = false ∨ pending_txns s = Null)) ∨
  ∃ set k, rb_on_dis s = true ∧ pending_txns s = Live set ∧ sess_context s = Some k ∧
    w' = mkWorld (Some (set_pending s Freed)) (sessions w) (sent w) (commands w) (running w)
           (rollbacks w ++ ((λ a, (k, ptr a)) <$> HSet.Set_toArray set)) (answered w).

Lemma rollback_ok nb w s :
  session w = Some s → world_ok nb w → closing s = true →
  match _rollback_transactions w with
  | Some w' => world_ok nb w' ∧ rolled_back w w' s
  | None => pending_txns s = Freed
  end.
Proof.
  intros E H Hc. pose proof (wk_sess nb w H) as Hs. rewrite E in Hs. unfold _rollback_transactions. rewrite E.
  cbn [mbind option_bind]. destruct (rb_on_dis s) eqn:Er; cbn [negb].
  2: { split; [done|]. left. by split; [|left]. }
  destruct (pending_txns s) as [|set|] eqn:Ep; [by split; [|left; split; [|right]]| |done].
  pose proof (sk_pend _ _ _ _ Hs) as Hp. unfold pending_is in Hp. rewrite Ep in Hp. destruct Hp as [W Hd].
  destruct (sess_context s) as [k|] eqn:Ek.
  2: { destruct (sk_idle _ _ _ _ Hs Ek). congruence. }
  rewrite rollback_loop_ok by (by apply (pending_nonzero set (open_txns (answered w)) W Hd), H). cbn [mbind option_bind]. split.
  - split; cbn; [apply H|apply H|]. destruct Hs. split; try done; intros Hn; first [by split|cbn in Hn; congruence].
  - right. exists set, k. by split_and!.
Qed.

Lemma rollback_fr nb w s :
  session w = Some s → world_ok nb w → closing s = true → okf nb (dangling w) (_rollback_transactions w).
Proof.
  intros E H Hc. pose proof (rollback_ok nb w s E H Hc) as R. unfold okf.
  destruct (_rollback_transactions w); [apply R|by exists s].
Qed.

Lemma cleanup_fr nb w s :
  session w = Some s → world_ok nb w → closing s = true → okf nb (dangling w) (_cleanup w).
Proof.
  intros E H Hc. unfold _cleanup. rewrite E. cbn [mbind option_bind]. case_match; [|done]. by apply (rollback_fr nb w s).
Qed.

(** [_cleanup_conn]: the state it puts the session in. *)
Definition closed_session (s : OeSession) : OeSession :=
  set_timeout (OeSession_state_set (OeSession_state_clear s OENET_CLIENT_CONNECTED) OENET_CLIENT_CLOSING) false.

Lemma closed_flags s : closing (closed_session s) = true ∧ connected (closed_session s) = false.
Proof.
  set (s1 := OeSession_state_clear s OENET_CLIENT_CONNECTED).
  destruct (closing_flags s1) as (C & _). destruct (connected_flags s1) as (D & _).
  destruct (connected_flags s) as (_ & F & _).
  destruct (same_state (closed_session s) (OeSession_state_set s1 OENET_CLIENT_CLOSING) eq_refl) as [-> ->].
  split; [done|]. by rewrite D.
Qed.

Lemma closed_idem s : OeSession_state_set (closed_session s) OENET_CLIENT_CLOSING = closed_session s.
Proof.
  unfold closed_session, set_timeout, OeSession_state_set, OeSession_state_clear, set_state, OEC_FLAG_SET. cbn.
  by rewrite <-Z.lor_assoc, Z.lor_diag.
Qed.

Lemma sess_closed nb run ans s : sess_ok nb run ans s → sess_ok nb run ans (closed_session s).
Proof.
  intros []. destruct (closed_flags s) as [C D].
  split; try done; try (by rewrite ?C, ?D). intros Hf. split; [done|]. by apply sk_freed0.
Qed.

Lemma cleanup_conn_busy nb w s :
  session w = Some s → world_ok nb w → running w ≠ [] →
  _cleanup_conn w = Some (upd_session closed_session w) ∧ world_ok nb (upd_session closed_session w).
Proof.
  intros E H Hr. pose proof (wk_sess nb w H) as Hs. rewrite E in Hs. split.
  - unfold _cleanup_conn. rewrite E. cbn [mbind option_bind]. cbn [upd_session session]. rewrite E. cbn [fmap option_fmap option_map mbind option_bind].
    cbn [outstanding_task_count set_timeout OeSession_state_set OeSession_state_clear set_state].
    rewrite (sk_tasks _ _ _ _ Hs). destruct (Z.eqb_spec (Z.of_nat (length (running w))) 0) as [Hz|_].
    + destruct (running w); [done|]. cbn in Hz. lia.
    + cbn [negb]. unfold upd_session. cbn. by rewrite E.
  - apply (world_ok_upd nb w s); [done|done|]. by apply sess_closed.
Qed.

(** With nothing running the transactions are rolled back and the session is
    freed. *)
Lemma cleanup_conn_idle nb w s :
  session w = Some s → world_ok nb w → running w = [] →
  match _cleanup_conn w with
  | Some w' => world_ok nb w' ∧ session w' = None ∧ running w' = [] ∧ answered w' = answered w ∧
      ∃ ids w1, rolled_back (mkWorld (Some (closed_session s)) ids (sent w) (commands w) [] (rollbacks w) (answered w)) w1 (closed_session s) ∧
        rollbacks w' = rollbacks w1
  | None => pending_txns s = Freed
  end.
Proof.
  intros E H Hr. pose proof (wk_sess nb w H) as Hs. rewrite E in Hs.
  unfold _cleanup_conn. rewrite E. cbn [mbind option_bind]. cbn [upd_session session]. rewrite E.
  cbn [fmap option_fmap option_map mbind option_bind].
  cbn [outstanding_task_count set_timeout OeSession_state_set OeSession_state_clear set_state].
  rewrite (sk_tasks _ _ _ _ Hs), Hr. cbn [length Z.of_nat Z.eqb negb].
  cbn [sessions sent commands running rollbacks answered].
  set (ids := (IdSet.Oec_IdSet_remove _ _).1).
  set (w1 := mkWorld (Some (closed_session s)) ids (sent w) (commands w) [] (rollbacks w) (answered w)).
  match goal with |- context [_cleanup ?x] => assert (x = w1) as -> end.
  { unfold upd_session, w1. cbn [session fmap option_fmap option_map]. fold (closed_session s).
    by rewrite closed_idem, ?Hr. }
  assert (world_ok nb w1) as H1.
  { destruct H as [G T _]. split; cbn; [done|done|]. rewrite Hr in Hs. by apply sess_closed. }
  assert (_cleanup w1 = _rollback_transactions w1) as ->.
  { unfold _cleanup. cbn. by rewrite (sk_tasks _ _ _ _ Hs), Hr. }
  pose proof (rollback_ok nb w1 (closed_session s) eq_refl H1 (proj1 (closed_flags s))) as R.
  destruct (_rollback_transactions w1) as [w2|]; [|done]. cbn [mbind option_bind]. destruct R as [[G T S2] R].
  assert (running w2 = [] ∧ answered w2 = answered w) as [R2 A2] by by destruct R as [[-> _]|(? & ? & _ & _ & _ & ->)].
  split_and!; [|done|done|done|].
  - split; cbn; done.
  - by exists ids, w2.
Qed.

Lemma cleanup_conn_fr nb w : is_Some (session w) → world_ok nb w → okf nb (dangling w) (_cleanup_conn w).
Proof.
  intros [s E] H. destruct (decide (running w = [])) as [Hr|Hr].
  - pose proof (cleanup_conn_idle nb w s E H Hr) as C. unfold okf. destruct (_cleanup_conn w); [apply C|by exists s].
  - destruct (cleanup_conn_busy nb w s E H Hr) as [-> H']. done.
Qed.

(** *** Reading *)

(** An open session: commands can still be handed over. *)
Definition open_session (nb : bool) (w : world) (s : OeSession) : Prop :=
  session w = Some s ∧ world_ok nb w ∧ closing s = false.

(** A command that is refused. *)
Lemma refused_ok nb e cid w s :
  open_session nb w s →
  ∃ b w' s', (w' ← _send_err e cid w; Some (false, w')) = Some (b, w') ∧ open_session nb w' s' ∧
    running w' = running w ∧ answered w' = answered w.
Proof.
  intros (E & H & C). destruct (send_err_ok e cid w s E) as (w2 & E2 & S2). rewrite E2.
  exists false, w2, s. split; [done|]. split; [|by split; apply S2].
  split_and!; [by rewrite (proj1 S2)|by apply (world_ok_same nb w)|done].
Qed.

Lemma subject_open nb w s j :
  open_session nb w s → connected s = false →
  open_session nb (upd_session (λ y, OeSession_set_subject y j) w) (OeSession_set_subject s j).
Proof.
  intros (E & H & C) D. pose proof (wk_sess nb w H) as Hs. rewrite E in Hs.
  split_and!; [cbn; by rewrite E| |done]. apply (world_ok_upd nb w s); [done|done|].
  destruct Hs. split; try done. intros _ D'. change (connected s = true) in D'. congruence.
Qed.

Lemma connected_open nb w s x k j :
  open_session nb w s → connected s = false → subject s = Some j → extentname j = Some x →
  _get_kernel server x = Some k → privs_ok st j →
  (is_Some (security_context server) → Subject_is_authenticated j = true) →
  let f y := OeSession_state_set (OeSession_set_sess_context y k) OENET_CLIENT_CONNECTED in
  open_session nb (upd_session f w) (f s).
Proof.
  intros (E & H & C) D Hj Hx Hk Hp Ha f. pose proof (wk_sess nb w H) as Hs. rewrite E in Hs.
  destruct (closing_flags (OeSession_set_sess_context s k)) as (_ & _ & C3 & _).
  destruct (connected_flags (OeSession_set_sess_context s k)) as (_ & _ & D3 & _).
  change (closing (f s) = closing s) in C3. change (connected (f s) = true) in D3.
  split_and!; [cbn; by rewrite E| |by rewrite C3]. apply (world_ok_upd nb w s); [done|done|].
  destruct Hs. split; try done; rewrite ?C3, ?D3; try done.
  intros _ _. exists j, x, k. by split_and!.
Qed.

Lemma rb_open nb w s :
  open_session nb w s → nb = false →
  open_session nb (upd_session OeSession_set_rb_on_disconnect w) (OeSession_set_rb_on_disconnect s).
Proof.
  intros (E & H & C) ->. pose proof (wk_sess false w H) as Hs. rewrite E in Hs.
  split_and!; [cbn; by rewrite E| |done]. apply (world_ok_upd false w s); [done|done|].
  destruct Hs. split; try done. intros Hf. split; [|done]. by apply sk_freed0.
Qed.

Lemma con_handler_ok nb msg c w s :
  open_session nb w s → mtype msg = CON_CMD → data msg = D_con_cmd c →
  (nb = true → ConCmd_rollback_on_disconnect c = false) →
  ∃ b w' s', _con_handler server st version msg w = Some (b, w') ∧ open_session nb w' s' ∧
    running w' = running w ∧ answered w' = answered w.
Proof.
  intros O Ht Hd Hnb. unfold _con_handler. rewrite (proj1 O). cbn [mbind option_bind]. fold (connected s).
  destruct (connected s) eqn:Hcon; [by apply (refused_ok nb _ _ w s)|].
  assert (OekMsg_get_con_cmd msg = Some c) as ->.
  { unfold OekMsg_get_con_cmd. rewrite bool_decide_true by done. cbn. by rewrite Hd. }
  cbn [mbind option_bind]. destruct (con_extentname c) as [x|] eqn:Ex; [|by apply (refused_ok nb _ _ w s)].
  set (j0 := Subject_set_extentname _ _).
  assert (∃ j, match security_context server with Some c0 => SecurityContext_login st c0 j0 | None => Some j0 end = Some j ∧
    extentname j = Some x ∧ privs_ok st j) as (j & Ej & Hx & Hp).
  { destruct (security_context server) as [sc|] eqn:Esc.
    - apply login_total; try done. by apply Hmods.
    - exists j0. split_and!; [done..|]. constructor. }
  rewrite Ej. cbn [mbind option_bind]. pose proof (subject_open nb w s j O Hcon) as O1.
  set (w1 := upd_session (λ y, OeSession_set_subject y j) w) in *.
  destruct (match security_context server with Some _ => negb (Subject_is_authenticated j) | None => false end) eqn:Eau;
    [by apply (refused_ok nb _ _ w1 _ O1)|].
  destruct (_get_kernel server x) as [k|] eqn:Ek; [|by apply (refused_ok nb _ _ w1 _ O1)].
  assert (is_Some (security_context server) → Subject_is_authenticated j = true) as Ha.
  { intros [sc Esc]. rewrite Esc in Eau. by destruct (Subject_is_authenticated j). }
  pose proof (connected_open nb w1 _ x k j O1 Hcon eq_refl Hx Ek Hp Ha) as O2. cbn zeta in O2.
  set (f := λ y, OeSession_state_set (OeSession_set_sess_context y k) OENET_CLIENT_CONNECTED) in *.
  set (w2 := upd_session f w1) in *.
  assert (∃ w3 s3, (if ConCmd_rollback_on_disconnect c then upd_session OeSession_set_rb_on_disconnect w2 else w2) = w3 ∧
    open_session nb w3 s3 ∧ running w3 = running w ∧ answered w3 = answered w) as (w3 & s3 & -> & (E3 & H3 & C3) & R3 & A3).
  { destruct (ConCmd_rollback_on_disconnect c) eqn:Erb; [|by exists w2, (f (OeSession_set_subject s j))].
    eexists _, _. split; [done|]. split; [apply rb_open; [exact O2|]|done]. destruct nb; [by apply Hnb|done]. }
  cbn [OekMsg_new OekMsg_settype mbind option_bind]. destruct version as [[maj min] upt].
  unfold OekMsg_get_con_res. cbn [OekMsg_set_cid mtype data]. rewrite bool_decide_true by done.
  cbn [c_assert mbind option_bind].
  match goal with |- context [write_fun w3 ?m] => destruct (write_ok w3 m s3 E3) as (w4 & E4 & S4) end.
  rewrite E4. exists true, w4, s3. split; [done|]. destruct S4 as (S1 & S2 & S3 & S4 & S5).
  rewrite S3, S5. split; [|done]. split_and!; [by rewrite S1|by apply (world_ok_same nb w3)|done].
Qed.

Lemma refuse_ok s msg :
  logged_in s → mtype msg ≠ CON_CMD →
  ∃ no, refuse server st msg s = Some no ∧
    (no = None → ∀ c j, security_context server = Some c → subject s = Some j →
       Subject_is_authenticated j = true ∧ SecurityContext_authorize st c j msg = Some ALLOW).
Proof.
  intros (j & x & k & Ek & Ej & Ex & Eg & Hp & Ha) Ht. unfold refuse. rewrite bool_decide_false by done. rewrite Ek.
  destruct (security_context server) as [sc|] eqn:Esc; cbn [mbind option_bind].
  - rewrite Ej, Ha by eauto. cbn [negb]. destruct (authorize_total st sc j msg Hp) as [a Ea]. rewrite Ea.
    cbn [mbind option_bind]. case_bool_decide as Hal.
    + eexists. split; [done|]. intros _ c j' [= <-] [= <-]. split; [auto|]. by rewrite Ea, Hal.
    + eexists. split; [done|]. done.
  - eexists. split; [done|]. done.
Qed.

Lemma hand_ok nb w s k c :
  open_session nb w s → logged_in s → sess_context s = Some k → Z.of_nat (length (running w)) + 1 < 2 ^ 31 →
  (∀ sc j, security_context server = Some sc → subject s = Some j →
     Subject_is_authenticated j = true ∧ SecurityContext_authorize st sc j (cmd_msg c) = Some ALLOW) →
  ∃ w' s', hand_over (Some k) c w = Some w' ∧ open_session nb w' s' ∧ running w' = running w ++ [c] ∧
    answered w' = answered w.
Proof.
  intros (E & H & C) L Ek Hb Ha. pose proof (wk_sess nb w H) as Hs. rewrite E in Hs. unfold hand_over. rewrite E.
  cbn [mbind option_bind]. eexists _, _. split; [done|]. split; [|done]. split; [done|]. split; [|done].
  destruct H as [G T _]. split; cbn.
  - apply Forall_app. split; [done|]. constructor; [|done]. destruct L as (j & x & k' & Ek' & Ej & Ex & Eg & _).
    exists j, x. rewrite Ek in Ek'. injection Ek' as <-. split_and!; try done. intros sc Esc. by apply Ha.
  - done.
  - destruct Hs. split; try done; try rewrite length_app.
    + cbn [OeSession_incr_task_count set_task_count outstanding_task_count length]. rewrite sk_tasks0.
      rewrite wraps_id by (unfold in_s; lia). lia.
    + cbn [length]. lia.
    + cbn. congruence.
Qed.

(** After a command the session is open, or it has asked to disconnect. *)
Definition after_command (nb : bool) (w w' : world) : Prop :=
  ∃ s', session w' = Some s' ∧ world_ok nb w' ∧ pending_txns s' ≠ Freed ∧
    (length (running w') ≤ length (running w) + 1)%nat ∧ answered w' = answered w.

Lemma open_not_freed nb w s : open_session nb w s → pending_txns s ≠ Freed.
Proof.
  intros (E & H & C) Hf. pose proof (wk_sess nb w H) as Hs. rewrite E in Hs.
  destruct (sk_freed _ _ _ _ Hs Hf). congruence.
Qed.

Lemma open_after_command nb w w' s' :
  open_session nb w' s' → (length (running w') ≤ length (running w) + 1)%nat → answered w' = answered w →
  after_command nb w w'.
Proof. intros O Hr Ha. exists s'. split_and!; try done; try apply O. by eapply open_not_freed. Qed.

Lemma dis_ok nb w s : open_session nb w s →
  ∃ w', _dis_handler w = Some w' ∧ after_command nb w w'.
Proof.
  intros O. pose proof (open_not_freed nb w s O) as Hf. destruct O as (E & H & C). unfold _dis_handler.
  pose proof (wk_sess nb w H) as Hs. rewrite E in Hs.
  assert (world_ok nb (upd_session (λ y, OeSession_state_clear y 0) w)) as H1.
  { apply (world_ok_upd nb w s); [done|done|]. destruct (closing_flags s) as (_ & _ & _ & C4).
    destruct (connected_flags s) as (_ & _ & _ & D4). destruct Hs. split; try done; rewrite ?C4, ?D4; done. }
  assert (session (upd_session (λ y, OeSession_state_clear y 0) w) = Some (OeSession_state_clear s 0)) as E1
    by (cbn; by rewrite E).
  destruct (orderly_ok nb _ _ E1 H1) as (w' & E' & H' & Ew).
  exists w'. split; [done|]. exists (set_close_cb (OeSession_state_set (OeSession_state_clear s 0) OENET_CLIENT_CLOSING)).
  split; [by rewrite Ew; cbn; rewrite E|]. split_and!; [done|done| |by rewrite Ew].
  rewrite Ew. cbn. lia.
Qed.

Lemma invoke_ok nb now msg w s :
  open_session nb w s → msg_wf msg → Z.of_nat (length (running w)) + 1 < 2 ^ 31 →
  (nb = true → ∀ c, data msg = D_con_cmd c → ConCmd_rollback_on_disconnect c = false) →
  connected s = true ∨ mtype msg = CON_CMD →
  match _invoke_msg_handler server st version now msg w with
  | Some (b, w') => after_command nb w w'
  | None => is_command msg = false ∧ refuse server st msg s = Some None ∧ connected s = true
  end.
Proof.
  intros O Hwf Hb Hnb Hcon. unfold msg_wf in Hwf. unfold _invoke_msg_handler. rewrite (proj1 O). cbn [mbind option_bind].
  destruct (decide (mtype msg = CON_CMD)) as [Ht|Ht].
  - unfold refuse. rewrite bool_decide_true by done. cbn [mbind option_bind]. unfold OekMsg_get_type. rewrite Ht.
    rewrite Ht in Hwf. destruct (data msg) as [| | |c| | | | | | | | | | |] eqn:Ed; try done.
    destruct (con_handler_ok nb msg c w s O Ht Ed) as (b & w' & s' & Ew & O' & R & A); [naive_solver|].
    rewrite Ew. eapply open_after_command; [done|rewrite R; lia|done].
  - destruct Hcon as [Hcon|]; [|done]. destruct O as (E & H & C). pose proof (wk_sess nb w H) as Hs. rewrite E in Hs.
    pose proof (sk_conn _ _ _ _ Hs C Hcon) as L. pose proof L as (j & x & k & Ek & _).
    destruct (refuse_ok s msg L Ht) as (no & En & Hno). cbn [mbind option_bind].
    assert (open_session nb w s) as O by done. rewrite En. cbn [mbind option_bind]. destruct no as [e|].
    { destruct (refused_ok nb e (OekMsg_get_cid msg) w s O) as (b & w' & s' & Ew & O' & R & A). rewrite Ew. eapply open_after_command; [done|rewrite R; lia|done]. }
    assert (∀ c, cmd_msg c = msg →
      match (w' ← hand_over (sess_context s) c w; Some (true, w')) with
      | Some (b, w') => after_command nb w w'
      | None => is_command msg = false ∧ Some (None (A := string)) = Some None ∧ connected s = true
      end) as Hh.
    { intros c Ec. destruct (hand_ok nb w s k c O L Ek Hb) as (w' & s' & Ew & O' & R & A); [rewrite Ec; by apply Hno|].
      rewrite Ek, Ew. cbn [mbind option_bind]. eapply open_after_command; [done|rewrite R, length_app; cbn; lia|done]. }
    unfold OekMsg_get_type. rewrite Hwf.
    destruct (data msg) as [| | | | | | | | | | | | |c|] eqn:Ed; cbn [tag_of] in *; try done; try by apply Hh.
    all: try (unfold is_command; by rewrite Ed).
    + destruct (dis_ok nb w s O) as (w' & Ew & A'). by rewrite Ew.
    + unfold OekMsg_get_get_cmd. rewrite Hwf, bool_decide_true by done. rewrite Ed. cbn [c_assert mbind option_bind].
      by apply Hh.
Qed.

Lemma appl_open nb w s p :
  open_session nb w s → p ≠ Freed →
  open_session nb (upd_session (λ y, OeSession_set_appl_context y p) w) (OeSession_set_appl_context s p).
Proof.
  intros (E & H & C) Hp. pose proof (wk_sess nb w H) as Hs. rewrite E in Hs.
  split_and!; [cbn; by rewrite E| |done]. apply (world_ok_upd nb w s); [done|done|].
  destruct Hs. by split.
Qed.

(** A reading error: the context is freed and still pointed to, but the
    session is closing. *)
Lemma parse_error_ok nb w s :
  open_session nb w s →
  ∃ w', (w ← _send_err OEP_ERR_CAN_NOT_PARSE 0 w;
         _orderly_cleanup_conn (upd_session (λ s, OeSession_set_appl_context s Freed) w)) = Some w' ∧ world_ok nb w'.
Proof.
  intros (E & H & C). pose proof (wk_sess nb w H) as Hs. rewrite E in Hs.
  destruct (send_err_ok OEP_ERR_CAN_NOT_PARSE 0 w s E) as (w1 & E1 & S1). rewrite E1. cbn [mbind option_bind].
  pose proof (world_ok_same nb w w1 S1 H) as H1. assert (session w1 = Some s) as Es1 by by rewrite (proj1 S1).
  unfold _orderly_cleanup_conn. cbn [upd_session session]. rewrite Es1. cbn [fmap option_fmap option_map mbind option_bind].
  eexists. split; [done|]. destruct H1 as [G T S]. rewrite Es1 in S. split; cbn; [done|done|].
  pose proof (sess_closing _ _ _ _ S) as S'. set (z := set_close_cb _) in S'.
  assert (closing z = true) as Cz by apply (closing_flags s).
  rewrite Es1. cbn [fmap option_fmap option_map].
  change (sess_ok nb (running w1) (answered w1) (OeSession_set_appl_context z Freed)).
  destruct S'. by split.
Qed.

Lemma read_events_ok nb reads w s :
  session w = Some s → world_ok nb w → Forall (read_ok nb) reads →
  Z.of_nat (length (running w) + length reads) < 2 ^ 31 →
  okf nb (dangling w ∨ reads_response nb (E_read reads) w) (_buffered_on_read server st version reads w).
Proof.
  revert w s. induction reads as [|r reads IH]; intros w s E H Hr Hb; cbn [_buffered_on_read]; rewrite E;
    cbn [mbind option_bind]; fold (closing s) (connected s); destruct (closing s) eqn:C;
    try (by eapply okf_weaken; [left|apply (cleanup_fr nb w s)]); [done|].
  apply Forall_cons_1 in Hr as [Hr Hrs].
  assert (∃ p, match appl_context s with Null => Some (Live None) | Live m => Some (Live m) | Freed => None end = Some p ∧
    p ≠ Freed) as (p & Ea & Hp).
  { pose proof (wk_sess nb w H) as Hs. rewrite E in Hs. destruct (appl_context s) eqn:Ea; [by eexists..|].
    pose proof (sk_appl _ _ _ _ Hs Ea). congruence. }
  rewrite Ea. cbn [mbind option_bind]. pose proof (appl_open nb w s p (conj E (conj H C)) Hp) as O1.
  set (w1 := upd_session _ w) in *. set (s1 := OeSession_set_appl_context s p) in *.
  destruct (Z.ltb_spec (r_rc r) 0) as [Hlt|Hge].
  { destruct (parse_error_ok nb w1 s1 O1) as (w' & Ew & H'). unfold okf. by rewrite Ew. }
  destruct (Z.eqb_spec (r_rc r) 0) as [Hz|Hnz].
  { apply (appl_open nb w1 s1 (Live (r_msg r)) O1). done. }
  destruct (Hr ltac:(lia)) as (msg & Em & Hc & Hnb). rewrite Em. cbn [mbind option_bind].
  pose proof (appl_open nb w1 s1 Null O1 ltac:(done)) as O2. set (w2 := upd_session _ w1) in *.
  set (s2 := OeSession_set_appl_context s1 Null) in *.
  assert (running w2 = running w) as R2 by done.
  assert (∀ w' s', session w' = Some s' → world_ok nb w' → okf nb (dangling w ∨ reads_response nb (E_read (r :: reads)) w) (_orderly_cleanup_conn w')) as Hcl.
  { intros w' s' E' H'. destruct (orderly_ok nb w' s' E' H') as (w'' & E'' & H'' & _). unfold okf. by rewrite E''. }
  destruct (negb (connected s) && negb (bool_decide (OekMsg_get_type msg = CON_CMD))) eqn:Eg.
  { destruct (send_err_ok OEP_ERR_NOT_CONNECTED (OekMsg_get_cid msg) w2 s2 (proj1 O2)) as (w3 & E3 & S3). rewrite E3.
    apply (Hcl w3 s2); [rewrite (proj1 S3); apply O2|]. apply (world_ok_same nb w2); [done|apply O2]. }
  assert (connected s2 = true ∨ mtype msg = CON_CMD) as Hcon.
  { change (connected s2) with (connected s). destruct (connected s); [by left|right]. cbn in Eg.
    by case_bool_decide. }
  assert (Z.of_nat (length (running w2)) + 1 < 2 ^ 31) as Hb2. { rewrite R2. cbn [length] in Hb. lia. }
  pose proof (invoke_ok nb (r_now r) msg w2 s2 O2 Hc Hb2 Hnb Hcon) as Hi.
  destruct (_invoke_msg_handler server st version (r_now r) msg w2) as [[b w3]|] eqn:E3; cbn [mbind option_bind].
  2: { right. destruct Hi as (? & ? & ?). exists (r :: reads), r, msg, w, s. split_and!; try done. by left. }
  destruct Hi as (s3 & Es3 & H3 & F3 & R3 & _). destruct b; cbn [negb]; [|by apply (Hcl w3 s3)].
  destruct reads as [|r' reads]; [done|].
  assert (sstep nb w w3) as Hstep.
  { exists (E_read [r]). split.
    - split; [by exists s|]. split; [|cbn [length] in *; lia]. by constructor; [|constructor].
    - cbn [step _buffered_on_read]. rewrite E. cbn [mbind option_bind]. fold (closing s) (connected s). rewrite C, Ea.
      cbn [mbind option_bind]. fold w1. rewrite (proj2 (Z.ltb_ge _ _)) by done. rewrite (proj2 (Z.eqb_neq _ _)) by done.
      rewrite Em. cbn [mbind option_bind]. fold w2. by rewrite Eg, E3. }
  eapply okf_weaken; [|apply (IH w3 s3); try done; rewrite R2 in R3; cbn [length] in *; lia].
  intros [(s4 & E4 & F4)|(rs & r0 & m0 & w4 & s4 & [= <-] & Hin & Em0 & Hr0 & Hs0)]; [congruence|].
  right. exists (r :: r' :: reads), r0, m0, w4, s4. split_and!; try done; [by right|by eapply rtc_l|apply Hs0..].
Qed.

(** A response that is let through *)
Lemma response_stops w s now rc m reads :
  0 < rc → session w = Some s → msg_wf m → let_through s m →
  _buffered_on_read server st version (mkRead now rc (Some m) :: reads) w = None.
Proof.
  intros Hrc E Hwf (C & D & Hm & Hr). cbn [_buffered_on_read r_rc r_msg r_now]. rewrite E. cbn [mbind option_bind].
  fold (closing s) (connected s). rewrite C, D. destruct (appl_context s) as [|x|]; [| |done]; cbn [mbind option_bind negb andb];
    (rewrite (proj2 (Z.ltb_ge _ _)) by lia; rewrite (proj2 (Z.eqb_neq _ _)) by lia);
    unfold _invoke_msg_handler; cbn [upd_session session]; rewrite E; cbn [fmap option_fmap option_map mbind option_bind];
    match goal with |- context [refuse server st m ?x] => change (refuse server st m x) with (refuse server st m s) end;
    rewrite Hr; cbn [mbind option_bind]; unfold OekMsg_get_type, msg_wf, is_command in *; rewrite Hwf; by destruct (data m).
Qed.

Lemma timeout_ok nb w s :
  session w = Some s → world_ok nb w → ∃ w', _con_timeout_cb w = Some w' ∧ world_ok nb w'.
Proof.
  intros E H. pose proof (wk_sess nb w H) as Hs. rewrite E in Hs. unfold _con_timeout_cb. rewrite E. cbn [mbind option_bind].
  assert (world_ok nb (upd_session (λ y, set_timeout y false) w)) as H1.
  { apply (world_ok_upd nb w s); [done|done|]. destruct Hs. by split. }
  case_match; [by eexists|]. cbn [OekMsg_new OekMsg_settype mbind option_bind]. unfold OekMsg_get_err. cbn [mtype data].
  rewrite bool_decide_true by done. cbn [c_assert mbind option_bind].
  assert (session (upd_session (λ y, set_timeout y false) w) = Some (set_timeout s false)) as E1 by (cbn; by rewrite E).
  match goal with |- context [write_fun ?x ?m] => destruct (write_ok x m _ E1) as (w2 & E2 & S2) end.
  rewrite E2. cbn [mbind option_bind].
  destruct (orderly_ok nb w2 (set_timeout s false)) as (w3 & E3 & H3 & _);
    [by rewrite (proj1 S2)|by eapply world_ok_same|]. by exists w3.
Qed.

(** *** Answers *)

Lemma open_after_nonzero open c : 0 ∉ open → answer_ok c → 0 ∉ open_after open c.
Proof.
  intros Ho Ha. unfold open_after. destruct (res_msgs c) as [[|m l]|] eqn:Er; [done| |done].
  destruct (Ha m l Er) as [Hwf Ht]. unfold msg_wf in Hwf. destruct (data m) eqn:Ed; try done; cbn in Hwf.
  - specialize (Ht (or_introl Hwf)). set_solver.
  - case_match; set_solver.
Qed.

(** The state after [_update_pending_txns] and the counting down. *)
Definition answered_state (nb : bool) (n : nat) (c : OEK_Context) (w w1 : world) : Prop :=
  ∃ s s1, session w = Some s ∧ session w1 = Some s1 ∧ world_ok nb w1 ∧ running w1 = delete n (running w) ∧
    answered w1 = answered w ++ [c] ∧ commands w1 = commands w ∧ rollbacks w1 = rollbacks w ∧
    state s1 = state s ∧ sess_context s1 = sess_context s ∧ rb_on_dis s1 = rb_on_dis s ∧ close_cb s1 = close_cb s ∧
    conn_timeout s1 = conn_timeout s ∧
    (pending_txns s1 = Freed ↔ pending_txns s = Freed).

Lemma answer_state nb n c w :
  world_ok nb w → is_Some (running w !! n) → answer_ok c →
  match _update_pending_txns c (take_answer n c w) with
  | Some w1 => answered_state nb n c w (upd_session OeSession_decr_task_count w1)
  | None => dangling w
  end.
Proof.
  intros [G T Hs] [c0 Hn] Ha. destruct (session w) as [s|] eqn:E.
  2: { by rewrite Hs in Hn. }
  assert (is_Some (running w !! n)) as Hn' by eauto. apply lookup_lt_is_Some in Hn'.
  assert (length (delete n (running w)) = length (running w) - 1)%nat as Hl by by rewrite length_delete by eauto.
  assert (session (take_answer n c w) = Some s) as E0 by done.
  pose proof (update_pending_ok c (take_answer n c w) s (open_txns (answered w)) E0 (sk_pend _ _ _ _ Hs) Ha) as U.
  destruct (_update_pending_txns c (take_answer n c w)) as [w1|]; [|by exists s].
  destruct U as (s' & -> & p & -> & Hp & Hf).
  exists s, (OeSession_decr_task_count (set_pending s p)). split_and!; try done; try by (cbn; rewrite E).
  split; cbn; [done| |].
  - rewrite open_txns_snoc. by apply open_after_nonzero.
  - rewrite E. destruct Hs. split; try done.
    + cbn. rewrite sk_tasks0, Hl. rewrite wraps_id by (unfold in_s; lia). lia.
    + lia.
    + unfold pending_is in Hp |- *. by rewrite open_txns_snoc.
    + intros Hpf. cbn in Hpf. rewrite Hpf in Hf. apply sk_freed0, Hf. done.
    + intros Hc. destruct (sk_idle0 Hc) as [Hr _]. by rewrite Hr in Hn.
Qed.

Lemma response_ok nb n c w :
  world_ok nb w → is_Some (running w !! n) → answer_ok c →
  okf nb (dangling w) (_write_to_client_cb c (take_answer n c w)).
Proof.
  intros H Hn Ha. pose proof (answer_state nb n c w H Hn Ha) as A. unfold _write_to_client_cb.
  destruct (_update_pending_txns c (take_answer n c w)) as [w0|]; [|done]. cbn [mbind option_bind].
  set (w1 := upd_session OeSession_decr_task_count w0) in *.
  destruct A as (s & s1 & E & E1 & H1 & R1 & A1 & _ & _ & Hst1 & Hk & Hrb & _ & _ & Hf). rewrite E1. cbn [mbind option_bind].
  fold (connected s1). destruct (same_state s1 s Hst1) as [Hc1 Hd1].
  assert (sess_context s ≠ None) as Hks.
  { pose proof (wk_sess nb w H) as Hs. rewrite E in Hs. intros Ek. destruct (sk_idle _ _ _ _ Hs Ek) as [Hr _].
    rewrite Hr in Hn. by destruct Hn. }
  assert (∀ w', (∃ s', session w' = Some s') → world_ok nb w' → okf nb (dangling w) (_orderly_cleanup_conn w')) as Hcl.
  { intros w' [s' E'] H'. destruct (orderly_ok nb w' s' E' H') as (w'' & E'' & H'' & _). unfold okf. by rewrite E''. }
  destruct (connected s1) eqn:D.
  - rewrite andb_false_r. cbn [negb]. destruct (err_msg c) as [m|].
    + destruct (write_ok w1 m s1 E1) as (w2 & E2 & S2). rewrite E2. apply Hcl; [|by eapply world_ok_same].
      exists s1. by rewrite (proj1 S2).
    + destruct (write_all_ok (default [] (res_msgs c)) w1 s1 E1) as (w2 & E2 & S2). rewrite E2.
      by apply (world_ok_same nb w1 w2 S2).
  - cbn [negb andb]. rewrite andb_true_r. destruct (outstanding_task_count s1 =? 0); [|done].
    assert (closing s1 = true) as Cl.
    { destruct (closing s1) eqn:C1; [done|]. pose proof (wk_sess nb w H) as Hs. rewrite E in Hs.
      destruct Hks. apply (sk_unconn _ _ _ _ Hs); congruence. }
    pose proof (rollback_ok nb w1 s1 E1 H1 Cl) as R. destruct (_rollback_transactions w1) as [w2|]; cbn [mbind option_bind].
    + destruct R as [H2 R]. apply Hcl; [|done]. destruct R as [[-> _]|(? & ? & _ & _ & _ & ->)]; eauto.
    + exists s. split; [done|]. by apply Hf.
Qed.

(** Every allowed event keeps the invariant, and is carried out unless the
    session's transactions dangle or it reads a response. *)
Lemma session_step_ok nb e w :
  world_ok nb w → allowed nb e w → okf nb (dangling w ∨ reads_response nb e w) (step e w).
Proof.
  intros H Ha. assert (okf nb (dangling w) (step e w) → okf nb (dangling w ∨ reads_response nb e w) (step e w)) as Hw.
  { apply okf_weaken. by left. } destruct e as [reads|b| | |n c]; cbn [step allowed] in *.
  - destruct Ha as ([s E] & Hr & Hb). by apply (read_events_ok nb reads w s).
  - apply Hw. unfold _buffered_on_error_cb. destruct b; [done|]. by apply cleanup_conn_fr.
  - apply Hw. destruct Ha as (s & E & _). apply cleanup_conn_fr; [|done]. by exists s.
  - destruct Ha as (s & E & _). destruct (timeout_ok nb w s E H) as (w' & Ew & H'). unfold okf. by rewrite Ew.
  - apply Hw. destruct Ha as [Hn Ha]. by apply response_ok.
Qed.

Lemma new_ok nb i ids : world_ok nb (_listen_for_bytes i ids).
Proof. split; cbn; [constructor|set_solver|]. by split. Qed.

Lemma session_steps_ok nb w w' : rtc (sstep nb) w w' → world_ok nb w → world_ok nb w'.
Proof.
  induction 1 as [w|w w1 w2 (e & Ha & E) _ IH]; [done|]. intros H. apply IH.
  pose proof (session_step_ok nb e w H Ha) as O. unfold okf in O. by rewrite E in O.
Qed.

Lemma not_dangling w : world_ok true w → ¬ dangling w.
Proof.
  intros H (s & E & Hf). pose proof (wk_sess true w H) as Hs. rewrite E in Hs.
  destruct (sk_freed _ _ _ _ Hs Hf) as [_ Hr]. by rewrite (sk_rb _ _ _ _ Hs eq_refl) in Hr.
Qed.

(** ** Draining a session that has lost its connection *)

Fixpoint run_events (es : list event) (w : world) : option world :=
  match es with
  | [] => Some w
  | e :: es => w ← step e w; run_events es w
  end.

Lemma response_closed n c w s :
  world_ok true w → session w = Some s → closing s = true → connected s = false →
  is_Some (running w !! n) → answer_ok c →
  ∃ w' s', _write_to_client_cb c (take_answer n c w) = Some w' ∧ session w' = Some s' ∧ world_ok true w' ∧
    closing s' = true ∧ connected s' = false ∧ running w' = delete n (running w) ∧
    (running w' = [] → close_cb s' = true).
Proof.
  intros H E C D Hn Ha. pose proof (answer_state true n c w H Hn Ha) as A. unfold _write_to_client_cb.
  destruct (_update_pending_txns c (take_answer n c w)) as [w0|]; [|by destruct (not_dangling w H)].
  cbn [mbind option_bind]. set (w1 := upd_session OeSession_decr_task_count w0) in *.
  destruct A as (s0 & s1 & E0 & E1 & H1 & R1 & A1 & _ & _ & Hst1 & _ & Hrb & _). rewrite E in E0. injection E0 as <-.
  rewrite E1. cbn [mbind option_bind]. fold (connected s1). destruct (same_state s1 s Hst1) as [Hc1 Hd1].
  rewrite Hd1, D. cbn [negb]. rewrite andb_true_r. pose proof (wk_sess true w1 H1) as Hs1. rewrite E1 in Hs1.
  rewrite (sk_tasks _ _ _ _ Hs1). destruct (Z.eqb_spec (Z.of_nat (length (running w1))) 0) as [Hz|Hnz].
  - unfold _rollback_transactions. rewrite E1. cbn [mbind option_bind]. rewrite (sk_rb _ _ _ _ Hs1 eq_refl).
    cbn [negb mbind option_bind]. destruct (orderly_ok true w1 s1 E1 H1) as (w2 & E2 & H2 & Ew). rewrite E2.
    exists w2, (set_close_cb (OeSession_state_set s1 OENET_CLIENT_CLOSING)).
    destruct (closing_flags s1) as (F1 & _). destruct (connected_flags s1) as (G1 & _).
    subst w2. split_and!; try done; [unfold upd_session at 1; cbn [session]; by rewrite E1|].
    change (connected (OeSession_state_set s1 OENET_CLIENT_CLOSING) = false). by rewrite G1, Hd1.
  - exists w1, s1. split_and!; try done; try congruence. intros Hr. by rewrite Hr in Hnz.
Qed.

(** The schedule [l] answers every running command, in some order. *)
Definition answers_all (l : list (nat * OEK_Context)) (w : world) : Prop :=
  length l = length (running w) ∧
  ∀ j n c, l !! j = Some (n, c) → (n < length l - j)%nat ∧ answer_ok c.

Lemma drain l w s :
  world_ok true w → session w = Some s → closing s = true → connected s = false →
  (l = [] → close_cb s = true) → answers_all l w →
  ∃ w' s', run_events ((λ p, E_response p.1 p.2) <$> l) w = Some w' ∧ session w' = Some s' ∧ world_ok true w' ∧
    running w' = [] ∧ close_cb s' = true.
Proof.
  revert w s. induction l as [|[n c] l IH]; intros w s H E C D Hcl [Hl Hj]; cbn [fmap list_fmap run_events].
  - exists w, s. cbn in Hl. split_and!; try done; [by destruct (running w)|by apply Hcl].
  - destruct (Hj 0%nat n c eq_refl) as [Hn Ha]. cbn [length] in Hl, Hn.
    assert (is_Some (running w !! n)) as Hr by (apply lookup_lt_is_Some; lia).
    destruct (response_closed n c w s H E C D Hr Ha) as (w1 & s1 & E1 & Es1 & H1 & C1 & D1 & R1 & Hc1).
    cbn [step fst snd]. rewrite E1. cbn [mbind option_bind].
    assert (length (running w1) = length l) as Hl1.
    { rewrite R1, length_delete by done. lia. }
    apply (IH w1 s1); try done.
    + intros ->. apply Hc1. by destruct (running w1).
    + split; [done|]. intros j n' c' Hj'. destruct (Hj (S j) n' c' Hj') as [Hn' Ha']. cbn [length] in Hn'. split; [lia|done].
Qed.

(** ** Theorems *)

(** C28  Commands are guarded.  In every run of a session, whatever its client
    sends in whatever portions and however the kernel answers: each command a
    kernel is handed comes from a subject that connected to an extent of this
    server, goes to that extent's kernel, and, where the server has login
    modules, was authenticated and allowed by one of its privileges. *)
Theorem commands_guarded i ids w h :
  rtc (sstep false) (_listen_for_bytes i ids) w → h ∈ commands w → guarded h.
Proof.
  intros Hr Hh. pose proof (wk_guard false w (session_steps_ok false _ w Hr (new_ok false i ids))) as G.
  rewrite list.Forall_forall in G. by apply G.
Qed.

(** C29  Sessions are memory safe, as long as no client asks for rollback on
    disconnect.  Every event that can happen to a session in any state it
    reaches is carried out: no freed session, transaction set or read context
    is used and no assertion fails, with one exception.  The exception is the
    reading of a message that is no command, in a connected session and with
    nothing that refuses it; and such a message, when it is the first that is
    read, always fails the assertion of [_invoke_msg_handler].  In every state
    the task count is the number of commands not answered, the pending set
    holds the transactions that were started and not ended, and a freed session
    has no command running. *)
Theorem session_safe i ids w e :
  rtc (sstep true) (_listen_for_bytes i ids) w → allowed true e w →
  (step e w = None → reads_response true e w) ∧
  (∀ s now rc m reads, e = E_read (mkRead now rc (Some m) :: reads) → 0 < rc →
     session w = Some s → let_through s m → step e w = None) ∧
  match session w with
  | Some s => outstanding_task_count s = Z.of_nat (length (running w)) ∧ pending_is s (open_txns (answered w))
  | None => running w = []
  end.
Proof.
  intros Hr Ha. pose proof (session_steps_ok true _ w Hr (new_ok true i ids)) as H.
  pose proof (wk_sess true w H) as Hs. split_and!.
  - pose proof (session_step_ok true e w H Ha) as O. unfold okf in O. intros E. rewrite E in O.
    destruct O as [O|O]; [by destruct (not_dangling w H)|done].
  - intros s now rc m reads -> Hrc E Hm. cbn [allowed] in Ha. destruct Ha as (_ & [Hok _]%Forall_cons_1 & _).
    destruct (Hok Hrc) as (m' & [= <-] & Hwf & _). by apply (response_stops w s).
  - destruct (session w); [|done]. split; apply Hs.
Qed.

(** C30  Rollback on disconnect.  The connection of a client that asked for
    it breaks while no command runs.  As long as the session has not yet rolled
    its transactions back, the kernel the client is connected to is asked to
    roll back exactly the transactions that were started and not ended, each
    once, and the session is freed.  When it has -- because the answer to the
    last command came after the client had gone -- the freed set of
    transactions is used ([rollback_uses_freed] is a run to such a state). *)
Theorem rollback_on_disconnect i ids w s :
  rtc (sstep false) (_listen_for_bytes i ids) w →
  session w = Some s → rb_on_dis s = true → running w = [] →
  match pending_txns s with
  | Freed => step (E_error false) w = None
  | _ =>
    ∃ w' l, step (E_error false) w = Some w' ∧ session w' = None ∧ l ≡ₚ elements (open_txns (answered w)) ∧
      (l = [] ∧ rollbacks w' = rollbacks w ∨
       ∃ k, sess_context s = Some k ∧ rollbacks w' = rollbacks w ++ ((λ t, (k, t)) <$> l))
  end.
Proof.
  intros Hr E Hrb Hrun. pose proof (session_steps_ok false _ w Hr (new_ok false i ids)) as H.
  pose proof (wk_sess false w H) as Hs. rewrite E in Hs. pose proof (sk_pend _ _ _ _ Hs) as Hp. unfold pending_is in Hp.
  pose proof (cleanup_conn_idle false w s E H Hrun) as C.
  cbn [step _buffered_on_error_cb].
  destruct (_cleanup_conn w) as [w'|]; [|by rewrite C]. destruct C as (_ & En & _ & _ & ids' & w1 & R & Er).
  destruct R as [[-> [Hn|Hn]]|(set & k & _ & Hset & Hk & ->)].
  - change (rb_on_dis s = false) in Hn. congruence.
  - change (pending_txns s = Null) in Hn. rewrite Hn in *. exists w', []. split_and!; [done|done| |by left].
    by rewrite Hp, elements_empty.
  - change (pending_txns s = Live set) in Hset. change (sess_context s = Some k) in Hk. rewrite Hset in *.
    destruct Hp as [W Hd]. exists w', (kcls <$> HSet.Set_toArray set). split_and!; [done|done| |].
    + rewrite <-Hd. by apply HSet.toArray_elements.
    + right. exists k. split; [done|]. rewrite Er. cbn [rollbacks]. by rewrite <-list_fmap_compose.
Qed.

(** C31  Sessions are released, as long as no client asked for rollback on
    disconnect; when one did, the same events can use freed memory
    ([rollback_uses_freed]).  From every state such a session reaches, when its
    connection breaks and the commands still running are answered, in any
    order, the session is freed: at once when none is running, and otherwise
    when the connection next reports that all is written. *)
Theorem session_released i ids w s l :
  rtc (sstep true) (_listen_for_bytes i ids) w → session w = Some s → answers_all l w →
  ∃ w', run_events (E_error false :: ((λ p, E_response p.1 p.2) <$> l)) w = Some w' ∧
    (l = [] ∧ session w' = None ∨
     l ≠ [] ∧ allowed true E_writable w' ∧ ∃ w'', step E_writable w' = Some w'' ∧ session w'' = None).
Proof.
  intros Hr E Hl. pose proof (session_steps_ok true _ w Hr (new_ok true i ids)) as H.
  cbn [run_events step _buffered_on_error_cb]. destruct (decide (l = [])) as [->|Hne].
  - assert (running w = []) as Hrun by (destruct Hl as [Hl _]; by destruct (running w)).
    pose proof (cleanup_conn_idle true w s E H Hrun) as C. destruct (_cleanup_conn w) as [w'|].
    + exists w'. split; [done|]. left. split; [done|apply C].
    + destruct (not_dangling w H). by exists s.
  - assert (running w ≠ []) as Hrun.
    { destruct Hl as [Hl _]. intros Hn. rewrite Hn in Hl. by destruct l. }
    destruct (cleanup_conn_busy true w s E H Hrun) as [-> H1]. cbn [mbind option_bind].
    destruct (closed_flags s) as [C D].
    destruct (drain l (upd_session closed_session w) (closed_session s)) as (w' & s' & Ew & E' & H' & R' & Hc');
      [done|by cbn; rewrite E|done|done|done|done|].
    exists w'. split; [done|]. right. split; [done|]. split; [by exists s'|].
    pose proof (cleanup_conn_idle true w' s' E' H' R') as X. unfold step, _buffered_close_on_writeable.
    destruct (_cleanup_conn w') as [w''|]; [|destruct (not_dangling w' H'); by exists s'].
    exists w''. split; [done|apply X].
Qed.
End Spec.

(** ** Runs of two servers *)

(** One without login modules, and one with the accounts of [demo_sec]; both
    serve the extent "extent". *)
Definition open_server : OepServer :=
  default (mkServer (ArenaTable.mkTable 1 0 0 []) None)
    (v ← OepServer_new; OepServer_add_kernel v "extent" 1).
Definition closed_server : OepServer :=
  OepServer_add_login_module open_server (mkLogin 1 _login).

Definition con_msg (flags : Z) : OekMsg :=
  mkOekMsg CON_CMD 1 0 true (D_con_cmd (mkConCmd (0, 0, 0) (Some "extent") (Some "alice") (Some "secret") flags)).
Definition sta_msg : OekMsg := mkOekMsg STA_CMD 2 0 true (D_sta_cmd StaCmd_new).
Definition get_msg : OekMsg := mkOekMsg GET_CMD 3 0 true (D_get_cmd GetCmd_new).
Definition got (m : OekMsg) : event := E_read [mkRead 1000 1 (Some m)].
Definition sta_answer : OEK_Context :=
  mkContext 0 sta_msg true (Some [mkOekMsg STA_RES 2 7 true (D_sta_res StaRes_new)]) None.
Definition get_answer : OEK_Context := mkContext 1000 get_msg true None None.

Definition net_ids : id_set := HSet.mkSet 1 0 0 [[]].
Definition demo_world : world := _listen_for_bytes 9 net_ids.

Section Demo.
Context (server : OepServer) (nb : bool).

Definition is_step (e : event) (w : world) : bool :=
  match step server demo_sec (0, 1, 0) e w with Some _ => true | None => false end.
Definition next (e : event) (w : world) : world := default w (step server demo_sec (0, 1, 0) e w).

Lemma next_step e w : allowed nb e w → is_step e w = true → sstep server demo_sec (0, 1, 0) nb w (next e w).
Proof.
  intros Ha H. exists e. split; [done|]. unfold is_step in H. unfold next.
  by destruct (step server demo_sec (0, 1, 0) e w).
Qed.

Lemma got_allowed m w :
  match session w with Some _ => true | None => false end = true → Z.of_nat (length (running w) + 1) < 2 ^ 31 →
  msg_wf m → (nb = true → ∀ c, data m = D_con_cmd c → ConCmd_rollback_on_disconnect c = false) →
  allowed nb (got m) w.
Proof.
  intros Hs Hb Hm Hn. split; [by destruct (session w); [eexists|]|]. split; [|done].
  constructor; [|constructor]. intros _. by exists m.
Qed.
End Demo.

(** A client without rollback connects and sends two commands. *)
Definition safe_1 : world := next closed_server (got (con_msg 0)) demo_world.
Definition safe_2 : world := next closed_server (got get_msg) safe_1.

Lemma safe_run : rtc (sstep closed_server demo_sec (0, 1, 0) true) demo_world safe_2.
Proof.
  eapply rtc_l; [apply (next_step closed_server true (got (con_msg 0)))|apply rtc_once, (next_step closed_server true (got get_msg))].
  - apply got_allowed; [done|cbn; lia|done|]. intros _ c [= <-]. done.
  - vm_compute. reflexivity.
  - apply got_allowed; [vm_compute; reflexivity|vm_compute; reflexivity|done|done].
  - vm_compute. reflexivity.
Qed.

Lemma closed_mods c : security_context closed_server = Some c → Forall (built_in demo_sec) (modules c).
Proof. intros [= <-]. exact demo_built_in. Qed.

Lemma session_safe_witness :
  is_Some (step closed_server demo_sec (0, 1, 0) (E_response 0 get_answer) safe_2).
Proof.
  destruct demo_sec_ok as (H & Hc & _).
  destruct (session_safe closed_server demo_sec (0, 1, 0) H Hc closed_mods 9 net_ids safe_2 (E_response 0 get_answer))
    as (Hn & _).
  - exact safe_run.
  - split; [vm_compute; by eexists|by intros m l].
  - destruct (step _ _ _ _ _); [by eexists|]. by destruct (Hn eq_refl) as (? & ? & ? & ? & ? & ? & _).
Defined.

Lemma session_released_witness :
  ∃ w', run_events closed_server demo_sec (0, 1, 0) [E_error false; E_response 0 get_answer] safe_2 = Some w' ∧
    ∃ w'', step closed_server demo_sec (0, 1, 0) E_writable w' = Some w'' ∧ session w'' = None.
Proof.
  destruct demo_sec_ok as (H & Hc & _). assert (is_Some (session safe_2)) as [s E] by (vm_compute; by eexists).
  destruct (session_released closed_server demo_sec (0, 1, 0) H Hc closed_mods 9 net_ids safe_2 s [(0%nat, get_answer)])
    as (w' & Ew & [[? _]|(_ & _ & Hw)]).
  - exact safe_run.
  - exact E.
  - split; [vm_compute; reflexivity|]. intros [|j] n c; [|done]. intros [= <- <-]. split; [cbn; lia|by intros m l].
  - done.
  - exists w'. split; [exact Ew|exact Hw].
Defined.

(** A client with rollback on disconnect starts a transaction. *)
Definition roll_1 : world := next open_server (got (con_msg 1)) demo_world.
Definition roll_2 : world := next open_server (got sta_msg) roll_1.
Definition roll_3 : world := next open_server (E_response 0 sta_answer) roll_2.

Lemma sta_answer_ok : answer_ok sta_answer.
Proof. intros m l [= <- <-]. done. Qed.

Lemma roll_run : rtc (sstep open_server demo_sec (0, 1, 0) false) demo_world roll_3.
Proof.
  eapply rtc_l; [apply (next_step open_server false (got (con_msg 1)))|
    eapply rtc_l; [apply (next_step open_server false (got sta_msg))|
      apply rtc_once, (next_step open_server false (E_response 0 sta_answer))]].
  - apply got_allowed; [done|cbn; lia|done|done].
  - vm_compute. reflexivity.
  - apply got_allowed; [vm_compute; reflexivity|vm_compute; reflexivity|done|done].
  - vm_compute. reflexivity.
  - split; [vm_compute; by eexists|exact sta_answer_ok].
  - vm_compute. reflexivity.
Qed.

Lemma open_mods c : security_context open_server = Some c → Forall (built_in demo_sec) (modules c).
Proof. done. Qed.

Lemma rollback_on_disconnect_witness :
  ∃ w', step open_server demo_sec (0, 1, 0) (E_error false) roll_3 = Some w' ∧ session w' = None ∧
    rollbacks w' = [(1, 7)].
Proof.
  destruct demo_sec_ok as (H & Hc & _). assert (is_Some (session roll_3)) as [s E] by (vm_compute; by eexists).
  assert (rb_on_dis <$> session roll_3 = Some true) as Hrb by (vm_compute; reflexivity).
  rewrite E in Hrb. injection Hrb as Hrb.
  assert (running roll_3 = []) as Hrun by (vm_compute; reflexivity).
  pose proof (rollback_on_disconnect open_server demo_sec (0, 1, 0) H Hc open_mods 9 net_ids roll_3 s roll_run E Hrb Hrun) as R.
  assert (match session roll_3 with Some s => match pending_txns s with Freed => true | _ => false end | None => true end = false) as X
    by (vm_compute; reflexivity). rewrite E in X.
  assert (∃ w', step open_server demo_sec (0, 1, 0) (E_error false) roll_3 = Some w' ∧ session w' = None) as (w' & Ew & En).
  { destruct (pending_txns s); [| |discriminate X]; destruct R as (w' & l & Ew & En & _); exists w'; exact (conj Ew En). }
  exists w'. split; [exact Ew|]. split; [exact En|].
  assert (rollbacks <$> step open_server demo_sec (0, 1, 0) (E_error false) roll_3 = Some [(1, 7)]) as Y by (vm_compute; reflexivity).
  rewrite Ew in Y. by injection Y.
Defined.

Lemma commands_guarded_witness :
  length (commands safe_2) = 1%nat ∧ ∀ h, h ∈ commands safe_2 → guarded closed_server demo_sec h.
Proof.
  destruct demo_sec_ok as (H & Hc & _). split; [vm_compute; reflexivity|]. intros h Hh.
  apply (commands_guarded closed_server demo_sec (0, 1, 0) H Hc closed_mods 9 net_ids safe_2).
  - eapply rtc_l; [apply (next_step closed_server false (got (con_msg 0)))|apply rtc_once, (next_step closed_server false (got get_msg))].
    + apply got_allowed; [done|cbn; lia|done|done].
    + vm_compute. reflexivity.
    + apply got_allowed; [vm_compute; reflexivity|vm_compute; reflexivity|done|done].
    + vm_compute. reflexivity.
  - exact Hh.
Defined.

(** ** Where sessions fail *)

(** The connection breaks while a get runs; its answer rolls the transaction
    back and frees the set, and closing the connection reads it again. *)
Definition broken_1 : world := next open_server (got get_msg) roll_3.
Definition broken_2 : world := next open_server (E_error false) broken_1.
Definition broken_3 : world := next open_server (E_response 0 get_answer) broken_2.

(** Rollback on disconnect uses freed memory: when the connection of a
    client with an open transaction breaks while a command runs, the answer to
    the command frees the set of transactions, and the closing of the
    connection that follows reads it. *)
Theorem rollback_uses_freed :
  rtc (sstep open_server demo_sec (0, 1, 0) false) demo_world broken_3 ∧
  allowed false E_writable broken_3 ∧ step open_server demo_sec (0, 1, 0) E_writable broken_3 = None.
Proof.
  split_and!.
  - etrans; [exact roll_run|].
    eapply rtc_l; [apply (next_step open_server false (got get_msg))|
      eapply rtc_l; [apply (next_step open_server false (E_error false))|
        apply rtc_once, (next_step open_server false (E_response 0 get_answer))]].
    + apply got_allowed; [vm_compute; reflexivity|vm_compute; reflexivity|done|done].
    + vm_compute. reflexivity.
    + vm_compute. by eexists.
    + vm_compute. reflexivity.
    + split; [vm_compute; by eexists|by intros m l].
    + vm_compute. reflexivity.
  - vm_compute. eexists. split; [reflexivity|reflexivity].
  - vm_compute. reflexivity.
Qed.

(** A client can stop the server: a response sent by a connected client,
    which the readers accept, fails an assertion. *)
Theorem response_aborts_server :
  is_Some (step open_server demo_sec (0, 1, 0) (got (con_msg 0)) demo_world ≫= λ w, session w) ∧
  (step open_server demo_sec (0, 1, 0) (got (con_msg 0)) demo_world ≫=
   step open_server demo_sec (0, 1, 0) (got (mkOekMsg PUT_RES 2 0 true (D_put_res PutRes_new)))) = None.
Proof. split; [vm_compute; by eexists|vm_compute; reflexivity]. Qed.
