(* ===== verification/Base64.v ===== *)
(** * Base64: the encoding of item bytes in the JSON protocol

    Models [src/corelib/modp_b64.c] as it is built for little-endian machines
    with padding, and the tables and length macros of [modp_b64_data.h] and
    [modp_b64.h].  Source, tables and destination are lists of bytes of the
    allocated size; a read or a store outside one is [None].  Unaligned
    32-bit accesses, which the decoder makes, work as they do on x86. *)

From stdpp Require Import list_numbers.
From S2P Require Import Prelude.

#[local] Ltac Zify.zify_post_hook ::= Z.to_euclidean_division_equations.

(** ** Tables *)

Definition CHARPAD : Z := 61.
Definition BADCHAR : Z := 33554431.

Definition e0 : list Z :=
  [65; 65; 65; 65; 66; 66; 66; 66; 67; 67; 67; 67; 68; 68; 68; 68; 69; 69; 69; 69; 70; 70;
   70; 70; 71; 71; 71; 71; 72; 72; 72; 72; 73; 73; 73; 73; 74; 74; 74; 74; 75; 75; 75; 75;
   76; 76; 76; 76; 77; 77; 77; 77; 78; 78; 78; 78; 79; 79; 79; 79; 80; 80; 80; 80; 81; 81;
   81; 81; 82; 82; 82; 82; 83; 83; 83; 83; 84; 84; 84; 84; 85; 85; 85; 85; 86; 86; 86; 86;
   87; 87; 87; 87; 88; 88; 88; 88; 89; 89; 89; 89; 90; 90; 90; 90; 97; 97; 97; 97; 98; 98;
   98; 98; 99; 99; 99; 99; 100; 100; 100; 100; 101; 101; 101; 101; 102; 102; 102; 102; 103;
   103; 103; 103; 104; 104; 104; 104; 105; 105; 105; 105; 106; 106; 106; 106; 107; 107;
   107; 107; 108; 108; 108; 108; 109; 109; 109; 109; 110; 110; 110; 110; 111; 111; 111;
   111; 112; 112; 112; 112; 113; 113; 113; 113; 114; 114; 114; 114; 115; 115; 115; 115;
   116; 116; 116; 116; 117; 117; 117; 117; 118; 118; 118; 118; 119; 119; 119; 119; 120;
   120; 120; 120; 121; 121; 121; 121; 122; 122; 122; 122; 48; 48; 48; 48; 49; 49; 49; 49;
   50; 50; 50; 50; 51; 51; 51; 51; 52; 52; 52; 52; 53; 53; 53; 53; 54; 54; 54; 54; 55; 55;
   55; 55; 56; 56; 56; 56; 57; 57; 57; 57; 43; 43; 43; 43; 47; 47; 47; 47].

Definition e1 : list Z :=
  [65; 66; 67; 68; 69; 70; 71; 72; 73; 74; 75; 76; 77; 78; 79; 80; 81; 82; 83; 84; 85; 86;
   87; 88; 89; 90; 97; 98; 99; 100; 101; 102; 103; 104; 105; 106; 107; 108; 109; 110; 111;
   112; 113; 114; 115; 116; 117; 118; 119; 120; 121; 122; 48; 49; 50; 51; 52; 53; 54; 55;
   56; 57; 43; 47; 65; 66; 67; 68; 69; 70; 71; 72; 73; 74; 75; 76; 77; 78; 79; 80; 81; 82;
   83; 84; 85; 86; 87; 88; 89; 90; 97; 98; 99; 100; 101; 102; 103; 104; 105; 106; 107; 108;
   109; 110; 111; 112; 113; 114; 115; 116; 117; 118; 119; 120; 121; 122; 48; 49; 50; 51;
   52; 53; 54; 55; 56; 57; 43; 47; 65; 66; 67; 68; 69; 70; 71; 72; 73; 74; 75; 76; 77; 78;
   79; 80; 81; 82; 83; 84; 85; 86; 87; 88; 89; 90; 97; 98; 99; 100; 101; 102; 103; 104;
   105; 106; 107; 108; 109; 110; 111; 112; 113; 114; 115; 116; 117; 118; 119; 120; 121;
   122; 48; 49; 50; 51; 52; 53; 54; 55; 56; 57; 43; 47; 65; 66; 67; 68; 69; 70; 71; 72; 73;
   74; 75; 76; 77; 78; 79; 80; 81; 82; 83; 84; 85; 86; 87; 88; 89; 90; 97; 98; 99; 100;
   101; 102; 103; 104; 105; 106; 107; 108; 109; 110; 111; 112; 113; 114; 115; 116; 117;
   118; 119; 120; 121; 122; 48; 49; 50; 51; 52; 53; 54; 55; 56; 57; 43; 47].

Definition e2 : list Z :=
  [65; 66; 67; 68; 69; 70; 71; 72; 73; 74; 75; 76; 77; 78; 79; 80; 81; 82; 83; 84; 85; 86;
   87; 88; 89; 90; 97; 98; 99; 100; 101; 102; 103; 104; 105; 106; 107; 108; 109; 110; 111;
   112; 113; 114; 115; 116; 117; 118; 119; 120; 121; 122; 48; 49; 50; 51; 52; 53; 54; 55;
   56; 57; 43; 47; 65; 66; 67; 68; 69; 70; 71; 72; 73; 74; 75; 76; 77; 78; 79; 80; 81; 82;
   83; 84; 85; 86; 87; 88; 89; 90; 97; 98; 99; 100; 101; 102; 103; 104; 105; 106; 107; 108;
   109; 110; 111; 112; 113; 114; 115; 116; 117; 118; 119; 120; 121; 122; 48; 49; 50; 51;
   52; 53; 54; 55; 56; 57; 43; 47; 65; 66; 67; 68; 69; 70; 71; 72; 73; 74; 75; 76; 77; 78;
   79; 80; 81; 82; 83; 84; 85; 86; 87; 88; 89; 90; 97; 98; 99; 100; 101; 102; 103; 104;
   105; 106; 107; 108; 109; 110; 111; 112; 113; 114; 115; 116; 117; 118; 119; 120; 121;
   122; 48; 49; 50; 51; 52; 53; 54; 55; 56; 57; 43; 47; 65; 66; 67; 68; 69; 70; 71; 72; 73;
   74; 75; 76; 77; 78; 79; 80; 81; 82; 83; 84; 85; 86; 87; 88; 89; 90; 97; 98; 99; 100;
   101; 102; 103; 104; 105; 106; 107; 108; 109; 110; 111; 112; 113; 114; 115; 116; 117;
   118; 119; 120; 121; 122; 48; 49; 50; 51; 52; 53; 54; 55; 56; 57; 43; 47].

Definition d0 : list Z :=
  [33554431; 33554431; 33554431; 33554431; 33554431; 33554431; 33554431; 33554431;
   33554431; 33554431; 33554431; 33554431; 33554431; 33554431; 33554431; 33554431;
   33554431; 33554431; 33554431; 33554431; 33554431; 33554431; 33554431; 33554431;
   33554431; 33554431; 33554431; 33554431; 33554431; 33554431; 33554431; 33554431;
   33554431; 33554431; 33554431; 33554431; 33554431; 33554431; 33554431; 33554431;
   33554431; 33554431; 33554431; 248; 33554431; 33554431; 33554431; 252; 208; 212; 216;
   220; 224; 228; 232; 236; 240; 244; 33554431; 33554431; 33554431; 33554431; 33554431;
   33554431; 33554431; 0; 4; 8; 12; 16; 20; 24; 28; 32; 36; 40; 44; 48; 52; 56; 60; 64; 68;
   72; 76; 80; 84; 88; 92; 96; 100; 33554431; 33554431; 33554431; 33554431; 33554431;
   33554431; 104; 108; 112; 116; 120; 124; 128; 132; 136; 140; 144; 148; 152; 156; 160;
   164; 168; 172; 176; 180; 184; 188; 192; 196; 200; 204; 33554431; 33554431; 33554431;
   33554431; 33554431; 33554431; 33554431; 33554431; 33554431; 33554431; 33554431;
   33554431; 33554431; 33554431; 33554431; 33554431; 33554431; 33554431; 33554431;
   33554431; 33554431; 33554431; 33554431; 33554431; 33554431; 33554431; 33554431;
   33554431; 33554431; 33554431; 33554431; 33554431; 33554431; 33554431; 33554431;
   33554431; 33554431; 33554431; 33554431; 33554431; 33554431; 33554431; 33554431;
   33554431; 33554431; 33554431; 33554431; 33554431; 33554431; 33554431; 33554431;
   33554431; 33554431; 33554431; 33554431; 33554431; 33554431; 33554431; 33554431;
   33554431; 33554431; 33554431; 33554431; 33554431; 33554431; 33554431; 33554431;
   33554431; 33554431; 33554431; 33554431; 33554431; 33554431; 33554431; 33554431;
   33554431; 33554431; 33554431; 33554431; 33554431; 33554431; 33554431; 33554431;
   33554431; 33554431; 33554431; 33554431; 33554431; 33554431; 33554431; 33554431;
   33554431; 33554431; 33554431; 33554431; 33554431; 33554431; 33554431; 33554431;
   33554431; 33554431; 33554431; 33554431; 33554431; 33554431; 33554431; 33554431;
   33554431; 33554431; 33554431; 33554431; 33554431; 33554431; 33554431; 33554431;
   33554431; 33554431; 33554431; 33554431; 33554431; 33554431; 33554431; 33554431;
   33554431; 33554431; 33554431; 33554431; 33554431; 33554431; 33554431; 33554431;
   33554431; 33554431].

Definition d1 : list Z :=
  [33554431; 33554431; 33554431; 33554431; 33554431; 33554431; 33554431; 33554431;
   33554431; 33554431; 33554431; 33554431; 33554431; 33554431; 33554431; 33554431;
   33554431; 33554431; 33554431; 33554431; 33554431; 33554431; 33554431; 33554431;
   33554431; 33554431; 33554431; 33554431; 33554431; 33554431; 33554431; 33554431;
   33554431; 33554431; 33554431; 33554431; 33554431; 33554431; 33554431; 33554431;
   33554431; 33554431; 33554431; 57347; 33554431; 33554431; 33554431; 61443; 16387; 20483;
   24579; 28675; 32771; 36867; 40963; 45059; 49155; 53251; 33554431; 33554431; 33554431;
   33554431; 33554431; 33554431; 33554431; 0; 4096; 8192; 12288; 16384; 20480; 24576;
   28672; 32768; 36864; 40960; 45056; 49152; 53248; 57344; 61440; 1; 4097; 8193; 12289;
   16385; 20481; 24577; 28673; 32769; 36865; 33554431; 33554431; 33554431; 33554431;
   33554431; 33554431; 40961; 45057; 49153; 53249; 57345; 61441; 2; 4098; 8194; 12290;
   16386; 20482; 24578; 28674; 32770; 36866; 40962; 45058; 49154; 53250; 57346; 61442; 3;
   4099; 8195; 12291; 33554431; 33554431; 33554431; 33554431; 33554431; 33554431; 33554431;
   33554431; 33554431; 33554431; 33554431; 33554431; 33554431; 33554431; 33554431;
   33554431; 33554431; 33554431; 33554431; 33554431; 33554431; 33554431; 33554431;
   33554431; 33554431; 33554431; 33554431; 33554431; 33554431; 33554431; 33554431;
   33554431; 33554431; 33554431; 33554431; 33554431; 33554431; 33554431; 33554431;
   33554431; 33554431; 33554431; 33554431; 33554431; 33554431; 33554431; 33554431;
   33554431; 33554431; 33554431; 33554431; 33554431; 33554431; 33554431; 33554431;
   33554431; 33554431; 33554431; 33554431; 33554431; 33554431; 33554431; 33554431;
   33554431; 33554431; 33554431; 33554431; 33554431; 33554431; 33554431; 33554431;
   33554431; 33554431; 33554431; 33554431; 33554431; 33554431; 33554431; 33554431;
   33554431; 33554431; 33554431; 33554431; 33554431; 33554431; 33554431; 33554431;
   33554431; 33554431; 33554431; 33554431; 33554431; 33554431; 33554431; 33554431;
   33554431; 33554431; 33554431; 33554431; 33554431; 33554431; 33554431; 33554431;
   33554431; 33554431; 33554431; 33554431; 33554431; 33554431; 33554431; 33554431;
   33554431; 33554431; 33554431; 33554431; 33554431; 33554431; 33554431; 33554431;
   33554431; 33554431; 33554431; 33554431; 33554431; 33554431; 33554431; 33554431;
   33554431; 33554431; 33554431; 33554431; 33554431; 33554431].

Definition d2 : list Z :=
  [33554431; 33554431; 33554431; 33554431; 33554431; 33554431; 33554431; 33554431;
   33554431; 33554431; 33554431; 33554431; 33554431; 33554431; 33554431; 33554431;
   33554431; 33554431; 33554431; 33554431; 33554431; 33554431; 33554431; 33554431;
   33554431; 33554431; 33554431; 33554431; 33554431; 33554431; 33554431; 33554431;
   33554431; 33554431; 33554431; 33554431; 33554431; 33554431; 33554431; 33554431;
   33554431; 33554431; 33554431; 8392448; 33554431; 33554431; 33554431; 12586752; 3328;
   4197632; 8391936; 12586240; 3584; 4197888; 8392192; 12586496; 3840; 4198144; 33554431;
   33554431; 33554431; 33554431; 33554431; 33554431; 33554431; 0; 4194304; 8388608;
   12582912; 256; 4194560; 8388864; 12583168; 512; 4194816; 8389120; 12583424; 768;
   4195072; 8389376; 12583680; 1024; 4195328; 8389632; 12583936; 1280; 4195584; 8389888;
   12584192; 1536; 4195840; 33554431; 33554431; 33554431; 33554431; 33554431; 33554431;
   8390144; 12584448; 1792; 4196096; 8390400; 12584704; 2048; 4196352; 8390656; 12584960;
   2304; 4196608; 8390912; 12585216; 2560; 4196864; 8391168; 12585472; 2816; 4197120;
   8391424; 12585728; 3072; 4197376; 8391680; 12585984; 33554431; 33554431; 33554431;
   33554431; 33554431; 33554431; 33554431; 33554431; 33554431; 33554431; 33554431;
   33554431; 33554431; 33554431; 33554431; 33554431; 33554431; 33554431; 33554431;
   33554431; 33554431; 33554431; 33554431; 33554431; 33554431; 33554431; 33554431;
   33554431; 33554431; 33554431; 33554431; 33554431; 33554431; 33554431; 33554431;
   33554431; 33554431; 33554431; 33554431; 33554431; 33554431; 33554431; 33554431;
   33554431; 33554431; 33554431; 33554431; 33554431; 33554431; 33554431; 33554431;
   33554431; 33554431; 33554431; 33554431; 33554431; 33554431; 33554431; 33554431;
   33554431; 33554431; 33554431; 33554431; 33554431; 33554431; 33554431; 33554431;
   33554431; 33554431; 33554431; 33554431; 33554431; 33554431; 33554431; 33554431;
   33554431; 33554431; 33554431; 33554431; 33554431; 33554431; 33554431; 33554431;
   33554431; 33554431; 33554431; 33554431; 33554431; 33554431; 33554431; 33554431;
   33554431; 33554431; 33554431; 33554431; 33554431; 33554431; 33554431; 33554431;
   33554431; 33554431; 33554431; 33554431; 33554431; 33554431; 33554431; 33554431;
   33554431; 33554431; 33554431; 33554431; 33554431; 33554431; 33554431; 33554431;
   33554431; 33554431; 33554431; 33554431; 33554431; 33554431; 33554431; 33554431;
   33554431; 33554431; 33554431; 33554431; 33554431; 33554431; 33554431; 33554431;
   33554431; 33554431].

Definition d3 : list Z :=
  [33554431; 33554431; 33554431; 33554431; 33554431; 33554431; 33554431; 33554431;
   33554431; 33554431; 33554431; 33554431; 33554431; 33554431; 33554431; 33554431;
   33554431; 33554431; 33554431; 33554431; 33554431; 33554431; 33554431; 33554431;
   33554431; 33554431; 33554431; 33554431; 33554431; 33554431; 33554431; 33554431;
   33554431; 33554431; 33554431; 33554431; 33554431; 33554431; 33554431; 33554431;
   33554431; 33554431; 33554431; 4063232; 33554431; 33554431; 33554431; 4128768; 3407872;
   3473408; 3538944; 3604480; 3670016; 3735552; 3801088; 3866624; 3932160; 3997696;
   33554431; 33554431; 33554431; 33554431; 33554431; 33554431; 33554431; 0; 65536; 131072;
   196608; 262144; 327680; 393216; 458752; 524288; 589824; 655360; 720896; 786432; 851968;
   917504; 983040; 1048576; 1114112; 1179648; 1245184; 1310720; 1376256; 1441792; 1507328;
   1572864; 1638400; 33554431; 33554431; 33554431; 33554431; 33554431; 33554431; 1703936;
   1769472; 1835008; 1900544; 1966080; 2031616; 2097152; 2162688; 2228224; 2293760;
   2359296; 2424832; 2490368; 2555904; 2621440; 2686976; 2752512; 2818048; 2883584;
   2949120; 3014656; 3080192; 3145728; 3211264; 3276800; 3342336; 33554431; 33554431;
   33554431; 33554431; 33554431; 33554431; 33554431; 33554431; 33554431; 33554431;
   33554431; 33554431; 33554431; 33554431; 33554431; 33554431; 33554431; 33554431;
   33554431; 33554431; 33554431; 33554431; 33554431; 33554431; 33554431; 33554431;
   33554431; 33554431; 33554431; 33554431; 33554431; 33554431; 33554431; 33554431;
   33554431; 33554431; 33554431; 33554431; 33554431; 33554431; 33554431; 33554431;
   33554431; 33554431; 33554431; 33554431; 33554431; 33554431; 33554431; 33554431;
   33554431; 33554431; 33554431; 33554431; 33554431; 33554431; 33554431; 33554431;
   33554431; 33554431; 33554431; 33554431; 33554431; 33554431; 33554431; 33554431;
   33554431; 33554431; 33554431; 33554431; 33554431; 33554431; 33554431; 33554431;
   33554431; 33554431; 33554431; 33554431; 33554431; 33554431; 33554431; 33554431;
   33554431; 33554431; 33554431; 33554431; 33554431; 33554431; 33554431; 33554431;
   33554431; 33554431; 33554431; 33554431; 33554431; 33554431; 33554431; 33554431;
   33554431; 33554431; 33554431; 33554431; 33554431; 33554431; 33554431; 33554431;
   33554431; 33554431; 33554431; 33554431; 33554431; 33554431; 33554431; 33554431;
   33554431; 33554431; 33554431; 33554431; 33554431; 33554431; 33554431; 33554431;
   33554431; 33554431; 33554431; 33554431; 33554431; 33554431; 33554431; 33554431;
   33554431; 33554431; 33554431].

(** ** Lengths *)

Definition modp_b64_encode_len (A : Z) : Z := Z.quot (A + 2) 3 * 4 + 1.
Definition modp_b64_decode_len (A : Z) : Z := Z.quot A 4 * 3 + 2.
Definition modp_b64_encode_strlen (A : Z) : Z := Z.quot (A + 2) 3 * 4.

(** ** Memory *)

Definition idx (t : list Z) (i : Z) : option Z := if i <? 0 then None else t !! Z.to_nat i.

(** The destination and the write pointer's offset in it. *)
Abbreviation cursor := (list Z * Z)%type.

(** [*p = b] of a [uint8_t] *)
Definition store8 (st : cursor) (b : Z) : option (list Z) :=
  let '(dest, p) := st in
  if (0 <=? p) && (p <? Z.of_nat (length dest)) then Some (<[Z.to_nat p := wrapu 8 b]> dest)
  else None.
(** [*p++ = b] *)
Definition emit (st : cursor) (b : Z) : option cursor :=
  dest ← store8 st b; Some (dest, st.2 + 1).

(** [*destInt = x] of a [uint32_t] *)
Fixpoint store_bytes (dest : list Z) (p : Z) (l : list Z) : option (list Z) :=
  match l with
  | [] => Some dest
  | b :: l => dest ← store8 (dest, p) b; store_bytes dest (p + 1) l
  end.
Definition store32 (st : cursor) (x : Z) : option (list Z) :=
  store_bytes st.1 st.2 (le_bytes 4 (u32 x)).

(** [*srcInt] of a [uint32_t], at the byte offset [p] *)
Definition load32 (src : list Z) (p : Z) : option Z :=
  b0 ← idx src p; b1 ← idx src (p + 1); b2 ← idx src (p + 2); b3 ← idx src (p + 3);
  Some (le_val [b0; b1; b2; b3]).

(** ** modp_b64_encode *)

Fixpoint encode_loop (fuel : nat) (s : list Z) (len i : Z) (st : cursor)
  : option (Z * cursor) :=
  match fuel with
  | O => None
  | S fuel =>
    if i <? len - 2 then
      t1 ← idx s i; t2 ← idx s (i + 1); t3 ← idx s (i + 2);
      c ← idx e0 t1; st ← emit st c;
      c ← idx e1 (Z.lor (Z.shiftl (Z.land t1 3) 4) (Z.land (Z.shiftr t2 4) 15)); st ← emit st c;
      c ← idx e1 (Z.lor (Z.shiftl (Z.land t2 15) 2) (Z.land (Z.shiftr t3 6) 3)); st ← emit st c;
      c ← idx e2 t3; st ← emit st c;
      encode_loop fuel s len (i + 3) st
    else Some (i, st)
  end.

(** The [switch] over the bytes the loop left. *)
Definition encode_tail (s : list Z) (len i : Z) (st : cursor) : option cursor :=
  if len - i =? 0 then Some st
  else if len - i =? 1 then
    t1 ← idx s i;
    c ← idx e0 t1; st ← emit st c;
    c ← idx e1 (Z.shiftl (Z.land t1 3) 4); st ← emit st c;
    st ← emit st CHARPAD; emit st CHARPAD
  else
    t1 ← idx s i; t2 ← idx s (i + 1);
    c ← idx e0 t1; st ← emit st c;
    c ← idx e1 (Z.lor (Z.shiftl (Z.land t1 3) 4) (Z.land (Z.shiftr t2 4) 15)); st ← emit st c;
    c ← idx e2 (Z.shiftl (Z.land t2 15) 2); st ← emit st c;
    emit st CHARPAD.

Definition modp_b64_encode (dest str : list Z) (len : Z) : option (Z * list Z) :=
  '(i, st) ← encode_loop (S (Z.to_nat len)) str len 0 (dest, 0);
  '(dest, p) ← encode_tail str len i st;
  dest ← store8 (dest, p) 0;
  Some (i32 p, dest).

(** ** modp_b64_decode *)

(** Two padding characters at most are taken off the end. *)
Definition strip_pad (src : list Z) (len : Z) : option Z :=
  c ← idx src (len - 1);
  if c =? CHARPAD then
    c ← idx src (len - 1 - 1);
    Some (if c =? CHARPAD then len - 1 - 1 else len - 1)
  else Some len.

Definition byte_of (y n : Z) : Z := Z.land (Z.shiftr y n) 255.

Definition decode_word (y : Z) : option Z :=
  a ← idx d0 (Z.land y 255); b ← idx d1 (byte_of y 8);
  c ← idx d2 (byte_of y 16); d ← idx d3 (byte_of y 24);
  Some (Z.lor (Z.lor (Z.lor a b) c) d).

(** What the chunk loop does: [-1] on a bad character, or the cursor and the
    word it read last. *)
Inductive chunked := Bad (dest : list Z) | Chunks (st : cursor) (y : Z).

Fixpoint decode_loop (n : nat) (src : list Z) (sp : Z) (st : cursor) (y : Z) : option chunked :=
  match n with
  | O => Some (Chunks st y)
  | S n =>
    x ← decode_word y;
    if BADCHAR <=? x then Some (Bad st.1)
    else
      dest ← store32 st x;
      y ← load32 src sp;
      decode_loop n src (sp + 4) (dest, st.2 + 3) y
  end.

Definition decode_tail (chunks leftover : Z) (st : cursor) (y : Z) : option (Z * list Z) :=
  if leftover =? 0 then
    x ← decode_word y;
    if BADCHAR <=? x then Some (-1, st.1)
    else
      st ← emit st (byte_of x 0); st ← emit st (byte_of x 8);
      dest ← store8 st (byte_of x 16);
      Some ((chunks + 1) * 3, dest)
  else if leftover =? 2 then
    a ← idx d0 (Z.land y 255); b ← idx d1 (byte_of y 8);
    let x := Z.lor a b in
    dest ← store8 st (byte_of x 0);
    Some (if BADCHAR <=? x then -1 else 3 * chunks + Z.quot (6 * leftover) 8, dest)
  else
    a ← idx d0 (Z.land y 255); b ← idx d1 (byte_of y 8); c ← idx d2 (byte_of y 16);
    let x := Z.lor (Z.lor a b) c in
    st ← emit st (byte_of x 0);
    dest ← store8 st (byte_of x 8);
    Some (if BADCHAR <=? x then -1 else 3 * chunks + Z.quot (6 * leftover) 8, dest).

Definition modp_b64_decode (dest src : list Z) (len : Z) : option (Z * list Z) :=
  if len =? 0 then Some (0, dest)
  else if (len <? 4) || negb (Z.rem len 4 =? 0) then Some (-1, dest)
  else
    len ← strip_pad src len;
    let leftover := Z.rem len 4 in
    let chunks := if leftover =? 0 then Z.quot len 4 - 1 else Z.quot len 4 in
    y ← load32 src 0;
    r ← decode_loop (Z.to_nat chunks) src 4 (dest, 0) y;
    match r with
    | Bad dest => Some (-1, dest)
    | Chunks st y => decode_tail chunks leftover st y
    end.

(** ** Reference: RFC 4648

    Groups of three bytes are four sextets, and a last group of one or two
    bytes is padded. *)

Definition alphabet : list Z :=
  bytes_of "ABCDEFGHIJKLMNOPQRSTUVWXYZabcdefghijklmnopqrstuvwxyz0123456789+/".

Definition ch (v : Z) : Z := default 0 (idx alphabet v).
Definition unch (c : Z) : option Z := Z.of_nat ∘ fst <$> list_find (c =.) alphabet.

Fixpoint sextets (s : list Z) : list Z :=
  match s with
  | [] => []
  | [a] => [a / 4; a mod 4 * 16]
  | [a; b] => [a / 4; a mod 4 * 16 + b / 16; b mod 16 * 4]
  | a :: b :: c :: s =>
    a / 4 :: a mod 4 * 16 + b / 16 :: b mod 16 * 4 + c / 64 :: c mod 64 :: sextets s
  end.

Definition pad (n : nat) : list Z := repeat CHARPAD ((3 - n mod 3) mod 3).
Definition rfc_encode (s : list Z) : list Z := (ch <$> sextets s) ++ pad (length s).

(** The bytes of a sequence of sextets; what is left of a group is dropped. *)
Fixpoint unsextets (l : list Z) : list Z :=
  match l with
  | a :: b :: c :: d :: l =>
    a * 4 + b / 16 :: b mod 16 * 16 + c / 4 :: c mod 4 * 64 + d :: unsextets l
  | [a; b; c] => [a * 4 + b / 16; b mod 16 * 16 + c / 4]
  | [a; b] => [a * 4 + b / 16]
  | _ => []
  end.

Definition unpad (src : list Z) : list Z :=
  let n := length src in
  if bool_decide (src !! (n - 1)%nat = Some CHARPAD) then
    if bool_decide (src !! (n - 2)%nat = Some CHARPAD) then take (n - 2) src else take (n - 1) src
  else src.

Definition rfc_decode (src : list Z) : option (list Z) :=
  if decide (length src mod 4 = 0)%nat then unsextets <$> mapM unch (unpad src) else None.

(** ** Exhaustive checks of the tables *)

Definition upto (n : Z) (P : Z → bool) : bool := forallb P (seqZ 0 n).

Lemma upto_spec n P : upto n P = true → ∀ v, 0 ≤ v < n → P v = true.
Proof.
  unfold upto. rewrite forallb_forall. intros H v Hv. apply H.
  apply list_elem_of_In, elem_of_seqZ. lia.
Qed.

Lemma upto2_spec n m (P : Z → Z → bool) :
  upto n (λ v, upto m (P v)) = true → ∀ v w, 0 ≤ v < n → 0 ≤ w < m → P v w = true.
Proof. intros H v w Hv Hw. eapply upto_spec, Hw. by apply (upto_spec _ _ H). Qed.

Lemma e0_spec t : 0 ≤ t < 256 → idx e0 t = Some (ch (t / 4)).
Proof.
  intros H. apply (upto_spec 256 (λ t, bool_decide (idx e0 t = Some (ch (t / 4))))) in H.
  - by apply bool_decide_eq_true in H.
  - by vm_compute.
Qed.

Lemma e1_spec v : 0 ≤ v < 256 → idx e1 v = Some (ch (v mod 64)).
Proof.
  intros H. apply (upto_spec 256 (λ t, bool_decide (idx e1 t = Some (ch (t mod 64))))) in H.
  - by apply bool_decide_eq_true in H.
  - by vm_compute.
Qed.

Lemma e2_spec v : 0 ≤ v < 256 → idx e2 v = Some (ch (v mod 64)).
Proof.
  intros H. apply (upto_spec 256 (λ t, bool_decide (idx e2 t = Some (ch (t mod 64))))) in H.
  - by apply bool_decide_eq_true in H.
  - by vm_compute.
Qed.

Lemma e1_small v : 0 ≤ v < 64 → idx e1 v = Some (ch v).
Proof. intros H. rewrite e1_spec by lia. by rewrite Z.mod_small by lia. Qed.

Lemma e2_small v : 0 ≤ v < 64 → idx e2 v = Some (ch v).
Proof. intros H. rewrite e2_spec by lia. by rewrite Z.mod_small by lia. Qed.

Lemma merge_12 t1 t2 :
  is_byte t1 → is_byte t2 →
  Z.lor (Z.shiftl (Z.land t1 3) 4) (Z.land (Z.shiftr t2 4) 15) = t1 mod 4 * 16 + t2 / 16.
Proof.
  intros H1 H2. apply Z.eqb_eq. revert t1 t2 H1 H2.
  apply (upto2_spec 256 256 (λ t1 t2, _ =? _)). by vm_compute.
Qed.

Lemma merge_23 t2 t3 :
  is_byte t2 → is_byte t3 →
  Z.lor (Z.shiftl (Z.land t2 15) 2) (Z.land (Z.shiftr t3 6) 3) = t2 mod 16 * 4 + t3 / 64.
Proof.
  intros H1 H2. apply Z.eqb_eq. revert t2 t3 H1 H2.
  apply (upto2_spec 256 256 (λ t1 t2, _ =? _)). by vm_compute.
Qed.

Lemma merge_12_0 t : is_byte t → Z.shiftl (Z.land t 3) 4 = t mod 4 * 16.
Proof. intros H. rewrite <-(Z.lor_0_r (Z.shiftl _ _)). pose proof (merge_12 t 0 H) as E.
  change (Z.land (Z.shiftr 0 4) 15) with 0 in E. rewrite E by done. lia. Qed.

Lemma merge_23_0 t : is_byte t → Z.shiftl (Z.land t 15) 2 = t mod 16 * 4.
Proof. intros H. rewrite <-(Z.lor_0_r (Z.shiftl _ _)). pose proof (merge_23 t 0 H) as E.
  change (Z.land (Z.shiftr 0 6) 3) with 0 in E. rewrite E by done. lia. Qed.

Definition table_row (c : Z) : bool :=
  bool_decide
    ((idx d0 c, idx d1 c, idx d2 c, idx d3 c) =
     match unch c with
     | Some v => (Some (v * 4), Some (v / 16 + v mod 16 * 4096),
                  Some (v / 4 * 256 + v mod 4 * 64 * 65536), Some (v * 65536))
     | None => (Some BADCHAR, Some BADCHAR, Some BADCHAR, Some BADCHAR)
     end).

Lemma table_row_ok c : is_byte c → table_row c = true.
Proof. apply (upto_spec 256). by vm_compute. Qed.

Lemma unch_range c v : unch c = Some v → 0 ≤ v < 64.
Proof.
  unfold unch. intros ([i y]&Hf&->)%fmap_Some. apply list_find_Some in Hf as (Hi&_).
  apply lookup_lt_Some in Hi. change (length alphabet) with 64%nat in Hi. cbn. lia.
Qed.

Lemma unch_ch v : 0 ≤ v < 64 → unch (ch v) = Some v.
Proof.
  intros H. apply (upto_spec 64 (λ v, bool_decide (unch (ch v) = Some v))) in H.
  - by apply bool_decide_eq_true in H.
  - by vm_compute.
Qed.

Lemma ch_byte v : 0 ≤ v < 64 → is_byte (ch v) ∧ ch v ≠ CHARPAD.
Proof.
  intros H. apply (upto_spec 64 (λ v, bool_decide (0 ≤ ch v < 256 ∧ ch v ≠ CHARPAD))) in H.
  - by apply bool_decide_eq_true in H.
  - by vm_compute.
Qed.

(** ** Cursors *)

(** The cursor after [w] has been written over the front of a buffer whose
    rest is [r]. *)
Definition cur (w r : list Z) : cursor := (w ++ r, Z.of_nat (length w)).

Lemma idx_app pre s k : 0 ≤ k → idx (pre ++ s) (Z.of_nat (length pre) + k) = s !! Z.to_nat k.
Proof.
  intros Hk. unfold idx. destruct (Z.ltb_spec (Z.of_nat (length pre) + k) 0); [lia|].
  rewrite lookup_app_r by lia. f_equal. lia.
Qed.

Lemma idx_app0 pre s : idx (pre ++ s) (Z.of_nat (length pre)) = s !! 0%nat.
Proof. rewrite <-(Z.add_0_r (Z.of_nat _)). by rewrite idx_app by lia. Qed.
Lemma idx_app1 pre s : idx (pre ++ s) (Z.of_nat (length pre) + 1) = s !! 1%nat.
Proof. by rewrite idx_app by lia. Qed.
Lemma idx_app2 pre s : idx (pre ++ s) (Z.of_nat (length pre) + 2) = s !! 2%nat.
Proof. by rewrite idx_app by lia. Qed.

Lemma store8_cur w x r b :
  is_byte b → store8 (cur w (x :: r)) b = Some (w ++ b :: r).
Proof.
  intros Hb. unfold store8, cur. rewrite length_app. cbn [length].
  destruct (Z.leb_spec 0 (Z.of_nat (length w))), (Z.ltb_spec (Z.of_nat (length w))
    (Z.of_nat (length w + S (length r)))); try lia. cbn [andb].
  rewrite Nat2Z.id, insert_app_r_alt, Nat.sub_diag by done. cbn.
  by rewrite wrapu_id by (unfold in_u; cbn; exact Hb).
Qed.

Lemma emit_cur w x r b :
  is_byte b → emit (cur w (x :: r)) b = Some (cur (w ++ [b]) r).
Proof.
  intros Hb. unfold emit. rewrite store8_cur by done. cbn. unfold cur.
  rewrite length_app, <-app_assoc. cbn. do 2 f_equal. lia.
Qed.

Lemma pad_3 n : pad (S (S (S n))) = pad n.
Proof.
  unfold pad. replace (S (S (S n))) with (n + 1 * 3)%nat by lia. by rewrite Nat.Div0.mod_add.
Qed.

Lemma sextets_length s : length (sextets s ++ pad (length s)) = (4 * ((length s + 2) / 3))%nat.
Proof.
  induction s as [s IH] using (induction_ltof1 _ (@length Z)).
  destruct s as [|a [|b [|c s]]]; [done..|].
  cbn [sextets length app]. rewrite pad_3, (IH s) by (unfold ltof; cbn; lia).
  replace (S (S (S (length s))) + 2)%nat with (length s + 2 + 1 * 3)%nat by lia.
  rewrite Nat.div_add by lia. lia.
Qed.

Lemma rfc_encode_length s :
  Z.of_nat (length (rfc_encode s)) = modp_b64_encode_strlen (Z.of_nat (length s)).
Proof.
  unfold rfc_encode, modp_b64_encode_strlen.
  rewrite length_app, length_fmap, <-length_app, sextets_length.
  rewrite Z.quot_div_nonneg, Nat2Z.inj_mul, Nat2Z.inj_div, Nat2Z.inj_add by lia. lia.
Qed.

Lemma rfc_encode_3 a b c s :
  rfc_encode (a :: b :: c :: s) =
    ch (a / 4) :: ch (a mod 4 * 16 + b / 16) :: ch (b mod 16 * 4 + c / 64) :: ch (c mod 64) ::
    rfc_encode s.
Proof. unfold rfc_encode. cbn [sextets length]. by rewrite pad_3. Qed.

(** ** The encoder is RFC 4648 *)

Ltac byte_arith := unfold is_byte in *; lia.

Ltac sextet :=
  match goal with
  | |- is_byte (ch _) => apply ch_byte; byte_arith
  | |- is_byte CHARPAD => done
  | |- is_byte 0 => done
  end.

(** Run the encoder over one read, one table lookup or one store. *)
Ltac enc_step :=
  first
    [ rewrite idx_app0 | rewrite idx_app1 | rewrite idx_app2
    | rewrite e0_spec by byte_arith | rewrite merge_12 by done | rewrite merge_23 by done
    | rewrite merge_12_0 by done | rewrite merge_23_0 by done
    | rewrite e1_small by byte_arith | rewrite e2_small by byte_arith
    | rewrite e2_spec by byte_arith | rewrite emit_cur by sextet ];
  cbn -[cur encode_loop encode_tail rfc_encode emit Z.add Z.div Z.modulo Z.mul Z.lor Z.land Z.shiftl Z.shiftr
        Z.sub Z.eqb e0 e1 e2 ch pad].

Lemma encode_run s : ∀ fuel pre w r,
  Forall is_byte s → (length s < fuel)%nat → (length (rfc_encode s) ≤ length r)%nat →
  ('(i, st) ← encode_loop fuel (pre ++ s) (Z.of_nat (length (pre ++ s)))
                (Z.of_nat (length pre)) (cur w r);
   encode_tail (pre ++ s) (Z.of_nat (length (pre ++ s))) i st)
  = Some (cur (w ++ rfc_encode s) (drop (length (rfc_encode s)) r)).
Proof.
  induction s as [s IH] using (induction_ltof1 _ (@length Z)).
  intros fuel pre w r Hs Hf Hr. destruct fuel as [|fuel]; [lia|].
  cbn [encode_loop]. 
  destruct s as [|a [|b [|c s]]]; cbn [length] in *; rewrite length_app;
    (match goal with |- context [if ?i <? ?j then _ else _] => destruct (Z.ltb_spec i j) end;
     cbn [length] in *; try lia; []).
  - cbn -[Z.of_nat encode_tail]. unfold encode_tail. rewrite (proj2 (Z.eqb_eq _ 0)) by lia.
    by rewrite app_nil_r.
  - cbn -[Z.of_nat encode_tail cur]. unfold encode_tail.
    rewrite (proj2 (Z.eqb_neq _ 0)), (proj2 (Z.eqb_eq _ 1)) by lia.
    destruct r as [|x0 [|x1 [|x2 [|x3 r]]]]; cbn [length] in Hr; try (cbn in Hr; lia); [].
    apply Forall_cons_1 in Hs as [Ha Hs]. repeat enc_step. by rewrite <-!app_assoc, drop_0.
  - cbn -[Z.of_nat encode_tail cur]. unfold encode_tail.
    rewrite (proj2 (Z.eqb_neq _ 0)), (proj2 (Z.eqb_neq _ 1)) by lia.
    destruct r as [|x0 [|x1 [|x2 [|x3 r]]]]; cbn [length] in Hr; try (cbn in Hr; lia); [].
    apply Forall_cons_1 in Hs as [Ha Hs]. apply Forall_cons_1 in Hs as [Hb Hs].
    repeat enc_step. by rewrite <-!app_assoc, drop_0.
  - rewrite rfc_encode_3 in *. cbn [length] in Hr.
    destruct r as [|x0 [|x1 [|x2 [|x3 r]]]]; cbn [length] in Hr; try lia; [].
    apply Forall_cons_1 in Hs as [Ha Hs]. apply Forall_cons_1 in Hs as [Hb Hs].
    apply Forall_cons_1 in Hs as [Hc Hs]. do 13 enc_step.
    specialize (IH s ltac:(unfold ltof; cbn; lia) fuel (pre ++ [a; b; c])).
    rewrite <-app_assoc, !length_app in IH. cbn [length app] in IH.
    replace (Z.of_nat (length pre + 3)) with (Z.of_nat (length pre) + 3) in IH by lia.
    rewrite IH by (done || lia). by rewrite <-!app_assoc.
Qed.

(** The buffer the macro asks for is enough, and the result is the reference
    encoding followed by a zero byte. *)
Lemma modp_b64_encode_spec s dest :
  Forall is_byte s → Z.of_nat (length s) ≤ 1610612733 →
  modp_b64_encode_len (Z.of_nat (length s)) ≤ Z.of_nat (length dest) →
  modp_b64_encode dest s (Z.of_nat (length s)) =
    Some (modp_b64_encode_strlen (Z.of_nat (length s)),
          rfc_encode s ++ 0 :: drop (S (length (rfc_encode s))) dest).
Proof.
  intros Hs Hmax Hd. pose proof (rfc_encode_length s) as Hl.
  unfold modp_b64_encode_len in Hd. unfold modp_b64_encode_strlen in Hl.
  pose proof (encode_run s (S (length s)) [] [] dest Hs ltac:(lia) ltac:(lia)) as E.
  unfold modp_b64_encode. rewrite Nat2Z.id. unfold cur in E at 1. cbn [app length Z.of_nat] in E.
  destruct (encode_loop _ _ _ _ _) as [[i st]|]; [|done]. cbn [mbind option_bind] in *.
  rewrite E. unfold cur at 1. cbn [mbind option_bind].
  destruct (drop (length (rfc_encode s)) dest) as [|x r] eqn:Er.
  { apply (f_equal length) in Er. rewrite length_drop in Er. cbn in Er. lia. }
  change (store8 _ 0) with (store8 (cur (rfc_encode s) (x :: r)) 0).
  rewrite store8_cur by done. cbn. rewrite wraps_id by (unfold in_s; lia).
  unfold modp_b64_encode_strlen. rewrite Hl. do 4 f_equal.
  replace (S (length (rfc_encode s))) with (length (rfc_encode s) + 1)%nat by lia.
  rewrite <-drop_drop, Er. done.
Qed.

(** ** The words of the decoder *)

Lemma shiftr_mod x n : 0 ≤ n → byte_of x n = x / 2 ^ n mod 256.
Proof. intros H. unfold byte_of. rewrite Z.shiftr_div_pow2 by lia. by rewrite (Z.land_ones _ 8). Qed.

Lemma lor_split p q u v :
  0 ≤ p < 256 → 0 ≤ q < 256 → Z.lor (p + 256 * u) (q + 256 * v) = Z.lor p q + 256 * Z.lor u v.
Proof.
  intros Hp Hq. rewrite (Z.div_mod (Z.lor _ _) 256) at 1 by done.
  rewrite <-(Z.shiftr_div_pow2 _ 8), <-(Z.land_ones _ 8) by lia.
  rewrite Z.shiftr_lor, Z.land_lor_distr_l, !Z.shiftr_div_pow2, !Z.land_ones by lia.
  change (2 ^ 8) with 256.
  replace ((p + 256 * u) / 256) with u by lia. replace ((q + 256 * v) / 256) with v by lia.
  replace ((p + 256 * u) mod 256) with p by lia. replace ((q + 256 * v) mod 256) with q by lia.
  lia.
Qed.

Lemma lor_01 a b :
  0 ≤ a < 64 → 0 ≤ b < 64 →
  Z.lor (a * 4) (b / 16 + b mod 16 * 4096) = a * 4 + b / 16 + 256 * (b mod 16 * 16).
Proof.
  intros Ha Hb. apply Z.eqb_eq. revert a b Ha Hb.
  apply (upto2_spec 64 64 (λ a b, _ =? _)). by vm_compute.
Qed.

Lemma lor_23 c d :
  0 ≤ c < 64 → 0 ≤ d < 64 →
  Z.lor (c / 4 * 256 + c mod 4 * 64 * 65536) (d * 65536) = 0 + 256 * (c / 4 + 256 * (c mod 4 * 64 + d)).
Proof.
  intros Ha Hb. apply Z.eqb_eq. revert c d Ha Hb.
  apply (upto2_spec 64 64 (λ c d, _ =? _)). by vm_compute.
Qed.

Lemma lor_nibbles b c :
  0 ≤ b < 16 → 0 ≤ c < 16 → Z.lor (b * 16) c = b * 16 + c.
Proof.
  intros Ha Hb. apply Z.eqb_eq. revert b c Ha Hb.
  apply (upto2_spec 16 16 (λ b c, _ =? _)). by vm_compute.
Qed.

Lemma lor_012 a b c :
  0 ≤ a < 64 → 0 ≤ b < 64 → 0 ≤ c < 64 → ∀ s, 0 ≤ s →
  Z.lor (Z.lor (a * 4) (b / 16 + b mod 16 * 4096)) (0 + 256 * (c / 4 + 256 * s)) =
    a * 4 + b / 16 + 256 * (b mod 16 * 16 + c / 4 + 256 * s).
Proof.
  intros Ha Hb Hc s Hs. rewrite lor_01 by done. rewrite lor_split by lia.
  rewrite Z.lor_0_r. replace (b mod 16 * 16) with (b mod 16 * 16 + 256 * 0) at 1 by lia.
  rewrite lor_split by lia. rewrite lor_nibbles, Z.lor_0_l by lia. lia.
Qed.

(** ** Bad characters *)

(** [x] has no bit outside the mark of a bad character. *)
Definition below (x : Z) : Prop := Z.lor x BADCHAR = BADCHAR.

Lemma below_lor x y : below x → below y → below (Z.lor x y).
Proof. unfold below. intros Hx Hy. by rewrite <-Z.lor_assoc, Hy. Qed.

Lemma below_small x : 0 ≤ x < 33554432 → below x.
Proof.
  intros H. unfold below. destruct (decide (x = 0)) as [->|]; [done|].
  apply (Z.lor_ones_low x 25); [lia|]. apply Z.log2_lt_pow2; cbn; lia.
Qed.

Lemma lor_bad_l x y : x = BADCHAR → below y → Z.lor x y = BADCHAR.
Proof. intros -> H. by rewrite Z.lor_comm. Qed.

Lemma lor_bad_r x y : below x → y = BADCHAR → Z.lor x y = BADCHAR.
Proof. by intros H ->. Qed.

(** A disjunction of words below the mark with the mark in it is the mark. *)
Ltac bad_word :=
  first [ reflexivity
        | apply lor_bad_r; [solve [eauto using below_lor] | solve [bad_word]]
        | apply lor_bad_l; [solve [bad_word] | solve [eauto using below_lor]] ].

Definition cell (f : Z → Z) (o : option Z) : Z :=
  match o with Some v => f v | None => BADCHAR end.

Lemma table_cells c :
  is_byte c →
  idx d0 c = Some (cell (λ v, v * 4) (unch c)) ∧
  idx d1 c = Some (cell (λ v, v / 16 + v mod 16 * 4096) (unch c)) ∧
  idx d2 c = Some (cell (λ v, v / 4 * 256 + v mod 4 * 64 * 65536) (unch c)) ∧
  idx d3 c = Some (cell (λ v, v * 65536) (unch c)).
Proof.
  intros H%table_row_ok. unfold table_row in H. apply bool_decide_eq_true in H.
  destruct (unch c); cbn; by simplify_eq.
Qed.

Lemma cells_below c :
  below (cell (λ v, v * 4) (unch c)) ∧
  below (cell (λ v, v / 16 + v mod 16 * 4096) (unch c)) ∧
  below (cell (λ v, v / 4 * 256 + v mod 4 * 64 * 65536) (unch c)) ∧
  below (cell (λ v, v * 65536) (unch c)).
Proof.
  destruct (unch c) as [v|] eqn:E; cbn; [apply unch_range in E|];
    (split_and!; apply below_small; unfold BADCHAR; lia).
Qed.

Lemma quad_bytes c0 c1 c2 c3 :
  is_byte c0 → is_byte c1 → is_byte c2 → is_byte c3 →
  let y := le_val [c0; c1; c2; c3] in
  Z.land y 255 = c0 ∧ byte_of y 8 = c1 ∧ byte_of y 16 = c2 ∧ byte_of y 24 = c3.
Proof.
  intros H0 H1 H2 H3. cbn [le_val]. rewrite !shiftr_mod by lia.
  rewrite (Z.land_ones _ 8) by lia.
  change (2 ^ 8) with 256; change (2 ^ 16) with 65536; change (2 ^ 24) with 16777216.
  unfold is_byte in *. split_and!; lia.
Qed.

(** The word of a quad: its three bytes, or at least [BADCHAR]. *)
Lemma decode_word_quad c0 c1 c2 c3 :
  is_byte c0 → is_byte c1 → is_byte c2 → is_byte c3 →
  match mapM unch [c0; c1; c2; c3] with
  | Some l => decode_word (le_val [c0; c1; c2; c3]) = Some (le_val (unsextets l)) ∧
              Forall is_byte (unsextets l) ∧ length (unsextets l) = 3%nat
  | None => decode_word (le_val [c0; c1; c2; c3]) = Some BADCHAR
  end.
Proof.
  intros H0 H1 H2 H3. unfold decode_word.
  destruct (quad_bytes c0 c1 c2 c3) as (-> & -> & -> & ->); [done..|].
  destruct (table_cells c0 H0) as (-> & _), (table_cells c1 H1) as (_ & -> & _),
    (table_cells c2 H2) as (_ & _ & -> & _), (table_cells c3 H3) as (_ & _ & _ & ->).
  destruct (cells_below c0) as (B0 & _), (cells_below c1) as (_ & B1 & _),
    (cells_below c2) as (_ & _ & B2 & _), (cells_below c3) as (_ & _ & _ & B3).
  cbn [mapM mbind option_bind mret option_ret].
  destruct (unch c0) as [a|] eqn:E0, (unch c1) as [b|] eqn:E1, (unch c2) as [c|] eqn:E2,
    (unch c3) as [d|] eqn:E3; cbn [cell mbind option_bind] in *;
    try (f_equal; bad_word).
  apply unch_range in E0, E1, E2, E3. split; [|split; [|done]].
  - f_equal. rewrite <-Z.lor_assoc, lor_23, lor_012 by lia. cbn [unsextets le_val]. lia.
  - cbn [unsextets]. repeat constructor; unfold is_byte; lia.
Qed.

(** A last group of two or three characters. *)
Lemma decode_word_2 c0 c1 c2 c3 :
  is_byte c0 → is_byte c1 → is_byte c2 → is_byte c3 →
  let y := le_val [c0; c1; c2; c3] in
  ∃ a b, idx d0 (Z.land y 255) = Some a ∧ idx d1 (byte_of y 8) = Some b ∧
  match mapM unch [c0; c1] with
  | Some l => ∃ z, Z.lor a b = le_val (unsextets l ++ [z]) ∧ is_byte z ∧
              Forall is_byte (unsextets l) ∧ length (unsextets l) = 1%nat
  | None => Z.lor a b = BADCHAR
  end.
Proof.
  intros H0 H1 H2 H3 y.
  destruct (quad_bytes c0 c1 c2 c3) as (Q0 & Q1 & _ & _); [done..|]. fold y in Q0, Q1.
  rewrite Q0, Q1.
  destruct (table_cells c0 H0) as (-> & _), (table_cells c1 H1) as (_ & -> & _).
  destruct (cells_below c0) as (B0 & _), (cells_below c1) as (_ & B1 & _).
  do 2 eexists. split; [done|]. split; [done|].
  cbn [mapM mbind option_bind mret option_ret].
  destruct (unch c0) as [a|] eqn:E0, (unch c1) as [b|] eqn:E1; cbn [cell mbind option_bind] in *;
    try bad_word.
  apply unch_range in E0, E1. exists (b mod 16 * 16).
  rewrite lor_01 by done. cbn [unsextets le_val app length].
  split_and!; [lia|unfold is_byte; lia| |done]. repeat constructor; unfold is_byte; lia.
Qed.

Lemma decode_word_3 c0 c1 c2 c3 :
  is_byte c0 → is_byte c1 → is_byte c2 → is_byte c3 →
  let y := le_val [c0; c1; c2; c3] in
  ∃ a b c, idx d0 (Z.land y 255) = Some a ∧ idx d1 (byte_of y 8) = Some b ∧
  idx d2 (byte_of y 16) = Some c ∧
  match mapM unch [c0; c1; c2] with
  | Some l => ∃ z, Z.lor (Z.lor a b) c = le_val (unsextets l ++ [z]) ∧ is_byte z ∧
              Forall is_byte (unsextets l) ∧ length (unsextets l) = 2%nat
  | None => Z.lor (Z.lor a b) c = BADCHAR
  end.
Proof.
  intros H0 H1 H2 H3 y.
  destruct (quad_bytes c0 c1 c2 c3) as (Q0 & Q1 & Q2 & _); [done..|]. fold y in Q0, Q1, Q2.
  rewrite Q0, Q1, Q2.
  destruct (table_cells c0 H0) as (-> & _), (table_cells c1 H1) as (_ & -> & _),
    (table_cells c2 H2) as (_ & _ & -> & _).
  destruct (cells_below c0) as (B0 & _), (cells_below c1) as (_ & B1 & _),
    (cells_below c2) as (_ & _ & B2 & _).
  do 3 eexists. do 3 (split; [done|]).
  cbn [mapM mbind option_bind mret option_ret].
  destruct (unch c0) as [a|] eqn:E0, (unch c1) as [b|] eqn:E1, (unch c2) as [c|] eqn:E2;
    cbn [cell mbind option_bind] in *; try bad_word.
  apply unch_range in E0, E1, E2. exists (c mod 4 * 64).
  pose proof (lor_012 a b c E0 E1 E2 (c mod 4 * 64) ltac:(lia)) as E.
    replace (0 + 256 * (c / 4 + 256 * (c mod 4 * 64))) with (c / 4 * 256 + c mod 4 * 64 * 65536) in E by lia.
    rewrite E. cbn [unsextets le_val app length].
    split_and!; [lia|unfold is_byte; lia| |done]. repeat constructor; unfold is_byte; lia.
Qed.

(** ** The decoder is RFC 4648 *)

Lemma store32_cur w x0 x1 x2 x3 r l :
  Forall is_byte l → length l = 3%nat →
  store32 (cur w (x0 :: x1 :: x2 :: x3 :: r)) (le_val l) = Some (w ++ l ++ 0 :: r).
Proof.
  intros Hl. destruct l as [|b0 [|b1 [|b2 [|]]]]; try done; intros _.
  rewrite !list.Forall_cons in Hl. destruct Hl as (H0 & H1 & H2 & _). unfold is_byte in *.
  unfold store32. rewrite wrapu_id by (unfold in_u; cbn; lia).
  assert (le_bytes 4 (le_val [b0; b1; b2]) = [b0; b1; b2; 0]) as ->.
  { cbn [le_bytes le_val]. repeat f_equal; lia. }
  change (cur w ?r).1 with (w ++ r). change (cur w ?r).2 with (Z.of_nat (length w)).
  assert (∀ b l v y q, is_byte b →
    store_bytes (v ++ y :: q) (Z.of_nat (length v)) (b :: l) =
    store_bytes ((v ++ [b]) ++ q) (Z.of_nat (length (v ++ [b]))) l) as Hst.
  { intros b l v y q Hb. cbn [store_bytes].
    change (v ++ y :: q, Z.of_nat (length v)) with (cur v (y :: q)).
    rewrite store8_cur by done. cbn [mbind option_bind]. rewrite <-app_assoc, length_app.
    cbn [app length]. f_equal. lia. }
  rewrite !Hst by (unfold is_byte; lia). cbn [store_bytes]. by rewrite <-!app_assoc.
Qed.

Lemma word_not_bad l : Forall is_byte l → length l = 3%nat → (BADCHAR <=? le_val l) = false.
Proof.
  intros Hl. destruct l as [|b0 [|b1 [|b2 [|]]]]; try done; intros _.
  rewrite !list.Forall_cons in Hl. destruct Hl as (H0 & H1 & H2 & _). unfold is_byte, BADCHAR in *.
  cbn [le_val]. apply Z.leb_gt. lia.
Qed.

Lemma load32_at pre c0 c1 c2 c3 l :
  load32 (pre ++ c0 :: c1 :: c2 :: c3 :: l) (Z.of_nat (length pre)) = Some (le_val [c0; c1; c2; c3]).
Proof. unfold load32. rewrite idx_app0, idx_app1, idx_app2, idx_app by lia. done. Qed.

Lemma unsextets_app l k :
  (length l mod 4 = 0)%nat → unsextets (l ++ k) = unsextets l ++ unsextets k.
Proof.
  induction l as [l IH] using (induction_ltof1 _ (@length Z)). intros H.
  destruct l as [|a [|b [|c [|d l]]]]; try done.
  cbn [unsextets app]. do 3 f_equal. apply IH; [unfold ltof; cbn; lia|].
  cbn [length] in H. replace (S (S (S (S (length l)))))%nat with (length l + 1 * 4)%nat in H by lia.
  by rewrite Nat.Div0.mod_add in H.
Qed.

Lemma mapM_unch_length l k : mapM unch l = Some k → length k = length l.
Proof. intros H. symmetry. by eapply length_mapM. Qed.

Lemma mapM_app {A B} (f : A → option B) l k :
  mapM f (l ++ k) = (v ← mapM f l; w ← mapM f k; Some (v ++ w)).
Proof.
  induction l as [|x l IH]; cbn; [by destruct (mapM f k)|].
  destruct (f x); [|done]. cbn. rewrite IH.
  destruct (mapM f l); [|done]. cbn. by destruct (mapM f k).
Qed.

(** Four bytes off the front of a list that has them. *)
Lemma quad_inv (l : list Z) :
  (4 ≤ length l)%nat → ∃ c0 c1 c2 c3 k, l = c0 :: c1 :: c2 :: c3 :: k.
Proof. destruct l as [|? [|? [|? [|? k]]]]; cbn; try lia. naive_solver. Qed.

Lemma decode_loop_spec n : ∀ pre l w r,
  Forall is_byte l → (4 * n + 4 ≤ length l)%nat → (3 * n + 1 ≤ length r)%nat →
  match mapM unch (take (4 * n) l) with
  | Some v => ∃ r', length r' = (length r - 3 * n)%nat ∧
      decode_loop n (pre ++ l) (Z.of_nat (length pre) + 4) (cur w r) (le_val (take 4 l)) =
      Some (Chunks (cur (w ++ unsextets v) r') (le_val (take 4 (drop (4 * n) l))))
  | None => ∃ d, length d = (length w + length r)%nat ∧
      decode_loop n (pre ++ l) (Z.of_nat (length pre) + 4) (cur w r) (le_val (take 4 l)) =
      Some (Bad d)
  end.
Proof.
  induction n as [|n IH]; intros pre l w r Hl Hlen Hr.
  - change (4 * 0)%nat with 0%nat. cbn [take mapM mret option_ret unsextets decode_loop].
    exists r. rewrite app_nil_r. split; [lia|done].
  - destruct (quad_inv l) as (c0&c1&c2&c3&k&->); [lia|].
    destruct (quad_inv r) as (x0&x1&x2&x3&r'&->); [lia|].
    replace (4 * S n)%nat with (4 + 4 * n)%nat by lia. cbn [Nat.add take drop].
    cbn [length] in Hlen, Hr.
    change (c0 :: c1 :: c2 :: c3 :: take (4 * n) k) with ([c0; c1; c2; c3] ++ take (4 * n) k).
    rewrite mapM_app. cbn [decode_loop].
    apply Forall_cons_1 in Hl as [H0 Hl]. apply Forall_cons_1 in Hl as [H1 Hl].
    apply Forall_cons_1 in Hl as [H2 Hl]. apply Forall_cons_1 in Hl as [H3 Hl].
    pose proof (decode_word_quad c0 c1 c2 c3 H0 H1 H2 H3) as Hq.
    change (le_val (c0 :: c1 :: c2 :: c3 :: take 0 k)) with (le_val [c0; c1; c2; c3]).
    destruct (mapM unch [c0; c1; c2; c3]) as [v|] eqn:Ev; cbn [mbind option_bind].
    2: { rewrite Hq. exists (w ++ x0 :: x1 :: x2 :: x3 :: r'). rewrite length_app. split; [cbn; lia|done]. }
    destruct Hq as (-> & Hv & Hv3). cbn [mbind option_bind].
    rewrite word_not_bad, store32_cur by done. cbn [mbind option_bind].
    destruct (quad_inv k) as (k0&k1&k2&k3&k'&Ek); [lia|].
    specialize (IH (pre ++ [c0; c1; c2; c3]) k (w ++ unsextets v) (0 :: r') Hl ltac:(lia) ltac:(cbn; lia)).
    rewrite <-app_assoc, length_app in IH. cbn [app length] in IH.
    replace (Z.of_nat (length pre + 4)) with (Z.of_nat (length pre) + 4) in IH by lia.
    assert (load32 (pre ++ c0 :: c1 :: c2 :: c3 :: k) (Z.of_nat (length pre) + 4) = Some (le_val (take 4 k))) as ->.
    { subst k. pose proof (load32_at (pre ++ [c0; c1; c2; c3]) k0 k1 k2 k3 k') as E.
      rewrite <-app_assoc, length_app in E. cbn [app length] in E.
      change (take 4 (k0 :: k1 :: k2 :: k3 :: k')) with [k0; k1; k2; k3]. rewrite <-E. f_equal. lia. }
    cbn [mbind option_bind].
    assert ((w ++ unsextets v ++ 0 :: r', (cur w (x0 :: x1 :: x2 :: x3 :: r')).2 + 3) =
      cur (w ++ unsextets v) (0 :: r')) as ->.
    { unfold cur. cbn [snd]. rewrite <-app_assoc, length_app, Hv3. f_equal. lia. }
    destruct (mapM unch (take (4 * n) k)) as [v'|]; cbn [mbind option_bind].
    + destruct IH as (r'' & Hr'' & E). exists r''. split; [cbn [length] in *; lia|].
      rewrite E. rewrite unsextets_app, app_assoc; [done|].
      by rewrite (mapM_unch_length _ _ Ev).
    + destruct IH as (d & Hd & E). exists d. split; [|by rewrite E].
      rewrite Hd, length_app, Hv3. cbn [length]. lia.
Qed.

Lemma byte_of_le b0 b1 b2 :
  is_byte b0 → is_byte b1 → is_byte b2 →
  byte_of (le_val [b0; b1; b2]) 0 = b0 ∧ byte_of (le_val [b0; b1; b2]) 8 = b1 ∧
  byte_of (le_val [b0; b1; b2]) 16 = b2.
Proof.
  intros H0 H1 H2. destruct (quad_bytes b0 b1 b2 0) as (E0 & E1 & E2 & _); [done..|].
  unfold byte_of at 1. rewrite Z.shiftr_0_r.
  replace (le_val [b0; b1; b2]) with (le_val [b0; b1; b2; 0]) by (cbn [le_val]; lia). done.
Qed.

Lemma decode_tail_0 chunks w x0 x1 x2 r c0 c1 c2 c3 :
  is_byte c0 → is_byte c1 → is_byte c2 → is_byte c3 →
  match mapM unch [c0; c1; c2; c3] with
  | Some v => length (unsextets v) = 3%nat ∧
      decode_tail chunks 0 (cur w (x0 :: x1 :: x2 :: r)) (le_val [c0; c1; c2; c3]) =
      Some ((chunks + 1) * 3, w ++ unsextets v ++ r)
  | None =>
      decode_tail chunks 0 (cur w (x0 :: x1 :: x2 :: r)) (le_val [c0; c1; c2; c3]) =
      Some (-1, w ++ x0 :: x1 :: x2 :: r)
  end.
Proof.
  intros H0 H1 H2 H3. pose proof (decode_word_quad c0 c1 c2 c3 H0 H1 H2 H3) as Hq.
  unfold decode_tail. cbn [Z.eqb Pos.eqb].
  destruct (mapM unch [c0; c1; c2; c3]) as [v|]; cbn [mbind option_bind].
  2: { by rewrite Hq. }
  destruct Hq as (-> & Hv & Hv3). split; [done|]. cbn [mbind option_bind].
  rewrite word_not_bad by done.
  destruct (unsextets v) as [|b0 [|b1 [|b2 [|]]]]; try done.
  rewrite !list.Forall_cons in Hv. destruct Hv as (B0 & B1 & B2 & _).
  destruct (byte_of_le b0 b1 b2) as (-> & -> & ->); [done..|].
  rewrite emit_cur by done. cbn [mbind option_bind]. rewrite emit_cur by done.
  cbn [mbind option_bind]. rewrite store8_cur by done. cbn [mbind option_bind].
  by rewrite <-!app_assoc.
Qed.

Lemma decode_tail_2 chunks w x0 r c0 c1 c2 c3 :
  is_byte c0 → is_byte c1 → is_byte c2 → is_byte c3 →
  match mapM unch [c0; c1] with
  | Some v => length (unsextets v) = 1%nat ∧
      decode_tail chunks 2 (cur w (x0 :: r)) (le_val [c0; c1; c2; c3]) =
      Some (3 * chunks + 1, w ++ unsextets v ++ r)
  | None => ∃ d, length d = (length w + S (length r))%nat ∧
      decode_tail chunks 2 (cur w (x0 :: r)) (le_val [c0; c1; c2; c3]) = Some (-1, d)
  end.
Proof.
  intros H0 H1 H2 H3.
  destruct (decode_word_2 c0 c1 c2 c3 H0 H1 H2 H3) as (a & b & Ea & Eb & Hq).
  unfold decode_tail. cbn [Z.eqb Pos.eqb]. rewrite Ea, Eb. cbn [mbind option_bind].
  destruct (mapM unch [c0; c1]) as [v|].
  - destruct Hq as (z & -> & Hz & Hv & Hv1). split; [done|].
    destruct (unsextets v) as [|b0 [|]]; try done. apply Forall_cons_1 in Hv as [B0 _].
    cbn [app]. assert (le_val [b0; z] = le_val [b0; z; 0]) as -> by (cbn [le_val]; lia).
    assert (Forall is_byte [b0; z; 0]) as Hb by (rewrite !list.Forall_cons, list.Forall_nil; done).
    rewrite (word_not_bad _ Hb) by done.
    destruct (byte_of_le b0 z 0) as (-> & _ & _); [done..|].
    by rewrite store8_cur by done.
  - rewrite Hq. rewrite store8_cur by done. eexists; split; [|done].
    rewrite length_app. done.
Qed.

Lemma decode_tail_3 chunks w x0 x1 r c0 c1 c2 c3 :
  is_byte c0 → is_byte c1 → is_byte c2 → is_byte c3 →
  match mapM unch [c0; c1; c2] with
  | Some v => length (unsextets v) = 2%nat ∧
      decode_tail chunks 3 (cur w (x0 :: x1 :: r)) (le_val [c0; c1; c2; c3]) =
      Some (3 * chunks + 2, w ++ unsextets v ++ r)
  | None => ∃ d, length d = (length w + S (S (length r)))%nat ∧
      decode_tail chunks 3 (cur w (x0 :: x1 :: r)) (le_val [c0; c1; c2; c3]) = Some (-1, d)
  end.
Proof.
  intros H0 H1 H2 H3.
  destruct (decode_word_3 c0 c1 c2 c3 H0 H1 H2 H3) as (a & b & c & Ea & Eb & Ec & Hq).
  unfold decode_tail. cbn [Z.eqb Pos.eqb]. rewrite Ea, Eb, Ec. cbn [mbind option_bind].
  destruct (mapM unch [c0; c1; c2]) as [v|].
  - destruct Hq as (z & -> & Hz & Hv & Hv1). split; [done|].
    destruct (unsextets v) as [|b0 [|b1 [|]]]; try done.
    rewrite !list.Forall_cons in Hv. destruct Hv as (B0 & B1 & _). cbn [app].
    assert (Forall is_byte [b0; b1; z]) as Hb by (rewrite !list.Forall_cons, list.Forall_nil; done).
    rewrite (word_not_bad _ Hb) by done.
    destruct (byte_of_le b0 b1 z) as (-> & -> & _); [done..|].
    rewrite emit_cur by done. cbn [mbind option_bind]. rewrite store8_cur by done.
    cbn [mbind option_bind]. by rewrite <-!app_assoc.
  - rewrite Hq. rewrite emit_cur by done. cbn [mbind option_bind]. rewrite store8_cur by done.
    eexists; split; [|done]. rewrite !length_app. cbn. lia.
Qed.

Lemma last_quad (src : list Z) :
  src ≠ [] → (length src mod 4 = 0)%nat →
  ∃ A c0 c1 c2 c3 k, src = A ++ [c0; c1; c2; c3] ∧ length A = (4 * k)%nat.
Proof.
  intros Hne Hm. apply Nat.Div0.div_exact in Hm.
  destruct (length src / 4)%nat as [|k] eqn:E; [destruct src; [done|cbn in Hm; lia]|].
  destruct (quad_inv (drop (4 * k) src)) as (c0&c1&c2&c3&r&Hd); [rewrite length_drop; lia|].
  exists (take (4 * k) src), c0, c1, c2, c3, k.
  assert (r = []) as ->.
  { apply (f_equal length) in Hd. rewrite length_drop in Hd. cbn in Hd.
    destruct r; [done|cbn in Hd; lia]. }
  rewrite <-Hd, take_drop, length_take. split; [done|lia].
Qed.

Lemma unpad_last A c0 c1 c2 c3 :
  unpad (A ++ [c0; c1; c2; c3]) =
    A ++ (if c3 =? CHARPAD then if c2 =? CHARPAD then [c0; c1] else [c0; c1; c2]
          else [c0; c1; c2; c3]).
Proof.
  unfold unpad. rewrite length_app. cbn [length].
  rewrite !lookup_app_r by lia.
  replace (length A + 4 - 1 - length A)%nat with 3%nat by lia.
  replace (length A + 4 - 2 - length A)%nat with 2%nat by lia. cbn [lookup list_lookup].
  assert (∀ c, bool_decide (Some c = Some CHARPAD) = (c =? CHARPAD)) as Hb.
  { intros c. destruct (Z.eqb_spec c CHARPAD); [by subst|]. apply bool_decide_eq_false. naive_solver. }
  change (bool_decide ([c0; c1; c2; c3] !! 3%nat = Some CHARPAD)) with (bool_decide (Some c3 = Some CHARPAD)).
  change (bool_decide ([c0; c1; c2; c3] !! 2%nat = Some CHARPAD)) with (bool_decide (Some c2 = Some CHARPAD)).
  rewrite !Hb. repeat case_match; [| |done].
  - replace (length A + 4 - 2)%nat with (length A + 2)%nat by lia. by rewrite take_app_add.
  - replace (length A + 4 - 1)%nat with (length A + 3)%nat by lia. by rewrite take_app_add.
Qed.

Lemma strip_pad_last A c0 c1 c2 c3 ext :
  strip_pad ((A ++ [c0; c1; c2; c3]) ++ ext) (Z.of_nat (length A) + 4) =
    Some (Z.of_nat (length A) + (if c3 =? CHARPAD then if c2 =? CHARPAD then 2 else 3 else 4)).
Proof.
  unfold strip_pad. rewrite <-app_assoc. cbn [app].
  replace (Z.of_nat (length A) + 4 - 1) with (Z.of_nat (length A) + 3) by lia.
  replace (Z.of_nat (length A) + 3 - 1) with (Z.of_nat (length A) + 2) by lia.
  rewrite !idx_app by lia.
  change (Z.to_nat 3) with 3%nat. change (Z.to_nat 2) with 2%nat.
  cbn [lookup list_lookup mbind option_bind]. repeat case_match; done.
Qed.

(** The chunk loop over all quads but the last. *)
Lemma decode_chunks A c0 c1 c2 c3 ext k dest :
  Forall is_byte ((A ++ [c0; c1; c2; c3]) ++ ext) → length A = (4 * k)%nat →
  (3 * k + 1 ≤ length dest)%nat →
  ∃ y, load32 ((A ++ [c0; c1; c2; c3]) ++ ext) 0 = Some y ∧
  match mapM unch A with
  | Some v => ∃ r, (3 * k + length r = length dest)%nat ∧ length (unsextets v) = (3 * k)%nat ∧
      decode_loop k ((A ++ [c0; c1; c2; c3]) ++ ext) 4 (dest, 0) y =
      Some (Chunks (cur (unsextets v) r) (le_val [c0; c1; c2; c3]))
  | None => ∃ d, length d = length dest ∧
      decode_loop k ((A ++ [c0; c1; c2; c3]) ++ ext) 4 (dest, 0) y = Some (Bad d)
  end.
Proof.
  intros Hb HA Hd. rewrite <-app_assoc in *. cbn [app] in *.
  set (l := A ++ c0 :: c1 :: c2 :: c3 :: ext) in *.
  assert (length l = 4 * k + 4 + length ext)%nat as Hl by (unfold l; rewrite length_app; cbn; lia).
  exists (le_val (take 4 l)). split.
  { destruct (quad_inv l) as (b0&b1&b2&b3&q&E); [lia|]. rewrite E. apply (load32_at []). }
  pose proof (decode_loop_spec k [] l [] dest Hb ltac:(lia) ltac:(lia)) as HL.
  assert (take (4 * k) l = A) as Ht by (unfold l; by rewrite <-HA, take_app_length).
  assert (drop (4 * k) l = c0 :: c1 :: c2 :: c3 :: ext) as Hdr
    by (unfold l; by rewrite <-HA, drop_app_length).
  rewrite Ht, Hdr in HL. cbn [app length Z.of_nat take Nat.add] in HL.
  destruct (mapM unch A) as [v|] eqn:Ev; [|exact HL].
  destruct HL as (r & Hr & HL). exists r.
  assert (length (unsextets v) = 3 * k)%nat as Hv.
  { apply mapM_unch_length in Ev. rewrite HA in Ev. clear -Ev. revert v Ev.
    induction k as [|k IH]; intros v Ev; [by destruct v|].
    destruct (quad_inv v) as (a&b&c&d&w&->); [lia|]. cbn [unsextets length] in *.
    rewrite (IH w) by lia. lia. }
  split_and!; [lia|done|exact HL].
Qed.

(** The last quad, with its padding taken off. *)
Lemma decode_last k u r c0 c1 c2 c3 :
  is_byte c0 → is_byte c1 → is_byte c2 → is_byte c3 → length u = (3 * k)%nat → (3 ≤ length r)%nat →
  let last := if c3 =? CHARPAD then if c2 =? CHARPAD then [c0; c1] else [c0; c1; c2]
              else [c0; c1; c2; c3] in
  let lo := if c3 =? CHARPAD then if c2 =? CHARPAD then 2 else 3 else 0 in
  match mapM unch last with
  | Some w => ∃ r', (length (u ++ unsextets w) + length r' = length u + length r)%nat ∧
      decode_tail (Z.of_nat k) lo (cur u r) (le_val [c0; c1; c2; c3]) =
      Some (Z.of_nat (length (u ++ unsextets w)), (u ++ unsextets w) ++ r')
  | None => ∃ d, length d = (length u + length r)%nat ∧
      decode_tail (Z.of_nat k) lo (cur u r) (le_val [c0; c1; c2; c3]) = Some (-1, d)
  end.
Proof.
  intros H0 H1 H2 H3 Hu Hr. destruct r as [|x0 [|x1 [|x2 r]]]; cbn [length] in Hr; try lia.
  cbn zeta. destruct (Z.eqb_spec c3 CHARPAD); [destruct (Z.eqb_spec c2 CHARPAD)|].
  - pose proof (decode_tail_2 (Z.of_nat k) u x0 (x1 :: x2 :: r) c0 c1 c2 c3 H0 H1 H2 H3) as HT.
    destruct (mapM unch _) as [w|]; [|exact HT]. destruct HT as [Hw ->].
    exists (x1 :: x2 :: r). rewrite length_app, Hw, <-app_assoc. split; [cbn [length]; lia|].
    by replace (3 * Z.of_nat k + 1) with (Z.of_nat (length u + 1)) by lia.
  - pose proof (decode_tail_3 (Z.of_nat k) u x0 x1 (x2 :: r) c0 c1 c2 c3 H0 H1 H2 H3) as HT.
    destruct (mapM unch _) as [w|]; [|exact HT]. destruct HT as [Hw ->].
    exists (x2 :: r). rewrite length_app, Hw, <-app_assoc. split; [cbn [length]; lia|].
    by replace (3 * Z.of_nat k + 2) with (Z.of_nat (length u + 2)) by lia.
  - pose proof (decode_tail_0 (Z.of_nat k) u x0 x1 x2 r c0 c1 c2 c3 H0 H1 H2 H3) as HT.
    destruct (mapM unch _) as [w|].
    + destruct HT as [Hw ->].
      exists r. rewrite length_app, Hw, <-app_assoc. split; [cbn [length]; lia|].
      by replace ((Z.of_nat k + 1) * 3) with (Z.of_nat (length u + 3)) by lia.
    + eexists. split; [|exact HT]. by rewrite length_app.
Qed.

(** Whatever the source holds, the decoder stays in a buffer of the size the
    macro asks for; it answers the reference decoding, or [-1] where there is
    none. *)
Lemma modp_b64_decode_spec src ext dest :
  Forall is_byte (src ++ ext) →
  modp_b64_decode_len (Z.of_nat (length src)) ≤ Z.of_nat (length dest) →
  match rfc_decode src with
  | Some s => ∃ r, (length s + length r = length dest)%nat ∧
      modp_b64_decode dest (src ++ ext) (Z.of_nat (length src)) = Some (Z.of_nat (length s), s ++ r)
  | None => ∃ d, length d = length dest ∧
      modp_b64_decode dest (src ++ ext) (Z.of_nat (length src)) = Some (-1, d)
  end.
Proof.
  intros Hb Hd. unfold rfc_decode, modp_b64_decode, modp_b64_decode_len in *.
  destruct (decide (src = [])) as [->|Hne]; [cbn; by exists dest|].
  assert (length src ≠ 0)%nat by (by destruct src).
  rewrite (proj2 (Z.eqb_neq _ 0)) by lia. rewrite Z.rem_mod_nonneg, Z.quot_div_nonneg in * by lia.
  rewrite <-(Nat2Z.inj_mod _ 4), <-?(Nat2Z.inj_div _ 4) in *.
  destruct (decide _) as [Hm|Hm].
  2: { rewrite (proj2 (Z.eqb_neq _ 0)), orb_true_r by lia. by exists dest. }
  destruct (last_quad src Hne Hm) as (A&c0&c1&c2&c3&k&->&HA). clear Hne H.
  rewrite Hm. assert (length (A ++ [c0; c1; c2; c3]) = 4 * k + 4)%nat as Hlen
    by (rewrite length_app; cbn; lia).
  rewrite Hlen in *. rewrite (proj2 (Z.ltb_ge _ 4)) by lia. cbn [orb negb Z.of_nat Z.eqb].
  replace (Z.of_nat (4 * k + 4)) with (Z.of_nat (length A) + 4) by lia.
  rewrite strip_pad_last, unpad_last. cbn [mbind option_bind].
  replace ((4 * k + 4) / 4)%nat with (k + 1)%nat in Hd by (apply Nat.div_unique with 0%nat; lia).
  destruct (decode_chunks A c0 c1 c2 c3 ext k dest Hb HA ltac:(lia)) as (y & -> & Hc).
  cbn [mbind option_bind]. rewrite mapM_app.
  set (e := if c3 =? CHARPAD then if c2 =? CHARPAD then 2 else 3 else 4).
  set (lo := if c3 =? CHARPAD then if c2 =? CHARPAD then 2 else 3 else 0).
  assert (Z.rem (Z.of_nat (length A) + e) 4 = lo ∧
    (if lo =? 0 then Z.quot (Z.of_nat (length A) + e) 4 - 1
     else Z.quot (Z.of_nat (length A) + e) 4) = Z.of_nat k) as [-> ->].
  { subst e lo. rewrite HA. repeat case_match; cbn [Z.eqb]; split; lia. }
  rewrite Nat2Z.id.
  destruct (mapM unch A) as [v|] eqn:Ev; cbn [mbind option_bind].
  2: { destruct Hc as (d & Hd' & ->). by exists d. }
  destruct Hc as (r & Hr & Hv & ->). cbn [mbind option_bind].
  rewrite !list.Forall_app, !list.Forall_cons in Hb.
  destruct Hb as ((_ & H0 & H1 & H2 & H3 & _) & _).
  pose proof (decode_last k (unsextets v) r c0 c1 c2 c3 H0 H1 H2 H3 Hv ltac:(lia)) as HL.
  cbn zeta in HL. fold lo in HL.
  set (last := if c3 =? CHARPAD then if c2 =? CHARPAD then [c0; c1] else [c0; c1; c2]
    else [c0; c1; c2; c3]) in *.
  change (if negb (Z.of_nat 0 =? 0) then ?a else ?b) with b in *.
  destruct (mapM unch last) as [w|]; cbn [mbind option_bind fmap option_fmap option_map].
  - rewrite unsextets_app by (rewrite (mapM_unch_length _ _ Ev), HA, Nat.mul_comm; apply Nat.Div0.mod_mul).
    destruct HL as (r' & Hr' & ->). exists r'. split; [lia|done].
  - destruct HL as (d & Hd' & ->). exists d. split; [lia|done].
Qed.

(** ** The round trip *)

Lemma sextets_range s : Forall is_byte s → Forall (λ v, 0 ≤ v < 64) (sextets s).
Proof.
  induction s as [s IH] using (induction_ltof1 _ (@length Z)). intros Hs.
  destruct s as [|a [|b [|c s]]]; cbn [sextets]; rewrite ?list.Forall_cons in Hs;
    [by constructor|destruct Hs as (Ha & _)|destruct Hs as (Ha & Hb & _)|
     destruct Hs as (Ha & Hb & Hc & Hs)]; unfold is_byte in *;
    rewrite !list.Forall_cons; split_and!; try lia; try by constructor.
  apply IH; [unfold ltof; cbn; lia|done].
Qed.

Lemma unsextets_sextets s : Forall is_byte s → unsextets (sextets s) = s.
Proof.
  induction s as [s IH] using (induction_ltof1 _ (@length Z)). intros Hs.
  destruct s as [|a [|b [|c s]]]; cbn [sextets unsextets]; rewrite ?list.Forall_cons in Hs;
    [done|destruct Hs as (Ha & _)|destruct Hs as (Ha & Hb & _)|
     destruct Hs as (Ha & Hb & Hc & Hs)]; unfold is_byte in *.
  - f_equal. lia.
  - f_equal; [lia|]. f_equal. lia.
  - rewrite IH; [|unfold ltof; cbn; lia|done]. f_equal; [lia|]. f_equal; [lia|]. f_equal. lia.
Qed.

Lemma unpad_plain m : (∀ i, m !! i ≠ Some CHARPAD) → unpad m = m.
Proof. intros H. unfold unpad. by rewrite bool_decide_false by apply H. Qed.

Lemma unpad_1 m : m ≠ [] → (∀ i, m !! i ≠ Some CHARPAD) → unpad (m ++ [CHARPAD]) = m.
Proof.
  intros Hm H. assert (length m ≠ 0)%nat by (by destruct m). unfold unpad.
  rewrite length_app. cbn [length].
  replace (length m + 1 - 1)%nat with (length m + 0)%nat by lia.
  rewrite lookup_app_r, Nat.add_0_r, Nat.sub_diag by lia.
  rewrite bool_decide_true by done.
  rewrite lookup_app_l by lia. rewrite bool_decide_false by apply H. apply take_app_length.
Qed.

Lemma unpad_2 m : unpad (m ++ [CHARPAD; CHARPAD]) = m.
Proof.
  unfold unpad. rewrite length_app. cbn [length].
  replace (length m + 2 - 2)%nat with (length m) by lia.
  rewrite !lookup_app_r by lia. rewrite Nat.sub_diag.
  replace (length m + 2 - 1 - length m)%nat with 1%nat by lia.
  rewrite !bool_decide_true by done. apply take_app_length.
Qed.

Lemma pad_mod n : pad n = match (n mod 3)%nat with 0%nat => [] | 1%nat => [CHARPAD; CHARPAD] | _ => [CHARPAD] end.
Proof.
  unfold pad. pose proof (Nat.mod_upper_bound n 3 ltac:(lia)).
  destruct (n mod 3)%nat as [|[|[|]]]; try lia; done.
Qed.

Lemma unpad_rfc s : Forall is_byte s → unpad (rfc_encode s) = ch <$> sextets s.
Proof.
  intros Hs. unfold rfc_encode.
  assert (∀ i, (ch <$> sextets s) !! i ≠ Some CHARPAD) as Hn.
  { intros i. rewrite list_lookup_fmap. intros (v & Hv & E)%fmap_Some.
    pose proof (sextets_range s Hs) as Hr. eapply Forall_lookup_1 in Hr; [|exact Hv].
    by destruct (ch_byte v Hr). }
  rewrite pad_mod. destruct (length s mod 3)%nat as [|[|]] eqn:E.
  - rewrite app_nil_r. by apply unpad_plain.
  - apply unpad_2.
  - apply unpad_1; [|done]. destruct s as [|? [|? [|]]]; done.
Qed.

Lemma mapM_unch_ch l : Forall (λ v, 0 ≤ v < 64) l → mapM unch (ch <$> l) = Some l.
Proof.
  induction 1 as [|v l Hv _ IH]; [done|]. cbn [fmap list_fmap mapM].
  change (list_fmap Z Z ch l) with (ch <$> l). rewrite unch_ch by done.
  cbn [mbind option_bind]. by rewrite IH.
Qed.

Lemma rfc_decode_encode s : Forall is_byte s → rfc_decode (rfc_encode s) = Some s.
Proof.
  intros Hs. unfold rfc_decode. rewrite decide_True.
  - rewrite unpad_rfc, mapM_unch_ch by auto using sextets_range. cbn. by rewrite unsextets_sextets.
  - unfold rfc_encode. rewrite length_app, length_fmap, <-length_app, sextets_length.
    rewrite Nat.mul_comm. apply Nat.Div0.mod_mul.
Qed.

Lemma rfc_encode_bytes s : Forall is_byte s → Forall is_byte (rfc_encode s).
Proof.
  intros Hs. apply list.Forall_app. split.
  - apply list.Forall_fmap. eapply list.Forall_impl; [by apply sextets_range|]. intros v Hv. by apply ch_byte.
  - unfold pad. apply list.Forall_forall. intros x Hx.
    apply list_elem_of_In, repeat_spec in Hx. by subst.
Qed.

(** C40  [modp_b64_encode] writes the RFC 4648 encoding and a zero byte into a
    buffer of [modp_b64_encode_len] bytes and returns the encoding's length;
    [modp_b64_decode] run on that buffer gives the bytes back, in a buffer of
    [modp_b64_decode_len] bytes, without a store outside either. *)
Theorem b64_roundtrip (s dest back : list Z)
  (Hs : Forall is_byte s) (Hmax : Z.of_nat (length s) ≤ 1610612733)
  (Hdest : modp_b64_encode_len (Z.of_nat (length s)) ≤ Z.of_nat (length dest))
  (Hbytes : Forall is_byte dest)
  (Hback : modp_b64_decode_len (modp_b64_encode_strlen (Z.of_nat (length s))) ≤ Z.of_nat (length back)) :
  ∃ n enc dec rest,
    modp_b64_encode dest s (Z.of_nat (length s)) = Some (n, enc) ∧
    n = modp_b64_encode_strlen (Z.of_nat (length s)) ∧
    take (Z.to_nat n) enc = rfc_encode s ∧ enc !! Z.to_nat n = Some 0 ∧
    modp_b64_decode back enc n = Some (Z.of_nat (length s), dec) ∧ dec = s ++ rest.
Proof.
  pose proof (rfc_encode_length s) as Hl.
  rewrite modp_b64_encode_spec by done. rewrite <-Hl in *.
  pose proof (modp_b64_decode_spec (rfc_encode s) (0 :: drop (S (length (rfc_encode s))) dest) back) as HD.
  rewrite rfc_decode_encode in HD by done.
  destruct HD as (rest & _ & HD).
  { apply list.Forall_app. split; [by apply rfc_encode_bytes|]. constructor; [done|]. by apply list.Forall_drop. }
  { done. }
  do 4 eexists. split; [done|]. rewrite Nat2Z.id.
  rewrite take_app_length, lookup_app_r, Nat.sub_diag by lia.
  split_and!; [done..|exact HD|done].
Qed.

Lemma b64_roundtrip_witness :
  modp_b64_decode (repeat 9 14) (bytes_of "SGVsbG8sIHdvcg==") 16 = Some (10, bytes_of "Hello, wor" ++ repeat 9 4) ∧
  ∃ n enc dec rest,
    modp_b64_encode (repeat 9 20) (bytes_of "Hello, wor") 10 = Some (n, enc) ∧
    n = modp_b64_encode_strlen 10 ∧
    take (Z.to_nat n) enc = rfc_encode (bytes_of "Hello, wor") ∧ enc !! Z.to_nat n = Some 0 ∧
    modp_b64_decode (repeat 9 14) enc n = Some (10, dec) ∧ dec = bytes_of "Hello, wor" ++ rest.
Proof.
  split; [by vm_compute|].
  apply (b64_roundtrip (bytes_of "Hello, wor") (repeat 9 20) (repeat 9 14)).
  - apply bytes_of_bytes.
  - by vm_compute.
  - by vm_compute.
  - apply list.Forall_forall. intros x Hx. apply list_elem_of_In, repeat_spec in Hx. by subst.
  - by vm_compute.
Defined.

Lemma unch_None c : unch c = None ↔ c ∉ alphabet.
Proof.
  unfold unch. rewrite fmap_None, list_find_None, list.Forall_forall. split.
  - intros H Hc. by apply (H c).
  - intros H x Hx ->. done.
Qed.

Lemma mapM_unch_None l : mapM unch l = None ↔ ∃ c, c ∈ l ∧ c ∉ alphabet.
Proof.
  rewrite mapM_None, list.Exists_exists.
  split; intros (c & Hc & H); exists c; split; try done; by apply unch_None.
Qed.

(** [modp_b64_decode] answers every source, and never stores outside a
    buffer of [modp_b64_decode_len] bytes: it returns [-1] exactly when the
    length is not a multiple of four or a character that is left when at most
    two padding characters are taken off the end is not in the alphabet, and
    otherwise the number of bytes it decoded. *)
Theorem b64_decode_errors (src ext dest : list Z)
  (Hb : Forall is_byte (src ++ ext))
  (Hd : modp_b64_decode_len (Z.of_nat (length src)) ≤ Z.of_nat (length dest)) :
  ∃ rc d, modp_b64_decode dest (src ++ ext) (Z.of_nat (length src)) = Some (rc, d) ∧
    length d = length dest ∧
    (rc = -1 ↔ (length src mod 4 ≠ 0)%nat ∨ ∃ c, c ∈ unpad src ∧ c ∉ alphabet) ∧
    (rc ≠ -1 → ∃ v, mapM unch (unpad src) = Some v ∧
       rc = Z.of_nat (length (unsextets v)) ∧ take (Z.to_nat rc) d = unsextets v).
Proof.
  pose proof (modp_b64_decode_spec src ext dest Hb Hd) as HD. unfold rfc_decode in HD.
  pose proof (mapM_unch_None (unpad src)) as HN.
  destruct (decide _) as [Hm|Hm]; [destruct (mapM unch (unpad src)) as [v|] eqn:Ev|]; cbn in HD.
  - destruct HD as (r & Hr & ->). do 2 eexists. split; [done|]. rewrite length_app. split; [done|].
    split; [split; [lia|by intros [|?%HN]]|]. intros _. exists v. by rewrite Nat2Z.id, take_app_length.
  - destruct HD as (d & Hd' & ->). do 2 eexists. split; [done|]. split; [done|].
    split; [split; [right; by apply HN|done]|done].
  - destruct HD as (d & Hd' & ->). do 2 eexists. split; [done|]. split; [done|].
    split; [split; [by left|done]|done].
Qed.

Lemma b64_decode_errors_witness :
  fst <$> modp_b64_decode (repeat 9 5) (bytes_of "QQ?=") 4 = Some (-1) ∧
  ∃ rc d, modp_b64_decode (repeat 9 5) (bytes_of "QQ?=" ++ []) 4 = Some (rc, d) ∧
    length d = 5%nat ∧
    (rc = -1 ↔ (length (bytes_of "QQ?=") mod 4 ≠ 0)%nat ∨
       ∃ c, c ∈ unpad (bytes_of "QQ?=") ∧ c ∉ alphabet) ∧
    (rc ≠ -1 → ∃ v, mapM unch (unpad (bytes_of "QQ?=")) = Some v ∧
       rc = Z.of_nat (length (unsextets v)) ∧ take (Z.to_nat rc) d = unsextets v).
Proof.
  split; [by vm_compute|]. apply (b64_decode_errors (bytes_of "QQ?=") [] (repeat 9 5)).
  - rewrite app_nil_r. apply bytes_of_bytes.
  - by vm_compute.
Defined.
