(* ===== verification/CJson.v ===== *)
(** * CJson: the JSON trees of the protocol, their text and its parser

    Models [src/corelib/cJSON.c].  A node is the C structure without its
    sibling links: its children are a list.  Text is the list of bytes before
    the terminating NUL; a read beyond the terminator, a store outside a
    [malloc]ed buffer and a [strlen] of a null pointer are [None].  The parser
    returns a null pointer where a second, inner [option] is [None].
    [malloc] is assumed to succeed.

    C's [double] is the binary64 format: [Fin m e] is [m * 2 ^ e] and every
    operation rounds its exact result to nearest even.  The sign of zero is
    not kept, since nothing here depends on it.  Converting a double outside
    [int] to [int], which C leaves undefined, gives what x86 gives. *)

From S2P Require Import Prelude Values.
Import Str.

#[local] Ltac Zify.zify_post_hook ::= Z.to_euclidean_division_equations.

(** ** Doubles *)
Module Dbl.

Inductive double := Fin (m e : Z) | Inf (negative : bool) | NaN.

#[export] Instance double_eq : EqDecision double.
Proof. solve_decision. Defined.

Definition bits (m : Z) : Z := if m =? 0 then 0 else Z.log2 (Z.abs m) + 1.

(** [m / 2 ^ s], to the nearest integer, ties to even *)
Definition rne (m s : Z) : Z :=
  let q := m / 2 ^ s in
  let r := m mod 2 ^ s in
  let h := 2 ^ (s - 1) in
  if r <? h then q else if h <? r then q + 1 else if Z.even q then q else q + 1.

Definition dround (m e : Z) : double :=
  let s := Z.max (bits m - 53) (-1074 - e) in
  let '(m, e) := if s <=? 0 then (m, e) else (rne m s, e + s) in
  if 1024 <? bits m + e then Inf (m <? 0) else Fin m e.

Definition of_int (z : Z) : double := dround z 0.

Definition dmul (a b : double) : double :=
  match a, b with
  | Fin m e, Fin m' e' => dround (m * m') (e + e')
  | Inf s, Inf s' => Inf (xorb s s')
  | Inf s, Fin m _ | Fin m _, Inf s => if m =? 0 then NaN else Inf (xorb s (m <? 0))
  | _, _ => NaN
  end.

Definition align (m e e' : Z) : Z := m * 2 ^ (e - Z.min e e').

Definition dadd (a b : double) : double :=
  match a, b with
  | Fin m e, Fin m' e' => dround (align m e e' + align m' e' e) (Z.min e e')
  | Inf s, Inf s' => if Bool.eqb s s' then Inf s else NaN
  | Inf s, Fin _ _ | Fin _ _, Inf s => Inf s
  | _, _ => NaN
  end.

Definition dneg (a : double) : double :=
  match a with Fin m e => Fin (- m) e | Inf s => Inf (negb s) | NaN => NaN end.
Definition dsub (a b : double) : double := dadd a (dneg b).
Definition fabs (a : double) : double :=
  match a with Fin m e => Fin (Z.abs m) e | Inf _ => Inf false | NaN => NaN end.
Definition floor (a : double) : double :=
  match a with
  | Fin m e => if 0 <=? e then a else Fin (m / 2 ^ (- e)) 0
  | _ => a
  end.

(** [a <= b] *)
Definition dle (a b : double) : bool :=
  match a, b with
  | Fin m e, Fin m' e' => align m e e' <=? align m' e' e
  | NaN, _ | _, NaN => false
  | Inf true, _ | _, Inf false => true
  | Inf false, _ | _, Inf true => false
  end.

(** [a < b] *)
Definition dlt (a b : double) : bool := dle a b && negb (dle b a).

Definition INT_MAX : Z := 2147483647.
Definition INT_MIN : Z := -2147483648.

(** [(int)d] *)
Definition to_int (a : double) : Z :=
  match a with
  | Fin m e =>
    let t := if 0 <=? e then m * 2 ^ e else Z.quot m (2 ^ (- e)) in
    if (INT_MIN <=? t) && (t <=? INT_MAX) then t else INT_MIN
  | _ => INT_MIN
  end.

Definition DBL_EPSILON : double := Fin 1 (-52).

(** Integers of at most 53 bits are exact. *)
Definition exact (z : Z) : Prop := - 2 ^ 53 < z < 2 ^ 53.

Lemma bits_exact z : exact z → bits z ≤ 53.
Proof.
  unfold exact, bits. intros H. destruct (Z.eqb_spec z 0); [lia|].
  assert (Z.log2 (Z.abs z) < 53); [|lia]. apply Z.log2_lt_pow2; lia.
Qed.

Lemma dround_exact z : exact z → dround z 0 = Fin z 0.
Proof.
  intros H%bits_exact. unfold dround.
  destruct (Z.leb_spec (Z.max (bits z - 53) (-1074 - 0)) 0); [|lia].
  destruct (Z.ltb_spec 1024 (bits z + 0)); [lia|done].
Qed.

Lemma of_int_exact z : exact z → of_int z = Fin z 0.
Proof. apply dround_exact. Qed.

Lemma dmul_exact a b : exact (a * b) → dmul (Fin a 0) (Fin b 0) = Fin (a * b) 0.
Proof. intros H. by apply dround_exact. Qed.

Lemma dadd_exact a b : exact (a + b) → dadd (Fin a 0) (Fin b 0) = Fin (a + b) 0.
Proof.
  intros H. cbn. unfold align. cbn. rewrite !Z.mul_1_r. by apply dround_exact.
Qed.

Lemma to_int_fin z :
  to_int (Fin z 0) = if (INT_MIN <=? z) && (z <=? INT_MAX) then z else INT_MIN.
Proof. cbn. by rewrite Z.mul_1_r. Qed.

End Dbl.
Import Dbl.

(** ** Nodes *)

Inductive cJSON_Type :=
  | cJSON_False | cJSON_True | cJSON_NULL | cJSON_Number | cJSON_String | cJSON_Array | cJSON_Object.

#[export] Instance type_eq : EqDecision cJSON_Type.
Proof. solve_decision. Defined.

(** [name] is the member [string], the node's key in its object. *)
Inductive cJSON := Item {
  type : cJSON_Type;
  valuestring : option string;
  valueint : Z;
  valuedouble : double;
  name : option string;
  child : list cJSON
}.

(** [memset] to zero makes a node of type [cJSON_False]. *)
Definition cJSON_New_Item : cJSON := Item cJSON_False None 0 (Fin 0 0) None [].

Definition with_type (t : cJSON_Type) (i : cJSON) : cJSON :=
  Item t (valuestring i) (valueint i) (valuedouble i) (name i) (child i).
Definition with_name (n : option string) (i : cJSON) : cJSON :=
  Item (type i) (valuestring i) (valueint i) (valuedouble i) n (child i).
Definition with_child (l : list cJSON) (i : cJSON) : cJSON :=
  Item (type i) (valuestring i) (valueint i) (valuedouble i) (name i) l.

Definition cJSON_CreateNull : cJSON := with_type cJSON_NULL cJSON_New_Item.
Definition cJSON_CreateTrue : cJSON := with_type cJSON_True cJSON_New_Item.
Definition cJSON_CreateFalse : cJSON := with_type cJSON_False cJSON_New_Item.
Definition cJSON_CreateNumber (num : double) : cJSON :=
  Item cJSON_Number None (to_int num) num None [].
(** [cJSON_strdup] takes the length of its argument. *)
Definition cJSON_strdup (str : option string) : option string := str.
Definition cJSON_CreateString (str : option string) : option cJSON :=
  s ← cJSON_strdup str; Some (Item cJSON_String (Some s) 0 (Fin 0 0) None []).
Definition cJSON_CreateArray : cJSON := with_type cJSON_Array cJSON_New_Item.
Definition cJSON_CreateObject : cJSON := with_type cJSON_Object cJSON_New_Item.

Definition cJSON_AddItemToArray (array item : cJSON) : cJSON :=
  with_child (child array ++ [item]) array.
Definition cJSON_AddItemToObject (object : cJSON) (key : option string) (item : cJSON) : option cJSON :=
  s ← cJSON_strdup key; Some (cJSON_AddItemToArray object (with_name (Some s) item)).

Definition tolower (c : ascii) : Z :=
  let z := uchar_z c in if (65 <=? z) && (z <=? 90) then z + 32 else z.

(** The comparison of the names [cJSON_GetObjectItem] looks for, without
    regard to case; zero when they are equal. *)
Fixpoint strcasecmp_go (s1 s2 : string) : Z :=
  match s1, s2 with
  | EmptyString, EmptyString => 0
  | String a s1, String b s2 =>
    if tolower a =? tolower b then strcasecmp_go s1 s2 else tolower a - tolower b
  | EmptyString, String b _ => 0 - tolower b
  | String a _, EmptyString => tolower a
  end.
Definition cJSON_strcasecmp (s1 s2 : option string) : Z :=
  match s1, s2 with
  | None, None => 0
  | None, Some _ | Some _, None => 1
  | Some s1, Some s2 => strcasecmp_go s1 s2
  end.

Definition cJSON_GetArraySize (array : cJSON) : Z := Z.of_nat (length (child array)).
Definition cJSON_GetArrayItem (array : cJSON) (item : Z) : option cJSON :=
  child array !! Z.to_nat item.
Definition cJSON_GetObjectItem (object : cJSON) (key : string) : option cJSON :=
  snd <$> list_find (λ c, cJSON_strcasecmp (name c) (Some key) = 0) (child object).

(** ** Rendering *)

(** [sprintf] of an integer *)
Fixpoint dec_go (fuel : nat) (n : Z) (acc : list Z) : list Z :=
  match fuel with
  | O => acc
  | S fuel =>
    if n <? 10 then (48 + n) :: acc else dec_go fuel (n / 10) ((48 + n mod 10) :: acc)
  end.
Definition decimal (z : Z) : list Z :=
  let n := Z.abs z in
  let l := dec_go (S (Z.to_nat (Z.log2 n))) n [] in
  if z <? 0 then 45 :: l else l.

(** [malloc(n)] filled with [out] and its NUL *)
Definition malloced (n : Z) (out : list Z) : option (list Z) :=
  if Z.of_nat (length out) + 1 <=? n then Some out else None.

(** The six decimals of ["%f"] and ["%e"] *)
Definition six (frac : Z) : list Z :=
  let l := decimal frac in repeat 48 (6 - length l) ++ l.
(** [|d| * 10 ^ k], rounded to an integer *)
Definition scaled (m e k : Z) : Z :=
  let n := Z.abs m * 10 ^ Z.max k 0 * 2 ^ Z.max e 0 in
  let q := 10 ^ Z.max (- k) 0 * 2 ^ Z.max (- e) 0 in
  let '(f, r) := Z.div_eucl n q in
  if 2 * r <? q then f else if q <? 2 * r then f + 1 else if Z.even f then f else f + 1.
Definition printf_f (prec6 : bool) (d : double) : list Z :=
  match d with
  | Fin m e =>
    let sign := if m <? 0 then [45] else [] in
    if prec6 then
      let v := scaled m e 6 in sign ++ decimal (v / 1000000) ++ [46] ++ six (v mod 1000000)
    else sign ++ decimal (scaled m e 0)
  | Inf s => (if s then [45] else []) ++ bytes_of "inf"
  | NaN => bytes_of "nan"
  end.
(** The decimal exponent of a positive number *)
Fixpoint small_exponent (fuel : nat) (n q : Z) : Z :=
  match fuel with
  | O => 0
  | S fuel => if q <=? n * 10 then -1 else small_exponent fuel (n * 10) q - 1
  end.
Definition exponent10 (m e : Z) : Z :=
  let n := Z.abs m * 2 ^ Z.max e 0 in
  let q := 2 ^ Z.max (- e) 0 in
  if q <=? n then Z.of_nat (length (decimal (n / q))) - 1 else small_exponent 400 n q.
Definition printf_e (d : double) : list Z :=
  match d with
  | Fin m e =>
    let '(v, k) :=
      if m =? 0 then (0, 0)
      else
        let k := exponent10 m e in
        let v := scaled m e (6 - k) in
        if 10000000 <=? v then (v / 10, k + 1) else (v, k) in
    let x := decimal (Z.abs k) in
    (if m <? 0 then [45] else []) ++ decimal (v / 1000000) ++ [46] ++ six (v mod 1000000) ++ [101] ++
      (if k <? 0 then [45] else [43]) ++ repeat 48 (2 - length x) ++ x
  | _ => printf_f true d
  end.

Definition print_number (item : cJSON) : option (list Z) :=
  let d := valuedouble item in
  if dle (fabs (dsub (of_int (valueint item)) d)) DBL_EPSILON && dle d (of_int INT_MAX) &&
     dle (of_int INT_MIN) d
  then malloced 21 (decimal (valueint item))
  else
    malloced 64
      (if dle (fabs (dsub (floor d) d)) DBL_EPSILON then printf_f false d
       else if dlt (fabs d) (Fin 4722366482869645 (-72)) || dlt (of_int 1000000000) (fabs d)
       then printf_e d
       else printf_f true d).

Definition needs_escape (c : Z) : bool := (c <? 32) || (c =? 34) || (c =? 92).

(** A control character with no short escape is dropped: [ptr2--] takes the
    backslash back. *)
Definition escaped (c : Z) : list Z :=
  if c =? 92 then [92; 92]
  else if c =? 34 then [92; 34]
  else if c =? 8 then [92; 98]
  else if c =? 12 then [92; 102]
  else if c =? 10 then [92; 110]
  else if c =? 13 then [92; 114]
  else if c =? 9 then [92; 116]
  else [].
Fixpoint print_chars (s : list Z) : list Z :=
  match s with
  | [] => []
  | c :: s => (if needs_escape c then escaped c else [c]) ++ print_chars s
  end.
Fixpoint string_len (s : list Z) : Z :=
  match s with
  | [] => 0
  | c :: s => (if needs_escape c then 2 else 1) + string_len s
  end.
Definition print_string_ptr (str : option string) : option (list Z) :=
  match str with
  | None => Some []
  | Some s => malloced (string_len (bytes_of s) + 3) ([34] ++ print_chars (bytes_of s) ++ [34])
  end.
Definition print_string (item : cJSON) : option (list Z) := print_string_ptr (valuestring item).

Definition sum_with (f : list Z → Z) (l : list (list Z)) : Z := foldr (λ x n, f x + n) 0 l.
Definition strlen (l : list Z) : Z := Z.of_nat (length l).

Fixpoint join_entries (sep : list Z) (l : list (list Z)) : list Z :=
  match l with
  | [] => []
  | [x] => x
  | x :: l => x ++ sep ++ join_entries sep l
  end.

(** [ptr] writes [depth] tabs, the name, a colon and a tab, the value, a comma
    except after the last entry, and a newline. *)
Fixpoint object_entries (depth : Z) (fmt : bool) (l : list (list Z * list Z)) : list Z :=
  match l with
  | [] => []
  | (n, x) :: l =>
    (if fmt then repeat 9 (Z.to_nat depth) else []) ++ n ++ [58] ++ (if fmt then [9] else []) ++ x ++
    (match l with [] => [] | _ => [44] end) ++ (if fmt then [10] else []) ++
    object_entries depth fmt l
  end.

Definition print_array (entries : list (list Z)) (fmt : bool) : option (list Z) :=
  malloced (5 + sum_with (λ r, strlen r + 2 + (if fmt then 1 else 0)) entries)
    ([91] ++ join_entries ([44] ++ if fmt then [32] else []) entries ++ [93]).

Definition print_object (entries : list (list Z * list Z)) (depth : Z) (fmt : bool) : option (list Z) :=
  let depth := depth + 1 in
  malloced
    (7 + (if fmt then depth else 0) +
     foldr (λ e n, strlen e.2 + strlen e.1 + 2 + (if fmt then 2 + depth else 0) + n) 0 entries)
    ([123] ++ (if fmt then [10] else []) ++ object_entries depth fmt entries ++
     (if fmt then repeat 9 (Z.to_nat (depth - 1)) else []) ++ [125]).

Fixpoint print_value (item : cJSON) (depth : Z) (fmt : bool) {struct item} : option (list Z) :=
  match type item with
  | cJSON_NULL => Some (bytes_of "null")
  | cJSON_False => Some (bytes_of "false")
  | cJSON_True => Some (bytes_of "true")
  | cJSON_Number => print_number item
  | cJSON_String => print_string item
  | cJSON_Array =>
    entries ← mapM (λ c, print_value c (depth + 1) fmt) (child item);
    print_array entries fmt
  | cJSON_Object =>
    entries ← mapM (λ c, n ← print_string_ptr (name c);
                         x ← print_value c (depth + 1) fmt; Some (n, x)) (child item);
    print_object entries depth fmt
  end.

Definition cJSON_Print (item : cJSON) : option (list Z) := print_value item 0 true.
Definition cJSON_PrintUnformatted (item : cJSON) : option (list Z) := print_value item 0 false.

(** ** Parsing *)

(** [*p] and [p++] *)
Definition rd (p : list Z) : Z := default 0 (head p).
Definition adv (p : list Z) : option (list Z) :=
  match p with [] => None | _ :: p => Some p end.

Fixpoint skip (p : list Z) : option (list Z) :=
  match p with
  | [] => None
  | c :: q => if c <=? 32 then skip q else Some p
  end.
(** [skip(NULL)] is [NULL] and the callers return on it. *)
Definition pskip {A} (r : parse (A * list Z)) : parse (A * list Z) :=
  '(a, p) <~ r; p ← skip p; Some (Some (a, p)).

Definition is_digit (c : Z) : bool := (48 <=? c) && (c <=? 57).

(** The loop that accumulates decimal digits, with the number of characters
    it read *)
Fixpoint digits (n : double) (k : Z) (p : list Z) : double * Z * list Z :=
  match p with
  | c :: q =>
    if is_digit c then digits (dadd (dmul n (of_int 10)) (of_int (c - 48))) (k + 1) q
    else (n, k, p)
  | [] => (n, k, p)
  end.
Fixpoint exp_digits (subscale : Z) (p : list Z) : Z * list Z :=
  match p with
  | c :: q => if is_digit c then exp_digits (i32 (subscale * 10 + (c - 48))) q else (subscale, p)
  | [] => (subscale, p)
  end.

(** [p++] when [p] is at [c] *)
Definition eat (c : Z) (p : list Z) : bool * list Z :=
  match p with x :: q => if x =? c then (true, q) else (false, p) | [] => (false, []) end.

(** The parts of [parse_number], in its order *)
Definition int_part (num : list Z) : double * list Z :=
  if (49 <=? rd num) && (rd num <=? 57) then
    let '(n, _, num) := digits (of_int 0) 0 num in (n, num)
  else (of_int 0, num).

(** The loop takes one character before it looks for a digit. *)
Definition frac_part (n : double) (num : list Z) : option (double * Z * list Z) :=
  if rd num =? 46 then
    num ← adv num;
    let c := rd num in
    num ← adv num;
    let '(n, k, num) := digits (dadd (dmul n (of_int 10)) (of_int (char_z (ascii_of_z c) - 48))) 1 num in
    Some (n, - k, num)
  else Some (n, 0, num).

Definition exp_part (num : list Z) : option (Z * list Z) :=
  if (rd num =? 101) || (rd num =? 69) then
    num ← adv num;
    let '(plus, num) := eat 43 num in
    let '(minus, num) := if plus : bool then (false, num) else eat 45 num in
    let '(sub, num) := exp_digits 0 num in
    Some (i32 (sub * if minus : bool then -1 else 1), num)
  else Some (0, num).

Section Parser.
(** [pow(10.0, k)] of the mathematics library *)
Variable pow10 : Z → double.

Definition parse_number (item : cJSON) (num : list Z) : option (cJSON * list Z) :=
  let '(minus, num) := eat 45 num in
  let sign := if minus : bool then -1 else 1 in
  let '(n, num) := int_part (eat 48 num).2 in
  '(n, scale, num) ← frac_part n num;
  '(subscale, num) ← exp_part num;
  let n := dmul (dmul (of_int sign) n) (pow10 (scale + subscale)) in
  Some (Item cJSON_Number (valuestring item) (to_int n) n (name item) (child item), num).

(** The scan that measures a string: [len] of the first loop. *)
Fixpoint scan_string (len : Z) (p : list Z) : option Z :=
  match p with
  | [] => Some len
  | c :: q =>
    if (c =? 34) || (c <=? 31) then Some len
    else if c =? 92 then
      match q with
      | [] => None
      | _ :: q => scan_string (len + 1) q
      end
    else scan_string (len + 1) q
  end.

(** [sscanf(ptr, "%4x", &uc)]: a sign and a prefix count among the four
    characters, and [uc] keeps its value when there is no digit. *)
Definition hex_val (c : Z) : option Z :=
  if is_digit c then Some (c - 48)
  else if (97 <=? c) && (c <=? 102) then Some (c - 87)
  else if (65 <=? c) && (c <=? 70) then Some (c - 55)
  else None.
Fixpoint hex_digits (w : nat) (acc : option Z) (p : list Z) : option Z :=
  match w, p with
  | S w, c :: p =>
    match hex_val c with
    | Some v => hex_digits w (Some (default 0 acc * 16 + v)) p
    | None => acc
    end
  | _, _ => acc
  end.
Definition is_space (c : Z) : bool := (c =? 32) || ((9 <=? c) && (c <=? 13)).
Fixpoint drop_spaces (p : list Z) : list Z :=
  match p with
  | c :: q => if is_space c then drop_spaces q else p
  | [] => []
  end.
Definition sscanf_4x (uc : option Z) (p : list Z) : option Z :=
  let '(neg, p) := eat 45 (drop_spaces p) in
  let '(plus, p) := if neg : bool then (false, p) else eat 43 p in
  let w := (if neg || plus then 3 else 4)%nat in
  let '(zero, q) := eat 48 p in
  let v :=
    if (zero : bool) && ((rd q =? 120) || (rd q =? 88)) then hex_digits (w - 2) None (tail q)
    else hex_digits w None p in
  match v with
  | Some v => Some (u32 (if neg then - v else v))
  | None => uc
  end.

(** The bytes of a UTF-16 unit, by its unsigned value *)
Definition utf8 (uc : Z) : list Z :=
  let cont x := wrapu 8 (Z.land (Z.lor x 128) 191) in
  if uc <? 128 then [wrapu 8 uc]
  else if uc <? 2048 then [wrapu 8 (Z.lor (Z.shiftr uc 6) 192); cont uc]
  else [wrapu 8 (Z.lor (Z.shiftr uc 12) 224); cont (Z.shiftr uc 6); cont uc].

Definition unescape (c : Z) : Z :=
  if c =? 98 then 8 else if c =? 102 then 12 else if c =? 110 then 10
  else if c =? 114 then 13 else if c =? 116 then 9 else c.

(** The loop that copies: [out] holds [size] bytes, of which [done] are
    written. *)
Fixpoint copy_string (fuel : nat) (size : Z) (uc : option Z) (done p : list Z)
  : option (list Z * list Z) :=
  match fuel with
  | O => None
  | S fuel =>
    let c := rd p in
    if (c =? 34) || (c <=? 31) then
      if Z.of_nat (length done) <? size then Some (done, p) else None
    else
      p ← adv p;
      '(l, uc, p) ←
        (if c =? 92 then
           let e := rd p in
           if e =? 117 then
             q ← adv p;
             let uc := sscanf_4x uc q in
             v ← uc;
             p ← (q ← adv p; q ← adv q; q ← adv q; adv q);
             p ← adv p;
             Some (utf8 v, Some (if v <? 128 then v else if v <? 2048 then Z.shiftr v 6 else Z.shiftr v 12), p)
           else
             p ← adv p; Some ([unescape e], uc, p)
         else Some ([c], uc, p));
      let done := done ++ l in
      if Z.of_nat (length done) <=? size then copy_string fuel size uc done p else None
  end.

(** The C string in a buffer, which ends at its first NUL *)
Fixpoint until_nul (l : list Z) : list Z :=
  match l with
  | [] => []
  | b :: l => if b =? 0 then [] else b :: until_nul l
  end.

Definition parse_string (item : cJSON) (str : list Z) : parse (cJSON * list Z) :=
  let '(quote, ptr) := eat 34 str in
  if quote : bool then
    len ← scan_string 0 ptr;
    '(out, ptr) ← copy_string (S (length ptr)) (len + 1) None [] ptr;
    Some (Some (Item cJSON_String (Some (string_of_bytes (until_nul out))) (valueint item)
                  (valuedouble item) (name item) (child item), (eat 34 ptr).2))
  else Some None.

Fixpoint has_prefix (w p : list Z) : bool :=
  match w, p with
  | [], _ => true
  | a :: w, b :: p => (a =? b) && has_prefix w p
  | _, [] => false
  end.

(** [child->string = child->valuestring; child->valuestring = 0] *)
Definition take_name (c : cJSON) : cJSON :=
  Item (type c) None (valueint c) (valuedouble c) (valuestring c) (child c).

(** [fuel] bounds the values parsed; it is enough when it exceeds the length
    of the text. *)
Fixpoint parse_value (fuel : nat) (item : cJSON) (value : list Z) {struct fuel}
  : parse (cJSON * list Z) :=
  match fuel with
  | O => None
  | S fuel =>
    if has_prefix (bytes_of "null") value then
      Some (Some (with_type cJSON_NULL item, drop 4 value))
    else if has_prefix (bytes_of "false") value then
      Some (Some (with_type cJSON_False item, drop 5 value))
    else if has_prefix (bytes_of "true") value then
      Some (Some (Item cJSON_True (valuestring item) 1 (valuedouble item) (name item) (child item),
                  drop 4 value))
    else
      let c := rd value in
      if c =? 34 then parse_string item value
      else if (c =? 45) || is_digit c then Some <$> parse_number item value
      else if c =? 91 then
        value ← adv value;
        value ← skip value;
        if rd value =? 93 then value ← adv value; Some (Some (with_type cJSON_Array item, value))
        else
          '(l, value) <~ array_items fuel value;
          Some (Some (with_child l (with_type cJSON_Array item), value))
      else if c =? 123 then
        value ← adv value;
        value ← skip value;
        if rd value =? 125 then value ← adv value; Some (Some (with_type cJSON_Object item, value))
        else
          '(l, value) <~ object_items fuel value;
          Some (Some (with_child l (with_type cJSON_Object item), value))
      else Some None
  end
with array_items (fuel : nat) (value : list Z) {struct fuel} : parse (list cJSON * list Z) :=
  match fuel with
  | O => None
  | S fuel =>
    value ← skip value;
    '(c, value) <~ pskip (parse_value fuel cJSON_New_Item value);
    if rd value =? 44 then
      value ← adv value;
      '(l, value) <~ array_items fuel value;
      Some (Some (c :: l, value))
    else if rd value =? 93 then value ← adv value; Some (Some ([c], value))
    else Some None
  end
with object_items (fuel : nat) (value : list Z) {struct fuel} : parse (list cJSON * list Z) :=
  match fuel with
  | O => None
  | S fuel =>
    value ← skip value;
    '(c, value) <~ pskip (parse_string cJSON_New_Item value);
    if rd value =? 58 then
      value ← adv value;
      value ← skip value;
      '(c, value) <~ pskip (parse_value fuel (take_name c) value);
      if rd value =? 44 then
        value ← adv value;
        '(l, value) <~ object_items fuel value;
        Some (Some (c :: l, value))
      else if rd value =? 125 then value ← adv value; Some (Some ([c], value))
      else Some None
    else Some None
  end.

(** A null pointer when the text is not well formed; what follows the value is
    not looked at. *)
Definition cJSON_Parse (value : list Z) : parse cJSON :=
  value ← skip value;
  '(c, _) <~ parse_value (S (length value) * 2) cJSON_New_Item value;
  Some (Some c).

End Parser.

(** ** Text that is read back *)

(** The bytes that survive rendering: control characters without a short
    escape do not. *)
Definition clean_byte (c : Z) : Prop :=
  32 ≤ c < 256 ∨ c = 8 ∨ c = 9 ∨ c = 10 ∨ c = 12 ∨ c = 13.
Definition clean (s : string) : Prop := Forall clean_byte (bytes_of s).

#[export] Instance clean_byte_dec c : Decision (clean_byte c).
Proof. unfold clean_byte. apply _. Defined.
#[export] Instance clean_dec s : Decision (clean s).
Proof. unfold clean. apply _. Defined.

(** Trees that survive rendering: integers of at most 53 bits, clean strings,
    names on the members of objects and nowhere else.  The program also builds
    trees that are not: nothing keeps other control characters out of a string,
    and ids have 64 bits. *)
Inductive rendered : cJSON → Prop :=
  | R_null n : rendered (Item cJSON_NULL None 0 (Fin 0 0) n [])
  | R_false n : rendered (Item cJSON_False None 0 (Fin 0 0) n [])
  | R_true n : rendered (Item cJSON_True None 0 (Fin 0 0) n [])
  | R_number n z : exact z → rendered (Item cJSON_Number None (to_int (Fin z 0)) (Fin z 0) n [])
  | R_string n s : clean s → rendered (Item cJSON_String (Some s) 0 (Fin 0 0) n [])
  | R_array n l : Forall rendered l → Forall (λ c, name c = None) l →
      rendered (Item cJSON_Array None 0 (Fin 0 0) n l)
  | R_object n l : Forall rendered l → Forall (λ c, ∃ k, name c = Some k ∧ clean k) l →
      rendered (Item cJSON_Object None 0 (Fin 0 0) n l).

(** Induction on a rendered tree, with the hypothesis for every child. *)
Lemma rendered_induct (P : cJSON → Prop) :
  (∀ n, P (Item cJSON_NULL None 0 (Fin 0 0) n [])) →
  (∀ n, P (Item cJSON_False None 0 (Fin 0 0) n [])) →
  (∀ n, P (Item cJSON_True None 0 (Fin 0 0) n [])) →
  (∀ n z, exact z → P (Item cJSON_Number None (to_int (Fin z 0)) (Fin z 0) n [])) →
  (∀ n s, clean s → P (Item cJSON_String (Some s) 0 (Fin 0 0) n [])) →
  (∀ n l, Forall P l → Forall (λ c, name c = None) l → P (Item cJSON_Array None 0 (Fin 0 0) n l)) →
  (∀ n l, Forall P l → Forall (λ c, ∃ k, name c = Some k ∧ clean k) l →
     P (Item cJSON_Object None 0 (Fin 0 0) n l)) →
  ∀ v, rendered v → P v.
Proof.
  intros H1 H2 H3 H4 H5 H6 H7. fix IH 2. intros v Hv. destruct Hv as [| | | | |n l Hl Hn|n l Hl Hn]; auto.
  - apply H6; [|done]. clear Hn. induction Hl; constructor; auto.
  - apply H7; [|done]. clear Hn. induction Hl; constructor; auto.
Qed.

(** What parsing makes of a tree: only a true's [valueint] differs. *)
Fixpoint parsed (v : cJSON) : cJSON :=
  Item (type v) (valuestring v) (if decide (type v = cJSON_True) then 1 else valueint v)
    (valuedouble v) (name v) (map parsed (child v)).

Lemma skip_space ws c r :
  Forall (λ x, x ≤ 32) ws → 32 < c → skip (ws ++ c :: r) = Some (c :: r).
Proof.
  intros Hws Hc. induction Hws as [|x ws Hx _ IH]; cbn [skip app].
  - destruct (Z.leb_spec c 32); [lia|done].
  - destruct (Z.leb_spec x 32); [done|lia].
Qed.

Lemma skip_none c r : 32 < c → skip (c :: r) = Some (c :: r).
Proof. apply (skip_space []). constructor. Qed.

(** *** Strings *)

Lemma clean_nonzero l : Forall clean_byte l → until_nul l = l.
Proof.
  induction 1 as [|c l Hc _ IH]; [done|]. cbn. unfold clean_byte in Hc.
  destruct (Z.eqb_spec c 0); [lia|]. by rewrite IH.
Qed.

(** A clean byte is written plain, or as a backslash and a letter that stands
    for it. *)
Lemma clean_cases c :
  clean_byte c →
  (needs_escape c = false ∧ c ≠ 34 ∧ c ≠ 92 ∧ 31 < c) ∨
  (needs_escape c = true ∧ ∃ e, escaped c = [92; e] ∧ e ≠ 117 ∧ unescape e = c).
Proof.
  unfold clean_byte, needs_escape. intros Hc.
  destruct (Z.ltb_spec c 32), (Z.eqb_spec c 34), (Z.eqb_spec c 92); subst; cbn;
    try (left; split_and!; done || lia); right; (split; [done|]); try (by eexists).
  assert (c = 8 ∨ c = 9 ∨ c = 10 ∨ c = 12 ∨ c = 13) as Hx by lia.
  destruct Hx as [->|[->|[->|[->| ->]]]]; by eexists.
Qed.

Lemma scan_print s rest : ∀ k,
  Forall clean_byte s → scan_string k (print_chars s ++ 34 :: rest) = Some (k + Z.of_nat (length s)).
Proof.
  induction s as [|c s IH]; intros k Hs.
  - cbn. f_equal. lia.
  - apply Forall_cons_1 in Hs as [Hc Hs]. cbn [print_chars].
    assert (k + Z.of_nat (length (c :: s)) = k + 1 + Z.of_nat (length s)) as -> by (cbn [length]; lia).
    destruct (clean_cases c Hc) as [(-> & H1 & H2 & H3)|(-> & e & -> & _ & _)]; cbn [app scan_string].
    + destruct (Z.eqb_spec c 34), (Z.leb_spec c 31), (Z.eqb_spec c 92); try done; try lia. by apply IH.
    + by apply IH.
Qed.

Lemma copy_print s rest : ∀ fuel size uc done,
  Forall clean_byte s → (length s < fuel)%nat → Z.of_nat (length done + length s) < size →
  copy_string fuel size uc done (print_chars s ++ 34 :: rest) = Some (done ++ s, 34 :: rest).
Proof.
  induction s as [|c s IH]; intros fuel size uc w Hs Hf Hw; (destruct fuel as [|fuel]; [lia|]).
  - cbn [print_chars app copy_string rd head default from_option Z.eqb Pos.eqb orb id].
    cbn [length] in Hw. destruct (Z.ltb_spec (Z.of_nat (length w)) size); [|lia]. by rewrite app_nil_r.
  - apply Forall_cons_1 in Hs as [Hc Hs]. cbn [print_chars]. cbn [length] in *.
    destruct (clean_cases c Hc) as [(-> & H1 & H2 & H3)|(-> & e & -> & He & Hu)];
      cbn [app copy_string rd head default from_option id adv mbind option_bind Z.eqb Pos.eqb orb Z.leb Z.compare].
    + destruct (Z.eqb_spec c 34), (Z.leb_spec c 31), (Z.eqb_spec c 92); try done; try lia.
      cbn [orb mbind option_bind]. rewrite length_app. cbn [length].
      destruct (Z.leb_spec (Z.of_nat (length w + 1)) size); [|lia].
      rewrite IH by (done || lia || (rewrite length_app; cbn [length]; lia)). by rewrite <-app_assoc.
    + change (92 <=? 31) with false. destruct (Z.eqb_spec e 117); [done|].
      cbn [mbind option_bind]. rewrite Hu, length_app. cbn [length].
      destruct (Z.leb_spec (Z.of_nat (length w + 1)) size); [|lia].
      rewrite IH by (done || lia || (rewrite length_app; cbn [length]; lia)). by rewrite <-app_assoc.
Qed.

Lemma parse_string_print item s rest :
  clean s →
  parse_string item ([34] ++ print_chars (bytes_of s) ++ [34] ++ rest) =
    Some (Some (Item cJSON_String (Some s) (valueint item) (valuedouble item) (name item) (child item), rest)).
Proof.
  intros Hs. unfold parse_string. cbn [app]. change (eat 34 (34 :: ?p)) with (true, p). cbn iota.
  rewrite scan_print by done. cbn [mbind option_bind].
  rewrite copy_print; [|done| |cbn [length]; lia].
  - cbn [mbind option_bind app]. by rewrite clean_nonzero, string_of_bytes_of.
  - rewrite length_app. cbn [length].
    assert (∀ l, Forall clean_byte l → length l ≤ length (print_chars l))%nat as Hl; [|specialize (Hl _ Hs); lia].
    induction 1 as [|c l Hc _ IH]; [done|]. cbn [print_chars]. rewrite length_app. cbn [length].
    destruct (clean_cases c Hc) as [(-> & _)|(-> & e & -> & _)]; cbn [length]; lia.
Qed.

Lemma print_chars_len s : Z.of_nat (length (print_chars s)) ≤ string_len s.
Proof.
  induction s as [|c s IH]; [done|]. cbn [print_chars string_len]. rewrite length_app.
  destruct (needs_escape c); [|cbn [length]; lia].
  assert (length (escaped c) ≤ 2)%nat by (unfold escaped; repeat case_match; cbn; lia). lia.
Qed.

(** Rendering a string stays in its buffer. *)
Lemma print_string_ok s :
  print_string_ptr (Some s) = Some ([34] ++ print_chars (bytes_of s) ++ [34]).
Proof.
  cbn [print_string_ptr]. unfold malloced. pose proof (print_chars_len (bytes_of s)).
  match goal with |- context [?a <=? ?b] => destruct (Z.leb_spec a b) as [|Hlt] end; [done|].
  rewrite !length_app in Hlt. cbn [length] in Hlt. lia.
Qed.

(** *** Numbers *)

Definition dec_fold (a : Z) (l : list Z) : Z := fold_left (λ n c, n * 10 + (c - 48)) l a.

Lemma is_digit_spec c : is_digit c = true ↔ 48 ≤ c ≤ 57.
Proof. unfold is_digit. lia. Qed.

Lemma dec_go_fold fuel : ∀ n acc,
  0 ≤ n < 10 ^ Z.of_nat fuel → dec_fold 0 (dec_go fuel n acc) = dec_fold n acc.
Proof.
  induction fuel as [|fuel IH]; intros n acc Hn; [cbn in *; by replace n with 0 by lia|].
  cbn [dec_go]. destruct (Z.ltb_spec n 10).
  - unfold dec_fold. cbn [fold_left]. f_equal. lia.
  - rewrite IH.
    + unfold dec_fold. cbn [fold_left]. f_equal. lia.
    + rewrite Nat2Z.inj_succ, Z.pow_succ_r in Hn by lia. lia.
Qed.

(** The digits: the first is zero only when the number is. *)
Lemma dec_go_digits fuel : ∀ n acc,
  0 ≤ n < 10 ^ Z.of_nat fuel → fuel ≠ 0%nat → Forall (λ c, 48 ≤ c ≤ 57) acc →
  ∃ c l, dec_go fuel n acc = c :: l ∧ 48 ≤ c ≤ 57 ∧ Forall (λ c, 48 ≤ c ≤ 57) l ∧
    (c = 48 → n = 0 ∧ l = acc).
Proof.
  induction fuel as [|fuel IH]; intros n acc Hn Hf Hacc; [done|].
  cbn [dec_go]. destruct (Z.ltb_spec n 10).
  - exists (48 + n), acc. split_and!; [done|lia|lia|done|intros; split; [lia|done]].
  - rewrite Nat2Z.inj_succ, Z.pow_succ_r in Hn by lia.
    destruct (IH (n / 10) ((48 + n mod 10) :: acc)) as (c & l & -> & Hc & Hl & Hz); [lia| | |].
    + intros ->. cbn in Hn. lia.
    + constructor; [lia|done].
    + exists c, l. split_and!; [done|lia|lia|done|]. intros Hc'. destruct (Hz Hc') as [Hn0 _]. lia.
Qed.

Lemma fuel_enough n : 0 ≤ n → n < 10 ^ Z.of_nat (S (Z.to_nat (Z.log2 n))).
Proof.
  intros Hn. rewrite Nat2Z.inj_succ, Z2Nat.id by apply Z.log2_nonneg.
  destruct (decide (n = 0)) as [->|]; [done|].
  pose proof (Z.log2_spec n ltac:(lia)) as [_ H].
  eapply Z.lt_le_trans; [exact H|]. apply Z.pow_le_mono_l. lia.
Qed.

Lemma dec_fold_mono l : ∀ a, Forall (λ c, 48 ≤ c ≤ 57) l → 0 ≤ a → a ≤ dec_fold a l.
Proof.
  induction l as [|c l IH]; intros a Hl Ha; [done|].
  apply Forall_cons_1 in Hl as [Hc Hl]. cbn in Hc.
  change (dec_fold a (c :: l)) with (dec_fold (a * 10 + (c - 48)) l).
  etrans; [|apply IH; [done|lia]]. lia.
Qed.

(** A text after which a number ends *)
Definition number_stop (rest : list Z) : Prop :=
  is_digit (rd rest) = false ∧ rd rest ≠ 46 ∧ rd rest ≠ 101 ∧ rd rest ≠ 69.

Lemma digits_exact l rest : ∀ a k,
  Forall (λ c, 48 ≤ c ≤ 57) l → 0 ≤ a → dec_fold a l < 2 ^ 53 → number_stop rest →
  digits (Fin a 0) k (l ++ rest) = (Fin (dec_fold a l) 0, k + Z.of_nat (length l), rest).
Proof.
  induction l as [|c l IH]; intros a k Hl Ha Hlt Hstop.
  - cbn [app length]. rewrite Z.add_0_r. destruct rest as [|c rest]; [done|].
    destruct Hstop as [Hd _]. cbn in Hd. cbn [digits]. by rewrite Hd.
  - apply Forall_cons_1 in Hl as [Hc Hl]. cbn in Hc. cbn [app digits].
    rewrite (proj2 (is_digit_spec c)) by done.
    change (dec_fold a (c :: l)) with (dec_fold (a * 10 + (c - 48)) l) in *.
    pose proof (dec_fold_mono l (a * 10 + (c - 48)) Hl ltac:(lia)) as Hm.
    rewrite !of_int_exact, dmul_exact, dadd_exact by (unfold exact; lia).
    rewrite IH by (done || lia).
    by replace (k + Z.of_nat (length (c :: l))) with (k + 1 + Z.of_nat (length l)) by (cbn [length]; lia).
Qed.

Lemma dec_go_length fuel : ∀ n k acc,
  0 ≤ n < 10 ^ Z.of_nat k → (1 ≤ k)%nat → (length (dec_go fuel n acc) ≤ k + length acc)%nat.
Proof.
  induction fuel as [|fuel IH]; intros n k acc Hn Hk; cbn [dec_go]; [lia|].
  destruct (Z.ltb_spec n 10); [cbn [length]; lia|].
  destruct k as [|[|k]]; [lia|cbn in Hn; lia|].
  rewrite Nat2Z.inj_succ, Z.pow_succ_r in Hn by lia.
  etrans; [apply (IH _ (S k)); lia|]. cbn [length]. lia.
Qed.

Lemma decimal_length z k :
  Z.abs z < 10 ^ Z.of_nat k → (1 ≤ k)%nat → (length (decimal z) ≤ S k)%nat.
Proof.
  intros Hz Hk. unfold decimal.
  pose proof (dec_go_length (S (Z.to_nat (Z.log2 (Z.abs z)))) (Z.abs z) k [] ltac:(lia) Hk) as H.
  cbn [length] in H. destruct (z <? 0); cbn [length]; lia.
Qed.

Lemma dle_int a b : dle (Fin a 0) (Fin b 0) = (a <=? b).
Proof. cbn. unfold align. cbn. by rewrite !Z.mul_1_r. Qed.

Lemma dsub_same z : dsub (Fin z 0) (Fin z 0) = Fin 0 0.
Proof. unfold dsub. cbn [dneg]. rewrite dadd_exact by (unfold exact; lia). f_equal. lia. Qed.

Lemma scaled_int z : scaled z 0 0 = Z.abs z.
Proof.
  unfold scaled. change (10 ^ Z.max 0 0) with 1. change (2 ^ Z.max 0 0) with 1.
  change (10 ^ Z.max (- 0) 0 * 2 ^ Z.max (- 0) 0) with 1. rewrite !Z.mul_1_r.
  pose proof (Z.div_1_r (Z.abs z)) as H1. pose proof (Z.mod_1_r (Z.abs z)) as H2.
  unfold Z.div, Z.modulo in H1, H2. destruct (Z.div_eucl (Z.abs z) 1) as [f r]. by subst.
Qed.

(** An integer of at most 53 bits is rendered as its digits, by ["%d"] or by
    ["%.0f"], and fits the buffer. *)
Lemma print_number_exact z n :
  exact z → print_number (Item cJSON_Number None (to_int (Fin z 0)) (Fin z 0) n []) = Some (decimal z).
Proof.
  intros Hz. unfold print_number. cbn [valuedouble valueint]. rewrite to_int_fin.
  assert (exact INT_MAX ∧ exact INT_MIN) as [E1 E2] by (unfold exact, INT_MAX, INT_MIN; lia).
  rewrite (of_int_exact INT_MAX E1), (of_int_exact INT_MIN E2), !dle_int.
  assert (Z.abs z < 10 ^ Z.of_nat 16) as Hlen by (unfold exact in Hz; cbn; lia).
  apply decimal_length in Hlen; [|lia].
  destruct (Z.leb_spec INT_MIN z), (Z.leb_spec z INT_MAX); cbn [andb];
    rewrite ?andb_false_r; cbn [andb].
  { rewrite of_int_exact, dsub_same by done. cbn. unfold malloced.
    destruct (Z.leb_spec (Z.of_nat (length (decimal z)) + 1) 21); [done|lia]. }
  all: cbn [floor]; change (0 <=? 0) with true; cbn iota; rewrite dsub_same;
    change (dle (fabs (Fin 0 0)) DBL_EPSILON) with true; cbn iota.
  all: assert (printf_f false (Fin z 0) = decimal z) as ->;
    [|unfold malloced; destruct (Z.leb_spec (Z.of_nat (length (decimal z)) + 1) 64); [done|lia]].
  all: cbn [printf_f]; rewrite scaled_int; unfold decimal; rewrite (Z.abs_eq (Z.abs z)) by lia;
    by destruct (Z.ltb_spec z 0), (Z.ltb_spec (Z.abs z) 0); try lia.
Qed.

Section RoundTrip.
Variable pow10 : Z → double.
Hypothesis pow10_0 : pow10 0 = Fin 1 0.

Lemma parse_decimal item z rest :
  exact z → number_stop rest → valuestring item = None → child item = [] →
  parse_number pow10 item (decimal z ++ rest) =
    Some (Item cJSON_Number None (to_int (Fin z 0)) (Fin z 0) (name item) [], rest).
Proof.
  intros Hz Hstop Hv Hch. unfold exact in Hz.
  pose proof (fuel_enough (Z.abs z) ltac:(lia)) as Hf.
  pose proof (dec_go_fold _ (Z.abs z) [] ltac:(split; [lia|exact Hf])) as Hd.
  destruct (dec_go_digits _ (Z.abs z) [] ltac:(split; [lia|exact Hf]) ltac:(done) ltac:(constructor))
    as (c & l & El & Hc & Hl & H0). rewrite El in Hd. clear Hf.
  change (dec_fold (Z.abs z) []) with (Z.abs z) in Hd.
  destruct Hstop as (Hs0 & Hs1 & Hs2 & Hs3).
  assert (int_part (eat 48 (c :: l ++ rest)).2 = (Fin (Z.abs z) 0, rest)) as Hdig.
  { unfold int_part. destruct (Z.eqb_spec c 48) as [->|Hne].
    - destruct (H0 eq_refl) as [Hz0 ->]. change (eat 48 (48 :: [] ++ rest)).2 with rest.
      rewrite Hz0. unfold is_digit in Hs0. destruct (Z.leb_spec 49 (rd rest)), (Z.leb_spec (rd rest) 57); try done.
      lia.
    - cbn [eat]. destruct (Z.eqb_spec c 48); [done|]. cbn [snd rd head default from_option id].
      destruct (Z.leb_spec 49 c), (Z.leb_spec c 57); try lia. cbn [andb].
      rewrite of_int_exact by done. change (c :: l ++ rest) with ((c :: l) ++ rest).
      rewrite digits_exact; [by rewrite Hd|by constructor|done|lia|done]. }
  unfold parse_number, decimal. rewrite El.
  assert (eat 45 ((if z <? 0 then 45 :: c :: l else c :: l) ++ rest) = (z <? 0, c :: l ++ rest)) as ->.
  { destruct (z <? 0); cbn [eat app]; [done|]. by destruct (Z.eqb_spec c 45); [lia|]. }
  rewrite Hdig. unfold frac_part, exp_part.
  destruct (Z.eqb_spec (rd rest) 46); [done|]. cbn [mbind option_bind].
  destruct (Z.eqb_spec (rd rest) 101), (Z.eqb_spec (rd rest) 69); try done. cbn [orb mbind option_bind].
  assert (dmul (dmul (of_int (if z <? 0 then -1 else 1)) (Fin (Z.abs z) 0)) (pow10 (0 + 0)) = Fin z 0) as ->.
  { rewrite Z.add_0_r, pow10_0. destruct (Z.ltb_spec z 0); rewrite of_int_exact by done;
      rewrite !dmul_exact by (unfold exact; lia); f_equal; lia. }
  by rewrite Hv, Hch.
Qed.

(** *** Trees *)

(** The fuel a tree takes to be parsed *)
Fixpoint need (v : cJSON) : nat := S (S (sum_list_with (λ c, S (need c)) (child v))).

(** An item [cJSON_New_Item] made, with or without a name *)
Definition plain (i : cJSON) : Prop :=
  valuestring i = None ∧ valueint i = 0 ∧ valuedouble i = Fin 0 0 ∧ child i = [].

Definition starts (out : list Z) : Prop :=
  ∃ c r, out = c :: r ∧ 32 < c ∧ c ≠ 93 ∧ c ≠ 125.

Definition spaces (l : list Z) : Prop := Forall (λ x, x ≤ 32) l.

(** [out] is read back as [v]. *)
Definition reads (v : cJSON) (out : list Z) : Prop :=
  starts out ∧ (need v ≤ 2 * length out)%nat ∧
  ∀ fuel item rest, (need v ≤ fuel)%nat → plain item → number_stop rest →
    parse_value pow10 fuel item (out ++ rest) =
      Some (Some (with_name (name item) (parsed v), rest)).

Lemma with_name_parsed v : with_name (name v) (parsed v) = parsed v.
Proof. by destruct v. Qed.

Lemma stop_spaces ws c r : spaces ws → c = 44 ∨ c = 93 ∨ c = 125 → number_stop (ws ++ c :: r).
Proof.
  intros Hws Hc. unfold number_stop, is_digit. destruct Hws as [|x ws Hx _]; cbn; lia.
Qed.

Lemma pskip_ok {A} (a : A) r ws c q :
  r = Some (Some (a, ws ++ c :: q)) → spaces ws → 32 < c → pskip r = Some (Some (a, c :: q)).
Proof. intros -> Hws Hc. unfold pskip. cbn. by rewrite skip_space. Qed.

Lemma skip_starts ws out rest : spaces ws → starts out → skip (ws ++ out ++ rest) = Some (out ++ rest).
Proof. intros Hws (c & r & -> & Hc & _). by apply skip_space. Qed.

Lemma array_items_ok sp l outs :
  spaces sp → Forall2 reads l outs → l ≠ [] → Forall (λ c, name c = None) l →
  ∀ fuel ws rest, spaces ws → (sum_list_with (λ c, S (need c)) l ≤ fuel)%nat →
  array_items pow10 fuel (ws ++ join_entries (44 :: sp) outs ++ 93 :: rest) =
    Some (Some (map parsed l, rest)).
Proof.
  intros Hsp H. induction H as [|c out l outs (Hst & _ & Hr) Hl IH]; [done|].
  intros _ Hn fuel ws rest Hws Hf. apply Forall_cons_1 in Hn as [Hc Hn].
  cbn [sum_list_with] in Hf. destruct fuel as [|fuel]; [lia|]. cbn [array_items].
  assert (plain cJSON_New_Item) as Hp by done.
  assert (with_name (name cJSON_New_Item) (parsed c) = parsed c) as Ewn
    by (change (name cJSON_New_Item) with (@None string); rewrite <-Hc; apply with_name_parsed).
  destruct l as [|c' l].
  - inversion Hl; subst. cbn [join_entries]. rewrite skip_starts by done. cbn [mbind option_bind].
    rewrite (pskip_ok (parsed c) _ [] 93 rest); [|rewrite Hr, Ewn; [done|lia|done|by apply (stop_spaces []); auto; constructor]|constructor|lia].
    done.
  - inversion Hl as [|? out' ? outs' Hro Hl']; subst.
    cbn [join_entries]. rewrite <-!app_assoc.
    rewrite skip_starts by done. cbn [mbind option_bind].
    set (tail := (44 :: sp) ++ _) in *.
    assert (tail = 44 :: (sp ++ join_entries (44 :: sp) (out' :: outs') ++ 93 :: rest)) as Et by done.
    rewrite (pskip_ok (parsed c) _ [] 44 (sp ++ join_entries (44 :: sp) (out' :: outs') ++ 93 :: rest));
      [|rewrite Hr, Ewn, Et; [done|lia|done|rewrite Et; apply (stop_spaces []); auto; constructor]|constructor|lia].
    cbn [pbind rd head default from_option id Z.eqb Pos.eqb adv mbind option_bind].
    rewrite IH; [done|done|done|done|lia].
Qed.

(** A member: its rendered name, and text that is read back as its value. *)
Definition reads_member (c : cJSON) (e : list Z * list Z) : Prop :=
  (∃ k, name c = Some k ∧ clean k ∧ e.1 = [34] ++ print_chars (bytes_of k) ++ [34]) ∧ reads c e.2.

Lemma parse_member k rest :
  clean k →
  pskip (parse_string cJSON_New_Item (([34] ++ print_chars (bytes_of k) ++ [34]) ++ [58] ++ rest)) =
    Some (Some (Item cJSON_String (Some k) 0 (Fin 0 0) None [], 58 :: rest)).
Proof.
  intros Hk. apply (pskip_ok _ _ []); [|constructor|lia].
  rewrite <-!app_assoc. by rewrite parse_string_print by done.
Qed.

Lemma reads_named c k fuel x rest :
  name c = Some k → reads c x → (need c ≤ fuel)%nat → number_stop rest →
  parse_value pow10 fuel (take_name (Item cJSON_String (Some k) 0 (Fin 0 0) None [])) (x ++ rest) =
    Some (Some (parsed c, rest)).
Proof.
  intros Hc (_ & _ & Hr) Hf Hs. rewrite Hr by done. cbn [take_name name valuestring].
  rewrite <-Hc. by rewrite with_name_parsed.
Qed.

Lemma object_items_ok depth fmt l es :
  Forall2 reads_member l es → l ≠ [] →
  ∀ fuel ws close rest, spaces ws → spaces close → (sum_list_with (λ c, S (need c)) l ≤ fuel)%nat →
  object_items pow10 fuel (ws ++ object_entries depth fmt es ++ close ++ 125 :: rest) =
    Some (Some (map parsed l, rest)).
Proof.
  intros H. induction H as [|c [n x] l es ((k & Hc & Hk & Hn) & Hr) Hl IH]; [done|].
  intros _ fuel ws close rest Hws Hcl Hf.
  cbn [sum_list_with] in Hf. destruct fuel as [|fuel]; [lia|]. cbn [object_items object_entries].
  cbn [fst snd] in *. rewrite <-!app_assoc.
  set (tabs := if fmt then repeat 9 (Z.to_nat depth) else []).
  set (tab := if fmt then [9] else []). set (nl := if fmt then [10] else []).
  assert (spaces tabs) as Htabs.
  { unfold tabs. destruct fmt; [|constructor]. apply list.Forall_forall. intros y Hy.
    apply list_elem_of_In, repeat_spec in Hy. lia. }
  assert (spaces tab) as Htab by (unfold tab; destruct fmt; repeat constructor; lia).
  assert (spaces nl) as Hnl by (unfold nl; destruct fmt; repeat constructor; lia).
  assert (starts n) as Hsn by (rewrite Hn; exists 34; eexists; split; [done|lia]).
  rewrite (app_assoc ws tabs). rewrite skip_starts by (done || by apply list.Forall_app).
  cbn [mbind option_bind]. subst n. rewrite parse_member by done.
  cbn [pbind rd head default from_option id Z.eqb Pos.eqb adv mbind option_bind].
  pose proof Hr as (Hst & _). rewrite skip_starts by done. cbn [mbind option_bind].
  destruct l as [|c' l].
  - inversion Hl; subst. cbn [object_entries app].
    rewrite (pskip_ok (parsed c) _ (nl ++ close) 125 rest);
      [|rewrite <-app_assoc; apply reads_named; [done|done|lia|]|by apply list.Forall_app|lia]; [done|].
    rewrite app_assoc. apply stop_spaces; [by apply list.Forall_app|auto].
  - inversion Hl as [|? e' ? es' He Hes]; subst. set (es := e' :: es') in *.
    change (match es with [] => [] | _ => [44] end) with [44].
    rewrite (pskip_ok (parsed c) _ [] 44 (nl ++ object_entries depth fmt es ++ close ++ 125 :: rest));
      [|apply reads_named; [done|done|lia|]|constructor|lia].
    + cbn [pbind rd head default from_option id Z.eqb Pos.eqb adv mbind option_bind].
      rewrite IH; [done|done|done|done|lia].
    + apply (stop_spaces []); [constructor|auto].
Qed.

(** *** Rendered text *)

Lemma parse_dispatch fuel item c r :
  c ≠ 110 → c ≠ 102 → c ≠ 116 →
  parse_value pow10 (S fuel) item (c :: r) =
    if c =? 34 then parse_string item (c :: r)
    else if (c =? 45) || is_digit c then Some <$> parse_number pow10 item (c :: r)
    else if c =? 91 then
      value ← skip r;
      if rd value =? 93 then value ← adv value; Some (Some (with_type cJSON_Array item, value))
      else
        '(l, value) <~ array_items pow10 fuel value;
        Some (Some (with_child l (with_type cJSON_Array item), value))
    else if c =? 123 then
      value ← skip r;
      if rd value =? 125 then value ← adv value; Some (Some (with_type cJSON_Object item, value))
      else
        '(l, value) <~ object_items pow10 fuel value;
        Some (Some (with_child l (with_type cJSON_Object item), value))
    else Some None.
Proof.
  intros H1 H2 H3. cbn [parse_value].
  assert (∀ a w, c ≠ a → has_prefix (a :: w) (c :: r) = false) as Hp.
  { intros a w Ha. cbn. by destruct (Z.eqb_spec a c). }
  change (bytes_of "null") with [110; 117; 108; 108].
  change (bytes_of "false") with [102; 97; 108; 115; 101].
  change (bytes_of "true") with [116; 114; 117; 101].
  rewrite !Hp by done. done.
Qed.

Lemma decimal_cons z :
  exact z → ∃ c r, decimal z = c :: r ∧ (c = 45 ∨ 48 ≤ c ≤ 57).
Proof.
  intros Hz. unfold decimal. unfold exact in Hz.
  pose proof (fuel_enough (Z.abs z) ltac:(lia)) as Hf.
  destruct (dec_go_digits _ (Z.abs z) [] ltac:(split; [lia|exact Hf]) ltac:(done) ltac:(constructor))
    as (c & l & -> & Hc & _).
  destruct (z <? 0); eauto 6.
Qed.

Lemma reads_number n z : exact z →
  reads (Item cJSON_Number None (to_int (Fin z 0)) (Fin z 0) n []) (decimal z).
Proof.
  intros Hz. destruct (decimal_cons z Hz) as (c & r & E & Hc). split; [|split].
  - exists c, r. split; [done|lia].
  - rewrite E. cbn. lia.
  - intros fuel item rest Hf (Hv & Hi & Hd & Hch) Hs. cbn in Hf. destruct fuel as [|fuel]; [lia|].
    pose proof (parse_decimal item z rest Hz Hs Hv Hch) as HP. rewrite E in *. cbn [app] in *.
    rewrite parse_dispatch by lia.
    destruct (Z.eqb_spec c 34); [lia|].
    assert ((c =? 45) || is_digit c = true) as -> by (unfold is_digit; lia).
    by rewrite HP.
Qed.

Lemma reads_string n k : clean k →
  reads (Item cJSON_String (Some k) 0 (Fin 0 0) n []) ([34] ++ print_chars (bytes_of k) ++ [34]).
Proof.
  intros Hk. split; [|split].
  - exists 34. eexists. split; [done|lia].
  - rewrite !length_app. cbn. lia.
  - intros fuel item rest Hf (Hv & Hi & Hd & Hch) Hs. cbn in Hf. destruct fuel as [|fuel]; [lia|].
    rewrite <-!app_assoc.
    change ([34] ++ print_chars (bytes_of k) ++ [34] ++ rest) with (34 :: print_chars (bytes_of k) ++ [34] ++ rest).
    rewrite parse_dispatch by done. cbn [Z.eqb Pos.eqb].
    change (34 :: print_chars (bytes_of k) ++ [34] ++ rest) with ([34] ++ print_chars (bytes_of k) ++ [34] ++ rest).
    rewrite parse_string_print by done. by rewrite Hi, Hd, Hch.
Qed.

Lemma reads_word w t n (Hw : (w, t) ∈ [("null", cJSON_NULL); ("false", cJSON_False); ("true", cJSON_True)]) :
  reads (Item t None 0 (Fin 0 0) n []) (bytes_of w).
Proof.
  rewrite !list.elem_of_cons in Hw. destruct Hw as [Hw|[Hw|[Hw|Hw]]]; [..|by apply elem_of_nil in Hw];
    injection Hw as -> ->;
    (split; [do 2 eexists; split; [vm_compute; reflexivity|lia]|split; [cbn; lia|]]);
    intros fuel item rest Hf (Hv & Hi & Hd & Hch) Hs; cbn in Hf; destruct fuel as [|fuel]; try lia;
    destruct item; cbn in *; by subst.
Qed.

Lemma mapM_reads {A} (R : cJSON → A → Prop) (f : cJSON → option A) l :
  Forall (λ c, ∃ x, f c = Some x ∧ R c x) l →
  ∃ xs, mapM f l = Some xs ∧ Forall2 R l xs.
Proof.
  induction 1 as [|c l (x & Hx & HR) _ (xs & Hxs & HRs)]; [by exists []|].
  exists (x :: xs). cbn. rewrite Hx. cbn. rewrite Hxs. cbn. by split; [|constructor].
Qed.

Lemma join_length (sp : list Z) l outs :
  Forall2 reads l outs →
  (sum_list_with (λ c, S (need c)) l ≤ 2 * length (join_entries (44%Z :: sp) outs) + 2)%nat ∧
  Z.of_nat (length (join_entries (44 :: sp) outs)) ≤
    sum_with (λ r, strlen r + 2 + Z.of_nat (length sp)) outs.
Proof.
  induction 1 as [|c out l outs (_ & Hn & _) Hl [IH1 IH2]]; [cbn; lia|].
  cbn [sum_list_with sum_with foldr]. fold (sum_with (λ r, strlen r + 2 + Z.of_nat (length sp)) outs).
  unfold strlen in *. destruct Hl as [|c' out' l outs].
  - cbn [join_entries sum_list_with sum_with foldr]. lia.
  - cbn [join_entries] in *. rewrite !length_app in *. cbn [length] in *. lia.
Qed.

Lemma entries_length depth fmt l es :
  0 ≤ depth → Forall2 reads_member l es →
  (sum_list_with (λ c, S (need c)) l ≤ 2 * length (object_entries depth fmt es))%nat ∧
  Z.of_nat (length (object_entries depth fmt es)) ≤
    foldr (λ e n, strlen e.2 + strlen e.1 + 2 + (if fmt then 2 + depth else 0) + n) 0 es.
Proof.
  intros Hd. induction 1 as [|c [n x] l es (_ & _ & Hn & _) Hl [IH1 IH2]]; [cbn; lia|].
  cbn [sum_list_with foldr object_entries fst snd] in *. unfold strlen in *.
  destruct es as [|e es], fmt; rewrite !length_app, ?repeat_length; cbn [length] in *; lia.
Qed.
(** What follows a comma between entries *)
Definition sep (fmt : bool) : list Z := if fmt then [32] else [].

Lemma print_array_ok outs fmt :
  Z.of_nat (length (join_entries (44 :: sep fmt) outs)) ≤
    sum_with (λ r, strlen r + 2 + (if fmt then 1 else 0)) outs →
  print_array outs fmt = Some ([91] ++ join_entries (44 :: sep fmt) outs ++ [93]).
Proof.
  intros H. unfold print_array, malloced.
  match goal with |- context [?a <=? ?b] => destruct (Z.leb_spec a b) as [|Hlt] end; [done|].
  rewrite !length_app in Hlt. cbn [length] in Hlt.
  fold (sep fmt) in Hlt. cbn [app] in Hlt. lia.
Qed.

Lemma print_object_ok es depth fmt :
  0 ≤ depth →
  Z.of_nat (length (object_entries (depth + 1) fmt es)) ≤
    foldr (λ e n, strlen e.2 + strlen e.1 + 2 + (if fmt then 2 + (depth + 1) else 0) + n) 0 es →
  print_object es depth fmt =
    Some ([123] ++ (if fmt then [10] else []) ++ object_entries (depth + 1) fmt es ++
          (if fmt then repeat 9 (Z.to_nat depth) else []) ++ [125]).
Proof.
  intros Hd H. unfold print_object, malloced. replace (depth + 1 - 1) with depth by lia.
  match goal with |- context [?a <=? ?b] => destruct (Z.leb_spec a b) as [|Hlt] end; [done|].
  rewrite !length_app in Hlt. destruct fmt; rewrite ?repeat_length in Hlt; cbn [length] in Hlt; lia.
Qed.

Lemma join_starts sp outs l : Forall2 reads l outs → l ≠ [] → starts (join_entries (44 :: sp) outs).
Proof.
  intros H. destruct H as [|c out l outs ((d & r & -> & Hd) & _) Hl]; [done|]. intros _.
  destruct outs; [|cbn [join_entries app]]; by do 2 eexists.
Qed.

Lemma reads_array fmt n l outs :
  Forall2 reads l outs → Forall (λ c, name c = None) l →
  reads (Item cJSON_Array None 0 (Fin 0 0) n l) ([91] ++ join_entries (44 :: sep fmt) outs ++ [93]).
Proof.
  intros Ho Hn. destruct (join_length (sep fmt) l outs Ho) as [Hneed _]. split; [|split].
  - exists 91. eexists. split; [done|lia].
  - cbn [need child]. rewrite !length_app. cbn [length]. lia.
  - intros fuel item rest Hf (Hv & Hi & Hdb & Hch) Hs. cbn [need child] in Hf.
    destruct fuel as [|fuel]; [lia|]. rewrite <-!app_assoc. cbn [app].
    rewrite parse_dispatch by done. change (91 =? 34) with false. change ((91 =? 45) || is_digit 91) with false.
    change (91 =? 91) with true. cbn iota.
    destruct l as [|c l].
    + inversion Ho; subst. cbn [join_entries app]. rewrite skip_none by done.
      cbn [mbind option_bind]. destruct item; cbn in *; by subst.
    + pose proof (join_starts (sep fmt) outs _ Ho ltac:(done)) as Hst.
      pose proof (skip_starts [] _ (93 :: rest) ltac:(constructor) Hst) as E. cbn [app] in E. rewrite E.
      cbn [mbind option_bind]. destruct Hst as (x & r & Ex & Hx & Hx93 & _).
      assert (rd (join_entries (44 :: sep fmt) outs ++ 93 :: rest) = x) as -> by (by rewrite Ex).
      destruct (Z.eqb_spec x 93); [done|].
      pose proof (array_items_ok (sep fmt) (c :: l) outs) as HA.
      specialize (HA ltac:(destruct fmt; repeat constructor; lia) Ho ltac:(done) Hn fuel [] rest
        ltac:(constructor) ltac:(lia)). cbn [app] in HA. rewrite HA.
      cbn [pbind]. destruct item; cbn in *; by subst.
Qed.

Lemma skip_skip p q : skip p = Some q → skip q = Some q.
Proof.
  induction p as [|c p IH]; cbn [skip]; [done|].
  destruct (Z.leb_spec c 32); [exact IH|]. intros [= <-]. by apply skip_none.
Qed.

Lemma object_items_skip fuel p q :
  skip p = Some q → object_items pow10 fuel p = object_items pow10 fuel q.
Proof.
  intros H. destruct fuel as [|fuel]; [done|]. cbn [object_items].
  by rewrite H, (skip_skip p q H).
Qed.

Definition newline (fmt : bool) : list Z := if fmt then [10] else [].
Definition tabs (fmt : bool) (n : Z) : list Z := if fmt then repeat 9 (Z.to_nat n) else [].

Lemma spaces_tabs fmt n : spaces (newline fmt ++ tabs fmt n).
Proof.
  unfold newline, tabs, spaces. destruct fmt; cbn [app]; [|constructor].
  constructor; [lia|]. apply list.Forall_forall. intros y Hy.
  apply list_elem_of_In, repeat_spec in Hy. lia.
Qed.

Lemma spaces_app_r l k : spaces (l ++ k) → spaces k.
Proof. unfold spaces. rewrite list.Forall_app. tauto. Qed.

(** The first member's name is what the space after the brace leads to. *)
Lemma entries_start depth fmt l es tl :
  Forall2 reads_member l es → l ≠ [] →
  ∃ q, skip (newline fmt ++ object_entries depth fmt es ++ tl) = Some q ∧ rd q = 34.
Proof.
  intros H. destruct H as [|c [n x] l es ((k & Hc & Hk & Hn) & Hr) Hl]; [done|]. intros _.
  cbn [fst snd] in Hn. subst n. cbn [object_entries]. fold (tabs fmt depth).
  rewrite <-!app_assoc, (app_assoc (newline fmt)).
  match goal with |- context [(newline fmt ++ tabs fmt depth) ++ [34] ++ ?t] => exists (34 :: t) end.
  split; [|done]. apply skip_space; [apply spaces_tabs|lia].
Qed.

Lemma reads_object depth fmt n l es :
  0 ≤ depth → Forall2 reads_member l es →
  reads (Item cJSON_Object None 0 (Fin 0 0) n l)
    ([123] ++ newline fmt ++ object_entries (depth + 1) fmt es ++ tabs fmt depth ++ [125]).
Proof.
  intros Hd Ho. destruct (entries_length (depth + 1) fmt l es ltac:(lia) Ho) as [Hneed _].
  pose proof (spaces_app_r _ _ (spaces_tabs fmt depth)) as Hclose. split; [|split].
  - exists 123. eexists. split; [done|lia].
  - cbn [need child]. rewrite !length_app. cbn [length]. lia.
  - intros fuel item rest Hf (Hv & Hi & Hdb & Hch) Hs. cbn [need child] in Hf.
    destruct fuel as [|fuel]; [lia|]. rewrite <-!app_assoc. cbn [app].
    rewrite parse_dispatch by done. change (123 =? 34) with false.
    change ((123 =? 45) || is_digit 123) with false.
    change (123 =? 91) with false. change (123 =? 123) with true. cbn iota.
    destruct l as [|c l].
    + inversion Ho; subst. cbn [object_entries app]. rewrite app_assoc.
      rewrite skip_space by (apply spaces_tabs || lia).
      cbn [mbind option_bind]. destruct item; cbn in *; by subst.
    + destruct (entries_start (depth + 1) fmt (c :: l) es (tabs fmt depth ++ 125 :: rest) Ho ltac:(done))
        as (q & Hq & Hrd). rewrite Hq. cbn [mbind option_bind]. rewrite Hrd. change (34 =? 125) with false.
      cbn iota. rewrite <-(object_items_skip fuel _ q Hq).
      rewrite (object_items_ok (depth + 1) fmt (c :: l) es Ho ltac:(done)); [|by destruct fmt; repeat constructor; lia|done|lia].
      cbn [pbind]. destruct item; cbn in *; by subst.
Qed.

(** Every tree the program builds is rendered inside the buffers, and what is
    rendered is read back. *)
Lemma print_reads fmt v :
  rendered v → ∀ depth, 0 ≤ depth → ∃ out, print_value v depth fmt = Some out ∧ reads v out.
Proof.
  revert v. refine (rendered_induct _ _ _ _ _ _ _ _).
  1-3: intros n depth _; eexists; (split; [done|]); apply reads_word; set_solver.
  - intros n z Hz depth _. eexists. split; [by apply print_number_exact|]. by apply reads_number.
  - intros n k Hk depth _. eexists. split; [apply print_string_ok|]. by apply reads_string.
  - intros n l IH Hn depth Hd. cbn [print_value type child].
    destruct (mapM_reads reads (λ c, print_value c (depth + 1) fmt) l) as (outs & -> & Ho).
    { eapply list.Forall_impl; [exact IH|]. intros c Hc. apply Hc. lia. }
    cbn [mbind option_bind]. destruct (join_length (sep fmt) l outs Ho) as [_ Hcap].
    eexists. split; [apply print_array_ok; by destruct fmt|]. by apply reads_array.
  - intros n l IH Hn depth Hd. cbn [print_value type child].
    destruct (mapM_reads reads_member (λ c, n ← print_string_ptr (name c);
      x ← print_value c (depth + 1) fmt; Some (n, x)) l) as (es & -> & Ho).
    { apply list.Forall_forall. intros c Hc. rewrite list.Forall_forall in IH, Hn.
      destruct (Hn c Hc) as (k & Hk & Hck). destruct (IH c Hc (depth + 1) ltac:(lia)) as (x & Hx & Hr).
      eexists. rewrite Hk, print_string_ok. cbn [mbind option_bind]. rewrite Hx. cbn [mbind option_bind].
      split; [done|]. split; [|done]. by exists k. }
    cbn [mbind option_bind].
    destruct (entries_length (depth + 1) fmt l es ltac:(lia) Ho) as [_ Hcap].
    eexists. split; [by apply print_object_ok|]. by apply reads_object.
Qed.

Lemma parse_rest v text rest :
  reads v text → name v = None → number_stop rest → ∀ fuel, (2 * length text ≤ fuel)%nat →
  parse_value pow10 fuel cJSON_New_Item (text ++ rest) = Some (Some (parsed v, rest)).
Proof.
  intros (_ & Hn & Hr) Hv Hs fuel Hf. rewrite Hr by (done || lia).
  cbn [cJSON_New_Item name]. rewrite <-Hv. by rewrite with_name_parsed.
Qed.

Lemma parse_print_rest v text rest :
  reads v text → name v = None → number_stop rest → cJSON_Parse pow10 (text ++ rest) = Some (Some (parsed v)).
Proof.
  intros Hr Hv Hstop. unfold cJSON_Parse.
  pose proof (skip_starts [] text rest ltac:(constructor) (proj1 Hr)) as E. cbn [app] in E.
  rewrite E. cbn [mbind option_bind].
  rewrite (parse_rest v text rest Hr Hv Hstop) by (rewrite length_app; lia). done.
Qed.
Lemma parse_print_ok v text :
  reads v text → name v = None → cJSON_Parse pow10 text = Some (Some (parsed v)).
Proof. intros Hr Hv. rewrite <-(app_nil_r text). by apply parse_print_rest. Qed.

(** The space after the last value is looked for beyond the terminator. *)
Lemma array_items_unclosed (v : cJSON) (text : list Z) (k : nat) :
  reads v text → name v = None → (2 * length text ≤ k)%nat →
  array_items pow10 (S k) text = None.
Proof.
  intros Hr Hv Hk. cbn [array_items].
  pose proof (skip_starts [] text [] ltac:(constructor) (proj1 Hr)) as E.
  rewrite app_nil_r in E. cbn [app] in E. rewrite E. cbn [mbind option_bind].
  pose proof (parse_rest v text [] Hr Hv ltac:(done) k Hk) as HP.
  rewrite app_nil_r in HP. unfold pskip. by rewrite HP.
Qed.

Lemma parse_unclosed_ok (v : cJSON) (text : list Z) :
  reads v text → name v = None → cJSON_Parse pow10 ([91] ++ text) = None.
Proof.
  intros Hr Hv. unfold cJSON_Parse. cbn [app]. rewrite skip_none by done. cbn [mbind option_bind].
  assert (∃ k, S (length (91%Z :: text)) * 2 = S (S k) ∧ 2 * length text ≤ k)%nat as (k & -> & Hk).
  { eexists. split; [cbn [length Nat.mul]; reflexivity|lia]. }
  rewrite parse_dispatch by done. change (91 =? 34) with false.
  change ((91 =? 45) || is_digit 91) with false. change (91 =? 91) with true. cbn iota.
  pose proof (skip_starts [] text [] ltac:(constructor) (proj1 Hr)) as E.
  rewrite app_nil_r in E. cbn [app] in E. rewrite E. cbn [mbind option_bind].
  pose proof Hr as ((c & r & Et & Hc & Hc93 & Hc125) & _).
  assert (rd text = c) as -> by (by rewrite Et). destruct (Z.eqb_spec c 93); [done|].
  by rewrite (array_items_unclosed v).
Qed.

End RoundTrip.

(** *** The text is a C string *)

Definition nonul (l : list Z) : Prop := Forall (λ c, 0 < c < 256) l.

Lemma nonul_app l k : nonul (l ++ k) ↔ nonul l ∧ nonul k.
Proof. apply list.Forall_app. Qed.

Lemma nonul_repeat c n : 0 < c < 256 → nonul (repeat c n).
Proof. intros Hc. induction n; cbn; constructor; done. Qed.

(** No newline either, apart from those between the members of objects *)
Definition quiet (l : list Z) : Prop := Forall (λ c, 10 < c < 256) l.
Lemma quiet_nonul l : quiet l → nonul l.
Proof. intros H. eapply list.Forall_impl; [exact H|]. cbn. lia. Qed.
Lemma quiet_framed l : quiet l → framed l.
Proof. intros H. apply framed_quiet. eapply list.Forall_impl; [exact H|]. cbn. lia. Qed.

Lemma quiet_string k out : clean k → print_string_ptr (Some k) = Some out → quiet out.
Proof.
  intros Hk. rewrite print_string_ok. intros [= <-].
  assert (quiet (print_chars (bytes_of k))) as H; [|constructor; [lia|]; apply list.Forall_app; by repeat constructor].
  unfold clean in Hk. induction Hk as [|c l Hc _ IH]; [constructor|]. cbn [print_chars].
  apply list.Forall_app. split; [|done]. unfold needs_escape, escaped. unfold clean_byte in Hc.
  repeat case_match; repeat constructor; lia.
Qed.
Lemma nonul_string k out : clean k → print_string_ptr (Some k) = Some out → nonul out.
Proof. intros Hk Ho. by eapply quiet_nonul, quiet_string. Qed.

Lemma quiet_decimal z : quiet (decimal z).
Proof.
  unfold decimal. assert (∀ fuel n acc, 0 ≤ n → quiet acc → quiet (dec_go fuel n acc)) as H.
  { induction fuel as [|fuel IH]; intros n acc Hn Ha; cbn [dec_go]; [done|].
    destruct (Z.ltb_spec n 10); [constructor; [lia|done]|]. apply IH; [lia|]. constructor; [lia|done]. }
  specialize (H (S (Z.to_nat (Z.log2 (Z.abs z)))) (Z.abs z) [] ltac:(lia) ltac:(constructor)).
  destruct (z <? 0); [|done]. constructor; [lia|done].
Qed.
Lemma nonul_decimal z : nonul (decimal z).
Proof. apply quiet_nonul, quiet_decimal. Qed.

Lemma malloced_inv n l out : malloced n l = Some out → out = l.
Proof. unfold malloced. case_match; [by intros [= <-]|done]. Qed.

Lemma nonul_join sp outs : nonul sp → Forall nonul outs → nonul (join_entries sp outs).
Proof.
  intros Hs. induction 1 as [|x outs Hx Ho IH]; [constructor|]. cbn [join_entries].
  destruct outs; [done|]. by rewrite !nonul_app.
Qed.

Lemma nonul_entries depth fmt es :
  Forall (λ e, nonul e.1 ∧ nonul e.2) es → nonul (object_entries depth fmt es).
Proof.
  induction 1 as [|[n x] es (Hn & Hx) Ho IH]; [constructor|]. cbn [object_entries fst snd] in *.
  rewrite !nonul_app. split_and!; try done.
  - destruct fmt; [by apply nonul_repeat|constructor].
  - by repeat constructor.
  - destruct fmt; by repeat constructor.
  - destruct es; by repeat constructor.
  - destruct fmt; by repeat constructor.
Qed.

Lemma print_nonul fmt v :
  rendered v → ∀ depth out, print_value v depth fmt = Some out → nonul out.
Proof.
  revert v. refine (rendered_induct _ _ _ _ _ _ _ _).
  1-3: intros n depth out [= <-]; by repeat constructor.
  - intros n z Hz depth out. cbn [print_value type]. rewrite print_number_exact by done.
    intros [= <-]. apply nonul_decimal.
  - intros n k Hk depth out. by apply nonul_string.
  - intros n l IH Hn depth out. cbn [print_value type child]. intros (es & Hes & ->%malloced_inv)%bind_Some.
    rewrite !nonul_app. split_and!; [by repeat constructor| |by repeat constructor].
    apply nonul_join; [destruct fmt; by repeat constructor|]. clear Hn.
    apply mapM_Some in Hes. induction Hes; [constructor|].
    apply Forall_cons_1 in IH as [Hx IH]. constructor; [by eapply Hx|by apply IHHes].
  - intros n l IH Hn depth out. cbn [print_value type child]. intros (es & Hes & ->%malloced_inv)%bind_Some.
    rewrite !nonul_app. split_and!; [by repeat constructor| | | |by repeat constructor].
    + destruct fmt; by repeat constructor.
    + apply nonul_entries. apply mapM_Some in Hes. induction Hes as [|c [k x] l es Hc Hes IHe]; [constructor|].
      apply Forall_cons_1 in IH as [Hx IH]. apply Forall_cons_1 in Hn as [(s & Hs & Hcs) Hn].
      apply bind_Some in Hc as (n' & Hn' & (x' & Hx' & [= -> ->])%bind_Some).
      rewrite Hs in Hn'. constructor; [|by apply IHe]. cbn. split; [by eapply nonul_string|by eapply Hx].
    + destruct fmt; [by apply nonul_repeat|constructor].
Qed.

(** *** The text has no empty line *)

Lemma framed_app l k : framed l → framed k → framed (l ++ k).
Proof.
  intros [Hl Hn] [Hk Hm]. split; [by apply opens_app|]. rewrite last_app. by destruct (list.last k).
Qed.
Lemma framed_join outs : Forall framed outs → framed (join_entries [44; 32] outs) ∧ framed (join_entries [44] outs).
Proof.
  induction 1 as [|x outs Hx Ho [IH1 IH2]]; [by split; apply framed_quiet|]. cbn [join_entries].
  destruct outs; [done|].
  split; apply framed_app; try done; apply framed_app; try done; apply framed_quiet; by repeat constructor.
Qed.
Lemma calm_newline l : framed l → calm (l ++ [10]) = true.
Proof.
  intros [[Hc _] Hlast]. induction l as [|a l IH]; [done|]. cbn [calm app] in *. apply andb_true_iff in Hc as [Ha Hc].
  apply andb_true_iff. destruct l as [|b l]; [|split; [exact Ha|by apply IH]].
  cbn in Hlast. by rewrite (proj2 (Z.eqb_neq a 10)) by congruence.
Qed.
Lemma opens_entries depth es :
  1 ≤ depth → Forall (λ e, quiet e.1 ∧ framed e.2) es → opens (object_entries depth true es).
Proof.
  intros Hd. induction 1 as [|[n x] es (Hn & Hx) Ho IH]; [done|]. cbn [object_entries fst snd] in *.
  apply opens_app.
  { apply opens_quiet. apply list.Forall_forall. intros c Hc%list_elem_of_In%repeat_spec. lia. }
  apply opens_app; [by apply quiet_framed|]. apply opens_app; [by apply opens_quiet; repeat constructor|].
  rewrite !(app_assoc x). rewrite (app_assoc _ [10]), (app_assoc [9]).
  apply opens_app; [|done]. cbn [app]. apply opens_cons; [done|]. apply calm_newline. apply framed_app; [done|].
  destruct es; apply framed_quiet; by repeat constructor.
Qed.

Lemma print_framed v :
  rendered v → ∀ depth out, 0 ≤ depth → print_value v depth true = Some out → framed out.
Proof.
  revert v. refine (rendered_induct _ _ _ _ _ _ _ _).
  1-3: intros n depth out _ [= <-]; apply framed_quiet; by repeat constructor.
  - intros n z Hz depth out _. cbn [print_value type]. rewrite print_number_exact by done.
    intros [= <-]. apply quiet_framed, quiet_decimal.
  - intros n k Hk depth out _ Ho. by eapply quiet_framed, quiet_string.
  - intros n l IH Hn depth out Hd. cbn [print_value type child]. intros (es & Hes & ->%malloced_inv)%bind_Some.
    apply framed_app; [by apply framed_quiet; repeat constructor|].
    apply framed_app; [|by apply framed_quiet; repeat constructor].
    apply framed_join. clear Hn. apply mapM_Some in Hes. induction Hes; [constructor|].
    apply Forall_cons_1 in IH as [Hx IH]. constructor; [eapply Hx; [|done]; lia|by apply IHHes].
  - intros n l IH Hn depth out Hd. cbn [print_value type child]. intros (es & Hes & ->%malloced_inv)%bind_Some.
    rewrite !app_assoc. apply framed_snoc; [|done]. apply opens_app.
    + rewrite <-app_assoc, app_assoc. apply opens_app; [by split|]. apply opens_entries; [lia|].
      apply mapM_Some in Hes. induction Hes as [|c [k x] l es Hc Hes IHe]; [constructor|].
      apply Forall_cons_1 in IH as [Hx IH]. apply Forall_cons_1 in Hn as [(s & Hs & Hcs) Hn].
      apply bind_Some in Hc as (n' & Hn' & (x' & Hx' & [= -> ->])%bind_Some).
      rewrite Hs in Hn'. constructor; [|by apply IHe]. cbn. split; [by eapply quiet_string|].
      eapply Hx; [|done]. lia.
    + apply opens_quiet. apply list.Forall_forall. intros c Hc%list_elem_of_In%repeat_spec. lia.
Qed.

(** Rendering and reading back, for the encoders of messages *)
Lemma print_parse pow10 v fmt :
  pow10 0 = Fin 1 0 → rendered v → name v = None →
  ∃ text, print_value v 0 fmt = Some text ∧ nonul text ∧
    (∀ rest, number_stop rest → cJSON_Parse pow10 (text ++ rest) = Some (Some (parsed v))).
Proof.
  intros Hpow Hv Hroot.
  destruct (print_reads pow10 Hpow fmt v Hv 0 ltac:(lia)) as (text & Ht & Hr).
  exists text. split; [done|]. split; [by eapply print_nonul|]. intros rest. by apply parse_print_rest.
Qed.

(** C35  A tree whose strings and member names are clean, that is without
    control characters that have no short escape, and whose integers have at
    most 53 bits, of any depth, is rendered by [cJSON_Print] without a store
    outside the buffers it allocates, to a text without NUL, and [cJSON_Parse]
    gives the tree back from the text, with or without formatting.  Other
    control characters do not survive ([print_string_ptr] drops them), and wider
    integers need not. *)
Theorem json_roundtrip (pow10 : Z → double) (v : cJSON) (fmt : bool)
  (Hpow : pow10 0 = Fin 1 0) (Hv : rendered v) (Hroot : name v = None) :
  ∃ text, print_value v 0 fmt = Some text ∧ nonul text ∧
    cJSON_Parse pow10 text = Some (Some (parsed v)).
Proof.
  destruct (print_parse pow10 v fmt Hpow Hv Hroot) as (text & Ht & Hn & Hp). exists text. split_and!; [done..|].
  rewrite <-(app_nil_r text). by apply Hp.
Qed.

(** [skip] runs past the terminating NUL, which is not above a space: the
    text of a value with an opening bracket before it and nothing after it
    makes [cJSON_Parse] read beyond the end of the text. *)
Theorem json_unclosed_overruns (pow10 : Z → double) (v : cJSON) (fmt : bool)
  (Hpow : pow10 0 = Fin 1 0) (Hv : rendered v) (Hroot : name v = None) :
  ∃ text, print_value v 0 fmt = Some text ∧ cJSON_Parse pow10 ([91] ++ text) = None.
Proof.
  destruct (print_reads pow10 Hpow fmt v Hv 0 ltac:(lia)) as (text & Ht & Hr).
  exists text. split; [done|]. by apply (parse_unclosed_ok pow10 v).
Qed.

(** The powers of ten a double holds exactly, for the witnesses *)
Definition exact_pow10 (k : Z) : double := if k <? 0 then NaN else of_int (10 ^ k).

Definition sample_tree : cJSON :=
  Item cJSON_Object None 0 (Fin 0 0) None
    [Item cJSON_Number None (-7) (Fin (-7) 0) (Some "dur") [];
     Item cJSON_Array None 0 (Fin 0 0) (Some "values")
       [Item cJSON_String (Some "a\b") 0 (Fin 0 0) None []; Item cJSON_Object None 0 (Fin 0 0) None []];
     Item cJSON_True None 0 (Fin 0 0) (Some "rm") []].

Lemma sample_rendered : rendered sample_tree.
Proof.
  apply R_object.
  - repeat apply Forall_cons; [|..|apply Forall_nil].
    + apply (R_number _ (-7)). done.
    + apply R_array; repeat (apply Forall_cons || apply Forall_nil); try done.
      * apply R_string. by apply (bool_decide_unpack (clean "a\b")).
      * apply R_object; apply Forall_nil.
    + apply R_true.
  - repeat (apply Forall_cons || apply Forall_nil); cbn; eexists; (split; [done|]);
      by apply (bool_decide_unpack (clean _)).
Qed.

Lemma json_roundtrip_witness :
  rendered sample_tree ∧
  ∃ text, print_value sample_tree 0 true = Some text ∧ nonul text ∧
    cJSON_Parse exact_pow10 text = Some (Some (parsed sample_tree)).
Proof.
  split; [apply sample_rendered|].
  apply (json_roundtrip exact_pow10 sample_tree true); [done|apply sample_rendered|done].
Defined.

Lemma json_unclosed_overruns_witness :
  ∃ text, print_value sample_tree 0 false = Some text ∧
    cJSON_Parse exact_pow10 ([91] ++ text) = None.
Proof.
  apply (json_unclosed_overruns exact_pow10 sample_tree false); [done|apply sample_rendered|done].
Defined.

(** The scan that measures a string stops at the first quote; the copy of a
    unicode escape steps over four characters whatever they are, and goes on to
    the next quote beyond the buffer. *)
Example unicode_escape_overflow :
  let ptr := bytes_of "\u00" ++ [34] ++ bytes_of "AAAAAAAA" ++ [34] in
  scan_string 0 ptr = Some 3 ∧ copy_string 20 (3 + 1) None [] ptr = None ∧
  copy_string 20 20 None [] ptr = Some (0 :: bytes_of "AAAAAAA", [34]).
Proof. by vm_compute. Qed.
