(* ===== verification/JsonMsg.v ===== *)
(** * JsonMsg: messages as JSON text

    Models [src/corelib/json_msg_factory.c]: the encoders of the message types
    and the decoders with their error codes, over the trees, the printer and
    the parser of CJson and the base64 of Base64.

    A decoder fills the message it is given and returns zero, or returns a
    negative code and the caller drops the message: [Some (inl rc)] is the
    code, [Some (inr msg)] the message, and [None] a failed assertion or a
    read through a null pointer.  The body of a message is read from its
    pointer once and written back at the end.  An encoder gives its return
    code and the text it left in [*strp].  Memory from [Arena_alloc] is written
    before it is read; zeros stand for its first content. *)

From S2P Require Import Prelude Values Collections Messages Base64 CJson.
Import Str Flags AList Iter DataObject DataObjectList Dbl.

#[local] Ltac Zify.zify_post_hook ::= Z.to_euclidean_division_equations.

(** ** Keys and values of the protocol *)

Definition OEJSON_CID := "cid".
Definition OEJSON_TID := "tid".
Definition OEJSON_TYPE := "t".
Definition OEJSON_NAME := "n".
Definition OEJSON_COMMAND := "cmd".
Definition OEJSON_RESPONSE := "res".
Definition OEJSON_ERROR := "err".
Definition OEJSON_MESSAGE := "msg".
Definition OEJSON_DIS := "disconnect".
Definition OEJSON_CON := "connect".
Definition OEJSON_PUT := "put".
Definition OEJSON_GET := "get".
Definition OEJSON_UPT := "utxn".
Definition OEJSON_UPL := "ulease".
Definition OEJSON_STA := "start".
Definition OEJSON_SID := "sid".
Definition OEJSON_EXTENTNAME := "extentname".
Definition OEJSON_USERNAME := "username".
Definition OEJSON_PASSWORD := "password".
Definition OEJSON_VERSION := "version".
Definition OEJSON_MAJ := "maj".
Definition OEJSON_MIN := "min".
Definition OEJSON_SEQ := "seq".
Definition OEJSON_DUR := "dur".
Definition OEJSON_BYTES := "bytes".
Definition OEJSON_VALUES := "values".
Definition OEJSON_TEMPLATES := "templates".
Definition OEJSON_TIMEOUT := "timeout".
Definition OEJSON_MAXRESULTS := "c".
Definition OEJSON_ISJOIN := "join".
Definition OEJSON_IFEXISTS := "ife".
Definition OEJSON_REMOVE := "rm".
Definition OEJSON_RETURN_ATTRS := "rattrs".
Definition OEJSON_RETURN_BYTES := "rbytes".
Definition OEJSON_RETURN_IS_DESTROYED := "rm".
Definition OEJSON_LID := "lid".
Definition OEJSON_STATUS := "s".
Definition OEJSON_ENLISTED := "c".
Definition OEJSON_EID := "eid".
Definition OEJSON_NRESULTS := "c".
Definition OEJSON_EXPTIME := "exp".

(** ** Decoding *)

Abbreviation outcome A := (option (Z + A)).
Definition obind {A B} (e : outcome A) (k : A → outcome B) : outcome B :=
  match e with
  | None => None
  | Some (inl rc) => Some (inl rc)
  | Some (inr a) => k a
  end.
Notation "x <! e ; k" := (obind e (λ x, k))
  (at level 20, e at level 100, k at level 200, right associativity) : oes_scope.
Notation "' p <! e ; k" := (obind e (λ p, k))
  (at level 20, p pattern, e at level 100, k at level 200, right associativity) : oes_scope.
Definition ok {A} (a : A) : outcome A := Some (inr a).
Definition fail {A} (rc : Z) : outcome A := Some (inl rc).

Definition _arena_cpy (str : option string) : option string := str.

(** [if (valuenode) { if (valuenode->type != cJSON_Number) return rc; set(valueint); }] *)
Definition number_field {A} (root : cJSON) (key : string) (rc : Z) (set : A → Z → A) (a : A) : outcome A :=
  match cJSON_GetObjectItem root key with
  | None => ok a
  | Some n => if decide (type n = cJSON_Number) then ok (set a (valueint n)) else fail rc
  end.
Definition string_field {A} (root : cJSON) (key : string) (rc : Z) (set : A → string → A) (a : A) : outcome A :=
  match cJSON_GetObjectItem root key with
  | None => ok a
  | Some n =>
    if decide (type n = cJSON_String) then s ← _arena_cpy (valuestring n); ok (set a s) else fail rc
  end.
(** [if (valuenode) if (valuenode->type == cJSON_True) set()] *)
Definition true_field {A} (root : cJSON) (key : string) (set : A → A) (a : A) : A :=
  match cJSON_GetObjectItem root key with
  | None => a
  | Some n => if decide (type n = cJSON_True) then set a else a
  end.

(** An [int] passed as an [oe_id] or a [size_t] *)
Definition set_cid (m : OekMsg) (v : Z) : OekMsg := OekMsg_set_cid m (u64 v).
Definition set_tid (m : OekMsg) (v : Z) : OekMsg := OekMsg_set_tid m (u64 v).

Definition _con_command_create (msg : OekMsg) (root : cJSON) : outcome OekMsg :=
  msg <! number_field root OEJSON_CID (-1) set_cid msg;
  cmd ← OekMsg_get_con_cmd msg;
  cmd <! match cJSON_GetObjectItem root OEJSON_VERSION with
         | None => ok cmd
         | Some versionnode =>
           cmd <! number_field versionnode OEJSON_MAJ (-2) (λ c v, ConCmd_set_version_maj c (u64 v)) cmd;
           cmd <! number_field versionnode OEJSON_MIN (-3) (λ c v, ConCmd_set_version_min c (u64 v)) cmd;
           number_field versionnode OEJSON_SEQ (-4) (λ c v, ConCmd_set_version_upt c (u64 v)) cmd
         end;
  cmd <! string_field root OEJSON_EXTENTNAME (-5) ConCmd_set_extentname cmd;
  cmd <! string_field root OEJSON_USERNAME (-6) ConCmd_set_username cmd;
  cmd <! string_field root OEJSON_PASSWORD (-7) ConCmd_set_pwd cmd;
  let cmd := match cJSON_GetObjectItem root "rbOnDisconnect" with
             | Some _ => ConCmd_set_rollback_on_disconnect cmd
             | None => cmd
             end in
  ok (set_data msg (D_con_cmd cmd)).

(** The attribute a string or a number stands for *)
Definition attr_of (n : cJSON) (rc : Z) : outcome string :=
  if decide (type n = cJSON_String) then s ← valuestring n; ok s
  else if decide (type n = cJSON_Number) then ok (oec_itoa (valueint n))
  else fail rc.

(** The members of an array, in the order of [cJSON_GetArrayItem] *)
Fixpoint add_members (data : DataObject) (l : list cJSON) : outcome DataObject :=
  match l with
  | [] => ok data
  | n :: l =>
    v <! attr_of n (-20);
    add_members (DataObject_add_attr data v) l
  end.
(** The members of an object, each a key and a value *)
Fixpoint add_pairs (data : DataObject) (l : list cJSON) : outcome DataObject :=
  match l with
  | [] => ok data
  | n :: l =>
    k ← name n;
    let data := DataObject_add_attr data k in
    v <! attr_of n (-20);
    add_pairs (DataObject_add_attr data v) l
  end.

Definition Arena_alloc (len : Z) : list Z := repeat 0 (Z.to_nat len).

Definition put_bytes_field (root : cJSON) (data : DataObject) : outcome DataObject :=
  match cJSON_GetObjectItem root OEJSON_BYTES with
  | None => ok data
  | Some n =>
    if decide (type n = cJSON_String) then
      s ← valuestring n;
      let sz := Z.of_nat (String.length s) in
      let len := modp_b64_decode_len sz in
      if len <=? 0 then fail (-12)
      else
        '(rlen, bytes) ← modp_b64_decode (Arena_alloc len) (bytes_of s) sz;
        if rlen <=? 0 then fail (-13)
        else
          data ← DataObject_set_nbytes data rlen;
          data ← DataObject_set_bytes data (take (Z.to_nat rlen) bytes);
          ok data
    else fail (-11)
  end.

Definition put_values_field (root : cJSON) (cmd : PutCmd) (data : DataObject) : outcome (PutCmd * DataObject) :=
  match cJSON_GetObjectItem root OEJSON_VALUES with
  | None => ok (cmd, data)
  | Some n =>
    if decide (type n = cJSON_Array) then
      data <! add_members data (child n); ok (PutCmd_set_tuple cmd, data)
    else if decide (type n = cJSON_Object) then
      data <! add_pairs data (child n); ok (cmd, data)
    else fail (-14)
  end.

Definition _put_command_create (msg : OekMsg) (root : cJSON) : outcome OekMsg :=
  cmd ← OekMsg_get_put_cmd msg;
  let data := DataObject_set_always_copy (PutCmd_get_data cmd) true in
  msg <! number_field root OEJSON_CID (-8) set_cid msg;
  msg <! number_field root OEJSON_TID (-9) set_tid msg;
  cmd <! number_field root OEJSON_DUR (-10) PutCmd_set_dur cmd;
  data <! put_bytes_field root data;
  '(cmd, data) <! put_values_field root cmd data;
  ok (set_data msg (D_put_cmd (PutCmd_set_data cmd data))).

(** The object [GetCmd_new_data_object] returned is the last of the list; what
    is done to it through its pointer shows there. *)
Definition set_last_object (c : GetCmd) (d : DataObject) : GetCmd :=
  mkGetCmd (get_timeout c) (get_max_responses c) (get_flags c)
    (Some (take (length (_get_value_lists c) - 1) (_get_value_lists c) ++ [d])).

Fixpoint add_templates (cmd : GetCmd) (l : list cJSON) : outcome GetCmd :=
  match l with
  | [] => ok cmd
  | jtemplate :: l =>
    let '(cmd, templt) := GetCmd_new_data_object cmd in
    let templt := DataObject_set_always_copy templt true in
    cmd <! (if decide (type jtemplate = cJSON_Array) then
              let cmd := GetCmd_set_tuple cmd in
              if cJSON_GetArraySize jtemplate <=? 0 then fail (-192)
              else
                templt <! add_members templt (child jtemplate);
                ok (set_last_object cmd templt)
            else if decide (type jtemplate = cJSON_Object) then
              templt <! add_pairs templt (child jtemplate);
              ok (set_last_object cmd templt)
            else fail (-192));
    add_templates cmd l
  end.

Definition max_field (root : cJSON) (cmd : GetCmd) : outcome GetCmd :=
  match cJSON_GetObjectItem root OEJSON_MAXRESULTS with
  | None => cmd ← GetCmd_set_max_responses cmd 1; ok cmd
  | Some n =>
    if decide (type n = cJSON_Number) then
      cmd ← GetCmd_set_max_responses cmd (u64 (valueint n)); ok cmd
    else fail (-18)
  end.

Definition templates_field (root : cJSON) (cmd : GetCmd) : outcome GetCmd :=
  match cJSON_GetObjectItem root OEJSON_TEMPLATES with
  | None => ok cmd
  | Some n =>
    if decide (type n = cJSON_Array) then
      if cJSON_GetArraySize n <=? 0 then fail (-191) else add_templates cmd (child n)
    else fail (-19)
  end.

Definition _get_command_create (msg : OekMsg) (root : cJSON) : outcome OekMsg :=
  cmd ← OekMsg_get_get_cmd msg;
  msg <! number_field root OEJSON_CID (-15) set_cid msg;
  msg <! number_field root OEJSON_TID (-16) set_tid msg;
  cmd <! number_field root OEJSON_TIMEOUT (-17) GetCmd_set_timeout cmd;
  cmd <! max_field root cmd;
  cmd <! templates_field root cmd;
  let cmd := true_field root OEJSON_ISJOIN GetCmd_set_join cmd in
  let cmd := true_field root OEJSON_IFEXISTS GetCmd_set_ifexists_option cmd in
  let cmd := true_field root OEJSON_REMOVE GetCmd_set_remove_option cmd in
  let cmd := true_field root OEJSON_RETURN_ATTRS (λ c, GetCmd_set_return_attrs c true) cmd in
  let cmd := true_field root OEJSON_RETURN_BYTES (λ c, GetCmd_set_return_bytes c true) cmd in
  ok (set_data msg (D_get_cmd cmd)).

Definition _sta_command_create (msg : OekMsg) (root : cJSON) : outcome OekMsg :=
  cmd ← OekMsg_get_sta_cmd msg;
  msg <! number_field root OEJSON_CID (-21) set_cid msg;
  cmd <! number_field root OEJSON_DUR (-22) StaCmd_set_dur cmd;
  ok (set_data msg (D_sta_cmd cmd)).

Definition _upl_command_create (msg : OekMsg) (root : cJSON) : outcome OekMsg :=
  cmd ← OekMsg_get_upl_cmd msg;
  msg <! number_field root OEJSON_CID (-23) set_cid msg;
  cmd <! number_field root OEJSON_DUR (-24) UplCmd_set_dur cmd;
  cmd <! number_field root OEJSON_LID (-25) (λ c v, UplCmd_set_lid c (u64 v)) cmd;
  ok (set_data msg (D_upl_cmd cmd)).

(** [sstr[0]]: the status of an empty string is zero. *)
Definition upt_cmd_status (c : UptCmd) (s : string) : UptCmd :=
  match s with
  | EmptyString => mkUptCmd (upt_duration c) (upt_enlisted c) None
  | String x _ => UptCmd_set_status c x
  end.
Definition upt_res_status (r : UptRes) (s : string) : UptRes :=
  match s with
  | EmptyString => mkUptRes None
  | String x _ => UptRes_set_status r x
  end.

Definition _upt_command_create (msg : OekMsg) (root : cJSON) : outcome OekMsg :=
  cmd ← OekMsg_get_upt_cmd msg;
  msg <! number_field root OEJSON_CID (-27) set_cid msg;
  msg <! number_field root OEJSON_TID (-28) set_tid msg;
  cmd <! number_field root OEJSON_DUR (-29) UptCmd_set_dur cmd;
  cmd <! string_field root OEJSON_STATUS (-30) upt_cmd_status cmd;
  cmd <! number_field root OEJSON_ENLISTED (-31) UptCmd_set_enlisted cmd;
  ok (set_data msg (D_upt_cmd cmd)).

Definition _error_create (root : cJSON) : outcome OekMsg :=
  msg ← OekMsg_new OEK_ERR;
  err ← OekMsg_get_err msg;
  err <! string_field root OEJSON_MESSAGE (-32) OekErr_set_message err;
  err <! number_field root OEJSON_EID (-33) (λ e v, OekErr_set_type e (u64 v)) err;
  ok (set_data msg (D_err err)).

Definition _dis_command_create (msg : OekMsg) (root : cJSON) : outcome OekMsg :=
  _ ← OekMsg_get_dis_cmd msg; ok msg.

Definition _con_response_create (msg : OekMsg) (root : cJSON) : outcome OekMsg :=
  msg <! number_field root OEJSON_CID (-34) set_cid msg;
  res ← OekMsg_get_con_res msg;
  res <! match cJSON_GetObjectItem root OEJSON_VERSION with
         | None => ok res
         | Some versionnode =>
           if decide (type versionnode ≠ cJSON_Object) then fail (-35)
           else
             res <! number_field versionnode OEJSON_MAJ (-36) (λ r v, ConRes_set_version_maj r (u64 v)) res;
             res <! number_field versionnode OEJSON_MIN (-37) (λ r v, ConRes_set_version_min r (u64 v)) res;
             number_field versionnode OEJSON_SEQ (-38) (λ r v, ConRes_set_version_upt r (u64 v)) res
         end;
  res <! string_field root OEJSON_EXTENTNAME (-39) ConRes_set_extentname res;
  res <! number_field root OEJSON_SID (-40) (λ r v, ConRes_set_sid r (u64 v)) res;
  ok (set_data msg (D_con_res res)).

Definition _put_response_create (msg : OekMsg) (root : cJSON) : outcome OekMsg :=
  res ← OekMsg_get_put_res msg;
  res <! number_field root OEJSON_LID (-42) (λ r v, PutRes_set_lease_id r (u64 v)) res;
  msg <! number_field root OEJSON_CID (-43) set_cid msg;
  ok (set_data msg (D_put_res res)).

(** The members of a response's array must be strings. *)
Fixpoint add_strings (data : DataObject) (l : list cJSON) : outcome DataObject :=
  match l with
  | [] => ok data
  | n :: l =>
    if decide (type n ≠ cJSON_String) then fail (-47)
    else v ← valuestring n; add_strings (DataObject_add_attr data v) l
  end.

Definition res_values_field (root : cJSON) (res : GetRes) (data : DataObject) : outcome (GetRes * DataObject) :=
  match cJSON_GetObjectItem root OEJSON_VALUES with
  | None => ok (res, data)
  | Some n =>
    if decide (type n = cJSON_Array) then
      data <! add_strings data (child n); ok (GetRes_set_tuple res, data)
    else if decide (type n = cJSON_Object) then
      data <! add_pairs data (child n); ok (res, data)
    else fail (-46)
  end.

(** The bytes are taken as they are: they are not decoded. *)
Definition res_bytes_field (root : cJSON) (data : DataObject) : outcome DataObject :=
  match cJSON_GetObjectItem root OEJSON_BYTES with
  | None => ok data
  | Some n =>
    if decide (type n = cJSON_String) then
      s ← valuestring n;
      data ← DataObject_set_nbytes data (Z.of_nat (String.length s));
      data ← DataObject_set_bytes data (bytes_of s);
      ok data
    else fail (-48)
  end.

Definition _get_response_create (msg : OekMsg) (root : cJSON) : outcome OekMsg :=
  res ← OekMsg_get_get_res msg;
  let data := DataObject_set_always_copy (GetRes_get_data res) true in
  msg <! number_field root OEJSON_CID (-44) set_cid msg;
  res <! number_field root OEJSON_NRESULTS (-45) (λ r v, GetRes_set_nresults r (u64 v)) res;
  let res := true_field root OEJSON_RETURN_BYTES GetRes_set_destroyed res in
  '(res, data) <! res_values_field root res data;
  data <! res_bytes_field root data;
  ok (set_data msg (D_get_res (GetRes_set_data res data))).

Definition _sta_response_create (msg : OekMsg) (root : cJSON) : outcome OekMsg :=
  res ← OekMsg_get_sta_res msg;
  msg <! number_field root OEJSON_TID (-49) set_tid msg;
  msg <! number_field root OEJSON_CID (-50) set_cid msg;
  ok (set_data msg (D_sta_res res)).

Definition _upl_response_create (msg : OekMsg) (root : cJSON) : outcome OekMsg :=
  res ← OekMsg_get_upl_res msg;
  msg <! number_field root OEJSON_CID (-52) set_cid msg;
  res <! number_field root OEJSON_EXPTIME (-53) UplRes_set_expiretime res;
  ok (set_data msg (D_upl_res res)).

Definition _upt_response_create (msg : OekMsg) (root : cJSON) : outcome OekMsg :=
  res ← OekMsg_get_upt_res msg;
  msg <! number_field root OEJSON_CID (-54) set_cid msg;
  res <! string_field root OEJSON_STATUS (-56) upt_res_status res;
  ok (set_data msg (D_upt_res res)).

(** A message of a type, filled by its decoder *)
Definition create_with (t : OEK_MSG_TYPE) (f : OekMsg → cJSON → outcome OekMsg) (root : cJSON) : outcome OekMsg :=
  msg ← OekMsg_new t; f msg root.

Definition _command_create (root : cJSON) : outcome OekMsg :=
  match cJSON_GetObjectItem root OEJSON_NAME with
  | None => fail (-74)
  | Some namenode =>
    match valuestring namenode with
    | None => fail (-75)
    | Some n =>
      if decide (n = OEJSON_CON) then create_with CON_CMD _con_command_create root
      else if decide (n = OEJSON_PUT) then create_with PUT_CMD _put_command_create root
      else if decide (n = OEJSON_GET) then create_with GET_CMD _get_command_create root
      else if decide (n = OEJSON_STA) then create_with STA_CMD _sta_command_create root
      else if decide (n = OEJSON_UPL) then create_with UPL_CMD _upl_command_create root
      else if decide (n = OEJSON_UPT) then create_with UPT_CMD _upt_command_create root
      else if decide (n = OEJSON_DIS) then create_with DIS_CMD _dis_command_create root
      else fail (-76)
    end
  end.

Definition _response_create (root : cJSON) : outcome OekMsg :=
  match cJSON_GetObjectItem root OEJSON_NAME with
  | None => fail (-77)
  | Some node =>
    match valuestring node with
    | None => fail (-78)
    | Some n =>
      if decide (n = OEJSON_CON) then create_with CON_RES _con_response_create root
      else if decide (n = OEJSON_PUT) then create_with PUT_RES _put_response_create root
      else if decide (n = OEJSON_GET) then create_with GET_RES _get_response_create root
      else if decide (n = OEJSON_STA) then create_with STA_RES _sta_response_create root
      else if decide (n = OEJSON_UPL) then create_with UPL_RES _upl_response_create root
      else if decide (n = OEJSON_UPT) then create_with UPT_RES _upt_response_create root
      else fail (-79)
    end
  end.

(** [json_msg_create] on the tree it parsed *)
Definition typed_create (root : cJSON) : outcome OekMsg :=
  match cJSON_GetObjectItem root OEJSON_TYPE with
  | None => fail (-80)
  | Some typenode =>
    match valuestring typenode with
    | None => fail (-81)
    | Some t =>
      if decide (t = OEJSON_COMMAND) then _command_create root
      else if decide (t = OEJSON_RESPONSE) then _response_create root
      else if decide (t = OEJSON_ERROR) then _error_create root
      else fail (-82)
    end
  end.

(** The tree is released on every path but those of the codes -80 and -81. *)
Definition json_msg_create (pow10 : Z → double) (str : list Z) : outcome OekMsg :=
  match cJSON_Parse pow10 str with
  | None => None
  | Some None => fail (-84)
  | Some (Some root) => typed_create root
  end.

(** ** Encoding *)

Definition cJSON_AddTrueToObject (object : cJSON) (key : string) : option cJSON :=
  cJSON_AddItemToObject object (Some key) cJSON_CreateTrue.
Definition cJSON_AddNumberToObject (object : cJSON) (key : string) (n : Z) : option cJSON :=
  cJSON_AddItemToObject object (Some key) (cJSON_CreateNumber (of_int n)).
Definition cJSON_AddStringToObject (object : cJSON) (key : string) (s : option string) : option cJSON :=
  item ← cJSON_CreateString s; cJSON_AddItemToObject object (Some key) item.

(** [if (n) cJSON_AddNumberToObject(...)] and [if (b) ... cJSON_CreateTrue()] *)
Definition add_nonzero (object : cJSON) (key : string) (n : Z) : option cJSON :=
  if n =? 0 then Some object else cJSON_AddNumberToObject object key n.
Definition add_flag (object : cJSON) (key : string) (b : bool) : option cJSON :=
  if b then cJSON_AddTrueToObject object key else Some object.

Definition _get_json_string (root : cJSON) : option (list Z) := cJSON_Print root.

Definition reply (rc : Z) (root : cJSON) : option (Z * option (list Z)) :=
  text ← _get_json_string root; Some (rc, Some text).

Definition head_of (t : string) (n : string) : option cJSON :=
  root ← cJSON_AddStringToObject cJSON_CreateObject OEJSON_TYPE (Some t);
  cJSON_AddStringToObject root OEJSON_NAME (Some n).

(** The version object is attached empty and filled through its pointer. *)
Definition version_object (v : Z * Z * Z) : option cJSON :=
  let '(maj, min, seq) := v in
  ver ← cJSON_AddNumberToObject cJSON_CreateObject OEJSON_MAJ maj;
  ver ← cJSON_AddNumberToObject ver OEJSON_MIN min;
  cJSON_AddNumberToObject ver OEJSON_SEQ seq.

Definition _con_command_serialize (msg : OekMsg) : option (Z * option (list Z)) :=
  cmd ← OekMsg_get_con_cmd msg;
  root ← head_of OEJSON_COMMAND OEJSON_CON;
  root ← add_flag root "rbOnDisconnect" (ConCmd_rollback_on_disconnect cmd);
  root ← cJSON_AddStringToObject root OEJSON_EXTENTNAME (con_extentname cmd);
  root ← cJSON_AddStringToObject root OEJSON_USERNAME (con_username cmd);
  root ← cJSON_AddStringToObject root OEJSON_PASSWORD (con_password cmd);
  ver ← version_object (con_version cmd);
  root ← cJSON_AddItemToObject root (Some OEJSON_VERSION) ver;
  root ← add_nonzero root OEJSON_CID (OekMsg_get_cid msg);
  reply 0 root.

Definition _con_response_serialize (msg : OekMsg) : option (Z * option (list Z)) :=
  res ← OekMsg_get_con_res msg;
  root ← head_of OEJSON_RESPONSE OEJSON_CON;
  root ← cJSON_AddNumberToObject root OEJSON_SID (session_id res);
  ver ← version_object (res_version res);
  root ← cJSON_AddItemToObject root (Some OEJSON_VERSION) ver;
  root ← add_nonzero root OEJSON_CID (OekMsg_get_cid msg);
  reply 0 root.

(** The attributes, as the iterator yields them *)
Definition attrs_of (d : DataObject) : option (list string) :=
  drain (length (strings d)) (DataObject_iterator d true).1.

Fixpoint values_array (array : cJSON) (l : list string) : option cJSON :=
  match l with
  | [] => Some array
  | k :: l => item ← cJSON_CreateString (Some k); values_array (cJSON_AddItemToArray array item) l
  end.
(** A key without a value has the iterator's null pointer for its value. *)
Fixpoint values_object (object : cJSON) (l : list string) : option cJSON :=
  match l with
  | [] => Some object
  | [k] => item ← cJSON_CreateString None; cJSON_AddItemToObject object (Some k) item
  | k :: v :: l =>
    item ← cJSON_CreateString (Some v);
    object ← cJSON_AddItemToObject object (Some k) item;
    values_object object l
  end.
Definition values_of (tuple : bool) (d : DataObject) : option cJSON :=
  l ← attrs_of d;
  if tuple then values_array cJSON_CreateArray l else values_object cJSON_CreateObject l.

(** The bytes of a data object as a base64 C string: a code, or the string
    when there are bytes. *)
Definition encode_bytes (d : DataObject) (rc_len rc_enc : Z) : outcome (option string) :=
  let nbytes := i32 (DataObject_get_nbytes d) in
  if nbytes =? 0 then ok None
  else
    let len := modp_b64_encode_len nbytes in
    if len <=? 0 then fail rc_len
    else
      b ← DataObject_get_bytes d;
      '(rc, bytes) ← modp_b64_encode (Arena_alloc len) b nbytes;
      if rc <=? 0 then fail rc_enc
      else s ← c_string bytes; ok (Some s).

Definition add_bytes (object : cJSON) (s : option string) : option cJSON :=
  match s with
  | None => Some object
  | Some s => cJSON_AddStringToObject object OEJSON_BYTES (Some s)
  end.

Definition _put_command_serialize (msg : OekMsg) : option (Z * option (list Z)) :=
  cmd ← OekMsg_get_put_cmd msg;
  let data := PutCmd_get_data cmd in
  root ← head_of OEJSON_COMMAND OEJSON_PUT;
  root ← add_nonzero root OEJSON_CID (OekMsg_get_cid msg);
  root ← add_nonzero root OEJSON_TID (OekMsg_get_tid msg);
  root ← add_nonzero root OEJSON_DUR (put_duration cmd);
  match encode_bytes data (-70) (-71) with
  | None => None
  | Some (inl rc) => Some (rc, None)
  | Some (inr s) =>
    root ← add_bytes root s;
    values ← values_of (put_is_tuple cmd) data;
    root ← cJSON_AddItemToObject root (Some OEJSON_VALUES) values;
    reply 0 root
  end.

Definition _put_response_serialize (msg : OekMsg) : option (Z * option (list Z)) :=
  res ← OekMsg_get_put_res msg;
  root ← head_of OEJSON_RESPONSE OEJSON_PUT;
  root ← cJSON_AddNumberToObject root OEJSON_LID (res_lease_id res);
  root ← add_nonzero root OEJSON_CID (OekMsg_get_cid msg);
  reply 0 root.

(** A tuple's template is read through its array, a map's by its iterator. *)
Fixpoint templates_array (tuple : bool) (array : cJSON) (l : list DataObject) : option cJSON :=
  match l with
  | [] => Some array
  | templt :: l =>
    jtemplate ←
      (if tuple then
         keylist ← mapM id (take (Z.to_nat (DataObject_get_nattrs templt)) (DataObject_toArray templt));
         values_array cJSON_CreateArray keylist
       else values_of false templt);
    templates_array tuple (cJSON_AddItemToArray array jtemplate) l
  end.

Definition _get_command_serialize (msg : OekMsg) : option (Z * option (list Z)) :=
  cmd ← OekMsg_get_get_cmd msg;
  let templates := GetCmd_get_data_objects cmd in
  root ← head_of OEJSON_COMMAND OEJSON_GET;
  root ← add_nonzero root OEJSON_CID (OekMsg_get_cid msg);
  root ← add_nonzero root OEJSON_TID (OekMsg_get_tid msg);
  root ← add_nonzero root OEJSON_TIMEOUT (i32 (get_timeout cmd));
  root ← add_nonzero root OEJSON_MAXRESULTS (i32 (get_max_responses cmd));
  root ← add_flag root OEJSON_REMOVE (GetCmd_remove cmd);
  root ← add_flag root OEJSON_IFEXISTS (GetCmd_ifexists cmd);
  root ← add_flag root OEJSON_RETURN_ATTRS (GetCmd_return_attrs cmd);
  root ← add_flag root OEJSON_RETURN_BYTES (GetCmd_return_bytes cmd);
  root ← add_flag root OEJSON_ISJOIN (GetCmd_get_join cmd);
  l ← drain (length templates) (DataObjectList_iterator templates);
  jtemplates ← templates_array (GetCmd_is_tuple cmd) cJSON_CreateArray l;
  root ← cJSON_AddItemToObject root (Some OEJSON_TEMPLATES) jtemplates;
  reply 0 root.

Definition _get_response_serialize (msg : OekMsg) : option (Z * option (list Z)) :=
  res ← OekMsg_get_get_res msg;
  let data := GetRes_get_data res in
  root ← head_of OEJSON_RESPONSE OEJSON_GET;
  root ← add_nonzero root OEJSON_CID (OekMsg_get_cid msg);
  root ← add_nonzero root OEJSON_TID (OekMsg_get_tid msg);
  root ← add_flag root OEJSON_RETURN_IS_DESTROYED (GetRes_is_destroyed res);
  root ← cJSON_AddNumberToObject root OEJSON_NRESULTS (nresults res);
  match (if GetRes_return_bytes res then encode_bytes data (-72) (-73) else ok None) with
  | None => None
  | Some (inl rc) => Some (rc, None)
  | Some (inr s) =>
    root ← add_bytes root s;
    root ← (if GetRes_return_attrs res && negb (i32 (DataObject_get_nattrs data) =? 0) then
              values ← values_of (GetRes_is_tuple res) data;
              cJSON_AddItemToObject root (Some OEJSON_VALUES) values
            else Some root);
    reply 0 root
  end.

Definition _sta_command_serialize (msg : OekMsg) : option (Z * option (list Z)) :=
  cmd ← OekMsg_get_sta_cmd msg;
  root ← head_of OEJSON_COMMAND OEJSON_STA;
  root ← add_nonzero root OEJSON_CID (OekMsg_get_cid msg);
  root ← add_nonzero root OEJSON_DUR (sta_duration cmd);
  reply 0 root.

(** The code is -1 when there is no transaction; the text is left all the same. *)
Definition _sta_response_serialize (msg : OekMsg) : option (Z * option (list Z)) :=
  _ ← OekMsg_get_sta_res msg;
  root ← head_of OEJSON_RESPONSE OEJSON_STA;
  root ← add_nonzero root OEJSON_CID (OekMsg_get_cid msg);
  let tid := OekMsg_get_tid msg in
  root ← add_nonzero root OEJSON_TID tid;
  reply (if tid =? 0 then -1 else 0) root.

Definition _upl_command_serialize (msg : OekMsg) : option (Z * option (list Z)) :=
  cmd ← OekMsg_get_upl_cmd msg;
  root ← head_of OEJSON_COMMAND OEJSON_UPL;
  root ← add_nonzero root OEJSON_CID (OekMsg_get_cid msg);
  root ← add_nonzero root OEJSON_DUR (upl_duration cmd);
  root ← add_nonzero root OEJSON_LID (upl_lease_id cmd);
  reply 0 root.

Definition _upl_response_serialize (msg : OekMsg) : option (Z * option (list Z)) :=
  res ← OekMsg_get_upl_res msg;
  root ← head_of OEJSON_RESPONSE OEJSON_UPL;
  root ← add_nonzero root OEJSON_CID (OekMsg_get_cid msg);
  root ← add_nonzero root OEJSON_EXPTIME (upl_expiretime res);
  reply 0 root.

(** [char status_str[2]]: the status and a NUL *)
Definition add_status (object : cJSON) (status : option ascii) : option cJSON :=
  match status with
  | None => Some object
  | Some c =>
    if uchar_z c =? 0 then Some object
    else cJSON_AddStringToObject object OEJSON_STATUS (Some (String c EmptyString))
  end.

Definition _upt_command_serialize (msg : OekMsg) : option (Z * option (list Z)) :=
  cmd ← OekMsg_get_upt_cmd msg;
  root ← head_of OEJSON_COMMAND OEJSON_UPT;
  root ← add_nonzero root OEJSON_CID (OekMsg_get_cid msg);
  root ← add_nonzero root OEJSON_TID (OekMsg_get_tid msg);
  root ← add_nonzero root OEJSON_DUR (upt_duration cmd);
  root ← cJSON_AddNumberToObject root OEJSON_ENLISTED (upt_enlisted cmd);
  root ← add_status root (upt_status cmd);
  reply 0 root.

Definition _upt_response_serialize (msg : OekMsg) : option (Z * option (list Z)) :=
  res ← OekMsg_get_upt_res msg;
  root ← head_of OEJSON_RESPONSE OEJSON_UPT;
  root ← add_nonzero root OEJSON_CID (OekMsg_get_cid msg);
  root ← add_status root (Some (UptRes_get_status res));
  reply 0 root.

Definition _err_serialize (msg : OekMsg) : option (Z * option (list Z)) :=
  err ← OekMsg_get_err msg;
  root ← cJSON_AddStringToObject cJSON_CreateObject OEJSON_TYPE (Some OEJSON_ERROR);
  root ← add_nonzero root OEJSON_CID (OekMsg_get_cid msg);
  root ← add_nonzero root OEJSON_EID (err_type err);
  root ← match emessage err with
         | None => Some root
         | Some m => cJSON_AddStringToObject root OEJSON_MESSAGE (Some m)
         end;
  reply 0 root.

Definition _dis_command_serialize (msg : OekMsg) : option (Z * option (list Z)) :=
  _ ← OekMsg_get_dis_cmd msg;
  root ← head_of OEJSON_COMMAND OEJSON_DIS;
  reply 0 root.

Definition json_msg_serialize (msg : OekMsg) : option (Z * option (list Z)) :=
  match OekMsg_get_type msg with
  | CON_CMD => _con_command_serialize msg
  | CON_RES => _con_response_serialize msg
  | PUT_CMD => _put_command_serialize msg
  | PUT_RES => _put_response_serialize msg
  | GET_CMD => _get_command_serialize msg
  | GET_RES => _get_response_serialize msg
  | STA_CMD => _sta_command_serialize msg
  | STA_RES => _sta_response_serialize msg
  | UPL_CMD => _upl_command_serialize msg
  | UPL_RES => _upl_response_serialize msg
  | UPT_CMD => _upt_command_serialize msg
  | UPT_RES => _upt_response_serialize msg
  | DIS_CMD => _dis_command_serialize msg
  | OEK_ERR => _err_serialize msg
  | OEK_NON => None
  end.

(** ** Trees of messages *)

Definition obj (l : list cJSON) : cJSON := Item cJSON_Object None 0 (Fin 0 0) None l.
Definition str (k s : string) : cJSON := Item cJSON_String (Some s) 0 (Fin 0 0) (Some k) [].
Definition num (k : string) (z : Z) : cJSON :=
  Item cJSON_Number None (to_int (of_int z)) (of_int z) (Some k) [].
Definition tru (k : string) : cJSON := Item cJSON_True None 0 (Fin 0 0) (Some k) [].
Definition opt_num (k : string) (z : Z) : list cJSON := if z =? 0 then [] else [num k z].
Definition opt_tru (k : string) (b : bool) : list cJSON := if b then [tru k] else [].
Definition opt_str (k : string) (s : option string) : list cJSON :=
  match s with Some s => [str k s] | None => [] end.

Lemma add_string_obj l k s : cJSON_AddStringToObject (obj l) k (Some s) = Some (obj (l ++ [str k s])).
Proof. done. Qed.
Lemma add_number_obj l k z : cJSON_AddNumberToObject (obj l) k z = Some (obj (l ++ [num k z])).
Proof. done. Qed.
Lemma add_item_obj l k v : cJSON_AddItemToObject (obj l) (Some k) v = Some (obj (l ++ [with_name (Some k) v])).
Proof. done. Qed.
Lemma add_nonzero_obj l k z : add_nonzero (obj l) k z = Some (obj (l ++ opt_num k z)).
Proof. unfold add_nonzero, opt_num. destruct (z =? 0); [by rewrite app_nil_r|done]. Qed.
Lemma add_flag_obj l k b : add_flag (obj l) k b = Some (obj (l ++ opt_tru k b)).
Proof. destruct b; [done|]. cbn. by rewrite app_nil_r. Qed.
Lemma add_bytes_obj l s : add_bytes (obj l) s = Some (obj (l ++ opt_str OEJSON_BYTES s)).
Proof. destruct s; [done|]. cbn. by rewrite app_nil_r. Qed.
Lemma head_of_obj t n : head_of t n = Some (obj [str OEJSON_TYPE t; str OEJSON_NAME n]).
Proof. done. Qed.
Lemma version_obj v :
  version_object v = Some (obj [num OEJSON_MAJ v.1.1; num OEJSON_MIN v.1.2; num OEJSON_SEQ v.2]).
Proof. by destruct v as [[a b] c]. Qed.

Create Rewrite HintDb json.
#[export] Hint Rewrite add_string_obj add_number_obj add_item_obj add_nonzero_obj add_flag_obj
  add_bytes_obj head_of_obj version_obj : json.

(** Build the tree of an encoder. *)
Ltac build :=
  repeat (progress autorewrite with json; cbn [mbind option_bind]).

(** Looking a key up among members *)
Definition member (k : string) (l : list cJSON) : option cJSON :=
  snd <$> list_find (λ c, cJSON_strcasecmp (name c) (Some k) = 0) l.

Definition same_key (k' k : string) : bool := strcasecmp_go k' k =? 0.

Lemma member_cons k k' x l :
  name x = Some k' → member k (x :: l) = if same_key k' k then Some x else member k l.
Proof.
  intros Hx. unfold member, same_key. cbn [list_find]. rewrite Hx. cbn [cJSON_strcasecmp].
  destruct (decide _) as [->|Hne]; [done|]. destruct (Z.eqb_spec (strcasecmp_go k' k) 0); [done|].
  by destruct (list_find _ l) as [[? ?]|].
Qed.

Lemma member_app k l l' :
  member k (l ++ l') = match member k l with Some x => Some x | None => member k l' end.
Proof.
  unfold member. induction l as [|x l IH]; [done|]. cbn [app list_find].
  destruct (decide _); [done|].
  destruct (list_find _ (l ++ l')) as [[? ?]|], (list_find _ l) as [[? ?]|]; cbn in *; done.
Qed.

Lemma member_parsed k l : member k (map parsed l) = parsed <$> member k l.
Proof.
  unfold member. induction l as [|x l IH]; [done|]. cbn [map list_find].
  assert (name (parsed x) = name x) as -> by (by destruct x).
  destruct (decide _); [done|].
  destruct (list_find _ (map parsed l)) as [[? ?]|], (list_find _ l) as [[? ?]|]; cbn in *; done.
Qed.

Lemma get_item_obj k l : cJSON_GetObjectItem (parsed (obj l)) k = parsed <$> member k l.
Proof. apply member_parsed. Qed.

Lemma member_str k k' s l : member k (str k' s :: l) = if same_key k' k then Some (str k' s) else member k l.
Proof. by apply member_cons. Qed.
Lemma member_num k k' z l : member k (num k' z :: l) = if same_key k' k then Some (num k' z) else member k l.
Proof. by apply member_cons. Qed.
Lemma member_named k k' v l :
  member k (with_name (Some k') v :: l) =
    if same_key k' k then Some (with_name (Some k') v) else member k l.
Proof. by apply member_cons. Qed.
Lemma member_opt_num k k' z :
  member k (opt_num k' z) = if same_key k' k then if z =? 0 then None else Some (num k' z) else None.
Proof.
  unfold opt_num. destruct (z =? 0); [by destruct (same_key k' k)|]. by rewrite member_num.
Qed.
Lemma member_opt_tru k k' b :
  member k (opt_tru k' b) = if same_key k' k then if b then Some (tru k') else None else None.
Proof.
  unfold opt_tru. destruct b; [|by destruct (same_key k' k)]. by rewrite (member_cons k k').
Qed.
Lemma member_opt_str k k' s :
  member k (opt_str k' s) = if same_key k' k then str k' <$> s else None.
Proof.
  destruct s as [s|]; cbn [opt_str]; [|by destruct (same_key k' k)]. by rewrite member_str.
Qed.
Lemma member_nil k : member k [] = None.
Proof. done. Qed.

(** What is found is found, once nothing follows it. *)
Lemma found_eta (o : option cJSON) : match o with Some x => Some x | None => None end = o.
Proof. by destruct o. Qed.

Create Rewrite HintDb members.
#[export] Hint Rewrite member_app member_str member_num member_named member_opt_num member_opt_tru
  member_opt_str member_nil : members.

(** Decide the comparisons of constant keys. *)
Ltac same_keys :=
  repeat match goal with
  | |- context [same_key ?a ?b] =>
    let v := eval vm_compute in (same_key a b) in change (same_key a b) with v; cbn iota
  end.
Ltac members := autorewrite with members; same_keys; rewrite ?found_eta.

(** The members of a tree that is rendered and read back *)
Definition good (c : cJSON) : Prop := rendered c ∧ ∃ k, name c = Some k ∧ clean k.

Lemma good_str k s : clean k → clean s → good (str k s).
Proof. intros Hk Hs. split; [by apply R_string|by exists k]. Qed.
Lemma good_num k z : clean k → exact z → good (num k z).
Proof.
  intros Hk Hz. split; [|by exists k]. unfold num. rewrite of_int_exact by done. by apply R_number.
Qed.
Lemma good_tru k : clean k → good (tru k).
Proof. intros Hk. split; [apply R_true|by exists k]. Qed.
Lemma good_opt_num k z : clean k → exact z → Forall good (opt_num k z).
Proof. intros. unfold opt_num. destruct (z =? 0); [constructor|]. by apply Forall_cons; [apply good_num|constructor]. Qed.
Lemma good_opt_tru k b : clean k → Forall good (opt_tru k b).
Proof. intros. unfold opt_tru. destruct b; [|constructor]. by apply Forall_cons; [apply good_tru|constructor]. Qed.
Lemma good_opt_str k s : clean k → (∀ x, s = Some x → clean x) → Forall good (opt_str k s).
Proof. intros. destruct s; [|constructor]. apply Forall_cons; [apply good_str; auto|constructor]. Qed.
Lemma rendered_obj l : Forall good l → rendered (obj l).
Proof.
  intros H. apply R_object; (eapply list.Forall_impl; [exact H|]); by intros c [].
Qed.
Lemma rendered_name c k : rendered c → rendered (with_name (Some k) c).
Proof. intros H. destruct H; cbn; by constructor. Qed.
Lemma good_named k v : clean k → rendered v → good (with_name (Some k) v).
Proof. intros Hk Hv. split; [by apply rendered_name|by exists k]. Qed.

(** The constants of the protocol are clean. *)
Ltac const_clean := by apply (bool_decide_unpack (clean _)).
Ltac all_good :=
  repeat match goal with
  | |- Forall good (_ ++ _) => apply list.Forall_app; split
  | |- Forall good (_ :: _) => constructor
  | |- Forall good [] => constructor
  | |- Forall good (opt_num _ _) => apply good_opt_num; [const_clean|]
  | |- Forall good (opt_tru _ _) => apply good_opt_tru; const_clean
  | |- Forall good (opt_str _ _) => apply good_opt_str; [const_clean|]
  | |- good (str _ _) => apply good_str; [const_clean|try const_clean]
  | |- good (num _ _) => apply good_num; [const_clean|]
  | |- good (with_name _ _) => apply good_named; [const_clean|]
  end.

(** ** Fields *)

(** The numbers that reach the decoder as they were sent: [valueint] is an
    [int]. *)
Definition int_range (z : Z) : Prop := INT_MIN ≤ z ≤ INT_MAX.
Definition id_range (z : Z) : Prop := 0 ≤ z ≤ INT_MAX.

Lemma int_exact z : int_range z → exact z.
Proof. unfold int_range, exact, INT_MIN, INT_MAX. lia. Qed.
Lemma id_int z : id_range z → int_range z.
Proof. unfold id_range, int_range, INT_MIN, INT_MAX. lia. Qed.
Lemma id_exact z : id_range z → exact z.
Proof. intros H. by apply int_exact, id_int. Qed.
#[export] Hint Resolve int_exact id_int id_exact : oes.

Lemma valueint_num k z : int_range z → valueint (parsed (num k z)) = z.
Proof.
  intros H. cbn [parsed num valueint type]. rewrite decide_False by done.
  rewrite of_int_exact by auto with oes. rewrite to_int_fin. unfold int_range in H.
  destruct (Z.leb_spec INT_MIN z), (Z.leb_spec z INT_MAX); try lia. done.
Qed.

Lemma u64_id z : id_range z → u64 z = z.
Proof. intros H. apply wrapu_id. unfold in_u, id_range, INT_MAX in *. cbn. lia. Qed.

Lemma number_field_some {A} root key rc (set : A → Z → A) a z k :
  cJSON_GetObjectItem root key = parsed <$> Some (num k z) → int_range z →
  number_field root key rc set a = ok (set a z).
Proof. intros E Hz. unfold number_field. rewrite E. cbn [fmap option_fmap option_map]. by rewrite valueint_num. Qed.

Lemma number_field_opt {A} root key rc (set : A → Z → A) a z k :
  cJSON_GetObjectItem root key = parsed <$> (if z =? 0 then None else Some (num k z)) →
  int_range z → set a 0 = a → number_field root key rc set a = ok (set a z).
Proof.
  intros E Hz H0. destruct (Z.eqb_spec z 0) as [->|].
  - unfold number_field. rewrite E, H0. done.
  - by eapply number_field_some.
Qed.

Lemma number_field_none {A} root key rc (set : A → Z → A) a :
  cJSON_GetObjectItem root key = parsed <$> None → number_field root key rc set a = ok a.
Proof. intros E. unfold number_field. by rewrite E. Qed.

Lemma string_field_some {A} root key rc (set : A → string → A) a s k :
  cJSON_GetObjectItem root key = parsed <$> Some (str k s) →
  string_field root key rc set a = ok (set a s).
Proof. intros E. unfold string_field. by rewrite E. Qed.

Lemma string_field_opt {A} root key rc (set : A → string → A) a s k :
  cJSON_GetObjectItem root key = parsed <$> (str k <$> s) →
  string_field root key rc set a = ok (match s with Some s => set a s | None => a end).
Proof. intros E. unfold string_field. rewrite E. by destruct s. Qed.

Lemma string_field_none {A} root key rc (set : A → string → A) a :
  cJSON_GetObjectItem root key = parsed <$> None → string_field root key rc set a = ok a.
Proof. intros E. unfold string_field. by rewrite E. Qed.

Lemma true_field_opt {A} root key (set : A → A) a (b : bool) k :
  cJSON_GetObjectItem root key = parsed <$> (if b then Some (tru k) else None) →
  true_field root key set a = if b then set a else a.
Proof. intros E. unfold true_field. rewrite E. by destruct b. Qed.

(** ** Encoding and decoding a message *)
Section Wire.
Variable pow10 : Z → double.
Hypothesis pow10_0 : pow10 0 = Fin 1 0.

(** [m] goes through the text: the encoder answers [rc], and the decoder
    answers [r] on its text. *)
Definition through (m : OekMsg) (rc : Z) (r : outcome OekMsg) : Prop :=
  ∃ text, json_msg_serialize m = Some (rc, Some text) ∧ nonul text ∧ framed text ∧
    ∀ rest, number_stop rest → json_msg_create pow10 (text ++ rest) = r.

Lemma through_reply m rc l :
  json_msg_serialize m = reply rc (obj l) → Forall good l →
  through m rc (typed_create (parsed (obj l))).
Proof.
  intros E Hl.
  destruct (print_parse pow10 (obj l) true pow10_0 (rendered_obj l Hl) eq_refl) as (text & Ht & Hn & Hp).
  exists text. split; [rewrite E; unfold reply, _get_json_string, cJSON_Print; by rewrite Ht|].
  split; [done|]. split; [by eapply print_framed; [apply rendered_obj|..]; [done| |done]|].
  intros rest Hrest. unfold json_msg_create. by rewrite (Hp rest Hrest).
Qed.

Lemma typed_command l n rest :
  l = str OEJSON_TYPE OEJSON_COMMAND :: str OEJSON_NAME n :: rest →
  typed_create (parsed (obj l)) = _command_create (parsed (obj l)).
Proof. intros ->. unfold typed_create. rewrite get_item_obj. members. done. Qed.

Lemma typed_response l n rest :
  l = str OEJSON_TYPE OEJSON_RESPONSE :: str OEJSON_NAME n :: rest →
  typed_create (parsed (obj l)) = _response_create (parsed (obj l)).
Proof. intros ->. unfold typed_create. rewrite get_item_obj. members. done. Qed.

End Wire.

(** Decide which decoder the type and the name of a tree select. *)
Ltac pick_decoder :=
  unfold typed_create; rewrite get_item_obj; members;
  cbn [fmap option_fmap option_map parsed str valuestring];
  repeat first [rewrite decide_True by done | rewrite decide_False by done];
  unfold _command_create, _response_create; rewrite ?get_item_obj; members;
  cbn [fmap option_fmap option_map parsed str valuestring];
  repeat first [rewrite decide_True by done | rewrite decide_False by done];
  unfold create_with; cbn [mbind option_bind OekMsg_new OekMsg_settype mtype cor_id txn_id valid data].

(** Read one field of a tree of members. *)
Ltac read_field :=
  first
    [ erewrite number_field_opt; [|rewrite get_item_obj; members; reflexivity|by auto with oes|done]
    | erewrite number_field_some; [|rewrite get_item_obj; members; reflexivity|by auto with oes]
    | erewrite string_field_opt; [|rewrite get_item_obj; members; reflexivity]
    | erewrite string_field_some; [|rewrite get_item_obj; members; reflexivity]
    | rewrite number_field_none by (rewrite get_item_obj; members; reflexivity)
    | rewrite string_field_none by (rewrite get_item_obj; members; reflexivity) ];
  cbn [obind ok].

(** Build the tree of an encoder applied to a message of its type. *)
Ltac build_tree :=
  repeat first [ progress cbn [mbind option_bind] | progress autorewrite with json ].

Definition status_text (s : option ascii) : option string :=
  c ← s; if uchar_z c =? 0 then None else Some (String c EmptyString).

Lemma add_status_obj l s : add_status (obj l) s = Some (obj (l ++ opt_str OEJSON_STATUS (status_text s))).
Proof.
  destruct s as [c|]; cbn; [|by rewrite app_nil_r]. destruct (uchar_z c =? 0); [by rewrite app_nil_r|done].
Qed.
#[export] Hint Rewrite add_status_obj : json.

Lemma add_message_obj l m :
  (match m with None => Some (obj l) | Some m => cJSON_AddStringToObject (obj l) OEJSON_MESSAGE (Some m) end) =
    Some (obj (l ++ opt_str OEJSON_MESSAGE m)).
Proof. destruct m; [done|]. cbn. by rewrite app_nil_r. Qed.

(** ** Attributes and bytes on the wire *)

Definition arr (l : list cJSON) : cJSON := Item cJSON_Array None 0 (Fin 0 0) None l.
Definition elem (s : string) : cJSON := Item cJSON_String (Some s) 0 (Fin 0 0) None [].
Fixpoint pairs (l : list string) : list cJSON :=
  match l with
  | k :: v :: l => str k v :: pairs l
  | _ => []
  end.
Fixpoint evens (l : list string) : bool :=
  match l with
  | [] => true
  | [_] => false
  | _ :: _ :: l => evens l
  end.
Definition values_tree (tuple : bool) (l : list string) : cJSON :=
  if tuple then arr (map elem l) else obj (pairs l).

(** Attributes that reach the other side: a map's are pairs. *)
Definition sendable_attrs (tuple : bool) (l : list string) : Prop :=
  Forall clean l ∧ (tuple = false → evens l = true).

Lemma values_array_arr l : ∀ l0, values_array (arr l0) l = Some (arr (l0 ++ map elem l)).
Proof.
  induction l as [|k l IH]; intros l0; cbn [values_array map]; [by rewrite app_nil_r|].
  change (cJSON_CreateString (Some k)) with (Some (elem k)). cbn [mbind option_bind].
  change (cJSON_AddItemToArray (arr l0) (elem k)) with (arr (l0 ++ [elem k])).
  rewrite IH. by rewrite <-app_assoc.
Qed.

(** Induction on lists of pairs *)
Lemma values_object_obj l : ∀ l0, evens l = true → values_object (obj l0) l = Some (obj (l0 ++ pairs l)).
Proof.
  induction l as [| |k v l IH] using pairs_ind; intros l0 He; [by rewrite app_nil_r|done|].
  cbn [values_object pairs].
  change (cJSON_CreateString (Some v)) with (Some (elem v)). cbn [mbind option_bind].
  change (cJSON_AddItemToObject (obj l0) (Some k) (elem v)) with (Some (obj (l0 ++ [str k v]))).
  cbn [mbind option_bind]. rewrite IH by done. by rewrite <-app_assoc.
Qed.

Lemma values_of_tree tuple d :
  object_wf d → (tuple = false → evens (strings d) = true) →
  values_of tuple d = Some (values_tree tuple (strings d)).
Proof.
  intros Hd He. unfold values_of, attrs_of. rewrite drain_object by (done || lia).
  cbn [mbind option_bind]. destruct tuple; [apply (values_array_arr _ [])|].
  by apply (values_object_obj _ []), He.
Qed.

Lemma rendered_values tuple l : sendable_attrs tuple l → rendered (values_tree tuple l).
Proof.
  intros [Hl He]. destruct tuple; cbn [values_tree].
  - apply R_array; rewrite List.Forall_map; [|by apply list.Forall_true].
    eapply list.Forall_impl; [exact Hl|]. intros s. apply R_string.
  - apply rendered_obj. specialize (He eq_refl). clear He.
    induction l as [| |k v l IH] using pairs_ind; cbn [pairs]; [constructor..|].
    apply Forall_cons_1 in Hl as [Hk Hl]. apply Forall_cons_1 in Hl as [Hv Hl].
    constructor; [by apply good_str|by apply IH].
Qed.

(** Attributes added one by one *)
Lemma add_attrs l : ∀ d, array_cache d = None →
  foldl DataObject_add_attr d l =
    mkDataObject (strings d ++ l) (nbytes d) (bytes d) None (always_cpy d).
Proof.
  induction l as [|v l IH]; intros [st n b c a] Hc; cbn [foldl array_cache] in *.
  - subst c. by rewrite app_nil_r.
  - rewrite IH by done. unfold DataObject_add_attr. cbn [strings nbytes bytes always_cpy].
    rewrite (AList.append_app st). cbn [Oec_AList_list]. by rewrite <-app_assoc.
Qed.

Lemma add_members_elem l : ∀ d, add_members d (map parsed (map elem l)) = ok (foldl DataObject_add_attr d l).
Proof. induction l as [|v l IH]; intros d; [done|]. cbn [map add_members]. apply IH. Qed.

Lemma add_strings_elem l : ∀ d, add_strings d (map parsed (map elem l)) = ok (foldl DataObject_add_attr d l).
Proof. induction l as [|v l IH]; intros d; [done|]. cbn [map add_strings]. apply IH. Qed.

Lemma add_pairs_pairs l : ∀ d, evens l = true →
  add_pairs d (map parsed (pairs l)) = ok (foldl DataObject_add_attr d l).
Proof.
  induction l as [| |k v l IH] using pairs_ind; intros d He; [done|done|].
  cbn [pairs map add_pairs]. by apply IH.
Qed.

(** *** Bytes *)

Definition sendable_bytes (d : DataObject) : Prop :=
  match bytes d with
  | None => nbytes d = 0
  | Some b => nbytes d = Z.of_nat (length b) ∧ Forall is_byte b ∧ 0 < Z.of_nat (length b) ≤ 1610612733
  end.

Definition b64_text (d : DataObject) : option string := string_of_bytes ∘ rfc_encode <$> bytes d.

Lemma rfc_clean b : Forall is_byte b → Forall (λ c, 32 ≤ c < 128) (rfc_encode b).
Proof.
  intros Hb. unfold rfc_encode, pad. apply list.Forall_app. split.
  - rewrite list.Forall_fmap. eapply list.Forall_impl; [by apply sextets_range|]. intros v Hv. cbn.
    apply (upto_spec 64 (λ v, bool_decide (32 ≤ ch v < 128))) in Hv; [|by vm_compute].
    by apply bool_decide_eq_true in Hv.
  - apply list.Forall_forall. intros x Hx. apply list_elem_of_In, repeat_spec in Hx. subst. unfold CHARPAD. lia.
Qed.

Lemma clean_b64 b : Forall is_byte b →
  clean (string_of_bytes (rfc_encode b)) ∧ no_nul (string_of_bytes (rfc_encode b)) ∧
  bytes_of (string_of_bytes (rfc_encode b)) = rfc_encode b.
Proof.
  intros Hb. pose proof (rfc_clean b Hb) as Hc.
  assert (bytes_of (string_of_bytes (rfc_encode b)) = rfc_encode b) as E
    by (apply bytes_of_string; by apply rfc_encode_bytes).
  unfold clean, no_nul. rewrite E. split_and!; [|intros H0|done].
  - eapply list.Forall_impl; [exact Hc|]. intros c H. cbn in H. unfold clean_byte. lia.
  - rewrite list.Forall_forall in Hc. specialize (Hc 0 H0). cbn in Hc. lia.
Qed.

Lemma encode_bytes_spec d r1 r2 : sendable_bytes d → encode_bytes d r1 r2 = ok (b64_text d).
Proof.
  unfold sendable_bytes, encode_bytes, b64_text, DataObject_get_nbytes, DataObject_get_bytes.
  destruct (bytes d) as [b|]; [|by intros ->]. intros (-> & Hb & Hlen).
  rewrite wraps_id by (unfold in_s; cbn; lia).
  rewrite (proj2 (Z.eqb_neq _ 0)) by lia.
  assert (0 < modp_b64_encode_strlen (Z.of_nat (length b))) as Hpos
    by (unfold modp_b64_encode_strlen; rewrite Z.quot_div_nonneg; lia).
  assert (modp_b64_encode_len (Z.of_nat (length b)) = modp_b64_encode_strlen (Z.of_nat (length b)) + 1) as El by done.
  rewrite (proj2 (Z.leb_gt _ 0)) by lia. cbn [mbind option_bind].
  rewrite modp_b64_encode_spec; [|done|lia|unfold Arena_alloc; rewrite repeat_length; lia].
  cbn [mbind option_bind]. rewrite (proj2 (Z.leb_gt _ 0)) by lia.
  destruct (clean_b64 b Hb) as (_ & Hn & E). rewrite <-E at 1.
  by rewrite c_string_bytes.
Qed.

Section Messages.
Variable pow10 : Z → double.
Hypothesis pow10_0 : pow10 0 = Fin 1 0.

Lemma through_intro m rc l r :
  json_msg_serialize m = reply rc (obj l) → Forall good l → typed_create (parsed (obj l)) = r →
  through pow10 m rc r.
Proof. intros E Hl <-. by apply through_reply. Qed.

Definition sent_status (s : option ascii) : option ascii :=
  c ← s; if uchar_z c =? 0 then None else Some c.

Lemma sent_status_text s :
  status_text s = (λ c, String c EmptyString) <$> sent_status s.
Proof. destruct s as [c|]; [|done]. cbn. by destruct (uchar_z c =? 0). Qed.

Lemma upt_cmd_wire cid tid v c :
  id_range cid → id_range tid → int_range (upt_duration c) → int_range (upt_enlisted c) →
  (∀ x, status_text (upt_status c) = Some x → clean x) →
  through pow10 (mkOekMsg UPT_CMD cid tid v (D_upt_cmd c)) 0
    (ok (mkOekMsg UPT_CMD cid tid true
           (D_upt_cmd (mkUptCmd (upt_duration c) (upt_enlisted c) (sent_status (upt_status c)))))).
Proof.
  intros Hc Ht Hd He Hs. eapply through_intro.
  - cbn [json_msg_serialize OekMsg_get_type mtype]. unfold _upt_command_serialize.
    change (OekMsg_get_upt_cmd _) with (Some c). build_tree. reflexivity.
  - all_good; auto with oes.
  - pick_decoder. unfold _upt_command_create.
    change (OekMsg_get_upt_cmd _) with (Some UptCmd_new). cbn [mbind option_bind].
    do 5 read_field. rewrite sent_status_text. unfold set_cid, set_tid. cbn [OekMsg_get_cid OekMsg_get_tid cor_id txn_id].
    rewrite !u64_id by done. by destruct (sent_status (upt_status c)).
Qed.

Lemma upt_res_wire cid tid v r :
  id_range cid → (∀ x, status_text (Some (UptRes_get_status r)) = Some x → clean x) →
  through pow10 (mkOekMsg UPT_RES cid tid v (D_upt_res r)) 0
    (ok (mkOekMsg UPT_RES cid 0 true
           (D_upt_res (mkUptRes (sent_status (Some (UptRes_get_status r))))))).
Proof.
  intros Hc Hs. eapply through_intro.
  - cbn [json_msg_serialize OekMsg_get_type mtype]. unfold _upt_response_serialize.
    change (OekMsg_get_upt_res _) with (Some r). build_tree. reflexivity.
  - all_good; auto with oes.
  - pick_decoder. unfold _upt_response_create.
    change (OekMsg_get_upt_res _) with (Some UptRes_new). cbn [mbind option_bind].
    do 2 read_field. rewrite sent_status_text. unfold set_cid. cbn [OekMsg_get_cid cor_id].
    rewrite !u64_id by done. by destruct (sent_status _).
Qed.

Lemma sta_cmd_wire cid tid v c :
  id_range cid → int_range (sta_duration c) →
  through pow10 (mkOekMsg STA_CMD cid tid v (D_sta_cmd c)) 0
    (ok (mkOekMsg STA_CMD cid 0 true (D_sta_cmd (mkStaCmd (sta_duration c) false)))).
Proof.
  intros Hc Hd. eapply through_intro.
  - cbn [json_msg_serialize OekMsg_get_type mtype]. unfold _sta_command_serialize.
    change (OekMsg_get_sta_cmd _) with (Some c). build_tree. reflexivity.
  - all_good; auto with oes.
  - pick_decoder. unfold _sta_command_create.
    change (OekMsg_get_sta_cmd _) with (Some StaCmd_new). cbn [mbind option_bind].
    do 2 read_field. unfold set_cid. cbn [OekMsg_get_cid cor_id]. by rewrite u64_id.
Qed.

Lemma sta_res_wire cid tid v r :
  id_range cid → id_range tid →
  through pow10 (mkOekMsg STA_RES cid tid v (D_sta_res r)) (if tid =? 0 then -1 else 0)
    (ok (mkOekMsg STA_RES cid tid true (D_sta_res StaRes_new))).
Proof.
  intros Hc Ht. eapply through_intro.
  - cbn [json_msg_serialize OekMsg_get_type mtype]. unfold _sta_response_serialize.
    change (OekMsg_get_sta_res _) with (Some r). build_tree. reflexivity.
  - all_good; auto with oes.
  - pick_decoder. unfold _sta_response_create.
    change (OekMsg_get_sta_res _) with (Some StaRes_new). cbn [mbind option_bind].
    do 2 read_field. unfold set_cid, set_tid. cbn [OekMsg_get_cid OekMsg_get_tid cor_id txn_id].
    by rewrite !u64_id.
Qed.

Lemma upl_cmd_wire cid tid v c :
  id_range cid → int_range (upl_duration c) → id_range (upl_lease_id c) →
  through pow10 (mkOekMsg UPL_CMD cid tid v (D_upl_cmd c)) 0
    (ok (mkOekMsg UPL_CMD cid 0 true (D_upl_cmd c))).
Proof.
  intros Hc Hd Hl. eapply through_intro.
  - cbn [json_msg_serialize OekMsg_get_type mtype]. unfold _upl_command_serialize.
    change (OekMsg_get_upl_cmd _) with (Some c). build_tree. reflexivity.
  - all_good; auto with oes.
  - pick_decoder. unfold _upl_command_create.
    change (OekMsg_get_upl_cmd _) with (Some UplCmd_new). cbn [mbind option_bind].
    do 3 read_field. unfold set_cid. cbn [OekMsg_get_cid cor_id]. rewrite !u64_id by done.
    by destruct c.
Qed.

Lemma upl_res_wire cid tid v r :
  id_range cid → int_range (upl_expiretime r) →
  through pow10 (mkOekMsg UPL_RES cid tid v (D_upl_res r)) 0
    (ok (mkOekMsg UPL_RES cid 0 true (D_upl_res r))).
Proof.
  intros Hc Hx. eapply through_intro.
  - cbn [json_msg_serialize OekMsg_get_type mtype]. unfold _upl_response_serialize.
    change (OekMsg_get_upl_res _) with (Some r). build_tree. reflexivity.
  - all_good; auto with oes.
  - pick_decoder. unfold _upl_response_create.
    change (OekMsg_get_upl_res _) with (Some UplRes_new). cbn [mbind option_bind].
    do 2 read_field. unfold set_cid. cbn [OekMsg_get_cid cor_id]. rewrite u64_id by done.
    by destruct r.
Qed.

Lemma put_res_wire cid tid v r :
  id_range cid → id_range (res_lease_id r) →
  through pow10 (mkOekMsg PUT_RES cid tid v (D_put_res r)) 0
    (ok (mkOekMsg PUT_RES cid 0 true (D_put_res r))).
Proof.
  intros Hc Hl. eapply through_intro.
  - cbn [json_msg_serialize OekMsg_get_type mtype]. unfold _put_response_serialize.
    change (OekMsg_get_put_res _) with (Some r). build_tree. reflexivity.
  - all_good; auto with oes.
  - pick_decoder. unfold _put_response_create.
    change (OekMsg_get_put_res _) with (Some PutRes_new). cbn [mbind option_bind].
    do 2 read_field. unfold set_cid. cbn [OekMsg_get_cid cor_id]. rewrite !u64_id by done.
    by destruct r.
Qed.

Lemma dis_cmd_wire cid tid v c :
  through pow10 (mkOekMsg DIS_CMD cid tid v (D_dis_cmd c)) 0
    (ok (mkOekMsg DIS_CMD 0 0 true (D_dis_cmd DisCmd_new))).
Proof.
  eapply through_intro.
  - cbn [json_msg_serialize OekMsg_get_type mtype]. unfold _dis_command_serialize.
    change (OekMsg_get_dis_cmd _) with (Some c). build_tree. reflexivity.
  - all_good; auto with oes.
  - pick_decoder. done.
Qed.

Lemma err_wire cid tid v e :
  id_range cid → id_range (err_type e) → (∀ x, emessage e = Some x → clean x) →
  through pow10 (mkOekMsg OEK_ERR cid tid v (D_err e)) 0
    (ok (mkOekMsg OEK_ERR 0 0 true (D_err e))).
Proof.
  intros Hc Ht Hm. eapply through_intro.
  - cbn [json_msg_serialize OekMsg_get_type mtype]. unfold _err_serialize.
    change (OekMsg_get_err _) with (Some e).
    change cJSON_CreateObject with (obj []). build_tree. rewrite add_message_obj. reflexivity.
  - all_good; auto with oes.
  - pick_decoder. unfold _error_create.
    change (OekMsg_new OEK_ERR) with (Some (mkOekMsg OEK_ERR 0 0 true (D_err OekErr_new))).
    cbn [mbind option_bind]. change (OekMsg_get_err _) with (Some OekErr_new). cbn [mbind option_bind].
    destruct e as [t [m|]]; cbn [err_type emessage] in *; do 2 read_field; by rewrite u64_id.
Qed.

(** *** Connections *)

Definition version_sendable (v : Z * Z * Z) : Prop := id_range v.1.1 ∧ id_range v.1.2 ∧ id_range v.2.

Lemma version_good v :
  version_sendable v →
  rendered (obj [num OEJSON_MAJ v.1.1; num OEJSON_MIN v.1.2; num OEJSON_SEQ v.2]).
Proof. intros (H1 & H2 & H3). apply rendered_obj. all_good; auto with oes. Qed.

Lemma get_item_named k n l :
  cJSON_GetObjectItem (parsed (with_name (Some n) (obj l))) k = parsed <$> member k l.
Proof. apply member_parsed. Qed.

(** A number of the version object *)
Ltac version_field :=
  erewrite number_field_some; [|rewrite get_item_named; members; reflexivity|by auto with oes];
  cbn [obind ok].

Definition con_sendable (c : ConCmd) : Prop :=
  version_sendable (con_version c) ∧
  ∃ e u p, con_extentname c = Some e ∧ con_username c = Some u ∧ con_password c = Some p ∧
    clean e ∧ clean u ∧ clean p.

Definition received_con (c : ConCmd) : ConCmd :=
  mkConCmd (con_version c) (con_extentname c) (con_username c) (con_password c)
    (if ConCmd_rollback_on_disconnect c then OE_ROLLBACK_ON_DISCONNECT else 0).

Lemma con_cmd_wire cid tid v c :
  id_range cid → con_sendable c →
  through pow10 (mkOekMsg CON_CMD cid tid v (D_con_cmd c)) 0
    (ok (mkOekMsg CON_CMD cid 0 true (D_con_cmd (received_con c)))).
Proof.
  intros Hc (Hv & e & u & p & He & Hu & Hp & Ce & Cu & Cp). unfold received_con. rewrite He, Hu, Hp.
  eapply through_intro.
  - cbn [json_msg_serialize OekMsg_get_type mtype]. unfold _con_command_serialize.
    change (OekMsg_get_con_cmd _) with (Some c). cbn [mbind option_bind]. rewrite He, Hu, Hp.
    build_tree. reflexivity.
  - all_good; try done; [|auto with oes]. by apply version_good.
  - pick_decoder. unfold _con_command_create. read_field.
    change (OekMsg_get_con_cmd _) with (Some ConCmd_new). cbn [mbind option_bind].
    rewrite get_item_obj. members. cbn [fmap option_fmap option_map].
    destruct Hv as (H1 & H2 & H3). do 3 version_field. do 3 read_field.
    rewrite get_item_obj. members. unfold set_cid. cbn [OekMsg_get_cid cor_id].
    rewrite !u64_id by done. destruct c as [[[? ?] ?] ? ? ? ?]. cbn [con_version fst snd].
    by destruct (ConCmd_rollback_on_disconnect _).
Qed.

Definition con_res_sendable (r : ConRes) : Prop := version_sendable (res_version r) ∧ id_range (session_id r).

Lemma con_res_wire cid tid v r :
  id_range cid → con_res_sendable r →
  through pow10 (mkOekMsg CON_RES cid tid v (D_con_res r)) 0
    (ok (mkOekMsg CON_RES cid 0 true (D_con_res (mkConRes (res_version r) None (session_id r))))).
Proof.
  intros Hc [Hv Hs]. eapply through_intro.
  - cbn [json_msg_serialize OekMsg_get_type mtype]. unfold _con_response_serialize.
    change (OekMsg_get_con_res _) with (Some r). build_tree. reflexivity.
  - all_good; try done; [auto with oes| |auto with oes]. by apply version_good.
  - pick_decoder. unfold _con_response_create. read_field.
    change (OekMsg_get_con_res _) with (Some ConRes_new). cbn [mbind option_bind].
    rewrite get_item_obj. members. cbn [fmap option_fmap option_map].
    rewrite decide_False by (intros H; by apply H).
    destruct Hv as (H1 & H2 & H3). do 3 version_field. do 2 read_field.
    unfold set_cid. cbn [OekMsg_get_cid cor_id]. rewrite !u64_id by done.
    by destruct r as [[[? ?] ?] ? ?].
Qed.

(** *** Put *)

(** A data object that reaches the other side, and what arrives *)
Definition data_sendable (tuple : bool) (d : DataObject) : Prop :=
  object_wf d ∧ sendable_attrs tuple (strings d) ∧ sendable_bytes d.
Definition received_data (d : DataObject) : DataObject :=
  mkDataObject (strings d) (nbytes d) (bytes d) None true.

(** What the decoder of a put makes of the bytes *)
Lemma decode_bytes b :
  Forall is_byte b → 0 < Z.of_nat (length b) →
  let s := string_of_bytes (rfc_encode b) in
  let len := modp_b64_decode_len (Z.of_nat (String.length s)) in
  0 < len ∧ ∃ out, modp_b64_decode (Arena_alloc len) (bytes_of s) (Z.of_nat (String.length s)) =
    Some (Z.of_nat (length b), out) ∧ take (length b) out = b.
Proof.
  intros Hb Hlen s len. destruct (clean_b64 b Hb) as (_ & _ & E). fold s in E.
  assert (String.length s = length (rfc_encode b)) as Es by (by rewrite <-bytes_of_length, E).
  assert (0 < len) as Hpos.
  { unfold len, modp_b64_decode_len. rewrite Z.quot_div_nonneg by lia. lia. }
  split; [done|]. rewrite E, Es.
  pose proof (modp_b64_decode_spec (rfc_encode b) [] (Arena_alloc len)) as HD.
  rewrite rfc_decode_encode, app_nil_r in HD by done.
  destruct HD as (r & _ & HD); [by apply rfc_encode_bytes| |].
  { unfold Arena_alloc. rewrite repeat_length, <-Es. unfold len in *. lia. }
  rewrite HD. eexists. split; [done|]. apply take_app_length.
Qed.

Definition fresh_data : DataObject := mkDataObject [] 0 None None true.

Lemma put_bytes_ok root d :
  cJSON_GetObjectItem root OEJSON_BYTES = parsed <$> (str OEJSON_BYTES <$> b64_text d) →
  sendable_bytes d →
  put_bytes_field root fresh_data = ok (mkDataObject [] (nbytes d) (bytes d) None true).
Proof.
  intros E Hb. unfold put_bytes_field. rewrite E. unfold b64_text, sendable_bytes in *.
  destruct (bytes d) as [b|]; cbn [fmap option_fmap option_map compose]; [|by rewrite Hb].
  destruct Hb as (-> & Hb & Hpos & Hmax).
  destruct (decode_bytes b Hb Hpos) as (Hlen & out & Hdec & Htake).
  cbn [parsed str type valuestring]. rewrite decide_True by done. cbn [mbind option_bind].
  rewrite (proj2 (Z.leb_gt _ 0)) by done. rewrite Hdec. cbn [mbind option_bind].
  rewrite (proj2 (Z.leb_gt _ 0)) by done. rewrite Nat2Z.id, Htake.
  unfold DataObject_set_nbytes, DataObject_set_bytes, fresh_data, c_assert.
  cbn [nbytes bytes strings array_cache always_cpy Z.eqb mbind option_bind].
  rewrite bool_decide_true by done. cbn [nbytes mbind option_bind].
  by rewrite (proj2 (Z.eqb_neq _ 0)) by lia.
Qed.

Lemma put_values_ok root tuple l cmd d :
  cJSON_GetObjectItem root OEJSON_VALUES =
    parsed <$> Some (with_name (Some OEJSON_VALUES) (values_tree tuple l)) →
  sendable_attrs tuple l → strings d = [] → array_cache d = None →
  put_values_field root cmd d =
    ok (if tuple then PutCmd_set_tuple cmd else cmd,
        mkDataObject l (nbytes d) (bytes d) None (always_cpy d)).
Proof.
  intros E [_ He] Hs Hcache. unfold put_values_field. rewrite E. cbn [fmap option_fmap option_map].
  destruct tuple; cbn [values_tree arr obj with_name parsed type child].
  - rewrite decide_True by done. rewrite add_members_elem, add_attrs by done. by rewrite Hs.
  - rewrite decide_False, decide_True by done.
    rewrite add_pairs_pairs, add_attrs by auto. by rewrite Hs.
Qed.

Lemma put_cmd_wire cid tid v c :
  id_range cid → id_range tid → int_range (put_duration c) →
  data_sendable (put_is_tuple c) (PutCmd_get_data c) →
  through pow10 (mkOekMsg PUT_CMD cid tid v (D_put_cmd c)) 0
    (ok (mkOekMsg PUT_CMD cid tid true
      (D_put_cmd (mkPutCmd (put_duration c) (put_is_tuple c)
                    (Some (received_data (PutCmd_get_data c))))))).
Proof.
  intros Hc Ht Hdur (Hwf & Ha & Hb). set (d := PutCmd_get_data c) in *. eapply through_intro.
  - cbn [json_msg_serialize OekMsg_get_type mtype]. unfold _put_command_serialize.
    change (OekMsg_get_put_cmd _) with (Some c). build_tree. fold d.
    rewrite encode_bytes_spec by done. cbn [ok]. build_tree.
    rewrite values_of_tree by (done || apply Ha). build_tree. reflexivity.
  - all_good; auto with oes; [|by apply rendered_values].
    unfold b64_text. intros x. destruct (bytes d) as [b|] eqn:Eb; [|done]. intros [= <-].
    unfold sendable_bytes in Hb. rewrite Eb in Hb. by apply clean_b64, Hb.
  - pick_decoder. unfold _put_command_create.
    change (OekMsg_get_put_cmd _) with (Some PutCmd_new). cbn [mbind option_bind].
    do 3 read_field. change (DataObject_set_always_copy _ true) with fresh_data.
    rewrite (put_bytes_ok _ d); [|rewrite get_item_obj; members; done|done]. cbn [obind ok].
    rewrite (put_values_ok _ (put_is_tuple c) (strings d));
      [|rewrite get_item_obj; members; done|done|done|done].
    unfold set_cid, set_tid. cbn [OekMsg_get_cid OekMsg_get_tid cor_id txn_id obind ok].
    rewrite !u64_id by done. by destruct (put_is_tuple c).
Qed.

(** *** Get *)

(** The options of a get, as the decoder sets them *)
Definition flags_of (tuple join ifexists remove attrs bytes_ : bool) : Z :=
  let set (b : bool) f x := if b then OEC_FLAG_SET x f else x in
  set bytes_ OE_GET_CMD_RET_BYTES
    (set attrs OE_GET_CMD_RET_ATTRS
       (set remove OE_GET_CMD_DESTROY
          (set ifexists OE_GET_CMD_IFEXISTS
             (set join OE_GET_CMD_JOIN (set tuple OE_GET_CMD_TUPLE 0))))).

Definition template_sendable (tuple : bool) (d : DataObject) : Prop :=
  object_wf d ∧ sendable_attrs tuple (strings d) ∧ (tuple = true → strings d ≠ []).
Definition sent_template (d : DataObject) : DataObject := mkDataObject (strings d) 0 None None true.

Lemma keylist_strings d :
  mapM id (take (Z.to_nat (DataObject_get_nattrs d)) (DataObject_toArray d)) = Some (strings d).
Proof.
  unfold DataObject_get_nattrs, DataObject_toArray, Oec_AList_toArray. rewrite AList.length_spec.
  rewrite Nat2Z.id, take_app_length_eq by (by rewrite length_fmap).
  induction (strings d) as [|s l IH]; [done|]. cbn in *. by rewrite IH.
Qed.

Lemma templates_array_arr tuple ds : ∀ l0,
  Forall (template_sendable tuple) ds →
  templates_array tuple (arr l0) ds = Some (arr (l0 ++ map (λ d, values_tree tuple (strings d)) ds)).
Proof.
  induction ds as [|d ds IH]; intros l0 Hds; [cbn; by rewrite app_nil_r|].
  apply Forall_cons_1 in Hds as [(Hwf & [_ He] & _) Hds]. cbn [templates_array map].
  assert ((if tuple then
      keylist ← mapM id (take (Z.to_nat (DataObject_get_nattrs d)) (DataObject_toArray d));
      values_array cJSON_CreateArray keylist
    else values_of false d) = Some (values_tree tuple (strings d))) as ->.
  { destruct tuple; [|by apply (values_of_tree false)].
    rewrite keylist_strings. apply (values_array_arr _ []). }
  cbn [mbind option_bind].
  change (cJSON_AddItemToArray (arr l0) ?x) with (arr (l0 ++ [x])).
  rewrite IH by done. by rewrite <-app_assoc.
Qed.

Lemma rendered_templates tuple ds :
  Forall (template_sendable tuple) ds → rendered (arr (map (λ d, values_tree tuple (strings d)) ds)).
Proof.
  intros H. apply R_array; rewrite List.Forall_map; (eapply list.Forall_impl; [exact H|]).
  - intros d (_ & Ha & _). by apply rendered_values.
  - intros d _. by destruct tuple.
Qed.

(** A template's step of the decoder *)
Definition add_one (tuple : bool) (c : GetCmd) (d : DataObject) : GetCmd :=
  mkGetCmd (get_timeout c) (get_max_responses c)
    (if tuple then OEC_FLAG_SET (get_flags c) OE_GET_CMD_TUPLE else get_flags c)
    (Some (_get_value_lists c ++ [sent_template d])).

Lemma set_last_added c f d :
  set_last_object (get_with_flags (GetCmd_new_data_object c).1 f) d =
    mkGetCmd (get_timeout c) (get_max_responses c) f (Some (_get_value_lists c ++ [d])).
Proof.
  unfold GetCmd_new_data_object, DataObjectList_new_data_object.
  destruct (list_add_spec (_get_value_lists c) DataObject_new) as [E _]. rewrite E.
  unfold set_last_object. cbn [fst get_with_flags get_timeout get_max_responses get_flags get_value_lists _get_value_lists].
  rewrite length_app. cbn [length]. rewrite Nat.add_sub, take_app_length. done.
Qed.

Lemma add_templates_fold tuple ds : ∀ c,
  Forall (template_sendable tuple) ds →
  add_templates c (map parsed (map (λ d, values_tree tuple (strings d)) ds)) = ok (foldl (add_one tuple) c ds).
Proof.
  induction ds as [|d ds IH]; intros c Hds; [done|].
  apply Forall_cons_1 in Hds as [(Hwf & [_ He] & Hne) Hds]. cbn [map add_templates foldl].
  rewrite <-(IH (add_one tuple c d) Hds).
  destruct (GetCmd_new_data_object c) as [c' t] eqn:Ec.
  assert (t = DataObject_new) as -> by (by injection Ec).
  change (DataObject_set_always_copy DataObject_new true) with fresh_data.
  assert (c' = (GetCmd_new_data_object c).1) as -> by (by rewrite Ec).
  destruct tuple; cbn [values_tree arr obj parsed type child].
  - rewrite decide_True by done. unfold cJSON_GetArraySize. cbn [child].
    destruct (strings d) as [|k l] eqn:Es; [by destruct (Hne eq_refl)|].
    rewrite (proj2 (Z.leb_gt _ 0)) by (cbn [map length]; lia).
    rewrite <-Es, add_members_elem, add_attrs by done. cbn [obind ok].
    unfold GetCmd_set_tuple. rewrite set_last_added. done.
  - rewrite decide_False, decide_True by done.
    rewrite add_pairs_pairs, add_attrs by auto. cbn [obind ok].
    change (set_last_object (GetCmd_new_data_object c).1 ?d)
      with (set_last_object (get_with_flags (GetCmd_new_data_object c).1 (get_flags c)) d).
    by rewrite set_last_added.
Qed.

Lemma fold_add_one tuple ds : ∀ c, ds ≠ [] →
  foldl (add_one tuple) c ds =
    mkGetCmd (get_timeout c) (get_max_responses c)
      (if tuple then OEC_FLAG_SET (get_flags c) OE_GET_CMD_TUPLE else get_flags c)
      (Some (_get_value_lists c ++ map sent_template ds)).
Proof.
  induction ds as [|d ds IH]; intros c Hne; [done|]. cbn [foldl map].
  destruct ds as [|d' ds]; [done|]. rewrite IH by done.
  unfold add_one. cbn [get_timeout get_max_responses get_flags _get_value_lists get_value_lists].
  rewrite <-app_assoc. f_equal. destruct tuple; [|done].
  unfold OEC_FLAG_SET. by rewrite <-Z.lor_assoc, Z.lor_diag.
Qed.

Definition get_sendable (c : GetCmd) : Prop :=
  int_range (get_timeout c) ∧ id_range (get_max_responses c) ∧
  _get_value_lists c ≠ [] ∧ Forall (template_sendable (GetCmd_is_tuple c)) (_get_value_lists c).

(** What arrives: no limit is a limit of one, except in a join, which has
    none; a join of one template is not a join. *)
Definition received_get (c : GetCmd) : GetCmd :=
  mkGetCmd (get_timeout c)
    (if GetCmd_get_join c then 0 else if get_max_responses c =? 0 then 1 else get_max_responses c)
    (flags_of (GetCmd_is_tuple c) (GetCmd_get_join c) (GetCmd_ifexists c) (GetCmd_remove c)
       (GetCmd_return_attrs c) (GetCmd_return_bytes c))
    (Some (map sent_template (_get_value_lists c))).

Lemma max_field_ok root t n :
  cJSON_GetObjectItem root OEJSON_MAXRESULTS =
    parsed <$> (if n =? 0 then None else Some (num OEJSON_MAXRESULTS n)) → id_range n →
  max_field root (mkGetCmd t 0 0 None) = ok (mkGetCmd t (if n =? 0 then 1 else n) 0 None).
Proof.
  intros E Hn. unfold max_field. rewrite E. destruct (n =? 0); [done|].
  cbn [fmap option_fmap option_map]. rewrite decide_True by done.
  rewrite valueint_num by auto with oes. rewrite u64_id by done.
  unfold GetCmd_set_max_responses. by destruct (n =? 0).
Qed.

Lemma templates_field_ok root tuple ds c :
  cJSON_GetObjectItem root OEJSON_TEMPLATES =
    parsed <$> Some (with_name (Some OEJSON_TEMPLATES) (arr (map (λ d, values_tree tuple (strings d)) ds))) →
  ds ≠ [] → Forall (template_sendable tuple) ds → get_value_lists c = None →
  templates_field root c =
    ok (mkGetCmd (get_timeout c) (get_max_responses c)
      (if tuple then OEC_FLAG_SET (get_flags c) OE_GET_CMD_TUPLE else get_flags c)
      (Some (map sent_template ds))).
Proof.
  intros E Hne Hds Hn. unfold templates_field. rewrite E. cbn [fmap option_fmap option_map].
  rewrite decide_True by done. unfold cJSON_GetArraySize. cbn [parsed arr with_name child type].
  rewrite (proj2 (Z.leb_gt _ 0)) by (rewrite !length_map; destruct ds; [done|cbn; lia]).
  rewrite add_templates_fold, fold_add_one by done. unfold _get_value_lists. by rewrite Hn.
Qed.

(** One of the options of a get *)
Ltac flag_field := erewrite true_field_opt; [|rewrite get_item_obj; members; reflexivity].

Lemma get_cmd_wire cid tid v c :
  id_range cid → id_range tid → get_sendable c →
  through pow10 (mkOekMsg GET_CMD cid tid v (D_get_cmd c)) 0
    (ok (mkOekMsg GET_CMD cid tid true (D_get_cmd (received_get c)))).
Proof.
  intros Hc Ht (Htm & Hmax & Hne & Hds).
  assert (i32 (get_timeout c) = get_timeout c) as Etm
    by (apply wraps_id; [lia|unfold in_s, int_range, INT_MIN, INT_MAX in *; cbn; lia]).
  assert (i32 (get_max_responses c) = get_max_responses c) as Emax
    by (apply wraps_id; [lia|unfold in_s, id_range, INT_MAX in *; cbn; lia]).
  eapply through_intro.
  - cbn [json_msg_serialize OekMsg_get_type mtype]. unfold _get_command_serialize.
    change (OekMsg_get_get_cmd _) with (Some c). build_tree. rewrite Etm, Emax.
    unfold GetCmd_get_data_objects, DataObjectList_iterator.
    rewrite drain_array by lia. cbn [mbind option_bind].
    change cJSON_CreateArray with (arr []). rewrite templates_array_arr by done.
    build_tree. reflexivity.
  - all_good; auto with oes. by apply rendered_templates.
  - pick_decoder. unfold _get_command_create.
    change (OekMsg_get_get_cmd _) with (Some GetCmd_new). cbn [mbind option_bind].
    do 3 read_field.
    change (GetCmd_set_timeout GetCmd_new (get_timeout c)) with (mkGetCmd (get_timeout c) 0 0 None).
    rewrite (max_field_ok _ _ (get_max_responses c)); [|rewrite get_item_obj; members; done|done].
    cbn [obind ok].
    rewrite (templates_field_ok _ (GetCmd_is_tuple c) (_get_value_lists c));
      [|rewrite get_item_obj; members; done|done|done|done].
    cbn [obind ok app map get_timeout get_max_responses get_flags]. do 5 flag_field.
    unfold set_cid, set_tid. cbn [OekMsg_get_cid OekMsg_get_tid cor_id txn_id].
    rewrite !u64_id by done. unfold received_get.
    by destruct (GetCmd_get_join c), (GetCmd_ifexists c), (GetCmd_remove c), (GetCmd_return_attrs c),
      (GetCmd_return_bytes c), (GetCmd_is_tuple c).
Qed.

(** *** The answer to a get *)

Definition get_res_sendable (r : GetRes) : Prop :=
  id_range (nresults r) ∧
  (GetRes_return_attrs r = true →
     object_wf (GetRes_get_data r) ∧ sendable_attrs (GetRes_is_tuple r) (strings (GetRes_get_data r)) ∧
     Z.of_nat (length (strings (GetRes_get_data r))) ≤ INT_MAX) ∧
  (GetRes_return_bytes r = true → sendable_bytes (GetRes_get_data r)).

(** The attributes and the bytes that are sent *)
Definition sent_attrs (r : GetRes) : list string :=
  if GetRes_return_attrs r then strings (GetRes_get_data r) else [].
Definition sent_b64 (r : GetRes) : option string :=
  if GetRes_return_bytes r then b64_text (GetRes_get_data r) else None.

(** What arrives: the bytes are the base64 text, and neither the transaction
    nor the mark of a destroyed item is there. *)
Definition received_res (r : GetRes) : GetRes :=
  mkGetRes (nresults r) (if GetRes_is_tuple r && negb (bool_decide (sent_attrs r = [])) then TUPLE else 0)
    (Some (mkDataObject (sent_attrs r)
             (match sent_b64 r with Some s => Z.of_nat (String.length s) | None => 0 end)
             (bytes_of <$> sent_b64 r) None true)).

Definition opt_values (tuple : bool) (l : list string) : list cJSON :=
  if bool_decide (l = []) then [] else [with_name (Some OEJSON_VALUES) (values_tree tuple l)].

Lemma member_opt_values k tuple l :
  member k (opt_values tuple l) =
    if same_key OEJSON_VALUES k then
      if bool_decide (l = []) then None else Some (with_name (Some OEJSON_VALUES) (values_tree tuple l))
    else None.
Proof.
  unfold opt_values. destruct (bool_decide _); [by destruct (same_key _ _)|]. by rewrite member_named.
Qed.
Hint Rewrite member_opt_values : members.

Lemma sent_b64_clean r x : get_res_sendable r → sent_b64 r = Some x → clean x ∧ x ≠ EmptyString.
Proof.
  intros (_ & _ & Hb). unfold sent_b64. destruct (GetRes_return_bytes r); [|done].
  specialize (Hb eq_refl). unfold b64_text, sendable_bytes in *.
  destruct (bytes _) as [b|]; [|done]. intros [= <-]. destruct Hb as (_ & Hb & Hlen & _).
  split; [by apply clean_b64|]. intros E0. destruct (clean_b64 b Hb) as (_ & _ & E).
  rewrite E0 in E. destruct b as [|a [|? [|]]]; try done.
Qed.

Lemma res_bytes_ok root t l :
  cJSON_GetObjectItem root OEJSON_BYTES = parsed <$> (str OEJSON_BYTES <$> t) →
  (∀ x, t = Some x → x ≠ EmptyString) →
  res_bytes_field root (mkDataObject l 0 None None true) =
    ok (mkDataObject l (match t with Some s => Z.of_nat (String.length s) | None => 0 end)
          (bytes_of <$> t) None true).
Proof.
  intros E Hne. unfold res_bytes_field. rewrite E. destruct t as [s|]; [|done].
  cbn [fmap option_fmap option_map parsed str type valuestring]. rewrite decide_True by done.
  assert (Z.of_nat (String.length s) ≠ 0) by (specialize (Hne s eq_refl); destruct s; [done|cbn; lia]).
  unfold DataObject_set_nbytes, DataObject_set_bytes, c_assert.
  cbn [nbytes bytes strings array_cache always_cpy Z.eqb mbind option_bind].
  rewrite bool_decide_true by done. cbn [nbytes mbind option_bind].
  by rewrite (proj2 (Z.eqb_neq _ 0)) by lia.
Qed.

Lemma res_values_ok root tuple l res :
  cJSON_GetObjectItem root OEJSON_VALUES =
    parsed <$> (if bool_decide (l = []) then None
                else Some (with_name (Some OEJSON_VALUES) (values_tree tuple l))) →
  (l ≠ [] → sendable_attrs tuple l) → res_flags res = 0 → res_data res = None →
  res_values_field root res fresh_data =
    ok (mkGetRes (nresults res) (if tuple && negb (bool_decide (l = [])) then TUPLE else 0) None,
        mkDataObject l 0 None None true).
Proof.
  intros E Hs Hf Hn. unfold res_values_field. rewrite E. destruct res as [n f d]. cbn in Hf, Hn. subst.
  case_bool_decide as Hl; [subst; by rewrite andb_false_r|].
  destruct (Hs Hl) as [_ He]. cbn [fmap option_fmap option_map].
  destruct tuple; cbn [values_tree arr obj with_name parsed type child].
  - rewrite decide_True by done. by rewrite add_strings_elem, add_attrs by done.
  - rewrite decide_False, decide_True by done. by rewrite add_pairs_pairs, add_attrs by auto.
Qed.

Lemma add_values_obj r l :
  get_res_sendable r →
  (if GetRes_return_attrs r && negb (i32 (DataObject_get_nattrs (GetRes_get_data r)) =? 0) then
     values ← values_of (GetRes_is_tuple r) (GetRes_get_data r);
     cJSON_AddItemToObject (obj l) (Some OEJSON_VALUES) values
   else Some (obj l)) = Some (obj (l ++ opt_values (GetRes_is_tuple r) (sent_attrs r))).
Proof.
  intros (_ & Ha & _). unfold sent_attrs, opt_values, DataObject_get_nattrs. rewrite AList.length_spec.
  destruct (GetRes_return_attrs r); cbn [andb]; [|by rewrite bool_decide_true, app_nil_r by done].
  destruct (Ha eq_refl) as (Hwf & Hs & Hlen).
  rewrite wraps_id by (unfold in_s, INT_MAX in *; cbn; lia).
  case_bool_decide as E; [rewrite E; cbn; by rewrite app_nil_r|].
  rewrite (proj2 (Z.eqb_neq _ 0)) by (destruct (strings _); [done|cbn; lia]). cbn [negb].
  rewrite values_of_tree by (done || apply Hs). done.
Qed.

Lemma get_res_wire cid tid v r :
  id_range cid → exact tid → get_res_sendable r →
  through pow10 (mkOekMsg GET_RES cid tid v (D_get_res r)) 0
    (ok (mkOekMsg GET_RES cid 0 true (D_get_res (received_res r)))).
Proof.
  intros Hc Ht Hr. pose proof Hr as (Hnr & Ha & Hb). eapply through_intro.
  - cbn [json_msg_serialize OekMsg_get_type mtype]. unfold _get_response_serialize.
    change (OekMsg_get_get_res _) with (Some r). build_tree.
    assert ((if GetRes_return_bytes r then encode_bytes (GetRes_get_data r) (-72) (-73) else ok None) =
      ok (sent_b64 r)) as ->.
    { unfold sent_b64. destruct (GetRes_return_bytes r); [|done]. by apply encode_bytes_spec, Hb. }
    cbn [ok]. build_tree.
    rewrite add_values_obj by done.
    cbn [mbind option_bind]. reflexivity.
  - all_good; auto with oes.
    + intros x Hx. by apply (sent_b64_clean r).
    + unfold opt_values, sent_attrs. case_bool_decide as E; [constructor|].
      constructor; [|constructor]. apply good_named; [const_clean|]. apply rendered_values.
      destruct (GetRes_return_attrs r); [|done]. by apply Ha.
  - pick_decoder. unfold _get_response_create.
    change (OekMsg_get_get_res _) with (Some GetRes_new). cbn [mbind option_bind].
    do 2 read_field. change (DataObject_set_always_copy _ true) with fresh_data.
    assert (∀ R a, cJSON_GetObjectItem R OEJSON_RETURN_BYTES = None →
      true_field R OEJSON_RETURN_BYTES GetRes_set_destroyed a = a) as Hnone
      by (intros R a E; unfold true_field; by rewrite E).
    rewrite Hnone by (rewrite get_item_obj; members; done).
    rewrite (res_values_ok _ (GetRes_is_tuple r) (sent_attrs r));
      [|rewrite get_item_obj; members; by destruct (bool_decide _)| |done|done].
    2: { unfold sent_attrs. destruct (GetRes_return_attrs r); [|done]. intros _. by apply Ha. }
    cbn [obind ok].
    rewrite (res_bytes_ok _ (sent_b64 r)); [|rewrite get_item_obj; members; done|].
    2: { intros x Hx. by apply (sent_b64_clean r). }
    unfold set_cid. cbn [OekMsg_get_cid cor_id obind ok]. by rewrite !u64_id.
Qed.

End Messages.

(** ** All messages *)

(** The messages the text carries: ids and numbers that fit an [int], clean
    strings, and the members the encoder takes for granted. *)
Definition sendable (m : OekMsg) : Prop :=
  id_range (cor_id m) ∧
  match data m with
  | D_none => False
  | D_con_cmd c => con_sendable c
  | D_con_res r => con_res_sendable r
  | D_put_cmd c =>
    id_range (txn_id m) ∧ int_range (put_duration c) ∧
    data_sendable (put_is_tuple c) (PutCmd_get_data c)
  | D_put_res r => id_range (res_lease_id r)
  | D_get_cmd c => id_range (txn_id m) ∧ get_sendable c
  | D_get_res r => exact (txn_id m) ∧ get_res_sendable r
  | D_sta_cmd c => int_range (sta_duration c)
  | D_sta_res _ => id_range (txn_id m) ∧ txn_id m ≠ 0
  | D_upl_cmd c => int_range (upl_duration c) ∧ id_range (upl_lease_id c)
  | D_upl_res r => int_range (upl_expiretime r)
  | D_upt_cmd c =>
    id_range (txn_id m) ∧ int_range (upt_duration c) ∧ int_range (upt_enlisted c) ∧
    (∀ x, status_text (upt_status c) = Some x → clean x)
  | D_upt_res r => ∀ x, status_text (Some (UptRes_get_status r)) = Some x → clean x
  | D_dis_cmd _ => True
  | D_err e => id_range (err_type e) ∧ (∀ x, emessage e = Some x → clean x)
  end.

(** What the other side has: the transaction only of the types that carry it,
    and nothing of a disconnect's and an error's correlation. *)
Definition received (m : OekMsg) : OekMsg :=
  match data m with
  | D_none => m
  | D_con_cmd c => mkOekMsg CON_CMD (cor_id m) 0 true (D_con_cmd (received_con c))
  | D_con_res r =>
    mkOekMsg CON_RES (cor_id m) 0 true (D_con_res (mkConRes (res_version r) None (session_id r)))
  | D_put_cmd c =>
    mkOekMsg PUT_CMD (cor_id m) (txn_id m) true
      (D_put_cmd (mkPutCmd (put_duration c) (put_is_tuple c) (Some (received_data (PutCmd_get_data c)))))
  | D_put_res r => mkOekMsg PUT_RES (cor_id m) 0 true (D_put_res r)
  | D_get_cmd c => mkOekMsg GET_CMD (cor_id m) (txn_id m) true (D_get_cmd (received_get c))
  | D_get_res r => mkOekMsg GET_RES (cor_id m) 0 true (D_get_res (received_res r))
  | D_sta_cmd c => mkOekMsg STA_CMD (cor_id m) 0 true (D_sta_cmd (mkStaCmd (sta_duration c) false))
  | D_sta_res _ => mkOekMsg STA_RES (cor_id m) (txn_id m) true (D_sta_res StaRes_new)
  | D_upl_cmd c => mkOekMsg UPL_CMD (cor_id m) 0 true (D_upl_cmd c)
  | D_upl_res r => mkOekMsg UPL_RES (cor_id m) 0 true (D_upl_res r)
  | D_upt_cmd c =>
    mkOekMsg UPT_CMD (cor_id m) (txn_id m) true
      (D_upt_cmd (mkUptCmd (upt_duration c) (upt_enlisted c) (sent_status (upt_status c))))
  | D_upt_res r =>
    mkOekMsg UPT_RES (cor_id m) 0 true (D_upt_res (mkUptRes (sent_status (Some (UptRes_get_status r)))))
  | D_dis_cmd _ => mkOekMsg DIS_CMD 0 0 true (D_dis_cmd DisCmd_new)
  | D_err e => mkOekMsg OEK_ERR 0 0 true (D_err e)
  end.

Lemma message_through (pow10 : Z → double) (m : OekMsg) :
  pow10 0 = Fin 1 0 → msg_wf m → sendable m → through pow10 m 0 (ok (received m)).
Proof.
  intros Hpow Hwf Hs. destruct m as [t cid tid v d]. unfold msg_wf in Hwf. cbn [mtype data] in Hwf. subst t.
  destruct Hs as [Hc Hs]. cbn [data cor_id txn_id] in *.
  destruct d; cbn [tag_of]; unfold received; cbn [data cor_id txn_id]; [done|..].
  - destruct Hs. by apply err_wire.
  - by apply dis_cmd_wire.
  - by apply con_cmd_wire.
  - by apply con_res_wire.
  - by apply sta_cmd_wire.
  - destruct Hs as [Ht H0]. pose proof (sta_res_wire pow10 Hpow cid tid v r Hc Ht) as H.
    by rewrite (proj2 (Z.eqb_neq tid 0)) in H.
  - destruct Hs as (H1 & H2 & H3 & H4). by apply upt_cmd_wire.
  - by apply upt_res_wire.
  - destruct Hs. by apply upl_cmd_wire.
  - by apply upl_res_wire.
  - destruct Hs as (H1 & H2 & H3). by apply put_cmd_wire.
  - by apply put_res_wire.
  - destruct Hs. by apply get_cmd_wire.
  - destruct Hs. by apply get_res_wire.
Qed.


Definition sample_put : OekMsg :=
  mkOekMsg PUT_CMD 7 3 true
    (D_put_cmd (mkPutCmd (-1) false (Some (mkDataObject ["k"; "v"] 3 (Some [0; 7; 255]) None true)))).

Lemma sample_put_sendable : sendable sample_put.
Proof.
  split; [done|]. cbn. split; [done|]. split; [done|]. split; [|split].
  - split; cbn; [done|]. by intros _.
  - split; [|done]. by apply (bool_decide_unpack (Forall clean ["k"; "v"])).
  - cbn. split; [done|]. split; [|done].
    repeat (apply Forall_cons; [done|]). constructor.
Qed.


(** ** What the decoder answers *)

(** A negative code, or a result that satisfies [P] *)
Definition answers {A} (P : A → Prop) (e : outcome A) : Prop :=
  match e with
  | None => True
  | Some (inl rc) => rc < 0
  | Some (inr a) => P a
  end.

Section Answers.
Context {A B : Type}.
Implicit Types (P : A → Prop) (Q : B → Prop).

Lemma answers_obind P Q e (k : A → outcome B) :
  answers P e → (∀ a, P a → answers Q (k a)) → answers Q (obind e k).
Proof. destruct e as [[rc|a]|]; cbn; auto. Qed.

Lemma answers_bind Q (o : option A) (k : A → outcome B) :
  (∀ a, answers Q (k a)) → answers Q (o ≫= k).
Proof. destruct o; cbn; auto. Qed.

Lemma answers_number P root key rc set a :
  rc < 0 → P a → (∀ v, P (set a v)) → answers P (number_field root key rc set a).
Proof. intros. unfold number_field. repeat case_match; cbn; auto. Qed.

Lemma answers_string P root key rc set a :
  rc < 0 → P a → (∀ v, P (set a v)) → answers P (string_field root key rc set a).
Proof.
  intros. unfold string_field. destruct (cJSON_GetObjectItem root key) as [n|]; [|done].
  case_decide; [|done]. destruct (valuestring n); cbn; auto.
Qed.
End Answers.

Definition any {A} (_ : A) : Prop := True.
(** A message of type [t] that [OekMsg_new] made *)
Definition of_type (t : OEK_MSG_TYPE) (m : OekMsg) : Prop := mtype m = t ∧ valid m = true.
Definition wf_of (t : OEK_MSG_TYPE) (m : OekMsg) : Prop := of_type t m ∧ msg_wf m.

Lemma answers_attr n rc : rc < 0 → answers any (attr_of n rc).
Proof.
  intros H. unfold attr_of. repeat case_decide; [|done..]. by destruct (valuestring n).
Qed.

Lemma answers_members l : ∀ d, answers any (add_members d l).
Proof.
  induction l as [|n l IH]; intros d; [done|]. cbn [add_members].
  apply (answers_obind any); [by apply answers_attr|auto].
Qed.
Lemma answers_pairs l : ∀ d, answers any (add_pairs d l).
Proof.
  induction l as [|n l IH]; intros d; [done|]. cbn [add_pairs]. apply answers_bind. intros k.
  apply (answers_obind any); [by apply answers_attr|auto].
Qed.
Lemma answers_strings l : ∀ d, answers any (add_strings d l).
Proof.
  induction l as [|n l IH]; intros d; [done|]. cbn [add_strings].
  case_decide; [done|]. apply answers_bind. auto.
Qed.

Create HintDb answers.
#[export] Hint Resolve answers_members answers_pairs answers_strings : answers.

(** Go through a decoder, field by field; [P] holds of what is being built. *)
Ltac answer P :=
  repeat first
    [ progress cbn beta iota zeta
    | match goal with
      | H : of_type _ ?m |- answers _ (obind (number_field _ _ _ _ ?m) _) =>
        apply (answers_obind (of_type P)); [apply answers_number; [lia|exact H|intros ?; exact H]|clear H; intros ? H]
      | |- answers _ (obind _ _) => apply (answers_obind any); [|intros ? _]
      | |- answers _ (mbind _ _) => apply answers_bind; intros ?
      | |- answers any (number_field _ _ _ _ _) => apply answers_number; [lia|done|done]
      | |- answers any (string_field _ _ _ _ _) => apply answers_string; [lia|done|done]
      | |- answers any (ok _) => done
      | |- answers _ (fail _) => cbn; lia
      end
    | solve [auto with answers]
    | match goal with |- answers _ _ => case_match end ].

Lemma answers_templates l : ∀ c, answers any (add_templates c l).
Proof.
  induction l as [|n l IH]; intros c; [done|]. cbn [add_templates].
  destruct (GetCmd_new_data_object c) as [c' d]. answer OEK_NON.
Qed.
#[export] Hint Resolve answers_templates : answers.

(** The body written back at the end has the message's type. *)
Lemma wf_of_set t m d : of_type t m → tag_of d = t → wf_of t (set_data m d).
Proof. intros [Ht Hv] Hd. split; [done|]. unfold msg_wf. cbn. congruence. Qed.

Ltac decoder P := answer P; cbn [answers ok]; apply wf_of_set; done.

Section Decoders.
Variables (msg : OekMsg) (root : cJSON).

Lemma con_command_answers : of_type CON_CMD msg → answers (wf_of CON_CMD) (_con_command_create msg root).
Proof. intros H. unfold _con_command_create. decoder CON_CMD. Qed.
Lemma put_command_answers : of_type PUT_CMD msg → answers (wf_of PUT_CMD) (_put_command_create msg root).
Proof.
  intros H. unfold _put_command_create, put_bytes_field, put_values_field. decoder PUT_CMD.
Qed.
Lemma get_command_answers : of_type GET_CMD msg → answers (wf_of GET_CMD) (_get_command_create msg root).
Proof. intros H. unfold _get_command_create, max_field, templates_field. decoder GET_CMD. Qed.
Lemma sta_command_answers : of_type STA_CMD msg → answers (wf_of STA_CMD) (_sta_command_create msg root).
Proof. intros H. unfold _sta_command_create. decoder STA_CMD. Qed.
Lemma upl_command_answers : of_type UPL_CMD msg → answers (wf_of UPL_CMD) (_upl_command_create msg root).
Proof. intros H. unfold _upl_command_create. decoder UPL_CMD. Qed.
Lemma upt_command_answers : of_type UPT_CMD msg → answers (wf_of UPT_CMD) (_upt_command_create msg root).
Proof. intros H. unfold _upt_command_create. decoder UPT_CMD. Qed.
Lemma con_response_answers : of_type CON_RES msg → answers (wf_of CON_RES) (_con_response_create msg root).
Proof. intros H. unfold _con_response_create. decoder CON_RES. Qed.
Lemma put_response_answers : of_type PUT_RES msg → answers (wf_of PUT_RES) (_put_response_create msg root).
Proof. intros H. unfold _put_response_create. decoder PUT_RES. Qed.
Lemma get_response_answers : of_type GET_RES msg → answers (wf_of GET_RES) (_get_response_create msg root).
Proof.
  intros H. unfold _get_response_create, res_values_field, res_bytes_field. decoder GET_RES.
Qed.
Lemma sta_response_answers : of_type STA_RES msg → answers (wf_of STA_RES) (_sta_response_create msg root).
Proof. intros H. unfold _sta_response_create. decoder STA_RES. Qed.
Lemma upl_response_answers : of_type UPL_RES msg → answers (wf_of UPL_RES) (_upl_response_create msg root).
Proof. intros H. unfold _upl_response_create. decoder UPL_RES. Qed.
Lemma upt_response_answers : of_type UPT_RES msg → answers (wf_of UPT_RES) (_upt_response_create msg root).
Proof. intros H. unfold _upt_response_create. decoder UPT_RES. Qed.
Lemma dis_command_answers : of_type DIS_CMD msg → answers (wf_of DIS_CMD) (_dis_command_create msg root).
Proof.
  intros H. unfold _dis_command_create, OekMsg_get_dis_cmd. rewrite (proj1 H).
  destruct (data msg) eqn:E; try done. split; [done|]. unfold msg_wf. by rewrite (proj1 H), E.
Qed.
End Decoders.

(** A message that was decoded: well formed, valid and of a type *)
Definition decoded (m : OekMsg) : Prop := msg_wf m ∧ valid m = true ∧ mtype m ≠ OEK_NON.

Lemma create_with_decoded t f root :
  t ≠ OEK_NON → (∀ m, of_type t m → answers (wf_of t) (f m root)) →
  answers decoded (create_with t f root).
Proof.
  intros Ht Hf. unfold create_with. destruct (msg_new_wf t) as (m & -> & Hwf & Hty & _ & _ & Hv).
  cbn [mbind option_bind]. specialize (Hf m ltac:(split; done)).
  destruct (f m root) as [[rc|m']|]; [exact Hf| |done].
  destruct Hf as [[Hm Hv'] Hw]. split_and!; [done|done|by rewrite Hm].
Qed.

Lemma typed_create_decoded root : answers decoded (typed_create root).
Proof.
  unfold typed_create. do 2 (case_match; [|cbn; lia]). repeat (case_decide; subst).
  - unfold _command_create. do 2 (case_match; [|cbn; lia]). repeat (case_decide; subst); [..|cbn; lia];
      apply create_with_decoded; try done; intros m Hm.
    + by apply con_command_answers.
    + by apply put_command_answers.
    + by apply get_command_answers.
    + by apply sta_command_answers.
    + by apply upl_command_answers.
    + by apply upt_command_answers.
    + by apply dis_command_answers.
  - unfold _response_create. do 2 (case_match; [|cbn; lia]). repeat (case_decide; subst); [..|cbn; lia];
      apply create_with_decoded; try done; intros m Hm.
    + by apply con_response_answers.
    + by apply put_response_answers.
    + by apply get_response_answers.
    + by apply sta_response_answers.
    + by apply upl_response_answers.
    + by apply upt_response_answers.
  - unfold _error_create. change (OekMsg_new OEK_ERR) with (Some (mkOekMsg OEK_ERR 0 0 true (D_err OekErr_new))).
    cbn [mbind option_bind]. answer OEK_ERR. done.
  - cbn. lia.
Qed.

(** A message that is returned is well formed. *)
Lemma json_create_wf (pow10 : Z → double) (text : list Z) :
  match json_msg_create pow10 text with
  | Some (inr m) => msg_wf m ∧ valid m = true ∧ mtype m ≠ OEK_NON
  | Some (inl rc) => rc < 0
  | None => True
  end.
Proof.
  unfold json_msg_create. destruct (cJSON_Parse pow10 text) as [[root|]|]; [|cbn; lia|done].
  exact (typed_create_decoded root).
Qed.

(** ** What the text does not carry *)

Lemma valueint_wide k z : exact z → INT_MAX < z → valueint (parsed (num k z)) = INT_MIN.
Proof.
  intros Hz H. cbn [parsed num valueint type]. rewrite decide_False by done.
  rewrite of_int_exact, to_int_fin by done. by rewrite (proj2 (Z.leb_gt z INT_MAX)), andb_false_r.
Qed.

(** The decoder takes ids from [valueint], an [int]: every transaction id
    above [INT_MAX] that a double holds exactly is received as the same id,
    2^64 - 2^31, so that two transactions are not told apart. *)
Theorem wide_ids_collapse (pow10 : Z → double) (cid tid : Z) (v : bool) (r : StaRes)
  (Hpow : pow10 0 = Fin 1 0) (Hc : id_range cid) (Ht : INT_MAX < tid) (Hx : tid < 2 ^ 53) :
  ∃ text, json_msg_serialize (mkOekMsg STA_RES cid tid v (D_sta_res r)) = Some (0, Some text) ∧
    json_msg_create pow10 text =
      ok (mkOekMsg STA_RES cid (2 ^ 64 - 2 ^ 31) true (D_sta_res StaRes_new)).
Proof.
  assert (exact tid) as Hex by (unfold exact, INT_MAX in *; lia).
  assert (tid ≠ 0) as H0 by (unfold INT_MAX in *; lia).
  assert (through pow10 (mkOekMsg STA_RES cid tid v (D_sta_res r)) (if tid =? 0 then -1 else 0)
    (ok (mkOekMsg STA_RES cid (2 ^ 64 - 2 ^ 31) true (D_sta_res StaRes_new)))) as (text & Ht1 & _ & _ & Ht2).
  { eapply (through_intro pow10 Hpow).
    - cbn [json_msg_serialize OekMsg_get_type mtype]. unfold _sta_response_serialize.
      change (OekMsg_get_sta_res _) with (Some r). build_tree. reflexivity.
    - all_good; auto with oes.
    - pick_decoder. unfold _sta_response_create.
      change (OekMsg_get_sta_res _) with (Some StaRes_new). cbn [mbind option_bind].
      unfold number_field at 1. rewrite get_item_obj. members. cbn [OekMsg_get_tid txn_id].
      rewrite (proj2 (Z.eqb_neq tid 0)) by done. cbn [fmap option_fmap option_map].
      rewrite decide_True by done. rewrite valueint_wide by done. cbn [obind ok].
      read_field. unfold set_cid. cbn [OekMsg_get_cid cor_id]. by rewrite u64_id. }
  specialize (Ht2 [] ltac:(done)). rewrite app_nil_r in Ht2.
  exists text. by rewrite (proj2 (Z.eqb_neq tid 0)) in Ht1 by done.
Qed.

Lemma wide_ids_collapse_witness :
  ∃ text, json_msg_serialize (mkOekMsg STA_RES 1 (2 ^ 40) true (D_sta_res StaRes_new)) = Some (0, Some text) ∧
    json_msg_create exact_pow10 text =
      ok (mkOekMsg STA_RES 1 (2 ^ 64 - 2 ^ 31) true (D_sta_res StaRes_new)).
Proof. by apply (wide_ids_collapse exact_pow10 1 (2 ^ 40) true StaRes_new). Defined.

(** The bytes of an item that a get returns arrive as their base64 text:
    the decoder of the response does not decode them, and it looks for the mark
    of a removed item under the key of the bytes, so the mark is lost. *)
Theorem get_response_encoded (pow10 : Z → double) (cid tid : Z) (v : bool) (r : GetRes) (b : list Z)
  (Hpow : pow10 0 = Fin 1 0) (Hc : id_range cid) (Ht : exact tid) (Hr : get_res_sendable r)
  (Hret : GetRes_return_bytes r = true) (Hb : bytes (GetRes_get_data r) = Some b) :
  ∃ text m' r', json_msg_serialize (mkOekMsg GET_RES cid tid v (D_get_res r)) = Some (0, Some text) ∧
    json_msg_create pow10 text = ok m' ∧ data m' = D_get_res r' ∧
    bytes (GetRes_get_data r') = Some (rfc_encode b) ∧ rfc_encode b ≠ b ∧
    GetRes_is_destroyed r' = false ∧ txn_id m' = 0.
Proof.
  destruct (get_res_wire pow10 Hpow cid tid v r Hc Ht Hr) as (text & Hs & _ & _ & Hd).
  specialize (Hd [] ltac:(done)). rewrite app_nil_r in Hd.
  exists text. do 2 eexists. split; [exact Hs|]. split; [exact Hd|]. split; [done|].
  destruct Hr as (_ & _ & Hsb). specialize (Hsb Hret). unfold sendable_bytes in Hsb. rewrite Hb in Hsb.
  destruct Hsb as (_ & Hby & Hlen & _). split_and!.
  - unfold received_res, GetRes_get_data at 1, sent_b64, b64_text. cbn [res_data bytes].
    rewrite Hret, Hb. cbn. f_equal. by apply clean_b64.
  - intros E. apply (f_equal (λ l, Z.of_nat (length l))) in E. rewrite rfc_encode_length in E.
    unfold modp_b64_encode_strlen in E. rewrite Z.quot_div_nonneg in E by lia. lia.
  - unfold received_res. by destruct (GetRes_is_tuple r && _).
  - done.
Qed.

Definition sample_res : GetRes :=
  mkGetRes 1 (DESTROYED + RET_BYTES) (Some (mkDataObject ["k"; "v"] 2 (Some [1; 2]) None true)).

Lemma get_response_encoded_witness :
  GetRes_is_destroyed sample_res = true ∧
  ∃ text m' r', json_msg_serialize (mkOekMsg GET_RES 1 2 true (D_get_res sample_res)) = Some (0, Some text) ∧
    json_msg_create exact_pow10 text = ok m' ∧ data m' = D_get_res r' ∧
    bytes (GetRes_get_data r') = Some (rfc_encode [1; 2]) ∧ rfc_encode [1; 2] ≠ [1; 2] ∧
    GetRes_is_destroyed r' = false ∧ txn_id m' = 0.
Proof.
  split; [done|]. apply (get_response_encoded exact_pow10 1 2 true sample_res [1; 2]); try done.
  split; [done|]. split; [done|]. intros _. split; [done|]. split; [|done].
  repeat (apply Forall_cons; [done|]). constructor.
Defined.

