(* ===== verification/Threads.v ===== *)
(** * Threads: futures and latches

    Models [src/corelib/Oec_Future.c] and [src/corelib/Oec_CountdownLatch.c],
    built with threads.  What a thread
    does between taking and leaving a lock is one step, and so is a read or a
    write it makes outside the lock; a run is a sequence of steps of the
    threads in any order.  A wait on a condition is left at any time, as the
    functions allow: whether it was signalled does not matter to the code,
    which looks at the state and at the clock again. *)

From S2P Require Import Prelude Values.
Import Str.

(** [OEC_FOREVER] stands for a year in a future and for a month in a latch. *)
Definition OEC_MONTH : Z := 2678400000.
Definition OEC_YEAR : Z := 31536000000.

Definition stop_time (forever now timeout : Z) : Z :=
  i64 (now + (if timeout =? OEC_FOREVER then forever else timeout)).

Module Future.
Section future.
Context {V : Type}.

(** ** Oec_Future.c *)

(** A pointer to the value is the value, or [None] for NULL. *)
Record Oec_Future := mkFuture {
  arena : option Z;
  oeid : Z;
  value : option V;
  done_ : bool;
  is_error : bool;
  freed : bool;
  alloc : option Z
}.

Definition Oec_Future_new : Oec_Future := mkFuture None 0 None false false false None.

(** The return code and what is left of the future: [None] when its memory
    was released. *)
Definition Oec_Future_free (f : Oec_Future) : Z * option Oec_Future :=
  let f' := mkFuture (arena f) (oeid f) (value f) (done_ f) (is_error f) true (alloc f) in
  if done_ f then (0, None) else (1, Some f').

Definition Oec_Future_is_done (f : Oec_Future) : bool := done_ f.
Definition Oec_Future_is_error (f : Oec_Future) : bool := is_error f.

Definition _future_set (f : Oec_Future) (v : option V) (id : Z) (err : bool) : option (option Oec_Future) :=
  _ ← c_assert (negb (done_ f));
  if freed f then Some (Oec_Future_free f).2
  else
    Some (Some (match v with
                | Some _ => mkFuture (arena f) (oeid f) v true err (freed f) (alloc f)
                | None => mkFuture (arena f) id (value f) true (is_error f) (freed f) (alloc f)
                end)).

Definition Oec_Future_setid (f : Oec_Future) (id : Z) := _future_set f None id false.
Definition Oec_Future_set (f : Oec_Future) (v : option V) := _future_set f v 0 false.
Definition Oec_Future_seterror (f : Oec_Future) (v : option V) :=
  _future_set (mkFuture (arena f) (oeid f) (value f) false (is_error f) (freed f) (alloc f)) v 0 true.

Definition Oec_Future_alloc (f : Oec_Future) (sz : Z) : Oec_Future :=
  mkFuture (arena f) (oeid f) (value f) (done_ f) (is_error f) (freed f) (Some sz).
Definition Oec_Future_set_arena (f : Oec_Future) (a : Z) : Oec_Future :=
  mkFuture (Some a) (oeid f) (value f) (done_ f) (is_error f) (freed f) (alloc f).

(** [Oec_Future_get] and [Oec_Future_getid] loop under the lock, which the
    wait releases: the entry, with [None] for an answer when it waits until
    the given time, and one turn of the loop. *)
Definition Oec_Future_get (f : Oec_Future) (now timeout : Z) : Z * option (option V) :=
  (stop_time OEC_YEAR now timeout, if done_ f then Some (value f) else None).
Definition get_wake (f : Oec_Future) (stop now : Z) : option (option V) :=
  if (stop <=? now) || done_ f then Some (value f) else None.
Definition Oec_Future_getid (f : Oec_Future) (now timeout : Z) : Z * option Z :=
  (stop_time OEC_YEAR now timeout, if done_ f then Some (oeid f) else None).
Definition getid_wake (f : Oec_Future) (stop now : Z) : option Z :=
  if (stop <=? now) || done_ f then Some (oeid f) else None.

(** ** A server and a client

    The server allocates and sets; the client waits, asks and frees.  [told]
    and [gone] record what the server set and whether the client has freed
    the future, and if so whether it had been set then. *)

Inductive answer := A_value (v : option V) | A_id (id : Z) | A_flag (b : bool) | A_rc (rc : Z).

Record world := mkWorld {
  cell : option Oec_Future;
  waiting : option (bool * Z);
  answers : list answer;
  told : option (option V * Z * bool);
  gone : option bool
}.
Definition start : world := mkWorld (Some Oec_Future_new) None [] None None.

Inductive event :=
  | E_alloc (sz : Z)
  | E_set (v : option V)
  | E_setid (id : Z)
  | E_seterror (v : option V)
  | E_get (id : bool) (now timeout : Z)
  | E_wake (now : Z)
  | E_is_done
  | E_is_error
  | E_free.

Definition set_cell (c : option Oec_Future) (w : world) : world :=
  mkWorld c (waiting w) (answers w) (told w) (gone w).
Definition answer_with (a : answer) (w : world) : world :=
  mkWorld (cell w) None (answers w ++ [a]) (told w) (gone w).
Definition tell (v : option V) (id : Z) (err : bool) (c : option Oec_Future) (w : world) : world :=
  mkWorld c (waiting w) (answers w) (Some (v, id, err)) (gone w).

Definition wait_or_answer (id : bool) (stop : Z) (a : option answer) (w : world) : world :=
  match a with
  | Some a => answer_with a w
  | None => mkWorld (cell w) (Some (id, stop)) (answers w) (told w) (gone w)
  end.

Definition step (w : world) (e : event) : option world :=
  f ← cell w;
  match e with
  | E_alloc sz => Some (set_cell (Some (Oec_Future_alloc f sz)) w)
  | E_set v => c ← Oec_Future_set f v; Some (tell v 0 false c w)
  | E_setid id => c ← Oec_Future_setid f id; Some (tell None id false c w)
  | E_seterror v => c ← Oec_Future_seterror f v; Some (tell v 0 true c w)
  | E_get false now timeout =>
    let '(stop, a) := Oec_Future_get f now timeout in Some (wait_or_answer false stop (A_value <$> a) w)
  | E_get true now timeout =>
    let '(stop, a) := Oec_Future_getid f now timeout in Some (wait_or_answer true stop (A_id <$> a) w)
  | E_wake now =>
    match waiting w with
    | None => Some w
    | Some (false, stop) => Some (wait_or_answer false stop (A_value <$> get_wake f stop now) w)
    | Some (true, stop) => Some (wait_or_answer true stop (A_id <$> getid_wake f stop now) w)
    end
  | E_is_done => Some (answer_with (A_flag (Oec_Future_is_done f)) w)
  | E_is_error => Some (answer_with (A_flag (Oec_Future_is_error f)) w)
  | E_free =>
    let '(rc, c) := Oec_Future_free f in
    Some (mkWorld c None (answers w ++ [A_rc rc]) (told w) (Some (done_ f)))
  end.

(** The roles of [Oec_Future.h]: the server sets once and does nothing
    afterwards, the client does nothing after it has freed, and nothing but
    wait while it waits. *)
Definition allowed (w : world) (e : event) : Prop :=
  match e with
  | E_alloc _ | E_set _ | E_setid _ | E_seterror _ => told w = None
  | E_wake _ => gone w = None ∧ waiting w ≠ None
  | _ => gone w = None ∧ waiting w = None
  end.
Definition fstep (w w' : world) : Prop := ∃ e, allowed w e ∧ step w e = Some w'.
Definition reachable (w : world) : Prop := rtc fstep start w.

(** What a future that was told something answers *)
Definition told_value (w : world) : option V := '(v, _, _) ← told w; v.
Definition told_id (w : world) : Z := match told w with Some (None, id, _) => id | _ => 0 end.
Definition told_error (w : world) : bool :=
  match told w with Some (Some _, _, err) => err | _ => false end.
Definition told_answer (id : bool) (w : world) : answer :=
  if id then A_id (told_id w) else A_value (told_value w).

(** *** The invariant *)

Definition cell_ok (w : world) (f : Oec_Future) : Prop :=
  freed f = bool_decide (gone w = Some false) ∧
  (if freed f then done_ f = false
   else done_ f = bool_decide (told w ≠ None) ∧ value f = told_value w ∧ oeid f = told_id w ∧
        is_error f = told_error w).
Definition world_ok (w : world) : Prop :=
  (gone w = Some true ↔ cell w = None) ∧ (gone w = Some true → told w ≠ None) ∧
  (∀ f, cell w = Some f → cell_ok w f).

Lemma start_ok : world_ok start.
Proof. split_and!; [done..|]. intros f [= <-]. by split. Qed.

Lemma set_ok w f v id err :
  world_ok w → cell w = Some f → told w = None →
  ∃ c, _future_set f v id err = Some c ∧ world_ok (tell v id err c w).
Proof.
  intros (Hg & Ht & Hc) E T. destruct (Hc f E) as [Hfr Hf]. unfold _future_set.
  unfold told_value, told_id, told_error in Hf. rewrite T in *. cbn in Hf.
  assert (gone w ≠ Some true) as Hn by (intros ?%Ht; done).
  destruct (freed f) eqn:Ef.
  - rewrite Hf. cbn. unfold Oec_Future_free. rewrite Hf. eexists. split; [done|].
    split_and!; cbn; [naive_solver..|]. intros g [= <-]. unfold cell_ok. cbn. by rewrite <-Hfr.
  - destruct Hf as (-> & Ev & Ei & Ee). cbn. eexists. split; [done|].
    split_and!; cbn; [by destruct v|naive_solver|].
    intros g Hg'. destruct v; simplify_eq; unfold cell_ok; cbn; rewrite ?Ef, ?Ev, ?Ei, ?Ee; done.
Qed.

Lemma future_step_ok w e : world_ok w → allowed w e → ∃ w', step w e = Some w' ∧ world_ok w'.
Proof.
  intros Hw Ha. pose proof Hw as (Hg & Ht & Hc).
  assert (is_Some (cell w)) as [f E].
  { destruct (cell w); [by eexists|]. assert (gone w = Some true) as G by naive_solver.
    destruct e; cbn in Ha; naive_solver. }
  unfold step. rewrite E. cbn [mbind option_bind].
  pose proof (Hc f E) as [Hfr Hf].
  assert (∀ st a id, world_ok (wait_or_answer id st a w)) as Hwait.
  { intros st a id. unfold wait_or_answer. destruct a; split_and!; cbn; done. }
  destruct e; cbn in Ha.
  - eexists. split; [done|]. split_and!; cbn; [naive_solver..|]. intros g [= <-]. done.
  - destruct (set_ok w f v 0 false Hw E Ha) as (c & E1 & Hok). unfold Oec_Future_set. rewrite E1. by eexists.
  - destruct (set_ok w f None id false Hw E Ha) as (c & E1 & Hok). unfold Oec_Future_setid. rewrite E1. by eexists.
  - assert (mkFuture (arena f) (oeid f) (value f) false (is_error f) (freed f) (alloc f) = f) as Ef.
    { assert (done_ f = false) as Ed by (rewrite Ha in Hf; destruct (freed f); [done|by destruct Hf]).
      destruct f; cbn in *. by subst. }
    unfold Oec_Future_seterror. rewrite Ef.
    destruct (set_ok w f v 0 true Hw E Ha) as (c & E1 & Hok). rewrite E1. by eexists.
  - destruct id; cbn; by eexists.
  - destruct (waiting w) as [[[] ?]|]; by eexists.
  - eexists. split; [done|]. split_and!; cbn; done.
  - eexists. split; [done|]. split_and!; cbn; done.
  - destruct Ha as [Ga _]. rewrite Ga in *. unfold Oec_Future_free.
    rewrite Hfr in Hf. cbn in Hf. destruct Hf as (Ed & Hf). rewrite Ed.
    case_bool_decide as T; (eexists; split; [done|]); split_and!; cbn; try done.
    intros g [= <-]. done.
Qed.

Lemma future_reachable_ok w : reachable w → world_ok w.
Proof.
  unfold reachable. intros H. remember start as s eqn:Es.
  assert (world_ok s) as Hs by (rewrite Es; apply start_ok). clear Es.
  induction H as [|w1 w2 w3 (e & Ha & E) H IH]; [done|]. apply IH.
  destruct (future_step_ok w1 e Hs Ha) as (? & E' & ?). by simplify_eq.
Qed.

(** While server and client keep to their roles, whatever the order of
    their steps, no step fails an assertion or touches released memory.  The
    memory is released exactly when the client frees a future that had been
    set; a future that is freed before it is set is never released. *)
Theorem future_safe (w : world) (Hw : reachable w) :
  (∀ e, allowed w e → is_Some (step w e)) ∧ (cell w = None ↔ gone w = Some true) ∧
  (gone w = Some true → told w ≠ None).
Proof.
  apply future_reachable_ok in Hw. split_and!.
  - intros e Ha. destruct (future_step_ok w e Hw Ha) as (? & -> & _). done.
  - symmetry. apply Hw.
  - apply Hw.
Qed.

(** A client that asks a future that has been set gets what the server set
    at once; one that asks before waits, and each time it looks again it gets
    the answer if the future has been set by then, gives up with an empty
    answer if its time is over, and waits on otherwise. *)
Theorem future_delivers (w : world) (id : bool) (now timeout stop : Z) (Hw : reachable w) (Hg : gone w = None) :
  let ended w' := waiting w' = None ∧ answers w' = answers w ++ [told_answer id w] in
  let waits stop w' := waiting w' = Some (id, stop) ∧ answers w' = answers w in
  (∃ w', step w (E_get id now timeout) = Some w' ∧ cell w' = cell w ∧
     if decide (told w = None) then waits (stop_time OEC_YEAR now timeout) w' else ended w') ∧
  (waiting w = Some (id, stop) →
   ∃ w', step w (E_wake now) = Some w' ∧ cell w' = cell w ∧
     if decide (told w = None ∧ now < stop) then waits stop w' else ended w').
Proof.
  intros ended waits. apply future_reachable_ok in Hw as (Hc & _ & Hf).
  destruct (cell w) as [f|] eqn:E; [|naive_solver]. destruct (Hf f eq_refl) as [Hfr Hd].
  rewrite Hfr, Hg in Hd. cbn in Hd. destruct Hd as (Ed & Ev & Ei & _). unfold step. rewrite E. split.
  - unfold Oec_Future_get, Oec_Future_getid, told_answer in *. destruct (decide (told w = None)) as [T|T].
    + rewrite bool_decide_eq_false_2 in Ed by naive_solver. destruct id; cbn; rewrite Ed; by eexists.
    + rewrite bool_decide_eq_true_2 in Ed by done.
      destruct id; cbn; rewrite Ed; cbn; rewrite ?Ev, ?Ei; by eexists.
  - intros Hwt. rewrite Hwt. unfold get_wake, getid_wake, told_answer in *.
    destruct (decide (told w = None ∧ now < stop)) as [[T L]|T].
    + rewrite bool_decide_eq_false_2 in Ed by naive_solver. rewrite (proj2 (Z.leb_gt stop now)) by lia.
      destruct id; cbn; rewrite Ed; by eexists.
    + assert ((stop <=? now) || done_ f = true) as Hor.
      { rewrite Ed. destruct (Z.leb_spec stop now); [done|]. apply bool_decide_eq_true_2. naive_solver. }
      destruct id; cbn; rewrite Hor; cbn; rewrite ?Ev, ?Ei; by eexists.
Qed.

End future.

(** A client waits from time 0 on, the server sets 7. *)
Definition demo_waiting : @world Z := mkWorld (Some Oec_Future_new) (Some (false, 500)) [] None None.
Definition demo_set : @world Z :=
  mkWorld (Some (mkFuture None 0 (Some 7) true false false None)) (Some (false, 500)) [] (Some (Some 7, 0, false)) None.

Lemma demo_reachable : reachable demo_waiting ∧ reachable demo_set.
Proof.
  assert (reachable demo_waiting) as H.
  { eapply rtc_once. exists (E_get false 0 500). by split. }
  split; [done|]. eapply rtc_r; [exact H|]. exists (E_set (Some 7)). by split.
Qed.

Lemma future_safe_witness : reachable demo_set ∧ cell demo_set ≠ None ∧ is_Some (step demo_set (E_wake 3)).
Proof.
  split; [apply demo_reachable|]. destruct (future_safe demo_set (proj2 demo_reachable)) as (H & Hc & _).
  split; [rewrite Hc; done|by apply H].
Defined.

Lemma future_delivers_witness :
  reachable demo_set ∧ ∃ w', step demo_set (E_wake 3) = Some w' ∧ answers w' = [A_value (Some 7)].
Proof.
  split; [apply demo_reachable|].
  destruct (future_delivers demo_set false 3 0 500 (proj2 demo_reachable) eq_refl) as (_ & H).
  destruct (H eq_refl) as (w' & E & _ & _ & Ha). by exists w'.
Defined.
End Future.

Module Latch.

(** ** Oec_CountdownLatch.c *)

Record Oec_CountdownLatch := mkLatch { _count : Z; _max_count : Z }.

Definition Oec_CountdownLatch_new : Oec_CountdownLatch := mkLatch 0 0.

Definition _update (l : Oec_CountdownLatch) (v : Z) : Z * Oec_CountdownLatch :=
  let c := i32 (_count l + v) in
  (c, mkLatch c (if 0 <? v then i32 (_max_count l + v) else _max_count l)).
Definition Oec_CountdownLatch_get_hi_water_mark (l : Oec_CountdownLatch) : Z := _max_count l.
Definition Oec_CountdownLatch_increment (l : Oec_CountdownLatch) := _update l 1.
Definition Oec_CountdownLatch_decrement (l : Oec_CountdownLatch) := _update l (-1).

(** The loop: each turn waits, and finds the latch as the other threads left
    it and the clock.  [None]: still waiting. *)
Fixpoint wait_zero (l : Oec_CountdownLatch) (stop : Z) (wakes : list (Oec_CountdownLatch * Z)) :
    option Oec_CountdownLatch :=
  if _count l =? 0 then Some l
  else
    match wakes with
    | [] => None
    | (l, now) :: wakes => if stop <=? now then Some l else wait_zero l stop wakes
    end.
Definition Oec_CountdownLatch_get (l : Oec_CountdownLatch) (timeout now : Z)
    (wakes : list (Oec_CountdownLatch * Z)) : option Z :=
  l ← wait_zero l (stop_time OEC_MONTH now timeout) wakes;
  Some (if _count l =? 0 then 1 else -1).

(** The return code, and whether the memory is released *)
Definition Oec_CountdownLatch_free (l : Oec_CountdownLatch) (now : Z) (wakes : list (Oec_CountdownLatch * Z)) :
    option (Z * bool) :=
  rc ← Oec_CountdownLatch_get l OEC_FOREVER now wakes;
  Some (if negb (rc =? 0) then (rc, false) else (0, true)).

(** The latch after increments ([true]) and decrements *)
Fixpoint updates (l : Oec_CountdownLatch) (us : list bool) : Oec_CountdownLatch :=
  match us with
  | [] => l
  | u :: us =>
    updates (if u then Oec_CountdownLatch_increment l else Oec_CountdownLatch_decrement l).2 us
  end.
Definition ups (us : list bool) : Z := Z.of_nat (length (filter (λ u, u = true) us)).
Definition downs (us : list bool) : Z := Z.of_nat (length (filter (λ u, u = false) us)).


Lemma updates_spec us : ∀ l, in_s 32 (_count l) → in_s 32 (_max_count l) →
  _count (updates l us) = i32 (_count l + (ups us - downs us)) ∧
  _max_count (updates l us) = i32 (_max_count l + ups us).
Proof.
  unfold ups, downs. induction us as [|u us IH]; intros l Hc Hm.
  { cbn. rewrite !Z.add_0_r, !wraps_id by done. done. }
  destruct u.
  - change (updates l (true :: us)) with (updates (mkLatch (i32 (_count l + 1)) (i32 (_max_count l + 1))) us).
    destruct (IH (mkLatch (i32 (_count l + 1)) (i32 (_max_count l + 1)))) as [-> ->];
      [apply wraps_range; lia..|].
    cbn [_count _max_count]. rewrite !wraps_add by lia.
    rewrite filter_cons_True, filter_cons_False by done. cbn [length]. split; f_equal; lia.
  - change (updates l (false :: us)) with (updates (mkLatch (i32 (_count l + -1)) (_max_count l)) us).
    destruct (IH (mkLatch (i32 (_count l + -1)) (_max_count l))) as [-> ->]; [apply wraps_range; lia|done|].
    cbn [_count _max_count]. rewrite !wraps_add by lia.
    rewrite filter_cons_False, filter_cons_True by done. cbn [length]. split; f_equal; lia.
Qed.

Lemma ups_downs us : ups us + downs us = Z.of_nat (length us).
Proof.
  unfold ups, downs. induction us as [|[] us IH]; [done|..].
  - rewrite filter_cons_True, filter_cons_False by done. cbn [length]. lia.
  - rewrite filter_cons_False, filter_cons_True by done. cbn [length]. lia.
Qed.

Lemma wait_zero_spec stop wakes : ∀ l l', wait_zero l stop wakes = Some l' →
  l' = l ∧ _count l = 0 ∨ ∃ t, (l', t) ∈ wakes ∧ (_count l' = 0 ∨ stop ≤ t) ∧ _count l ≠ 0.
Proof.
  induction wakes as [|[l1 t] wakes IH]; intros l l'; cbn;
    (destruct (Z.eqb_spec (_count l) 0); [intros [= <-]; by left|]); [done|].
  intros E. right. destruct (Z.leb_spec stop t).
  - simplify_eq. exists t. split; [left|auto].
  - destruct (IH _ _ E) as [[-> ?]|(t' & ? & ? & ?)].
    + exists t. split; [left|auto].
    + exists t'. split; [by right|auto].
Qed.

(** A latch counts: after any fewer than 2^31 increments and decrements its
    count is their difference, and its high water mark the number of
    increments, whatever the count was in between.  Waiting for it returns 1
    exactly when the count was 0 when it last looked, and gives up with -1
    only when its time was over; freeing it waits and then returns without
    releasing it, whatever the wait returned. *)
Theorem latch_spec (us : list bool) (timeout now : Z) (wakes : list (Oec_CountdownLatch * Z))
    (Hlen : Z.of_nat (length us) < 2 ^ 31) :
  let l := updates Oec_CountdownLatch_new us in
  _count l = ups us - downs us ∧ Oec_CountdownLatch_get_hi_water_mark l = ups us ∧
  (∀ rc, Oec_CountdownLatch_get l timeout now wakes = Some rc →
     (if decide (ups us = downs us) then rc = 1
      else ∃ l' t, (l', t) ∈ wakes ∧
        if decide (_count l' = 0) then rc = 1 else rc = -1 ∧ stop_time OEC_MONTH now timeout ≤ t)) ∧
  (∀ rc released, Oec_CountdownLatch_free l now wakes = Some (rc, released) →
     released = false ∧ (rc = 1 ∨ rc = -1)).
Proof.
  cbv zeta. pose proof (ups_downs us) as Hud.
  assert (0 ≤ ups us ∧ 0 ≤ downs us) as [? ?] by (unfold ups, downs; lia).
  destruct (updates_spec us Oec_CountdownLatch_new) as [Ec Em]; [done..|].
  cbn [_count _max_count Oec_CountdownLatch_new] in Ec, Em. rewrite Z.add_0_l in Ec, Em.
  rewrite wraps_id in Ec, Em by (unfold in_s; lia).
  split; [done|]. split; [done|]. split.
  - intros rc. unfold Oec_CountdownLatch_get.
    destruct (wait_zero _ _ _) as [l'|] eqn:E; [|done]. cbn. intros [= <-].
    destruct (wait_zero_spec _ _ _ _ E) as [[-> E0]|(t & Hin & Hor & Hne)].
    + rewrite E0, decide_True by lia. done.
    + rewrite decide_False by lia. exists l', t. split; [done|].
      destruct (decide _) as [E0|E0]; [by rewrite E0|]. rewrite (proj2 (Z.eqb_neq _ _) E0).
      split; [done|]. naive_solver.
  - intros rc released. unfold Oec_CountdownLatch_free, Oec_CountdownLatch_get.
    destruct (wait_zero _ _ _) as [l'|]; [|done]. cbn.
    destruct (_count l' =? 0); cbn; intros [= <- <-]; auto.
Qed.

Lemma latch_spec_witness :
  let l := updates Oec_CountdownLatch_new [true; true; false] in
  _count l = 1 ∧ Oec_CountdownLatch_get_hi_water_mark l = 2 ∧
  ∀ rc released, Oec_CountdownLatch_free l 0 [(mkLatch 0 2, 1)] = Some (rc, released) → released = false.
Proof.
  destruct (latch_spec [true; true; false] 100 0 [(mkLatch 0 2, 1)] ltac:(cbn; lia)) as (H1 & H2 & _ & H4).
  split; [exact H1|]. split; [exact H2|]. intros rc released E. by destruct (H4 rc released E).
Defined.

End Latch.
