(* ===== verification/Script.v ===== *)
(** * Script: the calls of the scripting interface

    Models [src/corelib/OesKernel_impl.c], the functions behind the objects
    that the scripting modules hand to their users, with the destructors of
    [src/modules/scripting/swig/OeScript.i] that end the objects' lives.

    A program has one thread of its own.  A call hands a context to the
    kernel ([OEK.h]) and returns an object with a future; a thread of the
    kernel answers the context later, by one of the callbacks.  A callback
    writes the object first, then counts the latches of the transaction up
    and down and sets the future at last; each of these takes a lock of its
    own and is a step of its own ([U_answer], [K_update]).  A call of the
    program is one step, at the time its wait is over: before it, it touches
    nothing that another thread can see.  Only the end of a transaction waits
    twice and is two steps.

    An object's future is reached through the object only, and so are the
    latches of a transaction, which are parts of the record.  [arenas] are
    those not yet disposed of. *)

From S2P Require Import Prelude Values HashTable Collections Messages StoreHolder Kernel Security Server Threads.
Import Str AList DataObject DataObjectList Future Latch.

Open Scope oes_scope.

(** ** Calls that may have to wait *)

Inductive outcome (A : Type) :=
  | Done (a : A)
  | Waits          (* not yet *)
  | Crash.         (* a failed assertion or an access to freed memory *)
Arguments Done {A} a.
Arguments Waits {A}.
Arguments Crash {A}.

#[export] Instance outcome_bind : MBind outcome := λ A B f o,
  match o with Done a => f a | Waits => Waits | Crash => Crash end.
#[export] Instance outcome_ret : MRet outcome := λ A, Done.

Definition safe {A} (o : option A) : outcome A := match o with Some a => Done a | None => Crash end.

(** ** The objects *)

Abbreviation future := (@Oec_Future unit).
Abbreviation cell := Server.cell.

Inductive OES_TXN_STATUS := ACTIVE | ROLLEDBACK | COMMITTED.
Definition status_code (s : OES_TXN_STATUS) : Z := match s with ACTIVE => 0 | ROLLEDBACK => 1 | COMMITTED => 2 end.

Record OesTxn := mkOesTxn {
  txn_f : cell future;
  txn_status : Z;                    (* an OES_TXN_STATUS, or what the memory held *)
  txn_tid : Z;
  enlisted : Oec_CountdownLatch;
  enlisted_counter : Oec_CountdownLatch
}.
Record OesLease := mkOesLease { lease_f : cell future; lid : Z; lease_txn : option nat }.
Record OesDataObjectList := mkOesDataObjectList {
  list_arena : option nat;
  list_f : cell future;
  list_obj : DataObjectList;
  list_txn : option nat
}.
Record OesDataObject := mkOesDataObject { object_arena : option nat; object_obj : DataObject }.

Definition set_txn_f f t := mkOesTxn f (txn_status t) (txn_tid t) (enlisted t) (enlisted_counter t).
Definition set_txn_state s i t := mkOesTxn (txn_f t) s i (enlisted t) (enlisted_counter t).
Definition set_latches e c t := mkOesTxn (txn_f t) (txn_status t) (txn_tid t) e c.
Definition set_lease_f f l := mkOesLease f (lid l) (lease_txn l).
Definition set_lid i l := mkOesLease (lease_f l) i (lease_txn l).
Definition set_list_arena a l := mkOesDataObjectList a (list_f l) (list_obj l) (list_txn l).
Definition set_list_f f l := mkOesDataObjectList (list_arena l) f (list_obj l) (list_txn l).
Definition set_list_obj o l := mkOesDataObjectList (list_arena l) (list_f l) o (list_txn l).

(** The callback of a context and the object it is called with *)
Inductive callback :=
  | oes_put_promise_cb (lease : nat)
  | oes_get_promise_cb (results : nat)
  | oes_begin_promise_cb (txn : nat)
  | oes_upt_promise_cb (txn : nat)
  | oes_upl_promise_cb (lease : nat).

(** The object whose future a callback sets *)
Inductive target := To_lease (a : nat) | To_results (a : nat) | To_txn (a : nat).
#[export] Instance target_eq_dec : EqDecision target. Proof. solve_decision. Defined.
Definition target_of (cb : callback) : target :=
  match cb with
  | oes_put_promise_cb a | oes_upl_promise_cb a => To_lease a
  | oes_get_promise_cb a => To_results a
  | oes_begin_promise_cb a | oes_upt_promise_cb a => To_txn a
  end.

(** What a callback still has to do to the latches of transactions *)
Inductive update := Down (t : nat) | Up (t : nat).

(** A context handed to the kernel: not answered; answered, with the callback
    still at work; finished. *)
Inductive job :=
  | Asked (ctx : OEK_Context) (home : nat) (cb : callback)
  | Updating (todo : list update) (tg : target)
  | Finished.

Record world := mkWorld {
  lastid : Z;
  currentTxn : option nat;
  objects : gmap nat OesDataObject;
  lists : gmap nat OesDataObjectList;
  leases : gmap nat OesLease;
  txns : gmap nat OesTxn;
  arenas : gset nat;
  jobs : list job;
  ending : option (nat * OEK_Context * nat * Z);  (* the end of a transaction that waits for its latch *)
  error_message : list Z;
  error_status : bool;
  next : nat;                                     (* addresses from here on are free *)
  items : list (nat * Z)                          (* what the callbacks counted for each transaction *)
}.

Definition set_lastid i w := mkWorld i (currentTxn w) (objects w) (lists w) (leases w) (txns w) (arenas w) (jobs w)
  (ending w) (error_message w) (error_status w) (next w) (items w).
Definition set_current t w := mkWorld (lastid w) t (objects w) (lists w) (leases w) (txns w) (arenas w) (jobs w)
  (ending w) (error_message w) (error_status w) (next w) (items w).
Definition set_objects m w := mkWorld (lastid w) (currentTxn w) m (lists w) (leases w) (txns w) (arenas w) (jobs w)
  (ending w) (error_message w) (error_status w) (next w) (items w).
Definition set_lists m w := mkWorld (lastid w) (currentTxn w) (objects w) m (leases w) (txns w) (arenas w) (jobs w)
  (ending w) (error_message w) (error_status w) (next w) (items w).
Definition set_leases m w := mkWorld (lastid w) (currentTxn w) (objects w) (lists w) m (txns w) (arenas w) (jobs w)
  (ending w) (error_message w) (error_status w) (next w) (items w).
Definition set_txns m w := mkWorld (lastid w) (currentTxn w) (objects w) (lists w) (leases w) m (arenas w) (jobs w)
  (ending w) (error_message w) (error_status w) (next w) (items w).
Definition set_arenas s w := mkWorld (lastid w) (currentTxn w) (objects w) (lists w) (leases w) (txns w) s (jobs w)
  (ending w) (error_message w) (error_status w) (next w) (items w).
Definition set_jobs l w := mkWorld (lastid w) (currentTxn w) (objects w) (lists w) (leases w) (txns w) (arenas w) l
  (ending w) (error_message w) (error_status w) (next w) (items w).
Definition set_ending e w := mkWorld (lastid w) (currentTxn w) (objects w) (lists w) (leases w) (txns w) (arenas w)
  (jobs w) e (error_message w) (error_status w) (next w) (items w).
Definition set_error m s w := mkWorld (lastid w) (currentTxn w) (objects w) (lists w) (leases w) (txns w) (arenas w)
  (jobs w) (ending w) m s (next w) (items w).
Definition set_next n w := mkWorld (lastid w) (currentTxn w) (objects w) (lists w) (leases w) (txns w) (arenas w)
  (jobs w) (ending w) (error_message w) (error_status w) n (items w).
Definition set_items l w := mkWorld (lastid w) (currentTxn w) (objects w) (lists w) (leases w) (txns w) (arenas w)
  (jobs w) (ending w) (error_message w) (error_status w) (next w) l.

Definition start : world :=
  mkWorld 0 None ∅ ∅ ∅ ∅ ∅ [] None (replicate 256 0) false 0 [].

(** Memory for an object, and a new arena *)
Definition fresh (w : world) : nat * world := (next w, set_next (S (next w)) w).
Definition Arena_new (w : world) : nat * world :=
  let '(a, w) := fresh w in (a, set_arenas ({[a]} ∪ arenas w) w).
Definition Arena_alloc (a : nat) (w : world) : outcome unit := safe (c_assert (bool_decide (a ∈ arenas w))).
Definition Arena_dispose (a : nat) (w : world) : outcome world :=
  if bool_decide (a ∈ arenas w) then Done (set_arenas (arenas w ∖ {[a]}) w) else Crash.

(** ** Exceptions *)

(** [strncpy] copies no more than [strlen] characters: no NUL. *)
Definition throw_exception (msg : string) (w : world) : world :=
  let len := String.length msg in
  let n := if (len <? 256)%nat then len else 256%nat in
  set_error (strncpy msg n ++ drop n (error_message w)) true w.
Definition clear_exception (w : world) : world := set_error (error_message w) false w.
(** The text a caller reads at the pointer; nothing may be read behind it. *)
Definition check_exception (w : world) : outcome (option string) :=
  if error_status w then text ← safe (c_string (error_message w)); Done (Some text) else Done None.

(** ** Futures *)

(** [Oec_Future_get] and [Oec_Future_getid] of a thread that entered at
    [entered], at time [now] *)
Definition future_wait (c : cell future) (entered now : Z) : outcome unit :=
  match c with
  | Live f =>
    let '(stop, a) := Oec_Future_getid f entered OEC_FOREVER in
    match a with
    | Some _ => Done ()
    | None => match getid_wake f stop now with Some _ => Done () | None => Waits end
    end
  | _ => Crash
  end.

Definition released (f : future) (c : option future) (w : world) : outcome (cell future * world) :=
  match c with
  | Some f => Done (Live f, w)
  | None =>
    match Future.arena f with
    | Some a => w ← Arena_dispose (Z.to_nat a) w; Done (Freed, w)
    | None => Done (Freed, w)
    end
  end.

(** [Oec_Future_set(f, NULL)] and [Oec_Future_free(&f)]; one that is not done
    is not released but marked. *)
Definition future_set (c : cell future) (w : world) : outcome (cell future * world) :=
  match c with
  | Live f => c ← safe (Oec_Future_set f None); released f c w
  | _ => Crash
  end.
Definition future_free (c : cell future) (w : world) : outcome (cell future * world) :=
  match c with
  | Live f => released f (Oec_Future_free f).2 w
  | _ => Crash
  end.
Definition new_future (a : nat) : cell future := Live (Oec_Future_set_arena Oec_Future_new (Z.of_nat a)).

(** ** Contexts *)

Definition _new_oek_context (msg : OekMsg) : OEK_Context := mkContext 0 msg true None None.
Definition _new_get_cmd_context : option OEK_Context :=
  msg ← OekMsg_new GET_CMD;
  cmd ← OekMsg_get_get_cmd msg;
  cmd ← GetCmd_set_max_responses cmd 1;
  Some (_new_oek_context (set_data msg (D_get_cmd cmd))).
Definition _new_put_cmd_context : option OEK_Context := _new_oek_context <$> OekMsg_new PUT_CMD.
Definition _new_sta_cmd_context : option OEK_Context := _new_oek_context <$> OekMsg_new STA_CMD.
Definition _new_upt_cmd_context : option OEK_Context := _new_oek_context <$> OekMsg_new UPT_CMD.
Definition _new_upl_cmd_context : option OEK_Context := _new_oek_context <$> OekMsg_new UPL_CMD.

Definition set_cmd_msg (m : OekMsg) (c : OEK_Context) : OEK_Context :=
  mkContext (expire_time_ctx c) m (write_response_cb c) (res_msgs c) (err_msg c).

(** [OEK_put] and its like: the kernel has the context from now on. *)
Definition hand_over (c : OEK_Context) (home : nat) (cb : callback) (w : world) : world :=
  set_jobs (jobs w ++ [Asked c home cb]) w.

Definition next_cid (w : world) : Z * world := let i := u64 (lastid w + 1) in (i, set_lastid i w).

(** The part of a write or a get that concerns the current transaction: wait
    for its id, and count the operation up ([enlists]). *)
Definition join_txn (enlists : bool) (entered now : Z) (w : world) : outcome (option nat * Z * world) :=
  match currentTxn w with
  | None => Done (None, 0, w)
  | Some t =>
    txn ← safe (txns w !! t);
    _ ← future_wait (txn_f txn) entered now;
    let tid := txn_tid txn in
    if enlists then
      let '(n, l) := Oec_CountdownLatch_increment (enlisted txn) in
      _ ← safe (c_assert (negb (n =? 0)));
      Done (Some t, tid, set_txns (<[t := set_latches l (enlisted_counter txn) txn]> (txns w)) w)
    else Done (Some t, tid, w)
  end.

(** ** Writing *)

Definition put_context (dur tid cid : Z) (is_tuple : bool) (d : DataObject) : option OEK_Context :=
  context ← _new_put_cmd_context;
  let cmd_msg := cmd_msg context in
  cmd ← OekMsg_get_put_cmd cmd_msg;
  let cmd_msg := OekMsg_set_cid (OekMsg_set_tid cmd_msg tid) cid in
  let cmd := PutCmd_set_dur cmd (if 0 <? dur then dur else OEC_FOREVER) in
  let cmd := PutCmd_set_data cmd d in
  let cmd := if is_tuple then PutCmd_set_tuple cmd else cmd in
  Some (set_cmd_msg (set_data cmd_msg (D_put_cmd cmd)) context).

Definition OesKernel_impl_write (slist : nat) (dur : Z) (is_tuple : bool) (entered now : Z) (w : world) :
    outcome (nat * world) :=
  let '(holder, w) := fresh w in
  o ← safe (objects w !! slist);
  arena ← safe (object_arena o);
  let w := set_objects (<[slist := mkOesDataObject None (object_obj o)]> (objects w)) w in
  _ ← Arena_alloc arena w;
  '(txn, tid, w) ← join_txn true entered now w;
  let '(cid, w) := next_cid w in
  context ← safe (put_context dur tid cid is_tuple (object_obj o));
  let w := set_leases (<[holder := mkOesLease (new_future arena) 0 txn]> (leases w)) w in
  Done (holder, hand_over context arena (oes_put_promise_cb holder) w).

(** What a callback does first, and the updates it still has to make *)
Definition thrown (m : OekMsg) (w : world) : outcome world :=
  em ← safe (OekMsg_get_err m);
  text ← safe (emessage em);
  Done (throw_exception text w).

Definition first_res (c : OEK_Context) : option OekMsg := l ← res_msgs c; head l.

Definition _oes_put_promise_cb (c : OEK_Context) (a : nat) (w : world) : outcome (list update * world) :=
  lh ← safe (leases w !! a);
  w ← (match err_msg c with
       | Some m => thrown m w
       | None =>
         msg ← safe (first_res c);
         res ← safe (OekMsg_get_put_res msg);
         Done (set_leases (<[a := set_lid (res_lease_id res) lh]> (leases w)) w)
       end);
  Done (match lease_txn lh with
        | Some t => ([Down t; Up t], set_items (items w ++ [(t, 1)]) w)
        | None => ([], w)
        end).

(** ** Reading and taking *)

Definition OesKernel_impl_createOesDataObjectList (arena : nat) (f : cell future) (txn : option nat) :
    OesDataObjectList := mkOesDataObjectList (Some arena) f DataObjectList_new txn.

Definition get_context (tid cid timeout now : Z) (destroy is_tuple : bool) (values : DataObjectList)
    (max_responses : Z) (return_attrs return_bytes : bool) : option OEK_Context :=
  context ← _new_get_cmd_context;
  let cmd_msg := OekMsg_set_cid (OekMsg_set_tid (cmd_msg context) tid) cid in
  cmd ← OekMsg_get_get_cmd cmd_msg;
  let cmd := if destroy then GetCmd_set_remove_option cmd else cmd in
  let cmd := GetCmd_set_timeout cmd timeout in
  let cmd := if is_tuple then GetCmd_set_tuple cmd else cmd in
  cmd ← GetCmd_set_data_objects cmd values;
  let cmd := if return_bytes then GetCmd_set_return_bytes cmd true else cmd in
  let cmd := if return_attrs then GetCmd_set_return_attrs cmd true else cmd in
  cmd ← GetCmd_set_max_responses cmd max_responses;
  let context := set_cmd_msg (set_data cmd_msg (D_get_cmd cmd)) context in
  Some (mkContext (i64 (now + timeout)) (Kernel.cmd_msg context) (write_response_cb context) (res_msgs context)
          (err_msg context)).

Definition _oes_get (values : nat) (timeout : Z) (destroy is_tuple : bool) (max_responses : Z)
    (return_attrs return_bytes : bool) (entered now : Z) (w : world) : outcome (nat * world) :=
  v ← safe (lists w !! values);
  let '(arena, w) :=
    match list_arena v with
    | Some a => (a, set_lists (<[values := set_list_arena None v]> (lists w)) w)
    | None => Arena_new w
    end in
  _ ← Arena_alloc arena w;
  let '(holder, w) := fresh w in
  let results := OesKernel_impl_createOesDataObjectList arena (new_future arena) (currentTxn w) in
  '(_, tid, w) ← join_txn destroy entered now w;
  let '(cid, w) := next_cid w in
  context ← safe (get_context tid cid timeout now destroy is_tuple (list_obj v) max_responses return_attrs return_bytes);
  let w := set_lists (<[holder := results]> (lists w)) w in
  Done (holder, hand_over context arena (oes_get_promise_cb holder) w).

Definition OesKernel_impl_read (values : nat) (timeout : Z) := _oes_get values timeout false.
Definition OesKernel_impl_take (values : nat) (timeout : Z) := _oes_get values timeout true.

(** The list with the data of the messages, and the count of the last one *)
Fixpoint collect (msgs : list OekMsg) (n : Z) (l : DataObjectList) : option (Z * DataObjectList) :=
  match msgs with
  | [] => Some (n, l)
  | m :: msgs =>
    res ← OekMsg_get_get_res m;
    let n := nresults res in
    collect msgs n (if 0 <? n then DataObjectList_add l (GetRes_get_data res) else l)
  end.

(** The list of updates is empty, without a future to set, when the results
    are not complete. *)
Definition _oes_get_promise_cb (c : OEK_Context) (a : nat) (w : world) : outcome (option (list update) * world) :=
  results ← safe (lists w !! a);
  '(done, n, w) ← (match err_msg c with
    | Some m => w ← thrown m w; Done (true, 0, w)
    | None =>
      msgs ← safe (res_msgs c);
      '(n, l) ← safe (collect msgs 0 (list_obj results));
      Done (DataObjectList_length l =? n, n, set_lists (<[a := set_list_obj l results]> (lists w)) w)
    end);
  if negb (done : bool) then Done (None, w)
  else
    cmd ← safe (OekMsg_get_get_cmd (cmd_msg c));
    Done (match list_txn results with
          | Some t => if GetCmd_remove cmd
                      then (Some (Down t :: replicate (Z.to_nat n) (Up t)), set_items (items w ++ [(t, n)]) w)
                      else (Some [], w)
          | None => (Some [], w)
          end).

(** ** Transactions *)

(** [junk] is what the memory of the new holder held. *)
Definition OesKernel_impl_begin (dur : Z) (junk : Z * Z) (w : world) : outcome (nat * world) :=
  let '(holder, w) := fresh w in
  let w := set_current (Some holder) w in
  let '(arena, w) := Arena_new w in
  context ← safe _new_sta_cmd_context;
  let '(cid, w) := next_cid w in
  let cmd_msg := OekMsg_set_cid (cmd_msg context) cid in
  cmd ← safe (OekMsg_get_sta_cmd cmd_msg);
  let context := set_cmd_msg (set_data cmd_msg (D_sta_cmd (StaCmd_set_dur cmd dur))) context in
  let txn := mkOesTxn (new_future arena) junk.1 junk.2 Oec_CountdownLatch_new Oec_CountdownLatch_new in
  let w := set_txns (<[holder := txn]> (txns w)) w in
  Done (holder, hand_over context arena (oes_begin_promise_cb holder) w).

Definition _oes_begin_promise_cb (c : OEK_Context) (t : nat) (w : world) : outcome world :=
  txn ← safe (txns w !! t);
  match err_msg c with
  | Some m => thrown m w
  | None =>
    msg ← safe (first_res c);
    _ ← safe (OekMsg_get_sta_res msg);
    Done (set_txns (<[t := set_txn_state (status_code ACTIVE) (OekMsg_get_tid msg) txn]> (txns w)) w)
  end.

(** Up to the wait for the latch *)
Definition _oes_upt_txn (txn_holder : option nat) (status : OES_TXN_STATUS) (entered now : Z) (w : world) :
    outcome world :=
  let w := match txn_holder with None => throw_exception "null txn_holder" w | Some _ => w end in
  t ← safe txn_holder;
  txn ← safe (txns w !! t);
  let w := if txn_status txn =? status_code ACTIVE then w else throw_exception "null txn is not active" w in
  _ ← future_wait (txn_f txn) entered now;
  '(_, w) ← future_free (txn_f txn) w;
  let '(arena, w) := Arena_new w in
  let w := set_txns (<[t := set_txn_f (new_future arena) txn]> (txns w)) w in
  context ← safe _new_upt_cmd_context;
  cmd ← safe (OekMsg_get_upt_cmd (cmd_msg context));
  let '(cid, w) := next_cid w in
  let cmd_msg := OekMsg_set_tid (OekMsg_set_cid (cmd_msg context) cid) (txn_tid txn) in
  let cmd := UptCmd_set_status cmd (match status with COMMITTED => "C"%char | _ => "R"%char end) in
  Done (set_ending (Some (t, set_cmd_msg (set_data cmd_msg (D_upt_cmd cmd)) context, arena, now)) w).

(** The number of items the server is told *)
Definition told_enlisted (l : Oec_CountdownLatch) : Z :=
  let e := Oec_CountdownLatch_get_hi_water_mark l in if 0 <? e then e else -1.

(** From the wait on: [entered] when it began *)
Definition upt_rest (now : Z) (w : world) : outcome world :=
  '(t, context, arena, entered) ← safe (ending w);
  txn ← safe (txns w !! t);
  match Oec_CountdownLatch_get (enlisted txn) OEC_FOREVER entered [(enlisted txn, now)] with
  | None => Waits
  | Some gotlatch =>
    _ ← safe (c_assert (gotlatch =? 1));
    let w := set_current None (set_ending None w) in
    cmd ← safe (OekMsg_get_upt_cmd (cmd_msg context));
    let cmd := UptCmd_set_enlisted cmd (told_enlisted (enlisted_counter txn)) in
    Done (hand_over (set_cmd_msg (set_data (cmd_msg context) (D_upt_cmd cmd)) context) arena (oes_upt_promise_cb t) w)
  end.

Definition OesKernel_impl_commit (txn_holder : option nat) := _oes_upt_txn txn_holder COMMITTED.
Definition OesKernel_impl_rollback (txn_holder : option nat) := _oes_upt_txn txn_holder ROLLEDBACK.

Definition _oes_upt_promise_cb (c : OEK_Context) (t : nat) (w : world) : outcome world :=
  txn ← safe (txns w !! t);
  match err_msg c with
  | Some m => thrown m w
  | None =>
    msg ← safe (first_res c);
    res ← safe (OekMsg_get_upt_res msg);
    let s := if bool_decide (UptRes_get_status res = OETXN_COMMITTED) then COMMITTED else ROLLEDBACK in
    Done (set_txns (<[t := set_txn_state (status_code s) (txn_tid txn) txn]> (txns w)) w)
  end.

(** ** Leases *)

Definition OesKernel_impl_upl_cancel (lease_holder : nat) (entered now : Z) (w : world) : outcome world :=
  lh ← safe (leases w !! lease_holder);
  _ ← future_wait (lease_f lh) entered now;
  '(_, w) ← future_free (lease_f lh) w;
  let '(arena, w) := Arena_new w in
  let w := set_leases (<[lease_holder := set_lease_f (new_future arena) lh]> (leases w)) w in
  context ← safe _new_upl_cmd_context;
  cmd ← safe (OekMsg_get_upl_cmd (cmd_msg context));
  let '(cid, w) := next_cid w in
  let cmd := UplCmd_set_lid (UplCmd_set_dur cmd 0) (lid lh) in
  let cmd_msg := OekMsg_set_cid (set_data (cmd_msg context) (D_upl_cmd cmd)) cid in
  Done (hand_over (set_cmd_msg cmd_msg context) arena (oes_upl_promise_cb lease_holder) w).

(** ** The destructors *)

Definition delete_OesLease (a : nat) (entered now : Z) (w : world) : outcome world :=
  lh ← safe (leases w !! a);
  _ ← future_wait (lease_f lh) entered now;
  '(_, w) ← future_free (lease_f lh) w;
  Done (set_leases (delete a (leases w)) w).

(** Only data objects of the program itself have [free_arena]. *)
Definition delete_OesDataObject (a : nat) (w : world) : outcome world :=
  o ← safe (objects w !! a);
  w ← (match object_arena o with Some r => Arena_dispose r w | None => Done w end);
  Done (set_objects (delete a (objects w)) w).

Definition delete_OesDataObjectList (a : nat) (w : world) : outcome world :=
  l ← safe (lists w !! a);
  w ← (match list_f l with Null => Done w | f => '(_, w) ← future_free f w; Done w end);
  w ← (match list_arena l with Some r => Arena_dispose r w | None => Done w end);
  Done (set_lists (delete a (lists w)) w).

(** ** Runs *)

Definition run_callback (c : OEK_Context) (cb : callback) (w : world) : outcome (option (list update) * world) :=
  match cb with
  | oes_put_promise_cb a => '(us, w) ← _oes_put_promise_cb c a w; Done (Some us, w)
  | oes_get_promise_cb a => _oes_get_promise_cb c a w
  | oes_begin_promise_cb t => w ← _oes_begin_promise_cb c t w; Done (Some [], w)
  | oes_upt_promise_cb t => w ← _oes_upt_promise_cb c t w; Done (Some [], w)
  | oes_upl_promise_cb _ => Done (Some [], w)
  end.

(** The kernel calls the callback of job [i] with the context [c]. *)
Definition answer (i : nat) (c : OEK_Context) (w : world) : outcome world :=
  match jobs w !! i with
  | Some (Asked _ home cb) =>
    _ ← Arena_alloc home w;
    '(us, w) ← run_callback c cb w;
    let j := match us with Some us => Updating us (target_of cb) | None => Finished end in
    Done (set_jobs (<[i := j]> (jobs w)) w)
  | _ => Crash
  end.

Definition count_latch (u : update) (w : world) : outcome world :=
  let t := match u with Down t | Up t => t end in
  txn ← safe (txns w !! t);
  let txn := match u with
             | Down _ => set_latches (Oec_CountdownLatch_decrement (enlisted txn)).2 (enlisted_counter txn) txn
             | Up _ => set_latches (enlisted txn) (Oec_CountdownLatch_increment (enlisted_counter txn)).2 txn
             end in
  Done (set_txns (<[t := txn]> (txns w)) w).

(** [Oec_Future_set(holder->f, NULL)] *)
Definition flip_latch (tg : target) (w : world) : outcome world :=
  match tg with
  | To_lease a =>
    l ← safe (leases w !! a);
    '(f, w) ← future_set (lease_f l) w;
    Done (set_leases (<[a := set_lease_f f l]> (leases w)) w)
  | To_results a =>
    l ← safe (lists w !! a);
    '(f, w) ← future_set (list_f l) w;
    Done (set_lists (<[a := set_list_f f l]> (lists w)) w)
  | To_txn t =>
    x ← safe (txns w !! t);
    '(f, w) ← future_set (txn_f x) w;
    Done (set_txns (<[t := set_txn_f f x]> (txns w)) w)
  end.

Definition proceed (i : nat) (w : world) : outcome world :=
  match jobs w !! i with
  | Some (Updating (u :: us) tg) =>
    w ← count_latch u w; Done (set_jobs (<[i := Updating us tg]> (jobs w)) w)
  | Some (Updating [] tg) => w ← flip_latch tg w; Done (set_jobs (<[i := Finished]> (jobs w)) w)
  | _ => Crash
  end.

Inductive event :=
  | U_object (d : DataObject)            (* the program makes a data object, or a list of templates *)
  | U_list (l : DataObjectList)
  | U_write (slist : nat) (dur : Z) (is_tuple : bool) (entered now : Z)
  | U_get (values : nat) (timeout : Z) (destroy is_tuple : bool) (max_responses : Z)
      (return_attrs return_bytes : bool) (entered now : Z)
  | U_begin (dur : Z) (junk : Z * Z)
  | U_setCurrent (txn : option nat)
  | U_end (txn : option nat) (commit : bool) (entered now : Z)
  | U_end_rest (now : Z)
  | U_cancel (lease : nat) (entered now : Z)
  | U_delete_lease (lease : nat) (entered now : Z)
  | U_delete_object (object : nat)
  | U_clear
  | K_answer (i : nat) (c : OEK_Context)
  | K_update (i : nat).

Definition step (w : world) (e : event) : outcome world :=
  match e with
  | U_object d =>
    let '(a, w) := fresh w in let '(r, w) := Arena_new w in
    Done (set_objects (<[a := mkOesDataObject (Some r) d]> (objects w)) w)
  | U_list l =>
    let '(a, w) := fresh w in let '(r, w) := Arena_new w in
    Done (set_lists (<[a := set_list_obj l (OesKernel_impl_createOesDataObjectList r Null None)]> (lists w)) w)
  | U_write o dur tuple entered now => '(_, w) ← OesKernel_impl_write o dur tuple entered now w; Done w
  | U_get v timeout destroy tuple mx ra rb entered now =>
    '(_, w) ← (if destroy then OesKernel_impl_take v timeout tuple mx ra rb entered now w
              else OesKernel_impl_read v timeout tuple mx ra rb entered now w); Done w
  | U_begin dur junk => '(_, w) ← OesKernel_impl_begin dur junk w; Done w
  | U_setCurrent t => Done (set_current t w)
  | U_end t commit entered now =>
    if commit then OesKernel_impl_commit t entered now w else OesKernel_impl_rollback t entered now w
  | U_end_rest now => upt_rest now w
  | U_cancel a entered now => OesKernel_impl_upl_cancel a entered now w
  | U_delete_lease a entered now => delete_OesLease a entered now w
  | U_delete_object a => delete_OesDataObject a w
  | U_clear => Done (clear_exception w)
  | K_answer i c => answer i c w
  | K_update i => proceed i w
  end.
