(* ===== verification/ScriptSpec.v ===== *)
(** * ScriptSpec: what the calls of the scripting interface guarantee

    For a program that keeps to its role ([allowed]) and a kernel that answers
    each context once, as [Kernel] does ([answered], [kernel_answered]): no
    call or callback fails an assertion or touches freed memory, waits end
    ([script_safe]), and a transaction is ended when everything written or
    taken under it has been answered, with the number of these items
    ([commit_counts]) except for the callbacks that have counted the latch
    down and not yet the items up ([commit_undercounts]).

    The invariant has three parts, each on the part of the state it needs:
    [futures_ok] (who waits for what), [latches_ok] (the counts) and
    [memory_ok] (which arena belongs to whom). *)

From S2P Require Import Prelude Values HashTable Collections Messages StoreHolder BdbKeys Kernel Security Server Threads.
From S2P Require Import Script.
Import Str AList DataObject DataObjectList Latch Flags.

Open Scope oes_scope.

(** ** Sums over lists *)

Definition total {A} (f : A → Z) (l : list A) : Z := foldr (λ x n, f x + n) 0 l.
Arguments total : simpl never.

Lemma total_cons {A} (f : A → Z) x l : total f (x :: l) = f x + total f l.
Proof. done. Qed.
Lemma total_app {A} (f : A → Z) l k : total f (l ++ k) = total f l + total f k.
Proof. induction l as [|x l IH]; [done|]. cbn [app]. rewrite !total_cons. lia. Qed.
Lemma total_snoc {A} (f : A → Z) l x : total f (l ++ [x]) = total f l + f x.
Proof. rewrite total_app, total_cons. change (total f []) with 0. lia. Qed.
Lemma total_insert {A} (f : A → Z) l i x y :
  l !! i = Some x → total f (<[i := y]> l) = total f l - f x + f y.
Proof.
  intros E. rewrite <-(take_drop_middle l i x E) at 2.
  rewrite (insert_take_drop l i y) by (by eapply lookup_lt_Some).
  rewrite !total_app, !total_cons. lia.
Qed.
Lemma total_ext {A} (f g : A → Z) l : (∀ x, x ∈ l → f x = g x) → total f l = total g l.
Proof.
  induction l as [|x l IH]; intros H; [done|]. rewrite !total_cons, (H x) by left.
  rewrite IH; [done|]. intros y Hy. apply H. by right.
Qed.
Lemma total_nonneg {A} (f : A → Z) l : (∀ x, x ∈ l → 0 ≤ f x) → 0 ≤ total f l.
Proof.
  induction l as [|x l IH]; intros H; [done|]. rewrite total_cons.
  assert (0 ≤ f x) by (apply H; left). assert (0 ≤ total f l); [|lia]. apply IH. intros y Hy. apply H. by right.
Qed.
Lemma total_zero {A} (f : A → Z) l : (∀ x, x ∈ l → 0 ≤ f x) → total f l = 0 → ∀ x, x ∈ l → f x = 0.
Proof.
  induction l as [|x l IH]; intros H E y Hy; [by apply elem_of_nil in Hy|]. rewrite total_cons in E.
  assert (0 ≤ f x) by (apply H; left).
  assert (0 ≤ total f l) by (apply total_nonneg; intros; apply H; by right).
  apply elem_of_cons in Hy as [->|Hy]; [lia|]. apply IH; [|lia|done]. intros z Hz. apply H. by right.
Qed.
Lemma total_nonzero {A} (f : A → Z) l : total f l ≠ 0 → ∃ x, x ∈ l ∧ f x ≠ 0.
Proof.
  induction l as [|x l IH]; [done|]. rewrite total_cons. intros H. destruct (Z.eq_dec (f x) 0) as [E|E].
  - destruct IH as (y & ? & ?); [lia|]. exists y. split; [by right|done].
  - exists x. split; [left|done].
Qed.

(** ** Views of the state *)

Definition fut_of (c : cell future) : option future := match c with Live f => Some f | _ => None end.
Definition fut (w : world) (tg : target) : option future :=
  match tg with
  | To_lease a => l ← leases w !! a; fut_of (lease_f l)
  | To_results a => l ← lists w !! a; fut_of (list_f l)
  | To_txn t => x ← txns w !! t; fut_of (txn_f x)
  end.
Definition joined (w : world) (tg : target) : option nat :=
  match tg with
  | To_lease a => l ← leases w !! a; lease_txn l
  | To_results a => l ← lists w !! a; list_txn l
  | To_txn _ => None
  end.
Definition ending_txn (w : world) : option nat := '(t, _, _, _) ← ending w; Some t.

Definition pending (j : job) : option target :=
  match j with Asked _ _ cb => Some (target_of cb) | Updating _ tg => Some tg | Finished => None end.

(** ** Futures and the jobs that will set them *)

Section futures.

Definition waiting_on (js : list job) (e : option nat) (tg : target) : Prop :=
  (∃ i j, js !! i = Some j ∧ pending j = Some tg) ∨ (∃ t, e = Some t ∧ tg = To_txn t).

Record futures_ok (fs : target → option future) (js : list job) (e : option nat) : Prop := {
  fo_unique i j i' j' tg :
    js !! i = Some j → js !! i' = Some j' → pending j = Some tg → pending j' = Some tg → i = i';
  fo_live tg : waiting_on js e tg → is_Some (fs tg);
  fo_done tg f : fs tg = Some f → Future.freed f = false ∧ (Future.done_ f = false ↔ waiting_on js e tg);
  fo_ending t i j : e = Some t → js !! i = Some j → pending j ≠ Some (To_txn t)
}.

Implicit Types (fs : target → option future) (js : list job).

Lemma waiting_snoc js e j tg : waiting_on (js ++ [j]) e tg ↔ waiting_on js e tg ∨ pending j = Some tg.
Proof.
  unfold waiting_on. split.
  - intros [(i & j' & E & P)|H]; [|by left; right].
    apply lookup_app_Some in E as [E|[_ E]]; [left; left; eauto|]. apply list_lookup_singleton_Some in E as [_ ->]. by right.
  - intros [[(i & j' & E & P)|H]|P]; [|by right|].
    + left. exists i, j'. split; [by apply lookup_app_l_Some|done].
    + left. exists (length js), j. split; [by apply list_lookup_middle|done].
Qed.

(** A job for a target nobody waits for, with a future not yet set *)
Lemma futures_add fs fs' js e j tg f :
  futures_ok fs js e → ¬ waiting_on js e tg → pending j = Some tg →
  (∀ tg', fs' tg' = if decide (tg' = tg) then Some f else fs tg') →
  Future.freed f = false → Future.done_ f = false →
  futures_ok fs' (js ++ [j]) e.
Proof.
  intros [Hu Hl Hd He] Hn Hp Hf Hfr Hdn. split.
  - intros i j1 i' j2 tg' E1 E2 P1 P2.
    apply lookup_app_Some in E1 as [E1|[L1 E1]], E2 as [E2|[L2 E2]].
    + by eapply Hu.
    + apply list_lookup_singleton_Some in E2 as [_ <-]. destruct Hn. left. exists i, j1. naive_solver.
    + apply list_lookup_singleton_Some in E1 as [_ <-]. destruct Hn. left. exists i', j2. naive_solver.
    + apply list_lookup_singleton_Some in E1 as [? _], E2 as [? _]. lia.
  - intros tg' W. rewrite Hf. case_decide; [done|]. apply Hl. apply waiting_snoc in W as [W|P]; [done|]. naive_solver.
  - intros tg' f'. rewrite Hf, waiting_snoc. case_decide as D.
    + intros [= <-]. subst. naive_solver.
    + intros E. destruct (Hd _ _ E) as [? Hiff]. split; [done|]. rewrite Hiff. naive_solver.
  - intros t i j' -> E P. apply lookup_app_Some in E as [E|[_ E]]; [by eapply He|].
    apply list_lookup_singleton_Some in E as [_ <-]. destruct Hn. right. naive_solver.
Qed.

(** A future that nobody waits for is dropped, or replaced by that of a
    transaction that is being ended. *)
Lemma futures_drop fs fs' js e tg :
  futures_ok fs js e → ¬ waiting_on js e tg →
  (∀ tg', fs' tg' = if decide (tg' = tg) then None else fs tg') → futures_ok fs' js e.
Proof.
  intros [Hu Hl Hd He] Hn Hf. split; [done| | |done].
  - intros tg' W. rewrite Hf. case_decide; [by subst|by apply Hl].
  - intros tg' f'. rewrite Hf. case_decide; [done|apply Hd].
Qed.

Lemma futures_ending fs fs' js t f :
  futures_ok fs js None → ¬ waiting_on js None (To_txn t) →
  (∀ tg', fs' tg' = if decide (tg' = To_txn t) then Some f else fs tg') →
  Future.freed f = false → Future.done_ f = false →
  futures_ok fs' js (Some t).
Proof.
  intros [Hu Hl Hd He] Hn Hf Hfr Hdn. split; [done| | |].
  - intros tg' W. rewrite Hf. case_decide; [done|]. apply Hl. destruct W as [W|(? & [= <-] & ->)]; [by left|done].
  - intros tg' f'. rewrite Hf. case_decide as D.
    + intros [= <-]. subst. split; [done|]. split; [intros _; right; by eauto|done].
    + intros E. destruct (Hd _ _ E) as [? Hiff]. split; [done|]. rewrite Hiff. unfold waiting_on. naive_solver.
  - intros t' i j [= <-] E P. destruct Hn. left. eauto.
Qed.

Lemma futures_ended fs js t j :
  futures_ok fs js (Some t) → pending j = Some (To_txn t) → futures_ok fs (js ++ [j]) None.
Proof.
  intros [Hu Hl Hd He] Hp.
  assert (∀ tg, waiting_on (js ++ [j]) None tg ↔ waiting_on js (Some t) tg) as Hw.
  { intros tg. rewrite waiting_snoc, Hp. unfold waiting_on. naive_solver. }
  split.
  - intros i j1 i' j2 tg' E1 E2 P1 P2.
    apply lookup_app_Some in E1 as [E1|[L1 E1]], E2 as [E2|[L2 E2]].
    + by eapply Hu.
    + apply list_lookup_singleton_Some in E2 as [_ <-]. destruct (He t i j1 eq_refl E1). congruence.
    + apply list_lookup_singleton_Some in E1 as [_ <-]. destruct (He t i' j2 eq_refl E2). congruence.
    + apply list_lookup_singleton_Some in E1 as [? _], E2 as [? _]. lia.
  - intros tg W. by apply Hl, Hw.
  - intros tg f E. rewrite Hw. by apply Hd.
  - done.
Qed.

(** A job goes on, for the same target *)
Lemma pending_insert js i j j' i' k :
  js !! i = Some j → pending j' = pending j → <[i := j']> js !! i' = Some k →
  ∃ k', js !! i' = Some k' ∧ pending k' = pending k.
Proof.
  intros E P. destruct (decide (i' = i)) as [->|].
  - rewrite list_lookup_insert_eq by (by eapply lookup_lt_Some). intros [= <-]. eauto.
  - rewrite list_lookup_insert_ne by done. eauto.
Qed.

Lemma futures_go_on fs js e i j j' :
  futures_ok fs js e → js !! i = Some j → pending j' = pending j → futures_ok fs (<[i := j']> js) e.
Proof.
  intros [Hu Hl Hd He] E P.
  assert (∀ tg, waiting_on (<[i := j']> js) e tg ↔ waiting_on js e tg) as Hw.
  { intros tg. unfold waiting_on. split; (intros [(i1 & k & Ek & Pk)|?]; [left|by right]).
    - destruct (pending_insert _ _ _ _ _ _ E P Ek) as (k' & ? & ?). exists i1, k'. split; congruence.
    - destruct (decide (i1 = i)) as [->|].
      + exists i, j'. rewrite list_lookup_insert_eq by (by eapply lookup_lt_Some). split; congruence.
      + exists i1, k. by rewrite list_lookup_insert_ne. }
  split.
  - intros i1 k1 i2 k2 tg E1 E2 P1 P2.
    destruct (pending_insert _ _ _ _ _ _ E P E1) as (k1' & ? & ?), (pending_insert _ _ _ _ _ _ E P E2) as (k2' & ? & ?).
    eapply (Hu i1 k1' i2 k2' tg); congruence.
  - intros tg W. by apply Hl, Hw.
  - intros tg f Ef. rewrite Hw. by apply Hd.
  - intros t i1 k Et E1. destruct (pending_insert _ _ _ _ _ _ E P E1) as (k' & ? & <-). by eapply He.
Qed.

(** A job sets its future and is finished *)
Lemma futures_finish fs fs' js e i j tg f :
  futures_ok fs js e → js !! i = Some j → pending j = Some tg →
  (∀ tg', fs' tg' = if decide (tg' = tg) then Some f else fs tg') →
  Future.freed f = false → Future.done_ f = true →
  futures_ok fs' (<[i := Finished]> js) e.
Proof.
  intros [Hu Hl Hd He] E P Hf Hfr Hdn.
  assert (∀ tg', waiting_on (<[i := Finished]> js) e tg' ↔ waiting_on js e tg' ∧ tg' ≠ tg) as Hw.
  { intros tg'. unfold waiting_on. split.
    - intros [(i1 & k & Ek & Pk)|(t & -> & ->)].
      + destruct (decide (i1 = i)) as [->|].
        * rewrite list_lookup_insert_eq in Ek by (by eapply lookup_lt_Some). by simplify_eq.
        * rewrite list_lookup_insert_ne in Ek by done. split; [left; eauto|]. intros ->. by destruct (Hu _ _ _ _ _ Ek E Pk P).
      + split; [right; eauto|]. intros <-. by destruct (He t i j eq_refl E).
    - intros [[(i1 & k & Ek & Pk)|?] Hne]; [left|by right]. exists i1, k. split; [|done].
      rewrite list_lookup_insert_ne; [done|]. intros ->. naive_solver. }
  split.
  - intros i1 k1 i2 k2 tg' E1 E2 P1 P2.
    destruct (decide (i1 = i)) as [->|]; [rewrite list_lookup_insert_eq in E1 by (by eapply lookup_lt_Some); by simplify_eq|].
    destruct (decide (i2 = i)) as [->|]; [rewrite list_lookup_insert_eq in E2 by (by eapply lookup_lt_Some); by simplify_eq|].
    rewrite list_lookup_insert_ne in E1, E2 by done. by eapply Hu.
  - intros tg' [W Hne]%Hw. rewrite Hf, decide_False by done. by apply Hl.
  - intros tg' f'. rewrite Hf, Hw. case_decide as D.
    + intros [= <-]. split; [done|]. split; [by rewrite Hdn|by intros []].
    + intros Ef. destruct (Hd _ _ Ef) as [? ->]. split; [done|]. split; [done|by intros []].
  - intros t i1 k Et E1. destruct (decide (i1 = i)) as [->|].
    + rewrite list_lookup_insert_eq in E1 by (by eapply lookup_lt_Some). by simplify_eq.
    + rewrite list_lookup_insert_ne in E1 by done. by eapply He.
Qed.

Lemma futures_ext fs fs' js e : futures_ok fs js e → (∀ tg, fs' tg = fs tg) → futures_ok fs' js e.
Proof. intros [] H. split; [done| | |done]; intros tg; rewrite H; auto. Qed.

End futures.

(** ** The latches of the transactions *)

(** A context whose answer counts for the transaction its object has joined *)
Definition enlists (c : OEK_Context) (cb : callback) : bool :=
  match cb with
  | oes_put_promise_cb _ => true
  | oes_get_promise_cb _ => match Messages.data (Kernel.cmd_msg c) with D_get_cmd cmd => GetCmd_remove cmd | _ => false end
  | _ => false
  end.

(** What a job has counted the first latch of [t] up by, and what it has
    still to count the second one up by *)
Definition is_down (t : nat) (u : update) : Z := match u with Down t' => Z.b2z (bool_decide (t' = t)) | Up _ => 0 end.
Definition is_up (t : nat) (u : update) : Z := match u with Up t' => Z.b2z (bool_decide (t' = t)) | Down _ => 0 end.
Definition weight (jn : target → option nat) (t : nat) (j : job) : Z :=
  match j with
  | Asked c _ cb => Z.b2z (enlists c cb && bool_decide (jn (target_of cb) = Some t))
  | Updating todo _ => total (is_down t) todo
  | Finished => 0
  end.
Definition ups (t : nat) (j : job) : Z := match j with Updating todo _ => total (is_up t) todo | _ => 0 end.
Definition counted (t : nat) (its : list (nat * Z)) : Z := total (λ p, if decide (p.1 = t) then p.2 else 0) its.

Definition txn_of (u : update) : nat := match u with Down t | Up t => t end.
Definition todo_live (txns : gmap nat OesTxn) (j : job) : Prop :=
  match j with Updating todo _ => Forall (λ u, is_Some (txns !! txn_of u)) todo | _ => True end.

Record latches_ok (jn : target → option nat) (js : list job) (txns : gmap nat OesTxn) (its : list (nat * Z)) (nx : nat) : Prop := {
  lo_count t x : txns !! t = Some x →
    _count (enlisted x) = total (weight jn t) js ∧ 0 ≤ _max_count (enlisted_counter x) ∧
    _max_count (enlisted_counter x) + total (ups t) js = counted t its;
  lo_few t : total (weight jn t) js ≤ Z.min (Z.of_nat nx) (2 ^ 31 - 1);
  lo_items : Forall (λ p, 0 ≤ p.2 ∧ is_Some (txns !! p.1)) its ∧ total snd its < 2 ^ 31;
  lo_joined tg t : jn tg = Some t → is_Some (txns !! t);
  lo_todo : Forall (todo_live txns) js
}.

Section latches.
Implicit Types (jn : target → option nat) (js : list job) (txns : gmap nat OesTxn) (its : list (nat * Z)).

Lemma is_down_nonneg t us : 0 ≤ total (is_down t) us.
Proof. apply total_nonneg. intros [] _; cbn; [case_bool_decide|]; done. Qed.
Lemma weight_nonneg jn t j : 0 ≤ weight jn t j.
Proof. destruct j as [c h cb|us tg|]; cbn; [by destruct (_ && _)|apply is_down_nonneg|done]. Qed.
Lemma ups_nonneg t j : 0 ≤ ups t j.
Proof. destruct j as [|us tg|]; cbn; [done| |done]. apply total_nonneg. intros [] _; cbn; [|case_bool_decide]; done. Qed.
Lemma total_weight_nonneg jn t js : 0 ≤ total (weight jn t) js.
Proof. apply total_nonneg. intros j _. apply weight_nonneg. Qed.
Lemma total_ups_nonneg t js : 0 ≤ total (ups t) js.
Proof. apply total_nonneg. intros j _. apply ups_nonneg. Qed.

Lemma counted_le t its : Forall (λ p : nat * Z, 0 ≤ p.2) its → 0 ≤ counted t its ≤ total snd its.
Proof.
  induction 1 as [|[t' n] its Hn H IH]; [done|]. unfold counted in *. rewrite !total_cons. cbn in *. case_decide; lia.
Qed.
Lemma counted_bound jn js txns its nx t : latches_ok jn js txns its nx → 0 ≤ counted t its < 2 ^ 31.
Proof.
  intros [_ _ [H Hb] _ _]. pose proof (counted_le t its) as Hc. destruct Hc; [|lia].
  eapply list.Forall_impl; [exact H|naive_solver].
Qed.

(** No job counts for a transaction that does not exist. *)
Lemma dead_weight txns jn t js :
  (∀ tg t, jn tg = Some t → is_Some (txns !! t)) → Forall (todo_live txns) js → txns !! t = None →
  total (weight jn t) js = 0 ∧ total (ups t) js = 0.
Proof.
  intros Hj Ht E. induction Ht as [|j js Hd Ht IH]; [done|]. rewrite !total_cons. destruct IH as [-> ->].
  assert (weight jn t j = 0 ∧ ups t j = 0) as [-> ->]; [|done].
  destruct j as [c h cb|us tg|]; cbn; [|clear -E Hd|done].
  - rewrite (bool_decide_eq_false_2 (jn _ = _)), andb_false_r; [done|]. intros [x Hx]%Hj. congruence.
  - cbn in Hd. induction Hd as [|u us [x Hx] Hd IH]; [done|]. rewrite !total_cons. destruct IH as [-> ->].
    destruct u as [t'|t']; cbn in *; case_bool_decide; subst; try congruence; done.
Qed.
Lemma dead_counted txns t its : Forall (λ p : nat * Z, 0 ≤ p.2 ∧ is_Some (txns !! p.1)) its → txns !! t = None → counted t its = 0.
Proof.
  intros H E. unfold counted. induction H as [|[t' n] its [_ [x Hx]] H IH]; [done|]. rewrite total_cons, IH. cbn in *.
  rewrite decide_False by congruence. lia.
Qed.

(** Objects that no job is about, and all of a transaction but its latches,
    may change. *)
Lemma latches_same jn jn' js txns txns' its nx nx' :
  latches_ok jn js txns its nx →
  (∀ j tg, j ∈ js → pending j = Some tg → jn' tg = jn tg) →
  (∀ tg t, jn' tg = Some t → is_Some (txns' !! t)) →
  (∀ t, is_Some (txns !! t) → is_Some (txns' !! t)) →
  (∀ t x', txns' !! t = Some x' →
     (∃ x, txns !! t = Some x ∧ enlisted x' = enlisted x ∧ enlisted_counter x' = enlisted_counter x) ∨
     txns !! t = None ∧ enlisted x' = Oec_CountdownLatch_new ∧ enlisted_counter x' = Oec_CountdownLatch_new) →
  (nx ≤ nx')%nat → latches_ok jn' js txns' its nx'.
Proof.
  intros [Hc Hf [Hi Hb] Hj Ht] Hjn Hj' Hd Hx Hn.
  assert (∀ t, total (weight jn' t) js = total (weight jn t) js) as Ew.
  { intros t. apply total_ext. intros [c h cb|us tg|] Hin; cbn; [|done..]. by rewrite (Hjn (Asked c h cb) _ Hin eq_refl). }
  split.
  - intros t x' E. rewrite Ew. destruct (Hx t x' E) as [(x & Ex & -> & ->)|(Ex & -> & ->)]; [by apply Hc|].
    destruct (dead_weight txns jn t js Hj Ht Ex) as [-> ->]. by rewrite (dead_counted txns t its Hi Ex).
  - intros t. rewrite Ew. pose proof (Hf t). lia.
  - split; [|done]. eapply list.Forall_impl; [exact Hi|]. naive_solver.
  - done.
  - eapply list.Forall_impl; [exact Ht|]. intros [|us tg|] H; cbn in *; [done| |done].
    eapply list.Forall_impl; [exact H|]. naive_solver.
Qed.

(** A context that counts for nothing is handed over. *)
Lemma latches_ask jn js txns its nx c h cb :
  latches_ok jn js txns its nx → enlists c cb = false ∨ jn (target_of cb) = None →
  latches_ok jn (js ++ [Asked c h cb]) txns its nx.
Proof.
  intros [Hc Hf Hi Hj Ht] H.
  assert (∀ t, weight jn t (Asked c h cb) = 0) as Ew.
  { intros t. cbn. destruct H as [->| ->]; [done|]. rewrite bool_decide_eq_false_2, andb_false_r; done. }
  split; [| | done | done |].
  - intros t x E. rewrite !total_snoc, Ew. cbn [ups]. rewrite !Z.add_0_r. by apply Hc.
  - intros t. rewrite total_snoc, Ew, Z.add_0_r. done.
  - apply Forall_app. split; [done|]. by repeat constructor.
Qed.

(** A context that counts for the transaction [t] is handed over. *)
Lemma latches_enlist jn js txns its nx c h cb t x :
  latches_ok jn js txns its nx → txns !! t = Some x → enlists c cb = true → jn (target_of cb) = Some t →
  Z.of_nat (S nx) < 2 ^ 31 →
  latches_ok jn (js ++ [Asked c h cb])
    (<[t := set_latches (Oec_CountdownLatch_increment (enlisted x)).2 (enlisted_counter x) x]> txns) its (S nx).
Proof.
  intros [Hc Hf [Hi Hb] Hj Ht] Ex He Hjn Hn.
  assert (∀ t', weight jn t' (Asked c h cb) = Z.b2z (bool_decide (t = t'))) as Ew.
  { intros t'. cbn. rewrite He, Hjn. cbn. f_equal. apply bool_decide_ext. split; congruence. }
  assert (∀ t', is_Some (txns !! t') →
    is_Some (<[t := set_latches (Oec_CountdownLatch_increment (enlisted x)).2 (enlisted_counter x) x]> txns !! t')) as Hd.
  { intros t' [y Hy]. destruct (decide (t' = t)) as [->|]; [by rewrite lookup_insert_eq|by rewrite lookup_insert_ne]. }
  split.
  - intros t' x' E. rewrite !total_snoc, Ew. cbn [ups]. rewrite Z.add_0_r. destruct (decide (t' = t)) as [->|Hne].
    + rewrite lookup_insert_eq in E. injection E as <-. destruct (Hc t x Ex) as (Hcount & Hm & Hmax).
      rewrite bool_decide_eq_true_2 by done. split; [|done]. cbn. rewrite Hcount.
      pose proof (total_weight_nonneg jn t js). pose proof (Hf t). rewrite wraps_id by (unfold in_s; lia). done.
    + rewrite lookup_insert_ne in E by done. rewrite bool_decide_eq_false_2 by done. cbn [Z.b2z]. rewrite Z.add_0_r. by apply Hc.
  - intros t'. rewrite total_snoc, Ew. pose proof (Hf t'). case_bool_decide; cbn [Z.b2z]; lia.
  - split; [|done]. eapply list.Forall_impl; [exact Hi|]. naive_solver.
  - naive_solver.
  - apply Forall_app. split; [|by repeat constructor].
    eapply list.Forall_impl; [exact Ht|]. intros [|us tg|] H; cbn in *; [done| |done].
    eapply list.Forall_impl; [exact H|]. naive_solver.
Qed.

(** A callback begins: what it counts is what it still has to count. *)
Lemma latches_answer jn js txns its nx i c h cb us new :
  latches_ok jn js txns its nx → js !! i = Some (Asked c h cb) →
  (∀ t, total (is_down t) us = weight jn t (Asked c h cb)) → (∀ t, total (is_up t) us = counted t new) →
  Forall (λ u, is_Some (txns !! txn_of u)) us →
  Forall (λ p, 0 ≤ p.2 ∧ is_Some (txns !! p.1)) new → total snd (its ++ new) < 2 ^ 31 →
  latches_ok jn (<[i := Updating us (target_of cb)]> js) txns (its ++ new) nx.
Proof.
  intros [Hc Hf [Hi Hb] Hj Ht] E Hd Hu Hl Hn Hb'. split.
  - intros t x Ex. rewrite !(total_insert _ _ _ _ _ E). unfold counted. rewrite total_app. fold (counted t its) (counted t new).
    destruct (Hc t x Ex) as (? & ? & ?). cbn [ups]. rewrite Hu. cbn [weight] in *. rewrite Hd. split_and!; lia.
  - intros t. rewrite (total_insert _ _ _ _ _ E). cbn [weight] in *. rewrite Hd. pose proof (Hf t). lia.
  - split; [|done]. by apply Forall_app.
  - done.
  - by apply Forall_insert.
Qed.

(** A callback makes an update. *)
Lemma latches_update jn js txns its nx i u us tg x :
  latches_ok jn js txns its nx → js !! i = Some (Updating (u :: us) tg) → txns !! txn_of u = Some x →
  latches_ok jn (<[i := Updating us tg]> js)
    (<[txn_of u :=
       match u with
       | Down _ => set_latches (Oec_CountdownLatch_decrement (enlisted x)).2 (enlisted_counter x) x
       | Up _ => set_latches (enlisted x) (Oec_CountdownLatch_increment (enlisted_counter x)).2 x
       end]> txns) its nx.
Proof.
  intros Hok E Ex. pose proof Hok as [Hc Hf [Hi Hb] Hj Ht].
  set (x' := match u with Down _ => _ | Up _ => _ end).
  assert (∀ t', is_Some (txns !! t') → is_Some (<[txn_of u := x']> txns !! t')) as Hd.
  { intros t' [y Hy]. destruct (decide (t' = txn_of u)) as [->|]; [by rewrite lookup_insert_eq|by rewrite lookup_insert_ne]. }
  assert (∀ t, total (weight jn t) (<[i := Updating us tg]> js) = total (weight jn t) js - is_down t u) as Ew.
  { intros t. rewrite (total_insert _ _ _ _ _ E). cbn [weight]. rewrite total_cons. lia. }
  assert (∀ t, total (ups t) (<[i := Updating us tg]> js) = total (ups t) js - is_up t u) as Eu.
  { intros t. rewrite (total_insert _ _ _ _ _ E). cbn [ups]. rewrite total_cons. lia. }
  split.
  - intros t y Ey. rewrite Ew, Eu.
    pose proof (total_weight_nonneg jn t (<[i := Updating us tg]> js)) as W0. rewrite Ew in W0.
    pose proof (total_ups_nonneg t (<[i := Updating us tg]> js)) as U0. rewrite Eu in U0.
    pose proof (counted_bound _ _ _ _ _ t Hok) as Hcb. pose proof (Hf t).
    destruct (decide (t = txn_of u)) as [->|Hne].
    + rewrite lookup_insert_eq in Ey. injection Ey as <-. destruct (Hc _ x Ex) as (Hcount & Hm & Hmax). unfold x'.
      destruct u as [t|t]; cbn in *; rewrite bool_decide_eq_true_2 in * by done; cbn [Z.b2z] in *; rewrite wraps_id by (unfold in_s; lia); lia.
    + rewrite lookup_insert_ne in Ey by done. destruct (Hc _ y Ey) as (Hcount & Hm & Hmax).
      destruct u as [t'|t']; cbn in *; rewrite ?bool_decide_eq_false_2 by done; cbn [Z.b2z]; lia.
  - intros t. rewrite Ew. pose proof (Hf t). assert (0 ≤ is_down t u); [|lia].
    destruct u; cbn; [case_bool_decide|]; done.
  - split; [|done]. eapply list.Forall_impl; [exact Hi|]. naive_solver.
  - naive_solver.
  - apply Forall_insert; [|].
    + eapply list.Forall_impl; [exact Ht|]. intros [|us' tg'|] H; cbn in *; [done| |done].
      eapply list.Forall_impl; [exact H|]. naive_solver.
    + pose proof (Forall_lookup_1 _ _ _ _ Ht E) as H. cbn in *. apply list.Forall_cons in H as [_ H].
      eapply list.Forall_impl; [exact H|]. naive_solver.
Qed.

Lemma latches_finish jn js txns its nx i tg :
  latches_ok jn js txns its nx → js !! i = Some (Updating [] tg) → latches_ok jn (<[i := Finished]> js) txns its nx.
Proof.
  intros [Hc Hf Hi Hj Ht] E. split; [| |done|done|].
  - intros t x Ex. rewrite !(total_insert _ _ _ _ _ E). cbn. unfold total at 2 4. cbn. rewrite !Z.add_0_r, !Z.sub_0_r. by apply Hc.
  - intros t. rewrite !(total_insert _ _ _ _ _ E). cbn. unfold total at 2. cbn. rewrite !Z.add_0_r, !Z.sub_0_r. by apply Hf.
  - by apply Forall_insert.
Qed.

End latches.

(** ** Arenas and objects *)

(** An arena belongs to a data object, to lists, or to the future of a lease
    or transaction. *)
Inductive owner := O_object (o : nat) | O_lists | O_target (tg : target).
Definition owner_of (tg : target) : owner := match tg with To_results _ => O_lists | _ => O_target tg end.

(** The results of a get share the arena of their future. *)
Definition results_ok (l : OesDataObjectList) : Prop :=
  list_f l = Null ∨ ∃ f r, list_f l = Live f ∧ list_arena l = Some r ∧ Future.arena f = Some (Z.of_nat r).

Record memory_ok (own : gmap nat owner) (w : world) : Prop := {
  mo_arenas r : r ∈ arenas w ↔ is_Some (own !! r);
  mo_objects o ob r : objects w !! o = Some ob → object_arena ob = Some r → own !! r = Some (O_object o);
  mo_lists a l r : lists w !! a = Some l → list_arena l = Some r → own !! r = Some O_lists;
  mo_futs tg f : fut w tg = Some f → ∃ r, Future.arena f = Some (Z.of_nat r) ∧ own !! r = Some (owner_of tg);
  mo_leases a l : leases w !! a = Some l → ∃ f, lease_f l = Live f;
  mo_txns t x : txns w !! t = Some x → ∃ f, txn_f x = Live f;
  mo_results a l : lists w !! a = Some l → results_ok l;
  mo_below r : is_Some (own !! r) → (r < next w)%nat;
  mo_keys a : is_Some (objects w !! a) ∨ is_Some (lists w !! a) ∨ is_Some (leases w !! a) ∨ is_Some (txns w !! a) →
    (a < next w)%nat
}.

Definition type_of (cb : callback) : OEK_MSG_TYPE :=
  match cb with
  | oes_put_promise_cb _ => PUT_CMD | oes_get_promise_cb _ => GET_CMD | oes_begin_promise_cb _ => STA_CMD
  | oes_upt_promise_cb _ => UPT_CMD | oes_upl_promise_cb _ => UPL_CMD
  end.

(** A context that is out, and the arena it lies in *)
Record out_ok (fs : target → option future) (ls : gmap nat OesDataObjectList) (c : OEK_Context) (home : nat) (cb : callback) : Prop := {
  oo_fresh : fresh_context c;
  oo_type : mtype (Kernel.cmd_msg c) = type_of cb;
  oo_home : ∃ f, fs (target_of cb) = Some f ∧ Future.arena f = Some (Z.of_nat home);
  oo_empty a l : cb = oes_get_promise_cb a → ls !! a = Some l → list_obj l = []
}.
Definition job_ok fs ls (j : job) : Prop := match j with Asked c home cb => out_ok fs ls c home cb | _ => True end.

Record good (w : world) : Prop := {
  g_futures : futures_ok (fut w) (jobs w) (ending_txn w);
  g_latches : latches_ok (joined w) (jobs w) (txns w) (items w) (next w);
  g_memory : ∃ own, memory_ok own w;
  g_jobs i j : jobs w !! i = Some j → job_ok (fut w) (lists w) j;
  g_ending t c home entered : ending w = Some (t, c, home, entered) →
    out_ok (fut w) (lists w) c home (oes_upt_promise_cb t);
  g_current t : currentTxn w = Some t → is_Some (txns w !! t);
  g_buffer : length (error_message w) = 256%nat
}.

(** ** The roles of the program and the kernel *)

(** No wait lasts the year that [OEC_FOREVER] stands for, or the month. *)
Definition in_time (forever entered now : Z) : Prop := now < stop_time forever entered OEC_FOREVER.

(** What the kernel calls back with: the context it got, with its answer.  The
    responses to a get carry their number. *)
Record answered (ctx c : OEK_Context) : Prop := {
  an_cmd : Kernel.cmd_msg c = Kernel.cmd_msg ctx;
  an_answers : answers 0 ctx (K_write c);
  an_text m e : err_msg c = Some m → Messages.data m = D_err e → is_Some (emessage e);
  an_number ms : res_msgs c = Some ms → mtype (Kernel.cmd_msg ctx) = GET_CMD →
    ∃ n, (∀ m r, m ∈ ms → Messages.data m = D_get_res r → nresults r = n) ∧
         (n = 0 ∧ length ms = 1%nat ∨ n = Z.of_nat (length ms))
}.
Definition size_of (c : OEK_Context) : Z := match res_msgs c with Some ms => Z.of_nat (length ms) | None => 1 end.

Definition allowed (w : world) (e : event) : Prop :=
  match e with
  | K_answer i c =>
    (∃ ctx home cb, jobs w !! i = Some (Asked ctx home cb) ∧ answered ctx c) ∧
    total snd (items w) + size_of c < 2 ^ 31
  | K_update i => ∃ us tg, jobs w !! i = Some (Updating us tg)
  | U_end_rest now => ∃ t c home entered, ending w = Some (t, c, home, entered) ∧ in_time OEC_MONTH entered now
  | _ =>
    ending w = None ∧ Z.of_nat (next w) < 2 ^ 31 - 4 ∧
    match e with
    | U_write o _ _ entered now =>
      (∃ ob, objects w !! o = Some ob ∧ object_arena ob ≠ None) ∧ in_time OEC_YEAR entered now
    | U_get v _ _ _ _ _ _ entered now =>
      (∃ l, lists w !! v = Some l ∧ list_f l = Null) ∧ in_time OEC_YEAR entered now
    | U_setCurrent t => ∀ x, t = Some x → is_Some (txns w !! x)
    | U_end t _ entered now => (∃ x, t = Some x ∧ is_Some (txns w !! x)) ∧ in_time OEC_YEAR entered now
    | U_cancel a entered now | U_delete_lease a entered now =>
      is_Some (leases w !! a) ∧ in_time OEC_YEAR entered now
    | U_delete_object o => is_Some (objects w !! o)
    | _ => True
    end
  end.
Definition script_step (w w' : world) : Prop := ∃ e, allowed w e ∧ step w e = Done w'.
Definition reachable (w : world) : Prop := rtc script_step start w.

Definition busy (w : world) : Prop := ∃ j, j ∈ jobs w ∧ j ≠ Finished.
Definition fine (w : world) (o : outcome world) : Prop :=
  match o with Done w' => good w' | Waits => busy w | Crash => False end.

(** ** Waiting, setting and freeing *)

Lemma pending_busy w tg : waiting_on (jobs w) None tg → busy w.
Proof.
  intros [(i & j & E & P)|(? & [=] & _)]. exists j. split; [by eapply list_elem_of_lookup_2|]. by intros ->.
Qed.

Lemma wait_ok w tg f entered now :
  good w → ending w = None → fut w tg = Some f → in_time OEC_YEAR entered now →
  (future_wait (Live f) entered now = Waits ∧ busy w) ∨
  (future_wait (Live f) entered now = Done () ∧ Future.done_ f = true ∧ ¬ waiting_on (jobs w) None tg).
Proof.
  intros G E Hf Ht. destruct (fo_done _ _ _ (g_futures _ G) tg f Hf) as [_ Hw].
  unfold ending_txn in Hw. rewrite E in Hw. cbn in Hw. unfold future_wait, Future.Oec_Future_getid, Future.getid_wake.
  destruct (Future.done_ f); [right|left].
  - split; [done|]. split; [done|]. intros W. by apply Hw in W.
  - unfold in_time in Ht. rewrite (proj2 (Z.leb_gt _ _) Ht). cbn. split; [done|]. by eapply pending_busy, Hw.
Qed.

Lemma free_ok w own f r tg :
  memory_ok own w → Future.done_ f = true → Future.arena f = Some (Z.of_nat r) → own !! r = Some (owner_of tg) →
  future_free (Live f) w = Done (Freed, set_arenas (arenas w ∖ {[r]}) w).
Proof.
  intros M Hd Ha Ho. unfold future_free, Future.Oec_Future_free. rewrite Hd. cbn. rewrite Ha, Nat2Z.id. unfold Arena_dispose.
  rewrite bool_decide_eq_true_2; [done|]. apply (mo_arenas _ _ M). by rewrite Ho.
Qed.

Definition set_done (f : future) : future :=
  Future.mkFuture (Future.arena f) 0 (Future.value f) true (Future.is_error f) (Future.freed f) (Future.alloc f).
Lemma future_set_ok w f :
  Future.done_ f = false → Future.freed f = false → future_set (Live f) w = Done (Live (set_done f), w).
Proof. intros Hd Hf. unfold set_done, future_set, Future.Oec_Future_set, Future._future_set. by rewrite Hd, Hf. Qed.

(** ** Handing a context over *)

Lemma job_ok_same fs fs' ls ls' j :
  job_ok fs ls j → (∀ tg, pending j = Some tg → fs' tg = fs tg) →
  (∀ a l', pending j = Some (To_results a) → ls' !! a = Some l' → ∃ l, ls !! a = Some l ∧ list_obj l' = list_obj l) →
  job_ok fs' ls' j.
Proof.
  destruct j as [c h cb|us tg|]; cbn; [|done..]. intros [H1 H2 H3 H4] Hf Hl. split; [done|done| |].
  - by rewrite Hf.
  - intros a l' -> E. destruct (Hl a l' eq_refl E) as (l & El & ->). by eapply H4.
Qed.

(** What is left to check when a new future comes with a new job *)
Record asks (w w' : world) (c : OEK_Context) (home : nat) (cb : callback) : Prop := {
  as_jobs : jobs w' = jobs w ++ [Asked c home cb];
  as_ending : ending w' = ending w;
  as_futures tg : fut w' tg = if decide (tg = target_of cb) then fut_of (new_future home) else fut w tg;
  as_lists a l' : lists w' !! a = Some l' → target_of cb ≠ To_results a → ∃ l, lists w !! a = Some l ∧ list_obj l' = list_obj l;
  as_fresh : fresh_context c;
  as_type : mtype (Kernel.cmd_msg c) = type_of cb;
  as_empty a l : cb = oes_get_promise_cb a → lists w' !! a = Some l → list_obj l = [];
  as_current t : currentTxn w' = Some t → is_Some (txns w' !! t);
  as_buffer : length (error_message w') = 256%nat
}.

Lemma asks_good w w' c home cb :
  good w → ending w = None → ¬ waiting_on (jobs w) None (target_of cb) → asks w w' c home cb →
  (∃ own, memory_ok own w') →
  latches_ok (joined w') (jobs w ++ [Asked c home cb]) (txns w') (items w') (next w') → good w'.
Proof.
  intros [Hf Hl Hm Hj He Hc Hb] En Hn [Ej Ee Ef El Hfr Ht Hem Hcu Hb'] Hm' Hl'.
  assert (ending_txn w = None ∧ ending_txn w' = None) as [E1 E2] by (unfold ending_txn; rewrite Ee, En; done).
  rewrite E1 in Hf. split; [|by rewrite Ej|done| | |done|done].
  - rewrite Ej, E2. eapply (futures_add (fut w) _ _ _ _ (target_of cb)); [done|done|done|exact Ef|done|done].
  - rewrite Ej. intros i j [E|[_ E]]%lookup_app_Some.
    + assert (∀ tg, pending j = Some tg → tg ≠ target_of cb) as Hne by (intros tg P ->; apply Hn; left; eauto).
      eapply job_ok_same; [by eapply Hj| |].
      * intros tg P. rewrite Ef, decide_False; [done|by apply Hne].
      * intros a l' P L. apply El; [done|]. symmetry. by apply Hne.
    + apply list_lookup_singleton_Some in E as [_ <-]. cbn. split; [done|done| |done].
      eexists. rewrite Ef, decide_True by done. split; [done|]. done.
  - intros t c' h e E. rewrite Ee, En in E. done.
Qed.

(** An address nothing lies at yet *)
Lemma fresh_none w own a :
  memory_ok own w → (next w ≤ a)%nat →
  objects w !! a = None ∧ lists w !! a = None ∧ leases w !! a = None ∧ txns w !! a = None ∧ own !! a = None.
Proof.
  intros M Ha.
  assert (∀ A (m : gmap nat A), (is_Some (m !! a) → (a < next w)%nat) → m !! a = None) as H.
  { intros A m H. destruct (m !! a) eqn:E; [|done]. assert (a < next w)%nat by (apply H; by rewrite ?E). lia. }
  split_and!; apply H; intros Hs; [apply (mo_keys _ _ M); auto..|by apply (mo_below _ _ M)].
Qed.

Lemma nobody_waits w own tg :
  good w → ending w = None → memory_ok own w →
  match tg with To_lease a | To_results a | To_txn a => (next w ≤ a)%nat end → ¬ waiting_on (jobs w) None tg.
Proof.
  intros G En M Ha W. pose proof (fo_live _ _ _ (g_futures _ G) tg) as Hl. unfold ending_txn in Hl. rewrite En in Hl.
  destruct (Hl W) as [f Hf]. destruct tg as [a|a|a]; cbn in Hf; destruct (fresh_none w own a M Ha) as (_ & E1 & E2 & E3 & _);
    rewrite ?E1, ?E2, ?E3 in Hf; done.
Qed.

(** The current transaction is waited for and counted up. *)
Definition count_up (ct : option nat) (m : gmap nat OesTxn) : gmap nat OesTxn :=
  match ct with
  | Some t => alter (λ x, set_latches (Oec_CountdownLatch_increment (enlisted x)).2 (enlisted_counter x) x) t m
  | None => m
  end.

Lemma alter_insert {A} (f : A → A) (m : gmap nat A) i x : m !! i = Some x → alter f i m = <[i := f x]> m.
Proof.
  intros E. apply map_eq. intros j. destruct (decide (j = i)) as [->|].
  - by rewrite lookup_alter_eq, lookup_insert_eq, E.
  - by rewrite lookup_alter_ne, lookup_insert_ne.
Qed.

Lemma script_join_ok w w1 en entered now :
  good w → ending w = None → in_time OEC_YEAR entered now → Z.of_nat (next w) < 2 ^ 31 - 4 →
  txns w1 = txns w → currentTxn w1 = currentTxn w →
  (join_txn en entered now w1 = Waits ∧ busy w) ∨
  ∃ tid, join_txn en entered now w1 =
    Done (currentTxn w, tid, set_txns (if en then count_up (currentTxn w) (txns w) else txns w) w1).
Proof.
  intros G En Ht Hn Et Ec.
  assert (w1 = set_txns (txns w) w1) as Ew by (destruct w1; cbn in *; by subst).
  unfold join_txn. rewrite Et, Ec. destruct (currentTxn w) as [t|] eqn:Ect.
  2: { right. exists 0. destruct en; cbn [count_up]; by rewrite <-Ew. }
  destruct (g_current _ G t Ect) as [x Ex]. rewrite Ex. cbn [safe mbind outcome_bind].
  destruct (g_memory _ G) as [own M]. destruct (mo_txns _ _ M t x Ex) as [f Ef]. rewrite Ef.
  assert (fut w (To_txn t) = Some f) as Hf by (cbn; rewrite Ex; cbn; by rewrite Ef).
  destruct (wait_ok w (To_txn t) f entered now G En Hf Ht) as [[-> B]|(-> & _)]; [by left|right].
  cbn [mbind outcome_bind]. exists (txn_tid x). destruct en; [|by rewrite <-Ew].
  destruct (lo_count _ _ _ _ _ (g_latches _ G) t x Ex) as (Hc & _). pose proof (lo_few _ _ _ _ _ (g_latches _ G) t).
  pose proof (total_weight_nonneg (joined w) t (jobs w)).
  unfold Oec_CountdownLatch_increment, _update. cbn. rewrite wraps_id by (unfold in_s; lia).
  rewrite (proj2 (Z.eqb_neq _ _)) by lia. cbn. rewrite (alter_insert _ _ _ x) by done. cbn.
  unfold Oec_CountdownLatch_increment, _update. cbn. by rewrite (wraps_id 32 (_count _ + 1)) by (unfold in_s; lia).
Qed.

(** Case analysis on the maps of a changed state *)
Ltac maps :=
  repeat match goal with
  | H : context [<[?i := _]> _ !! ?j] |- _ => rewrite (lookup_insert _ i j) in H
  | H : context [alter _ ?i _ !! ?j] |- _ => rewrite (lookup_alter _ _ i j) in H
  | H : context [delete ?i _ !! ?j] |- _ => rewrite (lookup_delete _ i j) in H
  | |- context [<[?i := _]> _ !! ?j] => rewrite (lookup_insert _ i j)
  | |- context [alter _ ?i _ !! ?j] => rewrite (lookup_alter _ _ i j)
  | |- context [delete ?i _ !! ?j] => rewrite (lookup_delete _ i j)
  | H : context [decide (?i = ?j)] |- _ => destruct (decide (i = j)); simplify_eq
  | |- context [decide (?i = ?j)] => destruct (decide (i = j)); simplify_eq
  end.

Lemma count_up_lookup ct m t x' :
  count_up ct m !! t = Some x' → ∃ x, m !! t = Some x ∧ txn_f x' = txn_f x.
Proof.
  destruct ct as [t'|]; cbn; [|by eauto]. rewrite lookup_alter. case_decide; [subst|by eauto].
  destruct (m !! t) as [x|]; [|done]. intros [= <-]. by exists x.
Qed.
Lemma count_up_some ct m t : is_Some (count_up ct m !! t) ↔ is_Some (m !! t).
Proof.
  destruct ct as [t'|]; cbn; [|done]. rewrite lookup_alter. case_decide; [subst|done]. by rewrite fmap_is_Some.
Qed.
Lemma count_up_fut ct m t : (x ← count_up ct m !! t; fut_of (txn_f x)) = (x ← m !! t; fut_of (txn_f x)).
Proof.
  destruct ct as [t'|]; cbn; [|done]. rewrite lookup_alter. case_decide; [subst|done]. by destruct (m !! t).
Qed.

(** The latches after an object has been made for the current transaction
    and its context handed over *)
Lemma latches_join w jn' tg en c h cb :
  good w → Z.of_nat (next w) < 2 ^ 31 - 4 → tg = target_of cb → ¬ waiting_on (jobs w) (ending_txn w) tg →
  (∀ tg', jn' tg' = if decide (tg' = tg) then currentTxn w else joined w tg') → enlists c cb = en →
  ∀ nx, (S (next w) ≤ nx)%nat → Z.of_nat nx < 2 ^ 31 - 1 →
  latches_ok jn' (jobs w ++ [Asked c h cb]) (if en then count_up (currentTxn w) (txns w) else txns w) (items w) nx.
Proof.
  intros G Hn -> Hw Hj He nx Hnx Hb.
  assert (latches_ok jn' (jobs w) (txns w) (items w) (next w)) as L.
  { eapply latches_same; [apply G|..]; [| |done| |done].
    - intros j tg Hin P. rewrite Hj, decide_False; [done|]. intros ->. apply Hw. left.
      apply list_elem_of_lookup_1 in Hin as [i Hi]. eauto.
    - intros tg t. rewrite Hj. case_decide; [apply G|apply (lo_joined _ _ _ _ _ (g_latches _ G))].
    - intros t x Ex. left. eauto. }
  assert (∀ ts, latches_ok jn' (jobs w ++ [Asked c h cb]) ts (items w) (S (next w)) →
    latches_ok jn' (jobs w ++ [Asked c h cb]) ts (items w) nx) as Hup.
  { intros ts L'. eapply latches_same; [exact L'|done|apply (lo_joined _ _ _ _ _ L')|done| |done].
    intros t x E. left. eauto. }
  destruct (currentTxn w) as [t|] eqn:Ec.
  - destruct en.
    + destruct (g_current _ G t Ec) as [x Ex]. apply Hup. cbn. rewrite (alter_insert _ _ _ x) by done.
      apply (latches_enlist _ _ _ _ _ _ _ _ _ _ L Ex He); [by rewrite Hj, decide_True|lia].
    + apply (latches_same jn' jn' _ (txns w) _ _ (next w)); [|done|apply (lo_joined _ _ _ _ _ L)|done| |lia].
      * apply latches_ask; [done|by left].
      * intros t' x E. left. eauto.
  - apply (latches_same jn' jn' _ (txns w) _ _ (next w)).
    + apply latches_ask; [done|]. right. by rewrite Hj, decide_True.
    + done.
    + destruct en; apply (lo_joined _ _ _ _ _ L).
    + by destruct en.
    + intros t' x E. left. destruct en; eauto.
    + lia.
Qed.

(** The object [tg] gets a new future with the arena [r]; the arenas of
    [own] that are not in [own0] were those of its old future. *)
Lemma memory_give own own0 w w' tg r :
  memory_ok own w →
  (∀ a x, own0 !! a = Some x → own !! a = Some x) →
  (∀ a x, own !! a = Some x → x ≠ owner_of tg ∨ owner_of tg = O_lists → own0 !! a = Some x) →
  (∀ tg', own0 !! r = Some (owner_of tg') → owner_of tg' = owner_of tg) →
  (∀ a, a ∈ arenas w' ↔ a = r ∨ is_Some (own0 !! a)) →
  (∀ o ob' r', objects w' !! o = Some ob' → object_arena ob' = Some r' →
     r' ≠ r ∧ ∃ ob, objects w !! o = Some ob ∧ object_arena ob = Some r') →
  (∀ a l' r', lists w' !! a = Some l' → list_arena l' = Some r' →
     (∃ l, lists w !! a = Some l ∧ list_arena l = Some r') ∧ (r' ≠ r ∨ owner_of tg = O_lists) ∨
     r' = r ∧ owner_of tg = O_lists) →
  (∀ tg', fut w' tg' = if decide (tg' = tg) then fut_of (new_future r) else fut w tg') →
  (∀ a l, leases w' !! a = Some l → ∃ f, lease_f l = Live f) →
  (∀ t x, txns w' !! t = Some x → ∃ f, txn_f x = Live f) →
  (∀ a l, lists w' !! a = Some l → results_ok l) →
  (next w ≤ next w')%nat → (r < next w')%nat →
  (∀ a, is_Some (objects w' !! a) ∨ is_Some (lists w' !! a) ∨ is_Some (leases w' !! a) ∨ is_Some (txns w' !! a) →
    (a < next w')%nat) →
  memory_ok (<[r := owner_of tg]> own0) w'.
Proof.
  intros M H0 H1 Hr Ha Ho Hl Hf Hle Htx Hres Hn Hrn Hk.
  assert (∀ a x, own !! a = Some x → a ≠ r → x ≠ owner_of tg ∨ owner_of tg = O_lists → <[r:=owner_of tg]> own0 !! a = Some x) as Hold.
  { intros a x E Hne Hx. rewrite lookup_insert_ne by done. by apply H1. }
  split; [| | | |done|done|done| |done].
  - intros a. rewrite Ha. destruct (decide (a = r)) as [->|].
    + rewrite lookup_insert_eq. split; [by eexists|by left].
    + rewrite lookup_insert_ne by done. naive_solver.
  - intros o ob' r' E1 E2. destruct (Ho o ob' r' E1 E2) as (Hne & ob & E3 & E4).
    apply Hold; [by eapply M|done|left; by destruct tg].
  - intros a l' r' E1 E2. destruct (Hl a l' r' E1 E2) as [[(l & E3 & E4) [Hne|Hne]]|[-> E]].
    + apply Hold; [by eapply M|done|]. destruct tg; [by left|by right|by left].
    + destruct (decide (r' = r)) as [->|]; [by rewrite lookup_insert_eq, Hne|]. apply Hold; [by eapply M|done|by right].
    + by rewrite lookup_insert_eq, E.
  - intros tg' f. rewrite Hf. case_decide as Hd.
    + subst. intros [= <-]. exists r. by rewrite lookup_insert_eq.
    + intros (r' & Er' & Eo)%(mo_futs _ _ M). exists r'. split; [done|].
      assert (owner_of tg' ≠ owner_of tg ∨ owner_of tg = O_lists) as Hx.
      { destruct tg, tg'; cbn; (by right) || (left; congruence). }
      destruct (decide (r' = r)) as [->|]; [|by apply Hold].
      rewrite lookup_insert_eq. f_equal. symmetry. apply Hr. by apply H1.
  - intros a. destruct (decide (a = r)) as [->|]; [done|]. rewrite lookup_insert_ne by done.
    intros [x E]. assert (a < next w)%nat; [|lia]. apply (mo_below _ _ M). eauto.
Qed.

(** ** The calls of the program *)

Lemma put_context_ok dur tid cid tuple d :
  ∃ c, put_context dur tid cid tuple d = Some c ∧ fresh_context c ∧ mtype (Kernel.cmd_msg c) = PUT_CMD.
Proof. eexists. split; [reflexivity|]. split; [|done]. by split. Qed.

Lemma write_fine w o dur tuple entered now :
  good w → allowed w (U_write o dur tuple entered now) → fine w (step w (U_write o dur tuple entered now)).
Proof.
  intros G (En & Hn & (ob & Eo & Ha) & Ht). destruct (object_arena ob) as [r|] eqn:Er; [|done].
  destruct (g_memory _ G) as [own M]. pose proof (mo_objects _ _ M _ _ _ Eo Er) as Eown.
  pose proof (mo_below _ _ M r ltac:(by eexists)) as Hbr.
  cbn [step]. unfold OesKernel_impl_write, fresh. cbn [mbind outcome_bind objects set_next]. rewrite Eo. cbn [safe mbind outcome_bind]. rewrite Er.
  cbn [safe mbind outcome_bind]. unfold Arena_alloc. cbn [arenas set_objects set_next].
  rewrite bool_decide_eq_true_2 by (apply (mo_arenas _ _ M); by rewrite Eown). cbn [c_assert safe mbind outcome_bind].
  destruct (script_join_ok w (set_objects (<[o:=mkOesDataObject None (object_obj ob)]> (objects w)) (set_next (S (next w)) w))
    true entered now G En Ht Hn eq_refl eq_refl) as [[-> B]|[tid ->]]; [exact B|].
  cbn [mbind outcome_bind next_cid].
  match goal with |- context [put_context ?a ?b ?c ?d ?e] => destruct (put_context_ok a b c d e) as (c0 & -> & Hc1 & Hc2) end.
  cbn [safe mbind outcome_bind fine].
  destruct (fresh_none w own (next w) M ltac:(lia)) as (N1 & N2 & N3 & N4 & N5).
  eapply (asks_good w _ c0 r (oes_put_promise_cb (next w))); [done|done| | | |].
  - eapply nobody_waits; [done|done|done|cbn; lia].
  - split; cbn; [done|done| |by eauto|done|done|done| |apply G].
    + intros [a|a|a]; cbn; maps; try done. by rewrite count_up_fut.
    + intros t E. apply count_up_some. by apply G.
  - eexists. apply (memory_give own own w _ (To_lease (next w)) r); cbn; [done|done|naive_solver| | | | | | | |apply M|lia|lia|].
    + intros tg' E. rewrite Eown in E. by destruct tg'.
    + intros a. rewrite (mo_arenas _ _ M). split; [by right|]. intros [->|?]; [by eexists|done].
    + intros o' ob' r' E1 E2. maps. split; [|eauto]. intros ->. pose proof (mo_objects _ _ M _ _ _ E1 E2). congruence.
    + intros a l r' E1 E2. left. split; [eauto|]. left. intros ->. pose proof (mo_lists _ _ M _ _ _ E1 E2). congruence.
    + intros [a|a|a]; cbn; maps; try done. by rewrite count_up_fut.
    + intros a l E. maps; [by eexists|by eapply M].
    + intros t x (y & ? & ->)%count_up_lookup. by eapply M.
    + intros a Hk. destruct (decide (a = next w)) as [->|]; [lia|]. assert (a < next w)%nat; [|lia].
      apply (mo_keys _ _ M). rewrite count_up_some in Hk. maps; naive_solver.
  - cbn. eapply (latches_join w _ (To_lease (next w)) true); [done|done|done| | |done|lia|lia].
    + unfold ending_txn. rewrite En. eapply nobody_waits; [done|done|done|cbn; lia].
    + intros [a|a|a]; cbn; maps; done.
Qed.

Lemma get_context_ok a tid cid timeout now destroy tuple values mx ra rb :
  ∃ c, get_context tid cid timeout now destroy tuple values mx ra rb = Some c ∧ fresh_context c ∧
    mtype (Kernel.cmd_msg c) = GET_CMD ∧ enlists c (oes_get_promise_cb a) = destroy.
Proof.
  unfold get_context. destruct (mx =? 0) eqn:Emx; destruct destroy, tuple, ra, rb;
    (eexists; split; [cbn; unfold GetCmd_set_max_responses; rewrite ?Emx; reflexivity|split; [by split|done]]).
Qed.

(** The state once a get has its arena [r] *)
Record get_ready (own : gmap nat owner) (w w1 : world) (r : nat) : Prop := {
  gr_same : jobs w1 = jobs w ∧ ending w1 = ending w ∧ objects w1 = objects w ∧ leases w1 = leases w ∧
            txns w1 = txns w ∧ currentTxn w1 = currentTxn w ∧ items w1 = items w ∧ error_message w1 = error_message w;
  gr_lists a l' : lists w1 !! a = Some l' → ∃ l, lists w !! a = Some l ∧ list_f l' = list_f l ∧
    list_obj l' = list_obj l ∧ (∀ r', list_arena l' = Some r' → list_arena l = Some r') ∧
    (list_f l = Null ∨ list_arena l' = list_arena l);
  gr_futures tg : fut w1 tg = fut w tg;
  gr_joined tg : joined w1 tg = joined w tg;
  gr_arenas a : a ∈ arenas w1 ↔ a = r ∨ is_Some (own !! a);
  gr_owner : own !! r = Some O_lists ∨ own !! r = None;
  gr_next : (r < next w1)%nat ∧ (next w ≤ next w1 ≤ S (next w))%nat
}.

Lemma get_rest own w w1 r timeout destroy tuple mx ra rb entered now values :
  good w → ending w = None → memory_ok own w → Z.of_nat (next w) < 2 ^ 31 - 4 → in_time OEC_YEAR entered now →
  get_ready own w w1 r →
  fine w ('(_, w) ← (
     _ ← Arena_alloc r w1;
     let '(holder, w) := fresh w1 in
     let results := OesKernel_impl_createOesDataObjectList r (new_future r) (currentTxn w) in
     '(_, tid, w) ← join_txn destroy entered now w;
     let '(cid, w) := next_cid w in
     context ← safe (get_context tid cid timeout now destroy tuple values mx ra rb);
     let w := set_lists (<[holder := results]> (lists w)) w in
     Done (holder, hand_over context r (oes_get_promise_cb holder) w)); Done w).
Proof.
  intros G En M Hn Ht [(Ej & Ee & Eo & El & Et & Ec & Ei & Em) Hl Hf Hj Ha Ho [Hr Hnx]].
  unfold Arena_alloc. rewrite bool_decide_eq_true_2 by (apply Ha; by left). cbn [c_assert safe mbind outcome_bind fresh].
  destruct (script_join_ok w (set_next (S (next w1)) w1) destroy entered now G En Ht Hn Et Ec) as [[-> B]|[tid ->]]; [exact B|].
  cbn [mbind outcome_bind next_cid].
  match goal with |- context [get_context ?a ?b ?c ?d ?e ?f ?g ?h ?i ?j] =>
    destruct (get_context_ok (next w1) a b c d e f g h i j) as (c0 & -> & Hc1 & Hc2 & Hc3) end.
  cbn [safe mbind outcome_bind fine].
  assert (¬ waiting_on (jobs w) None (To_results (next w1))) as Hw by (eapply nobody_waits; [done|done|done|cbn; lia]).
  eapply (asks_good w _ c0 r (oes_get_promise_cb (next w1))); [done|done|done| | |].
  - clear Hc3. split; cbn; rewrite ?Ej, ?Ee, ?Ec, ?Em; [done|done| | |done|done| | |apply G].
    + intros [a|a|a]; cbn; maps; try done.
      * exact (Hf (To_lease a)).
      * exact (Hf (To_results a)).
      * destruct destroy; [|done]. by rewrite count_up_fut.
    + intros a l' E Hne. maps. destruct (Hl a l' E) as (l & ? & ? & ? & ?). eauto.
    + intros a l' [= <-] E. maps. done.
    + intros t E. destruct destroy; [apply count_up_some|]; by apply G.
  - clear Hc3. eexists. apply (memory_give own own w _ (To_results (next w1)) r); cbn; rewrite ?Eo, ?El;
      [done|done|naive_solver| |done| | | |apply M| | |lia|lia|].
    + intros tg' E. destruct Ho as [Ho|Ho]; congruence.
    + intros o' ob' r' E1 E2. pose proof (mo_objects _ _ M _ _ _ E1 E2). split; [|eauto]. intros ->. destruct Ho; congruence.
    + intros a l' r' E1 E2. maps; [right; cbn in *; by simplify_eq|]. left. destruct (Hl a l' E1) as (l & ? & ? & ? & Hx & _). split; [|by right].
      exists l. auto.
    + intros [a|a|a]; cbn; maps; try done.
      * exact (Hf (To_lease a)).
      * exact (Hf (To_results a)).
      * destruct destroy; [|done]. by rewrite count_up_fut.
    + intros t x E. destruct destroy; [apply count_up_lookup in E as (y & ? & ->)|]; by eapply M.
    + intros a l' E. maps; [right; by do 2 eexists|]. destruct (Hl a l' E) as (l & E' & Ef & _ & _ & Ear). unfold results_ok.
      rewrite Ef. destruct (mo_results _ _ M a l E') as [Enull|(f & r' & ? & ? & ?)]; [by left|].
      destruct Ear as [?| ->]; [by left|]. right. by exists f, r'.
    + intros a Hk. destruct (decide (a = next w1)) as [->|]; [lia|]. assert (a < next w)%nat; [|lia].
      apply (mo_keys _ _ M). maps.
      destruct Hk as [?|[[l' E]|[?|Hk]]]; [by left| |by right; right; left|].
      * destruct (Hl a l' E) as (l & ? & _). right. left. by eexists.
      * right. right. right. destruct destroy; [by apply count_up_some in Hk|done].
  - cbn. rewrite Ei. eapply (latches_join w _ (To_results (next w1)) destroy); [done|done|done| | |done|lia|lia].
    + unfold ending_txn. by rewrite En.
    + clear Hc3. intros [a|a|a]; cbn; maps; try done.
      * exact (Hj (To_lease a)).
      * exact (Hj (To_results a)).
Qed.

Lemma get_fine w v timeout destroy tuple mx ra rb entered now :
  let e := U_get v timeout destroy tuple mx ra rb entered now in
  good w → allowed w e → fine w (step w e).
Proof.
  intros e G (En & Hn & (l & El & Ef) & Ht). destruct (g_memory _ G) as [own M].
  assert (step w e = '(_, w) ← _oes_get v timeout destroy tuple mx ra rb entered now w; Done w) as ->.
  { unfold e. cbn [step]. by destruct destroy. }
  unfold _oes_get. rewrite El.
  match goal with |- context [safe (Some l) ≫= ?f] => change (safe (Some l) ≫= f) with (f l) end. cbv beta.
  destruct (list_arena l) as [r|] eqn:Er.
  - pose proof (mo_lists _ _ M _ _ _ El Er) as Eown.
    refine (get_rest own w (set_lists (<[v:=set_list_arena None l]> (lists w)) w) r timeout destroy tuple mx ra rb entered now
      (list_obj l) G En M Hn Ht _).
    split; cbn; [done| | | | |by left|].
    + intros a l' E. maps; [exists l; rewrite Ef; by split_and!; [..|left]|]. exists l'. by split_and!; [..|right].
    + intros [a|a|a]; cbn; maps; try done. by rewrite El.
    + intros [a|a|a]; cbn; maps; try done. by rewrite El.
    + intros a. rewrite (mo_arenas _ _ M). split; [by right|]. intros [->|?]; [by eexists|done].
    + pose proof (mo_below _ _ M r ltac:(by eexists)). lia.
  - destruct (fresh_none w own (next w) M ltac:(lia)) as (_ & _ & _ & _ & N5).
    refine (get_rest own w (set_arenas ({[next w]} ∪ arenas w) (set_next (S (next w)) w)) (next w) timeout destroy tuple mx
      ra rb entered now (list_obj l) G En M Hn Ht _).
    split; cbn; [done| |done|done| |by right|lia]; [intros a l' E; exists l'; by split_and!; [..|right]|].
    intros a. rewrite elem_of_union, elem_of_singleton, (mo_arenas _ _ M). done.
Qed.

(** Calls that concern neither futures nor latches *)
Lemma aside_good w w' :
  good w → (∃ own, memory_ok own w') →
  jobs w' = jobs w → ending w' = ending w → items w' = items w → txns w' = txns w →
  (∀ tg, fut w' tg = fut w tg) → (∀ tg, joined w' tg = joined w tg) → (next w ≤ next w')%nat →
  (∀ a l', lists w' !! a = Some l' → fut w (To_results a) = None ∨ lists w !! a = Some l') →
  (∀ t, currentTxn w' = Some t → is_Some (txns w !! t)) → length (error_message w') = 256%nat → good w'.
Proof.
  intros G Hm Ej Ee Ei Et Hf Hj Hn Hl Hc Hb.
  assert (ending_txn w' = ending_txn w) as E by (unfold ending_txn; by rewrite Ee).
  assert (∀ j, (∀ tg, pending j = Some tg → is_Some (fut w tg)) → job_ok (fut w) (lists w) j → job_ok (fut w') (lists w') j) as Hjob.
  { intros j Hs H. eapply job_ok_same; [done|by intros; apply Hf|]. intros a l' P [E'|]%Hl; [|by eauto].
    destruct (Hs _ P) as [f Ef]. congruence. }
  split; [| |done| | |by rewrite Et|done].
  - rewrite Ej, E. by apply (futures_ext (fut w)); [apply G|].
  - rewrite Ej, Ei, Et. eapply (latches_same (joined w) _ _ (txns w)); [apply G|done| |done| |done].
    + intros tg t. rewrite Hj. apply (lo_joined _ _ _ _ _ (g_latches _ G)).
    + intros t x ?. left. eauto.
  - rewrite Ej. intros i j E'. apply Hjob; [|by eapply G].
    intros tg P. apply (fo_live _ _ _ (g_futures _ G)). left. eauto.
  - intros t c h en. rewrite Ee. intros E'. apply (Hjob (Asked c h (oes_upt_promise_cb t))); [|exact (g_ending _ G _ _ _ _ E')].
    intros tg [= <-]. apply (fo_live _ _ _ (g_futures _ G)). right. exists t. unfold ending_txn. by rewrite E'.
Qed.

Lemma object_fine w d : good w → allowed w (U_object d) → fine w (step w (U_object d)).
Proof.
  intros G (En & Hn & _). destruct (g_memory _ G) as [own M]. cbn.
  destruct (fresh_none w own (next w) M ltac:(lia)) as (N1 & _).
  destruct (fresh_none w own (S (next w)) M ltac:(lia)) as (_ & _ & _ & _ & N5).
  apply (aside_good w); cbn; [done| |done|done|done|done|done|done|lia|by right|apply G|apply G].
  exists (<[S (next w) := O_object (next w)]> own). split; cbn.
  - intros r. rewrite elem_of_union, elem_of_singleton, (mo_arenas _ _ M). maps; [naive_solver|].
    split; [intros [?|?]; [congruence|done]|by right].
  - intros o ob r E1 E2. maps; [done|cbn in *; congruence| |by eapply M].
    assert (own !! S (next w) = Some (O_object o)) by (by eapply M). congruence.
  - intros a l r E1 E2. assert (own !! r = Some O_lists) by (by eapply M). maps; congruence.
  - intros tg f (r & ? & ?)%(mo_futs _ _ M). exists r. split; [done|]. maps; congruence.
  - apply M.
  - apply M.
  - apply M.
  - intros r. maps; [lia|]. intros ?%(mo_below _ _ M). lia.
  - intros a. maps; [lia|]. intros ?%(mo_keys _ _ M). lia.
Qed.


Lemma list_fine w l : good w → allowed w (U_list l) → fine w (step w (U_list l)).
Proof.
  intros G (En & Hn & _). destruct (g_memory _ G) as [own M]. cbn.
  destruct (fresh_none w own (next w) M ltac:(lia)) as (_ & N1 & _).
  destruct (fresh_none w own (S (next w)) M ltac:(lia)) as (_ & _ & _ & _ & N5).
  match goal with |- good ?x => set (w' := x) end.
  assert (∀ tg, fut w' tg = fut w tg) as Hf by (intros [a|a|a]; cbn; maps; try done; by rewrite N1).
  assert (∀ tg, joined w' tg = joined w tg) as Hj by (intros [a|a|a]; cbn; maps; try done; by rewrite N1).
  apply (aside_good w); [done| |done|done|done|done|done|done|cbn; lia| |apply G|apply G].
  2: { cbn. intros a l' E. maps; [left; by rewrite N1|by right]. }
  exists (<[S (next w) := O_lists]> own). split.
  - intros r. cbn. rewrite elem_of_union, elem_of_singleton, (mo_arenas _ _ M). maps; [naive_solver|].
    split; [intros [?|?]; [congruence|done]|by right].
  - cbn. intros o ob r E1 E2. assert (own !! r = Some (O_object o)) by (by eapply M). maps; congruence.
  - cbn. intros a l' r E1 E2. maps; [done|cbn in *; congruence|done|by eapply M].
  - intros tg f. rewrite Hf. intros (r & ? & ?)%(mo_futs _ _ M). exists r. split; [done|]. maps; congruence.
  - apply M.
  - apply M.
  - cbn. intros a l' E. maps; [by left|by eapply (mo_results _ _ M)].
  - cbn. intros r. maps; [lia|]. intros ?%(mo_below _ _ M). lia.
  - cbn. intros a. maps; [lia|]. intros ?%(mo_keys _ _ M). lia.
Qed.

Lemma memory_same own w w' :
  memory_ok own w → arenas w' = arenas w → objects w' = objects w → lists w' = lists w → leases w' = leases w →
  txns w' = txns w → next w' = next w → memory_ok own w'.
Proof.
  intros [] E1 E2 E3 E4 E5 E6. split; rewrite ?E1, ?E2, ?E3, ?E4, ?E5, ?E6; try done.
  intros tg f. destruct tg; cbn; rewrite ?E3, ?E4, ?E5; [apply (mo_futs0 (To_lease _))|apply (mo_futs0 (To_results _))|apply (mo_futs0 (To_txn _))].
Qed.

Lemma current_fine w t : good w → allowed w (U_setCurrent t) → fine w (step w (U_setCurrent t)).
Proof.
  intros G (_ & _ & Ha). destruct (g_memory _ G) as [own M]. cbn.
  apply (aside_good w); cbn; [done| |done|done|done|done| | |done|by right|done|apply G].
  - exists own. by eapply memory_same.
  - by intros [].
  - by intros [].
Qed.

Lemma error_good w m s : good w → length m = 256%nat → good (set_error m s w).
Proof.
  intros G Hm. destruct (g_memory _ G) as [own M].
  apply (aside_good w); cbn; [done| |done|done|done|done| | |done|by right|apply G|done].
  - exists own. by eapply memory_same.
  - by intros [].
  - by intros [].
Qed.
Lemma throw_good w text : good w → good (throw_exception text w).
Proof.
  intros G. apply error_good; [done|]. rewrite length_app, strncpy_length, length_drop, (g_buffer _ G).
  destruct (Nat.ltb_spec (String.length text) 256); lia.
Qed.

Lemma delete_object_fine w o : good w → allowed w (U_delete_object o) → fine w (step w (U_delete_object o)).
Proof.
  intros G (En & Hn & [ob Eo]). destruct (g_memory _ G) as [own M]. cbn. unfold delete_OesDataObject. rewrite Eo.
  cbn [safe mbind outcome_bind].
  assert (∀ (s : gset nat) (own' : gmap nat owner), (∀ a, a ∈ s ↔ is_Some (own' !! a)) → (∀ a x, own !! a = Some x → x ≠ O_object o → own' !! a = Some x) →
    (∀ a, is_Some (own' !! a) → is_Some (own !! a)) → good (set_objects (delete o (objects w)) (set_arenas s w))) as H.
  { intros s own' Hs H1 H2. apply (aside_good w); cbn; [done| |done|done|done|done|by intros []|by intros []|done|by right|apply G|apply G].
    exists own'. split; cbn.
    - done.
    - intros o' ob' r E1 E2. maps. apply H1; [by eapply M|congruence].
    - intros a l r E1 E2. apply H1; [by eapply M|done].
    - intros tg f (r & ? & ?)%(mo_futs _ _ M). exists r. split; [done|]. apply H1; [done|by destruct tg].
    - apply M.
    - apply M.
    - apply M.
    - intros r Hr. by apply (mo_below _ _ M), H2.
    - intros a Ha. apply (mo_keys _ _ M). maps; [|done]. destruct Ha as [Ha|Ha]; [by destruct Ha|by right]. }
  destruct (object_arena ob) as [r|] eqn:Er.
  - pose proof (mo_objects _ _ M _ _ _ Eo Er) as Eown. unfold Arena_dispose.
    rewrite bool_decide_eq_true_2 by (apply (mo_arenas _ _ M); by rewrite Eown). cbn.
    apply (H _ (delete r own)).
    + intros a. rewrite elem_of_difference, elem_of_singleton, (mo_arenas _ _ M). maps; [|naive_solver].
      split; [by intros []|by intros []].
    + intros a x E Hx. maps; congruence.
    + intros a. maps; [by intros []|done].
  - cbn. destruct w. apply (H _ own); [apply M|done|done].
Qed.

Lemma begin_fine w dur junk : good w → allowed w (U_begin dur junk) → fine w (step w (U_begin dur junk)).
Proof.
  intros G (En & Hn & _). destruct (g_memory _ G) as [own M].
  destruct (fresh_none w own (next w) M ltac:(lia)) as (N1 & N2 & N3 & N4 & N5).
  destruct (fresh_none w own (S (next w)) M ltac:(lia)) as (N1' & N2' & N3' & N4' & N5').
  cbn. match goal with |- context [OekMsg_get_sta_cmd ?m] => change (OekMsg_get_sta_cmd m) with (Some StaCmd_new) end.
  cbn [safe mbind outcome_bind fine]. match goal with |- good (hand_over ?c _ _ _) => set (c0 := c) end.
  match goal with |- good ?x => set (w' := x) end.
  assert (¬ waiting_on (jobs w) None (To_txn (next w))) as Hw by (eapply nobody_waits; [done|done|done|cbn; lia]).
  assert (∀ tg, fut w' tg = if decide (tg = To_txn (next w)) then fut_of (new_future (S (next w))) else fut w tg) as Hf.
  { intros [a|a|a]; cbn; maps; done. }
  eapply (asks_good w _ c0 (S (next w)) (oes_begin_promise_cb (next w))); [done|done|done| | |].
  - split; [done|done|exact Hf|by eauto|by split|done|done| |apply G].
    intros t [= <-]. cbn. maps. by eexists.
  - eexists. apply (memory_give own own w _ (To_txn (next w)) (S (next w))); [done|done|naive_solver| | | | |exact Hf| | | |cbn; lia|cbn; lia|].
    + intros tg'. by rewrite N5'.
    + intros a. cbn. rewrite elem_of_union, elem_of_singleton, (mo_arenas _ _ M). done.
    + cbn. intros o ob r E1 E2. split; [|eauto]. intros ->. pose proof (mo_objects _ _ M _ _ _ E1 E2). congruence.
    + cbn. intros a l r E1 E2. left. split; [eauto|]. left. intros ->. pose proof (mo_lists _ _ M _ _ _ E1 E2). congruence.
    + apply M.
    + cbn. intros t x E. maps; [by eexists|by eapply M].
    + apply M.
    + cbn. intros a Ha. destruct (decide (a = next w)) as [->|]; [lia|]. assert (a < next w)%nat; [|lia].
      apply (mo_keys _ _ M). maps; naive_solver.
  - cbn. apply latches_ask; [|by left].
    eapply (latches_same (joined w) _ _ (txns w)); [apply G| | | | |lia].
    + intros j tg Hin P. by destruct tg.
    + intros tg t E. maps; [by eexists|]. apply (lo_joined _ _ _ _ _ (g_latches _ G) tg). by destruct tg.
    + intros t. maps; [by eexists|done].
    + intros t x E. maps; [right; done|left; eauto].
Qed.

(** The arena of a future that is freed *)
Definition without (own : gmap nat owner) (r : nat) : gmap nat owner := delete r own.

Lemma without_arenas own w r a :
  memory_ok own w → a ∈ arenas w ∖ {[r]} ↔ is_Some (without own r !! a).
Proof.
  intros M. rewrite elem_of_difference, elem_of_singleton, (mo_arenas _ _ M). unfold without. maps; [|naive_solver].
  split; [by intros []|by intros []].
Qed.
Lemma without_sub own r a x : without own r !! a = Some x → own !! a = Some x.
Proof. unfold without. maps; done. Qed.
Lemma without_other own r tg a x :
  own !! r = Some (owner_of tg) → own !! a = Some x → x ≠ owner_of tg → without own r !! a = Some x.
Proof. intros E1 E2 Hx. unfold without. maps; congruence. Qed.

(** The replacement of the future of a lease or a transaction by a new one
    with a new arena *)
Lemma memory_renew own w w' tg r :
  memory_ok own w → own !! r = Some (owner_of tg) → (∀ a, tg ≠ To_results a) →
  (∀ a, a ∈ arenas w' ↔ a = next w ∨ a ∈ arenas w ∖ {[r]}) →
  objects w' = objects w → lists w' = lists w → next w' = S (next w) →
  (∀ tg', fut w' tg' = if decide (tg' = tg) then fut_of (new_future (next w)) else fut w tg') →
  (∀ a l, leases w' !! a = Some l → is_Some (leases w !! a) ∧ ∃ f, lease_f l = Live f) →
  (∀ t x, txns w' !! t = Some x → is_Some (txns w !! t) ∧ ∃ f, txn_f x = Live f) →
  ∃ own', memory_ok own' w'.
Proof.
  intros M Er Htg Ha Eo El En Hf Hle Htx. destruct (fresh_none w own (next w) M ltac:(lia)) as (_ & _ & _ & _ & N5).
  assert (owner_of tg ≠ O_lists) as Hno by (destruct tg; [done|by destruct (Htg a)|done]).
  eexists. apply (memory_give own (without own r) w w' tg (next w)); rewrite ?Eo, ?El, ?En.
  - done.
  - apply without_sub.
  - intros a x E [Hx|Hx]; [by eapply without_other|done].
  - intros tg' E%without_sub. congruence.
  - intros a. by rewrite Ha, without_arenas.
  - intros o ob r' E1 E2. split; [|eauto]. intros ->. pose proof (mo_objects _ _ M _ _ _ E1 E2). congruence.
  - intros a l r' E1 E2. left. split; [eauto|]. left. intros ->. pose proof (mo_lists _ _ M _ _ _ E1 E2). congruence.
  - done.
  - intros a l E. by eapply Hle.
  - intros t x E. by eapply Htx.
  - apply M.
  - lia.
  - lia.
  - intros a Hk. assert (a < next w)%nat; [|lia]. apply (mo_keys _ _ M). destruct Hk as [?|[?|[[l E]|[x E]]]]; [by left|by right; left| |].
    + right. right. left. by eapply Hle.
    + right. right. right. by eapply Htx.
Qed.

Lemma cancel_fine w a entered now : good w → allowed w (U_cancel a entered now) → fine w (step w (U_cancel a entered now)).
Proof.
  intros G (En & Hn & [l El] & Ht). destruct (g_memory _ G) as [own M].
  destruct (mo_leases _ _ M a l El) as [f Ef].
  assert (fut w (To_lease a) = Some f) as Hf by (cbn; rewrite El; cbn; by rewrite Ef).
  destruct (mo_futs _ _ M _ _ Hf) as (r & Er & Eown).
  cbn [step]. unfold OesKernel_impl_upl_cancel. rewrite El. cbn [safe mbind outcome_bind]. rewrite Ef.
  destruct (wait_ok w (To_lease a) f entered now G En Hf Ht) as [[-> B]|(-> & Hd & Hw)]; [exact B|]. cbn [mbind outcome_bind].
  rewrite (free_ok w own f r (To_lease a) M Hd Er Eown). cbn [mbind outcome_bind Arena_new fresh next set_arenas].
  change _new_upl_cmd_context with (Some (_new_oek_context (mkOekMsg UPL_CMD 0 0 true (D_upl_cmd UplCmd_new)))).
  cbn [safe mbind outcome_bind]. match goal with |- context [OekMsg_get_upl_cmd ?m] => change (OekMsg_get_upl_cmd m) with (Some UplCmd_new) end.
  cbn [safe mbind outcome_bind next_cid fine]. match goal with |- good (hand_over ?c _ _ _) => set (c0 := c) end.
  match goal with |- good ?x => set (w' := x) end.
  assert (∀ tg, fut w' tg = if decide (tg = To_lease a) then fut_of (new_future (next w)) else fut w tg) as Hf'.
  { intros [b|b|b]; cbn; maps; done. }
  eapply (asks_good w _ c0 (next w) (oes_upl_promise_cb a)); [done|done|done| | |].
  - split; [done|done|exact Hf'|by eauto|by split|done|done|apply G|apply G].
  - apply (memory_renew own w w' (To_lease a) r); cbn; try done.
    + intros b. by rewrite elem_of_union, elem_of_singleton.
    + intros b l' E. maps; [split; by eexists|]. split; [by eexists|by eapply M].
    + intros t x E. split; [by eexists|by eapply M].
  - cbn. apply latches_ask; [|by left].
    assert (∀ tg, joined w' tg = joined w tg) as Hj by (intros [b|b|b]; cbn; maps; try done; by rewrite El).
    eapply (latches_same (joined w) _ _ (txns w)); [apply G| | |done| |lia].
    + intros j tg _ _. apply Hj.
    + intros tg t. rewrite Hj. apply (lo_joined _ _ _ _ _ (g_latches _ G)).
    + intros t x E. left. eauto.
Qed.

Lemma delete_lease_fine w a entered now :
  good w → allowed w (U_delete_lease a entered now) → fine w (step w (U_delete_lease a entered now)).
Proof.
  intros G (En & Hn & [l El] & Ht). destruct (g_memory _ G) as [own M].
  destruct (mo_leases _ _ M a l El) as [f Ef].
  assert (fut w (To_lease a) = Some f) as Hf by (cbn; rewrite El; cbn; by rewrite Ef).
  destruct (mo_futs _ _ M _ _ Hf) as (r & Er & Eown).
  cbn [step]. unfold delete_OesLease. rewrite El. cbn [safe mbind outcome_bind]. rewrite Ef.
  destruct (wait_ok w (To_lease a) f entered now G En Hf Ht) as [[-> B]|(-> & Hd & Hw)]; [exact B|]. cbn [mbind outcome_bind].
  rewrite (free_ok w own f r (To_lease a) M Hd Er Eown). cbn [mbind outcome_bind fine].
  match goal with |- good ?x => set (w' := x) end.
  assert (∀ tg, fut w' tg = if decide (tg = To_lease a) then None else fut w tg) as Hf'.
  { intros [b|b|b]; cbn; maps; done. }
  assert (∀ tg, tg ≠ To_lease a → joined w' tg = joined w tg) as Hj by (intros [b|b|b] Hne; cbn; maps; done).
  assert (∀ i j tg, jobs w !! i = Some j → pending j = Some tg → tg ≠ To_lease a) as Hne.
  { intros i j tg E P ->. apply Hw. left. eauto. }
  assert (ending_txn w = None) as Ee by (unfold ending_txn; by rewrite En).
  split.
  - apply (futures_drop (fut w) _ (jobs w) _ (To_lease a)); [apply G| |exact Hf'].
    change (ending_txn w') with (ending_txn w). by rewrite Ee.
  - eapply (latches_same (joined w) _ _ (txns w)); [apply G| | |done| |done].
    + intros j tg [i E]%list_elem_of_lookup_1 P. apply Hj. by eapply Hne.
    + intros tg t E. destruct (decide (tg = To_lease a)) as [->|].
      * cbn in E. maps.
      * rewrite Hj in E by done. by apply (lo_joined _ _ _ _ _ (g_latches _ G) tg).
    + intros t x E. left. eauto.
  - exists (without own r). split.
    + intros b. by apply without_arenas.
    + intros o ob r' E1 E2. eapply without_other; [done|by eapply M|done].
    + intros b l' r' E1 E2. eapply without_other; [done|by eapply M|done].
    + intros tg f'. rewrite Hf'. case_decide; [done|]. intros (r' & ? & ?)%(mo_futs _ _ M). exists r'. split; [done|].
      eapply without_other; [done|done|]. destruct tg; cbn; congruence.
    + cbn. intros b l' E. maps. by eapply M.
    + apply M.
    + apply M.
    + intros b [x E%without_sub]. by apply (mo_below _ _ M).
    + cbn. intros b Hk. apply (mo_keys _ _ M). maps; [|done]. naive_solver.
  - intros i j E. eapply job_ok_same; [by eapply G| |by eauto].
    intros tg P. rewrite Hf', decide_False; [done|by eapply Hne].
  - intros t c h e E. cbn in E. congruence.
  - apply G.
  - apply G.
Qed.

Lemma end_fine w t commit entered now :
  good w → allowed w (U_end t commit entered now) → fine w (step w (U_end t commit entered now)).
Proof.
  intros G0 (En0 & Hn0 & (t0 & -> & [x Ex0]) & Ht). set (t := t0) in *. clearbody t.
  assert (step w (U_end (Some t) commit entered now) = _oes_upt_txn (Some t) (if commit then COMMITTED else ROLLEDBACK) entered now w)
    as -> by (by destruct commit).
  unfold _oes_upt_txn. cbn [safe mbind outcome_bind]. rewrite Ex0. cbn [safe mbind outcome_bind].
  set (w1 := if txn_status x =? status_code ACTIVE then w else throw_exception "null txn is not active" w).
  assert (good w1 ∧ jobs w1 = jobs w ∧ ending w1 = ending w ∧ next w1 = next w ∧ txns w1 = txns w) as (G & Ej & En & Hn & Ex).
  { unfold w1. destruct (_ =? _); [done|]. split; [by apply throw_good|done]. }
  assert (∀ o, fine w1 o → fine w o) as Hfine by (intros []; cbn; [done| |done]; unfold busy; by rewrite Ej).
  apply Hfine. rewrite En0 in En. rewrite <-Hn in Hn0. rewrite <-Ex in Ex0. clear G0 Ej En0 Hn Ex Hfine. clearbody w1. clear w.
  rename w1 into w, G into G. destruct (g_memory _ G) as [own M].
  destruct (mo_txns _ _ M t x Ex0) as [f Ef].
  assert (fut w (To_txn t) = Some f) as Hf by (cbn; rewrite Ex0; cbn; by rewrite Ef).
  destruct (mo_futs _ _ M _ _ Hf) as (r & Er & Eown). rewrite Ef.
  destruct (wait_ok w (To_txn t) f entered now G En Hf Ht) as [[-> B]|(-> & Hd & Hw)]; [exact B|]. cbn [mbind outcome_bind].
  rewrite (free_ok w own f r (To_txn t) M Hd Er Eown). cbn [mbind outcome_bind Arena_new fresh next set_arenas].
  change _new_upt_cmd_context with (Some (_new_oek_context (mkOekMsg UPT_CMD 0 0 true (D_upt_cmd UptCmd_new)))).
  cbn [safe mbind outcome_bind]. match goal with |- context [OekMsg_get_upt_cmd ?m] => change (OekMsg_get_upt_cmd m) with (Some UptCmd_new) end.
  cbn [safe mbind outcome_bind next_cid fine]. match goal with |- good ?x => set (w' := x) end.
  assert (∀ tg, fut w' tg = if decide (tg = To_txn t) then fut_of (new_future (next w)) else fut w tg) as Hf'.
  { intros [b|b|b]; cbn; maps; done. }
  assert (ending_txn w = None ∧ ending_txn w' = Some t) as [Ee Ee'] by (unfold ending_txn; by rewrite En).
  assert (∀ i j tg, jobs w !! i = Some j → pending j = Some tg → tg ≠ To_txn t) as Hne.
  { intros i j tg E P ->. apply Hw. left. eauto. }
  split.
  - rewrite Ee'. eapply (futures_ending (fut w)); [|exact Hw|exact Hf'|done|done]. rewrite <-Ee. apply G.
  - assert (∀ tg, joined w' tg = joined w tg) as Hj by (by intros []).
    eapply (latches_same (joined w) _ _ (txns w)); [apply G| | | | |cbn; lia].
    + intros j tg _ _. apply Hj.
    + intros tg t' E. rewrite Hj in E. apply (lo_joined _ _ _ _ _ (g_latches _ G)) in E. cbn. maps; [by eexists|done].
    + intros t' E. cbn. maps; [by eexists|done].
    + intros t' x' E. left. cbn in E. maps; eauto.
  - apply (memory_renew own w w' (To_txn t) r); try done.
    + intros b. cbn. by rewrite elem_of_union, elem_of_singleton.
    + intros b l' E. split; [by eexists|by eapply M].
    + cbn. intros t' x' E. maps; [split; by eexists|]. split; [by eexists|by eapply M].
  - intros i j E. eapply job_ok_same; [by eapply G| |by eauto]. intros tg P. rewrite Hf', decide_False; [done|by eapply Hne].
  - intros t' c h e [= <- <- <- <-]. split; [by split|done| |done].
    eexists. cbn [target_of]. rewrite Hf', decide_True by done. split; [done|]. done.
  - intros t' E. cbn in *. apply (g_current _ G) in E. maps; [by eexists|done].
  - apply G.
Qed.

Lemma end_rest_fine w now : good w → allowed w (U_end_rest now) → fine w (step w (U_end_rest now)).
Proof.
  intros G (t & c & h & entered & En & Ht). destruct (g_memory _ G) as [own M].
  destruct (g_ending _ G _ _ _ _ En) as [Hfr Hty (f & Hf & Hh) _].
  assert (is_Some (txns w !! t)) as [x Ex] by (cbn in Hf; destruct (txns w !! t); [by eexists|done]).
  destruct (lo_count _ _ _ _ _ (g_latches _ G) t x Ex) as (Hc & _).
  cbn [step]. unfold upt_rest. rewrite En. cbn [safe mbind outcome_bind]. rewrite Ex. cbn [safe mbind outcome_bind].
  unfold Oec_CountdownLatch_get, wait_zero. unfold in_time in Ht. rewrite (proj2 (Z.leb_gt _ _) Ht).
  destruct (Z.eqb_spec (_count (enlisted x)) 0) as [E0|E0]; cbn [mbind option_bind].
  2: { rewrite Hc in E0. apply total_nonzero in E0 as (j & Hin & Hj). exists j. split; [done|]. by intros ->. }
  rewrite E0. cbn [Z.eqb]. change (1 =? 1)%positive with true. cbn [c_assert safe mbind outcome_bind].
  assert (∃ cmd, OekMsg_get_upt_cmd (Kernel.cmd_msg c) = Some cmd) as [cmd ->].
  { pose proof (fc_wf _ Hfr) as Hwf. unfold msg_wf, OekMsg_get_upt_cmd in *. rewrite Hty in *. cbn in *.
    destruct (Messages.data (Kernel.cmd_msg c)); try done. by eexists. }
  cbn [safe mbind outcome_bind fine]. match goal with |- good (hand_over ?a _ _ _) => set (c0 := a) end.
  match goal with |- good ?x => set (w' := x) end.
  assert (∀ tg, fut w' tg = fut w tg) as Hf' by (by intros []).
  assert (∀ tg, joined w' tg = joined w tg) as Hj by (by intros []).
  assert (ending_txn w = Some t ∧ ending_txn w' = None) as [Ee Ee'] by (unfold ending_txn; by rewrite En).
  assert (out_ok (fut w') (lists w') c0 h (oes_upt_promise_cb t)) as Hout.
  { destruct Hfr as [F1 F2 F3 F4]. split; [|done| |done].
    - split; [|done..]. unfold msg_wf. cbn. by rewrite Hty.
    - exists f. by rewrite Hf'. }
  split.
  - rewrite Ee'. apply (futures_ext (fut w)); [|done]. apply (futures_ended _ _ t); [|done]. rewrite <-Ee. apply G.
  - cbn. apply latches_ask; [|by left]. eapply (latches_same (joined w) _ _ (txns w)); [apply G|by intros; apply Hj| |done| |done].
    + intros tg t'. rewrite Hj. apply (lo_joined _ _ _ _ _ (g_latches _ G)).
    + intros t' x' E. left. eauto.
  - exists own. by apply (memory_same own w).
  - intros i j [E|[_ E]]%lookup_app_Some.
    + eapply job_ok_same; [by eapply G|by intros; apply Hf'|by eauto].
    + apply list_lookup_singleton_Some in E as [_ <-]. exact Hout.
  - done.
  - done.
  - apply G.
Qed.

(** ** The callbacks of the kernel *)

(** What is left to check of a callback's first part *)
Record answers_to (w w' : world) (i : nat) (cb : callback) (us : list update) (new : list (nat * Z)) : Prop := {
  at_jobs : jobs w' = <[i := Updating us (target_of cb)]> (jobs w);
  at_same : ending w' = ending w ∧ arenas w' = arenas w ∧ objects w' = objects w ∧ next w' = next w ∧
            currentTxn w' = currentTxn w ∧ length (error_message w') = 256%nat;
  at_items : items w' = items w ++ new;
  at_leases a l' : leases w' !! a = Some l' → ∃ l, leases w !! a = Some l ∧ lease_f l' = lease_f l;
  at_lists a l' : lists w' !! a = Some l' → ∃ l, lists w !! a = Some l ∧ list_f l' = list_f l ∧
    list_arena l' = list_arena l ∧ (list_obj l' = list_obj l ∨ target_of cb = To_results a);
  at_txns t x' : txns w' !! t = Some x' → ∃ x, txns w !! t = Some x ∧ txn_f x' = txn_f x ∧
    enlisted x' = enlisted x ∧ enlisted_counter x' = enlisted_counter x;
  at_txns_some t : is_Some (txns w !! t) → is_Some (txns w' !! t);
  at_futures tg : fut w' tg = fut w tg;
  at_joined tg : joined w' tg = joined w tg
}.

Lemma answers_good w w' i ctx home cb us new :
  good w → jobs w !! i = Some (Asked ctx home cb) → answers_to w w' i cb us new →
  (∀ t, total (is_down t) us = weight (joined w) t (Asked ctx home cb)) → (∀ t, total (is_up t) us = counted t new) →
  Forall (λ u, is_Some (txns w !! txn_of u)) us →
  Forall (λ p, 0 ≤ p.2 ∧ is_Some (txns w !! p.1)) new → total snd (items w ++ new) < 2 ^ 31 → good w'.
Proof.
  intros G E [Ej (Ee & Ea & Eo & En & Ec & Hb) Ei Hle Hli Htx Hts Hf Hj] Hd Hu Hl Hn Ht.
  destruct (g_memory _ G) as [own M].
  assert (ending_txn w' = ending_txn w) as Eet by (unfold ending_txn; by rewrite Ee).
  assert (∀ j, pending j ≠ Some (target_of cb) → job_ok (fut w) (lists w) j → job_ok (fut w') (lists w') j) as Hjob.
  { intros j Hne H. eapply job_ok_same; [done|by intros; apply Hf|].
    intros a l' P E'. destruct (Hli a l' E') as (l & ? & _ & _ & [?|?]); [by eauto|]. congruence. }
  split.
  - rewrite Ej, Eet. apply (futures_go_on _ _ _ _ (Asked ctx home cb)); [|done|done].
    apply (futures_ext (fut w)); [apply G|done].
  - rewrite Ej, Ei, En.
    assert (latches_ok (joined w) (<[i:=Updating us (target_of cb)]> (jobs w)) (txns w) (items w ++ new) (next w)) as L.
    { by apply (latches_answer _ _ _ _ _ _ ctx home cb); [apply G|..]. }
    eapply (latches_same (joined w) _ _ (txns w)); [exact L|by intros; apply Hj| |done| |done].
    + intros tg t. rewrite Hj. intros E'%(lo_joined _ _ _ _ _ L). by apply Hts.
    + intros t x' E'. left. destruct (Htx t x' E') as (x & ? & ? & ? & ?). eauto.
  - exists own. split; rewrite ?Ea, ?Eo, ?En; try apply M.
    + intros a l' r E1 E2. destruct (Hli a l' E1) as (l & ? & ? & Er & _). eapply M; [done|congruence].
    + intros tg f. rewrite Hf. apply M.
    + intros a l' E'. destruct (Hle a l' E') as (l & ? & ->). by eapply M.
    + intros t x' E'. destruct (Htx t x' E') as (x & ? & -> & _). by eapply M.
    + intros a l' E'. destruct (Hli a l' E') as (l & ? & Elf & Ela & _). unfold results_ok. rewrite Elf, Ela. by eapply (mo_results _ _ M).
    + intros a Hk. apply (mo_keys _ _ M). destruct Hk as [?|[[l' E']|[[l' E']|[x' E']]]]; [by left|right..].
      * left. destruct (Hli a l' E') as (? & ? & _). by eexists.
      * right. left. destruct (Hle a l' E') as (? & ? & _). by eexists.
      * right. right. destruct (Htx a x' E') as (? & ? & _). by eexists.
  - rewrite Ej. intros i' j E'. destruct (decide (i' = i)) as [->|].
    + rewrite list_lookup_insert_eq in E' by (by eapply lookup_lt_Some). by simplify_eq.
    + rewrite list_lookup_insert_ne in E' by done. apply Hjob; [|by eapply G].
      intros P. by destruct (fo_unique _ _ _ (g_futures _ G) i' j i _ _ E' E P eq_refl).
  - intros t c h en. rewrite Ee. intros E'. apply (Hjob (Asked c h (oes_upt_promise_cb t))); [|exact (g_ending _ G _ _ _ _ E')].
    cbn. intros P. assert (ending_txn w = Some t) as Et by (unfold ending_txn; by rewrite E').
    apply (fo_ending _ _ _ (g_futures _ G) t i _ Et E). cbn. congruence.
  - intros t. rewrite Ec. intros E'%(g_current _ G). by apply Hts.
  - done.
Qed.

(** An error is thrown with its text; it changes the buffer only. *)
Lemma thrown_ok ctx c m w :
  answered ctx c → err_msg c = Some m → ∃ text, thrown m w = Done (throw_exception text w).
Proof.
  intros [_ Ha Ht _] E. cbn in Ha. destruct Ha as [(m' & E' & _ & Hm & Hwf & _)|(ms & E' & _)]; [|congruence].
  assert (m' = m) as -> by congruence. unfold msg_wf in Hwf. rewrite Hm in Hwf.
  destruct (Messages.data m) eqn:Ed; try done. destruct (Ht m e E Ed) as [text Etx]. exists text. unfold thrown.
  assert (OekMsg_get_err m = Some e) as -> by (unfold OekMsg_get_err; by rewrite Hm, Ed). cbn. by rewrite Etx.
Qed.

(** The first response of a context without an error *)
Lemma script_response_ok ctx c :
  answered ctx c → err_msg c = None → ∃ m ms, res_msgs c = Some (m :: ms) ∧
    Forall (λ m, mtype m = response_of (mtype (Kernel.cmd_msg ctx)) ∧ msg_wf m) (m :: ms).
Proof.
  intros [_ Ha _ _] E. cbn in Ha. destruct Ha as [(m' & E' & _)|(ms & _ & -> & Hne & Hms)]; [congruence|].
  destruct ms as [|m ms]; [done|]. exists m, ms. split; [done|]. eapply list.Forall_impl; [exact Hms|].
  intros m' (? & ? & _). done.
Qed.

Lemma throw_error text w : length (error_message w) = 256%nat → length (error_message (throw_exception text w)) = 256%nat.
Proof.
  intros H. unfold throw_exception, set_error. cbn [error_message]. rewrite length_app, strncpy_length, length_drop, H.
  destruct (Nat.ltb_spec (String.length text) 256); lia.
Qed.

(** [collect] with responses that carry their number *)
Lemma collect_ok ms n : ∀ k l,
  Forall (λ m, mtype m = GET_RES ∧ msg_wf m) ms →
  (∀ m r, m ∈ ms → Messages.data m = D_get_res r → nresults r = n) →
  ∃ l', collect ms k l = Some (if bool_decide (ms = []) then k else n, l') ∧
    length l' = if 0 <? n then (length l + length ms)%nat else length l.
Proof.
  induction ms as [|m ms IH]; intros k l Hms Hn; cbn [collect].
  { exists l. split; [done|]. cbn. destruct (0 <? n); lia. }
  apply list.Forall_cons in Hms as [[Hm Hwf] Hms]. unfold msg_wf in Hwf. rewrite Hm in Hwf.
  destruct (Messages.data m) eqn:Ed; try done.
  assert (OekMsg_get_get_res m = Some r) as -> by (unfold OekMsg_get_get_res; by rewrite Hm, Ed). cbn [mbind option_bind].
  rewrite (Hn m r ltac:(left) Ed). destruct (IH n (if 0 <? n then DataObjectList_add l (GetRes_get_data r) else l) Hms) as (l' & -> & Hl').
  { intros m' r' Hin. apply Hn. by right. }
  exists l'. split.
  - rewrite (bool_decide_eq_false_2 (m :: ms = [])) by done. by destruct (bool_decide _).
  - rewrite Hl'. destruct (0 <? n); [|done]. unfold DataObjectList_add. rewrite AList.append_app, length_app. cbn. lia.
Qed.

Lemma total_up_replicate t t' n :
  total (is_up t) (replicate n (Up t')) = if decide (t' = t) then Z.of_nat n else 0.
Proof.
  induction n as [|n IH]; [by destruct (decide _)|]. cbn [replicate]. rewrite total_cons, IH. cbn.
  case_decide; [rewrite bool_decide_eq_true_2 by done|rewrite bool_decide_eq_false_2 by done]; cbn [Z.b2z]; lia.
Qed.
Lemma total_down_replicate t t' n : total (is_down t) (replicate n (Up t')) = 0.
Proof. induction n as [|n IH]; [done|]. cbn [replicate]. by rewrite total_cons, IH. Qed.

(** The updates of an operation that counts [n] items for [t] *)
Lemma updates_ok w ct n ctx home cb :
  0 ≤ n → (∀ t, ct = Some t → is_Some (txns w !! t)) →
  (enlists ctx cb = true ∧ joined w (target_of cb) = ct ∨ ct = None ∧ (enlists ctx cb = false ∨ joined w (target_of cb) = None)) →
  let us := match ct with Some t => Down t :: replicate (Z.to_nat n) (Up t) | None => [] end in
  let new := match ct with Some t => [(t, n)] | None => [] end in
  (∀ t, total (is_down t) us = weight (joined w) t (Asked ctx home cb)) ∧ (∀ t, total (is_up t) us = counted t new) ∧
  Forall (λ u, is_Some (txns w !! txn_of u)) us ∧ Forall (λ p, 0 ≤ p.2 ∧ is_Some (txns w !! p.1)) new ∧ total snd new ≤ n.
Proof.
  intros Hn Hl Hj. destruct ct as [t'|]; cbn zeta.
  - destruct Hj as [[He Hj]|[? _]]; [|done]. split_and!.
    + intros t. rewrite total_cons, total_down_replicate. cbn [weight is_down]. rewrite He, Hj. cbn [andb].
      rewrite Z.add_0_r. f_equal. apply bool_decide_ext. split; congruence.
    + intros t. rewrite total_cons, total_up_replicate. unfold counted. rewrite total_cons. cbn. rewrite Z2Nat.id by done.
      change (total _ []) with 0. lia.
    + constructor; [by apply Hl|]. apply Forall_replicate. by apply Hl.
    + repeat constructor; [done|by apply Hl].
    + rewrite total_cons. change (total snd []) with 0. cbn. lia.
  - split_and!; [|done|constructor|constructor|done]. intros t. cbn. destruct Hj as [[He Hj]|[_ [-> | ->]]].
    + by rewrite Hj, bool_decide_eq_false_2, andb_false_r.
    + done.
    + by rewrite bool_decide_eq_false_2, andb_false_r.
Qed.

(** What a callback's first part yields: updates for the job and a state that
    is good with them *)
Definition calls_back (w : world) (i : nat) (ctx c : OEK_Context) (home : nat) (cb : callback) : Prop :=
  ∃ us w', run_callback c cb w = Done (Some us, w') ∧
    good (set_jobs (<[i := Updating us (target_of cb)]> (jobs w')) w').

Lemma size_nonneg ctx c : answered ctx c → 1 ≤ size_of c.
Proof.
  intros An. unfold size_of. destruct (err_msg c) eqn:Ee.
  - destruct An as [_ Ha _ _]. cbn in Ha. destruct Ha as [(m & _ & -> & _)|(ms & ? & _)]; [done|congruence].
  - destruct (script_response_ok ctx c An Ee) as (m & ms & -> & _). cbn. lia.
Qed.

Lemma put_first w ctx c a l :
  good w → mtype (Kernel.cmd_msg ctx) = PUT_CMD → answered ctx c → leases w !! a = Some l →
  ∃ lid' m s, match err_msg c with
              | Some m => thrown m w
              | None => msg ← safe (first_res c); res ← safe (OekMsg_get_put_res msg);
                        Done (set_leases (<[a := set_lid (res_lease_id res) l]> (leases w)) w)
              end = Done (set_leases (<[a := set_lid lid' l]> (leases w)) (set_error m s w)) ∧ length m = 256%nat.
Proof.
  intros G Hty An El. destruct (err_msg c) as [em|] eqn:Ee.
  - destruct (thrown_ok ctx c em w An Ee) as [text ->]. exists (lid l).
    eexists (error_message (throw_exception text w)), true. split; [|apply throw_error, G].
    rewrite insert_id; [done|]. rewrite El. by destruct l.
  - destruct (script_response_ok ctx c An Ee) as (m & ms & Em & H). apply list.Forall_cons in H as [[Hm Hwf] _].
    rewrite Hty in Hm. cbn in Hm. unfold msg_wf in Hwf. rewrite Hm in Hwf.
    destruct (Messages.data m) eqn:Ed; try done. unfold first_res. rewrite Em. cbn [mbind option_bind head safe outcome_bind].
    assert (OekMsg_get_put_res m = Some r) as -> by (unfold OekMsg_get_put_res; by rewrite Hm, Ed). cbn [safe mbind outcome_bind].
    exists (res_lease_id r), (error_message w), (error_status w). split; [by destruct w|apply G].
Qed.

Lemma put_calls_back w i ctx c home a :
  good w → jobs w !! i = Some (Asked ctx home (oes_put_promise_cb a)) → answered ctx c →
  total snd (items w) + size_of c < 2 ^ 31 → calls_back w i ctx c home (oes_put_promise_cb a).
Proof.
  intros G E An Hs. destruct (g_jobs _ G i _ E) as [Hfr Hty (f & Hf & _) _].
  assert (∃ l, leases w !! a = Some l) as [l El] by (cbn in Hf; destruct (leases w !! a); [by eexists|done]).
  assert (joined w (To_lease a) = lease_txn l) as Hj by (cbn; by rewrite El).
  assert (∀ t, lease_txn l = Some t → is_Some (txns w !! t)) as Hlive.
  { intros t Ht. apply (lo_joined _ _ _ _ _ (g_latches _ G) (To_lease a)). by rewrite Hj. }
  pose proof (size_nonneg ctx c An) as H1.
  destruct (updates_ok w (lease_txn l) 1 ctx home (oes_put_promise_cb a)) as (U1 & U2 & U3 & U4 & U5); [done|done| |].
  { destruct (lease_txn l) eqn:Et; [by left|right]. split; [done|by right]. }
  unfold calls_back. cbn [run_callback]. unfold _oes_put_promise_cb. rewrite El. cbn [safe mbind outcome_bind].
  destruct (put_first w ctx c a l G Hty An El) as (lid' & m & s & -> & Hm).
  cbn [mbind outcome_bind].
  set (us := match lease_txn l with Some t => Down t :: replicate (Z.to_nat 1) (Up t) | None => [] end) in *.
  set (new := match lease_txn l with Some t => [(t, 1)] | None => [] end) in *.
  exists us, (set_items (items w ++ new) (set_leases (<[a:=set_lid lid' l]> (leases w)) (set_error m s w))). split.
  { unfold us, new. destruct (lease_txn l); [done|]. rewrite app_nil_r. by destruct w. }
  apply (answers_good w _ i ctx home (oes_put_promise_cb a) us new); [done|done| |done|done|done|done|rewrite total_app; lia].
  split; cbn; [done|done|done| | | |done| |].
  - intros b l' Eb. maps; eauto.
  - intros b l' Eb. exists l'. auto.
  - intros t x Et. exists x. auto.
  - intros [b|b|b]; cbn; maps; try done. by rewrite El.
  - intros [b|b|b]; cbn; maps; done.
Qed.

(** A get is complete with its first answer. *)
Lemma get_first w ctx c a l :
  good w → mtype (Kernel.cmd_msg ctx) = GET_CMD → answered ctx c → lists w !! a = Some l → list_obj l = [] →
  ∃ n o m s, match err_msg c with
             | Some m => w ← thrown m w; Done (true, 0, w)
             | None =>
               msgs ← safe (res_msgs c);
               '(n, o) ← safe (collect msgs 0 (list_obj l));
               Done (DataObjectList_length o =? n, n, set_lists (<[a := set_list_obj o l]> (lists w)) w)
             end = Done (true, n, set_lists (<[a := set_list_obj o l]> (lists w)) (set_error m s w)) ∧
    0 ≤ n ≤ size_of c ∧ length m = 256%nat.
Proof.
  intros G Hty An El Eo. pose proof (size_nonneg ctx c An) as Hsz. destruct (err_msg c) as [em|] eqn:Ee.
  - destruct (thrown_ok ctx c em w An Ee) as [text ->]. cbn [mbind outcome_bind]. exists 0, (list_obj l).
    eexists (error_message (throw_exception text w)), true. split; [|split; [lia|apply throw_error, G]].
    rewrite insert_id; [done|]. rewrite El. by destruct l.
  - destruct (script_response_ok ctx c An Ee) as (m & ms & Em & H). rewrite Hty in H. cbn [response_of] in H.
    destruct (an_number _ _ An _ Em Hty) as (n & Hn & Hlen).
    destruct (collect_ok (m :: ms) n 0 (list_obj l) H Hn) as (o & Ec & Ho). rewrite Em. cbn [safe mbind outcome_bind].
    rewrite Ec. cbn [safe mbind outcome_bind]. rewrite bool_decide_eq_false_2 by done.
    exists n, o, (error_message w), (error_status w). unfold DataObjectList_length. rewrite AList.length_spec.
    rewrite Eo in Ho. assert (Z.of_nat (length o) = n) as ->.
    { rewrite Ho. cbn [length] in *. destruct (Z.ltb_spec 0 n); lia. }
    rewrite Z.eqb_refl. split; [by destruct w|]. split; [|apply G]. unfold size_of. rewrite Em. lia.
Qed.

Lemma get_calls_back w i ctx c home a :
  good w → jobs w !! i = Some (Asked ctx home (oes_get_promise_cb a)) → answered ctx c →
  total snd (items w) + size_of c < 2 ^ 31 → calls_back w i ctx c home (oes_get_promise_cb a).
Proof.
  intros G E An Hs. destruct (g_jobs _ G i _ E) as [Hfr Hty (f & Hf & _) Hem].
  assert (∃ l, lists w !! a = Some l) as [l El] by (cbn in Hf; destruct (lists w !! a); [by eexists|done]).
  assert (joined w (To_results a) = list_txn l) as Hj by (cbn; by rewrite El).
  assert (∃ cmd, Messages.data (Kernel.cmd_msg ctx) = D_get_cmd cmd ∧ OekMsg_get_get_cmd (Kernel.cmd_msg c) = Some cmd)
    as (cmd & Ed & Ecmd).
  { pose proof (fc_wf _ Hfr) as Hwf. unfold msg_wf, OekMsg_get_get_cmd in *. rewrite (an_cmd _ _ An), Hty in *. cbn in *.
    destruct (Messages.data (Kernel.cmd_msg ctx)) eqn:Ed; try done. by eexists. }
  destruct (get_first w ctx c a l G Hty An El (Hem a l eq_refl El)) as (n & o & m & s & Efirst & Hn & Hm).
  unfold calls_back. cbn [run_callback]. unfold _oes_get_promise_cb. rewrite El. cbn [safe mbind outcome_bind].
  rewrite Efirst. cbn [mbind outcome_bind negb]. rewrite Ecmd. cbn [safe mbind outcome_bind].
  set (ct := if GetCmd_remove cmd then list_txn l else None).
  destruct (updates_ok w ct n ctx home (oes_get_promise_cb a)) as (U1 & U2 & U3 & U4 & U5); [lia| | |].
  { intros t Ht. apply (lo_joined _ _ _ _ _ (g_latches _ G) (To_results a)). rewrite Hj. unfold ct in Ht. by destruct (GetCmd_remove cmd). }
  { unfold ct. cbn [enlists]. rewrite Ed. change (target_of (oes_get_promise_cb a)) with (To_results a). rewrite Hj.
    destruct (GetCmd_remove cmd); [|right; auto]. destruct (list_txn l); auto. }
  set (us := match ct with Some t => _ | None => _ end) in *.
  set (new := match ct with Some t => [(t, n)] | None => [] end) in *.
  exists us, (set_items (items w ++ new) (set_lists (<[a:=set_list_obj o l]> (lists w)) (set_error m s w))). split.
  { unfold us, new, ct. destruct (list_txn l), (GetCmd_remove cmd); cbn; rewrite ?app_nil_r; by destruct w. }
  apply (answers_good w _ i ctx home (oes_get_promise_cb a) us new); [done|done| |done|done|done|done|rewrite total_app; lia].
  split; cbn; [done|done|done| | | |done| |].
  - intros b l' Eb. exists l'. auto.
  - intros b l' Eb. maps; [exists l; auto|exists l'; auto].
  - intros t x Et. exists x. auto.
  - intros [b|b|b]; cbn; maps; try done. by rewrite El.
  - intros [b|b|b]; cbn; maps; done.
Qed.

(** The callbacks that count nothing *)
Lemma plain_calls_back w i ctx c home cb w' :
  good w → jobs w !! i = Some (Asked ctx home cb) → enlists ctx cb = false →
  run_callback c cb w = Done (Some [], w') → answers_to w (set_jobs (<[i := Updating [] (target_of cb)]> (jobs w')) w') i cb [] [] →
  total snd (items w) < 2 ^ 31 → calls_back w i ctx c home cb.
Proof.
  intros G E He Hr Ha Hs. exists [], w'. split; [done|].
  apply (answers_good w _ i ctx home cb [] []); [done|done|done| |done|constructor|constructor|by rewrite app_nil_r].
  intros t. cbn. by rewrite He.
Qed.

Lemma throw_answers w i cb text :
  good w → answers_to w (set_jobs (<[i := Updating [] (target_of cb)]> (jobs w)) (throw_exception text w)) i cb [] [].
Proof.
  intros G. split; cbn [jobs items leases lists txns set_jobs throw_exception set_error]; [done| | | | | |done|by intros []|by intros []].
  - split_and!; try done. apply throw_error, G.
  - by rewrite app_nil_r.
  - eauto.
  - intros a l E. exists l. auto.
  - intros t x E. exists x. auto.
Qed.

Lemma txn_answers w i cb t x s tid' :
  good w → txns w !! t = Some x →
  answers_to w (set_jobs (<[i := Updating [] (target_of cb)]> (jobs w)) (set_txns (<[t := set_txn_state s tid' x]> (txns w)) w))
    i cb [] [].
Proof.
  intros G Ex. split; cbn; [done|by split_and!; [..|apply G]|by rewrite app_nil_r|by eauto| | | | |].
  - intros a l E. exists l. auto.
  - intros t' x' E. maps; [exists x|exists x']; auto.
  - intros t' H. maps; [by eexists|done].
  - intros [b|b|b]; cbn; maps; try done. by rewrite Ex.
  - intros [b|b|b]; cbn; maps; done.
Qed.

Lemma begin_calls_back w i ctx c home t :
  good w → jobs w !! i = Some (Asked ctx home (oes_begin_promise_cb t)) → answered ctx c →
  total snd (items w) < 2 ^ 31 → calls_back w i ctx c home (oes_begin_promise_cb t).
Proof.
  intros G E An Hs. destruct (g_jobs _ G i _ E) as [Hfr Hty (f & Hf & _) _].
  assert (∃ x, txns w !! t = Some x) as [x Ex] by (cbn in Hf; destruct (txns w !! t); [by eexists|done]).
  destruct (err_msg c) as [em|] eqn:Ee.
  - destruct (thrown_ok ctx c em w An Ee) as [text Et].
    apply (plain_calls_back w i ctx c home _ (throw_exception text w)); [done|done|done| |by apply (throw_answers w)|done].
    cbn [run_callback]. unfold _oes_begin_promise_cb. rewrite Ex. cbn [safe mbind outcome_bind]. by rewrite Ee, Et.
  - destruct (script_response_ok ctx c An Ee) as (m & ms & Em & H). apply list.Forall_cons in H as [[Hm Hwf] _].
    rewrite Hty in Hm. cbn in Hm. unfold msg_wf in Hwf. rewrite Hm in Hwf. destruct (Messages.data m) eqn:Ed; try done.
    apply (plain_calls_back w i ctx c home _ (set_txns (<[t := set_txn_state (status_code ACTIVE) (OekMsg_get_tid m) x]> (txns w)) w));
      [done|done|done| |by apply (txn_answers w)|done].
    cbn [run_callback]. unfold _oes_begin_promise_cb. rewrite Ex. cbn [safe mbind outcome_bind]. rewrite Ee.
    unfold first_res. rewrite Em. cbn [mbind option_bind head safe outcome_bind].
    assert (OekMsg_get_sta_res m = Some r) as -> by (unfold OekMsg_get_sta_res; by rewrite Hm, Ed). done.
Qed.

Lemma upt_calls_back w i ctx c home t :
  good w → jobs w !! i = Some (Asked ctx home (oes_upt_promise_cb t)) → answered ctx c →
  total snd (items w) < 2 ^ 31 → calls_back w i ctx c home (oes_upt_promise_cb t).
Proof.
  intros G E An Hs. destruct (g_jobs _ G i _ E) as [Hfr Hty (f & Hf & _) _].
  assert (∃ x, txns w !! t = Some x) as [x Ex] by (cbn in Hf; destruct (txns w !! t); [by eexists|done]).
  destruct (err_msg c) as [em|] eqn:Ee.
  - destruct (thrown_ok ctx c em w An Ee) as [text Et].
    apply (plain_calls_back w i ctx c home _ (throw_exception text w)); [done|done|done| |by apply (throw_answers w)|done].
    cbn [run_callback]. unfold _oes_upt_promise_cb. rewrite Ex. cbn [safe mbind outcome_bind]. by rewrite Ee, Et.
  - destruct (script_response_ok ctx c An Ee) as (m & ms & Em & H). apply list.Forall_cons in H as [[Hm Hwf] _].
    rewrite Hty in Hm. cbn in Hm. unfold msg_wf in Hwf. rewrite Hm in Hwf. destruct (Messages.data m) eqn:Ed; try done.
    eapply (plain_calls_back w i ctx c home _ (set_txns (<[t := set_txn_state _ (txn_tid x) x]> (txns w)) w));
      [done|done|done| |by apply (txn_answers w)|done].
    cbn [run_callback]. unfold _oes_upt_promise_cb. rewrite Ex. cbn [safe mbind outcome_bind]. rewrite Ee.
    unfold first_res. rewrite Em. cbn [mbind option_bind head safe outcome_bind].
    assert (OekMsg_get_upt_res m = Some r) as -> by (unfold OekMsg_get_upt_res; by rewrite Hm, Ed). done.
Qed.

Lemma upl_calls_back w i ctx c home a :
  good w → jobs w !! i = Some (Asked ctx home (oes_upl_promise_cb a)) →
  total snd (items w) < 2 ^ 31 → calls_back w i ctx c home (oes_upl_promise_cb a).
Proof.
  intros G E Hs. eapply plain_calls_back; [done|done|done|done| |done].
  split; cbn; [done|by split_and!; [..|apply G]|by rewrite app_nil_r|by eauto| | |done|by intros []|by intros []].
  - intros b l Eb. exists l. auto.
  - intros t x Et. exists x. auto.
Qed.

Lemma answer_fine w i c :
  good w → allowed w (K_answer i c) → ∃ w', step w (K_answer i c) = Done w' ∧ good w'.
Proof.
  intros G [(ctx & home & cb & E & An) Hs]. destruct (g_memory _ G) as [own M].
  destruct (g_jobs _ G i _ E) as [_ _ (f & Hf & Hh) _]. destruct (mo_futs _ _ M _ _ Hf) as (r & Hr & Ho).
  assert (r = home) as -> by (rewrite Hh in Hr; injection Hr; lia). pose proof (size_nonneg ctx c An) as Hsz.
  assert (calls_back w i ctx c home cb) as (us & w' & Hrun & G').
  { destruct cb; [by apply put_calls_back|by apply get_calls_back|apply begin_calls_back|apply upt_calls_back|apply upl_calls_back];
      (done || lia). }
  cbn [step]. unfold answer. rewrite E. unfold Arena_alloc. rewrite bool_decide_eq_true_2 by (apply (mo_arenas _ _ M); by rewrite Ho).
  cbn [c_assert safe mbind outcome_bind]. rewrite Hrun. cbn [mbind outcome_bind]. by eexists.
Qed.

Lemma count_fine w i u us tg :
  good w → jobs w !! i = Some (Updating (u :: us) tg) → ∃ w', step w (K_update i) = Done w' ∧ good w'.
Proof.
  intros G E. destruct (g_memory _ G) as [own M].
  assert (is_Some (txns w !! txn_of u)) as [x Ex].
  { pose proof (Forall_lookup_1 _ _ _ _ (lo_todo _ _ _ _ _ (g_latches _ G)) E) as H. cbn in H. by apply list.Forall_cons in H as [H _]. }
  pose proof (latches_update _ _ _ _ _ _ _ _ _ _ (g_latches _ G) E Ex) as L.
  set (x' := match u with Down _ => _ | Up _ => _ end) in L.
  assert (txn_f x' = txn_f x) as Ef by (unfold x'; by destruct u).
  exists (set_jobs (<[i := Updating us tg]> (jobs w)) (set_txns (<[txn_of u := x']> (txns w)) w)). split.
  { cbn [step]. unfold proceed, count_latch. rewrite E. change (match u with Down t | Up t => t end) with (txn_of u). by rewrite Ex. }
  match goal with |- good ?y => set (w' := y) end.
  assert (∀ tg, fut w' tg = fut w tg) as Hf'.
  { intros [b|b|b]; cbn; maps; try done. rewrite Ex. cbn. by rewrite Ef. }
  split.
  - apply (futures_go_on _ _ _ _ (Updating (u :: us) tg)); [|done|done]. apply (futures_ext (fut w)); [apply G|done].
  - exact L.
  - exists own. split; cbn; try apply M.
    + intros tg' f. rewrite Hf'. apply M.
    + intros t y Ey. maps; [rewrite Ef|]; by eapply M.
    + intros a Hk. apply (mo_keys _ _ M). maps; [|done]. naive_solver.
  - intros i' j. cbn. destruct (decide (i' = i)) as [->|].
    + rewrite list_lookup_insert_eq by (by eapply lookup_lt_Some). by intros [= <-].
    + rewrite list_lookup_insert_ne by done. intros Ej. eapply job_ok_same; [by eapply G|by intros; apply Hf'|by eauto].
  - intros t c h en E'. destruct (g_ending _ G _ _ _ _ E') as [? ? (f & ? & ?) ?]. split; [done|done| |done]. exists f. by rewrite Hf'.
  - cbn. intros t Ht. apply (g_current _ G) in Ht. maps; [by eexists|done].
  - apply G.
Qed.

(** What setting a future changes *)
Record flips_to (w w' : world) (tg : target) (f : future) : Prop := {
  fl_same : jobs w' = jobs w ∧ ending w' = ending w ∧ arenas w' = arenas w ∧ objects w' = objects w ∧ next w' = next w ∧
            currentTxn w' = currentTxn w ∧ items w' = items w ∧ error_message w' = error_message w;
  fl_futures tg' : fut w' tg' = if decide (tg' = tg) then Some (set_done f) else fut w tg';
  fl_joined tg' : joined w' tg' = joined w tg';
  fl_lists a l' : lists w' !! a = Some l' → ∃ l, lists w !! a = Some l ∧ list_arena l' = list_arena l ∧
    list_obj l' = list_obj l ∧ (results_ok l → results_ok l');
  fl_leases a l' : leases w' !! a = Some l' → is_Some (leases w !! a) ∧ ∃ f, lease_f l' = Live f;
  fl_txns t x' : txns w' !! t = Some x' → ∃ x, txns w !! t = Some x ∧ enlisted x' = enlisted x ∧
    enlisted_counter x' = enlisted_counter x ∧ ∃ f, txn_f x' = Live f;
  fl_txns_some t : is_Some (txns w !! t) → is_Some (txns w' !! t)
}.

Lemma finish_good w w' i tg f :
  good w → jobs w !! i = Some (Updating [] tg) → fut w tg = Some f → Future.freed f = false → flips_to w w' tg f →
  good (set_jobs (<[i := Finished]> (jobs w')) w').
Proof.
  intros G E Hf Hfr [(Ej & Ee & Ea & Eo & En & Ec & Ei & Em) Hfs Hj Hli Hle Htx Hts]. destruct (g_memory _ G) as [own M].
  set (w2 := set_jobs _ _).
  assert (∀ tg', fut w2 tg' = if decide (tg' = tg) then Some (set_done f) else fut w tg') as Hf2.
  { intros tg'. rewrite <-Hfs. by destruct tg'. }
  assert (∀ tg', joined w2 tg' = joined w tg') as Hj2 by (intros tg'; rewrite <-Hj; by destruct tg').
  assert (ending_txn w2 = ending_txn w) as Eet by (unfold ending_txn; cbn; by rewrite Ee).
  assert (∀ j, (∀ tg', pending j = Some tg' → tg' ≠ tg) → job_ok (fut w) (lists w) j → job_ok (fut w2) (lists w2) j) as Hjob.
  { intros j Hne H. eapply job_ok_same; [done| |].
    - intros tg' P. rewrite Hf2, decide_False; [done|by apply Hne].
    - intros a l' _ E'. destruct (Hli a l' E') as (l & ? & _ & ? & _). eauto. }
  split.
  - rewrite Eet. cbn. rewrite Ej. by apply (futures_finish (fut w) _ _ _ i (Updating [] tg) tg (set_done f)); [apply G|..].
  - cbn. rewrite Ej, Ei, En. pose proof (latches_finish _ _ _ _ _ _ _ (g_latches _ G) E) as L.
    eapply (latches_same (joined w) _ _ (txns w)); [exact L|by intros; apply Hj2| |done| |done].
    + intros tg' t. rewrite Hj2. intros E'%(lo_joined _ _ _ _ _ L). by apply Hts.
    + intros t x' E'. left. destruct (Htx t x' E') as (x & ? & ? & ? & _). eauto.
  - exists own. split; cbn; rewrite ?Ea, ?Eo, ?En; try apply M.
    + intros a l' r E1 E2. destruct (Hli a l' E1) as (l & ? & Er & _). eapply M; [done|congruence].
    + intros tg' f'. rewrite Hf2. case_decide; [|apply M]. intros [= <-]. subst. exact (mo_futs _ _ M _ _ Hf).
    + intros a l' E'. by destruct (Hle a l' E').
    + intros t x' E'. by destruct (Htx t x' E') as (x & _ & _ & _ & ?).
    + intros a l' E'. destruct (Hli a l' E') as (l & ? & _ & _ & Hr). apply Hr. by eapply M.
    + intros a Hk. apply (mo_keys _ _ M). destruct Hk as [?|[[l' E']|[[l' E']|[x' E']]]]; [by left|right..].
      * left. destruct (Hli a l' E') as (? & ? & _). by eexists.
      * right. left. by destruct (Hle a l' E').
      * right. right. destruct (Htx a x' E') as (? & ? & _). by eexists.
  - intros i' j. cbn. rewrite Ej. destruct (decide (i' = i)) as [->|].
    + rewrite list_lookup_insert_eq by (by eapply lookup_lt_Some). by intros [= <-].
    + rewrite list_lookup_insert_ne by done. intros E'. apply Hjob; [|by eapply G]. intros tg' P ->.
      by destruct (fo_unique _ _ _ (g_futures _ G) i' j i _ tg E' E P eq_refl).
  - intros t c h en. cbn. rewrite Ee. intros E'. apply (Hjob (Asked c h (oes_upt_promise_cb t))); [|exact (g_ending _ G _ _ _ _ E')].
    intros tg' [= <-] <-. assert (ending_txn w = Some t) as Et by (unfold ending_txn; by rewrite E').
    by apply (fo_ending _ _ _ (g_futures _ G) t i _ Et E).
  - cbn. intros t. rewrite Ec. intros E'%(g_current _ G). by apply Hts.
  - cbn. rewrite Em. apply G.
Qed.

Lemma finish_fine w i tg :
  good w → jobs w !! i = Some (Updating [] tg) → ∃ w', step w (K_update i) = Done w' ∧ good w'.
Proof.
  intros G E. destruct (g_memory _ G) as [own M].
  assert (waiting_on (jobs w) (ending_txn w) tg) as Hw by (left; eauto).
  destruct (fo_live _ _ _ (g_futures _ G) tg Hw) as [f Hf]. destruct (fo_done _ _ _ (g_futures _ G) tg f Hf) as [Hfr Hdn].
  apply Hdn in Hw as Hd. cbn [step]. unfold proceed. rewrite E.
  assert (∃ w', flip_latch tg w = Done w' ∧ flips_to w w' tg f) as (w' & -> & Hfl).
  2: { cbn. eexists. split; [done|]. by eapply finish_good. }
  unfold flip_latch. destruct tg as [a|a|a]; cbn in Hf.
  - destruct (leases w !! a) as [l|] eqn:El; [|done]. cbn in Hf. destruct (mo_leases _ _ M a l El) as [f' Ef]. rewrite Ef in Hf.
    injection Hf as ->. cbn [safe mbind outcome_bind]. rewrite Ef, (future_set_ok w f Hd Hfr). cbn [mbind outcome_bind].
    eexists. split; [done|]. split; cbn; [by split_and!| | | | | |done].
    + intros [b|b|b]; cbn; maps; done.
    + intros [b|b|b]; cbn; maps; try done. by rewrite El.
    + intros b l' E'. exists l'. auto.
    + intros b l' E'. maps; [split; by eexists|]. split; [by eexists|by eapply M].
    + intros t x' E'. exists x'. split_and!; [done..|by eapply M].
  - destruct (lists w !! a) as [l|] eqn:El; [|done]. cbn in Hf. destruct (list_f l) as [|f'|] eqn:Ef; try done.
    injection Hf as ->. cbn [safe mbind outcome_bind]. rewrite Ef, (future_set_ok w f Hd Hfr). cbn [mbind outcome_bind].
    eexists. split; [done|]. split; cbn; [by split_and!| | | | | |done].
    + intros [b|b|b]; cbn; maps; done.
    + intros [b|b|b]; cbn; maps; try done. by rewrite El.
    + intros b l' E'. maps; [exists l|by exists l']. split_and!; [done..|].
      intros [?|(f' & r & Ef' & ? & ?)]; [congruence|]. rewrite Ef in Ef'. injection Ef' as <-. right. by exists (set_done f), r.
    + intros b l' E'. split; [by eexists|by eapply M].
    + intros t x' E'. exists x'. split_and!; [done..|by eapply M].
  - destruct (txns w !! a) as [x|] eqn:Ex; [|done]. cbn in Hf. destruct (mo_txns _ _ M a x Ex) as [f' Ef]. rewrite Ef in Hf.
    injection Hf as ->. cbn [safe mbind outcome_bind]. rewrite Ef, (future_set_ok w f Hd Hfr). cbn [mbind outcome_bind].
    eexists. split; [done|]. split; cbn; [by split_and!|..].
    + intros [b|b|b]; cbn; maps; done.
    + intros [b|b|b]; cbn; maps; done.
    + intros b l' E'. exists l'. auto.
    + intros b l' E'. split; [by eexists|by eapply M].
    + intros t x' E'. maps; [exists x|exists x']; split_and!; try done; [by eexists|by eapply M].
    + intros t Ht. maps; [by eexists|done].
Qed.

(** ** Every run *)

Lemma step_fine w e : good w → allowed w e → fine w (step w e).
Proof.
  intros G Ha. destruct e as [d|l|o dur tp en n|v tm ds tp mx ra rb en n|dur junk|t|t cm en n|n|a en n|a en n|o| |i c|i].
  - by apply object_fine.
  - by apply list_fine.
  - by apply write_fine.
  - by apply get_fine.
  - by apply begin_fine.
  - by apply current_fine.
  - by apply end_fine.
  - by apply end_rest_fine.
  - by apply cancel_fine.
  - by apply delete_lease_fine.
  - by apply delete_object_fine.
  - cbn. apply error_good; [done|apply G].
  - destruct (answer_fine w i c G Ha) as (w' & -> & ?). done.
  - destruct Ha as (us & tg & E). destruct us as [|u us].
    + destruct (finish_fine w i tg G E) as (w' & -> & ?). done.
    + destruct (count_fine w i u us tg G E) as (w' & -> & ?). done.
Qed.

Lemma script_start_good : good start.
Proof.
  split; cbn; try done.
  - split; [done| |by intros []|done]. intros tg [(i & j & E & _)|(t & [=] & _)]. done.
  - split; cbn; [done|done|by split; [constructor|]|by intros []|constructor].
  - exists ∅. split; cbn; try done; [|by intros []|by intros r []|].
    + intros r. rewrite elem_of_empty. split; [done|by intros []].
    + intros a [[x E]|[[x E]|[[x E]|[x E]]]]; done.
Qed.

Lemma reachable_good w : reachable w → good w.
Proof.
  unfold reachable. intros H. remember start as s eqn:Es. assert (good s) as Hs by (rewrite Es; apply script_start_good). clear Es.
  induction H as [|w1 w2 w3 (e & Ha & E) H IH]; [done|]. apply IH. pose proof (step_fine w1 e Hs Ha) as Hf. by rewrite E in Hf.
Qed.

(** C13  A program that keeps to its role never fails an assertion and never
    touches freed memory, nor does a callback of the kernel; a callback never
    waits, and a call of the program waits only while some context is not yet
    answered or some callback still at work. *)
Theorem script_safe (w : world) (Hw : reachable w) :
  (∀ e, allowed w e → step w e ≠ Crash) ∧
  (∀ i c, allowed w (K_answer i c) → ∃ w', step w (K_answer i c) = Done w') ∧
  (∀ i, allowed w (K_update i) → ∃ w', step w (K_update i) = Done w') ∧
  ((∀ j, j ∈ jobs w → j = Finished) → ∀ e, allowed w e → ∃ w', step w e = Done w').
Proof.
  apply reachable_good in Hw. split_and!.
  - intros e Ha E. pose proof (step_fine w e Hw Ha) as Hf. by rewrite E in Hf.
  - intros i c Ha. destruct (answer_fine w i c Hw Ha) as (w' & -> & _). eauto.
  - intros i (us & tg & E). destruct us as [|u us].
    + destruct (finish_fine w i tg Hw E) as (w' & -> & _). eauto.
    + destruct (count_fine w i u us tg Hw E) as (w' & -> & _). eauto.
  - intros Hq e Ha. pose proof (step_fine w e Hw Ha) as Hf. destruct (step w e) as [w'| |]; [by eauto| |done].
    destruct Hf as (j & Hin & Hj). destruct Hj. by apply Hq.
Qed.

(** C14  When the end of a transaction goes to the kernel, every write and
    every take made under it has been answered, and the number the server is
    told is the number of items they wrote and took, less those that a
    callback has still to count; a transaction without any says -1. *)
Theorem commit_counts (w w' : world) (t home : nat) (c : OEK_Context) (entered now : Z) (Hw : reachable w)
    (En : ending w = Some (t, c, home, entered)) (Ht : in_time OEC_MONTH entered now) (E : step w (U_end_rest now) = Done w') :
  let n := counted t (items w) - total (ups t) (jobs w) in
  (∃ c' cmd, jobs w' = jobs w ++ [Asked c' home (oes_upt_promise_cb t)] ∧
     OekMsg_get_upt_cmd (Kernel.cmd_msg c') = Some cmd ∧ upt_enlisted cmd = (if 0 <? n then n else -1)) ∧
  (∀ c0 h cb, Asked c0 h cb ∈ jobs w → enlists c0 cb = true → joined w (target_of cb) ≠ Some t) ∧
  ((∀ us tg, Updating us tg ∈ jobs w → Forall (λ u, txn_of u ≠ t) us) → n = counted t (items w)).
Proof.
  intros n. apply reachable_good in Hw. destruct (g_ending _ Hw _ _ _ _ En) as [Hfr Hty (f & Hf & Hh) _].
  assert (∃ x, txns w !! t = Some x) as [x Ex] by (cbn in Hf; destruct (txns w !! t); [by eexists|done]).
  destruct (lo_count _ _ _ _ _ (g_latches _ Hw) t x Ex) as (Hc & Hm & Hn).
  cbn [step] in E. unfold upt_rest in E. rewrite En in E. cbn [safe mbind outcome_bind] in E. rewrite Ex in E.
  cbn [safe mbind outcome_bind] in E. unfold Oec_CountdownLatch_get, wait_zero in E. unfold in_time in Ht.
  rewrite (proj2 (Z.leb_gt _ _) Ht) in E.
  destruct (Z.eqb_spec (_count (enlisted x)) 0) as [E0|E0]; [|done]. cbn [mbind option_bind] in E. rewrite E0 in E. cbn [Z.eqb] in E.
  change (1 =? 1)%positive with true in E. cbn [c_assert safe mbind outcome_bind] in E.
  destruct (OekMsg_get_upt_cmd (Kernel.cmd_msg c)) as [cmd|] eqn:Ecmd; [|done]. cbn [safe mbind outcome_bind] in E. injection E as <-.
  split_and!.
  - do 2 eexists. split; [done|]. split.
    + unfold OekMsg_get_upt_cmd. cbn. rewrite Hty. done.
    + cbn. unfold told_enlisted, Oec_CountdownLatch_get_hi_water_mark. assert (_max_count (enlisted_counter x) = n) as -> by lia. done.
  - intros c0 h cb Hin He Hj. rewrite Hc in E0.
    pose proof (total_zero _ _ (λ j _, weight_nonneg (joined w) t j) E0 _ Hin) as E1. cbn in E1.
    by rewrite He, bool_decide_eq_true_2 in E1.
  - intros Hno. unfold n. assert (total (ups t) (jobs w) = 0) as ->; [|lia].
    clear -Hno. induction (jobs w) as [|j js IH]; [done|]. rewrite total_cons, IH by (intros us tg Hin; apply (Hno us tg); by right).
    assert (ups t j = 0) as ->; [|done]. destruct j as [|us tg|]; [done| |done]. cbn.
    specialize (Hno us tg ltac:(left)). clear IH. induction Hno as [|u us Hu Hno IH]; [done|]. rewrite total_cons, IH.
    destruct u; cbn in *; [done|]. by rewrite bool_decide_eq_false_2.
Qed.

(** ** A run in which the count is short

    The callback counts the latch that the end of the transaction waits for
    down before it counts the items up. *)

Definition reply (ctx : OEK_Context) (t : OEK_MSG_TYPE) (tid : Z) (d : msg_data) : OEK_Context :=
  set_res ctx [mkOekMsg t (OekMsg_get_cid (Kernel.cmd_msg ctx)) tid true d].

Lemma reply_answered ctx t tid d :
  fresh_context ctx → response_of (mtype (Kernel.cmd_msg ctx)) = t → t = tag_of d → t ≠ GET_RES →
  t = STA_RES ∨ tid = OekMsg_get_tid (Kernel.cmd_msg ctx) → answered ctx (reply ctx t tid d).
Proof.
  intros [_ _ Hr He] Ht Hd Hg Hi. split; cbn.
  - done.
  - right. eexists. split; [exact He|]. split; [done|]. split; [done|]. constructor; [|constructor].
    split; [done|]. split; [by rewrite Hd|]. split; [done|].
    intros Hne. destruct Hi; [congruence|done].
  - congruence.
  - intros ms _ Ety. rewrite Ety in Ht. by subst.
Qed.

Definition ask_of (w : world) (i : nat) : OEK_Context :=
  match jobs w !! i with Some (Asked c _ _) => c | _ => mkContext 0 (mkOekMsg OEK_NON 0 0 false D_none) false None None end.

(** The events, each with the state it finds *)
Definition race : list (world → event) :=
  [λ _, U_begin 1000 (0, 0);
   λ w, K_answer 0 (reply (ask_of w 0) STA_RES 77 (D_sta_res (mkStaRes 0)));
   λ _, K_update 0;
   λ _, U_object (DataObject_add_attr DataObject_new "a");
   λ _, U_write 2 0 true 0 1;
   λ _, U_object (DataObject_add_attr DataObject_new "b");
   λ _, U_write 5 0 true 0 1;
   λ w, K_answer 1 (reply (ask_of w 1) PUT_RES 77 (D_put_res (mkPutRes 8)));
   λ w, K_answer 2 (reply (ask_of w 2) PUT_RES 77 (D_put_res (mkPutRes 9)));
   λ _, K_update 1;
   λ _, K_update 1;
   λ _, K_update 2;
   λ _, U_end (Some 0%nat) true 2 3;
   λ _, U_end_rest 4].
Fixpoint run (es : list (world → event)) (w : world) : outcome world :=
  match es with
  | [] => Done w
  | e :: es => w ← step w (e w); run es w
  end.
Definition last_job (w : world) : option (Z * Z) :=
  match list.last (jobs w) with
  | Some (Asked c _ (oes_upt_promise_cb t)) =>
    match Messages.data (Kernel.cmd_msg c) with D_upt_cmd cmd => Some (upt_enlisted cmd, counted t (items w)) | _ => None end
  | _ => None
  end.
Example race_counts : (match run race start with Done w => last_job w | _ => None end) = Some (1, 2).
Proof. vm_compute. reflexivity. Qed.

(** Each event of a run is allowed in the state it finds. *)
Fixpoint allowed_run (es : list (world → event)) (w : world) : Prop :=
  match es with
  | [] => True
  | e :: es => allowed w (e w) ∧ match step w (e w) with Done w' => allowed_run es w' | _ => False end
  end.
Lemma script_run_reachable es : ∀ w, reachable w → allowed_run es w → ∃ w', run es w = Done w' ∧ reachable w'.
Proof.
  induction es as [|e es IH]; intros w Hw; cbn; [by eauto|]. intros [Ha H].
  destruct (step w (e w)) as [w1| |] eqn:E; [|done..]. cbn. apply IH; [|done].
  eapply rtc_r; [exact Hw|]. by exists (e w).
Qed.

Ltac go_on :=
  cbn [step allowed_run];
  match goal with |- context [match ?o with Done _ => _ | _ => _ end] => let o' := eval vm_compute in o in change o with o' end;
  cbv iota beta.
Ltac answer_now :=
  split; [do 3 eexists; split; [vm_compute; reflexivity|apply reply_answered; [by split|reflexivity|reflexivity|done|auto]]|done].
Lemma race_allowed : allowed_run race start.
Proof.
  unfold race. split; [done|]. go_on. split; [answer_now|]. go_on. split; [by do 2 eexists|]. go_on. split; [done|]. go_on.
  split; [split; [done|]; split; [done|]; split; [eexists; split; [vm_compute; reflexivity|done]|done]|]. go_on.
  split; [done|]. go_on.
  split; [split; [done|]; split; [done|]; split; [eexists; split; [vm_compute; reflexivity|done]|done]|]. go_on.
  split; [answer_now|]. go_on. split; [answer_now|]. go_on.
  split; [by do 2 eexists|]. go_on. split; [by do 2 eexists|]. go_on. split; [by do 2 eexists|]. go_on.
  split; [split; [done|]; split; [done|]; split; [eexists; split; [done|vm_compute; by eexists]|done]|]. go_on.
  split; [by do 4 eexists|done].
Qed.

(** C16  The callback of a write or a take lets the end of the transaction go
    on before it has counted: a program that writes two items and commits can
    tell the server that it has enlisted one. *)
Theorem commit_undercounts : ∃ w, reachable w ∧ run race start = Done w ∧ last_job w = Some (1, 2).
Proof.
  destruct (script_run_reachable race start) as (w & E & Hw); [constructor|exact race_allowed|].
  exists w. split; [done|]. split; [done|]. pose proof race_counts as Hr. by rewrite E in Hr.
Qed.

(** ** The text of an exception *)

Definition buffer_holds (t : string) (w : world) : Prop := ∃ k, error_message w = bytes_of t ++ 0 :: k.

Lemma thrown_buffer m w : (String.length m < 256)%nat →
  error_message (throw_exception m w) = bytes_of m ++ drop (String.length m) (error_message w).
Proof.
  intros Hm. unfold throw_exception, set_error. cbn [error_message]. rewrite (proj2 (Nat.ltb_lt _ _) Hm). f_equal.
  unfold strncpy. rewrite take_app_le by (by rewrite bytes_of_length). rewrite take_ge; [done|by rewrite bytes_of_length].
Qed.

(** [throw_exception] writes no NUL behind the text.  The first text that
    is shorter than the buffer is read back; a later one that is not longer
    than what the buffer holds is read back with the rest of that behind it;
    and one that fills the buffer is read beyond its end. *)
Theorem exception_text (w : world) (m : string) (Hm : no_nul m) :
  let w' := throw_exception m w in
  (error_message w = replicate 256 0 → (String.length m < 256)%nat → check_exception w' = Done (Some m)) ∧
  (∀ t t', no_nul t' → String.length t = String.length m → (String.length m < 256)%nat →
     buffer_holds (t +:+ t') w → check_exception w' = Done (Some (m +:+ t'))) ∧
  ((256 ≤ String.length m)%nat → length (error_message w) = 256%nat → check_exception w' = Crash).
Proof.
  cbv zeta. split_and!.
  - intros Eb Hl. unfold check_exception. cbn [throw_exception set_error error_status]. rewrite thrown_buffer, Eb by done.
    rewrite drop_replicate. replace (256 - String.length m)%nat with (S (255 - String.length m)) by lia.
    cbn [replicate]. rewrite c_string_bytes by done. done.
  - intros t t' Ht Hlen Hl [k Eb]. unfold check_exception. cbn [throw_exception set_error error_status].
    rewrite thrown_buffer, Eb by done.
    rewrite bytes_of_app, <-app_assoc, drop_app_length' by (by rewrite bytes_of_length).
    rewrite app_assoc, <-bytes_of_app, c_string_bytes; [done|]. unfold no_nul in *.
    rewrite bytes_of_app. intros [?|?]%elem_of_app; done.
  - intros Hl Hb. unfold check_exception, throw_exception, set_error. cbn [error_message error_status].
    rewrite (proj2 (Nat.ltb_ge _ _) Hl). rewrite drop_ge by lia. rewrite app_nil_r.
    rewrite c_string_None; [done|]. unfold strncpy. rewrite take_app_le by (by rewrite bytes_of_length).
    intros H%elem_of_take. destruct H as (i & Hi & _). apply Hm. by eapply list_elem_of_lookup_2.
Qed.

(** ** The kernel answers as a program expects *)

Section kernel.
Context {St : Type} `{OeStoreOps St}.
Implicit Types (s : St) (ctx c : OEK_Context).

(** The parts of [answered] that [answers] does not have *)
Definition worded ctx c : Prop :=
  Kernel.cmd_msg c = Kernel.cmd_msg ctx ∧
  (∀ m e, err_msg c = Some m → Messages.data m = D_err e → is_Some (emessage e)) ∧
  (∀ ms, res_msgs c = Some ms → mtype (Kernel.cmd_msg ctx) = GET_CMD →
    ∃ n, (∀ m r, m ∈ ms → Messages.data m = D_get_res r → nresults r = n) ∧
         (n = 0 ∧ length ms = 1%nat ∨ n = Z.of_nat (length ms))).
Definition words ctx (out : k_output) : Prop := match out with K_write c => worded ctx c | _ => True end.

Lemma error_words ctx id text out : fresh_context ctx → _send_error ctx id text = Some out → words ctx out.
Proof.
  intros [_ Hcb Hr _]. unfold _send_error. cbn. unfold _default_write_to_client. cbn. rewrite Hcb. intros [= <-].
  split; [done|]. cbn. split; [|by rewrite Hr]. intros m e [= <-] [= <-]. by eexists.
Qed.
Lemma default_words ctx ms :
  fresh_context ctx → (mtype (Kernel.cmd_msg ctx) = GET_CMD → ∃ n, (∀ m r, m ∈ ms → Messages.data m = D_get_res r → nresults r = n) ∧
         (n = 0 ∧ length ms = 1%nat ∨ n = Z.of_nat (length ms))) →
  words ctx (_default_write_to_client (set_res ctx ms)).
Proof.
  intros [_ Hcb _ He] Hn. unfold _default_write_to_client. cbn. rewrite Hcb. split; [done|]. cbn. split; [by rewrite He|].
  intros ms' [= <-]. done.
Qed.

Lemma no_results_words ctx out : fresh_context ctx → _no_results ctx = Some out → words ctx out.
Proof.
  intros Hf. unfold _no_results. cbn. destruct (OekMsg_get_get_cmd _) as [cmd|]; [|done]. cbn. intros [= <-].
  apply default_words; [done|]. intros _. exists 0. split; [|by left].
  intros m r ->%list_elem_of_singleton [= <-]. by destruct (GetCmd_remove cmd).
Qed.

Lemma result_number cid tid cmd n rs : ∀ ms ms',
  handle_result_loop cid tid cmd n rs ms = Some ms' →
  (∀ m r, m ∈ ms → Messages.data m = D_get_res r → nresults r = n) →
  (∀ m r, m ∈ ms' → Messages.data m = D_get_res r → nresults r = n) ∧ length ms' = (length ms + length rs)%nat.
Proof.
  induction rs as [|h rs IH]; intros ms ms'; cbn [handle_result_loop]; [intros [= <-]; split; [done|cbn; lia]|].
  cbn [result_msg OekMsg_new OekMsg_settype OekMsg_get_get_res mbind option_bind]. intros E Hms.
  apply IH in E as [E1 E2].
  - split; [done|]. rewrite E2, AList.append_app, length_app. cbn. lia.
  - intros m r. rewrite AList.append_app. intros [Hin|Hin]%elem_of_app; [by apply Hms|].
    cbn in Hin. apply list_elem_of_singleton in Hin as ->. cbn. intros [= <-].
    by destruct (GetCmd_is_tuple cmd), (GetCmd_remove cmd), (GetCmd_return_attrs cmd), (GetCmd_return_bytes cmd).
Qed.

Variable clk : nat → Z * Z.
Variable now : Z.


Lemma exec_words s ctx s' evs out : fresh_context ctx → OEK_exec clk now s ctx = Some (s', evs, out) → words ctx out.
Proof.
  intros Hf. assert (∀ id t o, _send_error ctx id t = Some o → words ctx o) as Herr by (intros; by eapply error_words).
  unfold OEK_exec, OekMsg_get_type. destruct (mtype (Kernel.cmd_msg ctx)) eqn:Ety; try done.
  - unfold _ssta. destruct (OekMsg_get_sta_cmd _); [|done]. cbn [mbind option_bind].
    destruct (retry _ _ _ _ _ _) as [(r & x & s1)|]; [|done]. cbn [mbind option_bind]. destruct (negb (r =? 0)).
    + destruct (_send_error _ _ _) eqn:E; [|done]. intros [= <- <- <-]. by eapply Herr.
    + cbn. intros [= <- <- <-]. apply default_words; [done|congruence].
  - unfold _supt. destruct (OekMsg_get_upt_cmd _); [|done]. cbn [mbind option_bind].
    destruct (_ =? 0). { destruct (_send_error _ _ _) eqn:E; [|done]. intros [= <- <- <-]. by eapply Herr. }
    destruct (retry _ _ _ _ _ _) as [(r & s1 & ev)|]; [|done]. cbn [mbind option_bind].
    destruct (r =? OE_STORE_ITEM_NOTFOUND); [|destruct (r =? OESTORE_ENLISTED_COUNT_INCORRECT); [|destruct (negb (r =? 0))]].
    1-3: destruct (_send_error _ _ _) eqn:E; [|done]; intros [= <- <- <-]; by eapply Herr.
    cbn. intros [= <- <- <-]. apply default_words; [done|congruence].
  - unfold _supl. destruct (OekMsg_get_upl_cmd _); [|done]. cbn [mbind option_bind].
    destruct (retry _ _ _ _ _ _) as [(r & s1)|]; [|done]. cbn [mbind option_bind].
    destruct (r =? OE_STORE_ITEM_NOTFOUND); [|destruct (negb (r =? 0))].
    1-2: destruct (_send_error _ _ _) eqn:E; [|done]; intros [= <- <- <-]; by eapply Herr.
    cbn. intros [= <- <- <-]. apply default_words; [done|congruence].
  - unfold _sput. destruct (OekMsg_get_put_cmd _); [|done]. cbn [mbind option_bind].
    destruct (retry _ _ _ _ _ _) as [(r & [h s1] & ev)|]; [|done]. cbn [mbind option_bind]. destruct (negb (r =? 0)).
    + destruct (_send_error _ _ _) eqn:E; [|done]. intros [= <- <- <-]. by eapply Herr.
    + cbn. intros [= <- <- <-]. apply default_words; [done|congruence].
  - unfold _geth. destruct (OekMsg_get_get_cmd _) as [cmd|] eqn:Ec; [|done]. cbn [mbind option_bind].
    destruct (retry _ _ _ _ _ _) as [(r & q & s1)|]; [|done]. cbn [mbind option_bind].
    destruct (negb (r =? 0) && negb (r =? OE_STORE_ITEM_NOTFOUND)).
    { destruct (_send_error _ _ _) eqn:E; [|done]. intros [= <- <- <-]. by eapply Herr. }
    destruct ((r =? OE_STORE_ITEM_NOTFOUND) || (OeStoreQuery_get_nitems_found q =? 0)).
    + unfold _geth_handle_no_results. rewrite Ec. cbn [mbind option_bind].
      destruct (_ <=? _); [|destruct (_ && _)].
      1-2: destruct (_no_results ctx) eqn:E; [|done]; intros [= <- <- <-]; by eapply no_results_words.
      intros [= <- <- <-]. done.
    + unfold _geth_handle_result. rewrite Ec. cbn [mbind option_bind].
      destruct (c_assert _); [|done]. cbn [mbind option_bind]. destruct (handle_result_loop _ _ _ _ _ _) as [ms|] eqn:E; [|done].
      intros [= <- <- <-]. apply default_words; [done|]. intros _. eexists.
      destruct (result_number _ _ _ _ _ _ _ E) as [H1 H2]; [by intros m r' ?%elem_of_nil|].
      split; [exact H1|right]. rewrite H2. unfold OeStoreQuery_get_nitems_found. by rewrite AList.length_spec.
Qed.

(** C15  What the kernel calls back with, executing a context against a store
    whose operations return, is what [allowed] lets it answer. *)
Theorem kernel_answered s ctx s' evs c (Htot : ops_total (S := St)) (Hf : fresh_context ctx)
    (Hc : response_of (mtype (Kernel.cmd_msg ctx)) ≠ OEK_NON) (E : OEK_exec clk now s ctx = Some (s', evs, K_write c)) :
  answered ctx c.
Proof.
  destruct (exec_words s ctx s' evs _ Hf E) as (H1 & H2 & H3). split; [done| |done|done].
  assert (∃ s1 evs1 out, OEK_exec clk now s ctx = Some (s1, evs1, out) ∧ answers now ctx out) as (s1 & evs1 & out & E1 & Ha).
  { unfold OEK_exec, OekMsg_get_type. destruct (mtype (Kernel.cmd_msg ctx)) eqn:Et; try done.
    - by apply ssta_answers.
    - by apply supt_answers.
    - by apply supl_answers.
    - by apply sput_answers.
    - by apply geth_answers. }
  rewrite E in E1. injection E1 as _ _ <-. exact Ha.
Qed.

End kernel.

(** Destroying the results of a get disposes of their arena twice: with
    the future, and again as the list's own. *)
Theorem results_freed_twice (w : world) (a : nat) (l : OesDataObjectList) (f : future) (Hw : reachable w)
    (El : lists w !! a = Some l) (Ef : list_f l = Live f) (Hd : Future.done_ f = true) :
  delete_OesDataObjectList a w = Crash.
Proof.
  apply reachable_good in Hw. destruct (g_memory _ Hw) as [own M].
  destruct (mo_results _ _ M a l El) as [?|(f' & r & Ef' & Er & Ha)]; [congruence|].
  rewrite Ef in Ef'. injection Ef' as <-.
  assert (fut w (To_results a) = Some f) as Hf by (cbn; rewrite El; cbn; by rewrite Ef).
  destruct (mo_futs _ _ M _ _ Hf) as (r' & Hr & Ho). assert (r' = r) as -> by (rewrite Ha in Hr; injection Hr; lia).
  unfold delete_OesDataObjectList. rewrite El. cbn [safe mbind outcome_bind]. rewrite Ef.
  rewrite (free_ok w own f r (To_results a) M Hd Ha Ho). cbn [mbind outcome_bind]. rewrite Er.
  unfold Arena_dispose. cbn [arenas set_arenas]. rewrite bool_decide_eq_false_2; [done|]. set_solver.
Qed.

(** ** The theorems at concrete runs *)

Lemma allowed_prefix es es' : ∀ w, allowed_run (es ++ es') w → allowed_run es w.
Proof. induction es as [|e es IH]; intros w; cbn; [done|]. intros [? H]. split; [done|]. destruct (step w (e w)); auto. Qed.

Definition state_after (n : nat) : world := match run (take n race) start with Done w => w | _ => start end.
Lemma after_reachable n : reachable (state_after n).
Proof.
  destruct (script_run_reachable (take n race) start) as (w & E & Hw); [constructor|..].
  - apply (allowed_prefix _ (drop n race)). rewrite take_drop. apply race_allowed.
  - unfold state_after. by rewrite E.
Qed.

Lemma script_safe_witness : reachable (state_after 9) ∧ ∃ w', step (state_after 9) (K_update 1) = Done w'.
Proof.
  split; [apply after_reachable|]. destruct (script_safe (state_after 9) (after_reachable 9)) as (_ & _ & H & _).
  apply H. do 2 eexists. vm_compute. reflexivity.
Defined.

Lemma commit_counts_witness :
  ∃ w', step (state_after 13) (U_end_rest 4) = Done w' ∧ counted 0 (items (state_after 13)) = 2 ∧
    ∃ c' cmd home, jobs w' = jobs (state_after 13) ++ [Asked c' home (oes_upt_promise_cb 0)] ∧
      OekMsg_get_upt_cmd (Kernel.cmd_msg c') = Some cmd ∧ upt_enlisted cmd = 1.
Proof.
  assert (∃ c home, ending (state_after 13) = Some (0%nat, c, home, 3)) as (c & home & En) by (vm_compute; by do 2 eexists).
  assert (∃ w', step (state_after 13) (U_end_rest 4) = Done w') as [w' E] by (vm_compute; by eexists).
  exists w'. split; [exact E|]. split; [by vm_compute|].
  destruct (commit_counts (state_after 13) w' 0 home c 3 4 (after_reachable 13) En ltac:(by vm_compute) E)
    as ((c' & cmd & E1 & E2 & E3) & _).
  exists c', cmd, home. split; [exact E1|]. split; [exact E2|]. rewrite E3. by vm_compute.
Defined.

Lemma exception_text_witness :
  check_exception (throw_exception "lease not found" (throw_exception "incorrect txn enlisted count" start)) =
  Done (Some ("lease not found" +:+ "nlisted count")).
Proof.
  destruct (exception_text (throw_exception "incorrect txn enlisted count" start) "lease not found") as (_ & H & _).
  { unfold no_nul. vm_compute. set_solver. }
  apply (H "incorrect txn e" "nlisted count"); [|done|cbn; lia|].
  - unfold no_nul. vm_compute. set_solver.
  - eexists. vm_compute. reflexivity.
Defined.

(** A read that has failed *)
Definition failure (ctx : OEK_Context) (id : Z) (text : string) : OEK_Context :=
  set_err ctx (mkOekMsg OEK_ERR (OekMsg_get_cid (Kernel.cmd_msg ctx)) (OekMsg_get_tid (Kernel.cmd_msg ctx)) true
    (D_err (mkOekErr id (Some text)))).
Definition demo_read : list (world → event) :=
  [λ _, U_list [DataObject_add_attr DataObject_new "_"];
   λ _, U_get 0 100 false true 3 true true 0 1;
   λ w, K_answer 0 (failure (ask_of w 0) 105 "get failed");
   λ _, K_update 0].

Lemma error_answered ctx id text : fresh_context ctx → answered ctx (failure ctx id text).
Proof.
  intros [_ _ Hr He]. split; cbn.
  - done.
  - left. eexists. split; [done|]. split; [exact Hr|]. by split_and!.
  - intros m e [= <-] [= <-]. by eexists.
  - congruence.
Qed.

Lemma demo_read_allowed : allowed_run demo_read start.
Proof.
  unfold demo_read. split; [done|]. go_on.
  split; [split; [done|]; split; [done|]; split; [eexists; split; [vm_compute; reflexivity|done]|done]|]. go_on.
  split; [split; [do 3 eexists; split; [vm_compute; reflexivity|apply error_answered; by split]|done]|]. go_on.
  split; [by do 2 eexists|]. go_on. done.
Qed.

Lemma results_freed_twice_witness : ∃ w, run demo_read start = Done w ∧ delete_OesDataObjectList 2 w = Crash.
Proof.
  destruct (script_run_reachable demo_read start) as (w & E & Hw); [constructor|exact demo_read_allowed|].
  exists w. split; [exact E|].
  assert (∃ l f, lists w !! 2%nat = Some l ∧ list_f l = Live f ∧ Future.done_ f = true) as (l & f & El & Ef & Hd).
  { vm_compute in E. injection E as <-. vm_compute. by do 2 eexists. }
  exact (results_freed_twice w 2 l f Hw El Ef Hd).
Defined.

Lemma kernel_answered_witness :
  ∃ s' evs c, OEK_exec (λ _, (50, 50)) 50 1001 a_upl = Some (s', evs, K_write c) ∧ answered a_upl c.
Proof.
  do 3 eexists. split; [reflexivity|].
  apply (kernel_answered (λ _, (50, 50)) 50 1001 a_upl 1001 []); [apply answering_total|by split|done|reflexivity].
Defined.
