(* ===== verification/Pool.v ===== *)
(** * Pool: the pool of worker threads

    Models [src/corelib/Oe_Thread_Dispatcher.c], built with threads.  Jobs go
    into a queue that is linked through the items and locked; every worker
    takes items out and runs them; stopping puts one quit item per worker into
    the queue and joins the workers.

    What a thread does under the lock is one step: a worker that has taken an
    item runs it and frees it in a later step, so that jobs overlap.  A worker
    that finds the queue empty waits for its condition variable and makes no
    further step until it is woken: by a signal, which wakes one of the threads
    that wait and is lost when none does, or spuriously.  Which worker a signal
    wakes is an argument of the step that signals.  A
    run is a sequence of steps of the workers, of the thread that starts and
    stops the pool, and of the threads that hand it jobs.  Items are on a heap;
    reading an address that is not there is [None].  A job is a function
    pointer and its argument; jobs return, with or without an exception, which
    [_process_fun] catches. *)

From S2P Require Import Prelude Values.

Definition MAX_THREADS : Z := 32.

Inductive TD_ITEM_TYPE := TD_PROCESS | TD_TQUIT | TD_DIAG.
#[global] Instance td_type_eq : EqDecision TD_ITEM_TYPE.
Proof. solve_decision. Defined.

Record td_item_ := mkItem {
  itype : TD_ITEM_TYPE;
  fun_ : Z;
  fun_args : Z;
  next : option Z
}.

Record TD_QUE := mkQue {
  q_head : option Z;
  q_tail : option Z;
  q_running : Z;
  q_size : Z;
  q_counter : Z
}.

(** Where a worker is: created, about to look into the queue, waiting for the
    condition, running an item, exited *)
Inductive worker := W_starting | W_idle | W_waiting | W_working (item : Z) | W_exited.
(** Where the thread that starts and stops the pool is *)
Inductive owner :=
  | M_new | M_spawning (i : Z) | M_ready | M_stopping (i : Z) | M_joining (i : Z) | M_stopped.
#[global] Instance worker_eq : EqDecision worker.
Proof. solve_decision. Defined.
#[global] Instance owner_eq : EqDecision owner.
Proof. solve_decision. Defined.

(** What an item asks for *)
Definition entry : Type := TD_ITEM_TYPE * Z * Z.
Definition entry_of (it : td_item_) : entry := (itype it, fun_ it, fun_args it).

(** A pool with its heap.  The last fields record the run: the entries
    pushed and those taken, the jobs that have finished and those run by
    [Oe_Thread_Dispatcher_exec] itself, and how many entries had been pushed
    when the pool was told to stop. *)
Record pool := mkPool {
  heap : gmap Z td_item_;
  fresh : Z;
  que : TD_QUE;
  number_of_threads : Z;
  running : Z;
  threads : list worker;
  main : owner;
  pushed : list entry;
  taken : list entry;
  finished : list (Z * Z);
  inlined : list (Z * Z);
  mark : nat
}.

Definition set_threads (l : list worker) (p : pool) : pool :=
  mkPool (heap p) (fresh p) (que p) (number_of_threads p) (running p) l (main p) (pushed p) (taken p)
    (finished p) (inlined p) (mark p).
Definition set_main (m : owner) (r : Z) (p : pool) : pool :=
  mkPool (heap p) (fresh p) (que p) (number_of_threads p) r (threads p) m (pushed p) (taken p)
    (finished p) (inlined p) (mark p).
Definition set_mark (p : pool) : pool :=
  mkPool (heap p) (fresh p) (que p) (number_of_threads p) (running p) (threads p) (main p) (pushed p) (taken p)
    (finished p) (inlined p) (length (pushed p)).
Definition free_item (a : Z) (p : pool) : pool :=
  mkPool (delete a (heap p)) (fresh p) (que p) (number_of_threads p) (running p) (threads p) (main p)
    (pushed p) (taken p) (finished p) (inlined p) (mark p).

(** ** Oe_Thread_Dispatcher.c *)

Definition Oe_Thread_Dispatcher_new (number_of_threads : Z) : option pool :=
  _ ← c_assert (number_of_threads <=? MAX_THREADS);
  Some (mkPool ∅ 1 (mkQue None None 0 0 0) number_of_threads 0 [] M_new [] [] [] [] 0).

(** [oe_pthread_cond_signal] on the queue's condition: [w] is the worker it
    wakes, [None] that no worker waits. *)
Definition cond_signal (w : option nat) (p : pool) : pool :=
  match w with Some i => set_threads (<[i := W_idle]> (threads p)) p | None => p end.
Definition signals (p : pool) (w : option nat) : bool :=
  match w with
  | Some i => bool_decide (threads p !! i = Some W_waiting)
  | None => bool_decide (W_waiting ∉ threads p)
  end.

(** The item is allocated, filled and linked; then the condition is
    signalled. *)
Definition que_link (t : TD_ITEM_TYPE) (f arg : Z) (p : pool) : option pool :=
  let a := fresh p in
  let q := que p in
  let h := <[a := mkItem t f arg None]> (heap p) in
  '(hd, h) ← match q_tail q with
             | None => Some (Some a, h)
             | Some tl =>
               it ← h !! tl;
               Some (q_head q, <[tl := mkItem (itype it) (fun_ it) (fun_args it) (Some a)]> h)
             end;
  Some (mkPool h (a + 1) (mkQue hd (Some a) (q_running q) (i64 (q_size q + 1)) (i64 (q_counter q + 1)))
          (number_of_threads p) (running p) (threads p) (main p) (pushed p ++ [(t, f, arg)]) (taken p)
          (finished p) (inlined p) (mark p)).

Definition _que_push (t : TD_ITEM_TYPE) (f arg : Z) (w : option nat) (p : pool) : option pool :=
  p ← que_link t f arg p;
  Some (cond_signal w p).

(** The inner [None]: the caller waits for the condition. *)
Definition _que_pop (p : pool) : option (option (Z * td_item_ * pool)) :=
  let q := que p in
  match q_head q with
  | None => Some None
  | Some a =>
    item ← heap p !! a;
    let hd := next item in
    let tl := match hd with None => None | Some _ => q_tail q end in
    Some (Some (a, item,
      mkPool (heap p) (fresh p) (mkQue hd tl (q_running q) (i64 (q_size q - 1)) (q_counter q))
        (number_of_threads p) (running p) (threads p) (main p) (pushed p) (taken p ++ [entry_of item])
        (finished p) (inlined p) (mark p)))
  end.

(** [_do_work] of worker [i]: its start, one turn of its loop up to the
    job, and the end of the job. *)
Definition work_begin (i : nat) (w : option nat) (p : pool) : pool :=
  let q := que p in
  cond_signal w (mkPool (heap p) (fresh p) (mkQue (q_head q) (q_tail q) (i32 (q_running q + 1)) (q_size q) (q_counter q))
    (number_of_threads p) (running p) (<[i := W_idle]> (threads p)) (main p) (pushed p) (taken p) (finished p)
    (inlined p) (mark p)).

Definition work_take (i : nat) (p : pool) : option pool :=
  r ← _que_pop p;
  match r with
  | None => Some (set_threads (<[i := W_waiting]> (threads p)) p)
  | Some (a, item, p) =>
    match itype item with
    | TD_PROCESS => Some (set_threads (<[i := W_working a]> (threads p)) p)
    | TD_TQUIT => Some (set_threads (<[i := W_exited]> (threads p)) (free_item a p))
    | TD_DIAG => Some (free_item a p)
    end
  end.

Definition work_finish (i : nat) (a : Z) (p : pool) : option pool :=
  item ← heap p !! a;
  Some (mkPool (delete a (heap p)) (fresh p) (que p) (number_of_threads p) (running p)
          (<[i := W_idle]> (threads p)) (main p) (pushed p) (taken p)
          (finished p ++ [(fun_ item, fun_args item)]) (inlined p) (mark p)).

Definition Oe_Thread_Dispatcher_exec (f arg : Z) (w : option nat) (p : pool) : option pool :=
  if 0 <? number_of_threads p then _que_push TD_PROCESS f arg w p
  else
    Some (mkPool (heap p) (fresh p) (que p) (number_of_threads p) (running p) (threads p) (main p) (pushed p)
            (taken p) (finished p) (inlined p ++ [(f, arg)]) (mark p)).

(** [Oe_Thread_Dispatcher_start]: creating a thread, a turn of the loop that
    waits until they run, and its last turn.  [size_t nt = number_of_threads]. *)
Definition start_spawn (i : Z) (p : pool) : option pool :=
  _ ← c_assert (i <? MAX_THREADS);
  Some (set_main (M_spawning (i + 1)) (running p) (set_threads (threads p ++ [W_starting]) p)).
Definition start_poll (w : option nat) (p : pool) : pool := cond_signal w p.
Definition start_ready (w : option nat) (p : pool) : pool :=
  let p := if 0 <? u64 (number_of_threads p) then cond_signal w p else p in
  set_main M_ready 1 p.

(** [Oe_Thread_Dispatcher_stop]: its test, the pushing of one quit item, and
    the joining of one thread. *)
Definition stop_begin (p : pool) : pool :=
  if (0 <? number_of_threads p) && negb (running p =? 0)
  then set_main (M_stopping 0) (running p) (set_mark p)
  else set_main M_stopped 0 (set_mark p).
Definition stop_push (i : Z) (w : option nat) (p : pool) : option pool :=
  p ← _que_push TD_TQUIT 0 0 w p;
  Some (set_main (if i + 1 <? number_of_threads p then M_stopping (i + 1) else M_joining 0) (running p) p).
Definition stop_join (i : Z) (p : pool) : pool :=
  if i + 1 <? number_of_threads p then set_main (M_joining (i + 1)) (running p) p
  else set_main M_stopped 0 p.

(** One turn of the loop of [Oe_Thread_Dispatcher_stats] *)
Definition stats_push (w : option nat) (p : pool) : option pool := _que_push TD_DIAG 0 0 w p.

(** ** Runs *)

Inductive event :=
  | E_start | E_spawn | E_poll (w : option nat) | E_ready (w : option nat)
  | E_begin (i : nat) (w : option nat) | E_take (i : nat) | E_finish (i : nat)
  | E_exec (f arg : Z) (w : option nat) | E_stats (w : option nat)
  | E_stop | E_quit (w : option nat) | E_join
  | E_wake (i : nat).

(** All workers count as running: the test of the loop of
    [Oe_Thread_Dispatcher_start], which is not there without threads *)
Definition all_running (p : pool) : bool :=
  (u64 (number_of_threads p) =? 0) || (u64 (number_of_threads p) <=? u64 (q_running (que p))).

(** When a thread can make a step: it is there, what it waits for has come,
    and the worker its signal wakes is one that waits.  [E_wake]: a worker that
    waits for the condition can wake without a signal. *)
Definition can (p : pool) (e : event) : bool :=
  match e with
  | E_start => bool_decide (main p = M_new)
  | E_spawn => match main p with M_spawning i => i <? u64 (number_of_threads p) | _ => false end
  | E_poll w =>
    match main p with
    | M_spawning i => negb (i <? u64 (number_of_threads p)) && negb (all_running p) && signals p w
    | _ => false
    end
  | E_ready w =>
    match main p with
    | M_spawning i => negb (i <? u64 (number_of_threads p)) && all_running p && signals p w
    | _ => false
    end
  | E_begin i w => bool_decide (threads p !! i = Some W_starting) && signals p w
  | E_take i => bool_decide (threads p !! i = Some W_idle)
  | E_finish i => match threads p !! i with Some (W_working _) => true | _ => false end
  | E_exec _ _ w => signals p w
  | E_stats w => (0 <? number_of_threads p) && signals p w
  | E_stop => bool_decide (main p = M_ready)
  | E_quit w => match main p with M_stopping _ => signals p w | _ => false end
  | E_join => match main p with
              | M_joining i => bool_decide (threads p !! Z.to_nat i = Some W_exited)
              | _ => false
              end
  | E_wake i => bool_decide (threads p !! i = Some W_waiting)
  end.

Definition step (p : pool) (e : event) : option pool :=
  match e with
  | E_start => Some (set_main (M_spawning 0) (running p) p)
  | E_spawn => match main p with M_spawning i => start_spawn i p | _ => Some p end
  | E_poll w => Some (start_poll w p)
  | E_ready w => Some (start_ready w p)
  | E_begin i w => Some (work_begin i w p)
  | E_take i => work_take i p
  | E_finish i => match threads p !! i with Some (W_working a) => work_finish i a p | _ => Some p end
  | E_exec f arg w => Oe_Thread_Dispatcher_exec f arg w p
  | E_stats w => stats_push w p
  | E_stop => Some (stop_begin p)
  | E_quit w => match main p with M_stopping i => stop_push i w p | _ => Some p end
  | E_join => match main p with M_joining i => Some (stop_join i p) | _ => Some p end
  | E_wake i => Some (cond_signal (Some i) p)
  end.

(** A run of given steps, each of which can be made *)
Fixpoint run (es : list event) (p : pool) : option pool :=
  match es with
  | [] => Some p
  | e :: es => if can p e then p ← step p e; run es p else None
  end.

Definition pstep (p p' : pool) : Prop := ∃ e, can p e = true ∧ step p e = Some p'.

(** A pool of [n] threads, in a state that a run reaches *)
Definition reachable (n : Z) (p : pool) : Prop :=
  ∃ p0, Oe_Thread_Dispatcher_new n = Some p0 ∧ rtc pstep p0 p.

(** ** The queue *)

Definition busy_of (w : worker) : option Z := match w with W_working a => Some a | _ => None end.
Definition busy (p : pool) : list Z := omap busy_of (threads p).
Definition job_of (e : entry) : option (Z * Z) :=
  match e with (TD_PROCESS, f, arg) => Some (f, arg) | _ => None end.
Definition jobs (l : list entry) : list (Z * Z) := omap job_of l.
Definition entry_at (h : gmap Z td_item_) (a : Z) : option entry := entry_of <$> h !! a.
(** The items at these addresses are linked in this order, the last to NULL. *)
Definition link (h : gmap Z td_item_) (l : list Z) : Prop :=
  ∀ k a, l !! k = Some a → ∃ it, h !! a = Some it ∧ next it = l !! S k.

Record queue_ok (p : pool) (l : list Z) : Prop := {
  qk_nodup : NoDup (l ++ busy p);
  qk_head : q_head (que p) = head l;
  qk_tail : q_tail (que p) = list.last l;
  qk_link : link (heap p) l;
  qk_fresh : ∀ a, is_Some (heap p !! a) → a < fresh p;
  qk_busy : ∀ a, a ∈ busy p → ∃ it, heap p !! a = Some it ∧ itype it = TD_PROCESS;
  qk_entries : pushed p = taken p ++ omap (entry_at (heap p)) l;
  qk_size : q_size (que p) = i64 (Z.of_nat (length l));
  qk_counter : q_counter (que p) = i64 (Z.of_nat (length (pushed p)));
  qk_jobs : jobs (taken p) ≡ₚ finished p ++ jobs (omap (entry_at (heap p)) (busy p))
}.

Lemma link_live h l a : link h l → a ∈ l → is_Some (h !! a).
Proof. intros H [k Hk]%list_elem_of_lookup. destruct (H k a Hk) as (? & -> & _). done. Qed.

Lemma entry_at_ext (h h' : gmap Z td_item_) (l : list Z) :
  (∀ a, a ∈ l → entry_at h' a = entry_at h a) → omap (entry_at h') l = omap (entry_at h) l.
Proof.
  induction l as [|a l IH]; intros H; [done|]. cbn. rewrite (H a) by set_solver.
  rewrite IH by set_solver. done.
Qed.

Lemma busy_insert (l : list worker) i x w :
  l !! i = Some x →
  option_list (busy_of x) ++ omap busy_of (<[i := w]> l) ≡ₚ option_list (busy_of w) ++ omap busy_of l.
Proof.
  intros E. rewrite <-(take_drop_middle l i x E) at 2.
  rewrite (insert_take_drop l i w) by (by eapply lookup_lt_Some).
  rewrite !omap_app. cbn. destruct (busy_of x), (busy_of w); cbn; solve_Permutation.
Qed.

(** What a push leaves alone *)
Record pushed_to (p p' : pool) (e : entry) : Prop := {
  pt_pushed : pushed p' = pushed p ++ [e];
  pt_taken : taken p' = taken p;
  pt_threads : threads p' = threads p;
  pt_main : main p' = main p;
  pt_running : running p' = running p;
  pt_n : number_of_threads p' = number_of_threads p;
  pt_mark : mark p' = mark p;
  pt_count : q_running (que p') = q_running (que p);
  pt_inlined : inlined p' = inlined p
}.

(** The heap after a push: a new item, to which the old last one points *)
Lemma push_heap h l a it :
  link h l → NoDup l → a ∉ l → next it = None →
  ∃ h', (match list.last l with
         | None => Some (Some a, <[a := it]> h)
         | Some tl =>
           x ← <[a := it]> h !! tl;
           Some (head l, <[tl := mkItem (itype x) (fun_ x) (fun_args x) (Some a)]> (<[a := it]> h))
         end) = Some (head (l ++ [a]), h') ∧
    link h' (l ++ [a]) ∧ (∀ b, b ≠ a → entry_at h' b = entry_at h b) ∧ entry_at h' a = Some (entry_of it) ∧
    (∀ b, is_Some (h' !! b) ↔ b = a ∨ is_Some (h !! b)).
Proof.
  intros Hl Hnd Ha Hn. destruct (list.last l) as [tl|] eqn:El.
  - apply last_Some in El as [l0 ->].
    assert (tl ≠ a) as Hne by set_solver.
    destruct (Hl (length l0) tl) as (x & Ex & En). { by rewrite lookup_app_r, Nat.sub_diag by lia. }
    rewrite lookup_insert_ne, Ex by done. cbn. eexists. split.
    { by destruct l0. }
    split_and!.
    + intros k b Hk. destruct (decide (k < length l0)%nat) as [Hlt|Hge].
      { rewrite lookup_app_l in Hk by (rewrite length_app; cbn; lia).
        rewrite lookup_app_l in Hk by done.
        destruct (Hl k b) as (it' & E' & N'). { by rewrite lookup_app_l. }
        assert (b ≠ tl) as Hbt.
        { intros ->. apply list.NoDup_app in Hnd as (_ & Hd & _). apply (Hd tl); [by eapply list_elem_of_lookup_2|set_solver]. }
        assert (b ≠ a) as Hba.
        { intros ->. apply Ha, elem_of_app. left. by eapply list_elem_of_lookup_2. }
        exists it'. rewrite !lookup_insert_ne by done. split; [done|]. rewrite N'.
        symmetry. apply lookup_app_l. rewrite length_app. cbn. lia. }
      apply not_lt in Hge. rewrite <-app_assoc in Hk |- *. cbn in *.
      rewrite lookup_app_r in Hk by done. rewrite lookup_app_r by lia.
      destruct (k - length l0)%nat as [|[|j]] eqn:Ej; cbn in Hk; [| |done]; simplify_eq.
      * eexists. rewrite lookup_insert_eq. split; [done|]. replace (S k - length l0)%nat with 1%nat by lia. done.
      * exists it. rewrite lookup_insert_ne, lookup_insert_eq by done. split; [done|].
        replace (S k - length l0)%nat with 2%nat by lia. done.
    + intros b Hb. unfold entry_at. destruct (decide (b = tl)) as [->|].
      * by rewrite lookup_insert_eq, Ex.
      * by rewrite !lookup_insert_ne.
    + unfold entry_at. by rewrite lookup_insert_ne, lookup_insert_eq.
    + intros b. destruct (decide (b = tl)) as [->|]; [rewrite lookup_insert_eq, Ex; naive_solver|].
      rewrite lookup_insert_ne by done. destruct (decide (b = a)) as [->|].
      * rewrite lookup_insert_eq. naive_solver.
      * rewrite lookup_insert_ne by done. naive_solver.
  - apply last_None in El as ->. eexists. split; [done|]. split_and!.
    + intros [|k] b Hk; cbn in Hk; [|done]. simplify_eq. exists it. by rewrite lookup_insert_eq.
    + intros b Hb. unfold entry_at. by rewrite lookup_insert_ne.
    + unfold entry_at. by rewrite lookup_insert_eq.
    + intros b. destruct (decide (b = a)) as [->|].
      * rewrite lookup_insert_eq. naive_solver.
      * rewrite lookup_insert_ne by done. naive_solver.
Qed.

Lemma que_link_ok p l t f arg :
  queue_ok p l →
  ∃ p', que_link t f arg p = Some p' ∧ queue_ok p' (l ++ [fresh p]) ∧ pushed_to p p' (t, f, arg).
Proof.
  intros H. assert (fresh p ∉ l ++ busy p) as Hf.
  { rewrite elem_of_app. intros [Hin|Hin].
    - destruct (link_live _ _ _ (qk_link p l H) Hin) as [? E]. pose proof (qk_fresh p l H (fresh p) ltac:(eauto)). lia.
    - destruct (qk_busy p l H _ Hin) as (? & E & _). pose proof (qk_fresh p l H (fresh p) ltac:(eauto)). lia. }
  pose proof (qk_nodup p l H) as Hnd. apply list.NoDup_app in Hnd as (Hnl & Hdis & Hnb).
  destruct (push_heap (heap p) l (fresh p) (mkItem t f arg None)) as (h' & E & Hl & Hother & Hnew & Hdom);
    [apply H|done|set_solver|done|].
  unfold que_link. rewrite (qk_tail p l H), (qk_head p l H), E. cbn.
  eexists. split; [done|]. split; [|done]. split; cbn.
  - unfold busy. cbn. rewrite <-app_assoc. apply list.NoDup_app. split; [done|].
    split; [|apply list.NoDup_app; split; [apply list.NoDup_singleton|split; [set_solver|done]]].
    intros x Hx. rewrite elem_of_app, list_elem_of_singleton. intros [->|?]; [set_solver|by apply (Hdis x)].
  - done.
  - by rewrite last_snoc.
  - done.
  - intros a [->|Ha]%Hdom; [lia|]. pose proof (qk_fresh p l H a Ha). lia.
  - intros a Ha. destruct (qk_busy p l H a Ha) as (it & Ei & Et).
    assert (entry_at h' a = Some (entry_of it)) as Ea.
    { rewrite Hother by (intros ->; set_solver). unfold entry_at. by rewrite Ei. }
    unfold entry_at in Ea. destruct (h' !! a) as [it'|]; [|done]. injection Ea as E1 E2 E3.
    exists it'. split; [done|congruence].
  - rewrite (qk_entries p l H), omap_app, <-app_assoc. f_equal.
    rewrite (entry_at_ext (heap p) h' l) by (intros a Ha; apply Hother; set_solver). cbn. by rewrite Hnew.
  - rewrite (qk_size p l H), wraps_add by lia. rewrite length_app. cbn. f_equal. lia.
  - rewrite (qk_counter p l H), wraps_add by lia. rewrite length_app. cbn. f_equal. lia.
  - unfold busy. cbn [threads]. change (omap busy_of (threads p)) with (busy p).
    rewrite (entry_at_ext (heap p) h' (busy p)) by (intros a Ha; apply Hother; set_solver). apply H.
Qed.

(** What taking an item or ending a job leaves alone *)
Record worked (p p' : pool) : Prop := {
  wk_pushed : pushed p' = pushed p;
  wk_main : main p' = main p;
  wk_running : running p' = running p;
  wk_n : number_of_threads p' = number_of_threads p;
  wk_mark : mark p' = mark p;
  wk_count : q_running (que p') = q_running (que p)
}.

(** The state a worker is in after it has taken an item *)
Definition after_take (a : Z) (it : td_item_) : worker :=
  match itype it with TD_PROCESS => W_working a | TD_TQUIT => W_exited | TD_DIAG => W_idle end.

Lemma after_take_awake a it : after_take a it ≠ W_waiting.
Proof. unfold after_take. by destruct (itype it). Qed.

Lemma link_tail h a l : link h (a :: l) → link h l.
Proof. intros H k b Hk. by apply (H (S k) b). Qed.
Lemma link_delete h a l : link h l → a ∉ l → link (delete a h) l.
Proof.
  intros H Ha k b Hk. destruct (H k b Hk) as (it & E & N). exists it.
  rewrite lookup_delete_ne; [done|]. intros ->. apply Ha. by eapply list_elem_of_lookup_2.
Qed.
Lemma entry_at_delete h a b : a ≠ b → entry_at (delete a h) b = entry_at h b.
Proof. intros. unfold entry_at. by rewrite lookup_delete_ne. Qed.

Lemma pop_ok p a l :
  queue_ok p (a :: l) →
  ∃ it, heap p !! a = Some it ∧ next it = head l ∧
    _que_pop p = Some (Some (a, it,
      mkPool (heap p) (fresh p) (mkQue (head l) (list.last l) (q_running (que p)) (i64 (Z.of_nat (length l)))
          (q_counter (que p)))
        (number_of_threads p) (running p) (threads p) (main p) (pushed p) (taken p ++ [entry_of it])
        (finished p) (inlined p) (mark p))).
Proof.
  intros H. destruct (qk_link p _ H 0%nat a eq_refl) as (it & E & N).
  assert (next it = head l) as Nh by (rewrite N; by destruct l).
  exists it. split; [done|]. split; [done|]. unfold _que_pop. rewrite (qk_head p _ H). cbn [list.head].
  rewrite E. cbn. rewrite Nh, (qk_size p _ H), (qk_tail p _ H). do 4 f_equal.
  f_equal; [by destruct l|]. replace (Z.of_nat (length (a :: l))) with (1 + Z.of_nat (length l)) by (cbn; lia).
  unfold Z.sub. rewrite wraps_add by lia. f_equal. lia.
Qed.

(** The queue after its first item was taken and the workers became [l'],
    with the item still there or freed *)
Lemma taken_ok p p' a it l :
  queue_ok p (a :: l) → heap p !! a = Some it → pushed p' = pushed p → taken p' = taken p ++ [entry_of it] →
  finished p' = finished p → fresh p' = fresh p →
  que p' = mkQue (head l) (list.last l) (q_running (que p)) (i64 (Z.of_nat (length l))) (q_counter (que p)) →
  match itype it with
  | TD_PROCESS => heap p' = heap p ∧ busy p' ≡ₚ a :: busy p
  | _ => heap p' = delete a (heap p) ∧ busy p' ≡ₚ busy p
  end →
  queue_ok p' l.
Proof.
  intros H Ea Ep Et Ef Er Eq Eh.
  pose proof (qk_nodup p _ H) as Hnd. cbn in Hnd. apply list.NoDup_cons in Hnd as [Hna Hnd].
  rewrite elem_of_app in Hna.
  assert (entry_at (heap p) a = Some (entry_of it)) as Ee by (unfold entry_at; by rewrite Ea).
  assert (pushed p = (taken p ++ [entry_of it]) ++ omap (entry_at (heap p)) l) as Hen.
  { rewrite (qk_entries p _ H). cbn. by rewrite Ee, <-app_assoc. }
  assert (∀ b, b ∈ l ∨ b ∈ busy p → b ≠ a) as Hne by (intros b Hb ->; naive_solver).
  pose proof (link_tail _ _ _ (qk_link p _ H)) as Hl. pose proof (qk_jobs p _ H) as Hj.
  split; rewrite ?Ep, ?Et, ?Ef, ?Er, ?Eq; try done; try apply H.
  - destruct (itype it); destruct Eh as [_ ->]; [|done..]. rewrite <-Permutation_middle.
    apply list.NoDup_cons. by rewrite elem_of_app.
  - destruct (itype it); destruct Eh as [-> _]; [done|apply link_delete; naive_solver..].
  - intros b Hb. apply (qk_fresh p _ H). destruct (itype it); destruct Eh as [Eh _]; rewrite Eh in Hb; [done|..];
      apply lookup_delete_is_Some in Hb; naive_solver.
  - intros b Hb. destruct (itype it) eqn:Ety; destruct Eh as [-> Eb]; rewrite Eb in Hb.
    + apply elem_of_cons in Hb as [->|Hb]; [by exists it|by apply H].
    + rewrite lookup_delete_ne by (symmetry; auto). by apply H.
    + rewrite lookup_delete_ne by (symmetry; auto). by apply H.
  - rewrite Hen. f_equal. symmetry. apply entry_at_ext. intros b Hb.
    destruct (itype it); destruct Eh as [-> _]; [done|apply entry_at_delete..]; symmetry; auto.
  - unfold jobs in *. rewrite omap_app, Hj. cbn. unfold entry_of.
    destruct (itype it) eqn:Ety; destruct Eh as [-> Eb]; rewrite Eb; cbn.
    + rewrite Ee. unfold entry_of. rewrite Ety. cbn. solve_Permutation.
    + rewrite app_nil_r, (entry_at_ext (heap p) (delete a (heap p)) (busy p)); [done|].
      intros b Hb. apply entry_at_delete. symmetry; auto.
    + rewrite app_nil_r, (entry_at_ext (heap p) (delete a (heap p)) (busy p)); [done|].
      intros b Hb. apply entry_at_delete. symmetry; auto.
Qed.

Lemma take_ok p i a l :
  queue_ok p (a :: l) → threads p !! i = Some W_idle →
  ∃ it p', heap p !! a = Some it ∧ work_take i p = Some p' ∧ queue_ok p' l ∧ worked p p' ∧
    taken p' = taken p ++ [entry_of it] ∧ threads p' = <[i := after_take a it]> (threads p).
Proof.
  intros H Ei. destruct (pop_ok p a l H) as (it & Ea & En & Epop). exists it.
  unfold work_take. rewrite Epop. cbn [mbind option_bind].
  pose proof (busy_insert (threads p) i W_idle (after_take a it) Ei) as Hb. cbn [option_list busy_of app] in Hb.
  unfold after_take in *. destruct (itype it) eqn:Et; cbn [option_list busy_of app] in Hb;
    (eexists; split; [done|]; split; [done|]; split; [|split; [done|split; [done|]]]; [|try done]).
  - eapply (taken_ok p _ a it l H Ea); try done. rewrite Et. split; [done|]. exact Hb.
  - eapply (taken_ok p _ a it l H Ea); try done. rewrite Et. split; [done|]. exact Hb.
  - eapply (taken_ok p _ a it l H Ea); try done. rewrite Et. done.
  - cbn. symmetry. by apply list_insert_id.
Qed.

Lemma finish_ok p i a l :
  queue_ok p l → threads p !! i = Some (W_working a) →
  ∃ p', work_finish i a p = Some p' ∧ queue_ok p' l ∧ worked p p' ∧ taken p' = taken p ∧
    threads p' = <[i := W_idle]> (threads p).
Proof.
  intros H Ei. pose proof (busy_insert (threads p) i _ W_idle Ei) as Hb. cbn in Hb.
  assert (a ∈ busy p) as Hin by (unfold busy; rewrite <-Hb; by left).
  destruct (qk_busy p l H a Hin) as (it & Ea & Et).
  unfold work_finish. rewrite Ea. cbn. eexists. split; [done|]. split; [|done].
  pose proof (qk_nodup p l H) as Hnd. unfold busy in Hnd. rewrite <-Hb, <-Permutation_middle in Hnd.
  apply list.NoDup_cons in Hnd as [Hna Hnd]. rewrite elem_of_app in Hna.
  assert (∀ b, b ∈ l ∨ b ∈ omap busy_of (<[i:=W_idle]> (threads p)) → b ≠ a) as Hne.
  { intros b Hb' ->. naive_solver. }
  split; cbn; try apply H.
  - done.
  - apply link_delete; [apply H|naive_solver].
  - intros b. rewrite lookup_delete_is_Some. intros [_ ?]. by apply H.
  - intros b Hb'. rewrite lookup_delete_ne by (symmetry; apply Hne; by right). apply H. unfold busy.
    rewrite <-Hb. by right.
  - rewrite (entry_at_ext (heap p) (delete a (heap p)) l); [apply H|].
    intros b Hb'. apply entry_at_delete. symmetry. apply Hne. by left.
  - unfold jobs. rewrite (qk_jobs p l H). unfold busy, jobs. rewrite <-Hb. cbn. unfold entry_at at 1. rewrite Ea. cbn.
    unfold entry_of. rewrite Et. cbn.
    rewrite (entry_at_ext (heap p) (delete a (heap p)) (omap busy_of (<[i:=W_idle]> (threads p)))).
    2: { intros b Hb'. apply entry_at_delete. symmetry. apply Hne. by right. }
    by rewrite <-app_assoc.
Qed.

(** ** The threads *)

Definition count {A} (P : A → bool) (l : list A) : Z := Z.of_nat (length (filter P l)).
Definition is_exited (w : worker) : bool := bool_decide (w = W_exited).
Definition is_begun (w : worker) : bool := bool_decide (w ≠ W_starting).
Definition is_quit (e : entry) : bool := bool_decide (e.1.1 = TD_TQUIT).
Definition quits (l : list entry) : Z := count is_quit l.

Lemma count_app {A} (P : A → bool) l k : count P (l ++ k) = count P l + count P k.
Proof. unfold count. rewrite list.filter_app, length_app. lia. Qed.
Lemma count_one {A} (P : A → bool) x : count P [x] = Z.b2z (P x).
Proof. unfold count. rewrite filter_cons. by destruct (P x). Qed.
Lemma count_cons {A} (P : A → bool) x l : count P (x :: l) = Z.b2z (P x) + count P l.
Proof. rewrite <-count_one. apply (count_app P [x] l). Qed.
Lemma count_nonneg {A} (P : A → bool) l : 0 ≤ count P l.
Proof. unfold count. lia. Qed.
Lemma count_le {A} (P : A → bool) l : count P l ≤ Z.of_nat (length l).
Proof. unfold count. pose proof (list.length_filter (λ x, P x) l). lia. Qed.
Lemma count_insert {A} (P : A → bool) (l : list A) i x w :
  l !! i = Some x → count P (<[i := w]> l) = count P l - Z.b2z (P x) + Z.b2z (P w).
Proof.
  intros E. rewrite <-(take_drop_middle l i x E) at 2.
  rewrite (insert_take_drop l i w) by (by eapply lookup_lt_Some).
  rewrite !count_app, !count_cons. lia.
Qed.
Lemma count_all {A} (P : A → bool) l : count P l = Z.of_nat (length l) → ∀ x, x ∈ l → P x = true.
Proof.
  induction l as [|y l IH]; [set_solver|]. rewrite count_cons. cbn [length]. pose proof (count_le P l).
  intros E x [->|Hx]%elem_of_cons; destruct (P y) eqn:Ey; cbn in *; try lia; auto. apply IH; [lia|done].
Qed.

Lemma count_pos {A} (P : A → bool) l : 0 < count P l → ∃ j x, l !! j = Some x ∧ P x = true.
Proof.
  induction l as [|y l IH]; [done|]. rewrite count_cons. destruct (P y) eqn:Ey; [by exists 0%nat, y|].
  intros (j & x & ? & ?)%IH. by exists (S j), x.
Qed.

(** Nothing that was pushed before the pool was told to stop is a quit item. *)
Definition marked (pu : list entry) (mk : nat) : Prop := (mk ≤ length pu)%nat ∧ quits (take mk pu) = 0.

Definition phase_ok (n : Z) (m : owner) (ts : list worker) (run : Z) (pu : list entry) (mk : nat) : Prop :=
  let all := Z.of_nat (length ts) = n ∧ W_starting ∉ ts in
  match m with
  | M_new => ts = [] ∧ quits pu = 0
  | M_spawning i => i ≤ n ∧ Z.of_nat (length ts) = i ∧ quits pu = 0
  | M_ready => all ∧ quits pu = 0 ∧ run = 1
  | M_stopping i => 0 ≤ i < n ∧ all ∧ quits pu = i ∧ marked pu mk
  | M_joining i => 0 ≤ i < n ∧ all ∧ quits pu = n ∧ marked pu mk ∧
                   ∀ j, Z.of_nat j < i → ts !! j = Some W_exited
  | M_stopped => all ∧ quits pu = n ∧ marked pu mk ∧ ∀ w, w ∈ ts → w = W_exited
  end.

Record threads_ok (n : Z) (p : pool) : Prop := {
  tk_range : 0 ≤ n ≤ MAX_THREADS;
  tk_n : number_of_threads p = n;
  tk_exited : count is_exited (threads p) = quits (taken p);
  tk_begun : q_running (que p) = count is_begun (threads p);
  tk_len : Z.of_nat (length (threads p)) ≤ n;
  tk_none : n = 0 → pushed p = [];
  tk_phase : phase_ok n (main p) (threads p) (running p) (pushed p) (mark p)
}.

Definition pool_ok (n : Z) (p : pool) : Prop := (∃ l, queue_ok p l) ∧ threads_ok n p.

Lemma marked_app pu mk e : marked pu mk → marked (pu ++ [e]) mk.
Proof. intros [H E]. split; [rewrite length_app; lia|]. by rewrite take_app_le. Qed.

Lemma phase_push n m ts run pu mk e :
  is_quit e = false → phase_ok n m ts run pu mk → phase_ok n m ts run (pu ++ [e]) mk.
Proof.
  intros He. assert (quits (pu ++ [e]) = quits pu) as Eq.
  { unfold quits. by rewrite count_app, count_one, He, Z.add_0_r. }
  unfold phase_ok. destruct m; rewrite ?Eq; pose proof (marked_app pu mk e); naive_solver.
Qed.

Lemma phase_worker n m ts run pu mk i x w :
  ts !! i = Some x → x ≠ W_exited → w ≠ W_starting →
  phase_ok n m ts run pu mk → phase_ok n m (<[i := w]> ts) run pu mk.
Proof.
  intros E Hx Hw. unfold phase_ok. rewrite length_insert.
  assert (W_starting ∉ ts → W_starting ∉ <[i := w]> ts) as Hs.
  { intros Hs [j Hj]%list_elem_of_lookup. apply list_lookup_insert_Some in Hj as [(? & ? & ?)|[? Hj]]; [congruence|].
    apply Hs. by eapply list_elem_of_lookup_2. }
  destruct m.
  - intros [-> _]. by destruct i.
  - done.
  - naive_solver.
  - naive_solver.
  - intros (? & [? ?] & ? & ? & Hj). split_and!; [lia..|done|auto|lia|done|].
    intros j Hlt. destruct (decide (j = i)) as [->|]; [|rewrite list_lookup_insert_ne; auto].
    rewrite (Hj i Hlt) in E. congruence.
  - intros (_ & _ & _ & Ha). exfalso. apply Hx, Ha. by eapply list_elem_of_lookup_2.
Qed.

Lemma push_threads n p p' e :
  threads_ok n p → pushed_to p p' e → is_quit e = false → 0 < n → threads_ok n p'.
Proof.
  intros [] [] He Hn. split; rewrite ?pt_threads0, ?pt_main0, ?pt_running0, ?pt_taken0, ?pt_count0, ?pt_n0, ?pt_mark0,
    ?pt_pushed0; try done; [lia|]. by apply phase_push.
Qed.

Lemma worker_threads n p p' i x w :
  threads_ok n p → worked p p' → threads p !! i = Some x → threads p' = <[i := w]> (threads p) →
  x ≠ W_exited → x ≠ W_starting → w ≠ W_starting →
  quits (taken p') = quits (taken p) + Z.b2z (is_exited w) → threads_ok n p'.
Proof.
  intros [] [] Ei Et Hx Hs Hw Hq. split; rewrite ?wk_main0, ?wk_running0, ?wk_pushed0, ?wk_n0, ?wk_mark0, ?wk_count0, ?Et;
    try done.
  - rewrite (count_insert _ _ _ _ _ Ei), Hq, tk_exited0. unfold is_exited at 1. rewrite bool_decide_eq_false_2 by done.
    cbn. lia.
  - rewrite (count_insert _ _ _ _ _ Ei), tk_begun0. unfold is_begun at 3 4.
    rewrite !bool_decide_eq_true_2 by done. lia.
  - by rewrite length_insert.
  - by apply (phase_worker _ _ _ _ _ _ _ x).
Qed.

Lemma begin_ok n p i l :
  queue_ok p l → threads_ok n p → threads p !! i = Some W_starting →
  queue_ok (work_begin i None p) l ∧ threads_ok n (work_begin i None p).
Proof.
  unfold work_begin, cond_signal. intros H Ht Ei. pose proof (busy_insert _ i _ W_idle Ei) as Hb. cbn in Hb.
  change (omap busy_of (threads p)) with (busy p) in Hb.
  split.
  - destruct H. split; cbn; try done; rewrite ?Hb; try done.
    all: unfold busy; cbn [threads]; try (intros a); rewrite Hb; auto.
  - destruct Ht as [Hr Hn He Hbg Hl Hz Hp]. split; cbn; try done.
    + by rewrite (count_insert _ _ _ _ _ Ei), He, Z.add_0_r, Z.sub_0_r.
    + rewrite (count_insert _ _ _ _ _ Ei), Hbg.
      change (is_begun W_starting) with false. change (is_begun W_idle) with true. cbn [Z.b2z].
      pose proof (count_le is_begun (threads p)).
      pose proof (count_nonneg is_begun (threads p)). unfold MAX_THREADS in Hr.
      rewrite wraps_id by (unfold in_s; lia). lia.
    + by rewrite length_insert.
    + by apply (phase_worker _ _ _ _ _ _ _ W_starting).
Qed.

(** A worker goes to wait, or is woken. *)
Lemma retag_ok n p i x w :
  pool_ok n p → threads p !! i = Some x → busy_of x = None → busy_of w = None →
  x ≠ W_exited → x ≠ W_starting → w ≠ W_starting → w ≠ W_exited →
  pool_ok n (set_threads (<[i := w]> (threads p)) p).
Proof.
  intros [[l Hq] Ht] Ei Hx Hw ? ? ? Hne. split.
  - exists l. pose proof (busy_insert _ i _ w Ei) as Hb. rewrite Hx, Hw in Hb. cbn [option_list app] in Hb.
    change (omap busy_of (threads p)) with (busy p) in Hb.
    destruct Hq. split; cbn [set_threads que heap fresh pushed taken finished]; try done.
    all: unfold busy, jobs in *; cbn [threads set_threads]; try (intros a); rewrite Hb; auto.
  - eapply (worker_threads n p _ i x w); [done..|]. cbn. unfold is_exited. rewrite bool_decide_eq_false_2 by done.
    cbn. lia.
Qed.

Lemma signal_ok n p w : pool_ok n p → signals p w = true → pool_ok n (cond_signal w p).
Proof.
  intros H Hw. destruct w as [i|]; [|done]. apply bool_decide_eq_true in Hw. by eapply retag_ok.
Qed.
Lemma signals_threads p p' w : threads p' = threads p → signals p w = true → signals p' w = true.
Proof. unfold signals. by intros ->. Qed.
Lemma signals_insert p p' i x y w :
  threads p !! i = Some x → threads p' = <[i := y]> (threads p) → x ≠ W_waiting → y ≠ W_waiting →
  signals p w = true → signals p' w = true.
Proof.
  unfold signals. intros Ei -> Hx Hy. destruct w as [j|]; rewrite !bool_decide_eq_true.
  - intros Ej. rewrite list_lookup_insert_ne; [done|]. by intros ->; simplify_eq.
  - intros Hn [j Hj]%list_elem_of_lookup. apply list_lookup_insert_Some in Hj as [(? & ? & ?)|[? Hj]]; [done|].
    apply Hn. by eapply list_elem_of_lookup_2.
Qed.

Lemma someone_wakes p : ∃ w, signals p w = true.
Proof.
  destruct (decide (W_waiting ∈ threads p)) as [Hin|].
  - apply list_elem_of_lookup in Hin as [i Hi]. exists (Some i). by apply bool_decide_eq_true_2.
  - exists None. by apply bool_decide_eq_true_2.
Qed.

(** Linking an item that is not a quit item, and the signal *)
Lemma pool_push_ok n p t f arg w :
  pool_ok n p → 0 < n → t ≠ TD_TQUIT → signals p w = true →
  ∃ p' p1, _que_push t f arg w p = Some p' ∧ que_link t f arg p = Some p1 ∧ p' = cond_signal w p1 ∧
    pushed_to p p1 (t, f, arg) ∧ pool_ok n p1 ∧ pool_ok n p'.
Proof.
  intros [[l Hq] Ht] Hn Hne Hw. destruct (que_link_ok p l t f arg Hq) as (p1 & E & Hq' & Hpt).
  unfold _que_push. rewrite E. cbn. assert (pool_ok n p1) as Hok.
  { split; [by eexists|]. eapply push_threads; [done..| |done]. unfold is_quit. cbn. by rewrite bool_decide_eq_false_2. }
  exists (cond_signal w p1), p1. split_and!; try done. apply signal_ok; [done|].
  eapply signals_threads; [apply Hpt|done].
Qed.

(** The owner's steps touch neither the queue nor the workers. *)
Lemma owner_queue p m r l : queue_ok p l → queue_ok (set_main m r p) l.
Proof. by intros []. Qed.
Lemma owner_threads n p m r :
  threads_ok n p → phase_ok n m (threads p) r (pushed p) (mark p) → threads_ok n (set_main m r p).
Proof. intros [] ?. by split. Qed.
Lemma mark_ok n p l : queue_ok p l → threads_ok n p → main p = M_ready →
  queue_ok (set_mark p) l ∧ threads_ok n (set_mark p) ∧ marked (pushed p) (mark (set_mark p)) .
Proof.
  intros [] [] E. split; [done|]. split.
  - split; cbn; try done. rewrite E in *. done.
  - rewrite E in *. cbn in *. split; [done|]. rewrite take_ge by done. naive_solver.
Qed.

Lemma set_main_signal n m1 m2 w p :
  set_main (if n <? number_of_threads (cond_signal w p) then m1 else m2) (running (cond_signal w p)) (cond_signal w p) =
  cond_signal w (set_main (if n <? number_of_threads p then m1 else m2) (running p) p).
Proof. by destruct w. Qed.

Lemma pool_step_ok n p e : pool_ok n p → can p e = true → ∃ p', step p e = Some p' ∧ pool_ok n p'.
Proof.
  intros [[l Hq] Ht] Hc. pose proof Ht as [Hr Hn He Hb Hl Hz Hp].
  assert (u64 n = n) as Hun by (apply wrapu_id; unfold in_u, MAX_THREADS in *; lia).
  destruct e; cbn in Hc.
  - eexists. split; [done|]. apply bool_decide_eq_true in Hc. rewrite Hc in Hp. destruct Hp as [E Hqu].
    split; [exists l; by apply owner_queue|apply owner_threads; [done|]]. rewrite E. cbn. lia.
  - destruct (main p) eqn:Em; try done. apply Z.ltb_lt in Hc. rewrite Hn, Hun in Hc. cbn.
    rewrite Em. unfold start_spawn. rewrite (proj2 (Z.ltb_lt i MAX_THREADS)) by lia. cbn. eexists. split; [done|].
    destruct Hp as (Hi & Elen & Equ). split.
    + exists l. destruct Hq. split; cbn; try done; unfold busy, jobs in *; cbn; by rewrite omap_app, app_nil_r.
    + split; cbn; try done.
      * by rewrite count_app, count_one, He, Z.add_0_r.
      * by rewrite count_app, count_one, Hb, Z.add_0_r.
      * rewrite length_app. cbn. lia.
      * rewrite length_app. cbn. lia.
  - destruct (main p) eqn:Em; try done. apply andb_true_iff in Hc as [_ Hw]. eexists. split; [done|].
    apply signal_ok; [|done]. split; [by exists l|done].
  - destruct (main p) eqn:Em; try done. apply andb_true_iff in Hc as [[Hi Hrun]%andb_true_iff Hw].
    unfold all_running in Hrun. cbn [step]. unfold start_ready.
    rewrite Hn, Hun in *. apply negb_true_iff, Z.ltb_ge in Hi. eexists. split; [done|].
    assert (pool_ok n (set_main M_ready 1 p)) as Hok.
    2: { destruct (0 <? n); [|done]. apply (signal_ok n (set_main M_ready 1 p) w) in Hok; [by destruct w|done]. }
    split; [exists l; by apply owner_queue|apply owner_threads; [done|]].
    destruct Hp as (Hi' & Elen & Equ). cbn. split_and!; [lia| |done|done].
    intros Hin. pose proof (count_nonneg is_begun (threads p)). pose proof (count_le is_begun (threads p)).
    rewrite Hb, (wrapu_id 64 (count _ _)) in Hrun by (unfold in_u, MAX_THREADS in *; lia).
    assert (count is_begun (threads p) = Z.of_nat (length (threads p))) as Ec.
    { apply orb_true_iff in Hrun as [?%Z.eqb_eq|?%Z.leb_le]; lia. }
    pose proof (count_all _ _ Ec W_starting Hin). done.
  - apply andb_true_iff in Hc as [Hc%bool_decide_eq_true Hw]. eexists. split; [done|].
    destruct (begin_ok n p i l Hq Ht Hc). apply (signal_ok n (work_begin i None p) w); [split; [by exists l|done]|].
    by eapply (signals_insert p (work_begin i None p) i).
  - apply bool_decide_eq_true in Hc as Ei. destruct l as [|a l].
    { cbn. unfold work_take, _que_pop. rewrite (qk_head p [] Hq). cbn. eexists. split; [done|].
      eapply retag_ok; try done. split; [by eexists|done]. }
    destruct (take_ok p i a l Hq Ei) as (it & p' & Ea & E & Hq' & Hw & Et & Eth).
    exists p'. split; [done|]. split; [by exists l|].
    eapply (worker_threads n p p' i W_idle); [done..| |].
    + unfold after_take. by destruct (itype it).
    + rewrite Et. unfold quits. rewrite count_app, count_one. f_equal. f_equal.
      unfold is_quit, is_exited, after_take, entry_of. cbn. by destruct (itype it).
  - destruct (threads p !! i) as [[]|] eqn:Ei; try done. cbn. rewrite Ei.
    destruct (finish_ok p i item l Hq Ei) as (p' & E & Hq' & Hw & Et & Eth).
    exists p'. split; [done|]. split; [by exists l|].
    eapply (worker_threads n p p' i (W_working item)); [done..|]. rewrite Et. change (is_exited W_idle) with false. cbn [Z.b2z]. lia.
  - cbn. unfold Oe_Thread_Dispatcher_exec. rewrite Hn. destruct (Z.ltb_spec 0 n).
    + destruct (pool_push_ok n p TD_PROCESS f arg w) as (p' & ? & ? & _ & _ & _ & _ & ?); eauto. by split; [exists l|].
    + eexists. split; [done|]. split; [exists l; by destruct Hq|by destruct Ht].
  - apply andb_true_iff in Hc as [Hc%Z.ltb_lt Hw]. rewrite Hn in Hc. cbn. unfold stats_push.
    destruct (pool_push_ok n p TD_DIAG 0 0 w) as (p' & ? & ? & _ & _ & _ & _ & ?); eauto. by split; [exists l|].
  - apply bool_decide_eq_true in Hc. destruct (mark_ok n p l Hq Ht Hc) as (Hq1 & Ht1 & Hm).
    rewrite Hc in Hp. destruct Hp as ((El & Es) & Equ & Er). cbn. unfold stop_begin. rewrite Er, Hn.
    eexists. split; [done|]. destruct (Z.ltb_spec 0 n); cbn [andb negb Z.eqb].
    + split; [exists l; by apply owner_queue|apply owner_threads; [done|]]. cbn. split_and!; try done; try lia; apply Hm.
    + split; [exists l; by apply owner_queue|apply owner_threads; [done|]]. cbn.
      assert (threads p = []) as -> by (apply length_zero_iff_nil; lia).
      split_and!; [cbn; lia|set_solver|lia|done|set_solver].
  - destruct (main p) eqn:Em; try done. cbn. rewrite Em. unfold stop_push, _que_push.
    destruct (que_link_ok p l TD_TQUIT 0 0 Hq) as (p' & E & Hq' & Hpt). rewrite E. cbn. eexists. split; [done|].
    rewrite set_main_signal. apply signal_ok; [|by eapply signals_threads; [apply Hpt|]].
    split; [eexists; by apply owner_queue|]. destruct Hp as (Hi & (El & Es) & Equ & Hm).
    destruct Hpt. rewrite pt_n0, Hn, pt_running0.
    assert (quits (pushed p') = i + 1) as Eq2.
    { rewrite pt_pushed0. unfold quits. rewrite count_app, count_one.
      change (count is_quit (pushed p)) with (quits (pushed p)). change (is_quit (TD_TQUIT, 0, 0)) with true.
      cbn [Z.b2z]. lia. }
    split; cbn; rewrite ?pt_threads0, ?pt_taken0, ?pt_count0, ?pt_n0, ?pt_mark0; try done; [lia|].
    destruct (Z.ltb_spec (i + 1) n); cbn; rewrite ?pt_pushed0 in *; pose proof (marked_app _ _ (TD_TQUIT, 0, 0) Hm).
    + split_and!; try done; try lia; apply H0.
    + split_and!; try done; try lia; try apply H0.
  - destruct (main p) eqn:Em; try done. apply bool_decide_eq_true in Hc. cbn. rewrite Em. unfold stop_join.
    rewrite Hn. eexists. split; [done|]. destruct Hp as (Hi & (El & Es) & Equ & Hm & Hj).
    assert (∀ j, Z.of_nat j < i + 1 → threads p !! j = Some W_exited) as Hj'.
    { intros j Hlt. destruct (decide (Z.of_nat j = i)) as [<-|]; [by rewrite Nat2Z.id in Hc|apply Hj; lia]. }
    destruct (Z.ltb_spec (i + 1) n).
    + split; [exists l; by apply owner_queue|apply owner_threads; [done|]]. cbn. split_and!; try done; lia.
    + split; [exists l; by apply owner_queue|apply owner_threads; [done|]]. cbn. split_and!; try done.
      intros w [j Hw]%list_elem_of_lookup. pose proof (lookup_lt_Some _ _ _ Hw).
      rewrite (Hj' j ltac:(lia)) in Hw. by simplify_eq.
  - eexists. split; [done|]. apply signal_ok; [by split; [eexists|]|done].
Qed.

(** While a worker waits for the condition, there are no more items in the
    queue than workers that are about to look into it. *)
Definition is_awake (w : worker) : bool :=
  match w with W_starting | W_idle | W_working _ => true | _ => false end.
Definition backlog (p : pool) : Z := Z.of_nat (length (pushed p) - length (taken p)).
Definition wakes (p : pool) : Prop :=
  W_waiting ∈ threads p → backlog p ≤ count is_awake (threads p).

Lemma backlog_ok p l : queue_ok p l → backlog p = Z.of_nat (length l).
Proof.
  intros H. unfold backlog. rewrite (qk_entries p l H), length_app.
  assert (length (omap (entry_at (heap p)) l) = length l) as ->; [|lia].
  assert (∀ a, a ∈ l → is_Some (heap p !! a)) as Hlive by (intros a; eapply link_live; apply H).
  clear -Hlive. induction l as [|a l IH]; [done|]. cbn. unfold entry_at at 1.
  destruct (Hlive a) as [it ->]; [by left|]. cbn. rewrite IH; [done|]. intros b Hb. apply Hlive. by right.
Qed.

Lemma waiting_insert (ts : list worker) i w : w ≠ W_waiting → W_waiting ∈ <[i := w]> ts → W_waiting ∈ ts.
Proof.
  intros Hw [j Hj]%list_elem_of_lookup.
  apply list_lookup_insert_Some in Hj as [(? & ? & ?)|[? Hj]]; [done|by eapply list_elem_of_lookup_2].
Qed.

Lemma wakes_retag p i x w :
  threads p !! i = Some x → is_awake w = true → W_waiting ∈ threads p →
  wakes p → wakes (set_threads (<[i := w]> (threads p)) p).
Proof.
  intros Ei Hw Hin H _. unfold backlog. cbn. change (backlog p ≤ count is_awake (<[i := w]> (threads p))).
  rewrite (count_insert _ _ _ _ _ Ei), Hw. specialize (H Hin). cbn. destruct (is_awake x); cbn; lia.
Qed.
Lemma wakes_signal p w : signals p w = true → wakes p → wakes (cond_signal w p).
Proof.
  destruct w as [i|]; [|done]. intros Ei%bool_decide_eq_true. eapply wakes_retag; [done..|]. by eapply list_elem_of_lookup_2.
Qed.
(** An item was linked, and the condition signalled *)
Lemma wakes_push p p1 e w : wakes p → pushed_to p p1 e → signals p w = true → wakes (cond_signal w p1).
Proof.
  intros H [] Hw. destruct w as [i|]; unfold wakes, backlog; cbn; rewrite pt_threads0, pt_taken0, pt_pushed0, length_app; cbn.
  - apply bool_decide_eq_true in Hw. intros _. rewrite (count_insert _ _ _ _ _ Hw). cbn.
    assert (W_waiting ∈ threads p) as Hin by (by eapply list_elem_of_lookup_2). specialize (H Hin). unfold backlog in H. lia.
  - apply bool_decide_eq_true in Hw. intros Hin. done.
Qed.

Lemma wakes_step n p e p' : pool_ok n p → wakes p → can p e = true → step p e = Some p' → wakes p'.
Proof.
  intros [[l Hq] Ht] H Hc Hs. pose proof (backlog_ok p l Hq) as Hl.
  destruct e; cbn in Hc, Hs.
  - by simplify_eq.
  - destruct (main p); try done. unfold start_spawn in Hs. destruct (i <? MAX_THREADS); [|done]. cbn in Hs. simplify_eq.
    unfold wakes, backlog in *. cbn. rewrite count_app, count_one. cbn. rewrite elem_of_app, list_elem_of_singleton.
    intros [Hin|?]; [|done]. specialize (H Hin). lia.
  - destruct (main p); try done. apply andb_true_iff in Hc as [_ Hw]. simplify_eq. by apply wakes_signal.
  - destruct (main p); try done. apply andb_true_iff in Hc as [_ Hw]. simplify_eq. unfold start_ready.
    destruct (0 <? _); [|done]. by apply (wakes_signal p w).
  - apply andb_true_iff in Hc as [Hc%bool_decide_eq_true Hw]. simplify_eq.
    apply (wakes_signal (work_begin i None p)); [by eapply (signals_insert p _ i)|].
    destruct (decide (W_waiting ∈ threads p)) as [Hin|Hno].
    + by apply (wakes_retag p i W_starting W_idle).
    + intros Hin%waiting_insert; done.
  - apply bool_decide_eq_true in Hc. destruct l as [|a l].
    { unfold work_take, _que_pop in Hs. rewrite (qk_head p [] Hq) in Hs. cbn in Hs. simplify_eq.
      intros _. unfold backlog in *. cbn. rewrite Hl. apply count_nonneg. }
    destruct (take_ok p i a l Hq Hc) as (it & p2 & _ & E & Hq' & _ & _ & Eth). rewrite Hs in E. simplify_eq.
    pose proof (backlog_ok p2 l Hq') as Hl'. intros Hin. rewrite Hl', Eth in *. cbn [length] in Hl.
    rewrite (count_insert _ _ _ _ _ Hc). specialize (H (waiting_insert _ _ _ (after_take_awake a it) Hin)). cbn [is_awake Z.b2z].
    pose proof (count_nonneg is_awake (threads p)). destruct (is_awake (after_take a it)); cbn; lia.
  - destruct (threads p !! i) as [[]|] eqn:Ei; try done.
    destruct (finish_ok p i item l Hq Ei) as (p2 & E & Hq' & _ & _ & Eth). rewrite Hs in E. simplify_eq.
    pose proof (backlog_ok p2 l Hq') as Hl'. intros Hin. rewrite Hl', Eth in *. rewrite (count_insert _ _ _ _ _ Ei).
    specialize (H (waiting_insert _ _ W_idle ltac:(done) Hin)). cbn. lia.
  - unfold Oe_Thread_Dispatcher_exec in Hs. destruct (0 <? _); [|by simplify_eq].
    destruct (que_link_ok p l TD_PROCESS f arg Hq) as (p1 & E & _ & Hpt). unfold _que_push in Hs. rewrite E in Hs.
    cbn in Hs. simplify_eq. by eapply wakes_push.
  - apply andb_true_iff in Hc as [_ Hw]. unfold stats_push, _que_push in Hs.
    destruct (que_link_ok p l TD_DIAG 0 0 Hq) as (p1 & E & _ & Hpt). rewrite E in Hs.
    cbn in Hs. simplify_eq. by eapply wakes_push.
  - simplify_eq. unfold stop_begin. by destruct (_ && _).
  - destruct (main p); try done. unfold stop_push, _que_push in Hs.
    destruct (que_link_ok p l TD_TQUIT 0 0 Hq) as (p1 & E & _ & Hpt). rewrite E in Hs.
    cbn in Hs. simplify_eq. by eapply (wakes_push p p1).
  - destruct (main p); try done. simplify_eq. unfold stop_join. by destruct (_ <? _).
  - simplify_eq. by apply (wakes_signal p (Some i)).
Qed.

Lemma pool_new_ok n p : 0 ≤ n → Oe_Thread_Dispatcher_new n = Some p → pool_ok n p.
Proof.
  intros Hn. unfold Oe_Thread_Dispatcher_new. destruct (Z.leb_spec n MAX_THREADS); [|done]. cbn. intros [= <-].
  split; [exists []|].
  - split; try done; [apply base.NoDup_nil_2|intros a [? ?]; set_solver|by intros a ?%elem_of_nil].
  - split; try done; cbn; lia.
Qed.

(** What holds in every state *)
Definition live_ok (n : Z) (p : pool) : Prop := pool_ok n p ∧ wakes p.

Lemma live_step n p e p' : live_ok n p → can p e = true → step p e = Some p' → live_ok n p'.
Proof.
  intros [Hok Hw] Hc Hs. split; [|by eapply wakes_step].
  destruct (pool_step_ok n p e Hok Hc) as (? & ? & ?). by simplify_eq.
Qed.
Lemma reachable_live n p : 0 ≤ n → reachable n p → live_ok n p.
Proof.
  intros Hn (p0 & Hp0 & H).
  assert (live_ok n p0) as H0.
  { split; [by apply pool_new_ok|]. revert Hp0. unfold Oe_Thread_Dispatcher_new.
    destruct (n <=? MAX_THREADS); cbn; [|done]. intros. simplify_eq. intros Hin. cbn in Hin. by apply not_elem_of_nil in Hin. }
  clear Hp0. induction H as [|p1 p2 p3 (e & Hc & E) H IH]; [done|]. apply IH. by eapply live_step.
Qed.
Lemma pool_reachable_ok n p : 0 ≤ n → reachable n p → pool_ok n p.
Proof. intros Hn Hp. by apply reachable_live. Qed.

(** The jobs that are running *)
Definition in_progress (p : pool) : list (Z * Z) := jobs (omap (entry_at (heap p)) (busy p)).

(** In every state a pool of at most [MAX_THREADS] workers reaches, every
    step a thread can make is carried out without reading a freed item; items
    are taken in the order they were pushed, each once; and every job that was
    taken has been run to its end exactly once or is running. *)
Theorem pool_safe (n : Z) (p : pool) (Hn : 0 ≤ n) (Hp : reachable n p) :
  (∀ e, can p e = true → is_Some (step p e)) ∧
  taken p `prefix_of` pushed p ∧
  q_size (que p) = i64 (Z.of_nat (length (pushed p) - length (taken p))) ∧
  (q_head (que p) = None ↔ taken p = pushed p) ∧
  jobs (taken p) ≡ₚ finished p ++ in_progress p.
Proof.
  pose proof (pool_reachable_ok n p Hn Hp) as Hok. pose proof Hok as [[l Hq] Ht].
  pose proof (backlog_ok p l Hq) as Hl. unfold backlog in Hl. pose proof (qk_entries p l Hq) as He. split_and!.
  - intros e Hc. destruct (pool_step_ok n p e Hok Hc) as (p' & -> & _). done.
  - rewrite He. by eexists.
  - by rewrite (qk_size p l Hq), Hl.
  - rewrite (qk_head p l Hq), He. destruct l as [|a l]; cbn [list.head].
    + by rewrite app_nil_r.
    + split; [done|]. rewrite <-He. intros E. rewrite E in Hl. cbn in Hl. lia.
  - apply Hq.
Qed.

Lemma quits_prefix l k : l `prefix_of` k → quits l ≤ quits k.
Proof. intros [m ->]. unfold quits. rewrite count_app. pose proof (count_nonneg is_quit m). lia. Qed.

(** C23  When [Oe_Thread_Dispatcher_stop] has returned, every worker has exited
    and every job that had been handed to the pool before it was called has
    been run to its end, exactly once. *)
Theorem pool_stop_drains (n : Z) (p : pool) (Hn : 0 ≤ n) (Hp : reachable n p) (Hm : main p = M_stopped) :
  (∀ w, w ∈ threads p → w = W_exited) ∧ take (mark p) (pushed p) `prefix_of` taken p ∧
  finished p ≡ₚ jobs (taken p).
Proof.
  destruct (pool_safe n p Hn Hp) as (_ & [rest Hpre] & _ & _ & Hj).
  destruct (pool_reachable_ok n p Hn Hp) as [_ [Hr _ He _ Hl Hz Hph]]. rewrite Hm in Hph.
  destruct Hph as ((Hlen & _) & Hq & [Hmk Hm0] & Hex).
  assert (busy p = []) as Hb.
  { unfold busy. clear -Hex. induction (threads p) as [|w ts IH]; [done|]. cbn.
    rewrite (Hex w) by (by left). cbn. apply IH. intros x Hx. apply Hex. by right. }
  split; [done|]. split.
  - destruct (decide (n = 0)) as [->|Hne]; [rewrite Hz by done; rewrite take_nil; apply prefix_nil|].
    destruct (decide (mark p ≤ length (taken p))%nat) as [Hle|Hgt].
    + rewrite Hpre, take_app_le by done. apply prefix_take.
    + exfalso. assert (quits (taken p) ≤ quits (take (mark p) (pushed p))) as Hle.
      { apply quits_prefix. rewrite Hpre, take_app_ge by lia. by eexists. }
      assert (count is_exited (threads p) = n) as Hc.
      { rewrite <-Hlen. clear -Hex. induction (threads p) as [|w ts IH]; [done|].
        rewrite count_cons, IH by (intros x Hx; apply Hex; by right). rewrite (Hex w) by (by left).
        change (is_exited W_exited) with true. cbn [Z.b2z length]. lia. }
      lia.
  - rewrite Hj. unfold in_progress. rewrite Hb. cbn. by rewrite app_nil_r.
Qed.

(** ** Termination *)

(** The steps of the workers and of the owner, as opposed to the steps that
    hand in new work and to wake-ups without a signal *)
Definition internal (e : event) : bool :=
  match e with
  | E_spawn | E_ready _ | E_begin _ _ | E_take _ | E_finish _ | E_quit _ | E_join => true
  | _ => false
  end.
Definition istep (p p' : pool) : Prop := ∃ e, internal e = true ∧ can p e = true ∧ step p e = Some p'.

Definition worker_weight (w : worker) : Z :=
  match w with W_starting => 3 | W_working _ => 2 | W_idle => 1 | W_waiting | W_exited => 0 end.
Definition owner_weight (n : Z) (m : owner) : Z :=
  match m with
  | M_spawning i => 2 + 4 * (n - i)
  | M_stopping i => 1 + n + 5 * (n - i)
  | M_joining i => n - i
  | _ => 0
  end.
Definition weigh (ts : list worker) : Z := foldr (λ w z, worker_weight w + z) 0 ts.
(** How many steps are left at most, if nothing is handed in *)
Definition left_to_do (p : pool) : Z :=
  3 * backlog p + weigh (threads p) + owner_weight (number_of_threads p) (main p).

Lemma weigh_cons w l : weigh (w :: l) = worker_weight w + weigh l.
Proof. done. Qed.
Lemma weigh_app l k : weigh (l ++ k) = weigh l + weigh k.
Proof. induction l as [|w l IH]; [done|]. cbn [app]. rewrite !weigh_cons, IH. lia. Qed.
Lemma weigh_nonneg l : 0 ≤ weigh l.
Proof. unfold weigh. induction l as [|w l IH]; cbn; [done|]. destruct w; cbn; lia. Qed.
Lemma weigh_insert l i x w :
  l !! i = Some x → weigh (<[i := w]> l) = weigh l - worker_weight x + worker_weight w.
Proof.
  intros E. rewrite <-(take_drop_middle l i x E) at 2.
  rewrite (insert_take_drop l i w) by (by eapply lookup_lt_Some).
  rewrite !weigh_app, !weigh_cons. lia.
Qed.

Lemma left_nonneg n p : pool_ok n p → 0 ≤ left_to_do p.
Proof.
  intros [_ [Hr Hn _ _ _ _ Hph]]. unfold left_to_do, backlog. rewrite Hn. pose proof (weigh_nonneg (threads p)).
  assert (0 ≤ owner_weight n (main p)) by (destruct (main p); cbn in *; lia). lia.
Qed.

(** A signal adds at most one step: that of the worker it wakes. *)
Lemma left_retag p i x w : threads p !! i = Some x →
  left_to_do (set_threads (<[i := w]> (threads p)) p) = left_to_do p - worker_weight x + worker_weight w.
Proof. intros Ei. unfold left_to_do, backlog. cbn. rewrite (weigh_insert _ _ _ _ Ei). lia. Qed.
Lemma left_signal p w : signals p w = true → left_to_do (cond_signal w p) ≤ left_to_do p + 1.
Proof.
  destruct w as [i|]; cbn [cond_signal]; [|lia]. intros Ei%bool_decide_eq_true. rewrite (left_retag _ _ _ _ Ei). cbn. lia.
Qed.
Lemma left_owner p m r :
  left_to_do (set_main m r p) =
  left_to_do p - owner_weight (number_of_threads p) (main p) + owner_weight (number_of_threads p) m.
Proof. unfold left_to_do, backlog. cbn [set_main pushed taken threads main number_of_threads]. lia. Qed.
Lemma left_link p l t f arg p1 :
  queue_ok p l → que_link t f arg p = Some p1 →
  left_to_do p1 = left_to_do p + 3 ∧ pushed_to p p1 (t, f, arg).
Proof.
  intros Hq E. destruct (que_link_ok p l t f arg Hq) as (p2 & E2 & Hq2 & Hpt). rewrite E in E2. simplify_eq.
  split; [|done]. unfold left_to_do. rewrite (backlog_ok _ _ Hq), (backlog_ok _ _ Hq2), length_app. destruct Hpt.
  rewrite pt_threads0, pt_n0, pt_main0. cbn. lia.
Qed.
Lemma left_push p l t f arg w p' :
  queue_ok p l → _que_push t f arg w p = Some p' → signals p w = true →
  left_to_do p' ≤ left_to_do p + 4 ∧ main p' = main p ∧ number_of_threads p' = number_of_threads p.
Proof.
  intros Hq E Hw. unfold _que_push in E. destruct (que_link t f arg p) as [p1|] eqn:E1; [|done]. cbn in E. simplify_eq.
  destruct (left_link p l t f arg p1 Hq E1) as [Hl []].
  pose proof (left_signal p1 w ltac:(by eapply signals_threads)). destruct w; split_and!; try done; lia.
Qed.

(** What the workers do brings the end nearer. *)
Lemma left_take p i l p' :
  queue_ok p l → threads p !! i = Some W_idle → work_take i p = Some p' → left_to_do p' < left_to_do p.
Proof.
  intros Hq Ei Hs. destruct l as [|a l].
  { unfold work_take, _que_pop in Hs. rewrite (qk_head p [] Hq) in Hs. cbn in Hs. simplify_eq.
    rewrite (left_retag _ _ _ _ Ei). cbn. lia. }
  destruct (take_ok p i a l Hq Ei) as (it & p2 & _ & E & Hq2 & [] & _ & Eth). rewrite Hs in E. simplify_eq.
  unfold left_to_do. rewrite (backlog_ok _ _ Hq), (backlog_ok _ _ Hq2), wk_main0, wk_n0, Eth, (weigh_insert _ _ _ _ Ei).
  assert (worker_weight (after_take a it) ≤ 2) by (unfold after_take; destruct (itype it); cbn; lia).
  cbn [length worker_weight]. lia.
Qed.
Lemma left_finish p i a l p' :
  queue_ok p l → threads p !! i = Some (W_working a) → work_finish i a p = Some p' → left_to_do p' < left_to_do p.
Proof.
  intros Hq Ei Hs. destruct (finish_ok p i a l Hq Ei) as (p2 & E & Hq2 & [] & _ & Eth). rewrite Hs in E. simplify_eq.
  unfold left_to_do. rewrite (backlog_ok _ _ Hq), (backlog_ok _ _ Hq2), wk_main0, wk_n0, Eth, (weigh_insert _ _ _ _ Ei).
  cbn [worker_weight]. lia.
Qed.

Lemma internal_decreases n p e p' :
  pool_ok n p → internal e = true → can p e = true → step p e = Some p' → left_to_do p' < left_to_do p.
Proof.
  intros [[l Hq] [Hr Hn _ _ _ _ Hph]] Hi Hc Hs. assert (u64 n = n) as Hun by (apply wrapu_id; unfold in_u, MAX_THREADS in *; lia).
  destruct e; cbn in Hi, Hc, Hs; try done.
  - destruct (main p) eqn:Em; try done. unfold start_spawn in Hs. destruct (i <? MAX_THREADS); [|done]. cbn in Hs. simplify_eq.
    rewrite left_owner. unfold left_to_do, backlog. cbn. rewrite weigh_app, Em. cbn. lia.
  - destruct (main p) eqn:Em; try done. apply andb_true_iff in Hc as [_ Hw]. simplify_eq. unfold start_ready.
    rewrite left_owner. pose proof (left_signal p w Hw). destruct Hph as (Hi' & _ & _).
    destruct (0 <? _); [destruct w|]; cbn in *; rewrite Em; cbn; lia.
  - apply andb_true_iff in Hc as [Hc%bool_decide_eq_true Hw]. simplify_eq.
    pose proof (left_signal (work_begin i None p) w ltac:(by eapply (signals_insert p _ i))).
    change (work_begin i w p) with (cond_signal w (work_begin i None p)).
    assert (left_to_do (work_begin i None p) = left_to_do p - 2); [|lia].
    unfold left_to_do, backlog. cbn. rewrite (weigh_insert _ _ _ _ Hc). cbn. lia.
  - apply bool_decide_eq_true in Hc. by eapply left_take.
  - destruct (threads p !! i) as [[]|] eqn:Ei; try done. by eapply left_finish.
  - destruct (main p) eqn:Em; try done. unfold stop_push in Hs.
    destruct (_que_push TD_TQUIT 0 0 w p) as [p1|] eqn:E1; [|done]. cbn in Hs. simplify_eq.
    destruct (left_push _ _ _ _ _ _ _ Hq E1 Hc) as (Hle & Em1 & En1). rewrite left_owner, En1, Em1, Em. destruct Hph as [Hi' _].
    destruct (Z.ltb_spec (i + 1) (number_of_threads p)); cbn [owner_weight]; lia.
  - destruct (main p) eqn:Em; try done. simplify_eq. unfold stop_join. destruct Hph as [Hi' _].
    destruct (Z.ltb_spec (i + 1) (number_of_threads p)); rewrite left_owner, Em; cbn [owner_weight]; lia.
Qed.

(** New work, and a wake-up without a signal, add at most four steps. *)
Lemma stopping_step n p e p' :
  pool_ok n p → (match main p with M_stopping _ | M_joining _ | M_stopped => True | _ => False end) →
  can p e = true → step p e = Some p' →
  (match main p' with M_stopping _ | M_joining _ | M_stopped => True | _ => False end) ∧
  (internal e = false → left_to_do p' ≤ left_to_do p + 4).
Proof.
  intros [[l Hq] _] Hm Hc Hs. destruct e; cbn in Hc, Hs; cbn [internal].
  - apply bool_decide_eq_true in Hc. by rewrite Hc in Hm.
  - by destruct (main p).
  - by destruct (main p).
  - by destruct (main p).
  - simplify_eq. by destruct w.
  - split; [|done]. unfold work_take, _que_pop in Hs. destruct (q_head (que p)); cbn in Hs; [|by simplify_eq].
    destruct (heap p !! z) as [it|]; [|done]. cbn in Hs. by destruct (itype it); simplify_eq.
  - split; [|done]. destruct (threads p !! i) as [[]|]; try done. unfold work_finish in Hs.
    destruct (heap p !! item); [|done]. cbn in Hs. by simplify_eq.
  - unfold Oe_Thread_Dispatcher_exec in Hs. destruct (0 <? _).
    + destruct (left_push _ _ _ _ _ _ _ Hq Hs Hc) as (? & -> & _). by split.
    + simplify_eq. split; [done|]. intros _. unfold left_to_do, backlog. cbn [pushed taken threads main number_of_threads]. lia.
  - apply andb_true_iff in Hc as [_ Hc]. destruct (left_push _ _ _ _ _ _ _ Hq Hs Hc) as (? & -> & _). by split.
  - apply bool_decide_eq_true in Hc. by rewrite Hc in Hm.
  - split; [|done]. destruct (main p) eqn:Em; try done. unfold stop_push in Hs.
    destruct (_que_push _ _ _ _ p); [|done]. cbn in Hs. simplify_eq. cbn. by destruct (_ <? _).
  - split; [|done]. destruct (main p) eqn:Em; try done. simplify_eq. unfold stop_join. by destruct (_ <? _).
  - simplify_eq. split; [done|]. intros _. pose proof (left_signal p (Some i) Hc). cbn in *. lia.
Qed.

(** A pool that is being stopped always has a step left that is not new
    work: a worker that has not exited has a quit item ahead of it, and then
    not all workers wait. *)
Lemma stopping_progress n p :
  live_ok n p → (match main p with M_stopping _ | M_joining _ => True | _ => False end) →
  ∃ e p', internal e = true ∧ can p e = true ∧ step p e = Some p'.
Proof.
  intros [Hok Hwk] Hm. assert (∃ e, internal e = true ∧ can p e = true) as (e & Hi & Hc).
  { destruct Hok as [[l Hq] [Hr Hn He Hb Hl Hz Hph]]. destruct (main p) eqn:Em; try done.
    - destruct (someone_wakes p) as [w Hw]. exists (E_quit w). split; [done|]. cbn. by rewrite Em.
    - destruct Hph as (Hi & (Hlen & Hs) & Hqu & _ & _).
      destruct (threads p !! Z.to_nat i) as [w|] eqn:Ew.
      2: { apply lookup_ge_None in Ew. lia. }
      destruct w.
      + exfalso. apply Hs. by eapply list_elem_of_lookup_2.
      + exists (E_take (Z.to_nat i)). split; [done|]. cbn. by rewrite Ew, bool_decide_eq_true_2.
      + assert (1 ≤ backlog p) as Hbl.
        { rewrite (backlog_ok p l Hq). destruct l; [|cbn; lia]. exfalso. pose proof (qk_entries p [] Hq) as Hen.
          cbn in Hen. rewrite app_nil_r in Hen. rewrite <-Hen, Hqu, <-Hlen in He.
          by pose proof (count_all _ _ He W_waiting ltac:(by eapply list_elem_of_lookup_2)). }
        destruct (count_pos is_awake (threads p)) as (j & x & Ej & Hx).
        { specialize (Hwk ltac:(by eapply list_elem_of_lookup_2)). lia. }
        destruct x; try done.
        * exfalso. apply Hs. by eapply list_elem_of_lookup_2.
        * exists (E_take j). split; [done|]. cbn. by rewrite Ej, bool_decide_eq_true_2.
        * exists (E_finish j). split; [done|]. cbn. by rewrite Ej.
      + exists (E_finish (Z.to_nat i)). split; [done|]. cbn. by rewrite Ew.
      + exists E_join. split; [done|]. cbn. rewrite Em, Ew. by rewrite bool_decide_eq_true_2. }
  destruct (pool_step_ok n p e Hok Hc) as (p' & E & _). by exists e, p'.
Qed.

(** C24  A pool that is being stopped stops, whatever is handed in
    meanwhile, in whatever order the workers run, whichever worker a signal
    wakes and however often a worker wakes without one.  In every run from
    there, the number of steps of its workers and its owner is at most
    [left_to_do] and four for each job or statistics item handed in and each
    wake-up without a signal.  And wherever it has got to, the workers and the
    owner alone can go on until [Oe_Thread_Dispatcher_stop] has returned: none
    of the workers that wait has missed its signal. *)
Theorem stop_terminates (n : Z) (p : pool) (Hn : 0 ≤ n) (Hp : reachable n p)
    (Hm : match main p with M_stopping _ | M_joining _ => True | _ => False end) :
  (∀ es p', run es p = Some p' →
     count internal es ≤ left_to_do p + 4 * count (λ e, negb (internal e)) es) ∧
  (∀ p', rtc pstep p p' → ∃ p'', rtc istep p' p'' ∧ main p'' = M_stopped).
Proof.
  pose proof (reachable_live n p Hn Hp) as Hok. clear Hp.
  assert (match main p with M_stopping _ | M_joining _ | M_stopped => True | _ => False end) as Hm1
    by (by destruct (main p)). clear Hm. split.
  - intros es. revert p Hok Hm1. induction es as [|e es IH]; intros p Hok Hm p' Hr; cbn in Hr.
    { pose proof (left_nonneg n p (proj1 Hok)). unfold count. cbn. lia. }
    destruct (can p e) eqn:Hc; [|done]. destruct (step p e) as [p1|] eqn:Hs; [|done]. cbn in Hr.
    destruct (stopping_step n p e p1 (proj1 Hok) Hm Hc Hs) as [Hm' Hle].
    specialize (IH p1 (live_step _ _ _ _ Hok Hc Hs) Hm' p' Hr). rewrite !count_cons.
    destruct (internal e) eqn:Hi; cbn [negb Z.b2z].
    + pose proof (internal_decreases n p e p1 (proj1 Hok) Hi Hc Hs). lia.
    + specialize (Hle eq_refl). lia.
  - intros p' Hpp. assert (live_ok n p' ∧ match main p' with M_stopping _ | M_joining _ | M_stopped => True | _ => False end) as [Hok' Hm'].
    { induction Hpp as [p|p p1 p' (e & Hc & Hs) _ IH]; [done|].
      apply IH; [by eapply live_step|by eapply stopping_step; [apply Hok|..]]. }
    clear Hm1 Hpp Hok p. remember (Z.to_nat (left_to_do p')) as k eqn:Ek. revert p' Ek Hok' Hm'.
    induction (lt_wf k) as [k _ IH]. intros p' -> Hok Hm.
    destruct (decide (main p' = M_stopped)) as [|Hne]; [by exists p'|].
    destruct (stopping_progress n p' Hok) as (e & p1 & Hi & Hc & Hs). { by destruct (main p'). }
    pose proof (internal_decreases n p' e p1 (proj1 Hok) Hi Hc Hs) as Hlt.
    pose proof (live_step _ _ _ _ Hok Hc Hs) as Hok1. pose proof (left_nonneg n p1 (proj1 Hok1)).
    destruct (stopping_step n p' e p1 (proj1 Hok) Hm Hc Hs) as [Hm' _].
    destruct (IH (Z.to_nat (left_to_do p1)) ltac:(lia) p1 eq_refl Hok1 Hm') as (p2 & H2 & E2).
    exists p2. split; [eapply rtc_l; [by exists e|done]|done].
Qed.

Lemma run_rtc es : ∀ p p', run es p = Some p' → rtc pstep p p'.
Proof.
  induction es as [|e es IH]; intros p p'; cbn; [intros [= ->]; done|].
  destruct (can p e) eqn:Hc; [|done]. destruct (step p e) as [p1|] eqn:Hs; [|done]. cbn. intros H.
  eapply rtc_l; [by exists e|by apply IH].
Qed.
Lemma run_reachable n es p : (Oe_Thread_Dispatcher_new n ≫= run es) = Some p → reachable n p.
Proof.
  unfold reachable. destruct (Oe_Thread_Dispatcher_new n) as [p0|]; [|done]. intros H.
  exists p0. split; [done|]. by eapply run_rtc.
Qed.

(** Two workers, three jobs, one of which is handed in while the pool stops;
    both workers wait before the first job comes, and one of them wakes once
    for nothing. *)
Definition demo_started : list event :=
  [E_start; E_spawn; E_spawn; E_begin 1 None; E_poll None; E_begin 0 None; E_take 0; E_ready (Some 0%nat); E_take 1; E_take 0;
   E_wake 1; E_take 1; E_exec 1 10 (Some 1%nat); E_exec 2 20 (Some 0%nat); E_take 1; E_stop; E_quit None;
   E_exec 3 30 None].
Definition demo_stopped : list event :=
  demo_started ++ [E_take 0; E_finish 0; E_take 0; E_quit None; E_finish 1; E_take 1; E_finish 1; E_take 1; E_join; E_join].
Definition demo_at (es : list event) : pool :=
  default (mkPool ∅ 1 (mkQue None None 0 0 0) 2 0 [] M_new [] [] [] [] 0) (Oe_Thread_Dispatcher_new 2 ≫= run es).

Lemma pool_safe_witness :
  reachable 2 (demo_at demo_started) ∧ in_progress (demo_at demo_started) = [(1, 10)] ∧
  is_Some (step (demo_at demo_started) (E_take 0)).
Proof.
  assert (reachable 2 (demo_at demo_started)) as H by (apply (run_reachable 2 demo_started); by vm_compute).
  split; [done|]. split; [by vm_compute|].
  destruct (pool_safe 2 (demo_at demo_started) ltac:(lia) H) as (Hs & _). apply Hs. by vm_compute.
Defined.

Lemma pool_stop_drains_witness :
  main (demo_at demo_stopped) = M_stopped ∧
  finished (demo_at demo_stopped) = [(2, 20); (1, 10); (3, 30)] ∧
  take 2 (pushed (demo_at demo_stopped)) `prefix_of` taken (demo_at demo_stopped).
Proof.
  assert (reachable 2 (demo_at demo_stopped)) as H by (apply (run_reachable 2 demo_stopped); by vm_compute).
  assert (main (demo_at demo_stopped) = M_stopped) as Hm by (by vm_compute).
  split; [done|]. split; [by vm_compute|].
  destruct (pool_stop_drains 2 (demo_at demo_stopped) ltac:(lia) H Hm) as (_ & Hp & _). exact Hp.
Defined.

Lemma stop_terminates_witness :
  main (demo_at demo_started) = M_stopping 1 ∧
  ∃ p, rtc istep (demo_at demo_started) p ∧ main p = M_stopped.
Proof.
  assert (reachable 2 (demo_at demo_started)) as H by (apply (run_reachable 2 demo_started); by vm_compute).
  assert (main (demo_at demo_started) = M_stopping 1) as Hm by (by vm_compute).
  split; [done|].
  destruct (stop_terminates 2 (demo_at demo_started) ltac:(lia) H ltac:(by rewrite Hm)) as (_ & Hp). by apply Hp.
Defined.
