(* ===== verification/JclText.v ===== *)
(** * JclText: the text of the job control language and its syntax trees

    Models the lexer [src/corelib/oejcl_parser.l], the grammar
    [src/corelib/oejcl_parser.y] and the tree constructors of
    [src/corelib/oejcl_parser.c].  Text is the list of bytes before the
    terminating NUL.  [lex] divides it into tokens as flex does, by the longest
    match and then by the order of the rules.  The grammar is transcribed
    production by production, each with the tree its action builds, as the
    relation [g_stmts].  The function [yyparse] that bison generates from it is
    not a source of the program: it is the operation of the class
    [BisonParser], whose law is what bison promises for a grammar without
    conflicts.  [JclParser] shows that the law can be met.

    The whole text is divided into tokens before it is parsed, so that what
    goes wrong behind a syntax error counts as well. *)

From S2P Require Import Prelude Values.
Import Str.

(** ** Tokens *)

(** The tokens of the grammar, which are also the types of tree nodes;
    [K_NONE] is the type 0 of an empty data list. *)
Inductive kind :=
  | K_NONE
  | STRING | NUMBER | NAME
  | CONNECT | DIS | DOT | VER | EXTENTNAME | USERNAME | PASSWORD | SESSION_ID | UNSET
  | CMD | ERROR | MSG | RESPONSE
  | TIMEOUT | DURATION | CORRELATION_ID | TXN_ID | LEASE_ID | NRESULTS
  | START_BRACE | END_BRACE | END_STMT
  | CONS | CAR | CDR
  | WRITE | READ | TAKE | TXN | COMMIT | CANCEL | CANCELLEASE | NENLISTED
  | START_PARAN | END_PARAN | START_BRACKET | END_BRACKET | PAIR_SEP | MAP | LIST | STMT
  | ASSIGN | CONCAT.
#[global] Instance kind_eq : EqDecision kind.
Proof. solve_decision. Defined.

(** A token with its semantic value *)
Inductive token := T (k : kind) | T_NUMBER (n : Z) | T_STRING (s : string) | T_NAME (s : string).

(** ** oejcl_parser.l *)

Definition punct (c : Z) : option kind :=
  if c =? 40 then Some START_PARAN
  else if c =? 41 then Some END_PARAN
  else if c =? 91 then Some START_BRACKET
  else if c =? 93 then Some END_BRACKET
  else if c =? 123 then Some START_BRACE
  else if c =? 125 then Some END_BRACE
  else if c =? 58 then Some PAIR_SEP
  else if c =? 59 then Some END_STMT
  else if c =? 43 then Some CONCAT
  else if c =? 61 then Some ASSIGN
  else if c =? 46 then Some DOT
  else None.

Definition keywords : list (string * kind) :=
  [("cons", CONS); ("car", CAR); ("cdr", CDR);
   ("dis", DIS); ("connect", CONNECT);
   ("write", WRITE); ("read", READ); ("take", TAKE); ("commit", COMMIT); ("cancel", CANCEL);
   ("response", RESPONSE); ("error", ERROR); ("extentname", EXTENTNAME); ("msg", MSG); ("cmd", CMD);
   ("txn", TXN);
   ("username", USERNAME); ("password", PASSWORD); ("dur", DURATION); ("timeout", TIMEOUT);
   ("cid", CORRELATION_ID); ("tid", TXN_ID); ("lid", LEASE_ID); ("sid", SESSION_ID);
   ("nresults", NRESULTS); ("enlisted", NENLISTED)].
Definition keyword (w : list Z) : option kind :=
  '(_, (_, k)) ← list_find (λ p : string * kind, bytes_of p.1 = w) keywords; Some k.

(** [a-zA-Z_$] and [a-zA-Z0-9_$] *)
Definition name_start (c : Z) : bool :=
  (97 <=? c) && (c <=? 122) || (65 <=? c) && (c <=? 90) || (c =? 95) || (c =? 36).
Definition name_char (c : Z) : bool := name_start c || c_digit c.
Definition blank (c : Z) : bool := (c =? 32) || (c =? 10) || (c =? 9).

(** The longest prefix of characters of a class, and what follows *)
Fixpoint span (P : Z → bool) (l : list Z) : list Z * list Z :=
  match l with
  | c :: l' => if P c then let '(w, r) := span P l' in (c :: w, r) else ([], l)
  | [] => ([], [])
  end.

(** The rest of a quoted string, [(\\.|[^\\"])*["]]: its characters before
    the closing quote, and what follows; [.] does not match a newline. *)
Fixpoint quoted (l : list Z) : option (list Z * list Z) :=
  match l with
  | [] => None
  | c :: l =>
    if c =? 34 then Some ([], l)
    else if c =? 92 then
      match l with
      | d :: l => if d =? 10 then None else '(s, r) ← quoted l; Some (c :: d :: s, r)
      | [] => None
      end
    else '(s, r) ← quoted l; Some (c :: s, r)
  end.

Inductive lexeme := L_token (t : token) | L_skip | L_mystery.

Section lexer.
(** How many bytes [malloc(n)] makes available *)
Context (usable : nat → nat).

(** One match of the lexer on a text that is not empty *)
Definition lex1 (l : list Z) : option (lexeme * list Z) :=
  match l with
  | [] => None
  | c :: q =>
    match punct c with
    | Some k => Some (L_token (T k), q)
    | None =>
      if name_start c then
        let '(w, r) := span name_char l in
        Some (L_token (match keyword w with Some k => T k | None => T_NAME (string_of_bytes w) end), r)
      else if c_digit c || (c =? 45) && match q with d :: _ => c_digit d | [] => false end then
        let '(w, r) := span c_digit q in
        Some (L_token (T_NUMBER (atoi (c :: w))), r)
      else if c =? 34 then
        match quoted q with
        | Some (s, r) =>
          let yytext := 34 :: s ++ [34] in
          d ← oec_unquote usable (string_of_bytes yytext) (Z.of_nat (length yytext));
          d ← d; s ← c_string d;
          Some (L_token (T_STRING s), r)
        | None => Some (L_mystery, q)
        end
      else if (c =? 47) && bool_decide (head q = Some 47) then
        Some (L_skip, (span (λ c, negb (c =? 10)) q).2)
      else if blank c then Some (L_skip, q)
      else Some (L_mystery, q)
    end
  end.

(** The tokens, and whether a character matched no other rule *)
Fixpoint lex (fuel : nat) (l : list Z) : option (list token * bool) :=
  match fuel, l with
  | _, [] => Some ([], false)
  | O, _ => None
  | S fuel, _ =>
    '(x, l) ← lex1 l;
    '(ts, err) ← lex fuel l;
    match x with
    | L_token t => Some (t :: ts, err)
    | L_skip => Some (ts, err)
    | L_mystery => Some (ts, true)
    end
  end.

End lexer.

(** ** oejcl_parser.c *)

(** A node; [Num] and [Str] are the leaves that stand behind a pointer to a
    node, a [numval] and a [strval]. *)
Inductive ast := NULL | Node (t : kind) (l r : ast) | Num (n : Z) | Str (s : string).

Definition new_oejcl_ast (t : kind) (l r : ast) : ast := Node t l r.
Definition new_oejcl_num (d : Z) : ast := Num d.
Definition new_oejcl_num_ast (t : kind) (d : Z) : ast := new_oejcl_ast t (new_oejcl_num d) NULL.
Definition new_oejcl_str (s : string) : ast := Str s.
Definition new_oejcl_str_ast (t : kind) (s : string) : ast := new_oejcl_ast t (new_oejcl_str s) NULL.

(** [a->r = x]; the grammar's actions only do it to nodes. *)
Definition set_r (a x : ast) : ast := match a with Node t l _ => Node t l x | _ => a end.

(** ** oejcl_parser.y, production by production *)

Inductive g_string : list token → ast → Prop :=
  | g_string_STRING s : g_string [T_STRING s] (new_oejcl_str_ast STRING s)
  | g_string_CONCAT s t u :
    oec_str_concat [s; t] = Some u →
    g_string [T_STRING s; T CONCAT; T_STRING t] (new_oejcl_str_ast STRING u)
  | g_string_NAME s : g_string [T_NAME s] (new_oejcl_str_ast NAME s).

Inductive g_list : list token → ast → Prop :=
  | g_list_one ts a : g_string ts a → g_list ts a
  | g_list_more ts a ts' b : g_string ts a → g_list ts' b → g_list (ts ++ ts') (set_r a b).

Inductive g_map : list token → ast → Prop :=
  | g_map_one ts a ts' b :
    g_string ts a → g_string ts' b → g_map (ts ++ T PAIR_SEP :: ts') (set_r a b)
  | g_map_more ts a ts' b ts'' c :
    g_string ts a → g_string ts' b → g_map ts'' c →
    g_map (ts ++ T PAIR_SEP :: ts' ++ ts'') (set_r a (set_r b c)).

Inductive g_items : list token → ast → Prop :=
  | g_items_list ts a : g_list ts a → g_items ts (new_oejcl_ast LIST a NULL)
  | g_items_map ts a : g_map ts a → g_items ts (new_oejcl_ast MAP a NULL).

Inductive g_data : list token → ast → Prop :=
  | g_data_empty : g_data [T START_BRACKET; T END_BRACKET] (new_oejcl_ast K_NONE NULL NULL)
  | g_data_items ts a : g_items ts a → g_data (T START_BRACKET :: ts ++ [T END_BRACKET]) a.

(** [cid], [tid], [lid], [sid], [dur], [nresults], [nenlisted], [timeout] *)
Definition num_arg (k : kind) : bool :=
  bool_decide (k ∈ [CORRELATION_ID; TXN_ID; LEASE_ID; SESSION_ID; DURATION; NRESULTS; NENLISTED; TIMEOUT]).
(** [msg], [extentname], [username], [password] *)
Definition str_arg (k : kind) : bool := bool_decide (k ∈ [MSG; EXTENTNAME; USERNAME; PASSWORD]).
Definition cmdname (k : kind) : bool :=
  bool_decide (k ∈ [CONNECT; DIS; READ; TAKE; WRITE; TXN; COMMIT; CANCEL]).

Inductive g_arg : kind → list token → ast → Prop :=
  | g_arg_num k n : num_arg k = true → g_arg k [T k; T ASSIGN; T_NUMBER n] (new_oejcl_num_ast k n)
  | g_arg_str k s : str_arg k = true → g_arg k [T k; T ASSIGN; T_STRING s] (new_oejcl_str_ast k s)
  | g_arg_cmd k : cmdname k = true →
    g_arg CMD [T CMD; T ASSIGN; T k] (new_oejcl_ast CMD (new_oejcl_ast k NULL NULL) NULL)
  | g_arg_ver x y z :
    g_arg VER [T VER; T ASSIGN; T_NUMBER x; T DOT; T_NUMBER y; T DOT; T_NUMBER z] (new_oejcl_ast VER NULL NULL).

(** A left-recursive list of arguments: the last is the first of the chain. *)
Inductive g_args (allowed : list kind) : list token → ast → Prop :=
  | g_args_nil : g_args allowed [] NULL
  | g_args_snoc ts a k ts' b :
    g_args allowed ts a → k ∈ allowed → g_arg k ts' b → g_args allowed (ts ++ ts') (set_r b a).

Definition errorargs := [CMD; CORRELATION_ID; MSG].
Definition responseargs := [CMD; LEASE_ID; CORRELATION_ID; TXN_ID; SESSION_ID; NRESULTS].
Definition txnargs := [TIMEOUT; CORRELATION_ID; TXN_ID].
Definition cmdargs := [CORRELATION_ID].
Definition writeargs := [CORRELATION_ID; TXN_ID; DURATION].
Definition readargs := [CORRELATION_ID; TXN_ID; TIMEOUT].
Definition connectargs := [CORRELATION_ID; VER; EXTENTNAME; USERNAME; PASSWORD].

Inductive g_command : list token → ast → Prop :=
  | g_connect ts a : g_args connectargs ts a →
    g_command (T CONNECT :: T START_PARAN :: ts ++ [T END_PARAN]) (new_oejcl_ast CONNECT a NULL)
  | g_dis : g_command [T DIS; T START_PARAN; T END_PARAN] (new_oejcl_ast DIS NULL NULL)
  | g_read ts a ts' d : g_args readargs ts a → g_data ts' d →
    g_command (T READ :: T START_PARAN :: ts ++ ts' ++ [T END_PARAN]) (new_oejcl_ast READ a d)
  | g_take ts a ts' d : g_args readargs ts a → g_data ts' d →
    g_command (T TAKE :: T START_PARAN :: ts ++ ts' ++ [T END_PARAN]) (new_oejcl_ast TAKE a d)
  | g_write ts a ts' d : g_args writeargs ts a → g_data ts' d →
    g_command (T WRITE :: T START_PARAN :: ts ++ ts' ++ [T END_PARAN]) (new_oejcl_ast WRITE a d)
  | g_newtxn ts a : g_args txnargs ts a →
    g_command (T TXN :: T START_PARAN :: ts ++ [T END_PARAN]) (new_oejcl_ast TXN a NULL)
  | g_commit ts a ts' b ts'' c : g_args cmdargs ts a → g_arg TXN_ID ts' b → g_arg NENLISTED ts'' c →
    g_command (T COMMIT :: T START_PARAN :: ts ++ ts' ++ ts'' ++ [T END_PARAN])
      (new_oejcl_ast COMMIT (set_r c (set_r b a)) NULL)
  | g_cancel ts a ts' b : g_args cmdargs ts a → g_arg TXN_ID ts' b →
    g_command (T CANCEL :: T START_PARAN :: ts ++ ts' ++ [T END_PARAN])
      (new_oejcl_ast CANCEL (set_r b a) NULL)
  | g_cancellease ts a ts' b : g_args cmdargs ts a → g_arg LEASE_ID ts' b →
    g_command (T CANCEL :: T START_PARAN :: ts ++ ts' ++ [T END_PARAN])
      (new_oejcl_ast CANCELLEASE (set_r b a) NULL).

Inductive g_response : list token → ast → Prop :=
  | g_response_args ts a : g_args responseargs ts a →
    g_response (T RESPONSE :: T START_PARAN :: ts ++ [T END_PARAN]) (new_oejcl_ast RESPONSE a NULL)
  | g_response_data ts a ts' d : g_args responseargs ts a → g_data ts' d →
    g_response (T RESPONSE :: T START_PARAN :: ts ++ ts' ++ [T END_PARAN]) (new_oejcl_ast RESPONSE a d).

Inductive g_errormsg : list token → ast → Prop :=
  | g_error ts a : g_args errorargs ts a →
    g_errormsg (T ERROR :: T START_PARAN :: ts ++ [T END_PARAN]) (new_oejcl_ast ERROR a NULL).

Inductive g_stmts : list token → ast → Prop :=
  | g_stmts_one ts a : g_stmt ts a → g_stmts ts a
  | g_stmts_more ts a ts' b : g_stmt ts a → g_stmts ts' b → g_stmts (ts ++ ts') (set_r a b)
with g_stmt : list token → ast → Prop :=
  | g_stmt_command ts a : g_command ts a → g_stmt (ts ++ [T END_STMT]) (new_oejcl_ast STMT a NULL)
  | g_stmt_response ts a : g_response ts a → g_stmt (ts ++ [T END_STMT]) (new_oejcl_ast STMT a NULL)
  | g_stmt_error ts a : g_errormsg ts a → g_stmt (ts ++ [T END_STMT]) (new_oejcl_ast STMT a NULL)
  | g_stmt_txn ts a : g_txn ts a → g_stmt (ts ++ [T END_STMT]) (new_oejcl_ast STMT a NULL)
  | g_stmt_assign ts a : g_assign ts a → g_stmt (ts ++ [T END_STMT]) (new_oejcl_ast STMT a NULL)
with g_txn : list token → ast → Prop :=
  | g_txn_block ts a ts' b : g_args txnargs ts a → g_stmts ts' b →
    g_txn (T TXN :: T START_PARAN :: ts ++ T END_PARAN :: T START_BRACE :: ts' ++ [T END_BRACE])
      (new_oejcl_ast TXN a b)
with g_assign : list token → ast → Prop :=
  | g_assign_string n ts a : g_string ts a →
    g_assign (T_NAME n :: T ASSIGN :: ts) (new_oejcl_ast ASSIGN (new_oejcl_str_ast NAME n) a)
  | g_assign_number n x :
    g_assign [T_NAME n; T ASSIGN; T_NUMBER x]
      (new_oejcl_ast ASSIGN (new_oejcl_str_ast NAME n) (new_oejcl_num_ast NUMBER x))
  | g_assign_data n ts a : g_data ts a →
    g_assign (T_NAME n :: T ASSIGN :: ts) (new_oejcl_ast ASSIGN (new_oejcl_str_ast NAME n) a)
  | g_assign_command n ts a : g_command ts a →
    g_assign (T_NAME n :: T ASSIGN :: ts) (new_oejcl_ast ASSIGN (new_oejcl_str_ast NAME n) a)
  | g_assign_txn n ts a : g_txn ts a →
    g_assign (T_NAME n :: T ASSIGN :: ts) (new_oejcl_ast ASSIGN (new_oejcl_str_ast NAME n) a).

Scheme g_stmts_mut := Induction for g_stmts Sort Prop
  with g_stmt_mut := Induction for g_stmt Sort Prop
  with g_txn_mut := Induction for g_txn Sort Prop
  with g_assign_mut := Induction for g_assign Sort Prop.
Combined Scheme g_mutind from g_stmts_mut, g_stmt_mut, g_txn_mut, g_assign_mut.

(** ** The generated parser

    [yyparse] on the tokens of a text: [Some (Some a)] when it accepts them with
    the tree [a], [Some None] after a syntax error, and [None] for the failed
    assertion of [oec_str_concat] in an action.  It accepts exactly what the
    grammar derives from the start symbol [stmts]. *)
Class BisonParser := {
  yyparse : list token → parse ast;
  yyparse_spec ts a : yyparse ts = Some (Some a) ↔ g_stmts ts a
}.

(** [oejcl_parse]: [Some None] is the return code -1. *)
Definition oejcl_parse `{BisonParser} (usable : nat → nat) (buf : list Z) : parse ast :=
  '(ts, err) ← lex usable (length buf) buf;
  a <~ yyparse ts;
  if err : bool then Some None else Some (Some a).
