(* ===== verification/JclParser.v ===== *)
(** * JclParser: a parser for the grammar of the job control language

    Nothing of this file models code: it shows that what [BisonParser] asks of
    the generated parser can be met, and serves the runs on concrete texts.
    [p_stmts] parses by recursive descent; it accepts exactly what the grammar
    derives, with the trees its actions build.  The grammar therefore gives
    every token sequence at most one tree. *)

From S2P Require Import Prelude Values JclText.
Import Str.

(** ** Recursive descent

    A syntax error is [Some None]; [None] is the failed assertion of
    [oec_str_concat] on two empty strings. *)

Definition expect (k : kind) (ts : list token) : parse (list token) :=
  match ts with T k' :: r => if decide (k' = k) then Some (Some r) else Some None | _ => Some None end.
Definition next_is (k : kind) (ts : list token) : bool :=
  match ts with T k' :: _ => bool_decide (k' = k) | _ => false end.
Definition number (ts : list token) : parse (Z * list token) :=
  match ts with T_NUMBER n :: r => Some (Some (n, r)) | _ => Some None end.
Definition quoted_string (ts : list token) : parse (string * list token) :=
  match ts with T_STRING s :: r => Some (Some (s, r)) | _ => Some None end.
Definition starts_string (ts : list token) : bool :=
  match ts with T_STRING _ :: _ | T_NAME _ :: _ => true | _ => false end.

Definition p_string (ts : list token) : parse (ast * list token) :=
  match ts with
  | T_STRING s :: r =>
    if next_is CONCAT r then
      '(t, r) <~ quoted_string (tail r);
      u ← oec_str_concat [s; t];
      Some (Some (new_oejcl_str_ast STRING u, r))
    else Some (Some (new_oejcl_str_ast STRING s, r))
  | T_NAME s :: r => Some (Some (new_oejcl_str_ast NAME s, r))
  | _ => Some None
  end.

Fixpoint p_list (fuel : nat) (ts : list token) : parse (ast * list token) :=
  match fuel with
  | O => Some None
  | S fuel =>
    '(s, r) <~ p_string ts;
    if starts_string r then '(l, r) <~ p_list fuel r; Some (Some (set_r s l, r)) else Some (Some (s, r))
  end.

Fixpoint p_map (fuel : nat) (ts : list token) : parse (ast * list token) :=
  match fuel with
  | O => Some None
  | S fuel =>
    '(k, r) <~ p_string ts;
    r <~ expect PAIR_SEP r;
    '(v, r) <~ p_string r;
    if starts_string r then '(m, r) <~ p_map fuel r; Some (Some (set_r k (set_r v m), r))
    else Some (Some (set_r k v, r))
  end.

(** What follows the first string tells a map from a list. *)
Definition p_items (ts : list token) : parse (ast * list token) :=
  '(_, r) <~ p_string ts;
  if next_is PAIR_SEP r then
    '(m, r) <~ p_map (length ts) ts; Some (Some (new_oejcl_ast MAP m NULL, r))
  else '(l, r) <~ p_list (length ts) ts; Some (Some (new_oejcl_ast LIST l NULL, r)).

Definition p_data (ts : list token) : parse (ast * list token) :=
  ts <~ expect START_BRACKET ts;
  if next_is END_BRACKET ts then Some (Some (new_oejcl_ast K_NONE NULL NULL, tail ts))
  else '(a, r) <~ p_items ts; r <~ expect END_BRACKET r; Some (Some (a, r)).

Definition p_arg (k : kind) (ts : list token) : parse (ast * list token) :=
  ts <~ expect k ts;
  ts <~ expect ASSIGN ts;
  if num_arg k then '(n, r) <~ number ts; Some (Some (new_oejcl_num_ast k n, r))
  else if str_arg k then '(s, r) <~ quoted_string ts; Some (Some (new_oejcl_str_ast k s, r))
  else if decide (k = CMD) then
    match ts with
    | T c :: r => if cmdname c then Some (Some (new_oejcl_ast CMD (new_oejcl_ast c NULL NULL) NULL, r)) else Some None
    | _ => Some None
    end
  else if decide (k = VER) then
    '(_, r) <~ number ts; r <~ expect DOT r; '(_, r) <~ number r; r <~ expect DOT r; '(_, r) <~ number r;
    Some (Some (new_oejcl_ast VER NULL NULL, r))
  else Some None.

(** [args] is the chain so far. *)
Fixpoint p_args (fuel : nat) (allowed : list kind) (args : ast) (ts : list token) : parse (ast * list token) :=
  match fuel with
  | O => Some None
  | S fuel =>
    match ts with
    | T k :: _ =>
      if decide (k ∈ allowed) then '(a, r) <~ p_arg k ts; p_args fuel allowed (set_r a args) r
      else Some (Some (args, ts))
    | _ => Some (Some (args, ts))
    end
  end.
Definition p_arguments (allowed : list kind) (ts : list token) : parse (ast * list token) :=
  p_args (S (length ts)) allowed NULL ts.

(** A keyword with its arguments and closing parenthesis, and with its data *)
Definition p_call (k : kind) (allowed : list kind) (ts : list token) : parse (ast * list token) :=
  ts <~ expect START_PARAN ts;
  '(a, r) <~ p_arguments allowed ts;
  r <~ expect END_PARAN r;
  Some (Some (new_oejcl_ast k a NULL, r)).
Definition p_call_data (k : kind) (allowed : list kind) (ts : list token) : parse (ast * list token) :=
  ts <~ expect START_PARAN ts;
  '(a, r) <~ p_arguments allowed ts;
  '(d, r) <~ p_data r;
  r <~ expect END_PARAN r;
  Some (Some (new_oejcl_ast k a d, r)).

Definition p_commit (ts : list token) : parse (ast * list token) :=
  ts <~ expect START_PARAN ts;
  '(a, r) <~ p_arguments cmdargs ts;
  '(b, r) <~ p_arg TXN_ID r;
  '(c, r) <~ p_arg NENLISTED r;
  r <~ expect END_PARAN r;
  Some (Some (new_oejcl_ast COMMIT (set_r c (set_r b a)) NULL, r)).
Definition p_cancel (ts : list token) : parse (ast * list token) :=
  ts <~ expect START_PARAN ts;
  '(a, r) <~ p_arguments cmdargs ts;
  let lease := next_is LEASE_ID r in
  '(b, r) <~ p_arg (if lease then LEASE_ID else TXN_ID) r;
  r <~ expect END_PARAN r;
  Some (Some (new_oejcl_ast (if lease then CANCELLEASE else CANCEL) (set_r b a) NULL, r)).
Definition p_response (ts : list token) : parse (ast * list token) :=
  ts <~ expect START_PARAN ts;
  '(a, r) <~ p_arguments responseargs ts;
  if next_is START_BRACKET r then
    '(d, r) <~ p_data r; r <~ expect END_PARAN r; Some (Some (new_oejcl_ast RESPONSE a d, r))
  else r <~ expect END_PARAN r; Some (Some (new_oejcl_ast RESPONSE a NULL, r)).

(** Commands other than [newtxn] *)
Definition p_simple (k : kind) (r : list token) : parse (ast * list token) :=
  if decide (k = CONNECT) then p_call CONNECT connectargs r
  else if decide (k = DIS) then
    r <~ expect START_PARAN r; r <~ expect END_PARAN r; Some (Some (new_oejcl_ast DIS NULL NULL, r))
  else if decide (k = READ) then p_call_data READ readargs r
  else if decide (k = TAKE) then p_call_data TAKE readargs r
  else if decide (k = WRITE) then p_call_data WRITE writeargs r
  else if decide (k = COMMIT) then p_commit r
  else if decide (k = CANCEL) then p_cancel r
  else Some None.

(** [p_command] reads a command or a transaction block: they begin alike. *)
Fixpoint p_stmts (fuel : nat) (ts : list token) {struct fuel} : parse (ast * list token) :=
  match fuel with
  | O => Some None
  | S fuel =>
    '(a, r) <~ p_stmt fuel ts;
    r <~ expect END_STMT r;
    let a := new_oejcl_ast STMT a NULL in
    if bool_decide (r = []) || next_is END_BRACE r then Some (Some (a, r))
    else '(b, r) <~ p_stmts fuel r; Some (Some (set_r a b, r))
  end
with p_stmt (fuel : nat) (ts : list token) {struct fuel} : parse (ast * list token) :=
  match fuel with
  | O => Some None
  | S fuel =>
    match ts with
    | T_NAME n :: r =>
      r <~ expect ASSIGN r;
      '(a, r) <~ (match r with
                  | T_NUMBER x :: r => Some (Some (new_oejcl_num_ast NUMBER x, r))
                  | T_STRING _ :: _ | T_NAME _ :: _ => p_string r
                  | T k :: q => if decide (k = START_BRACKET) then p_data r else p_command fuel k q
                  | [] => Some None
                  end);
      Some (Some (new_oejcl_ast ASSIGN (new_oejcl_str_ast NAME n) a, r))
    | T k :: r =>
      if decide (k = RESPONSE) then p_response r
      else if decide (k = ERROR) then p_call ERROR errorargs r
      else p_command fuel k r
    | _ => Some None
    end
  end
with p_command (fuel : nat) (k : kind) (r : list token) {struct fuel} : parse (ast * list token) :=
  match fuel with
  | O => Some None
  | S fuel =>
    if decide (k = TXN) then
      '(a, r) <~ p_call TXN txnargs r;
      if next_is START_BRACE r then
        '(b, r) <~ p_stmts fuel (tail r); r <~ expect END_BRACE r;
        Some (Some (match a with Node _ args _ => new_oejcl_ast TXN args b | _ => a end, r))
      else Some (Some (a, r))
    else p_simple k r
  end.

(** ** The parser is the grammar *)

(** What a parser reads is derived by the grammar. *)
Definition sound (p : list token → parse (ast * list token)) (g : list token → ast → Prop) : Prop :=
  ∀ ts a r, p ts = Some (Some (a, r)) → ∃ u, ts = u ++ r ∧ g u a.

Lemma expect_Some k ts r : expect k ts = Some (Some r) ↔ ts = T k :: r.
Proof.
  destruct ts as [|[k'| | |] ts]; cbn; try naive_solver. destruct (decide _); naive_solver.
Qed.
Lemma expect_eq k r : expect k (T k :: r) = Some (Some r).
Proof. by apply expect_Some. Qed.
Lemma number_Some ts n r : number ts = Some (Some (n, r)) ↔ ts = T_NUMBER n :: r.
Proof. destruct ts as [|[] ts]; cbn; naive_solver. Qed.
Lemma quoted_string_Some ts s r : quoted_string ts = Some (Some (s, r)) ↔ ts = T_STRING s :: r.
Proof. destruct ts as [|[] ts]; cbn; naive_solver. Qed.
Lemma next_is_true k ts : next_is k ts = true ↔ ∃ r, ts = T k :: r.
Proof.
  destruct ts as [|[k'| | |] ts]; cbn; try (split; [done|by intros [? ?]]).
  rewrite bool_decide_eq_true. split; [intros ->; eauto|naive_solver].
Qed.

#[local] Ltac tok_inv :=
  pbind_inv;
  repeat match goal with
  | H : expect _ _ = Some (Some _) |- _ => apply expect_Some in H
  | H : number _ = Some (Some _) |- _ => apply number_Some in H
  | H : quoted_string _ = Some (Some _) |- _ => apply quoted_string_Some in H
  | H : next_is _ _ = true |- _ => apply next_is_true in H as [? H]
  end; subst.

Lemma p_string_sound : sound p_string g_string.
Proof.
  intros [|[k|n|s|s] ts] a r H; cbn in H; try done.
  - destruct (next_is CONCAT ts) eqn:En.
    + tok_inv. cbn in *. tok_inv. cbn in H. destruct (oec_str_concat _) as [u|] eqn:Eu; [|done]. cbn in H.
      simplify_eq. eexists [_; _; _]. split; [done|]. by constructor.
    + simplify_eq. exists [T_STRING s]. split; [done|constructor].
  - simplify_eq. exists [T_NAME s]. split; [done|constructor].
Qed.

Lemma p_list_sound fuel : sound (p_list fuel) g_list.
Proof.
  induction fuel as [|fuel IH]; intros ts a r H; [done|]. cbn [p_list] in H. tok_inv.
  apply p_string_sound in E as (u & -> & Hu). destruct (starts_string l).
  - tok_inv. apply IH in E as (v & -> & Hv). simplify_eq. exists (u ++ v). split; [by rewrite app_assoc|by constructor].
  - simplify_eq. exists u. split; [done|by constructor].
Qed.

Lemma p_map_sound fuel : sound (p_map fuel) g_map.
Proof.
  induction fuel as [|fuel IH]; intros ts a r H; [done|]. cbn [p_map] in H. tok_inv.
  apply p_string_sound in E as (u & -> & Hu). apply p_string_sound in E1 as (v & -> & Hv).
  destruct (starts_string _).
  - tok_inv. apply IH in E as (w & -> & Hw). simplify_eq. exists (u ++ T PAIR_SEP :: v ++ w).
    split; [by rewrite <-app_assoc; cbn; rewrite <-app_assoc|by apply g_map_more].
  - simplify_eq. exists (u ++ T PAIR_SEP :: v). split; [by rewrite <-app_assoc|by apply g_map_one].
Qed.

Lemma p_items_sound : sound p_items g_items.
Proof.
  intros ts a r H. unfold p_items in H. tok_inv. destruct (next_is _ _); tok_inv; simplify_eq.
  - apply p_map_sound in E0 as (u & -> & Hu). exists u. split; [done|by constructor].
  - apply p_list_sound in E0 as (u & -> & Hu). exists u. split; [done|by constructor].
Qed.

Lemma p_data_sound : sound p_data g_data.
Proof.
  intros ts a r H. unfold p_data in H. tok_inv. destruct (next_is _ _) eqn:En.
  - tok_inv. simplify_eq. cbn. eexists [_; _]. split; [done|constructor].
  - tok_inv. apply p_items_sound in E as (u & -> & Hu). simplify_eq.
    exists (T START_BRACKET :: u ++ [T END_BRACKET]). split; [cbn; by rewrite <-app_assoc|by constructor].
Qed.

Lemma p_arg_sound k : sound (p_arg k) (g_arg k).
Proof.
  intros ts a r H. unfold p_arg in H. tok_inv.
  destruct (num_arg k) eqn:En; [|destruct (str_arg k) eqn:Es; [|destruct (decide (k = CMD)) as [->|];
    [|destruct (decide (k = VER)) as [->|]; [|done]]]].
  - tok_inv. simplify_eq. eexists [_; _; _]. split; [done|by constructor].
  - tok_inv. simplify_eq. eexists [_; _; _]. split; [done|by constructor].
  - destruct a1 as [|[c| | |] a1]; try done. destruct (cmdname c) eqn:Ec; [|done]. simplify_eq.
    eexists [_; _; _]. split; [done|by constructor].
  - tok_inv. simplify_eq. eexists [_; _; _; _; _; _; _]. split; [done|constructor].
Qed.

Lemma p_args_sound fuel allowed : ∀ u0 args ts a r,
  g_args allowed u0 args → p_args fuel allowed args ts = Some (Some (a, r)) →
  ∃ u, ts = u ++ r ∧ g_args allowed (u0 ++ u) a.
Proof.
  induction fuel as [|fuel IH]; intros u0 args ts a r Hg H; [done|]. cbn [p_args] in H.
  assert (Some (Some (args, ts)) = Some (Some (a, r)) → ∃ u, ts = u ++ r ∧ g_args allowed (u0 ++ u) a) as Hstop.
  { intros [= -> ->]. exists []. by rewrite app_nil_r. }
  destruct ts as [|[k| | |] ts]; auto. destruct (decide (k ∈ allowed)) as [Hk|]; [|auto].
  tok_inv. apply p_arg_sound in E as (v & E & Hv). rewrite E.
  destruct (IH (u0 ++ v) (set_r a0 args) l a r) as (w & -> & Hw); [by econstructor|done|].
  exists (v ++ w). by rewrite !app_assoc.
Qed.
Lemma p_arguments_sound allowed : sound (p_arguments allowed) (g_args allowed).
Proof. intros ts a r H. eapply (p_args_sound _ _ [] NULL); [constructor|done]. Qed.

Lemma p_call_sound k allowed ts a r :
  p_call k allowed ts = Some (Some (a, r)) →
  ∃ u b, ts = T START_PARAN :: u ++ T END_PARAN :: r ∧ g_args allowed u b ∧ a = new_oejcl_ast k b NULL.
Proof.
  unfold p_call. intros H. tok_inv. apply p_arguments_sound in E0 as (u & -> & Hu). simplify_eq. eauto.
Qed.
Lemma p_call_data_sound k allowed ts a r :
  p_call_data k allowed ts = Some (Some (a, r)) →
  ∃ u b v d, ts = T START_PARAN :: u ++ v ++ T END_PARAN :: r ∧ g_args allowed u b ∧ g_data v d ∧
    a = new_oejcl_ast k b d.
Proof.
  unfold p_call_data. intros H. tok_inv. apply p_arguments_sound in E0 as (u & -> & Hu).
  apply p_data_sound in E1 as (v & -> & Hv). simplify_eq. eauto 10.
Qed.

#[local] Ltac close_tokens := cbn; rewrite <-?app_assoc; done.

Lemma p_simple_sound k ts a r :
  p_simple k ts = Some (Some (a, r)) → ∃ u, T k :: ts = u ++ r ∧ g_command u a.
Proof.
  unfold p_simple. intros H.
  repeat (destruct (decide _) as [->|_]; [|try done]).
  - apply p_call_sound in H as (u & b & -> & Hu & ->). eexists. split; [|by apply g_connect]. close_tokens.
  - tok_inv. simplify_eq. eexists. split; [|apply g_dis]. done.
  - apply p_call_data_sound in H as (u & b & v & d & -> & Hu & Hv & ->). eexists.
    split; [|by apply g_read]. close_tokens.
  - apply p_call_data_sound in H as (u & b & v & d & -> & Hu & Hv & ->). eexists.
    split; [|by apply g_take]. close_tokens.
  - apply p_call_data_sound in H as (u & b & v & d & -> & Hu & Hv & ->). eexists.
    split; [|by apply g_write]. close_tokens.
  - unfold p_commit in H. tok_inv. apply p_arguments_sound in E0 as (u & -> & Hu).
    apply p_arg_sound in E1 as (v & -> & Hv). apply p_arg_sound in E2 as (w & -> & Hw). simplify_eq.
    eexists. split; [|by eapply g_commit]. close_tokens.
  - unfold p_cancel in H. tok_inv. apply p_arguments_sound in E0 as (u & -> & Hu).
    destruct (next_is LEASE_ID _); apply p_arg_sound in E1 as (v & -> & Hv); simplify_eq; eexists.
    + split; [|by eapply g_cancellease]. close_tokens.
    + split; [|by eapply g_cancel]. close_tokens.
Qed.

Lemma p_response_sound ts a r :
  p_response ts = Some (Some (a, r)) → ∃ u, T RESPONSE :: ts = u ++ r ∧ g_response u a.
Proof.
  unfold p_response. intros H. tok_inv. apply p_arguments_sound in E0 as (u & -> & Hu).
  destruct (next_is START_BRACKET _); tok_inv; simplify_eq.
  - apply p_data_sound in E as (v & -> & Hv). eexists. split; [|by eapply g_response_data]. close_tokens.
  - eexists. split; [|by eapply g_response_args]. close_tokens.
Qed.

Lemma p_stmts_sound fuel :
  sound (p_stmts fuel) g_stmts ∧
  (∀ ts a r, p_stmt fuel ts = Some (Some (a, r)) →
     ∃ u, ts = u ++ r ∧ (g_command u a ∨ g_response u a ∨ g_errormsg u a ∨ g_txn u a ∨ g_assign u a)) ∧
  (∀ k ts a r, p_command fuel k ts = Some (Some (a, r)) → ∃ u, T k :: ts = u ++ r ∧ (g_command u a ∨ g_txn u a)).
Proof.
  induction fuel as [|fuel (IH1 & IH2 & IH3)]; [by split_and!|]. split_and!.
  - intros ts a r H. cbn [p_stmts] in H. tok_inv. apply IH2 in E as (u & -> & Hu).
    assert (g_stmt (u ++ [T END_STMT]) (new_oejcl_ast STMT a0 NULL)) as Hs.
    { destruct Hu as [?|[?|[?|[?|?]]]];
        [by apply g_stmt_command|by apply g_stmt_response|by apply g_stmt_error|by apply g_stmt_txn|by apply g_stmt_assign]. }
    destruct (_ || _).
    + simplify_eq. exists (u ++ [T END_STMT]). split; [by rewrite <-app_assoc|by apply g_stmts_one].
    + tok_inv. apply IH1 in E as (v & -> & Hv). simplify_eq. exists ((u ++ [T END_STMT]) ++ v).
      split; [by rewrite <-!app_assoc|by apply g_stmts_more].
  - intros ts a r H. cbn [p_stmt] in H. destruct ts as [|[k| | |n] ts]; try done.
    + destruct (decide (k = RESPONSE)) as [->|]; [|destruct (decide (k = ERROR)) as [->|]].
      * apply p_response_sound in H as (u & E & Hu). exists u. auto.
      * apply p_call_sound in H as (u & b & -> & Hu & ->). eexists.
        split; [|right; right; left; by apply g_error]. cbn. rewrite <-app_assoc. done.
      * apply IH3 in H as (u & E & Hu). exists u. naive_solver.
    + tok_inv. simplify_eq.
      destruct a0 as [|[k| | |] q]; [done| | | |].
      * destruct (decide (k = START_BRACKET)) as [->|].
        -- apply p_data_sound in E0 as (u & -> & Hu). exists (T_NAME n :: T ASSIGN :: u).
           split; [done|]. do 4 right. by apply g_assign_data.
        -- apply IH3 in E0 as (u & -> & Hu). exists (T_NAME n :: T ASSIGN :: u).
           split; [done|]. do 4 right. destruct Hu; [by apply g_assign_command|by apply g_assign_txn].
      * simplify_eq. exists [T_NAME n; T ASSIGN; T_NUMBER n0]. split; [done|]. do 4 right. apply g_assign_number.
      * apply p_string_sound in E0 as (u & -> & Hu). exists (T_NAME n :: T ASSIGN :: u).
        split; [done|]. do 4 right. by apply g_assign_string.
      * apply p_string_sound in E0 as (u & -> & Hu). exists (T_NAME n :: T ASSIGN :: u).
        split; [done|]. do 4 right. by apply g_assign_string.
  - intros k ts a r H. cbn [p_command] in H. destruct (decide (k = TXN)) as [->|].
    + tok_inv. apply p_call_sound in E as (u & b & -> & Hu & ->). destruct (next_is START_BRACE _) eqn:En; tok_inv.
      * cbn in *. apply IH1 in E as (v & -> & Hv). simplify_eq. eexists. split; [|right; by eapply g_txn_block].
        cbn. rewrite <-app_assoc. cbn. by rewrite <-app_assoc.
      * simplify_eq. eexists. split; [|left; by apply g_newtxn]. close_tokens.
    + apply p_simple_sound in H as (u & E & Hu). exists u. auto.
Qed.

(** What the grammar derives is read, in front of what may follow it. *)

Lemma starts_string_not k ts : starts_string ts = true → next_is k ts = false.
Proof. by destruct ts as [|[]]. Qed.
Lemma g_string_starts u a r : g_string u a → starts_string (u ++ r) = true ∧ (1 ≤ length u)%nat.
Proof. intros []; cbn; (split; [done|lia]). Qed.

Lemma p_string_complete u a r :
  g_string u a → next_is CONCAT r = false → p_string (u ++ r) = Some (Some (a, r)).
Proof. intros [] Hr; cbn; [by rewrite Hr|by rewrite H|done]. Qed.

Lemma g_list_starts u a r : g_list u a → starts_string (u ++ r) = true ∧ (1 ≤ length u)%nat.
Proof.
  induction 1 as [ts a H|ts a ts' b H _ _]; [by eapply g_string_starts|].
  rewrite <-app_assoc, length_app. destruct (g_string_starts ts a (ts' ++ r) H). split; [done|lia].
Qed.
Lemma g_map_starts u a r : g_map u a → starts_string (u ++ r) = true ∧ (1 ≤ length u)%nat.
Proof.
  intros H. assert (∃ ts b v, u = ts ++ v ∧ g_string ts b) as (ts & b & v & -> & Hs) by (destruct H; eauto).
  rewrite <-app_assoc, length_app. destruct (g_string_starts ts b (v ++ r) Hs). split; [done|lia].
Qed.

Lemma p_list_complete u a : g_list u a → ∀ fuel r,
  starts_string r = false → next_is CONCAT r = false → (length u ≤ fuel)%nat →
  p_list fuel (u ++ r) = Some (Some (a, r)).
Proof.
  induction 1 as [ts a H|ts a ts' b H H' IH]; intros fuel r Hs Hc Hf.
  - destruct (g_string_starts ts a r H) as [_ Hl]. destruct fuel as [|fuel]; [lia|]. cbn [p_list].
    rewrite (p_string_complete ts a r) by done. cbn. by rewrite Hs.
  - destruct (g_string_starts ts a [] H) as [_ Hl]. destruct (g_list_starts ts' b r H') as [Hst _].
    rewrite length_app in Hf. destruct fuel as [|fuel]; [lia|]. cbn [p_list]. rewrite <-app_assoc.
    rewrite (p_string_complete ts a) by (done || by apply starts_string_not). cbn. rewrite Hst.
    by rewrite IH by (done || lia).
Qed.

Lemma p_map_complete u a : g_map u a → ∀ fuel r,
  starts_string r = false → next_is CONCAT r = false → (length u ≤ fuel)%nat →
  p_map fuel (u ++ r) = Some (Some (a, r)).
Proof.
  induction 1 as [ts a ts' b H H1|ts a ts' b ts'' c H H1 H2 IH]; intros fuel r Hs Hc Hf.
  - destruct (g_string_starts ts a [] H) as [_ Hl]. rewrite length_app in Hf. cbn in Hf.
    destruct fuel as [|fuel]; [lia|]. cbn [p_map]. rewrite <-app_assoc. cbn [app].
    rewrite (p_string_complete ts a) by done. cbn [pbind]. rewrite expect_eq. cbn [pbind]. rewrite (p_string_complete ts' b) by done. cbn. by rewrite Hs.
  - destruct (g_string_starts ts a [] H) as [_ Hl]. destruct (g_map_starts ts'' c r H2) as [Hst _].
    rewrite !length_app in Hf. cbn in Hf. rewrite length_app in Hf. destruct fuel as [|fuel]; [lia|].
    cbn [p_map]. rewrite <-app_assoc. cbn [app]. rewrite <-app_assoc.
    rewrite (p_string_complete ts a) by done. cbn [pbind]. rewrite expect_eq. cbn [pbind].
    rewrite (p_string_complete ts' b) by (done || by apply starts_string_not). cbn. rewrite Hst.
    by rewrite IH by (done || lia).
Qed.

Lemma g_list_first u a r :
  g_list u a → starts_string r = false → next_is CONCAT r = false → next_is PAIR_SEP r = false →
  ∃ x r', p_string (u ++ r) = Some (Some (x, r')) ∧ next_is PAIR_SEP r' = false.
Proof.
  intros [ts b H|ts b ts' c H H'] Hs Hc Hp.
  - exists b, r. by rewrite (p_string_complete ts b).
  - destruct (g_list_starts ts' c r H') as [Hst _]. exists b, (ts' ++ r). rewrite <-app_assoc.
    rewrite (p_string_complete ts b) by (done || by apply starts_string_not). split; [done|by apply starts_string_not].
Qed.
Lemma g_map_first u a r :
  g_map u a → ∃ x r', p_string (u ++ r) = Some (Some (x, r')) ∧ next_is PAIR_SEP r' = true.
Proof.
  intros [ts b ts' c H H'|ts b ts' c ts'' d H H' H'']; rewrite <-app_assoc; cbn [app];
    rewrite (p_string_complete ts b) by done; eauto.
Qed.

Lemma p_data_complete u a r : g_data u a → p_data (u ++ r) = Some (Some (a, r)).
Proof.
  intros [|ts b H]; [unfold p_data; cbn [app]; by rewrite expect_eq|]. unfold p_data. cbn [app]. rewrite expect_eq. cbn [pbind].
  rewrite <-app_assoc. cbn [app]. set (q := T END_BRACKET :: r).
  destruct H as [ts c H|ts c H].
  - destruct (g_list_starts ts c q H) as [Hst Hl]. rewrite (starts_string_not END_BRACKET) by done.
    unfold p_items. destruct (g_list_first ts c q H) as (x & r' & -> & Hn); [done..|]. cbn. rewrite Hn.
    rewrite (p_list_complete ts c H) by (done || (rewrite length_app; lia)). cbn [pbind]. subst q. by rewrite expect_eq.
  - destruct (g_map_starts ts c q H) as [Hst Hl]. rewrite (starts_string_not END_BRACKET) by done.
    unfold p_items. destruct (g_map_first ts c q H) as (x & r' & -> & Hn). cbn. rewrite Hn.
    rewrite (p_map_complete ts c H) by (done || (rewrite length_app; lia)). cbn [pbind]. subst q. by rewrite expect_eq.
Qed.

Lemma p_arg_complete k u a r : g_arg k u a → p_arg k (u ++ r) = Some (Some (a, r)).
Proof.
  intros [k' n Hk|k' s Hk|k' Hk|x y z]; unfold p_arg; cbn [app]; rewrite expect_eq; cbn [pbind];
    rewrite expect_eq; cbn [pbind]; [by rewrite Hk| |by cbn; rewrite Hk|by do 3 (cbn; rewrite ?expect_eq)].
  assert (num_arg k' = false) as ->; [|by rewrite Hk].
  unfold num_arg, str_arg in *. apply bool_decide_eq_true in Hk. apply bool_decide_eq_false. set_solver.
Qed.

Lemma g_arg_first k u a : g_arg k u a → ∃ w, u = T k :: w.
Proof. intros []; eauto. Qed.

Lemma p_args_complete allowed u a : g_args allowed u a → ∃ n, (n ≤ length u)%nat ∧
  ∀ fuel r, p_args (n + fuel) allowed NULL (u ++ r) = p_args fuel allowed a r.
Proof.
  induction 1 as [|ts a k ts' b H IH Hk Hb]; [by exists 0%nat|]. destruct IH as (n & Hn & IH).
  destruct (g_arg_first k ts' b Hb) as (w & ->). exists (S n). split; [rewrite length_app; cbn; lia|].
  intros fuel r. replace (S n + fuel)%nat with (n + S fuel)%nat by lia. rewrite <-app_assoc, IH. cbn [p_args app].
  rewrite decide_True by done. change (T k :: w ++ r) with ((T k :: w) ++ r). by rewrite (p_arg_complete k _ b).
Qed.

Definition stops (allowed : list kind) (r : list token) : bool :=
  match r with T k :: _ => negb (bool_decide (k ∈ allowed)) | _ => true end.

Lemma p_arguments_complete allowed u a r :
  g_args allowed u a → stops allowed r = true → p_arguments allowed (u ++ r) = Some (Some (a, r)).
Proof.
  intros H Hr. destruct (p_args_complete allowed u a H) as (n & Hn & Hp). unfold p_arguments.
  rewrite length_app. replace (S (length u + length r)) with (n + S (length u + length r - n))%nat by lia.
  rewrite Hp. cbn [p_args]. destruct r as [|[k| | |] r]; try done. cbn in Hr.
  apply negb_true_iff, bool_decide_eq_false in Hr. by rewrite decide_False.
Qed.

Lemma p_call_complete k allowed u a r :
  g_args allowed u a → END_PARAN ∉ allowed →
  p_call k allowed (T START_PARAN :: u ++ T END_PARAN :: r) = Some (Some (new_oejcl_ast k a NULL, r)).
Proof.
  intros H Hn. unfold p_call. rewrite expect_eq. cbn [pbind].
  rewrite (p_arguments_complete allowed u a) by (done || by cbn; rewrite bool_decide_eq_false_2).
  cbn [pbind]. by rewrite expect_eq.
Qed.

Lemma g_data_first u a : g_data u a → ∃ w, u = T START_BRACKET :: w.
Proof. intros []; eauto. Qed.

Lemma p_call_data_complete k allowed u a v d r :
  g_args allowed u a → g_data v d → START_BRACKET ∉ allowed →
  p_call_data k allowed (T START_PARAN :: u ++ v ++ T END_PARAN :: r) = Some (Some (new_oejcl_ast k a d, r)).
Proof.
  intros H Hv Hn. unfold p_call_data. rewrite expect_eq. cbn [pbind].
  rewrite (p_arguments_complete allowed u a); [|done|].
  2: { destruct (g_data_first v d Hv) as (w & ->). cbn. by rewrite bool_decide_eq_false_2. }
  cbn [pbind]. rewrite (p_data_complete v d) by done. cbn [pbind]. by rewrite expect_eq.
Qed.

(** A command or a transaction block, after its keyword *)
Definition reads_command (u : list token) (a : ast) : Prop :=
  ∃ k w, u = T k :: w ∧ k ∉ [RESPONSE; ERROR; START_BRACKET; END_BRACE] ∧
    ∀ fuel r, (3 * length w < fuel)%nat → next_is START_BRACE r = false → p_command fuel k (w ++ r) = Some (Some (a, r)).

Lemma p_command_complete u a : g_command u a → reads_command u a.
Proof.
  assert (∀ k w a, k ∉ [RESPONSE; ERROR; START_BRACKET; END_BRACE; TXN] → (∀ r, p_simple k (w ++ r) = Some (Some (a, r))) →
    reads_command (T k :: w) a) as Hsimple.
  { intros k w a' Hk Hp. exists k, w. split; [done|]. split; [set_solver|]. intros [|fuel] r Hf _; [lia|].
    cbn [p_command]. rewrite decide_False by set_solver. apply Hp. }
  assert (END_PARAN ∉ connectargs ∧ END_PARAN ∉ txnargs ∧ START_BRACKET ∉ readargs ∧ START_BRACKET ∉ writeargs) as (? & ? & ? & ?).
  { by repeat split; apply (bool_decide_unpack _). }
  assert (∀ ts b k ts' c r, g_args cmdargs ts b → g_arg k ts' c → k ∉ cmdargs →
    p_arguments cmdargs (ts ++ ts' ++ r) = Some (Some (b, ts' ++ r))) as Hargs.
  { intros ts b k ts' c r Hts Hc Hk. apply p_arguments_complete; [done|].
    destruct (g_arg_first _ _ _ Hc) as (w & ->). cbn. by rewrite bool_decide_eq_false_2. }
  intros [ts b H3| |ts b ts' d H3 H4|ts b ts' d H3 H4|ts b ts' d H3 H4|ts b H3|ts b ts' c ts'' d H3 H4 H5
    |ts b ts' c H3 H4|ts b ts' c H3 H4].
  - apply Hsimple; [set_solver|]. intros r. cbn [app]. rewrite <-app_assoc. by apply p_call_complete.
  - apply Hsimple; [set_solver|]. done.
  - apply Hsimple; [set_solver|]. intros r. cbn [app]. rewrite <-!app_assoc. by apply p_call_data_complete.
  - apply Hsimple; [set_solver|]. intros r. cbn [app]. rewrite <-!app_assoc. by apply p_call_data_complete.
  - apply Hsimple; [set_solver|]. intros r. cbn [app]. rewrite <-!app_assoc. by apply p_call_data_complete.
  - eexists TXN, _. split; [done|]. split; [set_solver|]. intros [|fuel] r Hf Hr; [lia|]. cbn [p_command].
    rewrite decide_True by done. cbn [app]. rewrite <-app_assoc. cbn [app]. rewrite (p_call_complete TXN txnargs ts b) by done.
    cbn [pbind]. by rewrite Hr.
  - apply Hsimple; [set_solver|]. intros r. change (p_simple COMMIT) with p_commit. unfold p_commit.
    cbn [app]. rewrite expect_eq, <-!app_assoc. cbn [pbind]. rewrite (Hargs _ b TXN_ID _ c) by (done || set_solver).
    cbn [pbind]. rewrite (p_arg_complete TXN_ID _ c) by done. cbn [pbind].
    rewrite (p_arg_complete NENLISTED _ d) by done. cbn [pbind app]. by rewrite expect_eq.
  - apply Hsimple; [set_solver|]. intros r. change (p_simple CANCEL) with p_cancel. unfold p_cancel.
    cbn [app]. rewrite expect_eq, <-!app_assoc. cbn [pbind]. rewrite (Hargs _ b TXN_ID _ c) by (done || set_solver).
    cbn [pbind]. assert (next_is LEASE_ID (ts' ++ [T END_PARAN] ++ r) = false) as ->.
    { destruct (g_arg_first _ _ _ H4) as (w & ->). cbn. by apply bool_decide_eq_false_2. }
    rewrite (p_arg_complete TXN_ID _ c) by done. cbn [pbind app]. by rewrite expect_eq.
  - apply Hsimple; [set_solver|]. intros r. change (p_simple CANCEL) with p_cancel. unfold p_cancel.
    cbn [app]. rewrite expect_eq, <-!app_assoc. cbn [pbind]. rewrite (Hargs _ b LEASE_ID _ c) by (done || set_solver).
    cbn [pbind]. assert (next_is LEASE_ID (ts' ++ [T END_PARAN] ++ r) = true) as ->.
    { destruct (g_arg_first _ _ _ H4) as (w & ->). cbn. by apply bool_decide_eq_true_2. }
    rewrite (p_arg_complete LEASE_ID _ c) by done. cbn [pbind app]. by rewrite expect_eq.
Qed.

Lemma p_response_complete u a r : g_response u a → ∃ w, u = T RESPONSE :: w ∧ p_response (w ++ r) = Some (Some (a, r)).
Proof.
  assert (END_PARAN ∉ responseargs ∧ START_BRACKET ∉ responseargs) as [? ?].
  { by repeat split; apply (bool_decide_unpack _). }
  intros [ts b H1|ts b ts' d H1 H2]; eexists; (split; [done|]); unfold p_response; cbn [app];
    rewrite expect_eq, <-?app_assoc; cbn [pbind].
  - rewrite (p_arguments_complete responseargs ts b) by (done || by cbn; rewrite bool_decide_eq_false_2).
    cbn [pbind app next_is]. rewrite bool_decide_eq_false_2 by done. by rewrite expect_eq.
  - destruct (g_data_first ts' d H2) as (w & E).
    rewrite (p_arguments_complete responseargs ts b); [|done|rewrite E; cbn; by rewrite bool_decide_eq_false_2].
    cbn [pbind]. assert (next_is START_BRACKET (ts' ++ [T END_PARAN] ++ r) = true) as ->.
    { rewrite E. cbn. by apply bool_decide_eq_true_2. }
    rewrite (p_data_complete ts' d) by done. cbn [pbind app]. by rewrite expect_eq.
Qed.

(** Statements, with enough fuel for their length *)
Definition begins (u : list token) : Prop := ∃ t w, u = t :: w ∧ t ≠ T END_BRACE.
Definition reads_stmt (u : list token) (a : ast) : Prop :=
  ∃ v b, u = v ++ [T END_STMT] ∧ a = new_oejcl_ast STMT b NULL ∧ begins v ∧
    ∀ fuel r, (3 * length v < fuel)%nat → p_stmt fuel (v ++ T END_STMT :: r) = Some (Some (b, T END_STMT :: r)).
Definition reads_stmts (u : list token) (a : ast) : Prop :=
  begins u ∧ ∀ fuel r, (3 * length u ≤ fuel)%nat → r = [] ∨ next_is END_BRACE r = true →
    p_stmts fuel (u ++ r) = Some (Some (a, r)).
Definition reads_assign (v : list token) (b : ast) : Prop :=
  ∀ fuel r, (3 * length v < fuel)%nat → p_stmt fuel (v ++ T END_STMT :: r) = Some (Some (b, T END_STMT :: r)).

Lemma command_begins v b : reads_command v b → begins v.
Proof. intros (k & w & -> & Hk & _). exists (T k), w. split; [done|]. intros [= ->]. set_solver. Qed.
Lemma command_stmt v b : reads_command v b → reads_assign v b.
Proof.
  intros (k & w & -> & Hk & H) [|fuel] r Hf; [lia|]. cbn [app p_stmt length] in *.
  rewrite !decide_False by set_solver. apply H; [lia|done].
Qed.
Lemma command_assign n v b :
  reads_command v b → reads_assign (T_NAME n :: T ASSIGN :: v) (new_oejcl_ast ASSIGN (new_oejcl_str_ast NAME n) b).
Proof.
  intros (k & w & -> & Hk & H) [|fuel] r Hf; [lia|]. cbn [app p_stmt length] in *.
  rewrite expect_eq. cbn [pbind]. rewrite decide_False by set_solver. rewrite H by (done || lia). done.
Qed.
Lemma assign_reads n v b :
  (∀ r, starts_string (v ++ r) = true ∨ next_is START_BRACKET (v ++ r) = true) →
  (∀ r, (if starts_string (v ++ T END_STMT :: r) then p_string else p_data) (v ++ T END_STMT :: r) =
        Some (Some (b, T END_STMT :: r))) →
  reads_assign (T_NAME n :: T ASSIGN :: v) (new_oejcl_ast ASSIGN (new_oejcl_str_ast NAME n) b).
Proof.
  intros Hs Hp [|fuel] r Hf; [lia|]. cbn [app p_stmt]. rewrite expect_eq. cbn [pbind].
  specialize (Hp r). specialize (Hs (T END_STMT :: r)).
  destruct (v ++ T END_STMT :: r) as [|[k| | |] q]; cbn in Hs; cbn [starts_string] in Hp.
  - naive_solver.
  - destruct Hs as [|Hs]; [done|]. apply bool_decide_eq_true in Hs as ->. rewrite decide_True by done. by rewrite Hp.
  - naive_solver.
  - by rewrite Hp.
  - by rewrite Hp.
Qed.

Lemma grammar_read :
  (∀ u a, g_stmts u a → reads_stmts u a) ∧ (∀ u a, g_stmt u a → reads_stmt u a) ∧
  (∀ u a, g_txn u a → reads_command u a) ∧ (∀ u a, g_assign u a → reads_assign u a).
Proof.
  apply g_mutind.
  - intros ts a _ (v & b & -> & -> & (t & w & Ev & Ht) & H). split.
    { rewrite Ev. by exists t, (w ++ [T END_STMT]). }
    intros fuel r Hf Hr. rewrite length_app in Hf. cbn in Hf.
    destruct fuel as [|fuel]; [lia|]. cbn [p_stmts]. rewrite <-app_assoc. cbn [app]. rewrite H by lia.
    cbn [pbind]. rewrite expect_eq. cbn [pbind].
    destruct Hr as [->|Hr]; [done|]. by rewrite Hr, orb_true_r.
  - intros ts a ts' b _ (v & c & -> & -> & (t & w & Ev & Ht) & H) Hb [(t' & w' & Eb & Ht') IH]. split.
    { rewrite Ev. cbn. rewrite <-app_assoc. by eexists t, _. }
    intros fuel r Hf Hr. rewrite !length_app in Hf. cbn in Hf.
    destruct fuel as [|fuel]; [lia|]. cbn [p_stmts]. rewrite <-!app_assoc. cbn [app]. rewrite H by lia.
    cbn [pbind]. rewrite expect_eq. cbn [pbind].
    assert (bool_decide (ts' ++ r = []) || next_is END_BRACE (ts' ++ r) = false) as ->.
    { rewrite Eb. cbn. destruct t' as [k| | |]; [|done..]. apply bool_decide_eq_false_2. naive_solver. }
    by rewrite IH by (done || lia).
  - intros ts a H%p_command_complete. exists ts, a. split; [done|]. split; [done|].
    split; [by eapply command_begins|by apply command_stmt].
  - intros ts a H. exists ts, a. split; [done|]. split; [done|].
    destruct (p_response_complete ts a [] H) as (w0 & E0 & _). split; [by exists (T RESPONSE), w0|].
    intros [|fuel] r Hf; [lia|].
    destruct (p_response_complete ts a (T END_STMT :: r) H) as (w & -> & E). cbn [app p_stmt].
    rewrite decide_True by done. done.
  - intros ts a H. exists ts, a. split; [done|]. split; [done|].
    destruct H as [ts a H]. split; [by eexists (T ERROR), _|]. intros [|fuel] r Hf; [lia|].
    cbn [app p_stmt]. rewrite decide_False, decide_True by done. rewrite <-app_assoc. cbn [app].
    apply p_call_complete; [done|]. by apply (bool_decide_unpack _).
  - intros ts a _ H. exists ts, a. split; [done|]. split; [done|].
    split; [by eapply command_begins|by apply command_stmt].
  - intros ts a Hg H. exists ts, a. split; [done|]. split; [done|]. split; [|done].
    destruct Hg; by eexists (T_NAME _), _.
  - intros ts a ts' b Hts Hb [_ IH]. eexists TXN, _. split; [done|]. split; [set_solver|].
    intros [|fuel] r Hf Hr; [lia|]. cbn [p_command]. rewrite decide_True by done.
    cbn [length] in Hf. rewrite length_app in Hf. cbn [length] in Hf. rewrite length_app in Hf.
    cbn [app]. rewrite <-app_assoc. cbn [app]. rewrite (p_call_complete TXN txnargs ts a) by (done || by apply (bool_decide_unpack _)).
    cbn [pbind next_is tail]. rewrite bool_decide_eq_true_2 by done. rewrite <-app_assoc. cbn [app].
    rewrite IH; [|lia|right; cbn; by apply bool_decide_eq_true_2]. cbn [pbind]. by rewrite expect_eq.
  - intros n ts a H. apply assign_reads.
    + intros r. left. by apply (g_string_starts ts a r).
    + intros r. destruct (g_string_starts ts a (T END_STMT :: r) H) as [-> _]. by apply p_string_complete.
  - intros n x [|fuel] r Hf; [lia|]. cbn [app p_stmt]. rewrite expect_eq. done.
  - intros n ts a H. destruct (g_data_first ts a H) as (w & E). apply assign_reads.
    + intros r. right. rewrite E. cbn. by apply bool_decide_eq_true_2.
    + intros r. assert (starts_string (ts ++ T END_STMT :: r) = false) as -> by (by rewrite E).
      by apply p_data_complete.
  - intros n ts a H. by apply command_assign, p_command_complete.
  - intros n ts a _ H. by apply command_assign.
Qed.

(** The parser accepts exactly the token sequences that the grammar derives
    from [stmts], and returns the tree the grammar's actions build. *)
Lemma parser_is_grammar (ts : list token) (a : ast) :
  p_stmts (3 * S (length ts)) ts = Some (Some (a, [])) ↔ g_stmts ts a.
Proof.
  split.
  - intros (u & -> & H)%p_stmts_sound. by rewrite app_nil_r.
  - intros H. pose proof (proj2 (proj1 grammar_read ts a H) (3 * S (length ts))%nat []) as E.
    rewrite app_nil_r in E. apply E; [lia|by left].
Qed.

(** The grammar is unambiguous. *)
Lemma grammar_unambiguous (ts : list token) (a b : ast) : g_stmts ts a → g_stmts ts b → a = b.
Proof. rewrite <-!parser_is_grammar. congruence. Qed.

Definition descent_parse (ts : list token) : parse ast :=
  '(a, r) <~ p_stmts (3 * S (length ts)) ts;
  if bool_decide (r = []) then Some (Some a) else Some None.

Lemma descent_parse_spec ts a : descent_parse ts = Some (Some a) ↔ g_stmts ts a.
Proof.
  rewrite <-parser_is_grammar. unfold descent_parse.
  destruct (p_stmts _ ts) as [[[b [|x r]]|]|]; cbn; [|try (rewrite bool_decide_eq_false_2 by done)..]; naive_solver.
Qed.

Definition descent_parser : BisonParser := {| yyparse := descent_parse; yyparse_spec := descent_parse_spec |}.
