(* ===== verification/Jcl.v ===== *)
(** * Jcl: messages as job control language

    Models [src/corelib/OeJclEncoder.c] and [src/corelib/OeJclDecoder.c] over
    the trees of JclText.  The encoder prints a message with [sprintf] into a
    block of a computed size and joins pieces with [oec_str_concat]; the
    decoder walks the tree of a batch of statements, one message at a time,
    with a table of variables that assignments and the results of reads fill.

    [None] is a failed assertion, a store outside a block, or a node of one
    type read as another; [Some None] is a null pointer.  Numbers are printed
    by formats of [long] size; an [int] passed for [%ld] has no defined value
    when it is negative.  A negative [double] converted to an unsigned 64-bit
    id wraps, as it does on x86-64. *)

From S2P Require Import Prelude Values HashTable Collections Messages CJson JclText.
Import Str SKeyTable ArenaTable Iter DataObject DataObjectList.

(** ** sprintf *)

Inductive arg :=
  | A_lld (v : Z)   (* 64 bits, printed as signed *)
  | A_int (v : Z)   (* an [int] passed where the format says [%ld] *)
  | A_s (s : string).

Definition lld (v : Z) : string := string_of_bytes (decimal (i64 v)).

Fixpoint sprintf (t : string) (args : list arg) : option string :=
  match t with
  | EmptyString => Some EmptyString
  | String "%" (String "s" t) =>
    match args with A_s s :: args => r ← sprintf t args; Some (s +:+ r) | _ => None end
  | String "%" (String "l" (String "l" (String "d" t))) =>
    match args with A_lld v :: args => r ← sprintf t args; Some (lld v +:+ r) | _ => None end
  | String "%" (String "l" (String "d" t)) =>
    match args with
    | A_lld v :: args => r ← sprintf t args; Some (lld v +:+ r)
    | A_int v :: args => if v <? 0 then None else r ← sprintf t args; Some (lld v +:+ r)
    | _ => None
    end
  | String c t => r ← sprintf t args; Some (String c r)
  end.

Definition strlen (s : string) : Z := Z.of_nat (String.length s).
(** [sprintf] into a block of [size] bytes *)
Definition print_to (size : Z) (t : string) (args : list arg) : option string :=
  s ← sprintf t args; if strlen s + 1 <=? size then Some s else None.

Definition quote : string := String (ascii_of_nat 34) EmptyString.

(** ** OeJclEncoder.c *)

Definition CON_MSG_TEMPLATE : string :=
  "connect(cid=%lld extentname=" +:+ quote +:+ "%s" +:+ quote +:+ " username=" +:+ quote +:+ "%s" +:+ quote +:+
  " password=" +:+ quote +:+ "%s" +:+ quote +:+ ");".
Definition _con_cmd_serialize (msg : OekMsg) : parse string :=
  let cid := OekMsg_get_cid msg in
  cmd ← OekMsg_get_con_cmd msg;
  match con_extentname cmd, con_username cmd, con_password cmd with
  | Some extentname, Some username, Some password =>
    let size := strlen CON_MSG_TEMPLATE + 20 + strlen extentname + strlen username + strlen password in
    s ← print_to size CON_MSG_TEMPLATE [A_lld cid; A_s extentname; A_s username; A_s password];
    Some (Some s)
  | _, _, _ => Some None
  end.

Definition DIS_MSG_TEMPLATE : string := "dis();".
Definition _dis_cmd_serialize (msg : OekMsg) : parse string := Some (Some DIS_MSG_TEMPLATE).

(** The attributes, as the iterator yields them *)
Definition iterated (d : DataObject) : option (list string) :=
  drain (length (strings d)) (DataObject_iterator d true).1.

(** [str] is the text so far, NULL at first. *)
Fixpoint tuple_loop (str : option string) (l : list string) : parse string :=
  match l with
  | [] => Some str
  | s :: l =>
    str ← match str with
          | None => oec_str_concat [quote; s; quote]
          | Some str => str ← oec_str_concat [str; " "]; oec_str_concat [str; quote; s; quote]
          end;
    tuple_loop (Some str) l
  end.
Definition _serialize_tuple (data : DataObject) : parse string :=
  l ← iterated data; tuple_loop None l.

Fixpoint map_loop (str : option string) (l : list string) : parse string :=
  match l with
  | [] => Some str
  | [_] => Some None
  | k :: v :: l =>
    str ← match str with
          | None => oec_str_concat [quote; k; quote]
          | Some str => str ← oec_str_concat [str; " "]; oec_str_concat [str; quote; k; quote]
          end;
    str ← oec_str_concat [str; ": "];
    str ← oec_str_concat [str; quote; v; quote];
    map_loop (Some str) l
  end.
Definition _serialize_map (data : DataObject) : parse string :=
  l ← iterated data; map_loop None l.

Definition serialize_data (tuple : bool) (data : DataObject) : parse string :=
  if tuple then _serialize_tuple data else _serialize_map data.

(** [oec_str_concat(arena, 2, text, data)] with a string that may be NULL,
    and then with the end of the message *)
Definition join_text (text : string) (data : option string) (suffix : string) : parse string :=
  data ← data;
  text ← oec_str_concat [text; data];
  text ← oec_str_concat [text; suffix];
  Some (Some text).

Definition PUT_MSG_TEMPLATE_PRE : string := "write(cid=%lld tid=%lld dur=%ld [".
Definition PUT_MSG_TEMPLATE_SUF : string := "]);".
Definition _put_cmd_serialize (msg : OekMsg) : parse string :=
  let cid := OekMsg_get_cid msg in
  let tid := OekMsg_get_tid msg in
  cmd ← OekMsg_get_put_cmd msg;
  let dur := i32 (put_duration cmd) in
  text ← print_to (strlen PUT_MSG_TEMPLATE_PRE + 60) PUT_MSG_TEMPLATE_PRE [A_lld cid; A_lld tid; A_int dur];
  data ← serialize_data (put_is_tuple cmd) (PutCmd_get_data cmd);
  join_text text data PUT_MSG_TEMPLATE_SUF.

Definition GET_CMD_TEMPLATE_PRE : string := "%s(timeout=%lld cid=%lld tid=%lld [".
Definition GET_CMD_TEMPLATE_SUF : string := "]);".
(** Only the first template is sent. *)
Definition _get_cmd_serialize (msg : OekMsg) : parse string :=
  let cid := OekMsg_get_cid msg in
  let tid := OekMsg_get_tid msg in
  cmd ← OekMsg_get_get_cmd msg;
  let isdestroy := GetCmd_remove cmd in
  let timeout := get_timeout cmd in
  text ← print_to (strlen GET_CMD_TEMPLATE_PRE + 45) GET_CMD_TEMPLATE_PRE
           [A_s (if isdestroy then "take" else "read"); A_lld timeout; A_lld cid; A_lld tid];
  let dlist := GetCmd_get_data_objects cmd in
  '(dobj, _) ← Iterator_next (DataObjectList_iterator dlist);
  dobj ← dobj;
  data ← serialize_data (GetCmd_is_tuple cmd) dobj;
  join_text text data GET_CMD_TEMPLATE_SUF.

Definition STA_MSG_TEMPLATE : string := "txn(cid=%lld timeout=%ld);".
Definition _sta_cmd_serialize (msg : OekMsg) : parse string :=
  cmd ← OekMsg_get_sta_cmd msg;
  let dur := i32 (sta_duration cmd) in
  s ← print_to (strlen STA_MSG_TEMPLATE + 40) STA_MSG_TEMPLATE [A_lld (OekMsg_get_cid msg); A_int dur];
  Some (Some s).

Definition COMMIT_MSG_TEMPLATE : string := "commit(cid=%lld tid=%lld enlisted=%ld);".
Definition _commit_cmd_serialize (msg : OekMsg) : parse string :=
  cmd ← OekMsg_get_upt_cmd msg;
  let nenlisted := u64 (upt_enlisted cmd) in
  s ← print_to (strlen COMMIT_MSG_TEMPLATE + 60) COMMIT_MSG_TEMPLATE
        [A_lld (OekMsg_get_cid msg); A_lld (OekMsg_get_tid msg); A_lld nenlisted];
  Some (Some s).

Definition UPL_CMD_TEMPLATE : string := "cancel(cid=%lld lid=%ld);".
Definition _upl_cmd_serialize (msg : OekMsg) : parse string :=
  cmd ← OekMsg_get_upl_cmd msg;
  let lid := i32 (upl_lease_id cmd) in
  s ← print_to (strlen UPL_CMD_TEMPLATE + 40) UPL_CMD_TEMPLATE [A_lld (OekMsg_get_cid msg); A_int lid];
  Some (Some s).

Definition RB_MSG_TEMPLATE : string := "cancel(cid=%lld tid=%lld);".
Definition _rollback_cmd_serialize (msg : OekMsg) : parse string :=
  _ ← OekMsg_get_upt_cmd msg;
  s ← print_to (strlen RB_MSG_TEMPLATE + 40) RB_MSG_TEMPLATE [A_lld (OekMsg_get_cid msg); A_lld (OekMsg_get_tid msg)];
  Some (Some s).

Definition CON_RES_TEMPLATE : string := "response(cmd=connect cid=%lld sid=%lld);".
Definition _con_res_serialize (msg : OekMsg) : parse string :=
  res ← OekMsg_get_con_res msg;
  s ← print_to (strlen CON_RES_TEMPLATE + 40) CON_RES_TEMPLATE [A_lld (OekMsg_get_cid msg); A_lld (session_id res)];
  Some (Some s).

Definition PUT_RES_TEMPLATE : string := "response(cmd=write cid=%lld lid=%lld);".
Definition _put_res_serialize (msg : OekMsg) : parse string :=
  res ← OekMsg_get_put_res msg;
  let lid := i32 (res_lease_id res) in
  s ← print_to (strlen PUT_RES_TEMPLATE + 20) PUT_RES_TEMPLATE [A_lld (OekMsg_get_cid msg); A_lld lid];
  Some (Some s).

Definition STA_RES_TEMPLATE : string := "response(cmd=txn cid=%lld tid=%lld);".
Definition _sta_res_serialize (msg : OekMsg) : parse string :=
  s ← print_to (strlen STA_RES_TEMPLATE + 20) STA_RES_TEMPLATE
        [A_lld (OekMsg_get_cid msg); A_lld (OekMsg_get_tid msg)];
  Some (Some s).

Definition OEK_ERR_TEMPLATE : string := "error(cid=%lld msg=" +:+ quote +:+ "%s" +:+ quote +:+ ");".
Definition _err_serialize (msg : OekMsg) : parse string :=
  err ← OekMsg_get_err msg;
  let emsg := default "" (emessage err) in
  s ← print_to (strlen OEK_ERR_TEMPLATE + 40 + strlen emsg) OEK_ERR_TEMPLATE [A_lld (OekMsg_get_cid msg); A_s emsg];
  Some (Some s).

Definition GET_RES_TEMPLATE_PRE : string := "response(cmd=%s cid=%lld nresults=%ld [".
Definition GET_RES_TEMPLATE_SUF : string := "]);".
Definition _get_res_serialize (msg : OekMsg) : parse string :=
  res ← OekMsg_get_get_res msg;
  text ← print_to (strlen GET_RES_TEMPLATE_PRE + 70) GET_RES_TEMPLATE_PRE
           [A_s (if GetRes_is_destroyed res then "take" else "read"); A_lld (OekMsg_get_cid msg);
            A_lld (nresults res)];
  data ← serialize_data (GetRes_is_tuple res) (GetRes_get_data res);
  join_text text (Some (default "" data)) GET_RES_TEMPLATE_SUF.

Definition COMMIT_RES_TEMPLATE : string := "response(cmd=commit cid=%lld);".
Definition _commit_res_serialize (msg : OekMsg) : parse string :=
  _ ← OekMsg_get_upt_res msg;
  s ← print_to (strlen COMMIT_RES_TEMPLATE + 20) COMMIT_RES_TEMPLATE [A_lld (OekMsg_get_cid msg)];
  Some (Some s).

Definition CANCEL_RES_TEMPLATE : string := "response(cmd=cancel cid=%lld);".
Definition _cancel_res_serialize (msg : OekMsg) : parse string :=
  _ ← OekMsg_get_upt_res msg;
  s ← print_to (strlen CANCEL_RES_TEMPLATE + 20) CANCEL_RES_TEMPLATE [A_lld (OekMsg_get_cid msg)];
  Some (Some s).

Definition UPL_RES_TEMPLATE : string := "response(cmd=cancel cid=%lld);".
Definition _upl_res_serialize (msg : OekMsg) : parse string :=
  _ ← OekMsg_get_upl_res msg;
  s ← print_to (strlen UPL_RES_TEMPLATE + 20) UPL_RES_TEMPLATE [A_lld (OekMsg_get_cid msg)];
  Some (Some s).

Definition OeJclEncoder_msg_serialize (msg : OekMsg) : parse string :=
  match OekMsg_get_type msg with
  | CON_CMD => _con_cmd_serialize msg
  | DIS_CMD => _dis_cmd_serialize msg
  | PUT_CMD => _put_cmd_serialize msg
  | GET_CMD => _get_cmd_serialize msg
  | STA_CMD => _sta_cmd_serialize msg
  | UPT_CMD =>
    uptcmd ← OekMsg_get_upt_cmd msg;
    if decide (upt_status uptcmd = Some OETXN_COMMITTED) then _commit_cmd_serialize msg
    else _rollback_cmd_serialize msg
  | CON_RES => _con_res_serialize msg
  | PUT_RES => _put_res_serialize msg
  | GET_RES => _get_res_serialize msg
  | UPT_RES =>
    uptres ← OekMsg_get_upt_res msg;
    if decide (UptRes_get_status uptres = OETXN_COMMITTED) then _commit_res_serialize msg
    else _cancel_res_serialize msg
  | STA_RES => _sta_res_serialize msg
  | OEK_ERR => _err_serialize msg
  | UPL_CMD => _upl_cmd_serialize msg
  | UPL_RES => _upl_res_serialize msg
  | OEK_NON => None
  end.

(** ** OeJclDecoder.c

    The arena is not modelled.  [result] is the result of the command that was
    handed out before. *)
Module OeJclDecoder.

Record T := mkT {
  resolve_from_results : bool;
  next_node : ast;
  prev_node : ast;
  symbols : ArenaTable_T (K := string) (V := ast);
  result : option OekMsg
}.
Definition with_symbols (d : T) (s : ArenaTable_T (K := string) (V := ast)) : T :=
  mkT (resolve_from_results d) (next_node d) (prev_node d) s (result d).
Definition with_result (d : T) (r : option OekMsg) : T :=
  mkT (resolve_from_results d) (next_node d) (prev_node d) (symbols d) r.
Definition with_resolve (d : T) (b : bool) : T :=
  mkT b (next_node d) (prev_node d) (symbols d) (result d).
Definition with_nodes (d : T) (next prev : ast) : T :=
  mkT (resolve_from_results d) next prev (symbols d) (result d).

(** [Table_put(_this_->symbols, ...)] *)
Definition define (d : T) (name : string) (a : ast) : T :=
  with_symbols d (ArenaTable_put (symbols d) name a).1.

(** Members of a node, and of what a pointer to a leaf denotes *)
Definition nodetype (a : ast) : option kind := match a with Node t _ _ => Some t | _ => None end.
Definition left (a : ast) : option ast := match a with Node _ l _ => Some l | _ => None end.
Definition right (a : ast) : option ast := match a with Node _ _ r => Some r | _ => None end.
Definition numval (a : ast) : option Z := match a with Num n => Some n | _ => None end.
Definition strval (a : ast) : option string := match a with Str s => Some s | _ => None end.

(** The conversion of a number to [oe_id] and [size_t] *)
Definition oe_id (n : Z) : Z := u64 n.

Definition OeJclDecoder_new `{BisonParser} (usable : nat → nat) (jcl : list Z) : parse T :=
  nodes <~ oejcl_parse usable jcl;
  table ← SKeyTable_new 100;
  Some (Some (mkT false nodes NULL table None)).

(** *** Attributes and variables *)

(** The object so far is [data]; the flag that results fill variables stays
    set once it is. *)
Fixpoint data_loop (d : T) (data : DataObject) (a : ast) : option (T * option DataObject) :=
  match a with
  | Node t l r =>
    str ← strval l;
    '(d, data) ← match t with
      | STRING => Some (d, Some (DataObject_add_attr data str))
      | NAME =>
        match ArenaTable_get (symbols d) str with
        | None =>
          let d := with_resolve d true in
          let d := define d str (new_oejcl_ast UNSET NULL NULL) in
          Some (d, Some (DataObject_add_attr data "_"))
        | Some vast =>
          t ← nodetype vast;
          if decide (t = UNSET) then Some (d, None)
          else l ← left vast; rstr ← strval l; Some (d, Some (DataObject_add_attr data rstr))
        end
      | _ => None
      end;
    match data with
    | None => Some (d, None)
    | Some data => match r with NULL => Some (d, Some data) | _ => data_loop d data r end
    end
  | _ => None
  end.
Definition _get_data_object (d : T) (a : ast) : option (T * option DataObject) :=
  a ← left a;
  match a with NULL => Some (d, None) | _ => data_loop d DataObject_new a end.

(** A NULL object ends the variadic list that is appended. *)
Definition _get_data_object_list (d : T) (a : ast) : option (T * DataObjectList) :=
  let datalist := DataObjectList_new in
  '(d, data) ← _get_data_object d a;
  Some (d, match data with Some data => DataObjectList_add datalist data | None => datalist end).

Definition put_set_data (c : PutCmd) (d : option DataObject) : PutCmd :=
  match d with Some d => PutCmd_set_data c d | None => mkPutCmd (put_duration c) (put_is_tuple c) None end.
Definition _set_put_data (d : T) (cmd : PutCmd) (a : ast) : option (T * PutCmd) :=
  t ← nodetype a;
  match t with
  | LIST => '(d, data) ← _get_data_object d a; Some (d, PutCmd_set_tuple (put_set_data cmd data))
  | MAP => '(d, data) ← _get_data_object d a; Some (d, put_set_data cmd data)
  | _ => None
  end.

Definition res_set_data (r : GetRes) (d : option DataObject) : GetRes :=
  match d with Some d => GetRes_set_data r d | None => mkGetRes (nresults r) (res_flags r) None end.
Definition _set_get_res_data (d : T) (res : GetRes) (a : ast) : option (T * GetRes) :=
  match a with
  | NULL => Some (d, res)
  | _ =>
    l ← left a;
    match l with
    | NULL => Some (d, res)
    | _ =>
      '(d, data) ← _get_data_object d a;
      let res := res_set_data res data in
      t ← nodetype a;
      match t with
      | LIST => Some (d, GetRes_set_tuple res)
      | MAP => Some (d, res)
      | _ => None
      end
    end
  end.

Definition _set_get_data (d : T) (cmd : GetCmd) (a : ast) : option (T * GetCmd) :=
  t ← nodetype a;
  match t with
  | LIST =>
    '(d, l) ← _get_data_object_list d a;
    cmd ← GetCmd_set_data_objects cmd l;
    Some (d, GetCmd_set_tuple cmd)
  | MAP => '(d, l) ← _get_data_object_list d a; cmd ← GetCmd_set_data_objects cmd l; Some (d, cmd)
  | _ => None
  end.

(** *** Statements

    [attrs] is the loop over the arguments of a statement; [step] is its
    [switch], with NULL for an argument the statement does not know. *)
Fixpoint attrs {M} (step : kind → ast → M → parse M) (a : ast) (m : M) : parse M :=
  match a with
  | NULL => Some (Some m)
  | Node k l r => m <~ step k l m; attrs step r m
  | _ => None
  end.

Definition _gen_msg_from_dis_stmt (a : ast) : parse OekMsg :=
  msg ← OekMsg_new DIS_CMD; _ ← OekMsg_get_dis_cmd msg; Some (Some msg).

Definition connect_attr (k : kind) (l : ast) '((msg, cmd) : OekMsg * ConCmd) : parse (OekMsg * ConCmd) :=
  match k with
  | CORRELATION_ID => n ← numval l; Some (Some (OekMsg_set_cid msg (oe_id n), cmd))
  | EXTENTNAME => s ← strval l; Some (Some (msg, ConCmd_set_extentname cmd s))
  | USERNAME => s ← strval l; Some (Some (msg, ConCmd_set_username cmd s))
  | PASSWORD => s ← strval l; Some (Some (msg, ConCmd_set_pwd cmd s))
  | _ => Some None
  end.
Definition _gen_msg_from_connect_stmt (a : ast) : parse OekMsg :=
  msg ← OekMsg_new CON_CMD; cmd ← OekMsg_get_con_cmd msg;
  a ← left a;
  '(msg, cmd) <~ attrs connect_attr a (msg, cmd);
  Some (Some (set_data msg (D_con_cmd cmd))).

Definition upl_attr (k : kind) (l : ast) '((msg, cmd) : OekMsg * UplCmd) : parse (OekMsg * UplCmd) :=
  match k with
  | CORRELATION_ID => n ← numval l; Some (Some (OekMsg_set_cid msg (oe_id n), cmd))
  | LEASE_ID => n ← numval l; Some (Some (msg, UplCmd_set_lid cmd (oe_id n)))
  | _ => Some None
  end.
Definition _gen_msg_from_upl_stmt (a : ast) : parse OekMsg :=
  msg ← OekMsg_new UPL_CMD; cmd ← OekMsg_get_upl_cmd msg;
  a ← left a;
  '(msg, cmd) <~ attrs upl_attr a (msg, cmd);
  Some (Some (set_data msg (D_upl_cmd cmd))).

Definition read_attr (k : kind) (l : ast) '((msg, cmd) : OekMsg * GetCmd) : parse (OekMsg * GetCmd) :=
  match k with
  | TXN_ID => n ← numval l; Some (Some (OekMsg_set_tid msg (oe_id n), cmd))
  | CORRELATION_ID => n ← numval l; Some (Some (OekMsg_set_cid msg (oe_id n), cmd))
  | TIMEOUT => n ← numval l; Some (Some (msg, GetCmd_set_timeout cmd n))
  | _ => Some None
  end.
(** What has state to change returns it even when the message is NULL. *)
Definition _gen_msg_from_read_stmt (d : T) (a : ast) : option (T * option OekMsg) :=
  msg ← OekMsg_new GET_CMD; cmd ← OekMsg_get_get_cmd msg;
  t ← nodetype a;
  let cmd := if decide (t = TAKE) then GetCmd_set_remove_option cmd else cmd in
  cmd ← GetCmd_set_max_responses cmd 1;
  let cmd := GetCmd_set_return_attrs cmd true in
  let cmd := GetCmd_set_return_bytes cmd true in
  r ← right a;
  '(d, cmd) ← _set_get_data d cmd r;
  l ← left a;
  m ← attrs read_attr l (msg, cmd);
  Some (d, '(msg, cmd) ← m; Some (set_data msg (D_get_cmd cmd))).

Definition write_attr (k : kind) (l : ast) '((msg, cmd) : OekMsg * PutCmd) : parse (OekMsg * PutCmd) :=
  match k with
  | TXN_ID => n ← numval l; Some (Some (OekMsg_set_tid msg (oe_id n), cmd))
  | CORRELATION_ID => n ← numval l; Some (Some (OekMsg_set_cid msg (oe_id n), cmd))
  | DURATION => n ← numval l; Some (Some (msg, PutCmd_set_dur cmd n))
  | _ => Some None
  end.
Definition _gen_msg_from_write_stmt (d : T) (a : ast) : option (T * option OekMsg) :=
  msg ← OekMsg_new PUT_CMD; cmd ← OekMsg_get_put_cmd msg;
  r ← right a;
  '(d, cmd) ← match r with NULL => Some (d, cmd) | _ => _set_put_data d cmd r end;
  l ← left a;
  m ← attrs write_attr l (msg, cmd);
  Some (d, '(msg, cmd) ← m; Some (set_data msg (D_put_cmd cmd))).

Definition txn_attr (k : kind) (l : ast) '((msg, cmd) : OekMsg * StaCmd) : parse (OekMsg * StaCmd) :=
  match k with
  | CORRELATION_ID => n ← numval l; Some (Some (OekMsg_set_cid msg (oe_id n), cmd))
  | TIMEOUT => n ← numval l; Some (Some (msg, StaCmd_set_dur cmd n))
  | _ => Some None
  end.
Definition _gen_msg_from_txn_stmt (a : ast) : parse OekMsg :=
  msg ← OekMsg_new STA_CMD; cmd ← OekMsg_get_sta_cmd msg;
  a ← left a;
  '(msg, cmd) <~ attrs txn_attr a (msg, cmd);
  Some (Some (set_data msg (D_sta_cmd cmd))).

Definition upt_attr (k : kind) (l : ast) '((msg, cmd) : OekMsg * UptCmd) : parse (OekMsg * UptCmd) :=
  match k with
  | CORRELATION_ID => n ← numval l; Some (Some (OekMsg_set_cid msg (oe_id n), cmd))
  | NENLISTED => n ← numval l; Some (Some (msg, UptCmd_set_enlisted cmd n))
  | TXN_ID => n ← numval l; Some (Some (OekMsg_set_tid msg (oe_id n), cmd))
  | _ => Some None
  end.
Definition _gen_msg_from_upt_stmt (a : ast) (status : ascii) : parse OekMsg :=
  msg ← OekMsg_new UPT_CMD; cmd ← OekMsg_get_upt_cmd msg;
  let cmd := UptCmd_set_status cmd status in
  a ← left a;
  '(msg, cmd) <~ attrs upt_attr a (msg, cmd);
  Some (Some (set_data msg (D_upt_cmd cmd))).

(** *** Responses *)

Definition write_response_attr (k : kind) (l : ast) '((msg, res) : OekMsg * PutRes) : parse (OekMsg * PutRes) :=
  match k with
  | CORRELATION_ID => n ← numval l; Some (Some (OekMsg_set_cid msg (oe_id n), res))
  | LEASE_ID => n ← numval l; Some (Some (msg, PutRes_set_lease_id res (oe_id n)))
  | CMD => Some (Some (msg, res))
  | _ => Some None
  end.
Definition _gen_msg_from_write_response_stmt (a : ast) : parse OekMsg :=
  msg ← OekMsg_new PUT_RES; res ← OekMsg_get_put_res msg;
  a ← left a;
  '(msg, res) <~ attrs write_response_attr a (msg, res);
  Some (Some (set_data msg (D_put_res res))).

Definition read_response_attr (k : kind) (l : ast) '((msg, res) : OekMsg * GetRes) : parse (OekMsg * GetRes) :=
  match k with
  | CORRELATION_ID => n ← numval l; Some (Some (OekMsg_set_cid msg (oe_id n), res))
  | NRESULTS => n ← numval l; Some (Some (msg, GetRes_set_nresults res (oe_id n)))
  | CMD => t ← nodetype l; Some (Some (msg, if decide (t = TAKE) then GetRes_set_destroyed res else res))
  | _ => Some None
  end.
Definition _gen_msg_from_read_response_stmt (d : T) (a : ast) : option (T * option OekMsg) :=
  msg ← OekMsg_new GET_RES; res ← OekMsg_get_get_res msg;
  r ← right a;
  '(d, res) ← _set_get_res_data d res r;
  l ← left a;
  m ← attrs read_response_attr l (msg, res);
  Some (d, '(msg, res) ← m; Some (set_data msg (D_get_res res))).

Definition txn_response_attr (k : kind) (l : ast) '((msg, res) : OekMsg * StaRes) : parse (OekMsg * StaRes) :=
  match k with
  | CORRELATION_ID => n ← numval l; Some (Some (OekMsg_set_cid msg (oe_id n), res))
  | TXN_ID => n ← numval l; Some (Some (OekMsg_set_tid msg (oe_id n), res))
  | CMD => Some (Some (msg, res))
  | _ => Some None
  end.
Definition _gen_msg_from_txn_response_stmt (a : ast) : parse OekMsg :=
  msg ← OekMsg_new STA_RES; res ← OekMsg_get_sta_res msg;
  a ← left a;
  '(msg, res) <~ attrs txn_response_attr a (msg, res);
  Some (Some (set_data msg (D_sta_res res))).

Definition commit_response_attr (k : kind) (l : ast) (msg : OekMsg) : parse OekMsg :=
  match k with
  | CORRELATION_ID => n ← numval l; Some (Some (OekMsg_set_cid msg (oe_id n)))
  | CMD => Some (Some msg)
  | _ => Some None
  end.
Definition _gen_msg_from_commit_response_stmt (a : ast) : parse OekMsg :=
  msg ← OekMsg_new UPT_RES; res ← OekMsg_get_upt_res msg;
  let msg := set_data msg (D_upt_res (UptRes_set_status res OETXN_COMMITTED)) in
  a ← left a;
  attrs commit_response_attr a msg.

Definition cancel_response_attr (k : kind) (l : ast) (msg : OekMsg) : parse OekMsg :=
  match k with
  | CORRELATION_ID => n ← numval l; Some (Some (OekMsg_set_cid msg (oe_id n)))
  | CMD => Some (Some msg)
  | _ => Some None
  end.
Definition _gen_msg_from_cancel_response_stmt (a : ast) : parse OekMsg :=
  msg ← OekMsg_new UPT_RES; res ← OekMsg_get_upt_res msg;
  let msg := set_data msg (D_upt_res (UptRes_set_status res OETXN_ROLLEDBACK)) in
  a ← left a;
  attrs cancel_response_attr a msg.

Definition connect_response_attr (k : kind) (l : ast) '((msg, res) : OekMsg * ConRes) : parse (OekMsg * ConRes) :=
  match k with
  | CORRELATION_ID => n ← numval l; Some (Some (OekMsg_set_cid msg (oe_id n), res))
  | SESSION_ID => n ← numval l; Some (Some (msg, ConRes_set_sid res (oe_id n)))
  | CMD => Some (Some (msg, res))
  | _ => Some None
  end.
Definition _gen_msg_from_connect_response_stmt (a : ast) : parse OekMsg :=
  msg ← OekMsg_new CON_RES; res ← OekMsg_get_con_res msg;
  a ← left a;
  '(msg, res) <~ attrs connect_response_attr a (msg, res);
  Some (Some (set_data msg (D_con_res res))).

Definition error_attr (k : kind) (l : ast) '((msg, err) : OekMsg * OekErr) : parse (OekMsg * OekErr) :=
  match k with
  | CORRELATION_ID => n ← numval l; Some (Some (OekMsg_set_cid msg (oe_id n), err))
  | MSG => s ← strval l; Some (Some (msg, OekErr_set_message err s))
  | CMD => Some (Some (msg, err))
  | _ => Some None
  end.
Definition _gen_msg_from_error_stmt (a : ast) : parse OekMsg :=
  msg ← OekMsg_new OEK_ERR; err ← OekMsg_get_err msg;
  a ← left a;
  '(msg, err) <~ attrs error_attr a (msg, err);
  Some (Some (set_data msg (D_err err))).

(** The type of the first [cmd] argument of the chain *)
Fixpoint _get_res_type (a : ast) : option kind :=
  match a with
  | Node t l r =>
    if decide (t = CMD) then nodetype l
    else match r with NULL => None | _ => _get_res_type r end
  | _ => None
  end.

(** A message made without touching the decoder *)
Definition keep (d : T) (m : parse OekMsg) : option (T * option OekMsg) := m ← m; Some (d, m).

Definition _gen_msg_from_response_stmt (d : T) (a : ast) : option (T * option OekMsg) :=
  l ← left a;
  type ← _get_res_type l;
  match type with
  | CONNECT => keep d (_gen_msg_from_connect_response_stmt a)
  | WRITE => keep d (_gen_msg_from_write_response_stmt a)
  | READ => _gen_msg_from_read_response_stmt d a
  | TAKE => _gen_msg_from_read_response_stmt d a
  | TXN => keep d (_gen_msg_from_txn_response_stmt a)
  | COMMIT => keep d (_gen_msg_from_commit_response_stmt a)
  | CANCEL => keep d (_gen_msg_from_cancel_response_stmt a)
  | _ => None
  end.

(** *** Variables from the result of a read *)

(** One round reads the next attribute, [None] of the list being NULL. *)
Fixpoint list_result_loop (d : T) (data : list string) (a : ast) : option T :=
  match data, a with
  | [], _ => Some d
  | result_str :: data, Node t l r =>
    d ← match t with
        | STRING => Some d
        | NAME =>
          str ← strval l;
          _ ← ArenaTable_get (symbols d) str;
          Some (define d str (new_oejcl_str_ast STRING result_str))
        | _ => None
        end;
    match r with NULL => Some d | _ => list_result_loop d data r end
  | _, _ => None
  end.
Definition _set_variables_from_get_list_result (d : T) (a : ast) : option T :=
  a ← left a;
  match a with
  | NULL => Some d
  | _ =>
    msg ← result d; res ← OekMsg_get_get_res msg;
    l ← iterated (GetRes_get_data res);
    list_result_loop d l a
  end.

(** The first value whose key begins with [key] *)
Fixpoint value_of (key : string) (l : list string) : option string :=
  match l with
  | dkey :: dvalue :: l => if String.prefix key dkey then Some dvalue else value_of key l
  | _ => None
  end.
Definition _get_value_from_map_dataobject (data : DataObject) (key : string) : parse string :=
  l ← iterated data; Some (value_of key l).

Fixpoint map_result_loop (d : T) (data : DataObject) (a : ast) : option T :=
  match a with
  | NULL => Some d
  | Node _ kl NULL => Some d
  | Node _ kl (Node t vl r) =>
    d ← match t with
        | STRING => Some d
        | NAME =>
          keystr ← strval kl;
          valstr ← strval vl;
          _ ← ArenaTable_get (symbols d) valstr;
          v ← _get_value_from_map_dataobject data keystr;
          match v with
          | None => Some d
          | Some v => Some (define d valstr (new_oejcl_str_ast STRING v))
          end
        | _ => None
        end;
    match r with NULL => Some d | _ => map_result_loop d data r end
  | _ => None
  end.
Definition _set_variables_from_get_map_result (d : T) (a : ast) : option T :=
  a ← left a;
  msg ← result d; res ← OekMsg_get_get_res msg;
  map_result_loop d (GetRes_get_data res) a.

Definition _set_variables_from_get_result (d : T) (a : ast) : option T :=
  msg ← result d;
  c_assert (bool_decide (OekMsg_get_type msg = GET_RES));;
  t ← nodetype a;
  match t with
  | LIST => _set_variables_from_get_list_result d a
  | MAP => _set_variables_from_get_map_result d a
  | _ => None
  end.
Definition _set_variables_from_result (d : T) (a : ast) : option T :=
  t ← nodetype a;
  match t with
  | READ | TAKE => r ← right a; _set_variables_from_get_result d r
  | _ => Some d
  end.

Definition _set_variables_from_assign (d : T) (a : ast) : option T :=
  match a with
  | Node ASSIGN (Node NAME n _) r => name ← strval n; Some (define d name r)
  | _ => None
  end.

(** *** Handing out messages *)

Definition _msg_create (d : T) (a : ast) : option (T * option OekMsg) :=
  t ← nodetype a;
  match t with
  | READ => _gen_msg_from_read_stmt d a
  | TAKE => _gen_msg_from_read_stmt d a
  | WRITE => _gen_msg_from_write_stmt d a
  | TXN => keep d (_gen_msg_from_txn_stmt a)
  | DIS => keep d (_gen_msg_from_dis_stmt a)
  | CONNECT => keep d (_gen_msg_from_connect_stmt a)
  | COMMIT => keep d (_gen_msg_from_upt_stmt a OETXN_COMMITTED)
  | CANCEL => keep d (_gen_msg_from_upt_stmt a OETXN_ROLLEDBACK)
  | CANCELLEASE => keep d (_gen_msg_from_upl_stmt a)
  | RESPONSE => _gen_msg_from_response_stmt d a
  | ERROR => keep d (_gen_msg_from_error_stmt a)
  | _ => None
  end.

(** The recursion is on [current], which is [next_node]. *)
Fixpoint next_cmd (current : ast) (d : T) (res : option OekMsg) : option (T * option OekMsg) :=
  let d := with_result d res in
  match current with
  | NULL => Some (d, None)
  | Node _ l r =>
    c_assert (match l with NULL => false | _ => true end);;
    d ← match res with
        | Some _ =>
          if resolve_from_results d then p ← left (prev_node d); _set_variables_from_result d p else Some d
        | None => Some d
        end;
    let d := with_nodes d r current in
    t ← nodetype l;
    if decide (t = ASSIGN) then d ← _set_variables_from_assign d l; next_cmd r d None
    else _msg_create d l
  | _ => None
  end.
Definition OeJclDecoder_next_cmd (d : T) (result_of_prev_cmd : option OekMsg) : option (T * option OekMsg) :=
  next_cmd (next_node d) d result_of_prev_cmd.

End OeJclDecoder.
