(* ===== verification/JclSpec.v ===== *)
(** * JclSpec: what the job control language carries

    The texts that the encoder of Jcl writes are described by [statement]: a
    keyword, its arguments and the attributes.  Every such text is divided
    into the expected tokens and has the expected tree by the grammar of
    JclText, whatever the numbers and strings are.  From this follows what the
    decoder makes of an encoded message, and then what it makes of a batch
    that names variables. *)

From S2P Require Import Prelude Values HashTable Collections Messages CJson JclText JclParser Jcl.
Import Str SKeyTable ArenaTable Iter DataObject DataObjectList OeJclDecoder.
#[local] Notation T := JclText.T.

(** ** Texts and their tokens *)

Section lexes.
Context `{BP : BisonParser} (usable : nat → nat).

(** A text that the lexer divides into tokens without complaint *)
Inductive lexes : list Z → list token → Prop :=
  | lexes_nil : lexes [] []
  | lexes_token l t r ts : lex1 usable l = Some (L_token t, r) → lexes r ts → lexes l (t :: ts)
  | lexes_skip l r ts : lex1 usable l = Some (L_skip, r) → lexes r ts → lexes l ts.

Lemma span_length P l : (length (span P l).2 ≤ length l)%nat.
Proof.
  induction l as [|c l IH]; cbn; [done|]. destruct (P c); [|done]. destruct (span P l). cbn in *. lia.
Qed.

Lemma quoted_length l : ∀ s r, quoted l = Some (s, r) → (length r < length l)%nat.
Proof.
  induction l as [l IH] using (induction_ltof1 _ (@length Z)); unfold ltof in IH. intros s r H.
  destruct l as [|c l]; [done|]. cbn in H. destruct (c =? 34); [simplify_eq; cbn; lia|]. destruct (c =? 92).
  - destruct l as [|d l]; [done|]. destruct (d =? 10); [done|].
    destruct (quoted l) as [[s' r']|] eqn:E; [|done]. cbn in H. simplify_eq.
    apply IH in E; cbn in *; lia.
  - destruct (quoted l) as [[s' r']|] eqn:E; [|done]. cbn in H. simplify_eq. apply IH in E; cbn in *; lia.
Qed.

Lemma lex1_shrinks l x r : lex1 usable l = Some (x, r) → (length r < length l)%nat.
Proof.
  destruct l as [|c q]; [done|]. cbn [lex1 length]. intros H.
  destruct (punct c); [simplify_eq; lia|].
  destruct (name_start c) eqn:Ens.
  { pose proof (span_length name_char q). cbn [span] in H. unfold name_char at 1 in H. rewrite Ens in H. cbn [orb] in H.
    destruct (span name_char q). simplify_eq. cbn in *. lia. }
  destruct (_ || _).
  { pose proof (span_length c_digit q). destruct (span c_digit q). simplify_eq. cbn in *. lia. }
  destruct (c =? 34).
  { destruct (quoted q) as [[s r']|] eqn:Eqq; [|simplify_eq; lia]. apply quoted_length in Eqq. cbv zeta in H.
    destruct (oec_unquote _ _ _) as [[d|]|]; cbn in H; [|done..]. destruct (c_string d); [|done]. cbn in H.
    simplify_eq. lia. }
  destruct (_ && _).
  { pose proof (span_length (λ c, negb (c =? 10)) q). simplify_eq. lia. }
  destruct (blank c); simplify_eq; lia.
Qed.

Lemma lexes_lex l ts : lexes l ts → ∀ fuel, (length l ≤ fuel)%nat → lex usable fuel l = Some (ts, false).
Proof.
  induction 1 as [|l t r ts H _ IH|l r ts H _ IH]; intros fuel Hf; [by destruct fuel|..].
  all: pose proof (lex1_shrinks _ _ _ H); destruct l as [|c l]; [done|]; destruct fuel as [|fuel]; [cbn in Hf; lia|].
  all: cbn [lex]; rewrite H; cbn [mbind option_bind]; rewrite IH by (cbn in *; lia); done.
Qed.

(** *** Words, numbers and strings *)

(** A text behind which a word or a number is complete *)
Definition ends (rest : list Z) : bool := match rest with c :: _ => negb (name_char c) | [] => true end.

Lemma span_app P w rest :
  forallb P w = true → match rest with c :: _ => P c = false | [] => True end → span P (w ++ rest) = (w, rest).
Proof.
  intros Hw Hr. induction w as [|c w IH]; cbn [app span].
  - destruct rest as [|c rest]; [done|]. cbn. by rewrite Hr.
  - cbn in Hw. apply andb_true_iff in Hw as [-> Hw]. by rewrite IH.
Qed.

Lemma lexes_word w rest ts :
  match w with c :: _ => name_start c && bool_decide (punct c = None) | [] => false end = true →
  forallb name_char w = true → ends rest = true → lexes rest ts →
  lexes (w ++ rest) (match keyword w with Some k => T k | None => T_NAME (string_of_bytes w) end :: ts).
Proof.
  intros Hs Hw Hr H. eapply lexes_token; [|exact H]. destruct w as [|c w]; [done|].
  apply andb_true_iff in Hs as [Hs Hp%bool_decide_eq_true]. cbn [app lex1]. rewrite Hp, Hs.
  change (c :: w ++ rest) with ((c :: w) ++ rest). rewrite span_app; [done|done|].
  destruct rest as [|d rest]; [done|]. by apply negb_true_iff.
Qed.

Lemma lexes_punct c k rest ts : punct c = Some k → lexes rest ts → lexes (c :: rest) (T k :: ts).
Proof. intros Hp H. eapply lexes_token; [|exact H]. cbn [lex1]. by rewrite Hp. Qed.

Lemma lexes_blank rest ts : lexes rest ts → lexes (32 :: rest) ts.
Proof. intros H. by eapply lexes_skip. Qed.

(** The numbers that survive [atoi] *)
Definition small (n : Z) : Prop := - 2 ^ 31 ≤ n < 2 ^ 31.

Lemma digits_value_fold l : ∀ a, Forall (λ c, 48 ≤ c ≤ 57) l → digits_value a l = dec_fold a l.
Proof.
  induction l as [|c l IH]; intros a H; [done|]. apply Forall_cons_1 in H as [Hc H]. cbn in Hc.
  cbn [digits_value]. replace (c_digit c) with true by (unfold c_digit; lia).
  change (dec_fold a (c :: l)) with (dec_fold (a * 10 + (c - 48)) l). by apply IH.
Qed.

(** What a number is printed as *)
Lemma decimal_shape n : ∃ c l, decimal n = (if n <? 0 then 45 :: c :: l else c :: l) ∧
  Forall (λ c, 48 ≤ c ≤ 57) (c :: l) ∧ digits_value 0 (c :: l) = Z.abs n.
Proof.
  pose proof (fuel_enough (Z.abs n) ltac:(lia)) as Hf.
  pose proof (dec_go_fold _ (Z.abs n) [] ltac:(split; [lia|exact Hf])) as Hd.
  destruct (dec_go_digits _ (Z.abs n) [] ltac:(split; [lia|exact Hf]) ltac:(done) ltac:(constructor))
    as (c & l & El & Hc & Hl & _). rewrite El in Hd.
  exists c, l. assert (Forall (λ c, 48 ≤ c ≤ 57) (c :: l)) as Hall by by constructor.
  split_and!; [unfold decimal; by rewrite El|done|]. by rewrite digits_value_fold.
Qed.

Lemma atoi_decimal n : small n → atoi (decimal n) = n.
Proof.
  intros Hn. unfold small in Hn. destruct (decimal_shape n) as (c & l & -> & Hall & Hv).
  apply Forall_cons_1 in Hall as [Hc Hl]. cbn in Hc. unfold atoi.
  destruct (Z.ltb_spec n 0).
  - assert (skip_spaces (45 :: c :: l) = 45 :: c :: l) as -> by done. rewrite Z.eqb_refl, Hv.
    rewrite (wraps_id 32) by (unfold in_s; lia). lia.
  - assert (skip_spaces (c :: l) = c :: l) as ->.
    { cbn [skip_spaces]. unfold c_space. destruct (Z.eqb_spec c 32); [lia|].
      destruct (Z.leb_spec 9 c), (Z.leb_spec c 13); try lia; done. }
    destruct (Z.eqb_spec c 45); [lia|]. destruct (Z.eqb_spec c 43); [lia|]. rewrite Hv.
    rewrite (wraps_id 32) by (unfold in_s; lia). lia.
Qed.

Lemma digits_all l : Forall (λ c, 48 ≤ c ≤ 57) l → forallb c_digit l = true.
Proof. induction 1 as [|c l Hc _ IH]; cbn; [done|]. rewrite IH. unfold c_digit. lia. Qed.

Lemma lexes_decimal n rest ts :
  small n → ends rest = true → lexes rest ts → lexes (decimal n ++ rest) (T_NUMBER n :: ts).
Proof.
  intros Hn Hr H. eapply lexes_token; [|exact H]. rewrite <-(atoi_decimal n Hn) at 2.
  assert (match rest with c :: _ => c_digit c = false | [] => True end) as Hr'.
  { destruct rest as [|d rest]; [done|]. cbn in Hr. unfold name_char in Hr. destruct (c_digit d); [|done].
    by rewrite orb_true_r in Hr. }
  destruct (decimal_shape n) as (c & l & -> & Hall & _). pose proof (digits_all _ Hall) as Hd.
  apply Forall_cons_1 in Hall as [Hc Hl]. cbn in Hc. destruct (n <? 0); cbn [app lex1].
  - change (punct 45) with (@None kind). change (name_start 45) with false. change (c_digit 45) with false.
    cbn in Hd. apply andb_true_iff in Hd as [Hcd Hd]. rewrite Hcd. cbn [orb andb Z.eqb Pos.eqb].
    change (c :: l ++ rest) with ((c :: l) ++ rest). rewrite span_app; [done| |done]. cbn. by rewrite Hcd.
  - assert (punct c = None ∧ name_start c = false) as [-> ->].
    { assert (c ∈ [48;49;50;51;52;53;54;55;56;57]) as Hin.
      { assert (c = 48 ∨ c = 49 ∨ c = 50 ∨ c = 51 ∨ c = 52 ∨ c = 53 ∨ c = 54 ∨ c = 55 ∨ c = 56 ∨ c = 57) by lia.
        set_solver. }
      rewrite !elem_of_cons, elem_of_nil in Hin. by destruct_or! Hin; subst. }
    cbn in Hd. apply andb_true_iff in Hd as [Hcd Hd]. rewrite Hcd. cbn [orb]. by rewrite span_app.
Qed.

(** A string that can stand between quotes as it is, and whose copy leaves a
    byte for the terminator in the block [malloc] hands out *)
Definition plain (s : string) : Prop := Forall (λ c, c ≠ 0 ∧ c ≠ 34 ∧ c ≠ 92) (bytes_of s).
Definition quotable (s : string) : Prop := plain s ∧ (String.length s < usable (String.length s))%nat.
Definition quoted_bytes (s : string) : list Z := 34 :: bytes_of s ++ [34].

Lemma quoted_plain l rest : Forall (λ c, c ≠ 0 ∧ c ≠ 34 ∧ c ≠ 92) l → quoted (l ++ 34 :: rest) = Some (l, rest).
Proof.
  induction 1 as [|c l Hc _ IH]; cbn [app quoted]; [done|].
  destruct (Z.eqb_spec c 34); [lia|]. destruct (Z.eqb_spec c 92); [lia|]. by rewrite IH.
Qed.

Lemma plain_no_nul s : plain s → no_nul s.
Proof. intros H Hin. unfold plain in H. rewrite list.Forall_forall in H. naive_solver. Qed.

Lemma substring_all s : String.substring 0 (String.length s) s = s.
Proof. induction s as [|c s IH]; cbn; [done|]. by rewrite IH. Qed.

Lemma string_of_bytes_app l k : string_of_bytes (l ++ k) = string_of_bytes l +:+ string_of_bytes k.
Proof. induction l as [|c l IH]; cbn; [done|]. by rewrite IH. Qed.

Lemma unquote_quotable s : quotable s →
  ∃ k, oec_unquote usable (string_of_bytes (quoted_bytes s)) (Z.of_nat (length (quoted_bytes s))) =
         Some (Some (bytes_of s ++ 0 :: k)).
Proof.
  intros [_ Hroom]. unfold quoted_bytes, oec_unquote. cbn [length string_of_bytes].
  rewrite length_app, bytes_of_length. cbn [length].
  destruct (Z.ltb_spec (Z.of_nat (S (String.length s + 1))) 2); [lia|].
  replace (Z.to_nat (Z.of_nat (S (String.length s + 1)) - 2)) with (String.length s) by lia.
  rewrite string_of_bytes_app, string_of_bytes_of. set (q := string_of_bytes [34]).
  cbn [String.length String.substring].
  replace (S (String.length (s +:+ q)) - 1)%nat with (String.length (s +:+ q)) by lia. rewrite substring_all.
  assert (strncpy (s +:+ q) (String.length s) = bytes_of s) as ->.
  { unfold strncpy. rewrite bytes_of_app, <-app_assoc, take_app_le by (by rewrite bytes_of_length).
    by rewrite take_ge by (by rewrite bytes_of_length). }
  unfold buf_write. rewrite length_app, bytes_of_length, length_replicate.
  destruct (Nat.ltb_spec (String.length s) (String.length s + (usable (String.length s) - String.length s)));
    [|lia].
  destruct (usable (String.length s) - String.length s)%nat as [|m] eqn:Em; [lia|]. exists (replicate m 0).
  cbn [fmap option_fmap option_map]. do 2 f_equal. rewrite insert_app_r_alt by (by rewrite bytes_of_length).
  by rewrite bytes_of_length, Nat.sub_diag.
Qed.

Lemma lexes_string s rest ts : quotable s → lexes rest ts → lexes (quoted_bytes s ++ rest) (T_STRING s :: ts).
Proof.
  intros Hs H. eapply lexes_token; [|exact H]. pose proof (plain_no_nul s (proj1 Hs)) as Hn.
  destruct (unquote_quotable s Hs) as (k & Hk). unfold quoted_bytes in *. cbn [app lex1].
  change (punct 34) with (@None kind). change (name_start 34) with false. change (c_digit 34) with false.
  cbn [orb andb Z.eqb Pos.eqb]. rewrite <-app_assoc. cbn [app]. rewrite quoted_plain by apply Hs.
  rewrite Hk. cbn [mbind option_bind]. by rewrite c_string_bytes.
Qed.

(** ** Statements

    An argument of a statement, its text, its tokens and its node *)
Inductive argument := A_num (k : kind) (n : Z) | A_str (k : kind) (s : string) | A_cmd (c : kind).

Definition spelling (k : kind) : string :=
  match list_find (λ p : string * kind, p.2 = k) keywords with Some (_, (w, _)) => w | None => "" end.
Definition arg_kind (x : argument) : kind :=
  match x with A_num k _ => k | A_str k _ => k | A_cmd _ => CMD end.
Definition arg_text (x : argument) : list Z :=
  bytes_of (spelling (arg_kind x)) ++ 61 ::
  match x with A_num _ n => decimal n | A_str _ s => quoted_bytes s | A_cmd c => bytes_of (spelling c) end.
Definition arg_tokens (x : argument) : list token :=
  [T (arg_kind x); T ASSIGN;
   match x with A_num _ n => T_NUMBER n | A_str _ s => T_STRING s | A_cmd c => T c end].
Definition arg_node (x : argument) (rest : ast) : ast :=
  Node (arg_kind x)
    (match x with A_num _ n => Num n | A_str _ s => Str s | A_cmd c => Node c NULL NULL end) rest.
Definition arg_ok (x : argument) : Prop :=
  match x with
  | A_num k n => num_arg k = true ∧ small n
  | A_str k s => str_arg k = true ∧ quotable s
  | A_cmd c => cmdname c = true
  end.

Fixpoint args_text (l : list argument) : list Z :=
  match l with
  | [] => []
  | [x] => arg_text x
  | x :: l => arg_text x ++ 32 :: args_text l
  end.
Definition args_tokens (l : list argument) : list token := concat (arg_tokens <$> l).
Definition args_tree (l : list argument) : ast := foldl (λ a x, arg_node x a) NULL l.

(** Which keywords name an argument or a command, and how they are lexed *)
Definition is_word (k : kind) : bool :=
  let w := bytes_of (spelling k) in
  match w with c :: _ => name_start c && bool_decide (punct c = None) | [] => false end &&
  forallb name_char w && bool_decide (keyword w = Some k).
Lemma word_of k : num_arg k || str_arg k || cmdname k || bool_decide (k ∈ [CMD; RESPONSE; ERROR]) = true → is_word k = true.
Proof. by destruct k; vm_compute. Qed.

Lemma lexes_keyword k rest ts :
  is_word k = true → ends rest = true → lexes rest ts → lexes (bytes_of (spelling k) ++ rest) (T k :: ts).
Proof.
  intros [[Hs Hw]%andb_true_iff Hk%bool_decide_eq_true]%andb_true_iff Hr H.
  pose proof (lexes_word (bytes_of (spelling k)) rest ts Hs Hw Hr H) as HL. by rewrite Hk in HL.
Qed.

Lemma arg_word x : arg_ok x → is_word (arg_kind x) = true.
Proof.
  intros H. destruct x as [k n|k s|c]; cbn in *; apply word_of.
  - by destruct H as [-> _].
  - destruct H as [-> _]. by rewrite orb_true_r.
  - done.
Qed.

Lemma lexes_arg x rest ts :
  arg_ok x → ends rest = true → lexes rest ts → lexes (arg_text x ++ rest) (arg_tokens x ++ ts).
Proof.
  intros Hx Hr H. unfold arg_text, arg_tokens. rewrite <-app_assoc. cbn [app].
  apply lexes_keyword; [by apply arg_word|done|]. apply lexes_punct; [done|].
  destruct x as [k n|k s|c]; cbn in Hx.
  - apply lexes_decimal; [apply Hx|done..].
  - apply lexes_string; [apply Hx|done].
  - apply lexes_keyword; [|done..]. apply word_of. rewrite Hx. by rewrite orb_true_r.
Qed.

Lemma lexes_args l rest ts :
  Forall arg_ok l → ends rest = true → lexes rest ts → lexes (args_text l ++ rest) (args_tokens l ++ ts).
Proof.
  intros Hl Hr H. induction Hl as [|x l Hx Hl IH]; [done|].
  unfold args_tokens in *. cbn [fmap list_fmap concat]. rewrite <-app_assoc.
  destruct l as [|y l]; [by apply lexes_arg|]. cbn [args_text]. rewrite <-app_assoc.
  apply lexes_arg; [done|done|]. by apply lexes_blank.
Qed.

Lemma g_arg_node x : arg_ok x → g_arg (arg_kind x) (arg_tokens x) (arg_node x NULL).
Proof. destruct x as [k n|k s|c]; cbn; [intros [Hk _]; by constructor..|]. intros Hc. by constructor. Qed.

Lemma g_args_tree allowed l :
  Forall (λ x, arg_ok x ∧ arg_kind x ∈ allowed) l → g_args allowed (args_tokens l) (args_tree l).
Proof.
  intros Hl. induction l as [|x l IH] using rev_ind; [constructor|].
  apply Forall_app in Hl as [Hl [[Hx Hin] _]%Forall_cons_1]. unfold args_tokens, args_tree in *.
  rewrite fmap_app, concat_app, foldl_app. cbn [fmap list_fmap concat foldl]. rewrite app_nil_r.
  change (arg_node x ?a) with (set_r (arg_node x NULL) a).
  eapply g_args_snoc; [by apply IH|done|by apply g_arg_node].
Qed.

(** Attributes in brackets: a tuple of strings or a map of pairs *)
Fixpoint tuple_text (l : list string) : list Z :=
  match l with
  | [] => []
  | [s] => quoted_bytes s
  | s :: l => quoted_bytes s ++ 32 :: tuple_text l
  end.
Fixpoint map_text (l : list string) : list Z :=
  match l with
  | k :: v :: l =>
    quoted_bytes k ++ 58 :: 32 :: quoted_bytes v ++ match l with [] => [] | _ => 32 :: map_text l end
  | _ => []
  end.
Fixpoint map_tokens (l : list string) : list token :=
  match l with
  | k :: v :: l => T_STRING k :: T PAIR_SEP :: T_STRING v :: map_tokens l
  | _ => []
  end.
Fixpoint strings_node (l : list string) : ast :=
  match l with [] => NULL | s :: l => Node STRING (Str s) (strings_node l) end.
Fixpoint even_length (l : list string) : bool :=
  match l with [] => true | [_] => false | _ :: _ :: l => even_length l end.

Definition attrs_ok (tuple : bool) (l : list string) : Prop :=
  Forall quotable l ∧ (tuple = false → even_length l = true).
Definition attrs_text (tuple : bool) (l : list string) : list Z :=
  91 :: (if tuple then tuple_text l else map_text l) ++ [93].
Definition attrs_tokens (tuple : bool) (l : list string) : list token :=
  T START_BRACKET :: (if tuple then T_STRING <$> l else map_tokens l) ++ [T END_BRACKET].
Definition attrs_node (tuple : bool) (l : list string) : ast :=
  match l with [] => Node K_NONE NULL NULL | _ => Node (if tuple then LIST else MAP) (strings_node l) NULL end.

(** Two strings at a time *)
Lemma lexes_attrs tuple l rest ts :
  attrs_ok tuple l → lexes rest ts → lexes (attrs_text tuple l ++ rest) (attrs_tokens tuple l ++ ts).
Proof.
  intros [Hq Heven] H. unfold attrs_text, attrs_tokens. cbn [app]. rewrite <-!app_assoc. cbn [app].
  apply lexes_punct; [done|].
  assert (lexes (93 :: rest) (T END_BRACKET :: ts)) as H' by by apply lexes_punct.
  revert H'. generalize (93 :: rest), (T END_BRACKET :: ts). clear H rest ts. intros rest ts H.
  destruct tuple; [clear Heven|specialize (Heven eq_refl); revert Hq Heven].
  - induction Hq as [|s l Hs Hl IH]; [done|]. destruct l as [|s' l]; [by apply lexes_string|].
    cbn [tuple_text fmap list_fmap app]. rewrite <-app_assoc. apply lexes_string; [done|]. cbn [app]. by apply lexes_blank.
  - induction l as [|k|k v l IH] using pairs_ind; [done|done|]. cbn [even_length]. intros Hq Heven.
    apply Forall_cons_1 in Hq as [Hk [Hv Hq]%Forall_cons_1]. cbn [map_text map_tokens app].
    rewrite <-app_assoc. apply lexes_string; [done|]. cbn [app]. apply lexes_punct; [done|].
    apply lexes_blank. rewrite <-app_assoc. apply lexes_string; [done|].
    destruct l; [by apply IH|]. cbn [app]. apply lexes_blank. by apply IH.
Qed.

Lemma g_list_strings s l : g_list (T_STRING <$> s :: l) (strings_node (s :: l)).
Proof.
  revert s. induction l as [|s' l IH]; intros s.
  - apply g_list_one. apply g_string_STRING.
  - exact (g_list_more [T_STRING s] (Node STRING (Str s) NULL) _ _ (g_string_STRING s) (IH s')).
Qed.

Lemma g_map_strings l : l ≠ [] → even_length l = true → g_map (map_tokens l) (strings_node l).
Proof.
  induction l as [|k|k v l IH] using pairs_ind; [done|done|]. intros _ Heven. cbn in Heven.
  destruct l as [|k' l].
  - exact (g_map_one _ _ _ _ (g_string_STRING k) (g_string_STRING v)).
  - exact (g_map_more _ _ _ _ _ _ (g_string_STRING k) (g_string_STRING v) (IH ltac:(done) Heven)).
Qed.

Lemma g_data_attrs tuple l : attrs_ok tuple l → g_data (attrs_tokens tuple l) (attrs_node tuple l).
Proof.
  intros [_ Heven]. destruct l as [|s l]; [destruct tuple; constructor|]. unfold attrs_tokens.
  constructor. destruct tuple; constructor; [apply g_list_strings|]. apply g_map_strings; [done|by apply Heven].
Qed.

(** A statement [keyword(arguments \[attributes\]);] *)
Record statement := Statement { st_kind : kind; st_args : list argument; st_data : option (bool * list string) }.

Definition st_text (s : statement) : list Z :=
  bytes_of (spelling (st_kind s)) ++ 40 :: args_text (st_args s) ++
  match st_data s with Some (tuple, l) => 32 :: attrs_text tuple l ++ [41; 59] | None => [41; 59] end.
Definition st_tokens (s : statement) : list token :=
  T (st_kind s) :: T START_PARAN :: args_tokens (st_args s) ++
  match st_data s with Some (tuple, l) => attrs_tokens tuple l | None => [] end ++ [T END_PARAN; T END_STMT].
Definition st_node (s : statement) : ast :=
  Node (st_kind s) (args_tree (st_args s))
    (match st_data s with Some (tuple, l) => attrs_node tuple l | None => NULL end).
Definition st_ok (s : statement) : Prop :=
  is_word (st_kind s) = true ∧ Forall arg_ok (st_args s) ∧
  match st_data s with Some (tuple, l) => attrs_ok tuple l | None => True end.

Lemma lexes_statement s rest : st_ok s → lexes rest [] → lexes (st_text s ++ rest) (st_tokens s).
Proof.
  destruct s as [k args dat]. intros (Hk & Hargs & Hd) Hrest. cbn in *. unfold st_text, st_tokens. cbn [st_kind st_args st_data].
  assert (lexes ([41; 59] ++ rest) [T END_PARAN; T END_STMT]) as Hend.
  { cbn [app]. do 2 (apply lexes_punct; [done|]). exact Hrest. }
  rewrite <-app_assoc. cbn [app]. rewrite <-app_assoc.
  apply lexes_keyword; [done|done|]. apply lexes_punct; [done|].
  destruct dat as [[tuple l]|]; (apply lexes_args; [done|done|]).
  - cbn [app]. rewrite <-app_assoc. apply lexes_blank. by apply lexes_attrs.
  - done.
Qed.

(** Lexed and parsed, with white space behind it *)
Lemma parse_statement s a rest :
  st_ok s → g_stmts (st_tokens s) a → lexes rest [] → oejcl_parse usable (st_text s ++ rest) = Some (Some a).
Proof.
  intros Hs Ha Hrest. unfold oejcl_parse.
  rewrite (lexes_lex _ _ (lexes_statement s rest Hs Hrest)) by done. cbn [mbind option_bind].
  apply yyparse_spec in Ha. by rewrite Ha.
Qed.
Lemma lexes_newlines : lexes [10; 10] [].
Proof. do 2 (eapply lexes_skip; [reflexivity|]). constructor. Qed.

End lexes.

(** ** The text of a message *)

Section messages.
Context `{BP : BisonParser} (usable : nat → nat).
#[local] Arguments lld : simpl never.
#[local] Arguments String.append : simpl nomatch.

Lemma decimal_bytes n : Forall is_byte (decimal n).
Proof.
  destruct (decimal_shape n) as (c & l & -> & Hall & _).
  assert (Forall is_byte (c :: l)) by (revert Hall; rewrite !list.Forall_forall; unfold is_byte; intros H x Hx; specialize (H x Hx); cbn in H; lia).
  destruct (n <? 0); [constructor; [done|done]|done].
Qed.

Lemma bytes_lld n : small n → bytes_of (lld n) = decimal n.
Proof.
  intros Hn. unfold lld. rewrite (wraps_id 64) by (unfold in_s, small in *; lia).
  apply bytes_of_string, decimal_bytes.
Qed.

Lemma decimal_short n : small n → (length (decimal n) ≤ 11)%nat.
Proof. intros Hn. apply (decimal_length n 10); [unfold small in Hn; cbn; lia|lia]. Qed.

Lemma print_bytes size t args s :
  sprintf t args = Some s → Z.of_nat (length (bytes_of s)) + 1 ≤ size →
  ∃ text, print_to size t args = Some text ∧ bytes_of text = bytes_of s.
Proof.
  intros Hs Hl. exists s. split; [|done]. unfold print_to. rewrite Hs. cbn [mbind option_bind].
  unfold strlen. rewrite bytes_of_length in Hl. destruct (Z.leb_spec (Z.of_nat (String.length s) + 1) size); [done|lia].
Qed.

Lemma bytes_concat args : bytes_of (String.concat "" args) = concat (bytes_of <$> args).
Proof.
  induction args as [|a [|a' args] IH]; [done| |].
  - cbn. by rewrite app_nil_r.
  - change (String.concat "" (a :: a' :: args)) with (a +:+ "" +:+ String.concat "" (a' :: args)).
    rewrite !bytes_of_app, IH. done.
Qed.

Lemma str_concat_bytes args :
  (1 ≤ length args ≤ 5)%nat → concat (bytes_of <$> args) ≠ [] →
  ∃ t, oec_str_concat args = Some t ∧ bytes_of t = concat (bytes_of <$> args).
Proof.
  intros Hl Hne. exists (String.concat "" args). rewrite bytes_concat. split; [|done].
  unfold oec_str_concat. rewrite bytes_concat.
  destruct (concat (bytes_of <$> args)) eqn:E; [done|].
  destruct (Z.eqb_spec (Z.of_nat (length (z :: l))) 0); [cbn in *; lia|]. cbn [negb].
  destruct (Nat.leb_spec 1 (length args)), (Nat.leb_spec (length args) 5); try lia. done.
Qed.

Lemma concat_nonempty (l : list Z) (k : list (list Z)) : l ≠ [] → concat (l :: k) ≠ [].
Proof. destruct l; [done|]. by cbn. Qed.

Lemma quote_bytes : bytes_of quote = [34].
Proof. reflexivity. Qed.

(** One step of joining: the pieces are known not to be all empty. *)
#[local] Ltac join :=
  match goal with
  | |- context [oec_str_concat ?args] =>
    let t := fresh "t" in let Ht := fresh "Ht" in let E := fresh "E" in
    destruct (str_concat_bytes args) as (t & E & Ht);
    [cbn; lia|cbn [fmap list_fmap concat]; rewrite ?quote_bytes; 
       let E := fresh "E" in intros E; apply (f_equal length) in E; rewrite ?length_app in E; cbn in E; lia|
     rewrite E; cbn [fmap list_fmap concat] in Ht; rewrite ?quote_bytes, ?app_nil_r in Ht; clear E; cbn [mbind option_bind]]
  end.

Definition sep (l : list Z) : list Z := match l with [] => [] | _ => 32 :: l end.
Lemma sep_quoted s l : sep (quoted_bytes s ++ l) = 32 :: quoted_bytes s ++ l.
Proof. done. Qed.
Lemma tuple_text_cons s l : tuple_text (s :: l) = quoted_bytes s ++ sep (tuple_text l).
Proof. destruct l as [|s' [|s'' l]]; cbn [tuple_text]; by rewrite ?sep_quoted, ?app_nil_r. Qed.
Lemma map_text_cons k v l : even_length l = true →
  map_text (k :: v :: l) = quoted_bytes k ++ 58 :: 32 :: quoted_bytes v ++ sep (map_text l).
Proof. intros He. destruct l as [|k' [|v' l]]; done. Qed.

(** Texts put together in different ways *)
#[local] Ltac flatten :=
  rewrite ?tuple_text_cons, ?map_text_cons, ?sep_quoted by done; unfold quoted_bytes; cbn [app];
  repeat (rewrite <-app_assoc; cbn [app]); reflexivity.

Lemma tuple_loop_some l : ∀ str, bytes_of str ≠ [] →
  ∃ t, tuple_loop (Some str) l = Some (Some t) ∧ bytes_of t = bytes_of str ++ sep (tuple_text l).
Proof.
  induction l as [|s l IH]; intros str Hs; cbn [tuple_loop]; [exists str; by rewrite app_nil_r|].
  do 2 join. destruct (IH t0) as (u & -> & Hu); [rewrite Ht0, Ht; by destruct (bytes_of str)|].
  exists u. split; [done|]. rewrite Hu, Ht0, Ht. unfold quoted_bytes. change (bytes_of " ") with [32].
  flatten.
Qed.

Lemma tuple_loop_bytes l : l ≠ [] → ∃ t, tuple_loop None l = Some (Some t) ∧ bytes_of t = tuple_text l.
Proof.
  destruct l as [|s l]; [done|]. intros _. cbn [tuple_loop]. join.
  destruct (tuple_loop_some l t) as (u & -> & Hu); [by rewrite Ht|]. exists u. split; [done|].
  rewrite Hu, Ht. flatten.
Qed.

Lemma map_loop_some l : even_length l = true → ∀ str, bytes_of str ≠ [] →
  ∃ t, map_loop (Some str) l = Some (Some t) ∧ bytes_of t = bytes_of str ++ sep (map_text l).
Proof.
  induction l as [|k|k v l IH] using pairs_ind; intros He str Hs; [exists str; by rewrite app_nil_r|done|].
  cbn [map_loop]. do 4 join. destruct (IH He t2) as (u & -> & Hu); [rewrite Ht2, Ht1; by destruct (bytes_of t0)|].
  exists u. split; [done|]. rewrite Hu, Ht2, Ht1, Ht0, Ht. unfold quoted_bytes. change (bytes_of " ") with [32].
  change (bytes_of ": ") with [58; 32].
  flatten.
Qed.

Lemma map_loop_bytes l : l ≠ [] → even_length l = true →
  ∃ t, map_loop None l = Some (Some t) ∧ bytes_of t = map_text l.
Proof.
  destruct l as [|k [|v l]]; [done|done|]. intros _ He. cbn [map_loop]. do 3 join.
  destruct (map_loop_some l He t1) as (u & -> & Hu); [rewrite Ht1, Ht0; by destruct (bytes_of t)|]. exists u. split; [done|].
  rewrite Hu, Ht1, Ht0, Ht. unfold quoted_bytes. change (bytes_of ": ") with [58; 32].
  flatten.
Qed.
(** *** Messages that can be sent *)

Definition id_ok (n : Z) : Prop := 0 ≤ n < 2 ^ 31.
Definition object_ok (tuple : bool) (d : DataObject) : Prop :=
  object_wf d ∧ attrs_ok usable tuple (strings d).
Definition named (s : option string) : Prop := match s with Some s => quotable usable s | None => False end.

(** What of a body has to be in order for the text to carry it *)
Definition body_ok (d : msg_data) : Prop :=
  match d with
  | D_none => False
  | D_err e => match emessage e with Some s => quotable usable s | None => quotable usable "" end
  | D_dis_cmd _ => True
  | D_con_cmd c => named (con_extentname c) ∧ named (con_username c) ∧ named (con_password c)
  | D_con_res r => id_ok (session_id r)
  | D_sta_cmd c => id_ok (sta_duration c)
  | D_sta_res _ => True
  | D_upt_cmd c => id_ok (upt_enlisted c)
  | D_upt_res _ => True
  | D_upl_cmd c => id_ok (upl_lease_id c)
  | D_upl_res _ => True
  | D_put_cmd c =>
    id_ok (put_duration c) ∧ object_ok (put_is_tuple c) (PutCmd_get_data c) ∧ strings (PutCmd_get_data c) ≠ []
  | D_put_res r => id_ok (res_lease_id r)
  | D_get_cmd c =>
    small (get_timeout c) ∧
    match get_value_lists c with
    | Some (o :: _) => object_ok (GetCmd_is_tuple c) o ∧ strings o ≠ []
    | _ => False
    end
  | D_get_res r => id_ok (nresults r) ∧ object_ok (GetRes_is_tuple r) (GetRes_get_data r)
  end.
Definition sendable (m : OekMsg) : Prop := msg_wf m ∧ id_ok (cor_id m) ∧ id_ok (txn_id m) ∧ body_ok (data m).

(** *** The statement a message is written as *)

Definition response (c : kind) (l : list argument) (d : option (bool * list string)) : statement :=
  Statement RESPONSE (A_cmd c :: l) d.
Definition statement_of (m : OekMsg) : statement :=
  let cid := A_num CORRELATION_ID (cor_id m) in
  let tid := A_num TXN_ID (txn_id m) in
  match data m with
  | D_none => Statement DIS [] None
  | D_err e => Statement ERROR [cid; A_str MSG (default "" (emessage e))] None
  | D_dis_cmd _ => Statement DIS [] None
  | D_con_cmd c =>
    Statement CONNECT [cid; A_str EXTENTNAME (default "" (con_extentname c));
      A_str USERNAME (default "" (con_username c)); A_str PASSWORD (default "" (con_password c))] None
  | D_con_res r => response CONNECT [cid; A_num SESSION_ID (session_id r)] None
  | D_sta_cmd c => Statement TXN [cid; A_num TIMEOUT (sta_duration c)] None
  | D_sta_res _ => response TXN [cid; tid] None
  | D_upt_cmd c =>
    if decide (upt_status c = Some OETXN_COMMITTED)
    then Statement COMMIT [cid; tid; A_num NENLISTED (upt_enlisted c)] None
    else Statement CANCEL [cid; tid] None
  | D_upt_res r => response (if decide (UptRes_get_status r = OETXN_COMMITTED) then COMMIT else CANCEL) [cid] None
  | D_upl_cmd c => Statement CANCEL [cid; A_num LEASE_ID (upl_lease_id c)] None
  | D_upl_res _ => response CANCEL [cid] None
  | D_put_cmd c =>
    Statement WRITE [cid; tid; A_num DURATION (put_duration c)]
      (Some (put_is_tuple c, strings (PutCmd_get_data c)))
  | D_put_res r => response WRITE [cid; A_num LEASE_ID (res_lease_id r)] None
  | D_get_cmd c =>
    Statement (if GetCmd_remove c then TAKE else READ) [A_num TIMEOUT (get_timeout c); cid; tid]
      (Some (GetCmd_is_tuple c, match _get_value_lists c with o :: _ => strings o | [] => [] end))
  | D_get_res r =>
    response (if GetRes_is_destroyed r then TAKE else READ) [cid; A_num NRESULTS (nresults r)]
      (Some (GetRes_is_tuple r, strings (GetRes_get_data r)))
  end.

(** A message as it arrives: bytes, versions, flags and lease durations are
    not sent, a get asks for one response with attributes and bytes, and the
    response to a lease update reads as a rolled back transaction. *)
Definition received_object (l : list string) : DataObject := mkDataObject l 0 None None false.
Definition received (m : OekMsg) : OekMsg :=
  match data m with
  | D_none => m
  | D_err e => mkOekMsg OEK_ERR (cor_id m) 0 true (D_err (mkOekErr 0 (Some (default "" (emessage e)))))
  | D_dis_cmd _ => mkOekMsg DIS_CMD 0 0 true (D_dis_cmd DisCmd_new)
  | D_con_cmd c =>
    mkOekMsg CON_CMD (cor_id m) 0 true
      (D_con_cmd (mkConCmd (0, 0, 0) (con_extentname c) (con_username c) (con_password c) 0))
  | D_con_res r => mkOekMsg CON_RES (cor_id m) 0 true (D_con_res (mkConRes (0, 0, 0) None (session_id r)))
  | D_sta_cmd c => mkOekMsg STA_CMD (cor_id m) 0 true (D_sta_cmd (mkStaCmd (sta_duration c) false))
  | D_sta_res _ => mkOekMsg STA_RES (cor_id m) (txn_id m) true (D_sta_res StaRes_new)
  | D_upt_cmd c =>
    mkOekMsg UPT_CMD (cor_id m) (txn_id m) true
      (D_upt_cmd (if decide (upt_status c = Some OETXN_COMMITTED)
                  then mkUptCmd 0 (upt_enlisted c) (Some OETXN_COMMITTED)
                  else mkUptCmd 0 0 (Some OETXN_ROLLEDBACK)))
  | D_upt_res r =>
    mkOekMsg UPT_RES (cor_id m) 0 true
      (D_upt_res (mkUptRes (Some (if decide (UptRes_get_status r = OETXN_COMMITTED)
                                  then OETXN_COMMITTED else OETXN_ROLLEDBACK))))
  | D_upl_cmd c => mkOekMsg UPL_CMD (cor_id m) 0 true (D_upl_cmd (mkUplCmd (upl_lease_id c) 0))
  | D_upl_res _ => mkOekMsg UPT_RES (cor_id m) 0 true (D_upt_res (mkUptRes (Some OETXN_ROLLEDBACK)))
  | D_put_cmd c =>
    mkOekMsg PUT_CMD (cor_id m) (txn_id m) true
      (D_put_cmd (mkPutCmd (put_duration c) (put_is_tuple c)
                    (Some (received_object (strings (PutCmd_get_data c))))))
  | D_put_res r => mkOekMsg PUT_RES (cor_id m) 0 true (D_put_res (mkPutRes (res_lease_id r)))
  | D_get_cmd c =>
    mkOekMsg GET_CMD (cor_id m) (txn_id m) true
      (D_get_cmd (mkGetCmd (get_timeout c) 1
        ((if GetCmd_is_tuple c then OE_GET_CMD_TUPLE else 0) + (if GetCmd_remove c then OE_GET_CMD_DESTROY else 0) +
         OE_GET_CMD_RET_ATTRS + OE_GET_CMD_RET_BYTES)
        (Some [received_object (match _get_value_lists c with o :: _ => strings o | [] => [] end)])))
  | D_get_res r =>
    let l := strings (GetRes_get_data r) in
    mkOekMsg GET_RES (cor_id m) 0 true
      (D_get_res (mkGetRes (nresults r)
        ((if GetRes_is_tuple r && negb (bool_decide (l = [])) then TUPLE else 0) +
         (if GetRes_is_destroyed r then DESTROYED else 0))
        (match l with [] => None | _ => Some (received_object l) end)))
  end.

Lemma id_small n : id_ok n → small n.
Proof. unfold id_ok, small. lia. Qed.
#[local] Hint Resolve id_small : core.

Lemma sendable_statement m : sendable m → st_ok usable (statement_of m).
Proof.
  intros (_ & Hc & Ht & Hb). unfold statement_of. destruct (data m) as [|e| |c|r|c| |c|r|c| |c|r|c|r]; cbn in Hb; try done.
  all: repeat match goal with H : _ ∧ _ |- _ => destruct H end; unfold st_ok, response, object_ok in *; try case_decide.
  all: cbn [st_kind st_args st_data]; split_and!; try done; try tauto.
  all: try match goal with |- Forall _ _ => repeat apply list.Forall_cons_2; [..|apply list.Forall_nil_2] end.
  all: try match goal with |- arg_ok _ (A_num _ _) => split; [done|auto] end.
  all: try match goal with |- arg_ok _ (A_cmd (if ?b then _ else _)) => by destruct b end.
  all: try match goal with |- is_word (if ?b then _ else _) = _ => by destruct b end.
  all: try match goal with |- arg_ok _ (A_str _ (default _ ?o)) => split; [done|destruct o; done] end.
  all: try reflexivity.
  unfold _get_value_lists. destruct (get_value_lists c) as [[|o l]|]; naive_solver.
Qed.

(** *** The encoder writes that statement *)

#[local] Ltac words :=
  repeat match goal with
  | |- context [bytes_of (spelling ?k)] =>
    is_constructor k; let v := eval vm_compute in (bytes_of (spelling k)) in change (bytes_of (spelling k)) with v
  end.

Lemma serialize_bytes tuple o :
  object_ok tuple o → strings o ≠ [] →
  ∃ t, serialize_data tuple o = Some (Some t) ∧
       bytes_of t = (if tuple then tuple_text (strings o) else map_text (strings o)).
Proof.
  intros [Hwf [_ He]] Hne. unfold serialize_data, _serialize_tuple, _serialize_map, iterated.
  destruct tuple; (rewrite drain_object by done); cbn [mbind option_bind].
  - by apply tuple_loop_bytes.
  - apply map_loop_bytes; auto.
Qed.

Definition encodes (m : OekMsg) : Prop :=
  ∃ text, OeJclEncoder_msg_serialize m = Some (Some text) ∧ bytes_of text = st_text (statement_of m).

#[local] Ltac sizes :=
  cbn [length]; rewrite ?length_app; cbn [length]; rewrite ?length_app; cbn [length].

(** The bytes of what is printed, and their number *)
#[local] Ltac texts :=
  repeat (rewrite bytes_of_app || (rewrite bytes_lld by auto) || (cbn [bytes_of]));
  repeat match goal with
  | |- context [uchar_z ?c] => let v := eval vm_compute in (uchar_z c) in change (uchar_z c) with v
  end; cbn [app].
#[local] Ltac short :=
  repeat match goal with
  | |- context [strlen ?t] => is_const t; let v := eval vm_compute in (strlen t) in change (strlen t) with v
  end;
  repeat (rewrite length_app || rewrite bytes_of_length || cbn [length]); unfold strlen;
  repeat match goal with
  | |- context [length (decimal ?n)] =>
    let H := fresh "Hlen" in pose proof (decimal_short n ltac:(auto)) as H; revert H; generalize (length (decimal n)); intros ? H
  end; lia.

(** Print a template with known arguments. *)
#[local] Ltac printed :=
  match goal with
  | |- context [print_to ?size ?t ?args] =>
    let text := fresh "text" in let E := fresh "E" in let Ht := fresh "Ht" in
    edestruct (print_bytes size t args) as (text & E & Ht);
    [cbn; repeat match goal with |- context [?d <? 0] => destruct (Z.ltb_spec d 0); [unfold id_ok in *; lia|]; cbn end; reflexivity
    |texts; short
    |rewrite E; clear E; cbn [mbind option_bind]; revert Ht; texts; intros Ht]
  end.

(** The text is the statement's. *)
#[local] Ltac same_text :=
  eexists; split; [reflexivity|];
  match goal with H : bytes_of ?t = _ |- bytes_of ?t = _ => rewrite H; clear H end;
  unfold st_text, statement_of, response; cbn [st_kind st_args st_data data cor_id txn_id args_text];
  unfold arg_text; cbn [arg_kind]; words; unfold quoted_bytes; cbn [app];
  repeat (rewrite <-app_assoc; cbn [app]); reflexivity.

(** The accessors of a message whose type is known *)
#[local] Ltac access :=
  cbn [OekMsg_get_type mtype];
  repeat match goal with
  | |- context [?f (mkOekMsg ?t ?c ?x ?v (?D ?b))] =>
    match type of f with OekMsg → option _ => change (f (mkOekMsg t c x v (D b))) with (Some b) end
  end;
  cbn [data mbind option_bind OekMsg_get_cid OekMsg_get_tid cor_id txn_id]; cbv zeta.
#[local] Ltac ranges := repeat rewrite (wraps_id 32) by (unfold in_s, id_ok in *; lia).

Lemma encode_err e cid tid v :
  id_ok cid → encodes (mkOekMsg OEK_ERR cid tid v (D_err e)).
Proof.
  intros Hc. unfold encodes, OeJclEncoder_msg_serialize, _err_serialize. access.
  printed. same_text.
Qed.

Lemma encode_sta c cid tid v :
  id_ok cid → id_ok (sta_duration c) → encodes (mkOekMsg STA_CMD cid tid v (D_sta_cmd c)).
Proof.
  intros Hc Hd. unfold encodes, OeJclEncoder_msg_serialize, _sta_cmd_serialize. access. ranges. printed. same_text.
Qed.

Lemma encode_con c cid tid v e u p :
  id_ok cid → con_extentname c = Some e → con_username c = Some u → con_password c = Some p →
  encodes (mkOekMsg CON_CMD cid tid v (D_con_cmd c)).
Proof.
  intros Hc He Hu Hp. unfold encodes, OeJclEncoder_msg_serialize, _con_cmd_serialize. access.
  rewrite He, Hu, Hp. printed.
  assert (statement_of (mkOekMsg CON_CMD cid tid v (D_con_cmd c)) =
    Statement CONNECT [A_num CORRELATION_ID cid; A_str EXTENTNAME e; A_str USERNAME u; A_str PASSWORD p] None) as ->
    by (unfold statement_of; cbn [data cor_id]; by rewrite He, Hu, Hp).
  same_text.
Qed.

Lemma encode_con_res r cid tid v :
  id_ok cid → id_ok (session_id r) → encodes (mkOekMsg CON_RES cid tid v (D_con_res r)).
Proof.
  intros Hc Hd. unfold encodes, OeJclEncoder_msg_serialize, _con_res_serialize. access. printed. same_text.
Qed.

Lemma encode_sta_res r cid tid v :
  id_ok cid → id_ok tid → encodes (mkOekMsg STA_RES cid tid v (D_sta_res r)).
Proof.
  intros Hc Ht. unfold encodes, OeJclEncoder_msg_serialize, _sta_res_serialize. access. printed. same_text.
Qed.

Lemma encode_upt c cid tid v :
  id_ok cid → id_ok tid → id_ok (upt_enlisted c) → encodes (mkOekMsg UPT_CMD cid tid v (D_upt_cmd c)).
Proof.
  intros Hc Ht He. unfold encodes, OeJclEncoder_msg_serialize. access. unfold statement_of. cbn [data cor_id txn_id].
  case_decide; [unfold _commit_cmd_serialize|unfold _rollback_cmd_serialize]; access.
  - rewrite (wrapu_id 64) by (unfold in_u, id_ok in *; lia). printed. same_text.
  - printed. same_text.
Qed.

Lemma encode_upt_res r cid tid v :
  id_ok cid → encodes (mkOekMsg UPT_RES cid tid v (D_upt_res r)).
Proof.
  intros Hc. unfold encodes, OeJclEncoder_msg_serialize. access. unfold statement_of. cbn [data cor_id].
  case_decide; [unfold _commit_res_serialize|unfold _cancel_res_serialize]; access; printed; same_text.
Qed.

Lemma encode_upl c cid tid v :
  id_ok cid → id_ok (upl_lease_id c) → encodes (mkOekMsg UPL_CMD cid tid v (D_upl_cmd c)).
Proof.
  intros Hc Hd. unfold encodes, OeJclEncoder_msg_serialize, _upl_cmd_serialize. access. ranges. printed. same_text.
Qed.

Lemma encode_upl_res r cid tid v :
  id_ok cid → encodes (mkOekMsg UPL_RES cid tid v (D_upl_res r)).
Proof.
  intros Hc. unfold encodes, OeJclEncoder_msg_serialize, _upl_res_serialize. access. printed. same_text.
Qed.

Lemma encode_put_res r cid tid v :
  id_ok cid → id_ok (res_lease_id r) → encodes (mkOekMsg PUT_RES cid tid v (D_put_res r)).
Proof.
  intros Hc Hd. unfold encodes, OeJclEncoder_msg_serialize, _put_res_serialize. access. ranges. printed. same_text.
Qed.

Lemma join_bytes text t suffix : bytes_of text ≠ [] →
  ∃ u, join_text text (Some t) suffix = Some (Some u) ∧ bytes_of u = bytes_of text ++ bytes_of t ++ bytes_of suffix.
Proof.
  intros Hne. unfold join_text. cbn [mbind option_bind].
  destruct (str_concat_bytes [text; t]) as (t0 & -> & H0); [cbn; lia|by apply concat_nonempty|].
  cbn [fmap list_fmap concat mbind option_bind] in *. rewrite app_nil_r in H0.
  destruct (str_concat_bytes [t0; suffix]) as (u & -> & Hu).
  { cbn; lia. }
  { apply concat_nonempty. rewrite H0. by destruct (bytes_of text). }
  exists u. split; [done|]. rewrite Hu. cbn [fmap list_fmap concat]. by rewrite H0, app_nil_r, <-app_assoc.
Qed.

(** The same for a text with attributes *)
#[local] Ltac data_text :=
  match goal with
  | H : bytes_of ?u = _ |- _ => exists u; split; [reflexivity|]; rewrite H; clear H
  end;
  unfold st_text, statement_of, response; cbn [st_kind st_args st_data data cor_id txn_id args_text];
  unfold arg_text, attrs_text; cbn [arg_kind]; words;
  match goal with |- context [bytes_of ?suf] => let v := eval vm_compute in (bytes_of suf) in change (bytes_of suf) with v end;
  cbn [app]; repeat (rewrite <-app_assoc; cbn [app]); reflexivity.

Lemma encode_put c cid tid v :
  id_ok cid → id_ok tid → id_ok (put_duration c) → object_ok (put_is_tuple c) (PutCmd_get_data c) →
  strings (PutCmd_get_data c) ≠ [] → encodes (mkOekMsg PUT_CMD cid tid v (D_put_cmd c)).
Proof.
  intros Hc Ht Hd Ho Hne. unfold encodes, OeJclEncoder_msg_serialize, _put_cmd_serialize. access. ranges. printed.
  destruct (serialize_bytes _ _ Ho Hne) as (t & -> & Hs). cbn [mbind option_bind].
  destruct (join_bytes text t PUT_MSG_TEMPLATE_SUF ltac:(by rewrite Ht0)) as (u & -> & Hu).
  rewrite Ht0, Hs in Hu. data_text.
Qed.

Lemma encode_get c cid tid v o l :
  id_ok cid → id_ok tid → small (get_timeout c) → get_value_lists c = Some (o :: l) →
  object_ok (GetCmd_is_tuple c) o → strings o ≠ [] → encodes (mkOekMsg GET_CMD cid tid v (D_get_cmd c)).
Proof.
  intros Hc Ht Hd Hl Ho Hne. unfold encodes, OeJclEncoder_msg_serialize, _get_cmd_serialize. access.
  assert (∃ it, Iterator_next (DataObjectList_iterator (GetCmd_get_data_objects c)) = Some (Some o, it)) as (it & ->).
  { unfold GetCmd_get_data_objects, _get_value_lists. rewrite Hl. destruct l; by eexists. }
  unfold statement_of, _get_value_lists. cbn [data cor_id txn_id]. rewrite Hl.
  destruct (GetCmd_remove c); printed; cbn [mbind option_bind];
    (destruct (serialize_bytes _ _ Ho Hne) as (t & -> & Hs); cbn [mbind option_bind];
     destruct (join_bytes text t GET_CMD_TEMPLATE_SUF ltac:(by rewrite Ht0)) as (u & -> & Hu);
     rewrite Ht0, Hs in Hu; data_text).
Qed.

Lemma encode_get_res r cid tid v :
  id_ok cid → id_ok (nresults r) → object_ok (GetRes_is_tuple r) (GetRes_get_data r) →
  encodes (mkOekMsg GET_RES cid tid v (D_get_res r)).
Proof.
  intros Hc Hn Ho. unfold encodes, OeJclEncoder_msg_serialize, _get_res_serialize. access.
  assert (∃ t, serialize_data (GetRes_is_tuple r) (GetRes_get_data r) = Some t ∧ bytes_of (default "" t) =
    (if GetRes_is_tuple r then tuple_text (strings (GetRes_get_data r)) else map_text (strings (GetRes_get_data r))))
    as (t & -> & Hs).
  { destruct (decide (strings (GetRes_get_data r) = [])) as [E|Hne].
    - exists None. unfold serialize_data, _serialize_tuple, _serialize_map, iterated.
      destruct Ho as [Hwf _]. destruct (GetRes_is_tuple r); by rewrite drain_object, E.
    - destruct (serialize_bytes _ _ Ho Hne) as (t & E & Hs). by exists (Some t). }
  unfold statement_of, response. cbn [data cor_id txn_id].
  destruct (GetRes_is_destroyed r); printed; cbn [mbind option_bind];
    (destruct (join_bytes text (default "" t) GET_RES_TEMPLATE_SUF ltac:(by rewrite Ht)) as (u & -> & Hu);
     rewrite Ht, Hs in Hu; data_text).
Qed.

(** Every message that can be sent is written as its statement. *)
Lemma encode_statement m : sendable m → encodes m.
Proof.
  intros (Hwf & Hc & Ht & Hb). destruct m as [ty cid tid v d]. unfold msg_wf in Hwf. cbn in *. subst ty.
  destruct d as [|e|c|c|r|c|r|c|r|c|r|c|r|c|r]; cbn [tag_of body_ok] in *; [done|..].
  - by apply encode_err.
  - eexists. done.
  - destruct Hb as (He & Hu & Hp). destruct (con_extentname c) eqn:E1, (con_username c) eqn:E2, (con_password c) eqn:E3; try done.
    by eapply encode_con.
  - by apply encode_con_res.
  - by apply encode_sta.
  - by apply encode_sta_res.
  - by apply encode_upt.
  - by apply encode_upt_res.
  - by apply encode_upl.
  - by apply encode_upl_res.
  - destruct Hb as (? & ? & ?). by apply encode_put.
  - by apply encode_put_res.
  - destruct Hb as (? & Hl). destruct (get_value_lists c) as [[|o l]|] eqn:E; try done. destruct Hl. by eapply encode_get.
  - destruct Hb. by apply encode_get_res.
Qed.

(** *** The statement is parsed *)

Definition node_of (m : OekMsg) : ast :=
  match data m with
  | D_upl_cmd _ => Node CANCELLEASE (args_tree (st_args (statement_of m))) NULL
  | _ => st_node (statement_of m)
  end.

Definition all_in (allowed : list kind) (l : list argument) : bool :=
  forallb (λ x, bool_decide (arg_kind x ∈ allowed)) l.
Lemma g_args_in allowed l :
  Forall (arg_ok usable) l → all_in allowed l = true → g_args allowed (args_tokens l) (args_tree l).
Proof.
  intros Hl Hin. apply (g_args_tree usable). induction Hl as [|x l Hx Hl IH]; [done|].
  cbn in Hin. apply andb_true_iff in Hin as [Hk%bool_decide_eq_true Hin]. constructor; [done|by apply IH].
Qed.

Lemma tokens_plain k l :
  st_tokens (Statement k l None) = (T k :: T START_PARAN :: args_tokens l ++ [T END_PARAN]) ++ [T END_STMT].
Proof. unfold st_tokens. cbn [st_kind st_args st_data app]. by rewrite <-app_assoc. Qed.
Lemma tokens_data k l tuple d :
  st_tokens (Statement k l (Some (tuple, d))) =
  (T k :: T START_PARAN :: args_tokens l ++ attrs_tokens tuple d ++ [T END_PARAN]) ++ [T END_STMT].
Proof. unfold st_tokens. cbn [st_kind st_args st_data app]. by rewrite <-!app_assoc. Qed.

Lemma g_command_stmts ts a : g_command ts a → g_stmts (ts ++ [T END_STMT]) (Node STMT a NULL).
Proof. intros H. by apply g_stmts_one, g_stmt_command. Qed.
Lemma g_response_stmts ts a : g_response ts a → g_stmts (ts ++ [T END_STMT]) (Node STMT a NULL).
Proof. intros H. by apply g_stmts_one, g_stmt_response. Qed.

Lemma statement_grammar m : sendable m → g_stmts (st_tokens (statement_of m)) (Node STMT (node_of m) NULL).
Proof.
  intros Hm. pose proof (sendable_statement m Hm) as (_ & Hargs & Hdata). destruct Hm as (_ & _ & _ & Hb).
  unfold node_of. unfold statement_of, response in *. destruct (data m) as [|e| |c|r|c|r|c|r|c|r|c|r|c|r]; cbn in Hb; [done|..].
  all: repeat case_decide; rewrite ?tokens_plain, ?tokens_data; unfold st_node; cbn [st_kind st_args st_data] in *.
  - apply g_stmts_one, g_stmt_error. apply g_error. by apply g_args_in.
  - apply g_command_stmts. apply g_dis.
  - apply g_command_stmts. apply g_connect. by apply g_args_in.
  - apply g_response_stmts, g_response_args. by apply g_args_in.
  - apply g_command_stmts. apply g_newtxn. by apply g_args_in.
  - apply g_response_stmts, g_response_args. by apply g_args_in.
  - apply g_command_stmts. apply Forall_cons_1 in Hargs as [H1 [H2 [H3 _]%Forall_cons_1]%Forall_cons_1].
    exact (g_commit _ _ _ _ _ _ (g_args_in cmdargs [A_num CORRELATION_ID (cor_id m)] ltac:(by constructor) eq_refl)
             (g_arg_node _ _ H2) (g_arg_node _ _ H3)).
  - apply g_command_stmts. apply Forall_cons_1 in Hargs as [H1 [H2 _]%Forall_cons_1].
    exact (g_cancel _ _ _ _ (g_args_in cmdargs [A_num CORRELATION_ID (cor_id m)] ltac:(by constructor) eq_refl) (g_arg_node _ _ H2)).
  - apply g_response_stmts, g_response_args. by apply g_args_in.
  - apply g_response_stmts, g_response_args. by apply g_args_in.
  - apply g_command_stmts. apply Forall_cons_1 in Hargs as [H1 [H2 _]%Forall_cons_1].
    exact (g_cancellease _ _ _ _ (g_args_in cmdargs [A_num CORRELATION_ID (cor_id m)] ltac:(by constructor) eq_refl) (g_arg_node _ _ H2)).
  - apply g_response_stmts, g_response_args. by apply g_args_in.
  - apply g_command_stmts. apply g_write; [by apply g_args_in|by apply (g_data_attrs usable)].
  - apply g_response_stmts, g_response_args. by apply g_args_in.
  - apply g_command_stmts. destruct (GetCmd_remove c); [apply g_take|apply g_read];
      (by apply g_args_in) || (by apply (g_data_attrs usable)).
  - apply g_response_stmts, g_response_data; [by apply g_args_in|by apply (g_data_attrs usable)].
Qed.

(** *** The tree is decoded *)

Lemma data_loop_strings d l : ∀ o s,
  data_loop d o (strings_node (s :: l)) = Some (d, Some (foldl DataObject_add_attr o (s :: l))).
Proof. induction l as [|s' l IH]; intros o s; [done|]. apply (IH (DataObject_add_attr o s) s'). Qed.

Lemma fold_add_attr l : ∀ k, foldl DataObject_add_attr (received_object k) l = received_object (k ++ l).
Proof.
  induction l as [|s l IH]; intros k; cbn [foldl]; [by rewrite app_nil_r|].
  assert (DataObject_add_attr (received_object k) s = received_object (k ++ [s])) as ->.
  { unfold DataObject_add_attr, received_object. cbn. by rewrite AList.append_app. }
  rewrite IH, <-app_assoc. done.
Qed.

Lemma get_object_strings d t l : l ≠ [] →
  _get_data_object d (Node t (strings_node l) NULL) = Some (d, Some (received_object l)).
Proof.
  destruct l as [|s l]; [done|]. intros _. unfold _get_data_object. cbn [left mbind option_bind].
  change (strings_node (s :: l)) with (Node STRING (Str s) (strings_node l)) at 1. cbn iota.
  rewrite data_loop_strings. do 3 f_equal. apply (fold_add_attr _ []).
Qed.

Lemma oe_id_ok n : id_ok n → oe_id n = n.
Proof. intros H. apply (wrapu_id 64). unfold in_u, id_ok in *. lia. Qed.

Lemma decode_node d m : sendable m → _msg_create d (node_of m) = Some (d, Some (received m)).
Proof.
  intros (_ & Hc & Ht & Hb). unfold node_of, statement_of, received, response.
  pose proof (oe_id_ok _ Hc) as Ec. pose proof (oe_id_ok _ Ht) as Et.
  destruct (data m) as [|e| |c|r|c|r|c|r|c|r|c|r|c|r]; cbn in Hb; [done|..].
  all: try (repeat case_decide; cbn; rewrite ?Ec, ?Et, ?oe_id_ok by done; reflexivity).
  - destruct c as [ver [e|] [u|] [p|] fl]; try by destruct_and! Hb. cbn. by rewrite Ec.
  - destruct Hb as (Hd & _ & Hne). destruct (strings (PutCmd_get_data c)) as [|s l]; [done|].
    destruct (put_is_tuple c); cbn -[_get_data_object strings_node]; rewrite get_object_strings by done; cbn; by rewrite Ec, Et.
  - destruct Hb as (Hd & Hl). unfold _get_value_lists. destruct (get_value_lists c) as [[|o l]|]; try done.
    destruct Hl as (_ & Hne). destruct (strings o) as [|s k]; [done|].
    destruct (GetCmd_remove c), (GetCmd_is_tuple c); cbn -[_get_data_object strings_node];
      unfold _get_data_object_list; rewrite get_object_strings by done; rewrite Ec, Et; reflexivity.
  - destruct Hb as (Hn & _). destruct (strings (GetRes_get_data r)) as [|s l].
    + destruct (GetRes_is_destroyed r), (GetRes_is_tuple r); cbn; by rewrite Ec, (oe_id_ok _ Hn).
    + destruct (GetRes_is_destroyed r), (GetRes_is_tuple r); cbn -[_get_data_object strings_node];
        rewrite get_object_strings by done; cbn; by rewrite Ec, (oe_id_ok _ Hn).
Qed.

Lemma node_shape m : sendable m → ∃ k l r, node_of m = Node k l r ∧ k ≠ ASSIGN.
Proof.
  intros (_ & _ & _ & Hb). unfold node_of, statement_of, response, st_node.
  destruct (data m); try done; repeat case_decide; cbn [st_kind]; try (by eexists _, _, _).
  destruct (GetCmd_remove c); by eexists _, _, _.
Qed.

Lemma next_message d m :
  sendable m → next_node d = Node STMT (node_of m) NULL →
  OeJclDecoder_next_cmd d None =
    Some (with_nodes (with_result d None) NULL (Node STMT (node_of m) NULL), Some (received m)).
Proof.
  intros Hm Hn. destruct (node_shape m Hm) as (k & l & r & E & Hk). unfold OeJclDecoder_next_cmd. rewrite Hn.
  pose proof (decode_node (with_nodes (with_result d None) NULL (Node STMT (node_of m) NULL)) m Hm) as H.
  rewrite E in *. cbn [next_cmd mbind option_bind c_assert nodetype]. by rewrite decide_False.
Qed.

Lemma decoder_reads m rest : sendable m → lexes usable rest [] →
  ∃ d d', OeJclDecoder_new usable (st_text (statement_of m) ++ rest) = Some (Some d) ∧
    OeJclDecoder_next_cmd d None = Some (d', Some (received m)) ∧
    ∀ res, snd <$> OeJclDecoder_next_cmd d' res = Some None.
Proof.
  intros Hm Hrest.
  pose proof (parse_statement usable _ _ rest (sendable_statement m Hm) (statement_grammar m Hm) Hrest) as Hp.
  assert (∃ t, SKeyTable_new (V := ast) 100 = Some t) as [t Et] by by eexists.
  eexists (mkT false (Node STMT (node_of m) NULL) NULL t None), _. split.
  { unfold OeJclDecoder_new. rewrite Hp. cbn [pbind]. by rewrite Et. }
  split; [by apply next_message|]. done.
Qed.


End messages.

Section witness.
#[local] Existing Instance descent_parser.
#[local] Definition demo_room (n : nat) : nat := (n + 16)%nat.
#[local] Definition demo_message : OekMsg :=
  mkOekMsg PUT_CMD 7 9 true (D_put_cmd (mkPutCmd 60 false (Some (received_object ["name"; "alice"])))).

Lemma demo_sendable : sendable demo_room demo_message.
Proof.
  split; [reflexivity|].
  split; [unfold id_ok; cbn; lia|]. split; [unfold id_ok; cbn; lia|].
  split; [unfold id_ok; cbn; lia|]. split; [|done]. split; [by split; [|intros [? ?]]|].
  split; [|done].
  repeat apply list.Forall_cons_2; [..|apply list.Forall_nil_2];
    (split; [unfold plain; by apply (bool_decide_unpack _)|cbn; lia]).
Qed.

End witness.

(** ** The blocks that messages are printed into *)

Section bounds.
#[local] Arguments lld : simpl never.
#[local] Arguments String.append : simpl nomatch.

Lemma bytes_lld_any n : bytes_of (lld n) = decimal (i64 n).
Proof. apply bytes_of_string, decimal_bytes. Qed.

Lemma decimal_i64 n : (length (decimal (i64 n)) ≤ 20)%nat.
Proof.
  apply (decimal_length _ 19); [|lia]. pose proof (wraps_range 64 n ltac:(lia)) as H. unfold in_s in H.
  change (64 - 1) with 63 in H. lia.
Qed.

Lemma print_None size t args s :
  sprintf t args = Some s → print_to size t args = None ↔ size < Z.of_nat (length (bytes_of s)) + 1.
Proof.
  intros Hs. unfold print_to. rewrite Hs. cbn [mbind option_bind]. rewrite bytes_of_length. unfold strlen.
  destruct (Z.leb_spec (Z.of_nat (String.length s) + 1) size); split; (done || lia).
Qed.

(** Turn a failed print into a comparison of lengths. *)
#[local] Ltac lengths :=
  match goal with
  | |- context [print_to ?size ?t ?args ≫= ?k = None] =>
    let E := fresh in
    assert (print_to size t args ≫= k = None ↔ print_to size t args = None) as E
      by (destruct (print_to size t args); cbn; split; done);
    rewrite E; clear E; erewrite print_None by (cbn; reflexivity)
  end;
  repeat (rewrite bytes_of_app || rewrite bytes_lld_any || (cbn [bytes_of]));
  repeat match goal with
  | |- context [strlen ?t] => is_const t; let v := eval vm_compute in (strlen t) in change (strlen t) with v
  end;
  repeat (rewrite length_app || (cbn [length bytes_of])).

(** C27  The blocks that the responses to a write and to a transaction are
    printed into leave 20 bytes for two ids: a store past the end happens as
    soon as the ids take more than 27 characters together.  The blocks of a
    connect response and of a commit are large enough for any ids. *)
Theorem response_block_bounds cid tid v (con : ConRes) (put : PutRes) (sta : StaRes) (upt : UptCmd) :
  (_sta_res_serialize (mkOekMsg STA_RES cid tid v (D_sta_res sta)) = None ↔
     (27 < length (decimal (i64 cid)) + length (decimal (i64 tid)))%nat) ∧
  (_put_res_serialize (mkOekMsg PUT_RES cid tid v (D_put_res put)) = None ↔
     (27 < length (decimal (i64 cid)) + length (decimal (i64 (i32 (res_lease_id put)))))%nat) ∧
  _con_res_serialize (mkOekMsg CON_RES cid tid v (D_con_res con)) ≠ None ∧
  _commit_cmd_serialize (mkOekMsg UPT_CMD cid tid v (D_upt_cmd upt)) ≠ None.
Proof.
  split_and!.
  - unfold _sta_res_serialize. cbn [OekMsg_get_cid OekMsg_get_tid cor_id txn_id]. lengths. lia.
  - unfold _put_res_serialize. change (OekMsg_get_put_res _) with (Some put).
    cbn [mbind option_bind OekMsg_get_cid cor_id]. cbv zeta. lengths. lia.
  - unfold _con_res_serialize. change (OekMsg_get_con_res _) with (Some con).
    cbn [mbind option_bind OekMsg_get_cid cor_id]. lengths.
    pose proof (decimal_i64 cid). pose proof (decimal_i64 (session_id con)). lia.
  - unfold _commit_cmd_serialize. change (OekMsg_get_upt_cmd _) with (Some upt).
    cbn [mbind option_bind OekMsg_get_cid OekMsg_get_tid cor_id txn_id]. cbv zeta. lengths.
    pose proof (decimal_i64 cid). pose proof (decimal_i64 tid). pose proof (decimal_i64 (u64 (upt_enlisted upt))). lia.
Qed.
End bounds.

(** ** Variables *)

(** What a tuple is written with: strings and names of variables *)
Inductive item := Lit (s : string) | Var (x : string).
Definition item_node (i : item) (r : ast) : ast :=
  match i with Lit s => Node STRING (Str s) r | Var x => Node NAME (Str x) r end.
Definition items_node (l : list item) : ast := foldr item_node NULL l.
Definition names (l : list item) : list string := omap (λ i, match i with Var x => Some x | Lit _ => None end) l.
Definition placeholder (i : item) : string := match i with Lit s => s | Var _ => "_" end.
Definition resolved (σ : string → string) (i : item) : string := match i with Lit s => s | Var x => σ x end.

(** The table of variables as a map; names are told apart by their hash. *)
Definition vars (d : OeJclDecoder.T) : gmap Z ast := tmap (symbols d).
Definition decoder_wf (d : OeJclDecoder.T) : Prop := table_wf (symbols d).
Notation class := oec_hash_string_key.

Lemma define_spec d x a :
  decoder_wf d → decoder_wf (define d x a) ∧ vars (define d x a) = <[class x := a]> (vars d).
Proof. intros Hw. destruct (put_spec (symbols d) x a Hw) as (H1 & H2 & _). by split. Qed.

Lemma variable_get d x : decoder_wf d → ArenaTable_get (symbols d) x = vars d !! class x.
Proof. intros H. exact (table_get_spec (symbols d) x H). Qed.

(** Fields that reading and binding variables leave alone *)
Definition same_place (d d' : OeJclDecoder.T) : Prop :=
  next_node d' = next_node d ∧ prev_node d' = prev_node d ∧ result d' = result d.
#[local] Hint Unfold same_place : core.

Lemma data_loop_step d o t s r :
  data_loop d o (Node t (Str s) r) =
    ('(d, data) ← match t with
      | STRING => Some (d, Some (DataObject_add_attr o s))
      | NAME =>
        match ArenaTable_get (symbols d) s with
        | None => Some (define (with_resolve d true) s (new_oejcl_ast UNSET NULL NULL), Some (DataObject_add_attr o "_"))
        | Some vast =>
          t ← nodetype vast;
          if decide (t = UNSET) then Some (d, None)
          else l ← left vast; rstr ← strval l; Some (d, Some (DataObject_add_attr o rstr))
        end
      | _ => None
      end;
     match data with
     | None => Some (d, None)
     | Some data => match r with NULL => Some (d, Some data) | _ => data_loop d data r end
     end).
Proof. reflexivity. Qed.

Lemma items_node_cons i l : items_node (i :: l) = item_node i (items_node l).
Proof. done. Qed.

(** A tuple whose variables all have a value *)
Lemma data_loop_bound d σ l : ∀ o, decoder_wf d → l ≠ [] →
  (∀ x, x ∈ names l → vars d !! class x = Some (Node STRING (Str (σ x)) NULL)) →
  data_loop d o (items_node l) = Some (d, Some (foldl DataObject_add_attr o (resolved σ <$> l))).
Proof.
  induction l as [|i l IH]; intros o Hw Hne Hv; [done|]. rewrite items_node_cons.
  assert (∀ o, match items_node l with NULL => Some (d, Some o) | _ => data_loop d o (items_node l) end =
    Some (d, Some (foldl DataObject_add_attr o (resolved σ <$> l)))) as Hrest.
  { intros o'. destruct l as [|j l]; [done|]. destruct (items_node (j :: l)) eqn:E; [by destruct j|..];
      apply IH; (done || (intros x Hx; apply Hv; destruct i; cbn; set_solver)). }
  destruct i as [s|x]; cbn [item_node]; rewrite data_loop_step.
  - cbn [mbind option_bind]. apply Hrest.
  - rewrite variable_get, (Hv x) by (done || (cbn; set_solver)). cbn. apply Hrest.
Qed.

(** A tuple whose variables are all new *)
Lemma data_loop_fresh l : ∀ d o, decoder_wf d → l ≠ [] → NoDup (class <$> names l) →
  (∀ x, x ∈ names l → vars d !! class x = None) →
  ∃ d', data_loop d o (items_node l) = Some (d', Some (foldl DataObject_add_attr o (placeholder <$> l))) ∧
    decoder_wf d' ∧ same_place d d' ∧
    resolve_from_results d' = resolve_from_results d || negb (bool_decide (names l = [])) ∧
    ∀ c, vars d' !! c = if decide (c ∈ class <$> names l) then Some (new_oejcl_ast UNSET NULL NULL) else vars d !! c.
Proof.
  induction l as [|i l IH]; intros d o Hw Hne Hnd Hv; [done|]. rewrite items_node_cons.
  assert (∀ d o, decoder_wf d → NoDup (class <$> names l) → (∀ x, x ∈ names l → vars d !! class x = None) →
    ∃ d', match items_node l with NULL => Some (d, Some o) | _ => data_loop d o (items_node l) end =
      Some (d', Some (foldl DataObject_add_attr o (placeholder <$> l))) ∧
    decoder_wf d' ∧ same_place d d' ∧
    resolve_from_results d' = resolve_from_results d || negb (bool_decide (names l = [])) ∧
    ∀ c, vars d' !! c = if decide (c ∈ class <$> names l) then Some (new_oejcl_ast UNSET NULL NULL) else vars d !! c) as Hrest.
  { intros d1 o1 H1 H2 H3. destruct l as [|j l].
    - exists d1. cbn. split_and!; [done..|by rewrite orb_false_r|done].
    - destruct (IH d1 o1 H1 ltac:(done) H2 H3) as (d' & E & H). exists d'. split; [|done].
      destruct (items_node (j :: l)) eqn:Ej; [by destruct j|by rewrite E..]. }
  destruct i as [s|x]; cbn [item_node]; rewrite data_loop_step.
  - cbn [mbind option_bind]. by apply Hrest.
  - cbn in Hnd. apply list.NoDup_cons in Hnd as [Hx Hnd].
    rewrite variable_get, (Hv x) by (done || (cbn; set_solver)). cbn [mbind option_bind].
    destruct (define_spec (with_resolve d true) x (new_oejcl_ast UNSET NULL NULL) Hw) as [Hw1 Hm1].
    edestruct (Hrest (define (with_resolve d true) x (new_oejcl_ast UNSET NULL NULL)) (DataObject_add_attr o "_") Hw1 Hnd)
      as (d' & E & Hw' & Hp & Hr & Hc).
    { intros y Hy. rewrite Hm1. rewrite lookup_insert_ne.
      - apply Hv. cbn. set_solver.
      - intros Exy. apply Hx. rewrite Exy. apply list_elem_of_fmap. by exists y. }
    exists d'. split; [exact E|]. split; [done|]. split; [exact Hp|]. split.
    { rewrite Hr. cbn. by rewrite orb_true_r. }
    intros c. rewrite Hc, Hm1. change (names (Var x :: l)) with (x :: names l). rewrite fmap_cons.
    destruct (decide (c = class x)) as [->|Hcx].
    + rewrite (decide_False (P := class x ∈ class <$> names l)) by done.
      by rewrite decide_True, lookup_insert_eq by apply list_elem_of_here.
    + rewrite lookup_insert_ne by done. apply decide_ext. rewrite elem_of_cons. naive_solver.
Qed.

(** The value that a result gives a variable: of the last place it stands at *)
Fixpoint value_at (l : list item) (data : list string) (c : Z) : option string :=
  match l, data with
  | i :: l, v :: data =>
    match value_at l data c with
    | Some w => Some w
    | None => match i with Var x => if decide (class x = c) then Some v else None | Lit _ => None end
    end
  | _, _ => None
  end.

Lemma list_result_spec l : ∀ d data, decoder_wf d → l ≠ [] →
  (∀ x, x ∈ names l → is_Some (vars d !! class x)) →
  ∃ d', list_result_loop d data (items_node l) = Some d' ∧ decoder_wf d' ∧
    same_place d d' ∧ resolve_from_results d' = resolve_from_results d ∧
    ∀ c, vars d' !! c = match value_at l data c with Some v => Some (new_oejcl_str_ast STRING v) | None => vars d !! c end.
Proof.
  induction l as [|i l IH]; intros d data Hw Hne Hv; [done|].
  destruct data as [|v data]; [by exists d|].
  assert (∀ d, decoder_wf d → (∀ x, x ∈ names l → is_Some (vars d !! class x)) →
    ∃ d', match items_node l with NULL => Some d | _ => list_result_loop d data (items_node l) end = Some d' ∧ decoder_wf d' ∧
    same_place d d' ∧ resolve_from_results d' = resolve_from_results d ∧
    ∀ c, vars d' !! c = match value_at l data c with Some v => Some (new_oejcl_str_ast STRING v) | None => vars d !! c end) as Hrest.
  { intros d1 H1 H2. destruct l as [|j l]; [by exists d1|].
    destruct (IH d1 data H1 ltac:(done) H2) as (d' & E & H). exists d'. split; [|done].
    destruct (items_node (j :: l)) eqn:Ej; [by destruct j|exact E..]. }
  rewrite items_node_cons. destruct i as [s|x]; cbn [item_node list_result_loop mbind option_bind value_at].
  - destruct (Hrest d Hw Hv) as (d' & E & Hw' & Hp & Hr & Hc). exists d'. split_and!; try done; try apply Hp.
    intros c. rewrite Hc. by destruct (value_at l data c).
  - assert (is_Some (vars d !! class x)) as [a Ha] by (apply Hv; apply list_elem_of_here).
    cbn [strval mbind option_bind]. rewrite variable_get, Ha by done. cbn [mbind option_bind].
    destruct (define_spec d x (new_oejcl_str_ast STRING v) Hw) as [Hw1 Hm1].
    destruct (Hrest (define d x (new_oejcl_str_ast STRING v)) Hw1) as (d' & E & Hw' & Hp & Hr & Hc).
    { intros y Hy. rewrite Hm1. destruct (decide (class x = class y)) as [<-|Hxy]; [by rewrite lookup_insert_eq|].
      rewrite lookup_insert_ne by done. apply Hv. by apply list_elem_of_further. }
    exists d'. split_and!; try done; try apply Hp. intros c. rewrite Hc, Hm1.
    destruct (value_at l data c); [done|]. destruct (decide (class x = c)) as [<-|Hxc].
    + by rewrite lookup_insert_eq.
    + by rewrite lookup_insert_ne.
Qed.

Lemma value_at_Some l : ∀ data x,
  x ∈ names l → (length l ≤ length data)%nat → is_Some (value_at l data (class x)).
Proof.
  induction l as [|i l IH]; intros data x Hx Hl; [by apply not_elem_of_nil in Hx|].
  destruct data as [|v data]; [cbn in Hl; lia|]. cbn [value_at length] in *.
  destruct (value_at l data (class x)) eqn:E; [done|]. destruct i as [s|y].
  - destruct (IH data x Hx ltac:(lia)) as [w Hw]. congruence.
  - apply elem_of_cons in Hx as [<-|Hx]; [by rewrite decide_True|].
    destruct (IH data x Hx ltac:(lia)) as [w Hw]. congruence.
Qed.

Lemma get_object_items d t l : l ≠ [] →
  _get_data_object d (Node t (items_node l) NULL) = data_loop d DataObject_new (items_node l).
Proof. destruct l as [|[s|x] l]; done. Qed.

Definition get_of (o : DataObject) : GetCmd :=
  mkGetCmd 0 1 (OE_GET_CMD_TUPLE + OE_GET_CMD_RET_ATTRS + OE_GET_CMD_RET_BYTES) (Some [o]).

Lemma decode_read d d' l o cid :
  id_ok cid → l ≠ [] → data_loop d DataObject_new (items_node l) = Some (d', Some o) →
  _msg_create d (Node READ (args_tree [A_num CORRELATION_ID cid]) (Node LIST (items_node l) NULL)) =
    Some (d', Some (mkOekMsg GET_CMD cid 0 true (D_get_cmd (get_of o)))).
Proof.
  intros Hc Hl E. cbn -[_get_data_object items_node]. unfold _get_data_object_list.
  rewrite get_object_items, E, oe_id_ok by done. reflexivity.
Qed.

Lemma decode_write d d' l o cid :
  id_ok cid → l ≠ [] → data_loop d DataObject_new (items_node l) = Some (d', Some o) →
  _msg_create d (Node WRITE (args_tree [A_num CORRELATION_ID cid]) (Node LIST (items_node l) NULL)) =
    Some (d', Some (mkOekMsg PUT_CMD cid 0 true (D_put_cmd (mkPutCmd 0 true (Some o))))).
Proof.
  intros Hc Hl E. cbn -[_get_data_object items_node].
  rewrite get_object_items, E, oe_id_ok by done. reflexivity.
Qed.

Lemma result_of_read d args l r res :
  l ≠ [] → OekMsg_get_get_res res = Some r → object_wf (GetRes_get_data r) → result d = Some res →
  _set_variables_from_result d (Node READ args (Node LIST (items_node l) NULL)) =
    list_result_loop d (strings (GetRes_get_data r)) (items_node l).
Proof.
  intros Hl Hr Hwf Hres. unfold _set_variables_from_result, _set_variables_from_get_result, _set_variables_from_get_list_result.
  cbn [nodetype right left mbind option_bind]. rewrite Hres. cbn [mbind option_bind].
  assert (OekMsg_get_type res = GET_RES) as Hty.
  { unfold OekMsg_get_get_res in Hr. unfold OekMsg_get_type. destruct (decide (mtype res = GET_RES)) as [E|E]; [done|].
    by rewrite bool_decide_eq_false_2 in Hr. }
  rewrite bool_decide_eq_true_2 by done. cbn [c_assert mbind option_bind]. rewrite Hr.
  assert (iterated (GetRes_get_data r) = Some (strings (GetRes_get_data r))) as E by by apply drain_object.
  destruct l as [|[s|x] l]; [done|..]; cbn [items_node foldr item_node mbind option_bind]; by rewrite E.
Qed.

(** A batch that reads with the tuple [l] and then writes the tuple [k] *)
Definition read_then_write (l k : list item) (rid wid : Z) : ast :=
  Node STMT (Node READ (args_tree [A_num CORRELATION_ID rid]) (Node LIST (items_node l) NULL))
    (Node STMT (Node WRITE (args_tree [A_num CORRELATION_ID wid]) (Node LIST (items_node k) NULL)) NULL).

(** What a read returns reaches the write that follows: in a batch that
    reads a tuple with variables, told apart by their hashes, the read is sent
    with a place holder for each, and once its result is handed back the write
    is sent with the values that stand at their places. *)
Theorem read_fills_write l k rid wid t res r :
  SKeyTable_new 100 = Some t → id_ok rid → id_ok wid →
  names l ≠ [] → k ≠ [] → NoDup (class <$> names l) → (∀ x, x ∈ names k → x ∈ names l) →
  OekMsg_get_get_res res = Some r → object_wf (GetRes_get_data r) →
  (length l ≤ length (strings (GetRes_get_data r)))%nat →
  ∃ d1 d2 get put,
    OeJclDecoder_next_cmd (mkT false (read_then_write l k rid wid) NULL t None) None =
      Some (d1, Some (mkOekMsg GET_CMD rid 0 true (D_get_cmd get))) ∧
    get_value_lists get = Some [received_object (placeholder <$> l)] ∧
    OeJclDecoder_next_cmd d1 (Some res) = Some (d2, Some (mkOekMsg PUT_CMD wid 0 true (D_put_cmd put))) ∧
    put_data put = Some (received_object
      (resolved (λ x, default "" (value_at l (strings (GetRes_get_data r)) (class x))) <$> k)).
Proof.
  intros Ht Hrid Hwid Hl Hk Hnd Hsub Hres Hwf Hlen.
  assert (l ≠ []) as Hne by by intros ->.
  destruct (table_new_wf 100 t Ht) as [Hw0 Hm0].
  set (rnode := Node STMT (Node READ (args_tree [A_num CORRELATION_ID rid]) (Node LIST (items_node l) NULL))
    (Node STMT (Node WRITE (args_tree [A_num CORRELATION_ID wid]) (Node LIST (items_node k) NULL)) NULL)).
  set (d0 := mkT false (Node STMT (Node WRITE (args_tree [A_num CORRELATION_ID wid]) (Node LIST (items_node k) NULL)) NULL)
    rnode t None).
  destruct (data_loop_fresh l d0 DataObject_new Hw0 Hne Hnd) as (d1 & E1 & Hw1 & (Pn & Pp & Pr) & Hr1 & Hc1).
  { intros x _. change (vars d0) with (tmap t). by rewrite Hm0, lookup_empty. }
  rewrite (fold_add_attr _ []) in E1.
  destruct (list_result_spec l (with_result d1 (Some res)) (strings (GetRes_get_data r)) Hw1 Hne)
    as (d2 & E2 & Hw2 & (Qn & Qp & Qr) & Hr2 & Hc2).
  { intros x Hx. change (vars (with_result d1 (Some res))) with (vars d1). rewrite Hc1, decide_True; [done|].
    by apply list_elem_of_fmap_2. }
  set (d3 := with_nodes d2 NULL (next_node d0)).
  pose proof (data_loop_bound d3 (λ x, default "" (value_at l (strings (GetRes_get_data r)) (class x))) k
    DataObject_new Hw2 Hk) as E3. rewrite (fold_add_attr _ []) in E3.
  exists d1, d3, (get_of (received_object (placeholder <$> l))), (mkPutCmd 0 true
    (Some (received_object (resolved (λ x, default "" (value_at l (strings (GetRes_get_data r)) (class x))) <$> k)))).
  split_and!; [|done| |done].
  - exact (decode_read d0 d1 l _ rid Hrid Hne E1).
  - unfold OeJclDecoder_next_cmd. rewrite Pn. cbn [next_cmd next_node d0 mbind option_bind c_assert].
    change (resolve_from_results (with_result d1 (Some res))) with (resolve_from_results d1).
    rewrite Hr1, bool_decide_eq_false_2 by done. cbn [orb negb resolve_from_results d0].
    change (prev_node (with_result d1 (Some res))) with (prev_node d1). rewrite Pp. cbn [prev_node d0 rnode left mbind option_bind].
    rewrite (result_of_read _ _ l r res) by done. rewrite E2. cbn [mbind option_bind nodetype].
    rewrite decide_False by done. 
    apply (decode_write _ _ k); [done|done|]. apply E3. intros x Hx.
    change (vars d3) with (vars d2). rewrite Hc2. by destruct (value_at_Some l _ x (Hsub x Hx) Hlen) as [v ->].
Qed.

Section batch_witness.
#[local] Definition demo_template : list item := [Lit "account"; Var "who"].
#[local] Definition demo_write : list item := [Lit "seen"; Var "who"].
#[local] Definition demo_res : GetRes := mkGetRes 1 TUPLE (Some (received_object ["account"; "alice"])).
#[local] Definition demo_result : OekMsg := mkOekMsg GET_RES 1 0 true (D_get_res demo_res).

Lemma read_fills_write_witness :
  ∃ t d1 d2 get put,
    OeJclDecoder_next_cmd (mkT false (read_then_write demo_template demo_write 1 2) NULL t None) None =
      Some (d1, Some (mkOekMsg GET_CMD 1 0 true (D_get_cmd get))) ∧
    get_value_lists get = Some [received_object ["account"; "_"]] ∧
    OeJclDecoder_next_cmd d1 (Some demo_result) = Some (d2, Some (mkOekMsg PUT_CMD 2 0 true (D_put_cmd put))) ∧
    put_data put = Some (received_object ["seen"; "alice"]).
Proof.
  eexists. eapply (read_fills_write demo_template demo_write 1 2 _ demo_result demo_res).
  - reflexivity.
  - unfold id_ok. lia.
  - unfold id_ok. lia.
  - done.
  - done.
  - apply list.NoDup_singleton.
  - done.
  - reflexivity.
  - split; [done|by intros [? ?]].
  - cbn. lia.
Defined.
End batch_witness.
