(* ===== verification/Net.v ===== *)
(** * Net: messages on a byte stream

    Models [src/corelib/OeNetConn.c], the operations a connection is made of;
    [OeLibeventConnFactory.c], which implements them with the buffers of
    libevent; and [OeJclNet.c] and [JsonNet.c], which cut messages out of the
    stream and put them into it.  A message ends at the first empty line, that
    is, two newlines in a row.

    The buffered socket of libevent is a parameter, the class [Bufferevent]:
    what has arrived and was not read, and what was written.  The documented
    behaviour of its calls is [BuffereventSpec].  A byte of a block that was
    never written is [None]; a value read from it, like a failed assertion or an
    access outside a block, makes the whole call [None].

    [NetSpec] states what the two protocols promise over this. *)

From S2P Require Import Prelude Values Collections Messages CJson JsonMsg HashTable JclText Jcl.
Import Str.

Open Scope oes_scope.

(** ** The buffers of libevent *)

Class Bufferevent (B : Type) := {
  evbuffer_get_length : B → Z;               (* of the input *)
  evbuffer_copyout : B → Z → list Z;         (* from its front; nothing is removed *)
  bufferevent_read : B → Z → list Z * B;     (* removes what it returns *)
  bufferevent_write : B → list Z → Z * B
}.

Class BuffereventSpec (B : Type) `{Bufferevent B} := {
  input : B → list Z;
  output : B → list Z;
  get_length_spec b : evbuffer_get_length b = Z.of_nat (length (input b));
  copyout_spec b n : 0 ≤ n → evbuffer_copyout b n = take (Z.to_nat n) (input b);
  read_spec b n : 0 ≤ n → ∃ b', bufferevent_read b n = (take (Z.to_nat n) (input b), b') ∧
    input b' = drop (Z.to_nat n) (input b) ∧ output b' = output b;
  write_spec b l : ∃ b', bufferevent_write b l = (0, b') ∧ output b' = output b ++ l ∧ input b' = input b
}.

(** ** Numbers in text *)

(** [atol], on a block that need not be written to its end *)
Fixpoint atol_digits (n : Z) (l : list (option Z)) : option Z :=
  match l with
  | Some c :: l => if c_digit c then atol_digits (n * 10 + (c - 48)) l else Some n
  | _ => None
  end.
Fixpoint atol (l : list (option Z)) : option Z :=
  match l with
  | Some c :: r =>
    if c_space c then atol r
    else
      n ← (if c =? 45 then Z.opp <$> atol_digits 0 r
           else if c =? 43 then atol_digits 0 r else atol_digits 0 l);
      Some (Z.max (- 2 ^ 63) (Z.min n (2 ^ 63 - 1)))
  | _ => None
  end.

Section net.
Context {B : Type} `{Bufferevent B} `{BP : BisonParser}.

(** ** OeNetConn.c *)

Record OeNetConn := mkNetConn {
  get_pos_fun : B → list Z → option Z;
  available_fun : B → Z;
  read_fun : B → Z → list Z * B;
  write_fun : B → list Z → Z * B;
  peek_fun : B → Z → Z → option (list (option Z));
  conn_obj : option B
}.
Definition OeNetConn_new get_pos available read write peek : OeNetConn :=
  mkNetConn get_pos available read write peek None.
Definition oenetconn_set_conn_obj (c : OeNetConn) (b : B) : OeNetConn :=
  mkNetConn (get_pos_fun c) (available_fun c) (read_fun c) (write_fun c) (peek_fun c) (Some b).
Definition oenetconn_get_conn_obj (c : OeNetConn) : option B := conn_obj c.

Definition OeNetConn_get_pos (c : OeNetConn) (needle : list Z) : option Z :=
  b ← oenetconn_get_conn_obj c; get_pos_fun c b needle.
Definition OeNetConn_available (c : OeNetConn) : option Z :=
  b ← oenetconn_get_conn_obj c; Some (available_fun c b).
Definition OeNetConn_read (c : OeNetConn) (size : Z) : option (list Z * OeNetConn) :=
  b ← oenetconn_get_conn_obj c;
  let '(data, b) := read_fun c b size in Some (data, oenetconn_set_conn_obj c b).
Definition OeNetConn_write (c : OeNetConn) (buffer : list Z) : option (Z * OeNetConn) :=
  b ← oenetconn_get_conn_obj c;
  let '(rc, b) := write_fun c b buffer in Some (rc, oenetconn_set_conn_obj c b).
Definition OeNetConn_peek (c : OeNetConn) (pos len : Z) : option (list (option Z)) :=
  b ← oenetconn_get_conn_obj c; peek_fun c b pos len.

(** ** OeLibeventConnFactory.c *)

(** The block has [len + 1] zeroed bytes; [tmp] is an array of [tsz] bytes on
    the stack, which must not be empty and in which only what has arrived is
    written. *)
Definition _peek (b : B) (pos len : Z) : option (list (option Z)) :=
  let len := if len <=? 0 then evbuffer_get_length b else len in
  _ ← c_assert (0 <? i64 (u64 (len + 1)));
  let tsz := i32 (u64 (pos + len)) in
  _ ← c_assert (0 <? tsz);
  let copied := Some <$> evbuffer_copyout b tsz in
  let tmp := copied ++ replicate (Z.to_nat tsz - length copied) None in
  _ ← c_assert (pos + len <=? tsz);
  Some (take (Z.to_nat len) (drop (Z.to_nat pos) tmp) ++ [Some 0]).

(** The offset of the needle, or -1.  The block with the peeked bytes is only
    released when the needle was found. *)
Definition _get_pos (b : B) (needle : list Z) : option Z :=
  let blen := evbuffer_get_length b in
  tmp ← _peek b 0 0;
  hay ← mapM id (take (Z.to_nat blen) tmp);
  match oe_memmem hay needle with
  | None => Some (-1)
  | Some pos => Some (i32 (Z.of_nat pos))
  end.
Definition _available (b : B) : Z := evbuffer_get_length b.
Definition _read (b : B) (size : Z) : list Z * B := bufferevent_read b size.
Definition _write (b : B) (buffer : list Z) : Z * B := bufferevent_write b buffer.

Definition OeLibeventConnFactory_create : OeNetConn := OeNetConn_new _get_pos _available _read _write _peek.

(** ** OeJclNet.c *)

Definition MSG_END_BYTES : list Z := [10; 10].

(** The bytes of [input] up to the first NUL, of which the last is one; what
    the read left unwritten must not be reached. *)
Definition input_text (data : list Z) (input_sz : Z) : option string :=
  l ← mapM id (take (S (length data)) ((Some <$> data) ++
        replicate (Z.to_nat input_sz - length data) None ++ [Some 0]));
  c_string l.

Definition OeJclNet_read_msg (usable : nat → nat) (conn : OeNetConn) : option (Z * option OekMsg * OeNetConn) :=
  avail ← OeNetConn_available conn;
  if avail =? 0 then Some (0, None, conn)
  else
    pos ← OeNetConn_get_pos conn MSG_END_BYTES;
    if pos <? 0 then Some (0, None, conn)
    else
      let input_sz := pos + 2 in
      '(data, conn) ← OeNetConn_read conn input_sz;
      input ← input_text data input_sz;
      decoder ← OeJclDecoder.OeJclDecoder_new usable (bytes_of input);
      match decoder with
      | None => Some (-1, None, conn)
      | Some decoder =>
        '(_, msg) ← OeJclDecoder.OeJclDecoder_next_cmd decoder None;
        match msg with
        | None => Some (-1, None, conn)
        | Some msg => Some (1, Some msg, conn)
        end
      end.

(** [peek_cid]: the return code and the id it stores *)
Definition peek_cid (tag : list Z) (offset : Z) (connected : bool) (conn : OeNetConn) : option (Z * option Z) :=
  avail ← OeNetConn_available conn;
  let avail := i32 avail in
  pos ← OeNetConn_get_pos conn tag;
  if pos <? 0 then if connected then Some (0, None) else Some (1, Some 1)
  else
    let lpos := pos + offset in
    let llen := lpos + 8 in
    let llen := if llen <? avail then llen else avail - lpos - 1 in
    peekdata ← OeNetConn_peek conn lpos (u64 llen);
    cid ← atol peekdata;
    Some (1, Some (u64 cid)).

Definition OeJclNet_CID_TAG : list Z := bytes_of "cid=".
Definition OeJclNet_peek_cid := peek_cid OeJclNet_CID_TAG 4.

Definition OeJclNet_write_msg (conn : OeNetConn) (msg : OekMsg) : option (Z * OeNetConn) :=
  buff ← OeJclEncoder_msg_serialize msg;
  match buff with
  | None => Some (-1, conn)
  | Some buff =>
    '(rc, conn) ← OeNetConn_write conn (bytes_of buff);
    _ ← c_assert (rc =? 0);
    '(rc, conn) ← OeNetConn_write conn MSG_END_BYTES;
    _ ← c_assert (rc =? 0);
    Some (rc, conn)
  end.

(** ** JsonNet.c *)

Definition JsonNet_read_msg (pow10 : Z → Dbl.double) (conn : OeNetConn) : option (Z * option OekMsg * OeNetConn) :=
  avail ← OeNetConn_available conn;
  if avail =? 0 then Some (0, None, conn)
  else
    pos ← OeNetConn_get_pos conn MSG_END_BYTES;
    if pos <? 0 then Some (0, None, conn)
    else
      let input_sz := pos + 2 in
      '(data, conn) ← OeNetConn_read conn input_sz;
      input ← input_text data input_sz;
      r ← json_msg_create pow10 (bytes_of input);
      match r with
      | inl _ => Some (-1, None, conn)
      | inr msg => Some (1, Some msg, conn)
      end.

Definition JsonNet_CID_TAG : list Z := bytes_of "cid" ++ [34; 58].
(** The digits begin after the tag and the tab the printer puts there. *)
Definition JsonNet_peek_cid := peek_cid JsonNet_CID_TAG 6.

Definition JsonNet_write_msg (conn : OeNetConn) (msg : OekMsg) : option (Z * OeNetConn) :=
  '(rc, buff) ← json_msg_serialize msg;
  _ ← c_assert (rc =? 0);
  buff ← buff;
  buff ← c_string (buff ++ [0]);
  buff ← oec_str_concat [buff; string_of_bytes MSG_END_BYTES];
  '(rc, conn) ← OeNetConn_write conn (bytes_of buff);
  _ ← c_assert (rc =? 0);
  Some (rc, conn).
End net.
