(* ===== verification/NetSpec.v ===== *)
(** * NetSpec: what a stream of messages delivers

    The class [Wire] states what a protocol promises over a connection: what it
    writes for a message, and what it reads from the bytes that have arrived.
    [stream_delivers] is proved against it, for any division of the bytes into
    arrivals.  The instances are [jcl_wire] and [json_wire]; the identifiers
    that a client peeks at are the subject of [jcl_peek_finds]. *)

From S2P Require Import Prelude Values Collections Messages CJson JsonMsg HashTable JclText JclParser Jcl JclSpec Net.
Import Str.

Open Scope oes_scope.

(** ** The connection *)

Section connection.
Context {B : Type} `{BuffereventSpec B}.

(** A connection on a socket of libevent *)
Definition conn (b : B) : OeNetConn := oenetconn_set_conn_obj OeLibeventConnFactory_create b.
Definition fits (b : B) : Prop := Z.of_nat (length (input b)) < 2 ^ 31 - 1.

Lemma available_ok b : OeNetConn_available (conn b) = Some (Z.of_nat (length (input b))).
Proof. unfold OeNetConn_available. cbn. unfold _available. by rewrite get_length_spec. Qed.

(** A peek shows what has arrived, and unwritten bytes behind it. *)
Lemma peek_ok b pos len :
  0 ≤ pos → 0 < len → pos + len < 2 ^ 31 →
  _peek b pos len = Some (((λ i, input b !! i) <$> seq (Z.to_nat pos) (Z.to_nat len)) ++ [Some 0]).
Proof.
  intros Hpos Hlen Hlim. unfold _peek. rewrite (proj2 (Z.leb_gt len 0)) by lia.
  unfold wrapu. rewrite !Z.mod_small by lia. rewrite !wraps_id by (unfold in_s; lia).
  rewrite (proj2 (Z.ltb_lt 0 (len + 1))) by lia. rewrite (proj2 (Z.ltb_lt 0 (pos + len))) by lia.
  rewrite Z.leb_refl. cbn [c_assert mbind option_bind]. rewrite copyout_spec by lia. do 2 f_equal.
  apply list_eq. intros i. rewrite list_lookup_fmap.
  destruct (decide (i < Z.to_nat len)%nat) as [Hi|Hi].
  - rewrite lookup_take_lt, lookup_drop, lookup_seq_lt by lia. cbn [fmap option_fmap option_map].
    destruct (decide (Z.to_nat pos + i < length (input b))%nat) as [Hb|Hb].
    + rewrite lookup_app_l by (rewrite length_fmap, length_take; lia).
      rewrite list_lookup_fmap, lookup_take_lt by lia. by destruct (lookup_lt_is_Some_2 (input b) _ Hb) as [x ->].
    + rewrite lookup_app_r by (rewrite length_fmap, length_take; lia).
      rewrite lookup_replicate_2 by (rewrite length_fmap, length_take; lia). by rewrite lookup_ge_None_2 by lia.
  - rewrite lookup_take_ge, lookup_seq_ge by lia. done.
Qed.

Lemma seq_lookup (l : list Z) : (λ i, l !! i) <$> seq 0 (length l) = Some <$> l.
Proof.
  apply list_eq. intros i. rewrite !list_lookup_fmap. destruct (decide (i < length l)%nat) as [Hi|Hi].
  - rewrite lookup_seq_lt by done. cbn. by destruct (lookup_lt_is_Some_2 l i Hi) as [x ->].
  - by rewrite lookup_seq_ge, lookup_ge_None_2 by lia.
Qed.

Lemma known_all (l : list Z) : mapM id (Some <$> l) = Some l.
Proof. induction l as [|x l IH]; [done|]. cbn in *. by rewrite IH. Qed.

Lemma get_pos_ok b needle :
  fits b → input b ≠ [] →
  OeNetConn_get_pos (conn b) needle =
    Some (match oe_memmem (input b) needle with Some p => Z.of_nat p | None => -1 end).
Proof.
  intros Hb Hne. unfold fits in Hb. change (OeNetConn_get_pos (conn b) needle) with (_get_pos b needle). unfold _get_pos.
  assert (0 < length (input b))%nat by (destruct (input b); [done|cbn; lia]).
  assert (_peek b 0 0 = _peek b 0 (Z.of_nat (length (input b)))) as ->.
  { unfold _peek. cbn [Z.leb Z.compare]. rewrite (proj2 (Z.leb_gt _ 0)) by lia. by rewrite get_length_spec. }
  rewrite get_length_spec, peek_ok by lia. cbn [mbind option_bind]. rewrite Nat2Z.id. change (Z.to_nat 0) with 0%nat.
  rewrite seq_lookup, take_app_length' by (by rewrite length_fmap).
  rewrite known_all. cbn [mbind option_bind]. destruct (oe_memmem (input b) needle) as [p|] eqn:E; [|done].
  apply oe_memmem_sound in E as [_ E]. f_equal. apply wraps_id; [done|unfold in_s; lia].
Qed.

Lemma read_ok b k :
  (k ≤ length (input b))%nat →
  ∃ b', OeNetConn_read (conn b) (Z.of_nat k) = Some (take k (input b), conn b') ∧
    input b' = drop k (input b) ∧ output b' = output b.
Proof.
  intros Hk. destruct (read_spec b (Z.of_nat k)) as (b' & E & Hi & Ho); [lia|]. rewrite Nat2Z.id in *.
  exists b'. unfold OeNetConn_read. cbn. unfold _read. by rewrite E.
Qed.
Lemma conn_write_ok b l :
  ∃ b', OeNetConn_write (conn b) l = Some (0, conn b') ∧ output b' = output b ++ l ∧ input b' = input b.
Proof.
  destruct (write_spec b l) as (b' & E & Ho & Hi). exists b'. unfold OeNetConn_write. cbn. unfold _write. by rewrite E.
Qed.

Lemma input_text_ok l k : k = Z.of_nat (length l) → Forall (λ c, 0 < c < 256) l →
  ∃ s, input_text l k = Some s ∧ bytes_of s = l.
Proof.
  intros -> Hl. exists (string_of_bytes l). assert (bytes_of (string_of_bytes l) = l) as E.
  { apply bytes_of_string. eapply list.Forall_impl; [exact Hl|]. unfold is_byte. cbn. lia. }
  split; [|done]. unfold input_text. rewrite Nat2Z.id, Nat.sub_diag. cbn [replicate app].
  rewrite take_ge by (rewrite length_app, length_fmap; cbn; lia).
  change [Some 0] with (Some <$> [0]). rewrite <-fmap_app.
  rewrite known_all. cbn [mbind option_bind]. rewrite <-E at 1. apply c_string_bytes. intros Hin. rewrite E in Hin.
  rewrite list.Forall_forall in Hl. specialize (Hl 0 Hin). cbn in Hl. lia.
Qed.

(** What the readers of both protocols begin with *)
Lemma break_found b l rest :
  fits b → framed l → input b = l ++ 10 :: 10 :: rest →
  OeNetConn_available (conn b) = Some (Z.of_nat (length (input b))) ∧ length (input b) ≠ 0%nat ∧
  OeNetConn_get_pos (conn b) MSG_END_BYTES = Some (Z.of_nat (length l)) ∧
  ∃ b', OeNetConn_read (conn b) (Z.of_nat (length l) + 2) = Some (l ++ [10; 10], conn b') ∧
    input b' = rest ∧ output b' = output b.
Proof.
  intros Hb Hl Hin. assert (length (input b) = length l + S (S (length rest)))%nat as Hlen by (by rewrite Hin, length_app).
  split; [apply available_ok|]. split; [lia|]. split.
  - rewrite get_pos_ok by (done || by intros E; rewrite E in Hlen; cbn in Hlen; lia). unfold MSG_END_BYTES.
    by rewrite oe_memmem_break, Hin, line_break_framed.
  - destruct (read_ok b (length l + 2)) as (b' & E & Hi & Ho); [lia|].
    exists b'. rewrite Nat2Z.inj_add in E. change (Z.of_nat 2) with 2 in E. rewrite E, Hi.
    assert (input b = (l ++ [10; 10]) ++ rest) as -> by (by rewrite <-app_assoc).
    rewrite take_app_length', drop_app_length' by (rewrite length_app; cbn; lia). done.
Qed.
Lemma break_missing b :
  fits b → line_break (input b) = None → input b = [] ∨
  (length (input b) ≠ 0%nat ∧ OeNetConn_get_pos (conn b) MSG_END_BYTES = Some (-1)).
Proof.
  intros Hb Hn. destruct (decide (input b = [])) as [|Hne]; [by left|right]. split; [by destruct (input b)|].
  rewrite get_pos_ok by done. unfold MSG_END_BYTES. by rewrite oe_memmem_break, Hn.
Qed.
End connection.

(** ** What a protocol promises *)

Class Wire (B : Type) `{BuffereventSpec B} := {
  wire_read : OeNetConn → option (Z * option OekMsg * OeNetConn);
  wire_write : OeNetConn → OekMsg → option (Z * OeNetConn);
  goes : OekMsg → Prop;             (* the messages it can carry *)
  arrives : OekMsg → OekMsg;        (* and as what *)
  text : OekMsg → list Z;
  text_framed m : goes m → framed (text m);
  wire_write_ok b m : goes m → ∃ b', wire_write (conn b) m = Some (0, conn b') ∧
    output b' = output b ++ text m ++ [10; 10] ∧ input b' = input b;
  wire_read_none b : fits b → line_break (input b) = None → wire_read (conn b) = Some (0, None, conn b);
  wire_read_ok b m rest : goes m → fits b → input b = text m ++ 10 :: 10 :: rest →
    ∃ b', wire_read (conn b) = Some (1, Some (arrives m), conn b') ∧ input b' = rest ∧ output b' = output b
}.

Section loops.
Context {B : Type} `{BuffereventSpec B}.

(** Every message's text is followed by an empty line. *)
Definition stream_of (text : OekMsg → list Z) (ms : list OekMsg) : list Z :=
  concat ((λ m, text m ++ [10; 10]) <$> ms).

(** The messages are written one after the other. *)
Fixpoint send_all (write : OeNetConn (B := B) → OekMsg → option (Z * OeNetConn (B := B))) (c : OeNetConn (B := B)) (ms : list OekMsg) :
    option (OeNetConn (B := B)) :=
  match ms with
  | [] => Some c
  | m :: ms => '(rc, c) ← write c m; _ ← c_assert (rc =? 0); send_all write c ms
  end.

(** The reader is called until it finds no complete message, as the read
    callbacks of [OepServer.c] and [OepClient.c] do. *)
Fixpoint drain (read : OeNetConn (B := B) → option (Z * option OekMsg * OeNetConn (B := B))) (fuel : nat) (c : OeNetConn (B := B)) :
    option (list OekMsg * OeNetConn (B := B)) :=
  match fuel with
  | O => None
  | S fuel =>
    '(rc, msg, c) ← read c;
    if rc =? 0 then Some ([], c)
    else
      _ ← c_assert (rc =? 1); msg ← msg;
      '(ms, c) ← drain read fuel c;
      Some (msg :: ms, c)
  end.
(** The bytes come in pieces, and libevent calls back after each. *)
Fixpoint deliver (read : OeNetConn (B := B) → option (Z * option OekMsg * OeNetConn (B := B))) (arrive : B → list Z → B)
    (b : B) (pieces : list (list Z)) : option (list OekMsg * B) :=
  match pieces with
  | [] => Some ([], b)
  | l :: pieces =>
    let b := arrive b l in
    '(ms, c) ← drain read (S (length (input b))) (conn b);
    b ← oenetconn_get_conn_obj c;
    '(ms', b) ← deliver read arrive b pieces;
    Some (ms ++ ms', b)
  end.
End loops.

Section stream.
Context {B : Type} `{Wire B}.
(** More bytes arrive. *)
Context (arrive : B → list Z → B).
Context (arrive_input : ∀ b l, input (arrive b l) = input b ++ l).

Definition stream (ms : list OekMsg) : list Z := stream_of text ms.

Lemma send_all_ok ms : ∀ b, Forall goes ms →
  ∃ b', send_all wire_write (conn b) ms = Some (conn b') ∧ output b' = output b ++ stream ms.
Proof.
  induction ms as [|m ms IH]; intros b Hms; [exists b; unfold stream; by rewrite app_nil_r|].
  apply Forall_cons_1 in Hms as [Hm Hms]. destruct (wire_write_ok b m Hm) as (b1 & E & Ho & _).
  destruct (IH b1 Hms) as (b' & E' & Ho'). exists b'. cbn [send_all]. rewrite E. cbn [mbind option_bind].
  change (0 =? 0) with true. cbn [c_assert mbind option_bind]. split; [exact E'|].
  rewrite Ho', Ho. unfold stream, stream_of. cbn [fmap list_fmap concat]. by rewrite <-!app_assoc.
Qed.

(** The bytes of the first message are all there, or its end is missing. *)
Lemma prefix_stream m ms l : l `prefix_of` stream (m :: ms) →
  l `prefix_of` text m ++ [10] ∨ ∃ rest, l = text m ++ 10 :: 10 :: rest ∧ rest `prefix_of` stream ms.
Proof.
  intros [k Hk]. unfold stream, stream_of in Hk. cbn [fmap list_fmap concat] in Hk.
  destruct (decide (length l ≤ length (text m) + 1)%nat) as [Hl|Hl].
  - left. exists (drop (length l) (text m ++ [10])).
    rewrite <-(take_drop (length l) (text m ++ [10])) at 1. f_equal.
    assert (take (length l) (text m ++ [10; 10] ++ concat ((λ m, text m ++ [10; 10]) <$> ms)) = l) as E.
    { rewrite app_assoc, Hk. by rewrite take_app_length. }
    rewrite <-E at 2. change (text m ++ [10; 10] ++ ?x) with (text m ++ [10] ++ (10 :: x)).
    rewrite app_assoc, (take_app_le (text m ++ [10])); [done|]. rewrite length_app. cbn. lia.
  - right. assert (text m ++ [10; 10] = take (length (text m ++ [10; 10])) l) as E.
    { rewrite <-(take_app_le l k) by (rewrite length_app; cbn; lia). rewrite <-Hk. by rewrite take_app_length. }
    exists (drop (length (text m ++ [10; 10])) l). split.
    + rewrite <-(take_drop (length (text m ++ [10; 10])) l) at 1. rewrite <-E. by rewrite <-app_assoc.
    + exists k. apply (app_inv_head (text m ++ [10; 10])). unfold stream, stream_of. rewrite Hk, app_assoc. f_equal. rewrite E at 1. by rewrite take_drop.
Qed.

Lemma drain_ok ms : ∀ b fuel, Forall goes ms → input b `prefix_of` stream ms → fits b → (length (input b) < fuel)%nat →
  ∃ k b', drain wire_read fuel (conn b) = Some (arrives <$> take k ms, conn b') ∧ (k ≤ length ms)%nat ∧
    stream (take k ms) ++ input b' = input b ∧ line_break (input b') = None ∧ output b' = output b.
Proof.
  induction ms as [|m ms IH]; intros b [|fuel] Hms Hpre Hb Hf; [lia| |lia|].
  - assert (input b = []) as E by (by apply prefix_nil_inv in Hpre).
    exists 0%nat, b. cbn [drain]. rewrite wire_read_none by (done || by rewrite E). rewrite E. done.
  - apply Forall_cons_1 in Hms as [Hm Hms]. destruct (prefix_stream _ _ _ Hpre) as [Hpart|(rest & Hin & Hrest)].
    + pose proof (line_break_part _ _ (text_framed m Hm) Hpart) as Hn. exists 0%nat, b.
      cbn [drain]. rewrite wire_read_none by done. split_and!; [done|lia|done|done|done].
    + destruct (wire_read_ok b m rest Hm Hb Hin) as (b1 & E & Hi & Ho).
      destruct (IH b1 fuel Hms) as (k & b' & E' & Hk & Hs & Hn & Ho').
      { by rewrite Hi. } { unfold fits in *. rewrite Hi. rewrite Hin, length_app in Hb. cbn in Hb. lia. }
      { rewrite Hi. rewrite Hin, length_app in Hf. cbn in Hf. lia. }
      exists (S k), b'. cbn [drain]. rewrite E. cbn [mbind option_bind]. change (1 =? 0) with false.
      change (1 =? 1) with true. cbn [c_assert mbind option_bind]. rewrite E'. cbn [mbind option_bind take fmap list_fmap].
      split_and!; [done|cbn; lia| |done|congruence].
      rewrite Hin, <-Hi, <-Hs. unfold stream, stream_of. cbn [fmap list_fmap concat]. by rewrite <-!app_assoc.
Qed.

Lemma stream_app ms ms' : stream (ms ++ ms') = stream ms ++ stream ms'.
Proof. unfold stream, stream_of. by rewrite fmap_app, concat_app. Qed.

Lemma deliver_ok pieces : ∀ ms b, Forall goes ms →
  input b ++ concat pieces `prefix_of` stream ms → line_break (input b) = None →
  Z.of_nat (length (input b ++ concat pieces)) < 2 ^ 31 - 1 →
  ∃ k b', deliver wire_read arrive b pieces = Some (arrives <$> take k ms, b') ∧ (k ≤ length ms)%nat ∧
    stream (take k ms) ++ input b' = input b ++ concat pieces ∧ line_break (input b') = None.
Proof.
  induction pieces as [|l pieces IH]; intros ms b Hms Hpre Hn Hlen; cbn [concat deliver] in *.
  { exists 0%nat, b. rewrite app_nil_r. split_and!; [done|lia|done..]. }
  rewrite app_assoc in Hpre, Hlen. rewrite <-arrive_input in Hpre, Hlen.
  destruct (drain_ok ms (arrive b l) (S (length (input (arrive b l)))) Hms) as (k & b1 & E & Hk & Hs & Hn1 & _).
  { etrans; [|exact Hpre]. by apply prefix_app_r. } { unfold fits. rewrite length_app in Hlen. lia. } { lia. }
  rewrite E. cbn [mbind option_bind]. change (oenetconn_get_conn_obj (conn b1)) with (Some b1). cbn [mbind option_bind].
  rewrite <-(take_drop k ms) in Hms. apply Forall_app in Hms as [_ Hms'].
  destruct (IH (drop k ms) b1 Hms') as (j & b' & E' & Hj & Hs' & Hn'); [|done| |].
  { destruct Hpre as [r Hr]. exists r. apply (app_inv_head (stream (take k ms))).
    rewrite <-stream_app, take_drop, Hr. rewrite !app_assoc, Hs. done. }
  { rewrite <-Hs in Hlen. rewrite <-app_assoc, length_app in Hlen. lia. }
  exists (k + j)%nat, b'. rewrite E'. cbn [mbind option_bind]. rewrite length_drop in Hj.
  assert (take (k + j) ms = take k ms ++ take j (drop k ms)) as Et by (by rewrite take_take_drop).
  split_and!; [by rewrite Et, fmap_app|lia| |done].
  rewrite Et, stream_app, <-app_assoc, Hs', app_assoc, Hs, arrive_input. by rewrite <-app_assoc.
Qed.

(** However the bytes are divided into arrivals *)
Lemma wire_delivers (ms : list OekMsg) (sender receiver : B) (pieces : list (list Z))
    (Hms : Forall goes ms) (Hout : output sender = []) (Hin : input receiver = [])
    (Hlen : Z.of_nat (length (stream ms)) < 2 ^ 31 - 1) :
  ∃ sent, send_all wire_write (conn sender) ms = Some (conn sent) ∧
    (concat pieces `prefix_of` output sent →
     ∃ k b, deliver wire_read arrive receiver pieces = Some (arrives <$> take k ms, b) ∧
       stream (take k ms) ++ input b = concat pieces ∧ line_break (input b) = None ∧
       (concat pieces = output sent → take k ms = ms ∧ input b = [])).
Proof.
  destruct (send_all_ok ms sender Hms) as (sent & E & Ho). exists sent. split; [done|].
  rewrite Hout in Ho. cbn [app] in Ho. rewrite Ho. intros Hpre.
  destruct (deliver_ok pieces ms receiver Hms) as (k & b & Ed & Hk & Hs & Hn); [by rewrite Hin|by rewrite Hin| |].
  { rewrite Hin. cbn [app]. apply prefix_length in Hpre. lia. }
  rewrite Hin in Hs. exists k, b. split_and!; [done..|]. intros Hall. rewrite Hall in Hs.
  assert (input b = stream (drop k ms)) as E'.
  { apply (app_inv_head (stream (take k ms))). by rewrite Hs, <-stream_app, take_drop. }
  destruct (drop k ms) as [|m ms'] eqn:Ed'; 
    [split; [pose proof (take_drop k ms) as Htd; by rewrite Ed', app_nil_r in Htd|done]|].
  rewrite E' in Hn. unfold stream, stream_of in Hn. cbn [fmap list_fmap concat] in Hn. rewrite <-app_assoc in Hn. cbn [app] in Hn.
  rewrite line_break_framed in Hn; [done|]. apply text_framed. rewrite list.Forall_forall in Hms. apply Hms.
  rewrite <-(take_drop k ms), Ed'. apply elem_of_app. right. left.
Qed.
End stream.

(** ** Statements as messages on the stream *)

(** Neither an empty line nor a NUL *)
Definition clear (l : list Z) : Prop := opens l ∧ Forall (λ c, c ≠ 0) l.
Lemma clear_app l k : clear l → clear k → clear (l ++ k).
Proof. intros [H1 H2] [H3 H4]. split; [by apply opens_app|by apply Forall_app]. Qed.
Lemma clear_cons c l : c ≠ 0 → c ≠ 10 → clear l → clear (c :: l).
Proof. intros H0 H10 [[Hc _] Hn]. split; [by apply opens_cons|by constructor]. Qed.
Lemma clear_quiet l : quiet l → clear l.
Proof. intros H. split; [by apply quiet_framed|]. eapply list.Forall_impl; [exact H|]. cbn. lia. Qed.
Lemma clear_spelling k : clear (bytes_of (spelling k)).
Proof. apply clear_quiet. by destruct k; vm_compute; repeat constructor. Qed.

Definition calm_string (s : string) : Prop := calm (bytes_of s) = true.
Lemma clear_quoted s : plain s → calm_string s → clear (quoted_bytes s).
Proof.
  intros Hp Hc. split.
  - apply opens_cons; [done|]. by apply calm_snoc.
  - constructor; [done|]. apply Forall_app. split; [|by repeat constructor].
    eapply list.Forall_impl; [exact Hp|]. by intros c [? _].
Qed.

Section jcl.
Context `{BP : BisonParser} (usable : nat → nat).

Definition arg_calm (x : argument) : Prop := match x with A_str _ s => calm_string s | _ => True end.
Lemma clear_arg x : arg_ok usable x → arg_calm x → clear (arg_text x).
Proof.
  intros Hx Hc. unfold arg_text. apply clear_app; [apply clear_spelling|]. apply clear_cons; [done|done|].
  destruct x as [k n|k s|c]; [by apply clear_quiet, quiet_decimal| |apply clear_spelling].
  destruct Hx as [_ [Hx _]]. by apply clear_quoted.
Qed.
Lemma clear_args l : Forall (arg_ok usable) l → Forall arg_calm l → clear (args_text l).
Proof.
  induction 1 as [|x l Hx Hl IH]; intros Hc; [by apply clear_quiet; constructor|].
  apply Forall_cons_1 in Hc as [Hxc Hc]. pose proof (clear_arg x Hx Hxc). cbn [args_text].
  destruct l; [done|]. by apply clear_app, clear_cons, IH.
Qed.
Lemma clear_tuple l : Forall (quotable usable) l → Forall calm_string l → clear (tuple_text l).
Proof.
  induction 1 as [|s l [Hs _] Hl IH]; intros Hc; [by apply clear_quiet; constructor|].
  apply Forall_cons_1 in Hc as [Hsc Hc]. pose proof (clear_quoted s Hs Hsc). cbn [tuple_text].
  destruct l; [done|]. by apply clear_app, clear_cons, IH.
Qed.
Lemma clear_map l : Forall (quotable usable) l → Forall calm_string l → clear (map_text l).
Proof.
  induction l as [|k|k v l IH] using pairs_ind; intros Hl Hc; [by apply clear_quiet; constructor..|].
  apply Forall_cons_1 in Hl as [[Hk _] [[Hv _] Hl]%Forall_cons_1]. apply Forall_cons_1 in Hc as [Hkc [Hvc Hc]%Forall_cons_1].
  cbn [map_text]. apply clear_app; [by apply clear_quoted|]. do 2 (apply clear_cons; [done|done|]).
  apply clear_app; [by apply clear_quoted|]. destruct l; [by apply clear_quiet; constructor|].
  apply clear_cons; [done|done|]. by apply IH.
Qed.

Definition st_calm (s : statement) : Prop :=
  Forall arg_calm (st_args s) ∧ match st_data s with Some (_, l) => Forall calm_string l | None => True end.
Lemma statement_framed s : st_ok usable s → st_calm s → framed (st_text s) ∧ Forall (λ c, c ≠ 0) (st_text s).
Proof.
  destruct s as [k args dat]. intros (_ & Ha & Hd) [Hac Hdc]. cbn in *.
  assert (clear (bytes_of (spelling k) ++ 40 :: args_text args ++
    match dat with Some (tuple, l) => 32 :: attrs_text tuple l ++ [41] | None => [41] end)) as Hclear.
  { assert (clear [41]) by (by apply clear_quiet; repeat constructor).
    apply clear_app; [apply clear_spelling|]. apply clear_cons; [done|done|]. apply clear_app; [by apply clear_args|].
    destruct dat as [[tuple l]|]; [|done]. apply clear_cons; [done|done|]. apply clear_app; [|done].
    unfold attrs_text. apply clear_cons; [done|done|]. apply clear_app; [|by apply clear_quiet; repeat constructor].
    destruct Hd as [Hd _]. destruct tuple; [by apply clear_tuple|by apply clear_map]. }
  assert (st_text (Statement k args dat) = (bytes_of (spelling k) ++ 40 :: args_text args ++
    match dat with Some (tuple, l) => 32 :: attrs_text tuple l ++ [41] | None => [41] end) ++ [59]) as ->.
  { unfold st_text. cbn [st_kind st_args st_data]. rewrite <-app_assoc. cbn [app]. rewrite <-app_assoc.
    destruct dat as [[tuple l]|]; [cbn [app]; by rewrite <-app_assoc|done]. }
  destruct Hclear as [Ho Hn]. split; [by apply framed_snoc|]. apply Forall_app. split; [done|by repeat constructor].
Qed.
Definition jcl_text (m : OekMsg) : list Z := st_text (statement_of m).
(** What the statement language carries, without an empty line in a string *)
Definition jcl_goes (m : OekMsg) : Prop := JclSpec.sendable usable m ∧ st_calm (statement_of m).

Lemma jcl_framed m : jcl_goes m → framed (jcl_text m) ∧ Forall (λ c, 0 < c < 256) (jcl_text m).
Proof.
  intros [Hm Hc]. destruct (statement_framed _ (sendable_statement usable m Hm) Hc) as [Hf Hn]. split; [done|].
  destruct (encode_statement usable m Hm) as (text & _ & Hb). pose proof (bytes_of_bytes text) as Hby.
  rewrite Hb in Hby. unfold jcl_text. rewrite list.Forall_forall in *. intros c Hin.
  specialize (Hn c Hin). specialize (Hby c Hin). unfold is_byte in Hby. cbn in Hn. lia.
Qed.

Lemma ended_bytes l : Forall (λ c, 0 < c < 256) l → Forall (λ c, 0 < c < 256) (l ++ [10; 10]).
Proof. intros Hl. apply Forall_app. split; [done|by repeat constructor]. Qed.

Section wire.
Context {B : Type} `{BuffereventSpec B}.

Lemma jcl_write_ok (b : B) m : jcl_goes m →
  ∃ b', OeJclNet_write_msg (conn b) m = Some (0, conn b') ∧
    output b' = output b ++ jcl_text m ++ [10; 10] ∧ input b' = input b.
Proof.
  intros [Hm _]. destruct (encode_statement usable m Hm) as (t & Et & Hb). unfold OeJclNet_write_msg. rewrite Et.
  destruct (conn_write_ok b (bytes_of t)) as (b1 & E1 & O1 & I1). destruct (conn_write_ok b1 MSG_END_BYTES) as (b2 & E2 & O2 & I2).
  exists b2. cbn [mbind option_bind]. rewrite E1. cbn [mbind option_bind]. change (0 =? 0) with true.
  cbn [c_assert mbind option_bind]. rewrite E2. cbn [mbind option_bind].
  split; [done|]. rewrite O2, O1, Hb, <-app_assoc. split; [done|congruence].
Qed.

Lemma jcl_read_none (b : B) : fits b → line_break (input b) = None → OeJclNet_read_msg usable (conn b) = Some (0, None, conn b).
Proof.
  intros Hb Hn. unfold OeJclNet_read_msg. rewrite available_ok. cbn [mbind option_bind].
  destruct (break_missing b Hb Hn) as [->|[Hne E]]; [done|].
  rewrite (proj2 (Z.eqb_neq _ 0)) by lia. rewrite E. done.
Qed.

Lemma jcl_read_ok (b : B) m rest : jcl_goes m → fits b → input b = jcl_text m ++ 10 :: 10 :: rest →
  ∃ b', OeJclNet_read_msg usable (conn b) = Some (1, Some (JclSpec.received m), conn b') ∧
    input b' = rest ∧ output b' = output b.
Proof.
  intros Hm Hb Hin. destruct (jcl_framed m Hm) as [Hf Hbytes].
  destruct (break_found b _ rest Hb Hf Hin) as (Ea & Hne & Ep & b' & Er & Hi & Ho). exists b'.
  unfold OeJclNet_read_msg. rewrite Ea. cbn [mbind option_bind]. rewrite (proj2 (Z.eqb_neq _ 0)) by lia.
  rewrite Ep. cbn [mbind option_bind]. rewrite (proj2 (Z.ltb_ge _ 0)) by lia. rewrite Er. cbn [mbind option_bind].
  destruct (input_text_ok (jcl_text m ++ [10; 10]) (Z.of_nat (length (jcl_text m)) + 2)) as (s & Es & Hs);
    [rewrite length_app; cbn; lia|by apply ended_bytes|].
  rewrite Es. cbn [mbind option_bind]. rewrite Hs.
  destruct (decoder_reads usable m [10; 10] (proj1 Hm) (lexes_newlines usable)) as (d & d' & Ed & En & _).
  unfold jcl_text. rewrite Ed. cbn [mbind option_bind]. rewrite En. done.
Qed.

Definition jcl_wire : Wire B := {|
  wire_read := OeJclNet_read_msg usable; wire_write := OeJclNet_write_msg;
  goes := jcl_goes; arrives := JclSpec.received; text := jcl_text;
  text_framed m Hm := proj1 (jcl_framed m Hm);
  wire_write_ok := jcl_write_ok; wire_read_none := jcl_read_none; wire_read_ok := jcl_read_ok
|}.
End wire.
End jcl.

(** ** JSON texts as messages on the stream *)

Section json.
Context (pow10 : Z → Dbl.double) (pow10_0 : pow10 0 = Dbl.Fin 1 0).
Context {B : Type} `{BuffereventSpec B}.

Definition json_text (m : OekMsg) : list Z :=
  match json_msg_serialize m with Some (_, Some l) => l | _ => [] end.
Definition json_goes (m : OekMsg) : Prop := msg_wf m ∧ JsonMsg.sendable m.

Lemma json_carried m : json_goes m →
  json_msg_serialize m = Some (0, Some (json_text m)) ∧ framed (json_text m) ∧ nonul (json_text m) ∧
  json_msg_create pow10 (json_text m ++ [10; 10]) = ok (JsonMsg.received m).
Proof.
  intros [Hwf Hs]. destruct (message_through pow10 m pow10_0 Hwf Hs) as (l & E & Hn & Hf & Hc).
  unfold json_text. rewrite E. split_and!; [done..|]. by apply Hc.
Qed.

Lemma json_write_ok (b : B) m : json_goes m →
  ∃ b', JsonNet_write_msg (conn b) m = Some (0, conn b') ∧
    output b' = output b ++ json_text m ++ [10; 10] ∧ input b' = input b.
Proof.
  intros Hm. destruct (json_carried m Hm) as (E & _ & Hn & _). unfold JsonNet_write_msg. rewrite E.
  cbn [mbind option_bind]. change (0 =? 0) with true. cbn [c_assert mbind option_bind].
  assert (bytes_of (string_of_bytes (json_text m)) = json_text m) as Eb.
  { apply bytes_of_string. eapply list.Forall_impl; [exact Hn|]. unfold is_byte. cbn. lia. }
  assert (c_string (json_text m ++ [0]) = Some (string_of_bytes (json_text m))) as ->.
  { rewrite <-Eb at 1. apply c_string_bytes. intros Hin. rewrite Eb in Hin. unfold nonul in Hn.
    rewrite list.Forall_forall in Hn. specialize (Hn 0 Hin). cbn in Hn. lia. }
  cbn [mbind option_bind].
  destruct (str_concat_bytes [string_of_bytes (json_text m); string_of_bytes MSG_END_BYTES]) as (t & -> & Ht);
    [cbn; lia| |].
  { cbn [fmap list_fmap concat]. rewrite Eb. intros E'. apply (f_equal length) in E'.
    rewrite length_app in E'. cbn in E'. lia. }
  cbn [mbind option_bind]. destruct (conn_write_ok b (bytes_of t)) as (b' & -> & Ho & Hi).
  exists b'. cbn [mbind option_bind]. change (0 =? 0) with true. split; [done|]. split; [|done].
  rewrite Ho, Ht. cbn [fmap list_fmap concat]. by rewrite Eb.
Qed.

Lemma json_read_none (b : B) : fits b → line_break (input b) = None → JsonNet_read_msg pow10 (conn b) = Some (0, None, conn b).
Proof.
  intros Hb Hn. unfold JsonNet_read_msg. rewrite available_ok. cbn [mbind option_bind].
  destruct (break_missing b Hb Hn) as [->|[Hne E]]; [done|].
  rewrite (proj2 (Z.eqb_neq _ 0)) by lia. rewrite E. done.
Qed.

Lemma json_read_ok (b : B) m rest : json_goes m → fits b → input b = json_text m ++ 10 :: 10 :: rest →
  ∃ b', JsonNet_read_msg pow10 (conn b) = Some (1, Some (JsonMsg.received m), conn b') ∧
    input b' = rest ∧ output b' = output b.
Proof.
  intros Hm Hb Hin. destruct (json_carried m Hm) as (_ & Hf & Hn & Ec).
  destruct (break_found b _ rest Hb Hf Hin) as (Ea & Hne & Ep & b' & Er & Hi & Ho). exists b'.
  unfold JsonNet_read_msg. rewrite Ea. cbn [mbind option_bind]. rewrite (proj2 (Z.eqb_neq _ 0)) by lia.
  rewrite Ep. cbn [mbind option_bind]. rewrite (proj2 (Z.ltb_ge _ 0)) by lia. rewrite Er. cbn [mbind option_bind].
  destruct (input_text_ok (json_text m ++ [10; 10]) (Z.of_nat (length (json_text m)) + 2)) as (s & Es & Hs);
    [rewrite length_app; cbn; lia|by apply ended_bytes|].
  rewrite Es. cbn [mbind option_bind]. rewrite Hs, Ec. done.
Qed.

Definition json_wire : Wire B := {|
  wire_read := JsonNet_read_msg pow10; wire_write := JsonNet_write_msg;
  goes := json_goes; arrives := JsonMsg.received; text := json_text;
  text_framed m Hm := proj1 (proj2 (json_carried m Hm));
  wire_write_ok := json_write_ok; wire_read_none := json_read_none; wire_read_ok := json_read_ok
|}.
End json.

(** ** Delivery *)

Section delivery.
Context {B : Type} `{BuffereventSpec B}.
Context (arrive : B → list Z → B).
Context (arrive_input : ∀ b l, input (arrive b l) = input b ++ l).

(** C11  Statements on a connection.  Messages that the statement language
    can carry and none of whose strings has an empty line are written with
    [OeJclNet_write_msg].  However the bytes that were written are divided into
    arrivals, calling [OeJclNet_read_msg] after each until it finds no message
    reads the messages in the order they were sent, each once, as soon as its
    last byte is there, and nothing else: of each what the language carries,
    which is [JclSpec.received].  When all bytes have arrived all messages have
    been read and no byte is left. *)
Theorem stream_delivers `{BP : BisonParser} (usable : nat → nat) (ms : list OekMsg) (sender receiver : B)
    (pieces : list (list Z)) (Hms : Forall (jcl_goes usable) ms) (Hout : output sender = []) (Hin : input receiver = [])
    (Hlen : Z.of_nat (length (stream_of jcl_text ms)) < 2 ^ 31 - 1) :
  ∃ sent, send_all OeJclNet_write_msg (conn sender) ms = Some (conn sent) ∧
    (concat pieces `prefix_of` output sent →
     ∃ k b, deliver (OeJclNet_read_msg usable) arrive receiver pieces = Some (JclSpec.received <$> take k ms, b) ∧
       stream_of jcl_text (take k ms) ++ input b = concat pieces ∧ line_break (input b) = None ∧
       (concat pieces = output sent → take k ms = ms ∧ input b = [])).
Proof. by apply (@wire_delivers _ _ _ (jcl_wire usable) arrive arrive_input). Qed.

End delivery.

(** ** Which request an answer belongs to *)

(** Answers, by their first word but one; the id follows. *)
Definition answer_heads : list string :=
  ["response(cmd=txn cid="; "response(cmd=write cid="; "response(cmd=read cid="; "response(cmd=take cid=";
   "response(cmd=commit cid="; "response(cmd=cancel cid="; "error(cid="].
Definition is_answer (m : OekMsg) : Prop :=
  match data m with
  | D_err _ | D_sta_res _ | D_put_res _ | D_get_res _ | D_upt_res _ | D_upl_res _ => True
  | _ => False
  end.

#[local] Ltac answer_as lit :=
  exists lit; do 2 eexists; split; [apply (bool_decide_unpack _); vm_compute; reflexivity|];
  split; [unfold arg_text; cbn [arg_kind]; repeat (rewrite <-app_assoc; cbn [app]); reflexivity|reflexivity].

Lemma answer_text m : is_answer m → ∃ lit c suffix,
  lit ∈ answer_heads ∧ jcl_text m = bytes_of lit ++ decimal (cor_id m) ++ c :: suffix ∧ c_digit c = false.
Proof.
  unfold is_answer, jcl_text, statement_of, response, st_text.
  destruct (data m) as [|e| |c|r|c|r|c|r|c|r|c|r|c|r]; try done; intros _; cbn [st_kind st_args st_data args_text].
  - answer_as "error(cid=".
  - answer_as "response(cmd=txn cid=".
  - case_decide; [answer_as "response(cmd=commit cid="|answer_as "response(cmd=cancel cid="].
  - answer_as "response(cmd=cancel cid=".
  - answer_as "response(cmd=write cid=".
  - destruct (GetRes_is_destroyed r); [answer_as "response(cmd=take cid="|answer_as "response(cmd=read cid="].
Qed.

(** The tag is found where the id is, although [oe_memmem] steps over four
    characters wherever it meets a [c]. *)
Lemma tag_found lit rest : lit ∈ answer_heads →
  oe_memmem (bytes_of lit ++ rest) OeJclNet_CID_TAG = Some (length (bytes_of lit) - 4)%nat.
Proof.
  unfold answer_heads. rewrite !elem_of_cons, elem_of_nil.
  intros [->|[->|[->|[->|[->|[->|[->|[]]]]]]]]; vm_compute; reflexivity.
Qed.
Lemma head_length lit : lit ∈ answer_heads → (10 ≤ length (bytes_of lit) ≤ 24)%nat.
Proof.
  unfold answer_heads. rewrite !elem_of_cons, elem_of_nil.
  intros [->|[->|[->|[->|[->|[->|[->|[]]]]]]]]; cbn; lia.
Qed.

(** [atol] on a written number *)
Lemma atol_digits_value l c tl : ∀ a, Forall (λ c, 48 ≤ c ≤ 57) l → c_digit c = false →
  atol_digits a ((Some <$> l) ++ Some c :: tl) = Some (digits_value a l).
Proof.
  induction l as [|d l IH]; intros a Hl Hc; cbn [fmap list_fmap app atol_digits digits_value]; [by rewrite Hc|].
  apply Forall_cons_1 in Hl as [Hd Hl]. cbn in Hd. replace (c_digit d) with true by (unfold c_digit; lia). by apply IH.
Qed.
Lemma atol_start d tl : 48 ≤ d ≤ 57 →
  atol (Some d :: tl) = n ← atol_digits 0 (Some d :: tl); Some (Z.max (- 2 ^ 63) (Z.min n (2 ^ 63 - 1))).
Proof.
  intros Hd. cbn [atol]. replace (c_space d) with false by (unfold c_space; lia).
  destruct (Z.eqb_spec d 45); [lia|]. destruct (Z.eqb_spec d 43); [lia|]. done.
Qed.
Lemma atol_decimal n c tl : small n → c_digit c = false → atol ((Some <$> decimal n) ++ Some c :: tl) = Some n.
Proof.
  intros Hn Hc. unfold small in Hn. destruct (decimal_shape n) as (d & l & -> & Hall & Hv).
  assert (48 ≤ d ≤ 57) as Hd by (by apply Forall_cons_1 in Hall as [Hd _]).
  destruct (Z.ltb_spec n 0).
  - change (atol ((Some <$> 45 :: d :: l) ++ Some c :: tl)) with
      (n ← Z.opp <$> atol_digits 0 ((Some <$> d :: l) ++ Some c :: tl); Some (Z.max (- 2 ^ 63) (Z.min n (2 ^ 63 - 1)))).
    rewrite atol_digits_value, Hv by done. cbn [fmap option_fmap option_map mbind option_bind]. f_equal. lia.
  - change ((Some <$> d :: l) ++ Some c :: tl) with (Some d :: ((Some <$> l) ++ Some c :: tl)). rewrite atol_start by lia.
    change (Some d :: ((Some <$> l) ++ Some c :: tl)) with ((Some <$> d :: l) ++ Some c :: tl).
    rewrite atol_digits_value, Hv by done. cbn [mbind option_bind]. f_equal. lia.
Qed.

(** What is peeked at from where [l] begins *)
Lemma window {A} (pre l : list A) len :
  (λ i, (pre ++ l) !! i) <$> seq (length pre) len = (Some <$> take len l) ++ replicate (len - length l) None.
Proof.
  apply list_eq. intros i. rewrite list_lookup_fmap. destruct (decide (i < len)%nat) as [Hi|Hi].
  - rewrite lookup_seq_lt by done. cbn. rewrite lookup_app_r by lia. replace (length pre + i - length pre)%nat with i by lia.
    destruct (decide (i < length l)%nat) as [Hl|Hl].
    + rewrite lookup_app_l by (rewrite length_fmap, length_take; lia). rewrite list_lookup_fmap, lookup_take_lt by done.
      by destruct (lookup_lt_is_Some_2 l i Hl) as [x ->].
    + rewrite lookup_app_r by (rewrite length_fmap, length_take; lia).
      rewrite lookup_replicate_2 by (rewrite length_fmap, length_take; lia). by rewrite lookup_ge_None_2 by lia.
  - rewrite lookup_seq_ge by lia. symmetry. apply lookup_ge_None_2.
    rewrite length_app, length_fmap, length_take, length_replicate. lia.
Qed.
Lemma atol_digits_open l tl : ∀ a, Forall (λ c, 48 ≤ c ≤ 57) l → atol_digits a ((Some <$> l) ++ None :: tl) = None.
Proof.
  induction l as [|d l IH]; intros a Hl; [done|]. cbn [fmap list_fmap app atol_digits].
  apply Forall_cons_1 in Hl as [Hd Hl]. cbn in Hd. replace (c_digit d) with true by (unfold c_digit; lia). by apply IH.
Qed.

Section peek.
Context {B : Type} `{BuffereventSpec B}.

(** The tag is at [pos] and the digits end before the last byte. *)
Lemma peek_cid_found (b : B) tag offset connected pre n c post p :
  fits b → 0 ≤ offset → small n → c_digit c = false → oe_memmem (input b) tag = Some p →
  input b = pre ++ (decimal n ++ [c]) ++ post → length pre = (p + Z.to_nat offset)%nat →
  (length (decimal n) < length pre + 8)%nat → Z.of_nat (length pre) < 2 ^ 29 →
  peek_cid tag offset connected (conn b) = Some (1, Some (u64 n)).
Proof.
  intros Hb Hoff Hn Hc Hp Hin Hpre Hdec Hlim. unfold peek_cid. rewrite available_ok. cbn [mbind option_bind].
  pose proof Hb as Hfit. unfold fits in Hfit.
  assert (length (input b) = length pre + (length (decimal n) + 1) + length post)%nat as Hlen.
  { rewrite Hin, !length_app. cbn [length]. lia. }
  rewrite (wraps_id 32) by (unfold in_s; lia).
  rewrite get_pos_ok by (done || by intros E; rewrite E in Hlen; cbn in Hlen; lia). rewrite Hp. cbn [mbind option_bind].
  rewrite (proj2 (Z.ltb_ge _ 0)) by lia. replace (Z.of_nat p + offset) with (Z.of_nat (length pre)) by lia.
  assert (0 < length (decimal n))%nat.
  { destruct (decimal_shape n) as (d & l & -> & _). destruct (n <? 0); cbn; lia. }
  set (llen := if _ <? _ then _ else _).
  assert (Z.of_nat (length (decimal n)) ≤ llen < 2 ^ 30 ∨
    (Z.of_nat (length (decimal n)) ≤ llen ∧ Z.of_nat (length pre) + llen < 2 ^ 31)) as Hll.
  { subst llen. destruct (Z.ltb_spec (Z.of_nat (length pre) + 8) (Z.of_nat (length (input b)))); lia. }
  unfold wrapu. rewrite (Z.mod_small llen) by lia.
  change (OeNetConn_peek (conn b) ?x ?y) with (_peek b x y). rewrite peek_ok by lia. cbn [mbind option_bind].
  rewrite Nat2Z.id, Hin, window. destruct (decide (Z.to_nat llen = length (decimal n))) as [El|El].
  - rewrite El. replace (_ - _)%nat with 0%nat by (rewrite !length_app; cbn; lia). rewrite <-(app_assoc (decimal n)), take_app_length.
    cbn [replicate app]. rewrite app_nil_r. by rewrite atol_decimal.
  - rewrite take_app. rewrite take_ge by (rewrite length_app; cbn; lia).
    rewrite !fmap_app, <-!app_assoc. cbn [fmap list_fmap app]. by rewrite atol_decimal.
Qed.
End peek.

Section answers.
Context {B : Type} `{BuffereventSpec B} (usable : nat → nat).

Lemma decimal_digits n : 0 ≤ n → ∃ c l, decimal n = c :: l ∧ Forall (λ c, 48 ≤ c ≤ 57) (c :: l) ∧ digits_value 0 (c :: l) = n.
Proof.
  intros Hn. destruct (decimal_shape n) as (c & l & -> & Hall & Hv). exists c, l.
  rewrite (proj2 (Z.ltb_ge n 0)) by lia. split_and!; [done..|lia].
Qed.
Lemma id_short n : id_ok n → (length (decimal n) ≤ 11)%nat.
Proof. intros Hn. unfold id_ok in Hn. apply decimal_length; cbn; lia. Qed.

(** Once an answer has arrived completely, whatever follows it, the client
    peeks at the correlation id of the request it answers; nothing is
    removed from the buffer. *)
Theorem jcl_peek_finds (b : B) (m : OekMsg) (rest : list Z) (connected : bool)
    (Hm : jcl_goes usable m) (Ha : is_answer m) (Hb : fits b)
    (Hin : input b = jcl_text m ++ 10 :: 10 :: rest) :
  OeJclNet_peek_cid connected (conn b) = Some (1, Some (cor_id m)).
Proof.
  destruct (answer_text m Ha) as (lit & c & suffix & Hlit & Ht & Hc). pose proof (head_length lit Hlit) as Hl.
  assert (id_ok (cor_id m)) as Hid by (by destruct Hm as [(_ & Hid & _) _]).
  pose proof (id_short _ Hid) as Hd. unfold id_ok in Hid.
  rewrite Ht, <-app_assoc in Hin.
  unfold OeJclNet_peek_cid. rewrite (peek_cid_found b _ _ _ (bytes_of lit) (cor_id m) c (suffix ++ 10 :: 10 :: rest) (length (bytes_of lit) - 4)%nat);
    [|done|lia|unfold small; lia|done| | | |lia|lia].
  - unfold wrapu. rewrite Z.mod_small by lia. done.
  - rewrite Hin. by apply tag_found.
  - rewrite Hin. f_equal. rewrite <-!app_assoc. done.
  - change (Z.to_nat 4) with 4%nat. lia.
Qed.

Lemma digits_value_range l : ∀ a, 0 ≤ a → Forall (λ c, 48 ≤ c ≤ 57) l →
  0 ≤ digits_value a l < (a + 1) * 10 ^ Z.of_nat (length l).
Proof.
  induction l as [|c l IH]; intros a Ha Hl; [cbn; lia|]. apply Forall_cons_1 in Hl as [Hc Hl]. cbn in Hc.
  cbn [digits_value length]. replace (c_digit c) with true by (unfold c_digit; lia).
  specialize (IH (a * 10 + (c - 48)) ltac:(lia) Hl). rewrite Nat2Z.inj_succ, Z.pow_succ_r by lia.
  pose proof (Z.pow_pos_nonneg 10 (Z.of_nat (length l)) ltac:(lia) ltac:(lia)). nia.
Qed.

(** Digits at the end of what has arrived *)
Lemma peek_end (b : B) pre ds len :
  input b = pre ++ ds → (0 < len)%nat → Z.of_nat (length pre + len) < 2 ^ 31 →
  _peek b (Z.of_nat (length pre)) (Z.of_nat len) =
    Some ((Some <$> take len ds) ++ replicate (len - length ds) None ++ [Some 0]).
Proof. intros Hin H1 H2. rewrite peek_ok by lia. by rewrite !Nat2Z.id, Hin, window, <-app_assoc. Qed.
Lemma atol_peeked ds len :
  Forall (λ c, 48 ≤ c ≤ 57) ds → ds ≠ [] → (length ds ≤ 18)%nat → (0 < len)%nat →
  atol ((Some <$> take len ds) ++ replicate (len - length ds) None ++ [Some 0]) =
    if decide (len ≤ length ds)%nat then Some (digits_value 0 (take len ds)) else None.
Proof.
  intros Hds Hne Hshort Hlen. destruct ds as [|d ds]; [done|]. destruct len as [|len]; [lia|].
  pose proof (Forall_take _ (S len) _ Hds) as Ht. pose proof (digits_value_range _ 0 ltac:(lia) Ht) as Hr.
  assert (10 ^ Z.of_nat (length (take (S len) (d :: ds))) ≤ 10 ^ 18) as Hp.
  { apply Z.pow_le_mono_r; [lia|]. rewrite length_take. lia. }
  change (10 ^ 18) with 1000000000000000000 in Hp.
  change ((Some <$> take (S len) (d :: ds)) ++ ?x) with (Some d :: ((Some <$> take len ds) ++ x)).
  rewrite atol_start by (by apply Forall_cons_1 in Hds as [? _]).
  change (Some d :: ((Some <$> take len ds) ++ ?x)) with ((Some <$> take (S len) (d :: ds)) ++ x). case_decide as E.
  - replace (S len - _)%nat with 0%nat by lia. cbn [replicate app]. rewrite atol_digits_value by done.
    cbn [mbind option_bind]. f_equal. lia.
  - destruct (S len - length (d :: ds))%nat eqn:E'; [lia|]. cbn [replicate app]. by rewrite atol_digits_open.
Qed.

(** Peeking while the id itself is still arriving: with two to eight of
    its digits there the client takes it for the id without the last of
    them, which is another one; with none or one of them, or with nine or
    more, an assertion fails or bytes are read that were never written. *)
Theorem jcl_peek_early (b : B) (m : OekMsg) (lit : string) (k : nat) (connected : bool)
    (Hid : id_ok (cor_id m)) (Hlit : lit ∈ answer_heads) (Hk : (k ≤ length (decimal (cor_id m)))%nat)
    (Hin : input b = bytes_of lit ++ take k (decimal (cor_id m))) :
  OeJclNet_peek_cid connected (conn b) =
    if decide (2 ≤ k ≤ 8)%nat then Some (1, Some (digits_value 0 (take (k - 1) (decimal (cor_id m))))) else None.
Proof.
  pose proof (id_short _ Hid) as Hd. pose proof (head_length lit Hlit) as Hl. unfold id_ok in Hid.
  destruct (decimal_digits (cor_id m) ltac:(lia)) as (c & l & El & Hall & Hv).
  set (ds := decimal (cor_id m)) in *. assert (length (input b) = length (bytes_of lit) + k)%nat as Hlen.
  { rewrite Hin, length_app, length_take. lia. }
  assert (fits b) as Hb by (unfold fits; lia).
  unfold OeJclNet_peek_cid, peek_cid. rewrite available_ok. cbn [mbind option_bind].
  rewrite (wraps_id 32) by (unfold in_s; lia).
  rewrite get_pos_ok by (done || by intros E; rewrite E in Hlen; cbn in Hlen; lia).
  rewrite Hin at 1. rewrite tag_found by done. cbn [mbind option_bind].
  rewrite (proj2 (Z.ltb_ge _ 0)) by lia.
  replace (Z.of_nat (length (bytes_of lit) - 4) + 4) with (Z.of_nat (length (bytes_of lit))) by lia.
  change (OeNetConn_peek (conn b) ?x ?y) with (_peek b x y). rewrite Hlen.
  assert (∀ n, (0 < n)%nat → (n < 100)%nat → (0 < k)%nat →
    (d ← _peek b (Z.of_nat (length (bytes_of lit))) (Z.of_nat n); cid ← atol d; Some (1, Some (u64 cid))) =
    if decide (n ≤ k)%nat then Some (1, Some (digits_value 0 (take n (take k ds)))) else None) as Hpeek.
  { intros n H1 H2 H3. rewrite (peek_end b (bytes_of lit) (take k ds) n Hin H1) by lia. cbn [mbind option_bind].
    assert (Forall (λ c, 48 ≤ c ≤ 57) (take k ds)) as Ht by (rewrite El; by apply Forall_take).
    assert (length (take k ds) = k) as Hlk by (rewrite length_take; lia).
    rewrite atol_peeked by (done || lia || by intros E0; rewrite E0 in Hlk; cbn in Hlk; lia). rewrite Hlk.
    case_decide as E; [|done]. cbn [mbind option_bind]. 
    pose proof (digits_value_range (take n (take k ds)) 0 ltac:(lia) (Forall_take _ n _ Ht)) as Hr.
    assert (10 ^ Z.of_nat (length (take n (take k ds))) ≤ 10 ^ 18) as Hp.
    { apply Z.pow_le_mono_r; [lia|]. rewrite length_take. lia. }
    change (10 ^ 18) with 1000000000000000000 in Hp. unfold wrapu. by rewrite Z.mod_small by lia. }
  destruct (Z.ltb_spec (Z.of_nat (length (bytes_of lit)) + 8) (Z.of_nat (length (bytes_of lit) + k))) as [Hw|Hw].
  - rewrite (wrapu_id 64 (Z.of_nat (length (bytes_of lit)) + 8)) by (unfold in_u; lia).
    replace (Z.of_nat (length (bytes_of lit)) + 8) with (Z.of_nat (length (bytes_of lit) + 8)) by lia.
    rewrite Hpeek by lia. rewrite decide_False by lia. by rewrite decide_False by lia.
  - replace (Z.of_nat (length (bytes_of lit) + k) - Z.of_nat (length (bytes_of lit)) - 1) with (Z.of_nat k - 1) by lia.
    destruct (decide (k = 0%nat)) as [->|]; [done|]. rewrite (wrapu_id 64 (Z.of_nat k - 1)) by (unfold in_u; lia).
    destruct (decide (k = 1%nat)) as [->|].
    + assert (_peek b (Z.of_nat (length (bytes_of lit))) (Z.of_nat 1 - 1) =
        _peek b (Z.of_nat (length (bytes_of lit))) (Z.of_nat (length (bytes_of lit) + 1))) as ->.
      { unfold _peek. rewrite (proj2 (Z.leb_gt (Z.of_nat (length (bytes_of lit) + 1)) 0)) by lia. change (Z.of_nat 1 - 1 <=? 0) with true.
        cbn iota. by rewrite get_length_spec, Hlen. }
      rewrite Hpeek by lia. rewrite decide_False by lia. by rewrite decide_False by lia.
    + replace (Z.of_nat k - 1) with (Z.of_nat (k - 1)) by lia. rewrite Hpeek by lia. rewrite decide_True by lia.
      rewrite decide_True by lia. rewrite take_take. by replace ((k - 1) `min` k)%nat with (k - 1)%nat by lia.
Qed.
End answers.

(** ** Applied: a buffer that is a pair of lists *)

#[local] Instance pair_event : Bufferevent (list Z * list Z) := {|
  evbuffer_get_length b := Z.of_nat (length b.1);
  evbuffer_copyout b n := take (Z.to_nat n) b.1;
  bufferevent_read b n := (take (Z.to_nat n) b.1, (drop (Z.to_nat n) b.1, b.2));
  bufferevent_write b l := (0, (b.1, b.2 ++ l))
|}.
#[local] Instance pair_spec : BuffereventSpec (list Z * list Z).
Proof.
  refine {| input b := b.1; output b := b.2 |}; [done|done|by intros b n _; eexists|by intros b l; eexists].
Defined.

Section demos.
#[local] Existing Instance descent_parser.
#[local] Definition room : nat → nat := JclSpec.demo_room.
#[local] Definition put_message : OekMsg := JclSpec.demo_message.
#[local] Definition answer_message : OekMsg := mkOekMsg STA_RES 421 9 true (D_sta_res StaRes_new).

Lemma put_goes : jcl_goes room put_message.
Proof. split; [apply JclSpec.demo_sendable|]. split; repeat constructor. Qed.
Lemma answer_goes : jcl_goes room answer_message.
Proof.
  split; [|by split; repeat constructor]. split; [reflexivity|]. split; [unfold id_ok; cbn; lia|].
  split; [unfold id_ok; cbn; lia|done].
Qed.

Definition pair_arrive (b : list Z * list Z) (l : list Z) : list Z * list Z := (b.1 ++ l, b.2).

(** Two messages in three arrivals, the first of which ends inside the first
    message and the second inside the second *)
Lemma stream_delivers_witness :
  let all := stream_of jcl_text [put_message; answer_message] in
  ∃ sent, send_all OeJclNet_write_msg (conn ([], [])) [put_message; answer_message] = Some (conn sent) ∧
    (concat [take 20 all; take 70 (drop 20 all); drop 90 all] `prefix_of` output sent →
     ∃ k b, deliver (OeJclNet_read_msg room) pair_arrive ([], []) [take 20 all; take 70 (drop 20 all); drop 90 all] =
         Some (JclSpec.received <$> take k [put_message; answer_message], b) ∧
       stream_of jcl_text (take k [put_message; answer_message]) ++ input b =
         concat [take 20 all; take 70 (drop 20 all); drop 90 all] ∧ line_break (input b) = None ∧
       (concat [take 20 all; take 70 (drop 20 all); drop 90 all] = output sent →
        take k [put_message; answer_message] = [put_message; answer_message] ∧ input b = [])).
Proof.
  intros all. apply (stream_delivers (B := list Z * list Z) pair_arrive ltac:(done) room
    [put_message; answer_message] ([], []) ([], [])).
  - apply list.Forall_cons_2; [apply put_goes|]. apply list.Forall_cons_2; [apply answer_goes|by constructor].
  - done.
  - done.
  - vm_compute. reflexivity.
Defined.

(** A string with an empty line, in JSON, byte by byte *)
Definition letter_message : OekMsg :=
  mkOekMsg OEK_ERR 0 0 true (D_err (mkOekErr 0 (Some (string_of_bytes [97; 10; 10; 98])))).
Lemma letter_goes : json_goes letter_message.
Proof.
  split; [done|]. split; [vm_compute; by split|]. split; [vm_compute; by split|].
  intros x [= <-]. by apply (bool_decide_unpack _).
Qed.
Definition demo_pow10 (n : Z) : Dbl.double := if n =? 0 then Dbl.Fin 1 0 else Dbl.Fin 0 0.


Lemma jcl_peek_finds_witness : OeJclNet_peek_cid false (conn (jcl_text answer_message ++ [10; 10], [])) = Some (1, Some 421).
Proof.
  apply (jcl_peek_finds room (_, []) answer_message [] false); [apply answer_goes|done|vm_compute; reflexivity|done].
Defined.

(** Of the id 421 the last digit is still missing. *)
Lemma jcl_peek_early_witness : OeJclNet_peek_cid false (conn (bytes_of "response(cmd=txn cid=42", [])) = Some (1, Some 4).
Proof.
  apply (jcl_peek_early (_, []) answer_message "response(cmd=txn cid=" 2 false);
    [unfold id_ok; cbn; lia|by left|vm_compute; lia|reflexivity].
Defined.

(** The search for the tag steps over four characters wherever it meets a [c],
    and never finds the one behind [connect]: the client goes on with the
    identifier 1. *)
Example connect_tag_missed :
  oe_memmem (bytes_of "response(cmd=connect cid=1 sid=5);") OeJclNet_CID_TAG = None ∧
  OeJclNet_peek_cid false (conn (bytes_of "response(cmd=connect cid=421 sid=5);", [])) = Some (1, Some 1) ∧
  OeJclNet_peek_cid true (conn (bytes_of "response(cmd=connect cid=421 sid=5);", [])) = Some (0, None).
Proof. by vm_compute. Qed.

(** A string may hold an empty line; the message is then cut there and the
    first part is refused, though the whole text is a statement. *)
Example empty_line_cuts :
  let text := bytes_of "error(cid=7 msg=" ++ [34; 97; 10; 10; 98; 34; 41; 59; 10; 10] in
  (λ r, match r with Some _ => true | None => false end) <$> OeJclDecoder.OeJclDecoder_new room text = Some true ∧
  (λ r, r.1.1) <$> OeJclNet_read_msg room (conn (text, [])) = Some (-1) ∧
  (λ r, r.1.1) <$> (r ← OeJclNet_read_msg room (conn (text, [])); OeJclNet_read_msg room r.2) = Some (-1).
Proof. by vm_compute. Qed.
End demos.
