(* ===== verification/Client.v ===== *)
(** * Client: the protocol client

    Models [src/corelib/oep_utils.c], which takes server addresses apart, and
    [src/corelib/OepClient.c]: commands that wait for answers are kept in a
    table under their correlation ids, and what arrives on the connection is
    handed to the command it answers.  [table.c] is the table of [HashTable];
    of [OeNet.c] the identifiers of sessions are modelled, of
    [OeLibevent2Factory.c] the end of a connection on the client's side.

    A context, with everything in its arena, belongs to whoever its callback
    answers from the moment the callback is called: from then on it is not in
    [contexts], and using it, its [ACContext] or the key that was allocated in
    its arena is [None], like a failed assertion or the use of a session or a
    table that was freed.

    The client's callbacks run on the thread of the event base; sending puts
    a job into its queue.  A run is a sequence of [event]s. *)

From S2P Require Import Prelude Values HashTable Collections Messages JclText Kernel Security Server Net.
Import Str AList ArenaTable.

Open Scope oes_scope.

(** ** Server addresses (oep_utils.c) *)

(** Offsets into the text of the address; the text ends with a NUL, behind
    which nothing may be read. *)
Definition _strip_proto_from_spec (spec : list Z) : option (option (list Z)) :=
  match memchr 58 spec with
  | None => Some None
  | Some i => if (i + 3 <=? length spec)%nat then Some (Some (drop (i + 3) spec)) else None
  end.

Definition oepu_get_extentname_from_spec (spec : list Z) : option (option (list Z)) :=
  hostspec ← _strip_proto_from_spec spec;
  match hostspec with
  | None => Some None
  | Some hostspec =>
    match memchr 47 hostspec with
    | None => Some None
    | Some len => Some (Some (take len (drop (len + 1) hostspec)))
    end
  end.

Definition oepu_get_hostname_from_spec (spec : list Z) : option (option (list Z)) :=
  hostspec ← _strip_proto_from_spec spec;
  match hostspec with
  | None => Some None
  | Some hostspec =>
    match memchr 58 hostspec with
    | None => Some None
    | Some len => Some (Some (take len hostspec))
    end
  end.

Definition oepu_get_port_from_spec (spec : list Z) : option Z :=
  hostspec ← _strip_proto_from_spec spec;
  match hostspec with
  | None => Some (-1)
  | Some hostspec =>
    match memchr 58 hostspec with
    | None => Some (-1)
    | Some end_ => let port := atoi (drop (end_ + 1) hostspec) in
      Some (if port <=? 0 then -1 else port)
    end
  end.

(** ** State *)

(** A key lies in the arena of a context. *)
Record CID_KEY := mkKey { cid : Z; key_arena : nat }.
Definition cidcmp (x y : CID_KEY) : Z :=
  if cid x =? cid y then 0 else if cid x <? cid y then -1 else 1.
Definition cidhash (x : CID_KEY) : Z := u32 (cid x).

#[export, refine] Instance cid_ops : KeyOps CID_KEY Z :=
  {| kcmp := cidcmp; khash := cidhash; kcls := cid |}.
Proof.
  - intros x y. unfold cidcmp. destruct (Z.eqb_spec (cid x) (cid y)); [naive_solver|]. case_match; naive_solver.
  - intros x y E. unfold cidhash. by rewrite E.
  - intros x. apply (wrapu_range 32). lia.
Defined.

Record ACContext := mkAC { context : nat; sid : Z }.
Abbreviation pending_table := (ArenaTable_T (K := CID_KEY) (V := ACContext)).

Section client.
Context {B : Type} `{Bufferevent B}.

Record world := mkWorld {
  contexts : gmap nat OEK_Context;     (* those not yet given back *)
  pending : cell pending_table;
  session : cell OeSession;
  conn : OeNetConn (B := B);           (* of the session *)
  sessions : id_set;                   (* of the net *)
  lastid : Z;
  queue : list ACContext;              (* jobs of the dispatcher *)
  told : list (nat * OEK_Context)      (* contexts given back, as they were *)
}.
Definition set_contexts m w := mkWorld m (pending w) (session w) (conn w) (sessions w) (lastid w) (queue w) (told w).
Definition set_pending p w := mkWorld (contexts w) p (session w) (conn w) (sessions w) (lastid w) (queue w) (told w).
Definition set_session s w := mkWorld (contexts w) (pending w) s (conn w) (sessions w) (lastid w) (queue w) (told w).
Definition set_conn c w := mkWorld (contexts w) (pending w) (session w) c (sessions w) (lastid w) (queue w) (told w).
Definition set_sessions s w := mkWorld (contexts w) (pending w) (session w) (conn w) s (lastid w) (queue w) (told w).
Definition set_queue q w := mkWorld (contexts w) (pending w) (session w) (conn w) (sessions w) (lastid w) q (told w).
Definition live {A} (c : cell A) : option A := match c with Live a => Some a | _ => None end.

(** [context->write_response_cb(context)] *)
Definition call_back (x : nat) (w : world) : option world :=
  c ← contexts w !! x;
  _ ← c_assert (write_response_cb c);
  Some (mkWorld (delete x (contexts w)) (pending w) (session w) (conn w) (sessions w) (lastid w) (queue w)
    (told w ++ [(x, c)])).

(** ** The table of commands that wait for answers *)

(** The keys an operation on the table reads: those of the chain, to the one
    that is equal. *)
Fixpoint scanned (key : CID_KEY) (l : list (CID_KEY * ACContext)) : list CID_KEY :=
  match l with
  | [] => []
  | p :: l => p.1 :: if same key p then [] else scanned key l
  end.
Definition alive (w : world) (x : nat) : bool := bool_decide (is_Some (contexts w !! x)).
Definition readable (w : world) (t : pending_table) (key : CID_KEY) : bool :=
  forallb (λ k, alive w (key_arena k)) (scanned key (chain_of t key)).

Definition Table_put (key : CID_KEY) (value : ACContext) (w : world) : option world :=
  t ← live (pending w);
  _ ← c_assert (readable w t key);
  Some (set_pending (Live (ArenaTable_put t key value).1) w).
Definition Table_remove (key : CID_KEY) (w : world) : option (option ACContext * world) :=
  t ← live (pending w);
  _ ← c_assert (readable w t key);
  let '(t, r) := ArenaTable_remove t key in Some (r, set_pending (Live t) w).

(** The key that is looked for is on the stack; its second field is not used. *)
Definition _restore_context (c : Z) (w : world) : option (ACContext * world) :=
  '(pc, w) ← Table_remove (mkKey c 0) w;
  pc ← pc;
  Some (pc, w).

Definition _save_context (c : Z) (pc : ACContext) (w : world) : option world :=
  _ ← c_assert (negb (c =? 0));
  _ ← contexts w !! context pc;
  Table_put (mkKey c (context pc)) pc w.

(** ** Answers *)

Definition OEP_STR_CON_CLOSED : string := "connection to server closed".
Definition OEP_CLIENT_PARSE_ERROR : string := "can not parse response".

Definition upd_context (x : nat) (f : OEK_Context → OEK_Context) (w : world) : world :=
  set_contexts (alter f x (contexts w)) w.

Definition _send_con_closed (x : nat) (w : world) : option world :=
  _ ← contexts w !! x;
  err_msg ← OekMsg_new OEK_ERR;
  err ← OekMsg_get_err err_msg;
  let err := OekErr_set_message (OekErr_set_type err 1) OEP_STR_CON_CLOSED in
  call_back x (upd_context x (λ c, set_err c (set_data err_msg (D_err err))) w).

(** [i] counts the entries of the array, which are keys and values in turn,
    and [sz] the keys. *)
Fixpoint cleanup_loop (i sz : Z) (array : list (CID_KEY * ACContext)) (w : world) : option world :=
  match array with
  | [] => Some w
  | (key, _) :: array =>
    if i <? sz then
      _ ← c_assert (alive w (key_arena key));
      '(pc, w) ← Table_remove key w;
      pc ← pc;
      w ← _send_con_closed (context pc) w;
      cleanup_loop (i + 2) sz array w
    else Some w
  end.
Definition _cleanup (w : world) : option world :=
  t ← live (pending w);
  let sz := ArenaTable_length t in
  w ← cleanup_loop 0 sz (ArenaTable_toArray t) w;
  Some (set_pending Freed w).

Definition _append_res_msg (c : OEK_Context) (msg : OekMsg) : OEK_Context :=
  set_res c (match res_msgs c with
             | None => Oec_AList_list [Some msg]
             | Some l => Oec_AList_append l (Oec_AList_list [Some msg])
             end).

(** What a message does to the context it answers, and whether more answers
    are to come *)
Definition take_answer (c : OEK_Context) (msg : OekMsg) : option (OEK_Context * bool) :=
  if bool_decide (OekMsg_get_type msg = OEK_ERR) then Some (set_err c msg, false)
  else if bool_decide (OekMsg_get_type msg = GET_RES) then
    let c := _append_res_msg c msg in
    res ← OekMsg_get_get_res msg;
    l ← res_msgs c;
    Some (c, u64 (Oec_AList_length l) <? u64 (nresults res))
  else Some (_append_res_msg c msg, false).

(** The functions a protocol configures *)
Context (peek_cid_fun : bool → OeNetConn (B := B) → option (Z * option Z)).
Context (read_fun : OeNetConn (B := B) → option (Z * option OekMsg * OeNetConn (B := B))).
Context (write_fun : OeNetConn (B := B) → OekMsg → option (Z * OeNetConn (B := B))).

(** The function calls itself while bytes are available. *)
Fixpoint _buffered_on_read (fuel : nat) (w : world) : option world :=
  match fuel with
  | O => None
  | S fuel =>
    s ← live (session w);
    if OeSession_state_is_set s OENET_CLIENT_CLOSING then _cleanup w
    else
      '(rc, c) ← peek_cid_fun (OeSession_state_is_set s OENET_CLIENT_CONNECTED) (conn w);
      if rc <? 0 then Some w
      else if rc =? 0 then Some w
      else
        c ← c;
        '(pc, w) ← _restore_context c w;
        ctx ← contexts w !! context pc;
        '(rc, msg, cn) ← read_fun (conn w);
        let w := set_conn cn w in
        if rc <? 0 then
          errmsg ← OekMsg_new OEK_ERR;
          err ← OekMsg_get_err errmsg;
          let errmsg := set_data errmsg (D_err (OekErr_set_message err OEP_CLIENT_PARSE_ERROR)) in
          call_back (context pc) (upd_context (context pc) (λ c, set_err c errmsg) w)
        else if rc =? 0 then _save_context c pc w
        else
          msg ← msg;
          w ← (if write_response_cb ctx then
                 '(ctx, more) ← take_answer ctx msg;
                 let w := upd_context (context pc) (λ _, ctx) w in
                 if more : bool then _save_context c pc w else call_back (context pc) w
               else Some w);
          avail ← OeNetConn_available (conn w);
          if 0 <? avail then _buffered_on_read fuel w else Some w
  end.

(** ** Commands *)

Definition _create_oeproto_ac_context (x : nat) (w : world) : option ACContext :=
  _ ← contexts w !! x;
  s ← live (session w);
  Some (mkAC x (sess_id s)).

(** On the caller's thread *)
Definition OepClient_send (x : nat) (w : world) : option world :=
  pc ← _create_oeproto_ac_context x w;
  Some (set_queue (queue w ++ [pc]) w).

(** The result of [write_fun] is not looked at. *)
Definition _write_to_server_cb (pc : ACContext) (w : world) : option world :=
  ctx ← contexts w !! context pc;
  let c := OekMsg_get_cid (cmd_msg ctx) in
  w ← _save_context c pc w;
  if IdSet.Oec_IdSet_member (sessions w) (sid pc) then
    s ← live (session w);
    let w := set_session (Live (OeSession_decr_task_count s)) w in
    '(_, cn) ← write_fun (conn w) (cmd_msg ctx);
    Some (set_conn cn w)
  else _send_con_closed (context pc) w.

(** ** The connection (OeNet.c, OeLibevent2Factory.c) *)

Definition OeNet_create_id (w : world) : Z * world :=
  let i := u64 (lastid w + 1) in
  (i, mkWorld (contexts w) (pending w) (session w) (conn w) (sessions w) i (queue w) (told w)).

(** A client's net has no timer for connections. *)
Definition _listen_for_bytes (b : B) (w : world) : world :=
  let '(i, w) := OeNet_create_id w in
  set_conn (oenetconn_set_conn_obj OeLibeventConnFactory_create b)
    (set_session (Live (oesession_new i)) (set_sessions (IdSet.Oec_IdSet_put (sessions w) i) w)).

(** [_read_handler_cb] without a buffer *)
Definition read_handler_closing (fuel : nat) (w : world) : option world :=
  s ← live (session w);
  _buffered_on_read fuel (set_session (Live (OeSession_state_set s OENET_CLIENT_CLOSING)) w).

Definition _cleanup_conn (w : world) : option world :=
  s ← live (session w);
  let s := OeSession_state_set (OeSession_state_clear s OENET_CLIENT_CONNECTED) OENET_CLIENT_CLOSING in
  let w := set_session (Live s) w in
  if negb (outstanding_task_count s =? 0) then Some w
  else
    let w := set_sessions (IdSet.Oec_IdSet_remove (sessions w) (sess_id s)).1 w in
    w ← read_handler_closing 1 w;
    Some (set_session Freed w).

(** ** Connecting *)

Definition OEP_VERSION : Z * Z * Z := (0, 5, 4).

Definition OepClient_new (subject : Subject) : option world :=
  t ← ArenaTable_new 100; ids ← IdSet.Oec_IdSet_new 100;
  Some (mkWorld ∅ (Live t) Null OeLibeventConnFactory_create ids 0 [] []).

(** The message [OepClient_connect] sends *)
Definition connect_cmd (subject : Subject) (extentname : option (list Z)) : option OekMsg :=
  cmdmsg ← OekMsg_new CON_CMD;
  let cmdmsg := OekMsg_set_cid cmdmsg 1 in
  cmd ← OekMsg_get_con_cmd cmdmsg;
  let cmd := ConCmd_set_extentname cmd (match extentname with Some e => string_of_bytes e | None => "default" end) in
  let cmd := match username subject with Some u => ConCmd_set_username cmd u | None => cmd end in
  let cmd := match pwd subject with Some p => ConCmd_set_pwd cmd p | None => cmd end in
  let cmd := ConCmd_set_version_maj cmd OEP_VERSION.1.1 in
  let cmd := ConCmd_set_version_min cmd OEP_VERSION.1.2 in
  let cmd := ConCmd_set_version_upt cmd OEP_VERSION.2 in
  Some (set_data cmdmsg (D_con_cmd (ConCmd_set_rollback_on_disconnect cmd))).

(** [OepClient_connect] up to the wait for the answer: a code, or the client
    with the connect command in the queue.  [conctx] is what [OeNet_connect]
    returns for the host and the port, [x] the new context. *)
Definition connect_begin (subject : Subject) (spec : list Z) (conctx : list Z → Z → option B) (x : nat) (w : world) :
    option (Z + world) :=
  hostname ← oepu_get_hostname_from_spec spec;
  match hostname with
  | None => Some (inl (-1))
  | Some hostname =>
    extentname ← oepu_get_extentname_from_spec spec;
    port ← oepu_get_port_from_spec spec;
    if port <=? 0 then Some (inl (-1))
    else
      b ← conctx hostname port;
      cmdmsg ← connect_cmd subject extentname;
      let w := _listen_for_bytes b w in
      s ← live (session w);
      let w := set_session (Live (OeSession_set_id s 1)) w in
      let w := set_contexts (<[x := mkContext 0 cmdmsg true None None]> (contexts w)) w in
      w ← OepClient_send x w;
      Some (inr w)
  end.

(** The rest, once the future has been set to the context *)
Definition connect_end (c : OEK_Context) (w : world) : option (Z * world) :=
  resmsg ← (match err_msg c with
            | Some m => Some m
            | None => l ← res_msgs c; r ← Oec_AList_get l 0; r
            end);
  match OekMsg_get_type resmsg with
  | CON_RES =>
    s ← live (session w);
    Some (0, set_session (Live (OeSession_state_set s OENET_CLIENT_CONNECTED)) w)
  | OEK_ERR => Some (-1, w)
  | _ => None
  end.
End client.
