(* ===== verification/ClientSpec.v ===== *)
(** * ClientSpec: commands and their answers

    [client_answers] relates a run of the client to an abstract one, in which
    the waiting commands are a map from correlation ids and the connection a
    sequence of messages, over any protocol that meets [ClientWire]; the
    statement language is an instance.  [disconnect_tells_nobody] and
    [clean_up_half] are about the end of a connection, [connect_succeeds]
    about its beginning, [address_parsed] about the addresses. *)

From S2P Require Import Prelude Values HashTable Collections Messages CJson JclText JclParser Jcl JclSpec Kernel Security.
From S2P Require Import Server ServerSpec Net NetSpec Client.
Import Str Flags AList ArenaTable.

Open Scope oes_scope.

(** ** What a client needs of a protocol *)

Class ClientWire (B : Type) `{Wire B} := {
  wire_peek : bool → OeNetConn (B := B) → option (Z * option Z);
  answers : OekMsg → Prop;
  part_of : OekMsg → list Z → Prop;      (* beginnings that may be peeked at *)
  answers_goes m : answers m → goes m;
  answers_id m : answers m → cor_id (arrives m) = cor_id m;
  part_prefix m l : part_of m l → l `prefix_of` text m ++ [10];
  wire_peek_whole connected b m rest : answers m → fits b → input b = text m ++ 10 :: 10 :: rest →
    wire_peek connected (NetSpec.conn b) = Some (1, Some (cor_id m));
  wire_peek_part b m : answers m → fits b → part_of m (input b) →
    wire_peek true (NetSpec.conn b) = Some (0, None) ∨ wire_peek true (NetSpec.conn b) = Some (1, Some (cor_id m))
}.

(** ** The table of waiting commands *)

Abbreviation waiting_map := (gmap Z (nat * OEK_Context)).
Definition entries (i : Z) (W : waiting_map) : gmap Z (CID_KEY * ACContext) :=
  (λ p : Z * (nat * OEK_Context), (mkKey p.1 p.2.1, mkAC p.2.1 i)) <$> map_imap (λ c p, Some (c, p)) W.

Lemma entries_lookup i W c : entries i W !! c = (λ p : nat * OEK_Context, (mkKey c p.1, mkAC p.1 i)) <$> W !! c.
Proof. unfold entries. rewrite lookup_fmap, map_lookup_imap. by destruct (W !! c). Qed.
Lemma entries_insert i W c x ctx :
  entries i (<[c := (x, ctx)]> W) = <[c := (mkKey c x, mkAC x i)]> (entries i W).
Proof.
  apply map_eq. intros c'. rewrite entries_lookup, !lookup_insert. case_decide as E; [by subst|].
  by rewrite entries_lookup.
Qed.
Lemma entries_delete i W c : entries i (delete c W) = delete c (entries i W).
Proof.
  apply map_eq. intros c'. rewrite entries_lookup, !lookup_delete. case_decide; [done|]. by rewrite entries_lookup.
Qed.

Section client.
Context {B : Type} `{Bufferevent B}.
Implicit Types (w : world (B := B)).

Definition tabled (i : Z) (W : waiting_map) w : Prop :=
  ∃ t, pending w = Live t ∧ table_wf t ∧ bmap ecls (buckets t) = entries i W.
Definition all_alive (W : waiting_map) w : Prop := ∀ c x ctx, W !! c = Some (x, ctx) → is_Some (contexts w !! x).

Lemma scanned_in key l k : k ∈ scanned key l → ∃ p, p ∈ l ∧ p.1 = k.
Proof.
  induction l as [|p l IH]; cbn [scanned]; [by intros ?%elem_of_nil|]. intros [->|Hk]%elem_of_cons.
  - exists p. split; [left|done].
  - destruct (same key p); [by apply elem_of_nil in Hk|]. destruct (IH Hk) as (q & Hq & E). exists q. split; [by right|done].
Qed.
Lemma readable_ok i W w t key :
  table_wf t → bmap ecls (buckets t) = entries i W → all_alive W w → readable w t key = true.
Proof.
  intros Hwf He Ha. unfold readable. apply forallb_forall. intros k Hk%list_elem_of_In.
  destruct (scanned_in _ _ _ Hk) as (p & Hp & <-). pose proof (chain_entries t key p Hwf Hp) as Hl.
  rewrite He, entries_lookup in Hl. destruct (W !! ecls p) as [[x ctx]|] eqn:E; [|done]. cbn in Hl. injection Hl as Hl.
  rewrite <-Hl. cbn. unfold alive. apply bool_decide_eq_true_2. by eapply Ha.
Qed.

Lemma remove_ok i W w key x ctx :
  tabled i W w → all_alive W w → W !! cid key = Some (x, ctx) →
  ∃ p, Table_remove key w = Some (Some (mkAC x i), set_pending p w) ∧ tabled i (delete (cid key) W) (set_pending p w).
Proof.
  intros (t & Ep & Hwf & He) Ha Hc. unfold Table_remove. rewrite Ep. cbn [live mbind option_bind].
  rewrite (readable_ok i W) by done. cbn [c_assert mbind option_bind].
  destruct (remove_spec t key Hwf) as (Hwf' & _ & Hr). pose proof (remove_entries t key Hwf) as He'.
  destruct (ArenaTable_remove t key) as [t' r]. cbn in Hwf', Hr, He'. rewrite He in He'.
  unfold tmap in Hr. rewrite lookup_fmap, He, entries_lookup, Hc in Hr. cbn in Hr. subst r.
  exists (Live t'). split; [done|]. exists t'. split_and!; [done..|]. by rewrite entries_delete.
Qed.
Lemma restore_ok i W w c x ctx :
  tabled i W w → all_alive W w → W !! c = Some (x, ctx) →
  ∃ p, _restore_context c w = Some (mkAC x i, set_pending p w) ∧ tabled i (delete c W) (set_pending p w).
Proof.
  intros Ht Ha Hc. destruct (remove_ok i W w (mkKey c 0) x ctx Ht Ha Hc) as (p & E & Hp). exists p. split; [|done].
  unfold _restore_context. by rewrite E.
Qed.

Lemma save_ok i W w c x ctx :
  tabled i W w → all_alive W w → W !! c = None → c ≠ 0 → is_Some (contexts w !! x) →
  ∃ p, _save_context c (mkAC x i) w = Some (set_pending p w) ∧ tabled i (<[c := (x, ctx)]> W) (set_pending p w).
Proof.
  intros (t & Ep & Hwf & He) Ha Hc H0 [ctx' Hx]. unfold _save_context. rewrite (proj2 (Z.eqb_neq c 0)) by done.
  cbn [negb c_assert mbind option_bind context]. rewrite Hx. cbn [mbind option_bind]. unfold Table_put. rewrite Ep.
  cbn [live mbind option_bind]. rewrite (readable_ok i W) by done. cbn [c_assert mbind option_bind].
  destruct (put_spec t (mkKey c x) (mkAC x i) Hwf) as (Hwf' & _ & _).
  pose proof (put_entries t (mkKey c x) (mkAC x i) Hwf) as He'. cbn in He'. rewrite He, entries_lookup, Hc in He'.
  eexists. split; [done|]. eexists. split; [done|]. split; [done|]. rewrite He', entries_insert by done. done.
Qed.
End client.

(** ** The abstract client *)

(** Contexts that wait for answers, contexts that wait to be sent, and the
    bytes of an incomplete message *)
Record abs := mkAbs { waiting : waiting_map; queued : list (nat * OEK_Context); partial : list Z }.
Definition holders (W : waiting_map) (q : list (nat * OEK_Context)) : list (nat * OEK_Context) := q ++ (map_to_list W).*2.

Definition absorb1 (W : waiting_map) (m : OekMsg) : option (waiting_map * list (nat * OEK_Context)) :=
  '(x, c) ← W !! cor_id m;
  '(c, more) ← take_answer c m;
  Some (if more : bool then (<[cor_id m := (x, c)]> W, []) else (delete (cor_id m) W, [(x, c)])).
Fixpoint absorb (W : waiting_map) (ms : list OekMsg) : option (waiting_map * list (nat * OEK_Context)) :=
  match ms with
  | [] => Some (W, [])
  | m :: ms => '(W, l) ← absorb1 W m; '(W, l') ← absorb W ms; Some (W, l ++ l')
  end.

Lemma holders_send W q x c : holders W (q ++ [(x, c)]) ≡ₚ (x, c) :: holders W q.
Proof. unfold holders. rewrite <-app_assoc. symmetry. apply Permutation_middle. Qed.
Lemma holders_run W q x c k : W !! k = None → holders (<[k := (x, c)]> W) q ≡ₚ holders W ((x, c) :: q).
Proof. intros Hk. unfold holders. rewrite map_to_list_insert by done. cbn. symmetry. apply Permutation_middle. Qed.
Lemma holders_delete W q x c k : W !! k = Some (x, c) → holders W q ≡ₚ (x, c) :: holders (delete k W) q.
Proof.
  intros Hk. unfold holders. rewrite <-(map_to_list_delete W k (x, c)) by done. cbn. symmetry. apply Permutation_middle.
Qed.

Section refinement.
Context {B : Type} `{ClientWire B}.
Context (arrive : B → list Z → B).
Context (arrive_input : ∀ b l, input (arrive b l) = input b ++ l).
Context (arrive_output : ∀ b l, output (arrive b l) = output b).
Notation read := (Client._buffered_on_read wire_peek wire_read).
Implicit Types (w : world (B := B)).

Definition held w (l : list (nat * OEK_Context)) : Prop :=
  NoDup l.*1 ∧ Forall (λ p, contexts w !! p.1 = Some p.2 ∧ write_response_cb p.2 = true) l.

Record rep (s : OeSession) (W : waiting_map) (q : list (nat * OEK_Context)) (b : B) w : Prop := {
  rep_table : tabled (sess_id s) W w;
  rep_session : session w = Live s;
  rep_open : closing s = false;
  rep_conn : Client.conn w = NetSpec.conn b;
  rep_member : IdSet.Oec_IdSet_member (Client.sessions w) (sess_id s) = true;
  rep_queue : Client.queue w = (λ p : nat * OEK_Context, mkAC p.1 (sess_id s)) <$> q;
  rep_held : held w (holders W q);
  rep_ids : ∀ c p, W !! c = Some p → c ≠ 0
}.

Lemma held_perm w l k : l ≡ₚ k → held w l → held w k.
Proof. intros Hp [Hn Hf]. split; by rewrite <-Hp. Qed.
Lemma held_cons w p l : held w (p :: l) → contexts w !! p.1 = Some p.2 ∧ write_response_cb p.2 = true ∧ held w l.
Proof. intros [[Hn1 Hn2]%list.NoDup_cons [[Hc Hw] Hf]%Forall_cons_1]. done. Qed.
(** Changing one context, or giving it back, leaves the others. *)
Lemma held_other w w' p l : held w (p :: l) → (∀ y, y ≠ p.1 → contexts w' !! y = contexts w !! y) → held w' l.
Proof.
  intros [[Hn1 Hn2]%list.NoDup_cons [_ Hf]%Forall_cons_1] Ho. split; [done|]. rewrite list.Forall_forall in *.
  intros y Hy. rewrite Ho; [by apply Hf|]. intros E. apply Hn1. rewrite <-E. apply list_elem_of_fmap. by exists y.
Qed.
Lemma held_waiting w W q c x ctx : held w (holders W q) → W !! c = Some (x, ctx) →
  contexts w !! x = Some ctx ∧ write_response_cb ctx = true ∧ held w ((x, ctx) :: holders (delete c W) q).
Proof.
  intros Hh Hc. apply (held_perm _ _ _ (holders_delete W q x ctx c Hc)) in Hh. split_and!; [|apply (held_cons _ _ _ Hh)|done].
  by apply held_cons in Hh as [? _].
Qed.
Lemma held_alive w W q : held w (holders W q) → all_alive W w.
Proof. intros Hh c x ctx Hc. destruct (held_waiting _ _ _ _ _ _ Hh Hc) as [-> _]. eauto. Qed.
Lemma tabled_same i W w w' : tabled i W w → pending w' = pending w → tabled i W w'.
Proof. intros (t & ? & ?) E. exists t. by rewrite E. Qed.

#[local] Ltac open_read Es Hcl Hco Hcn :=
  match type of Es with
  | _ = Live ?s =>
    cbn [_buffered_on_read]; rewrite Es; cbn [live mbind option_bind];
    change (OeSession_state_is_set s OENET_CLIENT_CLOSING) with (closing s); rewrite Hcl;
    change (OeSession_state_is_set s OENET_CLIENT_CONNECTED) with (connected s); rewrite Hco, Hcn
  end.

(** One message is read: its context is given back, or waits for more. *)
Lemma absorb_message k s W q b b' w (m : OekMsg) W' outs :
  connected s = k →
  rep s W q b w → absorb1 W m = Some (W', outs) →
  wire_peek k (NetSpec.conn b) = Some (1, Some (cor_id m)) →
  wire_read (NetSpec.conn b) = Some (1, Some m, NetSpec.conn b') →
  ∃ w', rep s W' q b' w' ∧ told w' = told w ++ outs ∧
    ∀ fuel, read (S fuel) w = if (0 <? Z.of_nat (length (input b')))%Z then read fuel w' else Some w'.
Proof.
  intros Hco [Ht Es Hcl Hcn Hm Hq Hh Hid] Ha Hpeek Hread. unfold absorb1 in Ha.
  destruct (W !! cor_id m) as [[x c]|] eqn:Ec; [|done]. cbn [mbind option_bind] in Ha.
  destruct (take_answer c m) as [[c' more]|] eqn:Eta; [|done]. cbn [mbind option_bind] in Ha. injection Ha as Ha.
  destruct (restore_ok (sess_id s) W w _ _ _ Ht (held_alive _ _ _ Hh) Ec) as (p & Er & Htr).
  destruct (held_waiting _ _ _ _ _ _ Hh Ec) as (Hx & Hcb & Hh').
  set (w1 := set_conn (NetSpec.conn b') (set_pending p w)).
  set (w2 := upd_context x (λ _, c') w1).
  assert (contexts w2 !! x = Some c') as Hx2.
  { unfold w2, upd_context, w1. cbn. by rewrite lookup_alter_eq, Hx. }
  assert (∀ y, y ≠ x → contexts w2 !! y = contexts w !! y) as Ho2.
  { intros y Hy. unfold w2, upd_context, w1. cbn. by rewrite lookup_alter_ne. }
  assert (write_response_cb c' = true) as Hcb'.
  { revert Eta. unfold take_answer. repeat case_bool_decide; [by intros [= <- _]| |by intros [= <- _]].
    destruct (OekMsg_get_get_res m); cbn; [|done]. by intros [= <- _]. }
  assert (∀ fuel w3, (if more then _save_context (cor_id m) (mkAC x (sess_id s)) w2 else call_back x w2) = Some w3 →
    Client.conn w3 = NetSpec.conn b' →
    read (S fuel) w = if (0 <? Z.of_nat (length (input b')))%Z then read fuel w3 else Some w3) as Hrun.
  { intros fuel w3 E3 Ec3. open_read Es Hcl Hco Hcn. rewrite Hpeek.
    cbn [mbind option_bind]. change (1 <? 0) with false. change (1 =? 0) with false. cbn iota. rewrite Er.
    cbn [mbind option_bind context]. change (contexts (set_pending p w)) with (contexts w). rewrite Hx.
    cbn [mbind option_bind]. change (Client.conn (set_pending p w)) with (Client.conn w). rewrite Hcn, Hread.
    cbn [mbind option_bind]. change (1 <? 0) with false. change (1 =? 0) with false. cbn iota.
    rewrite Hcb, Eta. cbn [mbind option_bind]. fold w1. fold w2. rewrite E3. cbn [mbind option_bind].
    rewrite Ec3, available_ok. done. }
  assert (tabled (sess_id s) (delete (cor_id m) W) w2) as Ht2 by (by eapply tabled_same).
  assert (∀ c p, delete (cor_id m) W !! c = Some p → c ≠ 0) as Hid'.
  { intros y q' [_ Hk]%lookup_delete_Some. by eapply Hid. }
  assert (held w2 (holders (delete (cor_id m) W) q)) as Hh2 by (by eapply held_other).
  destruct more; injection Ha as <- <-.
  - destruct (save_ok (sess_id s) (delete (cor_id m) W) w2 (cor_id m) x c' Ht2) as (p' & Esv & Htv).
    { by eapply held_alive. } { by apply lookup_delete_eq. } { by eapply Hid. } { by rewrite Hx2. }
    rewrite insert_delete_eq in Htv. exists (set_pending p' w2). split; [|split; [|intros fuel; by apply Hrun]].
    + split; [done..| |].
      * apply (held_perm _ ((x, c') :: holders (delete (cor_id m) W) q)).
        { rewrite <-(insert_delete_eq W (cor_id m)). rewrite holders_run by apply lookup_delete_eq. done. }
        destruct Hh' as [Hn _]. destruct Hh2 as [_ Hf]. split; [done|]. by constructor.
      * intros y q' [[<- _]|[_ ?]]%lookup_insert_Some; by eapply Hid.
    + by rewrite app_nil_r.
  - assert (call_back x w2 = Some (mkWorld (delete x (contexts w2)) (pending w2) (session w2) (Client.conn w2)
      (Client.sessions w2) (lastid w2) (Client.queue w2) (told w2 ++ [(x, c')]))) as Ecb.
    { unfold call_back. rewrite Hx2. cbn [mbind option_bind]. by rewrite Hcb'. }
    eexists. split; [|split; [|intros fuel; by apply (Hrun fuel _ Ecb)]]; [|done].
    split; [by eapply tabled_same|done|done|done|done|done| |done].
    eapply held_other; [exact Hh'|]. intros y Hy. cbn in Hy |- *. rewrite lookup_delete_ne by done. by apply Ho2.
Qed.

(** The beginning of a message is left where it is. *)
Lemma wait_for_more s W q b w (m : OekMsg) :
  connected s = true → rep s W q b w → fits b → answers m → part_of m (input b) → is_Some (W !! cor_id m) →
  ∃ w', rep s W q b w' ∧ told w' = told w ∧ ∀ fuel, read (S fuel) w = Some w'.
Proof.
  intros Hco Hrep Hb Hm Hp [[x c] Hc]. pose proof Hrep as [Ht Es Hcl Hcn Hmem Hq Hh Hid].
  destruct (wire_peek_part b m Hm Hb Hp) as [E|E].
  { exists w. split_and!; [done..|]. intros fuel. open_read Es Hcl Hco Hcn. by rewrite E. }
  destruct (restore_ok (sess_id s) W w _ _ _ Ht (held_alive _ _ _ Hh) Hc) as (p & Er & Htr).
  destruct (held_waiting _ _ _ _ _ _ Hh Hc) as (Hx & Hcb & Hh').
  pose proof (line_break_part _ _ (text_framed m (answers_goes m Hm)) (part_prefix m _ Hp)) as Hnb.
  set (w1 := set_conn (NetSpec.conn b) (set_pending p w)).
  destruct (save_ok (sess_id s) (delete (cor_id m) W) w1 (cor_id m) x c) as (p' & Esv & Htv).
  { by eapply tabled_same. } { intros k y ctx Hk. apply lookup_delete_Some in Hk as [_ Hk]. by eapply (held_alive _ _ _ Hh). }
  { by apply lookup_delete_eq. } { by eapply Hid. } { cbn. by rewrite Hx. }
  rewrite insert_delete_id in Htv by done. exists (set_pending p' w1). split_and!; [done|done|].
  intros fuel. open_read Es Hcl Hco Hcn. rewrite E. cbn [mbind option_bind]. change (1 <? 0) with false. change (1 =? 0) with false.
  cbn iota. rewrite Er. cbn [mbind option_bind context]. change (contexts (set_pending p w)) with (contexts w). rewrite Hx.
  cbn [mbind option_bind]. change (Client.conn (set_pending p w)) with (Client.conn w). rewrite Hcn.
  rewrite wire_read_none by done. cbn [mbind option_bind]. change (0 <? 0) with false. rewrite Z.eqb_refl. cbn iota.
  exact Esv.
Qed.

(** What may stand behind the last complete message *)
Definition resumable (W : waiting_map) (l : list Z) : Prop :=
  l = [] ∨ ∃ m, answers m ∧ part_of m l ∧ is_Some (W !! cor_id m).

Lemma read_all s q l (ms : list OekMsg) (Hco : connected s = true) : ∀ W b w fuel W' outs,
  rep s W q b w → fits b → input b = stream ms ++ l → input b ≠ [] → Forall answers ms →
  absorb W (arrives <$> ms) = Some (W', outs) → resumable W' l → (length (input b) < fuel)%nat →
  ∃ b' w', read fuel w = Some w' ∧ rep s W' q b' w' ∧ input b' = l ∧ output b' = output b ∧ told w' = told w ++ outs.
Proof.
  induction ms as [|m ms IH]; intros W b w [|fuel] W' outs Hrep Hb Hin Hne Hms Habs Hl Hf; [lia| |lia|].
  - injection Habs as <- <-. cbn in Hin. destruct Hl as [->|(m & Hm & Hp & Hw)]; [by rewrite Hin in Hne|].
    rewrite <-Hin in Hp. destruct (wait_for_more s W q b w m Hco Hrep Hb Hm Hp Hw) as (w' & Hrep' & Et & Er).
    exists b, w'. rewrite app_nil_r. split_and!; [apply Er|done..].
  - apply Forall_cons_1 in Hms as [Hm Hms]. pose proof (answers_goes m Hm) as Hg. cbn [fmap list_fmap absorb] in Habs.
    destruct (absorb1 W (arrives m)) as [[W1 outs1]|] eqn:E1; [|done]. cbn [mbind option_bind] in Habs.
    destruct (absorb W1 (arrives <$> ms)) as [[W2 outs2]|] eqn:E2; [|done]. cbn in Habs. injection Habs as <- <-.
    assert (input b = text m ++ 10 :: 10 :: (stream ms ++ l)) as Hin'.
    { rewrite Hin. unfold stream, stream_of. cbn [fmap list_fmap concat]. by rewrite <-!app_assoc. }
    destruct (wire_read_ok b m _ Hg Hb Hin') as (b1 & Er & Hi1 & Ho1).
    pose proof (wire_peek_whole true b m _ Hm Hb Hin') as Ek. rewrite <-(answers_id m Hm) in Ek.
    destruct (absorb_message true s W q b b1 w _ _ _ Hco Hrep E1 Ek Er) as (w1 & Hrep1 & Et & Hrun). rewrite Hrun.
    destruct (Z.ltb_spec 0 (Z.of_nat (length (input b1)))) as [Hpos|Hpos].
    + destruct (IH W1 b1 w1 fuel W2 outs2 Hrep1) as (b' & w' & Er' & Hrep' & Hi' & Ho' & Et'); [|done| |done..| |].
      { unfold fits in *. rewrite Hi1. rewrite Hin', length_app in Hb. cbn in Hb. lia. }
      { intros E. rewrite E in Hpos. cbn in Hpos. lia. }
      { rewrite Hi1. rewrite Hin', length_app in Hf. cbn in Hf. lia. }
      exists b', w'. split_and!; [done..|congruence|]. by rewrite Et', Et, <-app_assoc.
    + assert (stream ms ++ l = []) as E by (apply length_zero_iff_nil; rewrite <-Hi1; lia).
      apply app_nil in E as [E ->]. destruct ms as [|m' ms]; [|unfold stream, stream_of in E; cbn in E; by destruct (text m')].
      injection E2 as <- <-. exists b1, w1. rewrite app_nil_r. split_and!; [done..|congruence|done].
Qed.

(** *** Runs *)

Inductive event :=
  | E_send (x : nat) (c : OEK_Context)     (* a new context is filled and sent *)
  | E_run                                  (* the event base runs a job *)
  | E_bytes (l : list Z).
Definition step (e : event) (w : world) : option world :=
  match e with
  | E_send x c => OepClient_send x (set_contexts (<[x := c]> (contexts w)) w)
  | E_run =>
    match Client.queue w with
    | [] => Some w
    | pc :: jobs => _write_to_server_cb wire_write pc (set_queue jobs w)
    end
  | E_bytes l =>
    b ← oenetconn_get_conn_obj (Client.conn w);
    read (S (length (input (arrive b l)))) (set_conn (oenetconn_set_conn_obj (Client.conn w) (arrive b l)) w)
  end.
Fixpoint run (es : list event) (w : world) : option world :=
  match es with [] => Some w | e :: es => w ← step e w; run es w end.

(** The commands written and the contexts given back *)
Inductive astep : abs → event → list OekMsg → list (nat * OEK_Context) → abs → Prop :=
  | A_send W q l x c :
      x ∉ (holders W q).*1 → write_response_cb c = true →
      astep (mkAbs W q l) (E_send x c) [] [] (mkAbs W (q ++ [(x, c)]) l)
  | A_run W q l x c :
      goes (cmd_msg c) → cor_id (cmd_msg c) ≠ 0 → W !! cor_id (cmd_msg c) = None →
      astep (mkAbs W ((x, c) :: q) l) E_run [cmd_msg c] [] (mkAbs (<[cor_id (cmd_msg c) := (x, c)]> W) q l)
  | A_bytes W q l k ms l' W' outs :
      l ++ k = stream ms ++ l' → l ++ k ≠ [] → Z.of_nat (length (l ++ k)) < 2 ^ 31 - 1 → Forall answers ms →
      absorb W (arrives <$> ms) = Some (W', outs) → resumable W' l' →
      astep (mkAbs W q l) (E_bytes k) [] outs (mkAbs W' q l').
Inductive asteps : abs → list event → list OekMsg → list (nat * OEK_Context) → abs → Prop :=
  | A_nil A : asteps A [] [] [] A
  | A_cons A e cs os A1 es cs' os' A2 :
      astep A e cs os A1 → asteps A1 es cs' os' A2 → asteps A (e :: es) (cs ++ cs') (os ++ os') A2.

(** Each command written is counted down. *)
Definition written (n : nat) (s : OeSession) : OeSession := Nat.iter n OeSession_decr_task_count s.
Lemma written_connected n s : connected (written n s) = connected s.
Proof. by induction n. Qed.
Lemma written_app cs cs' s : written (length (A := OekMsg) (cs ++ cs')) s = written (length cs') (written (length cs) s).
Proof. unfold written. by rewrite length_app, Nat.add_comm, Nat.iter_add. Qed.

Lemma send_ok s W q b w x c :
  rep s W q b w → x ∉ (holders W q).*1 → write_response_cb c = true →
  ∃ w', step (E_send x c) w = Some w' ∧ rep s W (q ++ [(x, c)]) b w' ∧ told w' = told w.
Proof.
  intros Hrep Hx Hcb. pose proof Hrep as [Ht Es Hcl Hcn Hmem Hq Hh Hid].
  assert (∀ y, y ≠ x → <[x := c]> (contexts w) !! y = contexts w !! y) as Ho by (intros; by rewrite lookup_insert_ne).
  assert (held (set_contexts (<[x := c]> (contexts w)) w) (holders W (q ++ [(x, c)]))) as Hh'.
  { apply (held_perm _ ((x, c) :: holders W q)); [by rewrite holders_send|]. split; [constructor; [exact Hx|apply Hh]|].
    constructor; [cbn; by rewrite lookup_insert_eq|]. destruct Hh as [_ Hf]. rewrite list.Forall_forall in *.
    intros y Hy. cbn. rewrite lookup_insert_ne; [by apply Hf|]. intros E. apply Hx. rewrite E. apply list_elem_of_fmap. by exists y. }
  cbn [step]. unfold OepClient_send, _create_oeproto_ac_context. cbn [contexts set_contexts session].
  rewrite lookup_insert_eq, Es. cbn [mbind option_bind live]. eexists. split; [done|].
  split; [|done]. split; [done|done|done|done|done| |done|done].
  cbn. rewrite Hq, fmap_app. done.
Qed.

Lemma client_run_ok s W q b w x c :
  rep s W ((x, c) :: q) b w → goes (cmd_msg c) → cor_id (cmd_msg c) ≠ 0 → W !! cor_id (cmd_msg c) = None →
  ∃ b' w', step E_run w = Some w' ∧ rep (written 1 s) (<[cor_id (cmd_msg c) := (x, c)]> W) q b' w' ∧
    input b' = input b ∧ output b' = output b ++ text (cmd_msg c) ++ [10; 10] ∧ told w' = told w.
Proof.
  intros Hrep Hg Hnz Hn. pose proof Hrep as [Ht Es Hcl Hcn Hmem Hq Hh Hid].
  cbn [fmap list_fmap] in Hq. cbn [step]. rewrite Hq. unfold _write_to_server_cb. cbn [context sid fst].
  set (w1 := set_queue ((λ p, mkAC p.1 (sess_id s)) <$> q) w).
  assert (held w1 ((x, c) :: holders W q)) as Hh1 by exact Hh. pose proof (held_cons _ _ _ Hh1) as (Hx & Hcb & Hh2).
  cbn in Hx. change (contexts w1 !! x) with (contexts w !! x). rewrite Hx. cbn [mbind option_bind].
  destruct (save_ok (sess_id s) W w1 (cor_id (cmd_msg c)) x c) as (p & Esv & Htv);
    [by eapply tabled_same|by eapply held_alive|done|done|cbn; by rewrite Hx|].
  change (OekMsg_get_cid (cmd_msg c)) with (cor_id (cmd_msg c)). rewrite Esv. cbn [mbind option_bind].
  change (Client.sessions (set_pending p w1)) with (Client.sessions w). rewrite Hmem.
  change (session (set_pending p w1)) with (session w). rewrite Es. cbn [live mbind option_bind].
  change (Client.conn (set_session ?a ?v)) with (Client.conn v). change (Client.conn (set_pending p w1)) with (Client.conn w).
  rewrite Hcn. destruct (wire_write_ok b (cmd_msg c) Hg) as (b' & -> & Ho & Hi').
  cbn [mbind option_bind]. eexists b', _. split; [done|]. split; [|done].
  split; [done..| |].
  - apply (held_perm _ (holders W ((x, c) :: q))); [by rewrite holders_run|exact Hh].
  - intros k q' [[<- _]|[_ ?]]%lookup_insert_Some; [done|by eapply Hid].
Qed.

Lemma step_refines s A e cs outs A' b w :
  connected s = true → astep A e cs outs A' → rep s (waiting A) (queued A) b w → input b = partial A →
  ∃ b' w', step e w = Some w' ∧ rep (written (length cs) s) (waiting A') (queued A') b' w' ∧ input b' = partial A' ∧
    output b' = output b ++ stream cs ∧ told w' = told w ++ outs.
Proof.
  intros Hco. destruct 1 as [W q l x c Hx Hcb|W q l x c Hg Hnz Hn|W q l k ms l' W' outs Hl Hne Hlen Hms Habs Hres];
    cbn [waiting queued partial]; intros Hrep Hin.
  - destruct (send_ok s W q b w x c Hrep Hx Hcb) as (w' & E & Hrep' & Et). exists b, w'. unfold stream, stream_of. cbn [fmap list_fmap concat].
    by rewrite !app_nil_r.
  - destruct (client_run_ok s W q b w x c Hrep Hg Hnz Hn) as (b' & w' & E & Hrep' & Hi & Ho & Et). exists b', w'.
    unfold stream, stream_of. cbn [fmap list_fmap concat]. rewrite !app_nil_r. split_and!; [done..|congruence|done|done].
  - cbn [step]. pose proof Hrep as [Ht Es Hcl Hcn Hmem Hq Hh Hid]. rewrite Hcn. cbn [mbind option_bind NetSpec.conn oenetconn_get_conn_obj oenetconn_set_conn_obj conn_obj].
    change (oenetconn_set_conn_obj (NetSpec.conn b) (arrive b k)) with (NetSpec.conn (arrive b k)).
    set (w1 := set_conn _ w). assert (rep s W q (arrive b k) w1) as Hrep1 by (by split).
    assert (input (arrive b k) = l ++ k) as Hin1 by (by rewrite arrive_input, Hin).
    destruct (read_all s q l' ms Hco W (arrive b k) w1 (S (length (input (arrive b k)))) W' outs Hrep1)
      as (b' & w' & E & Hrep' & Hi' & Ho' & Et'); [unfold fits; by rewrite Hin1|by rewrite Hin1|by rewrite Hin1|done..|lia|].
    exists b', w'. split_and!; [done..| |done]. rewrite Ho', arrive_output. unfold stream, stream_of. by rewrite app_nil_r.
Qed.

Lemma run_refines A A' es cmds outs : asteps A es cmds outs A' → ∀ s b w,
  connected s = true → rep s (waiting A) (queued A) b w → input b = partial A →
  ∃ b' w', run es w = Some w' ∧ rep (written (length cmds) s) (waiting A') (queued A') b' w' ∧ input b' = partial A' ∧
    output b' = output b ++ stream cmds ∧ told w' = told w ++ outs.
Proof.
  induction 1 as [A|A e cs os A1 es cs' os' A2 He Hes IH]; intros s b w Hco Hrep Hin.
  - exists b, w. unfold stream, stream_of. cbn. by rewrite !app_nil_r.
  - destruct (step_refines s _ _ _ _ _ b w Hco He Hrep Hin) as (b1 & w1 & E1 & Hrep1 & Hi1 & Ho1 & Et1).
    destruct (IH _ b1 w1 ltac:(by rewrite written_connected) Hrep1 Hi1) as (b' & w' & E & Hrep' & Hi' & Ho' & Et').
    exists b', w'. cbn [run]. rewrite E1, written_app. cbn [mbind option_bind]. split_and!; [done..| |].
    + by rewrite Ho', Ho1, stream_app, <-app_assoc.
    + by rewrite Et', Et1, <-app_assoc.
Qed.
(** C10  The session is connected, and no event of the run ends the
    connection.  Contexts are sent for the first time or after they were given
    back, the correlation ids of the commands written are not 0 and differ from
    those of the commands that wait, and the bytes that arrive are answers to
    commands that wait, which the protocol can carry (in the statement
    language: without an empty line in a string), in pieces that do not end
    inside an id.  Then the commands are written in the order they were sent;
    the client never fails; each context is given back when the last message of
    its answer is complete, with the messages of that answer and no others, and
    is not touched afterwards. *)
Theorem client_answers (s : OeSession) (A A' : abs) (es : list event) (cmds : list OekMsg) (outs : list (nat * OEK_Context))
    (b : B) (w : world (B := B)) (Hco : connected s = true) (Hrun : asteps A es cmds outs A')
    (Hrep : rep s (waiting A) (queued A) b w) (Hin : input b = partial A) :
  ∃ b' w', run es w = Some w' ∧ rep (written (length cmds) s) (waiting A') (queued A') b' w' ∧ input b' = partial A' ∧
    output b' = output b ++ stream cmds ∧ told w' = told w ++ outs.
Proof. by apply (run_refines A A'). Qed.
End refinement.

(** ** The statement language as a client's protocol *)

Section jcl.
Context (usable : nat → nat) {B : Type} `{BuffereventSpec B} `{BP : BisonParser}.

Definition jcl_answers (m : OekMsg) : Prop := jcl_goes usable m ∧ is_answer m.
(** Not between the beginning and the end of the id *)
Definition jcl_part (m : OekMsg) (l : list Z) : Prop :=
  l ≠ [] ∧ l `prefix_of` jcl_text m ++ [10] ∧
  ∀ lit, lit ∈ answer_heads → bytes_of lit `prefix_of` jcl_text m →
    ¬ (length (bytes_of lit) ≤ length l ≤ length (bytes_of lit) + length (decimal (cor_id m)))%nat.

Lemma jcl_answers_id m : jcl_answers m → cor_id (JclSpec.received m) = cor_id m.
Proof. intros [_ Ha]. unfold is_answer in Ha. unfold JclSpec.received. by destruct (data m). Qed.

Lemma heads_cut lit k : lit ∈ answer_heads → (k < length (bytes_of lit))%nat →
  oe_memmem (take k (bytes_of lit)) OeJclNet_CID_TAG = None.
Proof.
  intros Hlit Hk. assert (forallb (λ lit, forallb (λ k, bool_decide (oe_memmem (take k (bytes_of lit)) OeJclNet_CID_TAG = None))
    (seq 0 (length (bytes_of lit)))) answer_heads = true) as Hall by (vm_compute; reflexivity).
  rewrite forallb_forall in Hall. specialize (Hall lit (proj1 (list_elem_of_In _ _) Hlit)).
  rewrite forallb_forall in Hall. specialize (Hall k ltac:(apply in_seq; lia)). by apply bool_decide_eq_true_1 in Hall.
Qed.

Lemma prefix_take {A} (l k : list A) : l `prefix_of` k → l = take (length l) k.
Proof. intros [r ->]. by rewrite take_app_length. Qed.

Lemma jcl_peek_part (b : B) m : jcl_answers m → fits b → jcl_part m (input b) →
  OeJclNet_peek_cid true (NetSpec.conn b) = Some (0, None) ∨ OeJclNet_peek_cid true (NetSpec.conn b) = Some (1, Some (cor_id m)).
Proof.
  intros [Hm Ha] Hb (Hne & Hpre & Hcut). destruct (answer_text m Ha) as (lit & c & suffix & Hlit & Ht & Hc).
  pose proof (head_length lit Hlit) as Hl. assert (id_ok (cor_id m)) as Hid by (by destruct Hm as [(_ & Hid & _) _]).
  pose proof (id_short _ Hid) as Hd. unfold id_ok in Hid.
  specialize (Hcut lit Hlit ltac:(rewrite Ht; by apply prefix_app_r)).
  assert (input b = take (length (input b)) ((bytes_of lit ++ decimal (cor_id m) ++ [c]) ++ suffix ++ [10])) as Hin.
  { rewrite (prefix_take _ _ Hpre) at 1. by rewrite Ht, <-!app_assoc. }
  unfold OeJclNet_peek_cid. destruct (decide (length (input b) < length (bytes_of lit))%nat) as [Hs|Hs].
  - left. unfold peek_cid. rewrite available_ok. cbn [mbind option_bind]. rewrite get_pos_ok by done.
    rewrite <-app_assoc, take_app_le in Hin by lia. rewrite Hin at 1. by rewrite heads_cut.
  - right. rewrite take_app in Hin. rewrite take_ge in Hin by (rewrite !length_app; cbn; lia).
    rewrite <-!app_assoc in Hin. set (post := take _ _) in Hin.
    rewrite (peek_cid_found b _ _ _ (bytes_of lit) (cor_id m) c post (length (bytes_of lit) - 4)%nat);
      [|done|lia|unfold small; lia|done| | | |lia|lia].
    + rewrite wrapu_id by (unfold in_u; lia). done.
    + rewrite Hin. by apply tag_found.
    + rewrite Hin. by rewrite <-!app_assoc.
    + change (Z.to_nat 4) with 4%nat. lia.
Qed.

#[local] Instance jcl_events : Wire B := jcl_wire usable.
Definition jcl_client : ClientWire B.
Proof using Type.
  refine {| wire_peek := OeJclNet_peek_cid; answers := jcl_answers; part_of := jcl_part |}.
  - by intros m [? _].
  - apply jcl_answers_id.
  - by intros m l (_ & ? & _).
  - intros k b m rest [Hm Ha] Hb Hin. by apply (jcl_peek_finds usable b m rest k).
  - intros b m Hm Hb Hp. by apply jcl_peek_part.
Defined.
End jcl.

(** ** The end of a connection *)

Section disconnect.
Context {B : Type} `{ClientWire B}.
Context (arrive : B → list Z → B).
Context (arrive_input : ∀ b l, input (arrive b l) = input b ++ l).
Context (arrive_output : ∀ b l, output (arrive b l) = output b).
Implicit Types (w : world (B := B)).

Lemma written_count n s :
  - 2 ^ 31 + Z.of_nat n ≤ outstanding_task_count s < 0 →
  outstanding_task_count (written n s) = outstanding_task_count s - Z.of_nat n.
Proof.
  induction n as [|n IH]; intros Hn; [cbn; lia|]. change (written (S n) s) with (OeSession_decr_task_count (written n s)).
  unfold OeSession_decr_task_count, set_task_count. cbn [outstanding_task_count]. rewrite IH by lia.
  rewrite wraps_id by (unfold in_s; lia). lia.
Qed.

(** C33  Once a command has been sent, which counts the tasks of the session
    down and nothing ever up, the loss of the connection tells nobody: after
    any run every command that waits goes on waiting, the session stays among
    those of the net, and the next commands are still written to it. *)
Theorem disconnect_tells_nobody (s : OeSession) (A A' : abs) (es : list event) (cmds : list OekMsg)
    (outs : list (nat * OEK_Context)) (b : B) (w : world (B := B))
    (Hco : connected s = true) (Hrun : asteps A es cmds outs A')
    (Hrep : rep s (waiting A) (queued A) b w) (Hin : input b = partial A)
    (Htasks : - 2 ^ 31 + Z.of_nat (length cmds) ≤ outstanding_task_count s < 0) :
  ∃ w1 w2, run arrive es w = Some w1 ∧ _cleanup_conn wire_peek wire_read w1 = Some w2 ∧
    told w2 = told w ++ outs ∧ pending w2 = pending w1 ∧ contexts w2 = contexts w1 ∧
    (∀ c x ctx, waiting A' !! c = Some (x, ctx) → contexts w2 !! x = Some ctx) ∧
    IdSet.Oec_IdSet_member (Client.sessions w2) (sess_id s) = true.
Proof using arrive_input arrive_output.
  destruct (run_refines arrive arrive_input arrive_output _ _ _ _ _ Hrun s b w Hco Hrep Hin)
    as (b1 & w1 & E & Hrep1 & _ & _ & Et). pose proof Hrep1 as [Ht Es Hcl Hcn Hm Hq Hh Hid].
  set (s1 := OeSession_state_set (OeSession_state_clear (written (length cmds) s) OENET_CLIENT_CONNECTED) OENET_CLIENT_CLOSING).
  exists w1, (set_session (Live s1) w1). split; [done|]. split.
  - unfold _cleanup_conn. rewrite Es. cbn [live mbind option_bind]. fold s1.
    change (outstanding_task_count s1) with (outstanding_task_count (written (length cmds) s)).
    rewrite written_count by done. by rewrite (proj2 (Z.eqb_neq _ 0)) by lia.
  - split_and!; [done|done|done| |].
    + intros c x ctx Hc. by destruct (held_waiting _ _ _ _ _ _ Hh Hc) as [? _].
    + assert (sess_id (written (length cmds) s) = sess_id s) as Ei by (clear; induction cmds; done). by rewrite Ei in Hm.
Qed.

(** *** Where nothing was sent *)

Lemma con_closed_ok x ctx w : contexts w !! x = Some ctx → write_response_cb ctx = true →
  ∃ w', _send_con_closed x w = Some w' ∧ contexts w' = delete x (contexts w) ∧ pending w' = pending w ∧
    length (told w') = S (length (told w)).
Proof.
  intros Hx Hcb. unfold _send_con_closed. rewrite Hx. cbn [mbind option_bind].
  change (OekMsg_new OEK_ERR) with (Some (mkOekMsg OEK_ERR 0 0 true (D_err OekErr_new))). cbn [mbind option_bind].
  match goal with |- context [OekMsg_get_err ?m] => change (OekMsg_get_err m) with (Some OekErr_new) end. cbn [mbind option_bind].
  unfold call_back, upd_context. cbn [contexts set_contexts]. rewrite lookup_alter_eq, Hx. cbn [fmap option_fmap option_map mbind option_bind].
  cbn [write_response_cb set_err]. rewrite Hcb. eexists. split; [done|]. cbn. rewrite length_app. cbn. split_and!; [|done|lia].
  apply map_eq. intros y. rewrite !lookup_delete. case_decide; [done|]. by rewrite lookup_alter_ne.
Qed.

Lemma array_entry i W t p : table_wf t → bmap ecls (buckets t) = entries i W → p ∈ ArenaTable_toArray t →
  ∃ x ctx, W !! ecls p = Some (x, ctx) ∧ p = (mkKey (ecls p) x, mkAC x i).
Proof.
  intros Hwf He Hp. assert (bmap ecls (buckets t) !! ecls p = Some p) as Hl.
  { apply (bmap_lookup ecls (eslot t)); [apply Hwf|]. split; [exact Hp|done]. }
  rewrite He, entries_lookup in Hl. destruct (W !! ecls p) as [[x ctx]|]; [|done]. injection Hl as Hl. by eauto.
Qed.

Lemma cleanup_loop_ok i sz l : ∀ k W w,
  tabled i W w → held w (holders W []) → NoDup (ecls <$> l) →
  (∀ p, p ∈ l → ∃ x ctx, W !! ecls p = Some (x, ctx) ∧ p = (mkKey (ecls p) x, mkAC x i)) →
  ∃ w', cleanup_loop k sz l w = Some w' ∧
    length (told w') = (length (told w) + length l `min` Z.to_nat ((sz - k + 1) / 2))%nat.
Proof.
  induction l as [|[key pc] l IH]; intros k W w Ht Hh Hn Hl; [exists w; split; [done|cbn; lia]|].
  cbn [cleanup_loop]. destruct (Z.ltb_spec k sz) as [Hk|Hk].
  - destruct (Hl (key, pc) ltac:(left)) as (x & ctx & Hc & E). injection E as -> ->. cbn in Hc.
    destruct (held_waiting _ _ _ _ _ _ Hh Hc) as (Hx & Hcb & Hh').
    unfold alive. cbn [key_arena]. rewrite (bool_decide_eq_true_2 _) by (rewrite Hx; eauto). cbn [c_assert mbind option_bind].
    destruct (remove_ok i W w (mkKey (cid key) x) x ctx Ht (held_alive _ _ _ Hh) Hc) as (p & Er & Htr).
    rewrite Er. cbn [mbind option_bind context].
    destruct (con_closed_ok x ctx (set_pending p w) Hx Hcb) as (w1 & E1 & Ec1 & Ep1 & El1). rewrite E1. cbn [mbind option_bind].
    apply list.NoDup_cons in Hn as [Hk1 Hn].
    destruct (IH (k + 2) (delete (cid key) W) w1) as (w' & E' & El').
    + by eapply tabled_same.
    + eapply held_other; [exact Hh'|]. intros y Hy. rewrite Ec1. cbn in Hy |- *. by rewrite lookup_delete_ne.
    + done.
    + intros q Hq. destruct (Hl q ltac:(by right)) as (y & c' & Hy & Eq). exists y, c'. split; [|done].
      rewrite lookup_delete_ne; [done|]. intros Ek. apply Hk1. apply list_elem_of_fmap. exists q. by split.
    + exists w'. split; [done|]. rewrite El', El1. cbn [length told set_pending].
      replace (sz - k + 1) with (sz - (k + 2) + 1 + 1 * 2) by lia. rewrite Z.div_add by lia.
      assert (0 ≤ (sz - (k + 2) + 1) / 2) by (apply Z.div_pos; lia). lia.
  - exists w. split; [done|]. assert ((sz - k + 1) / 2 < 1) by (apply Z.div_lt_upper_bound; lia). lia.
Qed.

(** When the clean-up does run, it tells only every second of the commands
    that wait, rounded up, and releases the table with the others. *)
Theorem clean_up_half (i : Z) (W : waiting_map) (w : world (B := B))
    (Ht : tabled i W w) (Hh : held w (holders W [])) :
  ∃ w', _cleanup w = Some w' ∧ pending w' = Freed ∧
    length (told w') = (length (told w) + Nat.div2 (base.size W + 1))%nat.
Proof.
  pose proof Ht as (t & Ep & Hwf & He). unfold _cleanup. rewrite Ep. cbn [live mbind option_bind].
  destruct (toArray_spec t Hwf) as [Hlen _]. assert (base.size (tmap t) = base.size W) as Hsz.
  { unfold tmap. rewrite map_size_fmap, He. unfold entries. rewrite map_size_fmap.
    rewrite <-!size_dom. f_equal. apply set_eq. intros c. rewrite !elem_of_dom, map_lookup_imap. unfold is_Some. destruct (W !! c); cbn; naive_solver. }
  destruct (cleanup_loop_ok i (ArenaTable_length t) (ArenaTable_toArray t) 0 W w Ht Hh) as (w' & E & El).
  { apply Hwf. } { intros p Hp. by apply (array_entry i W t). }
  rewrite E. cbn [mbind option_bind]. eexists. split; [done|]. split; [done|]. cbn [told set_pending]. rewrite El.
  f_equal. unfold ArenaTable_length. destruct Hwf as [_ _ _ Hl]. rewrite Hl in Hlen |- *. unfold ArenaTable_toArray.
  rewrite Hsz in Hlen. replace (length (concat (buckets t))) with (base.size W) by lia.
  rewrite Nat.div2_div. rewrite Z.sub_0_r. change 1 with (Z.of_nat 1) at 1. change 2 with (Z.of_nat 2).
  rewrite <-Nat2Z.inj_add, <-Nat2Z.inj_div, Nat2Z.id. apply Nat.min_r.
  destruct (base.size W) as [|n]; [done|]. apply Nat.Div0.div_le_upper_bound. lia.
Qed.
End disconnect.

(** ** Addresses *)

Lemma memchr_found c l r : c ∉ l → memchr c (l ++ c :: r) = Some (length l).
Proof.
  induction l as [|x l IH]; intros Hc; cbn [app memchr]; [by rewrite Z.eqb_refl|].
  apply not_elem_of_cons in Hc as [Hx Hc]. rewrite (proj2 (Z.eqb_neq x c)) by congruence. by rewrite IH.
Qed.
Lemma memchr_absent c l : c ∉ l → memchr c l = None.
Proof.
  induction l as [|x l IH]; intros Hc; [done|]. cbn [memchr]. apply not_elem_of_cons in Hc as [Hx Hc].
  rewrite (proj2 (Z.eqb_neq x c)) by congruence. by rewrite IH.
Qed.
Lemma digits_value_stop l c r : ∀ a, Forall (λ c, 48 ≤ c ≤ 57) l → c_digit c = false →
  digits_value a (l ++ c :: r) = digits_value a l.
Proof.
  induction l as [|d l IH]; intros a Hl Hc; cbn [app digits_value]; [by rewrite Hc|].
  apply Forall_cons_1 in Hl as [Hd Hl]. destruct (c_digit d); [by apply IH|done].
Qed.
Lemma atoi_stop n c r : 0 ≤ n → small n → c_digit c = false → atoi (decimal n ++ c :: r) = n.
Proof.
  intros H0 Hn Hc. rewrite <-(atoi_decimal n Hn) at 2. destruct (decimal_shape n) as (d & l & -> & Hall & _).
  rewrite (proj2 (Z.ltb_ge n 0)) by done. pose proof Hall as Hd. apply Forall_cons_1 in Hd as [Hd _]. cbn in Hd.
  assert (∀ k, skip_spaces (d :: k) = d :: k) as Hs.
  { intros k. cbn [skip_spaces]. by replace (c_space d) with false by (unfold c_space; lia). }
  unfold atoi. rewrite <-app_comm_cons, !Hs. destruct (Z.eqb_spec d 45); [lia|]. destruct (Z.eqb_spec d 43); [lia|].
  by rewrite app_comm_cons, digits_value_stop.
Qed.

(** An address [proto://host:port/extent] is taken apart into the host,
    the port and, of the name of the extent, as many characters as host and
    port have together. *)
Theorem address_parsed (proto host ext : list Z) (port : Z)
    (Hproto : 58 ∉ proto) (Hhost : 58 ∉ host ∧ 47 ∉ host) (Hport : 0 < port < 2 ^ 31) :
  let hostport := host ++ 58 :: decimal port in
  let spec := proto ++ 58 :: 47 :: 47 :: hostport ++ 47 :: ext in
  oepu_get_hostname_from_spec spec = Some (Some host) ∧
  oepu_get_port_from_spec spec = Some port ∧
  oepu_get_extentname_from_spec spec = Some (Some (take (length hostport) ext)).
Proof.
  intros hostport spec. destruct Hhost as [Hh1 Hh2].
  assert (_strip_proto_from_spec spec = Some (Some (hostport ++ 47 :: ext))) as Hstrip.
  { unfold _strip_proto_from_spec, spec. rewrite memchr_found by done.
    destruct (Nat.leb_spec (length proto + 3) (length (proto ++ 58 :: 47 :: 47 :: hostport ++ 47 :: ext)));
      [|rewrite length_app in *; cbn [length] in *; lia].
    do 2 f_equal. replace (proto ++ 58 :: 47 :: 47 :: hostport ++ 47 :: ext) with ((proto ++ [58; 47; 47]) ++ hostport ++ 47 :: ext)
      by (by rewrite <-app_assoc). apply drop_app_length'. rewrite length_app. cbn. lia. }
  assert (small port) as Hs by (unfold small; lia).
  unfold oepu_get_hostname_from_spec, oepu_get_port_from_spec, oepu_get_extentname_from_spec. rewrite Hstrip.
  cbn [mbind option_bind].
  assert (hostport ++ 47 :: ext = host ++ 58 :: (decimal port ++ 47 :: ext)) as Eh by (unfold hostport; by rewrite <-app_assoc).
  assert (memchr 58 (hostport ++ 47 :: ext) = Some (length host)) as -> by (rewrite Eh; by apply memchr_found).
  assert (memchr 47 (hostport ++ 47 :: ext) = Some (length hostport)) as ->.
  { apply memchr_found. unfold hostport. rewrite not_elem_of_app, not_elem_of_cons. split_and!; [done|lia|].
    destruct (decimal_digits port ltac:(lia)) as (c & l & -> & Hall & _). rewrite list.Forall_forall in Hall.
    intros Hin. specialize (Hall 47 Hin). cbn in Hall. lia. }
  split_and!.
  - rewrite Eh. by rewrite take_app_length.
  - replace (drop (length host + 1) (hostport ++ 47 :: ext)) with (decimal port ++ 47 :: ext).
    + rewrite atoi_stop by (done || lia). by rewrite (proj2 (Z.leb_gt port 0)) by lia.
    + rewrite Eh, (cons_middle 58), app_assoc. symmetry. apply drop_app_length'. rewrite length_app. cbn. lia.
  - do 2 f_equal. replace (drop (length hostport + 1) (hostport ++ 47 :: ext)) with ext; [done|].
    rewrite (cons_middle 47), app_assoc. symmetry. apply drop_app_length'. rewrite length_app. cbn. lia.
Qed.

(** ** Connecting *)

Section connect.
Context (usable : nat → nat) {B : Type} `{BuffereventSpec B} `{BP : BisonParser}.
Context (arrive : B → list Z → B).
Context (arrive_input : ∀ b l, input (arrive b l) = input b ++ l).
Context (arrive_output : ∀ b l, output (arrive b l) = output b).
#[local] Instance connect_events : Wire B := jcl_wire usable.
#[local] Instance connect_client : ClientWire B := jcl_client usable.

Definition connected_answer (i : Z) : OekMsg := mkOekMsg CON_RES 1 0 true (D_con_res (mkConRes (0, 0, 0) None i)).

Lemma connected_text i :
  jcl_text (connected_answer i) ++ [10; 10] = bytes_of "response(cmd=connect cid=1 sid=" ++ decimal i ++ [41; 59; 10; 10].
Proof.
  unfold jcl_text, connected_answer, statement_of, response, st_text. cbn [data st_kind st_args st_data args_text].
  unfold arg_text. cbn [arg_kind]. change (decimal (cor_id _)) with [49].
  repeat (rewrite <-app_assoc; cbn [app]). reflexivity.
Qed.
Lemma no_c_digits i : 0 ≤ i → memchr 99 (bytes_of "id=1 sid=" ++ decimal i ++ [41; 59; 10; 10]) = None.
Proof.
  intros Hi. apply memchr_absent. rewrite !not_elem_of_app. split_and!.
  - by apply (bool_decide_unpack _).
  - destruct (decimal_digits i Hi) as (c & l & -> & Hall & _). rewrite list.Forall_forall in Hall.
    intros Hin. specialize (Hall 99 Hin). cbn in Hall. lia.
  - by apply (bool_decide_unpack _).
Qed.
Lemma connect_tag i : 0 ≤ i →
  oe_memmem (bytes_of "response(cmd=connect cid=1 sid=" ++ decimal i ++ [41; 59; 10; 10]) OeJclNet_CID_TAG = None.
Proof.
  intros Hi. pose proof (no_c_digits i Hi) as Hn. set (l := decimal i ++ [41; 59; 10; 10]) in *.
  assert (∀ fuel h off, memchr 99 h = None → memmem_go fuel h OeJclNet_CID_TAG off = None) as Hgo.
  { intros [|fuel] h off Hh; [done|]. destruct h; [done|].
    change OeJclNet_CID_TAG with (99 :: tail OeJclNet_CID_TAG). cbn [memmem_go]. by rewrite Hh. }
  change (oe_memmem (bytes_of "response(cmd=connect cid=1 sid=" ++ l) OeJclNet_CID_TAG) with
    (memmem_go (29 + length l) (bytes_of "id=1 sid=" ++ l) OeJclNet_CID_TAG 22). by apply Hgo.
Qed.

Lemma connected_goes i : id_ok i → jcl_goes usable (connected_answer i).
Proof.
  intros Hi. split; [|by split; repeat constructor]. split; [reflexivity|].
  split; [unfold id_ok; cbn; lia|]. split; [unfold id_ok; cbn; lia|exact Hi].
Qed.

(** The client as [connect_begin] leaves it *)
Lemma begun (subject : Subject) (spec host : list Z) (ext : option (list Z)) (port : Z) conctx (b : B) (x : nat) (cmd : OekMsg) w0 :
  OepClient_new subject = Some w0 →
  oepu_get_hostname_from_spec spec = Some (Some host) → oepu_get_port_from_spec spec = Some port → 0 < port →
  oepu_get_extentname_from_spec spec = Some ext → conctx host port = Some b → connect_cmd subject ext = Some cmd →
  ∃ w1, connect_begin subject spec conctx x w0 = Some (inr w1) ∧
    rep (OeSession_set_id (oesession_new 1) 1) ∅ [(x, mkContext 0 cmd true None None)] b w1 ∧ told w1 = [].
Proof.
  intros Hw Hh Hp Hpos He Hb Hc. revert Hw. unfold OepClient_new.
  destruct (ArenaTable_new 100) as [t|] eqn:Et; [|done]. destruct (IdSet.Oec_IdSet_new 100) as [ids|] eqn:Ei; [|done].
  cbn [mbind option_bind]. intros [= <-]. destruct (table_new_wf _ _ Et) as [Hwf Hm].
  set (wb := mkWorld ∅ (Live t) (Live (OeSession_set_id (oesession_new 1) 1)) (NetSpec.conn b) (IdSet.Oec_IdSet_put ids 1) 1 [] []).
  assert (rep (OeSession_set_id (oesession_new 1) 1) ∅ [] b wb) as Hrep.
  { split; [|done|done|done| |done| |by intros c p].
    - exists t. split_and!; [done..|]. revert Hm. unfold tmap. intros Hm%fmap_empty_inv. rewrite Hm.
      apply map_eq. intros c. by rewrite entries_lookup.
    - unfold IdSet.Oec_IdSet_new in Ei. destruct (HSet.set_new_wf _ _ Ei) as [Hset _].
      cbn. destruct (HSet.set_put_spec ids (mkItem 1) Hset) as [W1 M1]. unfold IdSet.Oec_IdSet_put, IdSet.Oec_IdSet_member.
      rewrite HSet.member_spec by done. rewrite M1.
      apply bool_decide_eq_true_2. cbn. rewrite lookup_insert_eq. by eexists.
    - split; [by constructor|]. constructor. }
  destruct (send_ok arrive (OeSession_set_id (oesession_new 1) 1) ∅ [] b wb x (mkContext 0 cmd true None None) Hrep)
    as (w1 & E & Hrep1 & Et1); [cbn; by apply not_elem_of_nil|done|].
  exists w1. split; [|by split]. unfold connect_begin. rewrite Hh. cbn [mbind option_bind]. rewrite He, Hp. cbn [mbind option_bind].
  rewrite (proj2 (Z.leb_gt port 0)) by done. rewrite Hb. cbn [mbind option_bind]. rewrite Hc. cbn [mbind option_bind].
  transitivity (w ← step arrive (E_send x (mkContext 0 cmd true None None)) wb; Some (inr (A := Z) w)); [reflexivity|by rewrite E].
Qed.

(** C32  Connecting: the command is written with the user's name and password
    and the extent of the address, the answer is found although its id is
    not, and the client is then connected under session 1, with nothing
    waiting and its task count at -1. *)
Theorem connect_succeeds (subject : Subject) (spec host : list Z) (ext : option (list Z)) (port : Z)
    (conctx : list Z → Z → option B) (b : B) (x : nat) (cmd : OekMsg) (i : Z) (w0 : world (B := B))
    (Hw : OepClient_new subject = Some w0)
    (Hhost : oepu_get_hostname_from_spec spec = Some (Some host))
    (Hport : oepu_get_port_from_spec spec = Some port) (Hpos : 0 < port)
    (Hext : oepu_get_extentname_from_spec spec = Some ext)
    (Hb : conctx host port = Some b) (Hin : input b = [])
    (Hcmd : connect_cmd subject ext = Some cmd) (Hg : jcl_goes usable cmd) (Hi : id_ok i) :
  ∃ w1 w2 w3 w4 c b4, connect_begin subject spec conctx x w0 = Some (inr w1) ∧
    step arrive E_run w1 = Some w2 ∧
    step arrive (E_bytes (jcl_text (connected_answer i) ++ [10; 10])) w2 = Some w3 ∧
    told w3 = [(x, c)] ∧ res_msgs c = Some [connected_answer i] ∧ connect_end c w3 = Some (0, w4) ∧
    rep (OeSession_state_set (written 1 (OeSession_set_id (oesession_new 1) 1)) OENET_CLIENT_CONNECTED) ∅ [] b4 w4 ∧
    input b4 = [] ∧ output b4 = output b ++ jcl_text cmd ++ [10; 10].
Proof using arrive_input arrive_output.
  destruct (begun subject spec host ext port conctx b x cmd w0 Hw Hhost Hport Hpos Hext Hb Hcmd) as (w1 & E1 & Hrep1 & Et1).
  assert (cor_id cmd = 1) as Hid by (revert Hcmd; unfold connect_cmd; cbn; by intros [= <-]).
  destruct (client_run_ok arrive _ ∅ [] b w1 x _ Hrep1) as (b2 & w2 & E2 & Hrep2 & Hi2 & Ho2 & Et2);
    [exact Hg|cbn [cmd_msg]; by rewrite Hid|by apply lookup_empty|].
  cbn [cmd_msg] in Hrep2, Ho2. rewrite Hid in Hrep2. set (l := jcl_text (connected_answer i) ++ [10; 10]).
  set (s2 := written 1 _) in Hrep2. set (b3 := arrive b2 l).
  assert (input b3 = l) as Hi3 by (subst b3; by rewrite arrive_input, Hi2, Hin).
  assert (input b3 = jcl_text (connected_answer i) ++ 10 :: 10 :: []) as Hi3' by done.
  assert (fits b3) as Hb3.
  { unfold fits. rewrite Hi3. unfold l. rewrite connected_text, !length_app. pose proof (id_short i Hi).
    change (length (bytes_of "response(cmd=connect cid=1 sid=")) with 31%nat. cbn [length]. lia. }
  destruct (@wire_read_ok B _ _ connect_events b3 (connected_answer i) [] (connected_goes i Hi) Hb3 Hi3') as (b4 & Er & Hi4 & Ho4).
  set (w2' := set_conn (NetSpec.conn b3) w2).
  assert (rep s2 {[1 := (x, mkContext 0 cmd true None None)]} [] b3 w2') as Hrep2'.
  { destruct Hrep2 as [Ht Es Hcl Hcn Hm Hq Hh Hnz]. by split. }
  set (c3 := mkContext 0 cmd true (Some [connected_answer i]) None).
  destruct (absorb_message false s2 {[1 := (x, mkContext 0 cmd true None None)]} [] b3 b4 w2' (connected_answer i) ∅ [(x, c3)])
    as (w3 & Hrep3 & Et3 & Hrun3); [done|done| | |exact Er|].
  { unfold absorb1. rewrite lookup_singleton_eq. cbn [mbind option_bind]. change (cor_id (connected_answer i)) with 1.
    by rewrite delete_singleton_eq. }
  { cbn [wire_peek connect_client jcl_client]. unfold OeJclNet_peek_cid, peek_cid. rewrite available_ok.
    cbn [mbind option_bind]. rewrite get_pos_ok; [|done|].
    - rewrite Hi3. unfold l. rewrite connected_text, connect_tag by (unfold id_ok in Hi; lia). done.
    - rewrite Hi3. unfold l. rewrite connected_text. done. }
  assert (step arrive (E_bytes l) w2 = Some w3) as E3.
  { cbn [step]. destruct Hrep2 as [_ _ _ Hcn _ _ _ _]. rewrite Hcn. cbn [mbind option_bind NetSpec.conn oenetconn_get_conn_obj conn_obj oenetconn_set_conn_obj].
    change (oenetconn_set_conn_obj (NetSpec.conn b2) (arrive b2 l)) with (NetSpec.conn b3). rewrite Hrun3, Hi4. done. }
  pose proof Hrep3 as [Ht Es Hcl Hcn Hm Hq Hh Hnz].
  exists w1, w2, w3, (set_session (Live (OeSession_state_set s2 OENET_CLIENT_CONNECTED)) w3), c3, b4.
  split; [done|]. split; [done|]. split; [done|]. split; [by rewrite Et3; cbn; rewrite Et2, Et1|]. split; [done|].
  split; [|split; [|split; [done|by rewrite Ho4; subst b3; rewrite arrive_output]]].
  - unfold connect_end. cbn [err_msg res_msgs c3 mbind option_bind Oec_AList_get Oec_AList_length]. cbn. by rewrite Es.
  - split; [done|done| |done..]. by vm_compute.
Qed.
End connect.

(** ** Applied *)

Section demos.
#[local] Existing Instance descent_parser.
#[local] Existing Instance pair_event.
#[local] Existing Instance pair_spec.
Let buffer : Type := list Z * list Z.
Let room : nat → nat := JclSpec.demo_room.
#[local] Instance demo_events : Wire buffer := jcl_wire room.
#[local] Instance demo_client : ClientWire buffer := jcl_client room.
Let more (b : buffer) (l : list Z) : buffer := (b.1 ++ l, b.2).

#[local] Definition demo_put : OEK_Context := mkContext 0 JclSpec.demo_message true None None.
#[local] Definition put_answer : OekMsg := mkOekMsg PUT_RES 7 0 true (D_put_res (mkPutRes 5)).
#[local] Definition put_done : OEK_Context := mkContext 0 JclSpec.demo_message true (Some [put_answer]) None.
#[local] Definition demo_session : OeSession :=
  OeSession_state_set (OeSession_decr_task_count (oesession_new 1)) OENET_CLIENT_CONNECTED.
#[local] Definition demo_table : pending_table := mkTable 509 0 0 (replicate 509 []).
#[local] Definition demo_net : id_set := IdSet.Oec_IdSet_put (HSet.mkSet 509 0 0 (replicate 509 [])) 1.
#[local] Definition demo_world : world (B := buffer) :=
  mkWorld ∅ (Live demo_table) (Live demo_session) (NetSpec.conn ([], [])) demo_net 1 [] [].

Lemma demo_tabled (w : world (B := buffer)) : pending w = Live demo_table → tabled 1 ∅ w.
Proof.
  intros E. exists demo_table. split; [done|]. destruct (table_new_wf (V := ACContext) (K := CID_KEY) 100 demo_table eq_refl) as [Hwf Hm].
  split; [done|]. revert Hm. unfold tmap. intros Hm%fmap_empty_inv. rewrite Hm. apply map_eq. intros c. by rewrite entries_lookup.
Qed.
Lemma demo_rep : rep demo_session ∅ [] ([], []) demo_world.
Proof.
  split; [by apply demo_tabled|done|done|done|by vm_compute|done| |by intros c p].
  split; [by constructor|constructor].
Qed.
Lemma put_answers : jcl_answers room put_answer.
Proof.
  split; [|done]. split; [|by split; repeat constructor]. split; [reflexivity|].
  repeat split; unfold id_ok; cbn; lia.
Qed.
Lemma demo_part : jcl_part put_answer (take 10 (jcl_text put_answer)).
Proof.
  split; [by vm_compute|]. split.
  - exists (drop 10 (jcl_text put_answer) ++ [10]). by rewrite app_assoc, take_drop.
  - intros lit Hlit Hp. assert (forallb (λ lit, negb (bool_decide (bytes_of lit `prefix_of` jcl_text put_answer)) ||
      negb (length (bytes_of lit) <=? 10)%nat) answer_heads = true) as Hall by (vm_compute; reflexivity).
    rewrite forallb_forall in Hall. specialize (Hall lit (proj1 (list_elem_of_In _ _) Hlit)).
    rewrite bool_decide_eq_true_2 in Hall by done. cbn [negb orb] in Hall. apply negb_true_iff, Nat.leb_gt in Hall.
    change (length (take 10 (jcl_text put_answer))) with 10%nat. lia.
Qed.

(** A put whose answer comes in two pieces *)
#[local] Definition demo_events_list : list event :=
  [E_send 0 demo_put; E_run; E_bytes (take 10 (jcl_text put_answer)); E_bytes (drop 10 (jcl_text put_answer) ++ [10; 10])].
Lemma demo_run : asteps (mkAbs ∅ [] []) demo_events_list [JclSpec.demo_message] [(0%nat, put_done)] (mkAbs ∅ [] []).
Proof.
  apply (A_cons _ _ [] [] (mkAbs ∅ [(0%nat, demo_put)] []) _ [JclSpec.demo_message] [(0%nat, put_done)]).
  { apply (A_send ∅ [] [] 0 demo_put); [by apply not_elem_of_nil|done]. }
  apply (A_cons _ _ [JclSpec.demo_message] [] (mkAbs {[7 := (0%nat, demo_put)]} [] []) _ [] [(0%nat, put_done)]).
  { apply (A_run ∅ [] [] 0 demo_put); [apply put_goes|done|done]. }
  apply (A_cons _ _ [] [] (mkAbs {[7 := (0%nat, demo_put)]} [] (take 10 (jcl_text put_answer))) _ [] [(0%nat, put_done)]).
  { apply (A_bytes _ _ _ _ []); [done|by vm_compute|by vm_compute|by constructor|done|].
    right. exists put_answer. split; [apply put_answers|]. split; [apply demo_part|by vm_compute; eexists]. }
  apply (A_cons _ _ [] [(0%nat, put_done)] (mkAbs ∅ [] []) _ [] []); [|constructor].
  apply (A_bytes _ _ _ _ [put_answer]); [by vm_compute|by vm_compute|by vm_compute| |by vm_compute|by left].
  apply list.Forall_cons_2; [apply put_answers|by constructor].
Qed.

Lemma client_answers_witness :
  ∃ b' w', run more demo_events_list demo_world = Some w' ∧ rep (written 1 demo_session) ∅ [] b' w' ∧ input b' = [] ∧
    output b' = stream [JclSpec.demo_message] ∧ told w' = [(0%nat, put_done)].
Proof.
  apply (client_answers more ltac:(done) ltac:(done) demo_session (mkAbs ∅ [] []) (mkAbs ∅ [] []) demo_events_list
    [JclSpec.demo_message] [(0%nat, put_done)] ([], []) demo_world); [done|apply demo_run|apply demo_rep|done].
Defined.

Lemma disconnect_tells_nobody_witness :
  ∃ w1 w2, run more [E_send 0 demo_put; E_run] demo_world = Some w1 ∧ _cleanup_conn wire_peek wire_read w1 = Some w2 ∧
    told w2 = [] ∧ pending w2 = pending w1 ∧ contexts w2 = contexts w1 ∧
    (∀ c x ctx, waiting (mkAbs {[7 := (0%nat, demo_put)]} [] []) !! c = Some (x, ctx) → contexts w2 !! x = Some ctx) ∧
    IdSet.Oec_IdSet_member (Client.sessions w2) (sess_id demo_session) = true.
Proof.
  apply (disconnect_tells_nobody more ltac:(done) ltac:(done) demo_session (mkAbs ∅ [] []) (mkAbs {[7 := (0%nat, demo_put)]} [] [])
    [E_send 0 demo_put; E_run] [JclSpec.demo_message] [] ([], []) demo_world); [done| |apply demo_rep|done|vm_compute; by split].
  apply (A_cons _ _ [] [] (mkAbs ∅ [(0%nat, demo_put)] []) _ [JclSpec.demo_message] []).
  { apply (A_send ∅ [] [] 0 demo_put); [by apply not_elem_of_nil|done]. }
  apply (A_cons _ _ [JclSpec.demo_message] [] (mkAbs {[7 := (0%nat, demo_put)]} [] []) _ [] []); [|constructor].
  apply (A_run ∅ [] [] 0 demo_put); [apply put_goes|done|done].
Defined.

(** Of two commands one is told. *)
#[local] Definition two_waiting : world (B := buffer) :=
  mkWorld {[0%nat := demo_put; 1%nat := demo_put]}
    (Live (ArenaTable_put (ArenaTable_put demo_table (mkKey 7 0) (mkAC 0 1)).1 (mkKey 8 1) (mkAC 1 1)).1)
    (Live demo_session) (NetSpec.conn ([], [])) demo_net 1 [] [].
Lemma two_tabled : tabled 1 {[7 := (0%nat, demo_put); 8 := (1%nat, demo_put)]} two_waiting.
Proof.
  destruct (demo_tabled demo_world eq_refl) as (t & [= <-] & Hwf & He).
  pose proof (put_entries demo_table (mkKey 7 0) (mkAC 0 1) Hwf) as H1. rewrite He, entries_lookup in H1. specialize (H1 eq_refl).
  destruct (put_spec demo_table (mkKey 7 0) (mkAC 0 1) Hwf) as (Hwf1 & _). 
  set (t1 := (ArenaTable_put demo_table (mkKey 7 0) (mkAC 0 1)).1) in *.
  pose proof (put_entries t1 (mkKey 8 1) (mkAC 1 1) Hwf1) as H2. rewrite H1 in H2.
  destruct (put_spec t1 (mkKey 8 1) (mkAC 1 1) Hwf1) as (Hwf2 & _).
  exists (ArenaTable_put t1 (mkKey 8 1) (mkAC 1 1)).1. split; [reflexivity|]. split; [exact Hwf2|].
  etrans; [apply H2; by rewrite lookup_insert_ne|]. cbn [kcls cid_ops cid].
  rewrite <-!(entries_insert 1 _ _ _ demo_put). done.
Qed.
Lemma clean_up_half_witness :
  ∃ w', _cleanup two_waiting = Some w' ∧ pending w' = Freed ∧ length (told w') = 1%nat.
Proof.
  assert (held two_waiting (holders {[7 := (0%nat, demo_put); 8 := (1%nat, demo_put)]} [])) as Hh.
  { split; [by apply (bool_decide_unpack _)|]. repeat constructor. }
  destruct (clean_up_half 1 {[7 := (0%nat, demo_put); 8 := (1%nat, demo_put)]} two_waiting two_tabled Hh) as (w' & E & Ep & El).
  exists w'. split; [exact E|]. split; [exact Ep|]. rewrite El. by vm_compute.
Defined.

Lemma address_parsed_witness :
  oepu_get_hostname_from_spec (bytes_of "oejcl://localhost:7777/contracts2026") = Some (Some (bytes_of "localhost")) ∧
  oepu_get_port_from_spec (bytes_of "oejcl://localhost:7777/contracts2026") = Some 7777 ∧
  oepu_get_extentname_from_spec (bytes_of "oejcl://localhost:7777/contracts2026") = Some (Some (bytes_of "contracts2026")).
Proof.
  apply (address_parsed (bytes_of "oejcl") (bytes_of "localhost") (bytes_of "contracts2026") 7777);
    [by apply (bool_decide_unpack _)|split; by apply (bool_decide_unpack _)|lia].
Defined.

(** The name of the extent is cut where it is longer than host and port. *)
Example extent_cut :
  oepu_get_extentname_from_spec (bytes_of "oejcl://h:80/contracts") = Some (Some (bytes_of "cont")).
Proof. by vm_compute. Qed.

#[local] Definition bob : Subject := Subject_set_pwd (Subject_set_username Subject_new (Some "bob")) (Some "secret").
#[local] Definition demo_spec : list Z := bytes_of "oejcl://localhost:7777/contracts".
#[local] Definition bob_connects : OekMsg :=
  mkOekMsg CON_CMD 1 0 true (D_con_cmd (mkConCmd (0, 5, 4) (Some "contracts") (Some "bob") (Some "secret") 1)).
Lemma bob_goes : jcl_goes room bob_connects.
Proof.
  split; [|split; [|done]; repeat (apply list.Forall_cons_2; [try by vm_compute|]); constructor].
  split; [reflexivity|]. split; [unfold id_ok; cbn; lia|]. split; [unfold id_ok; cbn; lia|].
  split_and!; (split; [unfold plain; by apply (bool_decide_unpack _)|cbn; lia]).
Qed.
Lemma connect_succeeds_witness :
  ∃ w0 w1 w2 w3 w4 c b4, OepClient_new (B := buffer) bob = Some w0 ∧
    connect_begin bob demo_spec (λ _ _, Some ([], [])) 0 w0 = Some (inr w1) ∧
    step more E_run w1 = Some w2 ∧
    step more (E_bytes (jcl_text (connected_answer 9) ++ [10; 10])) w2 = Some w3 ∧
    told w3 = [(0%nat, c)] ∧ res_msgs c = Some [connected_answer 9] ∧ connect_end c w3 = Some (0, w4) ∧
    rep (OeSession_state_set (written 1 (OeSession_set_id (oesession_new 1) 1)) OENET_CLIENT_CONNECTED) ∅ [] b4 w4 ∧
    input b4 = [] ∧ output b4 = output (([], []) : buffer) ++ jcl_text bob_connects ++ [10; 10].
Proof.
  destruct (OepClient_new (B := buffer) bob) as [w0|] eqn:E; [|discriminate E].
  assert (∃ host ext, oepu_get_hostname_from_spec demo_spec = Some (Some host) ∧
    oepu_get_extentname_from_spec demo_spec = Some ext ∧ connect_cmd bob ext = Some bob_connects) as (host & ext & E1 & E2 & E3).
  { do 2 eexists. split; [by vm_compute|]. split; [by vm_compute|]. by vm_compute. }
  exists w0. destruct (connect_succeeds room more ltac:(done) ltac:(done) bob demo_spec host ext 7777 (λ _ _, Some ([], [])) ([], [])
    0 bob_connects 9 w0 E E1 ltac:(by vm_compute) ltac:(lia) E2 eq_refl eq_refl E3 bob_goes ltac:(by vm_compute; split))
    as (w1 & w2 & w3 & w4 & c & b4 & Hall).
  exists w1, w2, w3, w4, c, b4. split; [done|exact Hall].
Defined.
End demos.
